(* ===== verification/_CoqProject ===== *)
-Q . S2P
Prelude.v
Json.v
JsonLoads.v
Regex.v
Redaction.v
RateLimit.v
ToolModels.v
ToolExecutor.v
ToolExecutorProps.v
Workflow.v
WorkflowFacts.v
WorkflowEngine.v
WorkflowGraph.v
WorkflowProps.v
Billing.v
Usage.v
Quota.v
QuotaFacts.v
QuotaProps.v
Lifecycle.v
AgentRuntime.v
AgentRuntimeFacts.v
AgentRuntimeProps.v
Runs.v
RunsProps.v
MultiAgent.v
MultiAgentFacts.v
MultiAgentProps.v
RagText.v
RagTextProps.v
RagSafety.v
Ingestion.v
RagQueue.v
Conversations.v
ConversationsProps.v
AuditLog.v
Workspaces.v
Auth.v
Memory.v
Prompts.v
AgentConfig.v
AgentConfigProps.v
WorkflowBuilder.v
WorkflowBuilderProps.v
BuiltinTools.v
BuiltinToolsProps.v
ChatService.v
ChatServiceProps.v
AgentRuntimeWorld.v
AgentModel.v
AgentService.v
AgentServiceProps.v
MultiAgentEvents.v
MultiAgentService.v
MultiAgentServiceProps.v
AgentApi.v
AgentApiProps.v
RunRecords.v
RunRecordsProps.v
MultiAgentApi.v
MultiAgentApiProps.v
Providers.v
ProvidersProps.v
WorkflowExecutors.v
WorkflowExecutorsProps.v
RagRetrieval.v
RagRetrievalProps.v
Evals.v
EvalsProps.v
RagEvals.v
Benchmarks.v
Mcp.v
McpProps.v
PdfReport.v
PdfReportService.v
PdfReportProps.v
AuthApi.v
HttpErrors.v
AgentsApi.v
