(* ===== verification/Prelude.v ===== *)
(** * ai-platform-mini: a verification of the application core

    The repository is a FastAPI service: chat, retrieval-augmented chat, tool
    using agents, multi-agent orchestration and declarative workflows, for many
    tenants, with quotas, billing and rate limits.  This library translates the
    code under [src/app] that decides something (state machines, schedulers,
    limits, validation, sanitising, parsing, isolation between tenants) into
    executable definitions and proves what makes it correct.

    ** How the parts interact

    A request passes the guards of [Auth] (API key, tenant) and [RateLimit],
    reserves tokens in [Quota] (limits from settings, workspace overrides and the
    plans of [Billing]; usage from [Usage]) whose reservation is settled or
    released by [Lifecycle], and then runs a chat ([ChatService]; [Conversations]
    bounds the history, [RagText] adds the context that [RagRetrieval] finds), an
    agent ([AgentService] around [AgentRuntime], whose model is [AgentModel], and
    which calls tools through [ToolExecutor]), several agents
    ([MultiAgentService] around [MultiAgent]) or a workflow ([WorkflowEngine]
    with the executors of [WorkflowExecutors], or the PDF report of
    [PdfReportService]).  Models are reached through [Providers], tools are the
    built-ins of [BuiltinTools] and those that [Mcp] discovers.  What a client
    sees of a run is projected by [AgentApi], [MultiAgentEvents] and
    [MultiAgentApi], with the texts cleaned by [Redaction]; the run is kept by
    [Runs] and [RunRecords].  Documents enter through [RagQueue], [Ingestion] and
    [RagSafety].  [Workspaces] manages members with [Billing]'s ceilings and
    writes to [AuditLog].  [AgentConfig] stores the agents of a workspace, with
    the prompts of [Prompts] and the tools that are enabled; [WorkflowBuilder]
    stores workflows, checks them against both and records their runs; [Memory]
    gives an agent what it learned.  [AuthApi] and [AgentsApi] are routes over
    these services; what they raise becomes a response in [HttpErrors].  [Evals],
    [RagEvals] and [Benchmarks] measure the answers.

    ** Files

    A part is one file, or a file of definitions with a file of theorems
    ([...Props], shared lemmas in [...Facts]).

    - [Prelude]: text as code points ([u "..."] decodes a literal), Python
      results as [result], dictionaries in insertion order, automation
      ([bools], [crush_match]) and the hint database [py].  [Json]: JSON values,
      stable sorting, [json.dumps], Python's float text.  [JsonLoads]:
      [json.loads].  [Regex]: regular expressions, their languages and a
      backtracking matcher; [Redaction] ([api/redaction.py]).
    - [RateLimit] ([ratelimit/]): [acquire] on the deque of a key; window bound.
    - [ToolModels], [ToolExecutor] ([tools/models.py], [registry.py],
      [executor.py]): registry, gates, schema validation, output truncation.
      [BuiltinTools] ([tools/calculator.py], [code_executor.py],
      [knowledge_search.py]).  [Mcp] ([mcp/]): protocol, client, manager, adapter.
    - [Workflow] (definitions, JSON, conditions, templates, validation, Kahn's
      order: [engine/models.py], [validation.py]), [WorkflowEngine]
      ([engine/executor.py]), [WorkflowGraph], [WorkflowBuilder]
      ([workflow_builder/]: models, in-memory repositories, service),
      [WorkflowExecutors] ([workflow_builder/executors.py]).
    - [Billing] ([billing/]: models, in-memory repository, entitlement, service,
      seeds); the class [BillingLaws] is what clients rely on.
    - [Usage] ([usage/]), [Quota] ([quota/models.py], [memory_repository.py],
      [service.py], [token_estimator.py]), [Lifecycle] ([quota/lifecycle.py]).
    - [AgentRuntime] ([agents/models.py], [runtime.py]): the run loop in a state
      and exception monad [M]; [AgentRuntimeFacts] has the invariant of the event
      log, [AgentRuntimeWorld] what a run does to the world of its tools and
      model.  [AgentModel], [AgentService] ([services/agent_service.py]),
      [AgentApi] ([api/agent.py]).
    - [Runs] ([runs/], [agents/stream.py]): the recorded trace of a run, the event
      stream to a client.  [RunRecords] ([services/agent_run_record_service.py],
      [multi_agent_run_record_service.py], [multi_agent_config_service.py]).
    - [Memory] ([memory/]), [Prompts] ([prompts/]), [AgentConfig]
      ([agent_config/]), [AgentsApi] ([api/agents.py], [tools.py], [prompts.py]).
    - [MultiAgent] ([multi_agent/models.py], [decision_factory.py],
      [orchestrator.py]), [MultiAgentEvents], [MultiAgentService]
      ([multi_agent/events.py], [supervisor.py], [service.py]), [MultiAgentApi]
      ([api/multi_agent.py]).
    - [ChatService] ([services/chat_service.py], [openai_service.py],
      [model_service.py]), [Providers] ([providers/openai.py], [ollama.py],
      [mock.py]).
    - [RagText] ([rag/chunker.py], [service.py]), [RagSafety] ([rag/safety.py]),
      [Ingestion] ([rag/ingestion.py]), [RagQueue] ([rag/queue.py]),
      [RagRetrieval] ([rag/hybrid.py], [reranker.py], [tokenize.py]).
    - [PdfReport], [PdfReportService] ([workflows/pdf_report.py],
      [services/workflow_service.py]).
    - [Evals], [RagEvals], [Benchmarks] ([evals/], [api/benchmarks.py]).
    - [Conversations] ([conversations/]), [AuditLog] ([audit/service.py]),
      [Workspaces] ([auth/workspaces_repository.py], [workspace_service.py]),
      [Auth] (the rest of [auth/]), [AuthApi] ([api/auth.py],
      [core/context.py]), [HttpErrors] ([exceptions/], [core/exceptions.py]).

    Definitions keep the names of the code; a handler is one definition that ends
    as the code ends, errors included ([Err] or a constructor per exception).  A
    record stands for each class with state.

    ** What is proved

    - Agent runs: every result's trace is numbered, in time order, closed and
      ends with its only [RUN_STOPPED]; a run ends; steps, tokens and the calls of
      tools and models are bounded; status, stop reason, answer and error agree;
      a reservation is settled or released with the run.
    - Tools: nothing runs unless all gates are open; outputs fit the limit and
      still satisfy their schema; the calculator computes what its grammar means.
      MCP exposes only the tools that the settings admit, a request reads its own
      answer, and servers that were started are closed.
    - Workflows: an invalid definition never runs; a valid one runs each node at
      most once, in a topological order found exactly when there is no cycle;
      definitions survive their JSON form; a published workflow is frozen; the
      effects of a run are those its context allows.
    - PDF reports: a report that needs an approval is written only after its
      owner approved it, decisions of concurrent requests exclude each other, and
      a decision's outcome is what the run records.
    - Recording: the trace of a run repeats the run and survives its records; a
      client's stream has its events in order and one end; the replay of a run is
      the stream; histories are their tenant's; no public text has a path.
    - Multi-agent: no task starts before its dependencies completed, at most the
      configured number run together, every orchestration ends, and well-behaved
      tasks all complete; the supervisor reads back the plan that was written.
    - Quota and billing: no interleaving of reservations exceeds a key's limits;
      a reservation is finalised once; a plan assignment changes one workspace.
    - Rate limiting: at most limit + 1 grants in any window (the code's own
      defect allows the extra one).
    - RAG: no context marker can be forged by a document; chunks rebuild the
      text; what is stored is what was checked; queued work is processed in
      order, once, and settled by [stop]; the fusion of two rankings orders by
      its scores.
    - Providers: a stream keeps its protocol whatever the server sends.
    - Evaluation: golden cases survive their text; metrics are shares.
    - Tenants: conversations are private and bounded; a workspace keeps its
      owner; members change only through managers; a revoked key never validates
      again; a registration opens a whole account or nothing; the agent routes
      keep to the caller's workspace; memories are the owner's; versions of a
      prompt never change; a workspace has no more agents than its plan allows.
    - Errors: every exception is answered by the handler of its most specific
      handled ancestor, and unexpected ones do not reveal their text.

    Theorems named after a defect ([acquire_exceeds_limit],
    [run_escapes_with_value_error], [previous_results_never_passed],
    [extend_exceeds_workspace_limit], [unbound_key_rewrites_prompts],
    [refusal_says_sixty_seconds] and others) exhibit where the code does not do
    what it means to.

    ** Conventions, bounds and fuel

    Time is a number: nanoseconds of the monotonic clock in [RateLimit] and
    [Auth], microseconds for instants, ticks of the deadline clock in
    [AgentRuntime]; each operation reads the clock once unless the code's
    ordering of reads matters, as in [AgentRuntime].  Python's integers are [Z]
    (texts of integers assume fewer than 4300 digits); floats are IEEE doubles.
    Fuel is used where recursion is not structural and is always shown to be
    enough: one more than the number of nodes for [kahn] and [visit], the length
    of the text for [chunk_loop] and [gsub], two more than the length for
    [search_summary], [max_steps] for [run_steps]; [_execute_dag] and [shrink]
    have their own termination theorems.  The 25 steps of [run_graph] are
    LangGraph's own recursion limit, and [mro] is checked on every class.

    Interleaving is modelled where the code awaits: repository operations in
    [Quota], the renewal task in [Lifecycle], worker and requests in [RagQueue],
    completions in [MultiAgent], decisions in [PdfReportService].  In-memory
    repositories never suspend, so their services' calls are atomic.

    Arguments of the definitions stand for what is outside: model backends, HTTP
    and subprocesses, embedders, parsers, random ids, clocks, SHA-256 and scrypt,
    [repr] and [str.lower] of arbitrary values.  What LangGraph and Starlette are
    documented to do are the classes [LangGraphLaws] and [StarletteLaws], each
    with a reference instance.

    ** Not modelled

    Routes that only read a request, call one service and copy its answer into a
    schema, and the schemas' validation by pydantic; SQL (the PostgreSQL
    repositories, the tables, pgvector and LangGraph's checkpointer), whose
    meaning is the database's; the container and most settings, which wire the
    services; logging, tracing and metrics; office, HTML and PDF parsing,
    embedders and the mock embedder, which call third-party libraries; the
    command line scripts and the front end. *)

From Stdlib Require Export ZArith Lia.
From stdpp Require Export sorting strings.
From stdpp Require Export base tactics option numbers gmap fin_maps list.

#[export] Set Default Goal Selector "!".

(** ** Text: a Python [str] is the list of its code points. *)
Abbreviation pystr := (list N).

(** Literals are written in UTF-8 in the source files; [u] decodes them. *)
Fixpoint bytes_of (s : string) : list N :=
  match s with
  | EmptyString => []
  | String a s' => Ascii.N_of_ascii a :: bytes_of s'
  end.

Fixpoint utf8_decode (l : list N) : pystr :=
  match l with
  | [] => []
  | b0 :: l0 =>
      if (b0 <? 128)%N then b0 :: utf8_decode l0 else
      if (b0 <? 224)%N then
        match l0 with
        | b1 :: l1 => ((b0 - 192) * 64 + (b1 - 128))%N :: utf8_decode l1
        | [] => []
        end
      else if (b0 <? 240)%N then
        match l0 with
        | b1 :: b2 :: l2 =>
            ((b0 - 224) * 4096 + (b1 - 128) * 64 + (b2 - 128))%N :: utf8_decode l2
        | _ => []
        end
      else
        match l0 with
        | b1 :: b2 :: b3 :: l3 =>
            ((b0 - 240) * 262144 + (b1 - 128) * 4096 + (b2 - 128) * 64
             + (b3 - 128))%N :: utf8_decode l3
        | _ => []
        end
  end.

Definition u (s : string) : pystr := utf8_decode (bytes_of s).

(** [len(s)] *)
Definition slen (s : pystr) : Z := Z.of_nat (length s).

(** [s[:n]] for [0 <= n]. *)
Definition sprefix (n : Z) (s : pystr) : pystr := take (Z.to_nat n) s.

Fixpoint starts_with (p s : pystr) : bool :=
  match p, s with
  | [], _ => true
  | a :: p', b :: s' => (a =? b)%N && starts_with p' s'
  | _ :: _, [] => false
  end.

(** [sep.join(parts)] *)
Fixpoint sjoin (sep : pystr) (parts : list pystr) : pystr :=
  match parts with
  | [] => []
  | [p] => p
  | p :: ps => p ++ sep ++ sjoin sep ps
  end.

(** Python's [str.isspace] characters. *)
Definition is_space (c : N) : bool :=
  ((9 <=? c) && (c <=? 13) || (28 <=? c) && (c <=? 32) || (c =? 133) || (c =? 160)
   || (c =? 5760) || (8192 <=? c) && (c <=? 8202) || (c =? 8232) || (c =? 8233)
   || (c =? 8239) || (c =? 8287) || (c =? 12288))%N.

(** [s.lstrip()] and the truth value of [s.strip()]. *)
Fixpoint lstrip (s : pystr) : pystr :=
  match s with
  | [] => []
  | c :: s' => if is_space c then lstrip s' else s
  end.

Definition strip (s : pystr) : pystr := rev (lstrip (rev (lstrip s))).

(** [s.split()]: the maximal runs of characters that are not white space. *)
Fixpoint split_ws_go (acc : pystr) (s : pystr) : list pystr :=
  match s with
  | [] => match acc with [] => [] | _ => [rev acc] end
  | c :: s' =>
      if is_space c
      then match acc with [] => split_ws_go [] s' | _ => rev acc :: split_ws_go [] s' end
      else split_ws_go (c :: acc) s'
  end.
Definition split_ws (s : pystr) : list pystr := split_ws_go [] s.

(** Decimal notation of an integer, [str(n)]. *)
Fixpoint digits_go (fuel : nat) (n : N) (acc : pystr) : pystr :=
  match fuel with
  | O => acc
  | S f =>
      let acc' := (48 + n mod 10)%N :: acc in
      if (n <? 10)%N then acc' else digits_go f (n / 10)%N acc'
  end.
Definition str_of_N (n : N) : pystr := digits_go (S (N.to_nat (N.log2 n))) n [].
Definition str_of_Z (z : Z) : pystr :=
  if (z <? 0)%Z then 45%N :: str_of_N (Z.to_N (- z)) else str_of_N (Z.to_N z).

(** ** Results: a Python call returns a value or raises. *)
Inductive result (E A : Type) : Type :=
| Ok (a : A)
| Err (e : E).
Arguments Ok {E A} a.
Arguments Err {E A} e.

#[export] Instance result_ret E : MRet (result E) := fun A a => Ok a.
#[export] Instance result_bind E : MBind (result E) :=
  fun A B k m => match m with Ok a => k a | Err e => Err e end.
#[export] Instance result_fmap E : FMap (result E) :=
  fun A B f m => match m with Ok a => Ok (f a) | Err e => Err e end.

(** [raise_if b e]: the guard [if b: raise e]. *)
Definition raise_if {E} (b : bool) (e : E) : result E unit := if b then Err e else Ok tt.

(** A [for] loop whose body may raise. *)
Fixpoint foldE {E A S} (f : S -> A -> result E S) (s : S) (l : list A) : result E S :=
  match l with
  | [] => Ok s
  | a :: l' => match f s a with Ok s' => foldE f s' l' | Err e => Err e end
  end.

(** ** Sums *)
Definition sumZ (l : list Z) : Z := foldr Z.add 0%Z l.

(** ** Insertion-ordered dictionaries, the Python [dict] whose order is observed. *)
Section Dict.
Context {V : Type}.
Implicit Types (d : list (pystr * V)) (k : pystr) (v : V).

Fixpoint dict_get k d : option V :=
  match d with
  | [] => None
  | (k', v) :: d' => if decide (k = k') then Some v else dict_get k d'
  end.

(** [d[k] = v]: an existing key keeps its position, a new one goes last. *)
Fixpoint dict_set k v d : list (pystr * V) :=
  match d with
  | [] => [(k, v)]
  | (k', v') :: d' => if decide (k = k') then (k', v) :: d' else (k', v') :: dict_set k v d'
  end.

Fixpoint dict_del k d : list (pystr * V) :=
  match d with
  | [] => []
  | (k', v') :: d' => if decide (k = k') then d' else (k', v') :: dict_del k d'
  end.

Definition dict_has k d : bool := match dict_get k d with Some _ => true | None => false end.
End Dict.

(** ** Automation *)

(** Splits every [if]/[match] of the goal, remembering the equations. *)
Ltac crush_match :=
  repeat (case_match; simplify_eq/=; try done).

(** Turns boolean tests in the context into propositions. *)
Ltac bools :=
  repeat match goal with
  | H : (_ && _) = true |- _ => apply andb_true_iff in H as [? ?]
  | H : (_ && _) = false |- _ => apply andb_false_iff in H
  | H : (_ || _) = false |- _ => apply orb_false_iff in H as [? ?]
  | H : (_ || _) = true |- _ => apply orb_true_iff in H
  | H : negb _ = true |- _ => apply negb_true_iff in H
  | H : negb _ = false |- _ => apply negb_false_iff in H
  | H : (_ <? _)%Z = true |- _ => apply Z.ltb_lt in H
  | H : (_ <? _)%Z = false |- _ => apply Z.ltb_ge in H
  | H : (_ <=? _)%Z = true |- _ => apply Z.leb_le in H
  | H : (_ <=? _)%Z = false |- _ => apply Z.leb_gt in H
  | H : (_ =? _)%Z = true |- _ => apply Z.eqb_eq in H
  | H : (_ =? _)%Z = false |- _ => apply Z.eqb_neq in H
  | H : (_ =? _)%N = true |- _ => apply N.eqb_eq in H
  | H : (_ =? _)%N = false |- _ => apply N.eqb_neq in H
  | H : bool_decide _ = true |- _ => apply bool_decide_eq_true in H
  | H : bool_decide _ = false |- _ => apply bool_decide_eq_false in H
  end.

Create HintDb py.

(** ** Lemmas shared by the components *)

Lemma sumZ_app l1 l2 : sumZ (l1 ++ l2) = (sumZ l1 + sumZ l2)%Z.
Proof. induction l1 as [|a l1 IH]; simpl; [done|]. unfold sumZ in *. lia. Qed.

(** A call that goes on after [m] returned because [m] returned. *)
Lemma bind_ok {E A B} (m : result E A) (k : A -> result E B) b :
  m ≫= k = Ok b -> exists a, m = Ok a /\ k a = Ok b.
Proof. destruct m as [a|e]; [eauto|done]. Qed.

(** Induction along a [for] loop that ends without an exception. *)
Lemma foldE_inv {E A S} (P : list A -> S -> Prop) (f : S -> A -> result E S) l :
  forall s s', foldE f s l = Ok s' -> P [] s ->
  (forall pre a s s', P pre s -> f s a = Ok s' -> P (pre ++ [a]) s') -> P l s'.
Proof.
  enough (H : forall pre s s', foldE f s l = Ok s' -> P pre s ->
    (forall pre a s s', P pre s -> f s a = Ok s' -> P (pre ++ [a]) s') -> P (pre ++ l) s')
    by (intros s s'; apply (H [])).
  induction l as [|a l IH]; intros pre s s'; simpl.
  - intros [= <-] ? _. by rewrite app_nil_r.
  - destruct (f s a) as [s1|e] eqn:Ef; [|done]. intros Hl HP Hstep.
    rewrite (cons_middle a pre l), app_assoc. eapply IH; eauto.
Qed.

(** A [for] loop that only checks its items. *)
Lemma foldE_check {E A} (f : A -> result E unit) l :
  foldE (fun _ a => f a) tt l = Ok tt <-> Forall (fun a => f a = Ok tt) l.
Proof.
  induction l as [|a l IH]; simpl; [done|]. rewrite Forall_cons, <- IH.
  destruct (f a) as [[]|] eqn:Ea; [naive_solver|]. split; [done|]. by intros [? _].
Qed.

Lemma raise_if_ok {E} b (e : E) : raise_if b e = Ok tt <-> b = false.
Proof. destruct b; simpl; split; congruence. Qed.

Lemma sprefix_length n s : (slen (sprefix n s) <= Z.max n 0)%Z.
Proof. unfold slen, sprefix. rewrite length_take. lia. Qed.

Lemma starts_with_app p s : starts_with p (p ++ s) = true.
Proof. induction p as [|a p IH]; simpl; [done|]. by rewrite N.eqb_refl. Qed.

Lemma starts_with_true p s : starts_with p s = true <-> exists t, s = p ++ t.
Proof.
  split.
  - revert s. induction p as [|a p IH]; intros s H; [by exists s|].
    destruct s as [|b s]; [done|]. simpl in H. bools. subst.
    destruct (IH s) as [t ->]; [done|]. by exists t.
  - intros [t ->]. apply starts_with_app.
Qed.

Lemma Forall_filter {A} (P Q : A -> Prop) `{forall x, Decision (Q x)} l :
  Forall P l -> Forall P (filter Q l).
Proof. rewrite !Forall_forall. intros H' x [_ Hx]%list_elem_of_filter. by apply H'. Qed.

Lemma sorted_snoc {A} (R : A -> A -> Prop) l x :
  StronglySorted R l -> Forall (fun y => R y x) l -> StronglySorted R (l ++ [x]).
Proof.
  induction 1 as [|y l Hl IH Hy]; intros Hx; simpl; [by repeat constructor|].
  apply Forall_cons in Hx as [Hyx Hx]. constructor; [by apply IH|]. apply Forall_app. by repeat constructor.
Qed.

Lemma sorted_filter {A} (R : A -> A -> Prop) (P : A -> Prop) `{forall x, Decision (P x)} l :
  StronglySorted R l -> StronglySorted R (filter P l).
Proof.
  induction 1 as [|x l _ IH Hx]; [constructor|]. rewrite filter_cons. case_decide; [|done].
  constructor; [done|]. by apply Forall_filter.
Qed.

Section DictLemmas.
Context {V : Type}.
Implicit Types (d : list (pystr * V)) (k : pystr) (v : V).

Lemma dict_get_set k k' v d :
  dict_get k (dict_set k' v d) = if decide (k = k') then Some v else dict_get k d.
Proof.
  induction d as [|[k0 v0] d IH]; simpl; [by repeat case_decide|].
  destruct (decide (k' = k0)); simpl; repeat case_decide; congruence.
Qed.

Lemma dict_set_keys_mem k v d k' :
  k' ∈ (dict_set k v d).*1 <-> k' = k \/ k' ∈ d.*1.
Proof.
  induction d as [|[k0 v0] d IH]; simpl; [set_solver|].
  case_decide; simpl; set_solver.
Qed.

Lemma dict_set_NoDup k v d : NoDup d.*1 -> NoDup (dict_set k v d).*1.
Proof.
  induction d as [|[k0 v0] d IH]; simpl; intros Hd.
  - repeat constructor. set_solver.
  - apply NoDup_cons in Hd as [Hn Hd]. case_decide; simpl.
    + by constructor.
    + constructor; [|by apply IH]. rewrite dict_set_keys_mem. naive_solver.
Qed.

Lemma dict_set_fresh k v d : dict_get k d = None -> dict_set k v d = d ++ [(k, v)].
Proof.
  induction d as [|[k0 v0] d IH]; simpl; [done|].
  case_decide; [done|]. intros Hg. by rewrite IH.
Qed.

Lemma dict_get_mem k d : is_Some (dict_get k d) <-> k ∈ d.*1.
Proof.
  induction d as [|[k0 v0] d IH]; simpl.
  - split; [by intros [? ?]|set_solver].
  - case_decide; simpl; [subst; split; [set_solver|eauto]|]. rewrite IH. set_solver.
Qed.

Lemma dict_get_Some k v d : dict_get k d = Some v -> (k, v) ∈ d.
Proof.
  induction d as [|[k0 v0] d IH]; simpl; [done|].
  case_decide; intros; simplify_eq; [set_solver|]. apply elem_of_cons; auto.
Qed.
End DictLemmas.

(** The values of a dictionary that satisfy [P], under changes of other values *)
Definition others {V} (P : V -> Prop) `{forall v, Decision (P v)} (r : list (pystr * V)) : list V := filter P r.*2.

Lemma others_set {V} (P : V -> Prop) `{forall v, Decision (P v)} k (x y : V) r :
  dict_get k r = Some x -> ~ P x -> ~ P y -> others P (dict_set k y r) = others P r.
Proof.
  intros Hx Px Py. unfold others. induction r as [|[k' z] r IH]; [done|]. cbn [dict_get dict_set dict_del] in *.
  destruct (decide (k = k')) as [<-|Hk]; rewrite !fmap_cons, ?filter_cons.
  - injection Hx as ->. by rewrite !decide_False by done.
  - by rewrite IH.
Qed.

Lemma others_fresh {V} (P : V -> Prop) `{forall v, Decision (P v)} k (y : V) r :
  dict_get k r = None -> ~ P y -> others P (dict_set k y r) = others P r.
Proof.
  intros Hk Py. unfold others. rewrite dict_set_fresh by done.
  by rewrite fmap_app, filter_app, fmap_cons, fmap_nil, filter_cons, decide_False, filter_nil, app_nil_r by done.
Qed.

Lemma others_del {V} (P : V -> Prop) `{forall v, Decision (P v)} k (x : V) r :
  dict_get k r = Some x -> ~ P x -> others P (dict_del k r) = others P r.
Proof.
  intros Hx Px. unfold others. induction r as [|[k' z] r IH]; [done|]. cbn [dict_get dict_set dict_del] in *.
  destruct (decide (k = k')) as [<-|Hk]; rewrite !fmap_cons, ?filter_cons.
  - injection Hx as ->. by rewrite decide_False by done.
  - by rewrite IH.
Qed.

Lemma dict_get_del_ne {V} k k' (r : list (pystr * V)) : k <> k' -> dict_get k (dict_del k' r) = dict_get k r.
Proof.
  intros Hk. induction r as [|[k0 v] r IH]; [done|]. simpl. destruct (decide (k' = k0)) as [<-|]; simpl.
  - by rewrite decide_False.
  - by rewrite IH.
Qed.

Lemma dict_get_del {V} k (r : list (pystr * V)) : NoDup r.*1 -> dict_get k (dict_del k r) = None.
Proof.
  induction r as [|[k' v] r IH]; [done|]. simpl. intros [Hn Hd]%NoDup_cons.
  destruct (decide (k = k')) as [<-|Hk]; simpl; [|by rewrite decide_False, IH].
  destruct (dict_get k r) eqn:E; [|done]. destruct Hn. by apply dict_get_mem; rewrite E.
Qed.

Lemma dict_del_NoDup {V} k (r : list (pystr * V)) : NoDup r.*1 -> NoDup (dict_del k r).*1.
Proof.
  induction r as [|[k' v] r IH]; [done|]. simpl. intros [Hn Hd]%NoDup_cons. case_decide; [done|].
  simpl. constructor; [|by apply IH]. intros (x & -> & Hx)%list_elem_of_fmap. apply Hn, list_elem_of_fmap.
  exists x. split; [done|]. clear -Hx. induction r as [|[k0 v0] r IH]; [done|]. simpl in Hx.
  case_decide; [by right|]. apply elem_of_cons in Hx as [->|Hx]; [left|right; auto].
Qed.

Lemma dict_get_elem {V} k (v : V) (r : list (pystr * V)) : NoDup r.*1 -> (k, v) ∈ r -> dict_get k r = Some v.
Proof.
  induction r as [|[k' v'] r IH]; [by intros _ ?%elem_of_nil|]. simpl. intros [Hn Hd]%NoDup_cons Hin.
  apply elem_of_cons in Hin as [[= <- <-]|Hin]; [by rewrite decide_True|].
  rewrite decide_False; [by apply IH|]. intros ->. apply Hn. apply list_elem_of_fmap. by exists (k', v).
Qed.

Lemma dict_set_last {V} k (v v' : V) l : dict_get k l = None -> dict_set k v' (l ++ [(k, v)]) = l ++ [(k, v')].
Proof.
  induction l as [|[k0 v0] l IH]; cbn; [by rewrite decide_True|]. case_decide; [done|]. intros Hk. by rewrite IH.
Qed.

Lemma filter_others {A} `{EqDecision A} (x : A) (l : list A) : x ∉ l -> filter (fun y => y <> x) l = l.
Proof.
  induction l as [|y l IH]; [done|]. rewrite elem_of_cons. intros H. rewrite filter_cons, decide_True by naive_solver.
  by rewrite IH by naive_solver.
Qed.

#[export] Hint Rewrite @sumZ_app @dict_get_set : py.
#[export] Hint Resolve starts_with_app dict_set_NoDup : py.
