(* ===== verification/Json.v ===== *)
(** * JSON values and their text

    The values the tool boundary and the agent runtime exchange
    ([JSONValue] of [app/tools/models.py]) and the two [json.dumps] formats the
    code uses, both with [ensure_ascii=False], [sort_keys=True] and compact
    separators.  A Python [float] is an IEEE-754 binary64 ([spec_float]); its
    text is the shortest decimal that reads back as the same number. *)

From Corelib Require Import SpecFloat.
From S2P Require Import Prelude.
Local Open Scope Z_scope.

(** ** binary64 *)

Abbreviation float64 := spec_float.

#[export] Instance float64_eq_dec : EqDecision float64.
Proof. solve_decision. Defined.

(** The double nearest to [± p / q] (ties to even): integer true division,
    and the reading of a decimal literal. *)
Definition round_ratio (neg : bool) (p q : positive) : float64 :=
  let '(mz, ez, lz) := SFdiv_core_binary 53 1024 (Zpos p) 0 (Zpos q) 0 in
  binary_round_aux 53 1024 neg mz ez lz.

(** [± d * 10 ^ k] as a double. *)
Definition float_of_decimal (neg : bool) (d k : Z) : float64 :=
  match d with
  | Zpos p =>
      if 0 <=? k then round_ratio neg (p * Z.to_pos (10 ^ k)) 1
      else round_ratio neg p (Z.to_pos (10 ^ (- k)))
  | _ => S754_zero neg
  end.

(** The magnitude of a finite double as a fraction. *)
Definition float_num (m : positive) (e : Z) : Z := if 0 <=? e then Zpos m * 2 ^ e else Zpos m.
Definition float_den (e : Z) : Z := if 0 <=? e then 1 else 2 ^ (- e).

(** Number of decimal digits before the point: the least [p] with [x < 10 ^ p]. *)
Fixpoint decimal_point_go (fuel : nat) (num den p : Z) : Z :=
  match fuel with
  | O => p
  | S f =>
      if (if 0 <=? p then num <? den * 10 ^ p else num * 10 ^ (- p) <? den)
      then p else decimal_point_go f num den (p + 1)
  end.
Definition decimal_point (num den : Z) : Z :=
  decimal_point_go 8 num den ((Z.log2 num - Z.log2 den) * 30103 / 100000 - 1).

(** [num / den] over [10 ^ k], as a fraction. *)
Definition scaled (num den k : Z) : Z * Z :=
  if 0 <=? k then (num, den * 10 ^ k) else (num * 10 ^ (- k), den).

(** The shortest decimal [d * 10 ^ k] that reads back as [x], the nearest one
    (ties to even) first; 17 digits always suffice. *)
Fixpoint shortest_go (fuel : nat) (n : Z) (x : float64) (num den p : Z) : Z * Z :=
  let k := p - n in
  let '(a, b) := scaled num den k in
  let lo := a / b in
  let r := a mod b in
  let near_hi := (b <? 2 * r) || ((2 * r =? b) && Z.odd lo) in
  let ok d := bool_decide (float_of_decimal false d k = x) in
  match fuel with
  | O => (lo, k)
  | S f =>
      let first := if near_hi then lo + 1 else lo in
      let second := if near_hi then lo else lo + 1 in
      if ok first then (first, k)
      else if ok second then (second, k)
      else shortest_go f (n + 1) x num den p
  end.

Fixpoint strip_zeros (fuel : nat) (d k : Z) : Z * Z :=
  match fuel with
  | O => (d, k)
  | S f => if d mod 10 =? 0 then strip_zeros f (d / 10) (k + 1) else (d, k)
  end.

(** [float.__repr__] of a positive finite double. *)
Definition repr_finite (m : positive) (e : Z) : pystr :=
  let num := float_num m e in
  let den := float_den e in
  let '(d0, k0) := shortest_go 18 1 (S754_finite false m e) num den (decimal_point num den) in
  let '(d, k) := strip_zeros 20 d0 k0 in
  let digits := str_of_Z d in
  let nd := slen digits in
  let point := nd + k in
  if (-4 <? point) && (point <=? 16) then
    if point <=? 0 then u "0." ++ replicate (Z.to_nat (- point)) 48%N ++ digits
    else if nd <=? point then digits ++ replicate (Z.to_nat (point - nd)) 48%N ++ u ".0"
    else take (Z.to_nat point) digits ++ u "." ++ drop (Z.to_nat point) digits
  else
    let ex := point - 1 in
    let mant := match digits with
                | [c] => [c]
                | c :: rest => c :: u "." ++ rest
                | [] => []
                end in
    let exd := str_of_Z (Z.abs ex) in
    mant ++ u "e" ++ (if ex <? 0 then u "-" else u "+")
    ++ (if slen exd <? 2 then 48%N :: exd else exd).

(** [repr(x)], which is also how [json.dumps] writes it up to the names of the
    special values. *)
Definition float_repr (x : float64) : pystr :=
  match x with
  | S754_zero s => if s then u "-0.0" else u "0.0"
  | S754_infinity s => if s then u "-inf" else u "inf"
  | S754_nan => u "nan"
  | S754_finite s m e => (if s then u "-" else []) ++ repr_finite m e
  end.

(** ** Values *)

Inductive json : Type :=
| JNull
| JBool (b : bool)
| JInt (z : Z)
| JFloat (f : float64)
| JStr (s : pystr)
| JArr (items : list json)
| JObj (entries : list (pystr * json)).

Section JsonInd.
Context (P : json -> Prop).
Hypotheses (Hnull : P JNull) (Hbool : forall b, P (JBool b)) (Hint' : forall z, P (JInt z))
  (Hfloat : forall f, P (JFloat f)) (Hstr : forall s, P (JStr s))
  (Harr : forall l, Forall P l -> P (JArr l))
  (Hobj : forall d, Forall (fun kv => P kv.2) d -> P (JObj d)).

Fixpoint json_ind' (v : json) : P v :=
  match v with
  | JNull => Hnull
  | JBool b => Hbool b
  | JInt z => Hint' z
  | JFloat f => Hfloat f
  | JStr s => Hstr s
  | JArr l => Harr l ((fix go l := match l return Forall P l with
      | [] => Forall_nil_2 _
      | x :: l' => Forall_cons_2 _ _ _ (json_ind' x) (go l')
      end) l)
  | JObj d => Hobj d ((fix go d := match d return Forall (fun kv => P kv.2) d with
      | [] => Forall_nil_2 _
      | x :: d' => Forall_cons_2 _ _ _ (json_ind' x.2) (go d')
      end) d)
  end.
End JsonInd.

#[export] Instance json_eq_dec : EqDecision json.
Proof.
  refine (fix go (x y : json) : {x = y} + {x <> y} :=
    match x, y with
    | JNull, JNull => left eq_refl
    | JBool a, JBool b => cast_if (decide (a = b))
    | JInt a, JInt b => cast_if (decide (a = b))
    | JFloat a, JFloat b => cast_if (decide (a = b))
    | JStr a, JStr b => cast_if (decide (a = b))
    | JArr a, JArr b => cast_if (@list_eq_dec json go a b)
    | JObj a, JObj b => cast_if (@list_eq_dec _ (@prod_eq_dec _ _ _ go) a b)
    | _, _ => right _
    end); abstract congruence.
Defined.

(** ** [json.dumps] *)

(** Code-point order on strings, the order of [sort_keys]. *)
Fixpoint str_leb (a b : pystr) : bool :=
  match a, b with
  | [], _ => true
  | _ :: _, [] => false
  | x :: a', y :: b' => if (x <? y)%N then true else if (x =? y)%N then str_leb a' b' else false
  end.

Fixpoint insert_sorted {A} (leb : A -> A -> bool) (x : A) (l : list A) : list A :=
  match l with
  | [] => [x]
  | y :: l' => if leb x y then x :: y :: l' else y :: insert_sorted leb x l'
  end.

(** A stable sort ([sorted]). *)
Definition sort_by {A} (leb : A -> A -> bool) (l : list A) : list A :=
  foldr (insert_sorted leb) [] l.

Lemma insert_sorted_perm {A} (leb : A -> A -> bool) x l : insert_sorted leb x l ≡ₚ x :: l.
Proof.
  induction l as [|y l IH]; simpl; [done|]. destruct (leb x y); [done|].
  rewrite IH. constructor.
Qed.

Lemma sort_by_perm {A} (leb : A -> A -> bool) l : sort_by leb l ≡ₚ l.
Proof.
  induction l as [|x l IH]; simpl; [done|]. by rewrite insert_sorted_perm, IH.
Qed.

Lemma insert_sorted_first {A} (leb : A -> A -> bool) x l :
  Forall (fun y => leb x y = true) l -> insert_sorted leb x l = x :: l.
Proof. destruct 1 as [|y l Hy _]; simpl; [done|]. by rewrite Hy. Qed.

(** A sorted list is left as it is. *)
Lemma sort_by_id {A} (leb : A -> A -> bool) l :
  StronglySorted (fun x y => leb x y = true) l -> sort_by leb l = l.
Proof. induction 1 as [|x l _ IH Hx]; simpl; [done|]. by rewrite IH, insert_sorted_first. Qed.

Lemma sort_by_sorted {A} (leb : A -> A -> bool) l :
  (forall x y, leb x y = true \/ leb y x = true) ->
  (forall x y z, leb x y = true -> leb y z = true -> leb x z = true) ->
  StronglySorted (fun x y => leb x y = true) (sort_by leb l).
Proof.
  intros Htot Htr. induction l as [|x l IH]; simpl; [constructor|]. revert IH. generalize (sort_by leb l).
  clear l. intros l. induction 1 as [|y l Hl IHl Hy]; simpl; [by repeat constructor|]. destruct (leb x y) eqn:E.
  - constructor; [by constructor|]. constructor; [done|]. eapply Forall_impl; [exact Hy|]. eauto.
  - constructor; [done|]. rewrite insert_sorted_perm. constructor; [|done].
    destruct (Htot x y); [congruence|done].
Qed.

Definition key_leb {V} (a b : pystr * V) : bool := str_leb a.1 b.1.

Definition hex_digit (n : N) : N := if (n <? 10)%N then (48 + n)%N else (87 + n)%N.

(** Escapes of [json.encoder] with [ensure_ascii=False]. *)
Definition escape_char (c : N) : pystr :=
  if (c =? 34)%N then [92; 34]%N
  else if (c =? 92)%N then [92; 92]%N
  else if (c =? 10)%N then u "\n"
  else if (c =? 13)%N then u "\r"
  else if (c =? 9)%N then u "\t"
  else if (c =? 12)%N then u "\f"
  else if (c =? 8)%N then u "\b"
  else if (c <? 32)%N then u "\u00" ++ [hex_digit (c / 16); hex_digit (c mod 16)]
  else [c].

Definition dump_str (s : pystr) : pystr := [34%N] ++ mjoin (escape_char <$> s) ++ [34%N].

Definition dump_float (x : float64) : pystr :=
  match x with
  | S754_infinity s => if s then u "-Infinity" else u "Infinity"
  | S754_nan => u "NaN"
  | _ => float_repr x
  end.

(** [json.dumps(value, ensure_ascii=False, sort_keys=True, separators=(",", ":"))] *)
Fixpoint dump_json (v : json) : pystr :=
  match v with
  | JNull => u "null"
  | JBool b => if b then u "true" else u "false"
  | JInt z => str_of_Z z
  | JFloat f => dump_float f
  | JStr s => dump_str s
  | JArr l => u "[" ++ sjoin (u ",") (dump_json <$> l) ++ u "]"
  | JObj d =>
      let parts := (fun kv : pystr * json => (kv.1, dump_json kv.2)) <$> d in
      u "{" ++ sjoin (u ",") ((fun kv => dump_str kv.1 ++ u ":" ++ kv.2) <$> sort_by key_leb parts)
      ++ u "}"
  end.

(** [json.dumps(value, ensure_ascii=False)]: keys in order, default separators. *)
Fixpoint dump_json_plain (v : json) : pystr :=
  match v with
  | JNull => u "null"
  | JBool b => if b then u "true" else u "false"
  | JInt z => str_of_Z z
  | JFloat f => dump_float f
  | JStr s => dump_str s
  | JArr l => u "[" ++ sjoin (u ", ") (dump_json_plain <$> l) ++ u "]"
  | JObj d =>
      u "{" ++ sjoin (u ", ") ((fun kv : pystr * json =>
                 dump_str kv.1 ++ u ": " ++ dump_json_plain kv.2) <$> d) ++ u "}"
  end.

(** [json.loads(json.dumps(value, sort_keys=True))]: the keys come back sorted. *)
Fixpoint sort_keys_rec (v : json) : json :=
  match v with
  | JArr l => JArr (sort_keys_rec <$> l)
  | JObj d => JObj (sort_by key_leb ((fun kv : pystr * json => (kv.1, sort_keys_rec kv.2)) <$> d))
  | _ => v
  end.

(** ** Python equality and order of JSON scalars ([True == 1 == 1.0]) *)

(** A finite number as a fraction with a power-of-two denominator. *)
Definition float_frac (x : float64) : option (Z * Z) :=
  match x with
  | S754_zero _ => Some (0, 1)
  | S754_finite s m e => Some ((if s then - float_num m e else float_num m e), float_den e)
  | _ => None
  end.

Definition num_frac (v : json) : option (Z * Z) :=
  match v with
  | JInt z => Some (z, 1)
  | JBool b => Some ((if b then 1 else 0), 1)
  | JFloat f => float_frac f
  | _ => None
  end.

(** [a < b] on numbers, infinities and NaN included. *)
Definition num_lt (a b : json) : bool :=
  match num_frac a, num_frac b with
  | Some (p, q), Some (r, s) => p * s <? r * q
  | _, _ =>
      match a, b with
      | JFloat S754_nan, _ | _, JFloat S754_nan => false
      | JFloat (S754_infinity true), JFloat (S754_infinity true) => false
      | JFloat (S754_infinity true), _ => true
      | _, JFloat (S754_infinity false) =>
          match a with JFloat (S754_infinity false) => false | _ => true end
      | _, _ => false
      end
  end.

Definition num_eq (a b : json) : bool :=
  match num_frac a, num_frac b with
  | Some (p, q), Some (r, s) => p * s =? r * q
  | None, None =>
      match a, b with
      | JFloat (S754_infinity x), JFloat (S754_infinity y) => bool_decide (x = y)
      | _, _ => false
      end
  | _, _ => false
  end.

Definition is_number (v : json) : bool :=
  match v with JInt _ | JFloat _ | JBool _ => true | _ => false end.

(** [a == b]; dictionaries compare as maps. *)
Fixpoint py_eq (a b : json) {struct a} : bool :=
  match a, b with
  | JNull, JNull => true
  | JStr s, JStr t => bool_decide (s = t)
  | JArr l, JArr m =>
      (fix go l m := match l, m with
         | [], [] => true
         | x :: l', y :: m' => py_eq x y && go l' m'
         | _, _ => false
         end) l m
  | JObj d, JObj e =>
      (length d =? length e)%nat &&
      (fix go (d : list (pystr * json)) := match d with
         | [] => true
         | (k, x) :: d' =>
             match dict_get k e with Some y => py_eq x y | None => false end && go d'
         end) d
  | _, _ => is_number a && is_number b && num_eq a b
  end.

(** ** Examples *)
Example repr_tenth : float_repr (float_of_decimal false 1 (-1)) = u "0.1".
Proof. vm_compute. reflexivity. Qed.
Example repr_third : float_repr (round_ratio false 1 3) = u "0.3333333333333333".
Proof. vm_compute. reflexivity. Qed.
Example repr_1e22 : float_repr (float_of_decimal false 1 22) = u "1e+22".
Proof. vm_compute. reflexivity. Qed.
Example repr_small : float_repr (S754_finite true 1 (-1074)) = u "-5e-324".
Proof. vm_compute. reflexivity. Qed.
Example repr_2_53 : float_repr (round_ratio false 9007199254740992 1) = u "9007199254740992.0".
Proof. vm_compute. reflexivity. Qed.
Example dump_example :
  dump_json (JObj [(u "b", JArr [JInt (-12); JNull]); (u "a", JStr (u "x\y"))])
  = u "{" ++ dump_str (u "a") ++ u ":" ++ dump_str (u "x\y") ++ u "," ++ dump_str (u "b")
    ++ u ":[-12,null]}".
Proof. vm_compute. reflexivity. Qed.

(** Keys of a [dict] are distinct. *)
Inductive json_wf : json -> Prop :=
| wf_null : json_wf JNull
| wf_bool b : json_wf (JBool b)
| wf_int z : json_wf (JInt z)
| wf_float f : json_wf (JFloat f)
| wf_str s : json_wf (JStr s)
| wf_arr l : Forall json_wf l -> json_wf (JArr l)
| wf_obj d : NoDup d.*1 -> Forall (fun kv => json_wf kv.2) d -> json_wf (JObj d).

Lemma sort_keys_wf v : json_wf v -> json_wf (sort_keys_rec v).
Proof.
  induction v as [| | | | |l IH|d IH] using json_ind'; intros Hwf; simpl; try done.
  - inversion Hwf as [| | | | |l' Hl|]; subst. constructor. apply Forall_fmap.
    rewrite Forall_forall in IH, Hl |- *. intros x Hx. apply IH; auto.
  - inversion Hwf as [| | | | | |d' Hn Hd]; subst.
    set (e := (fun kv : pystr * json => (kv.1, sort_keys_rec kv.2)) <$> d).
    assert (He : e.*1 = d.*1) by (unfold e; rewrite <- list_fmap_compose; done).
    constructor.
    + rewrite (sort_by_perm key_leb e). by rewrite He.
    + rewrite (sort_by_perm key_leb e). unfold e. apply Forall_fmap.
      rewrite Forall_forall in IH, Hd |- *. intros x Hx. apply (IH x Hx); auto.
Qed.
