(* ===== verification/JsonLoads.v ===== *)
(** * Reading JSON: [json.loads]

    The decoder of the standard library on a string ([json.decoder], its C
    scanner): white space, strict strings with escapes and surrogate pairs,
    numbers, the constants [NaN] and [Infinity], arrays, objects (a repeated key
    keeps its place and takes the last value).  [None] is [JSONDecodeError].
    Every model reply ([AgentService], [MultiAgentEvents]) goes through it.

    The scanner recurses with fuel; [loads] gives it two units for every
    character of the text, which is always enough ([scan_fuel]).  What
    [json.dumps] wrote is read back ([loads_dump_json], [loads_dump_json_plain]). *)

From S2P Require Import Prelude Json.
Local Open Scope Z_scope.

(** ** Characters and numbers *)

(** White space of JSON *)
Definition json_ws (c : N) : bool := ((c =? 32) || (c =? 9) || (c =? 10) || (c =? 13))%N.
Fixpoint skip_ws (s : pystr) : pystr :=
  match s with c :: r => if json_ws c then skip_ws r else s | [] => [] end.

Definition is_digit (c : N) : bool := ((48 <=? c) && (c <=? 57))%N.
Fixpoint span_digits (s : pystr) : pystr * pystr :=
  match s with
  | c :: r => if is_digit c then let '(ds, r) := span_digits r in (c :: ds, r) else ([], s)
  | [] => ([], [])
  end.
Definition digits_value (ds : pystr) : N := foldl (fun n c => 10 * n + (c - 48))%N 0%N ds.

(** [0] or digits that do not start with [0] *)
Definition scan_integer (s : pystr) : option (pystr * pystr) :=
  match s with
  | c :: r => if (c =? 48)%N then Some ([c], r)
              else match span_digits s with ([], _) => None | x => Some x end
  | [] => None
  end.

(** A point and at least one digit *)
Definition scan_fraction (s : pystr) : option (pystr * pystr) :=
  match s with
  | c :: r => if (c =? 46)%N then match span_digits r with ([], _) => None | x => Some x end else None
  | [] => None
  end.

(** [e], perhaps a sign, at least one digit *)
Definition scan_exponent (s : pystr) : option (Z * pystr) :=
  match s with
  | c :: r =>
      if ((c =? 101) || (c =? 69))%N then
        let '(neg, r) := match r with
                         | x :: r' => if (x =? 45)%N then (true, r') else if (x =? 43)%N then (false, r') else (false, r)
                         | [] => (false, r)
                         end in
        match span_digits r with
        | ([], _) => None
        | (ds, r) => Some ((if neg then - Z.of_N (digits_value ds) else Z.of_N (digits_value ds)), r)
        end
      else None
  | [] => None
  end.

Definition scan_number (s : pystr) : option (json * pystr) :=
  let '(neg, s) := match s with c :: r => if (c =? 45)%N then (true, r) else (false, s) | [] => (false, s) end in
  match scan_integer s with
  | None => None
  | Some (ds, r) =>
      match scan_fraction r with
      | None =>
          match scan_exponent r with
          | None => Some (JInt (if neg then - Z.of_N (digits_value ds) else Z.of_N (digits_value ds)), r)
          | Some (e, r) => Some (JFloat (float_of_decimal neg (Z.of_N (digits_value ds)) e), r)
          end
      | Some (fs, r) =>
          let '(e, r) := match scan_exponent r with Some x => x | None => (0, r) end in
          Some (JFloat (float_of_decimal neg (Z.of_N (digits_value (ds ++ fs))) (e - slen fs)), r)
      end
  end.

(** ** Strings *)

Definition hex_value (c : N) : option N :=
  if is_digit c then Some (c - 48)%N
  else if ((97 <=? c) && (c <=? 102))%N then Some (c - 87)%N
  else if ((65 <=? c) && (c <=? 70))%N then Some (c - 55)%N
  else None.

(** Four hexadecimal digits *)
Definition scan_hex4 (s : pystr) : option (N * pystr) :=
  match s with
  | a :: b :: c :: d :: r =>
      match hex_value a, hex_value b, hex_value c, hex_value d with
      | Some a, Some b, Some c, Some d => Some (((a * 16 + b) * 16 + c) * 16 + d, r)%N
      | _, _, _, _ => None
      end
  | _ => None
  end.

(** The character after a backslash, [u] apart *)
Definition unescape (c : N) : option N :=
  if ((c =? 34) || (c =? 92) || (c =? 47))%N then Some c
  else if (c =? 98)%N then Some 8%N
  else if (c =? 102)%N then Some 12%N
  else if (c =? 110)%N then Some 10%N
  else if (c =? 114)%N then Some 13%N
  else if (c =? 116)%N then Some 9%N
  else None.

Definition high_surrogate (c : N) : bool := ((55296 <=? c) && (c <=? 56319))%N.
Definition low_surrogate (c : N) : bool := ((56320 <=? c) && (c <=? 57343))%N.
Definition join_surrogates (h l : N) : N := (65536 + (h - 55296) * 1024 + (l - 56320))%N.

(** A second [\uXXXX] right after a high surrogate *)
Definition scan_low (s : pystr) : option (N * pystr) :=
  match s with
  | x :: y :: r =>
      if ((x =? 92) && (y =? 117))%N then
        match scan_hex4 r with Some (l, r) => if low_surrogate l then Some (l, r) else None | None => None end
      else None
  | _ => None
  end.

(** The rest of a string after its opening quote: each step takes at least one
    character, so the fuel of the value is enough here too. *)
Fixpoint scan_string (fuel : nat) (s : pystr) : option (pystr * pystr) :=
  match fuel, s with
  | S f, c :: r =>
      let put x r := match scan_string f r with Some (t, r) => Some (x :: t, r) | None => None end in
      if (c =? 34)%N then Some ([], r)
      else if (c =? 92)%N then
        match r with
        | [] => None
        | e :: r =>
            if (e =? 117)%N then
              match scan_hex4 r with
              | None => None
              | Some (h, r) =>
                  if high_surrogate h
                  then match scan_low r with Some (l, r) => put (join_surrogates h l) r | None => put h r end
                  else put h r
              end
            else match unescape e with Some x => put x r | None => None end
        end
      else if (c <? 32)%N then None
      else put c r
  | _, _ => None
  end.

(** ** Values *)

(** [s] without the prefix [p] *)
Fixpoint after_prefix (p s : pystr) : option pystr :=
  match p, s with
  | [], _ => Some s
  | x :: p, y :: s => if (x =? y)%N then after_prefix p s else None
  | _ :: _, [] => None
  end.

Definition constants : list (pystr * json) :=
  [(u "null", JNull); (u "true", JBool true); (u "false", JBool false); (u "NaN", JFloat SpecFloat.S754_nan);
   (u "Infinity", JFloat (SpecFloat.S754_infinity false)); (u "-Infinity", JFloat (SpecFloat.S754_infinity true))].

Fixpoint scan_constant (l : list (pystr * json)) (s : pystr) : option (json * pystr) :=
  match l with
  | [] => None
  | (name, v) :: l => match after_prefix name s with Some r => Some (v, r) | None => scan_constant l s end
  end.

Definition scan_atom (s : pystr) : option (json * pystr) :=
  match scan_constant constants s with Some x => Some x | None => scan_number s end.

Fixpoint scan_value (fuel : nat) (s : pystr) : option (json * pystr) :=
  match fuel with
  | O => None
  | S f =>
      match s with
      | [] => None
      | c :: r =>
          if (c =? 34)%N then
            match scan_string f r with Some (t, r) => Some (JStr t, r) | None => None end
          else if (c =? 123)%N then
            match skip_ws r with
            | x :: r' => if (x =? 125)%N then Some (JObj [], r') else scan_members f [] (x :: r')
            | [] => None
            end
          else if (c =? 91)%N then
            match skip_ws r with
            | x :: r' => if (x =? 93)%N then Some (JArr [], r') else scan_items f [] (x :: r')
            | [] => None
            end
          else scan_atom s
      end
  end
with scan_members (fuel : nat) (d : list (pystr * json)) (s : pystr) : option (json * pystr) :=
  match fuel, s with
  | S f, c :: r =>
      if (c =? 34)%N then
        match scan_string f r with
        | None => None
        | Some (k, r) =>
            match skip_ws r with
            | x :: r =>
                if (x =? 58)%N then
                  match scan_value f (skip_ws r) with
                  | None => None
                  | Some (v, r) =>
                      match skip_ws r with
                      | y :: r => if (y =? 125)%N then Some (JObj (dict_set k v d), r)
                                  else if (y =? 44)%N then scan_members f (dict_set k v d) (skip_ws r)
                                  else None
                      | [] => None
                      end
                  end
                else None
            | [] => None
            end
        end
      else None
  | _, _ => None
  end
with scan_items (fuel : nat) (l : list json) (s : pystr) : option (json * pystr) :=
  match fuel with
  | S f =>
      match scan_value f s with
      | None => None
      | Some (v, r) =>
          match skip_ws r with
          | y :: r => if (y =? 93)%N then Some (JArr (l ++ [v]), r)
                      else if (y =? 44)%N then scan_items f (l ++ [v]) (skip_ws r)
                      else None
          | [] => None
          end
      end
  | O => None
  end.

(** The byte order mark is refused; nothing may follow the value. *)
Definition loads (s : pystr) : option json :=
  match s with
  | 65279%N :: _ => None
  | _ =>
      match scan_value (2 * length s + 2) (skip_ws s) with
      | Some (v, r) => match skip_ws r with [] => Some v | _ => None end
      | None => None
      end
  end.


(** ** The fuel is enough *)

Lemma skip_ws_length s : (length (skip_ws s) <= length s)%nat.
Proof. induction s as [|c s IH]; simpl; [done|]. destruct (json_ws c); simpl; lia. Qed.

Lemma span_digits_length s : (length (span_digits s).2 <= length s)%nat.
Proof. induction s as [|c s IH]; simpl; [done|]. destruct (is_digit c); [destruct (span_digits s)|]; simpl in *; lia. Qed.

Lemma span_digits_shorter s : (span_digits s).1 = [] \/ (length (span_digits s).2 < length s)%nat.
Proof.
  destruct s as [|c s]; [by left|]. pose proof (span_digits_length s). simpl.
  destruct (is_digit c); [|by left]. destruct (span_digits s); simpl in *; right; lia.
Qed.

Lemma scan_hex4_length s x r : scan_hex4 s = Some (x, r) -> (length r < length s)%nat.
Proof.
  destruct s as [|? [|? [|? [|? s]]]]; simpl; intros H; simplify_eq.
  repeat case_match; simplify_eq. lia.
Qed.

Lemma scan_low_length s x r : scan_low s = Some (x, r) -> (length r < length s)%nat.
Proof.
  unfold scan_low. destruct s as [|? [|? s]]; intros H; simplify_eq.
  repeat case_match; simplify_eq. apply scan_hex4_length in H1. simpl. lia.
Qed.

Lemma scan_string_length f s t r : scan_string f s = Some (t, r) -> (length r < length s)%nat.
Proof.
  revert s t r. induction f as [|f IH]; intros [|c s] t r H; simpl in H; simplify_eq.
  assert (Hput : forall x r0, (length r0 <= length s)%nat ->
    match scan_string f r0 with Some (t, r) => Some (x :: t, r) | None => None end = Some (t, r) ->
    (length r < length (c :: s))%nat).
  { intros x r0 Hr Hx. destruct (scan_string f r0) as [[t' r']|] eqn:E; simplify_eq.
    apply IH in E. simpl. lia. }
  destruct (c =? 34)%N; [simplify_eq; simpl; lia|].
  destruct (c =? 92)%N; [|destruct (c <? 32)%N; [done|by eapply Hput]].
  destruct s as [|e s]; [done|]. simpl in Hput.
  destruct (e =? 117)%N; [|destruct (unescape e); [eapply Hput, H; lia|done]].
  destruct (scan_hex4 s) as [[h r1]|] eqn:E1; [|done]. apply scan_hex4_length in E1.
  destruct (high_surrogate h); [destruct (scan_low r1) as [[l r2]|] eqn:E2; [apply scan_low_length in E2|]|];
    eapply Hput, H; lia.
Qed.

Lemma after_prefix_length p s r : after_prefix p s = Some r -> (length s = length p + length r)%nat.
Proof.
  revert s. induction p as [|x p IH]; intros [|y s] H; simpl in H; simplify_eq; [done|done|].
  destruct (x =? y)%N; [|done]. apply IH in H. simpl. lia.
Qed.

Lemma scan_integer_length s ds r : scan_integer s = Some (ds, r) -> (length r < length s)%nat.
Proof.
  unfold scan_integer. destruct s as [|c s]; [done|]. destruct (c =? 48)%N; [intros; simplify_eq; simpl; lia|].
  destruct (span_digits_shorter (c :: s)) as [H|H]; destruct (span_digits (c :: s)) as [[|d l] r']; simpl in H;
    intros; simplify_eq; simpl in *; lia.
Qed.

Lemma scan_fraction_length s ds r : scan_fraction s = Some (ds, r) -> (length r <= length s)%nat.
Proof.
  unfold scan_fraction. destruct s as [|c s]; [done|]. destruct (c =? 46)%N; [|done].
  pose proof (span_digits_length s). destruct (span_digits s) as [[|d l] r']; intros; simplify_eq; simpl in *; lia.
Qed.

Lemma scan_exponent_length s e r : scan_exponent s = Some (e, r) -> (length r <= length s)%nat.
Proof.
  unfold scan_exponent. destruct s as [|c s]; [done|]. destruct ((c =? 101) || (c =? 69))%N; [|done].
  set (p := match s with x :: r' => _ | [] => _ end).
  assert (Hp : (length p.2 <= length s)%nat).
  { unfold p. destruct s as [|x s]; [done|]. destruct (x =? 45)%N; [simpl; lia|]. destruct (x =? 43)%N; simpl; lia. }
  destruct p as [neg q]. simpl in Hp. pose proof (span_digits_length q).
  destruct (span_digits q) as [[|d l] r']; intros; simplify_eq; simpl in *; lia.
Qed.

Lemma scan_number_length s v r : scan_number s = Some (v, r) -> (length r < length s)%nat.
Proof.
  unfold scan_number. set (p := match s with c :: r' => _ | [] => _ end).
  assert (Hp : (length p.2 <= length s)%nat) by (unfold p; destruct s as [|c s]; [done|]; destruct (c =? 45)%N; simpl; lia).
  destruct p as [neg q]. simpl in Hp.
  destruct (scan_integer q) as [[ds r1]|] eqn:E1; [|done]. apply scan_integer_length in E1.
  destruct (scan_fraction r1) as [[fs r2]|] eqn:E2.
  - apply scan_fraction_length in E2. destruct (scan_exponent r2) as [[e r3]|] eqn:E3; intros; simplify_eq; [|lia].
    apply scan_exponent_length in E3. lia.
  - destruct (scan_exponent r1) as [[e r3]|] eqn:E3; intros; simplify_eq; [|lia].
    apply scan_exponent_length in E3. lia.
Qed.

Lemma scan_atom_length s v r : scan_atom s = Some (v, r) -> (length r < length s)%nat.
Proof.
  unfold scan_atom. destruct (scan_constant constants s) as [x|] eqn:E; [|apply scan_number_length].
  intros Hx; simplify_eq. revert E. assert (Hc : Forall (fun kv : pystr * json => kv.1 <> []) constants).
  { repeat (constructor; [done|]). constructor. }
  induction Hc as [|[name w] l Hn _ IH]; [done|]. simpl.
  destruct (after_prefix name s) eqn:Ea; [|done]. intros; simplify_eq. apply after_prefix_length in Ea.
  destruct name; simpl in *; [done|lia].
Qed.

Ltac shorter :=
  repeat match goal with
  | H : scan_string _ _ = Some (_, ?r) |- _ => apply scan_string_length in H
  | H : skip_ws ?s = ?c :: ?r |- _ =>
      pose proof (skip_ws_length s); rewrite H in *; clear H
  end.

(** What is left of the text gets shorter. *)
Lemma scan_length f :
  (forall s v r, scan_value f s = Some (v, r) -> (length r < length s)%nat) /\
  (forall d s v r, scan_members f d s = Some (v, r) -> (length r < length s)%nat) /\
  (forall l s v r, scan_items f l s = Some (v, r) -> (length r < length s)%nat).
Proof.
  induction f as [|f (IHv & IHm & IHi)]; [done|]. split; [|split].
  - intros [|c s] v r H; simpl in H; [done|]. destruct (c =? 34)%N.
    { destruct (scan_string f s) as [[t r']|] eqn:E; simplify_eq. shorter. simpl. lia. }
    destruct (c =? 123)%N; [|destruct (c =? 91)%N; [|by apply scan_atom_length in H]].
    all: destruct (skip_ws s) as [|x s'] eqn:E; [done|]; shorter; simpl in *.
    + destruct (x =? 125)%N; [simplify_eq; lia|]. apply IHm in H. simpl in H. lia.
    + destruct (x =? 93)%N; [simplify_eq; lia|]. apply IHi in H. simpl in H. lia.
  - intros d [|c s] v r H; simpl in H; [done|]. destruct (c =? 34)%N; [|done].
    destruct (scan_string f s) as [[k r1]|] eqn:E1; [|done]. shorter.
    destruct (skip_ws r1) as [|x r2] eqn:E2; [done|]. shorter. destruct (x =? 58)%N; [|done].
    destruct (scan_value f (skip_ws r2)) as [[w r3]|] eqn:E3; [|done]. apply IHv in E3.
    pose proof (skip_ws_length r2). destruct (skip_ws r3) as [|y r4] eqn:E4; [done|]. shorter. simpl in *.
    destruct (y =? 125)%N; [simplify_eq; lia|]. destruct (y =? 44)%N; [|done]. apply IHm in H.
    pose proof (skip_ws_length r4). lia.
  - intros l s v r H; simpl in H. destruct (scan_value f s) as [[w r3]|] eqn:E3; [|done]. apply IHv in E3.
    destruct (skip_ws r3) as [|y r4] eqn:E4; [done|]. shorter. simpl in *.
    destruct (y =? 93)%N; [simplify_eq; lia|]. destruct (y =? 44)%N; [|done]. apply IHi in H.
    pose proof (skip_ws_length r4). lia.
Qed.

Lemma scan_string_fuel f f' s : (length s < f)%nat -> (length s < f')%nat -> scan_string f s = scan_string f' s.
Proof.
  revert f' s. induction f as [|f IH]; intros [|f'] s H H'; [lia|lia|lia|]. destruct s as [|c s]; [done|].
  simpl in *. assert (Hput : forall r, (length r <= length s)%nat -> scan_string f r = scan_string f' r) by (intros; apply IH; lia).
  destruct (c =? 34)%N; [done|]. destruct (c =? 92)%N; [|by rewrite Hput].
  destruct s as [|e s]; [done|]. simpl in Hput. rewrite (Hput s) by lia.
  destruct (e =? 117)%N; [|done]. destruct (scan_hex4 s) as [[h r]|] eqn:E; [|done].
  apply scan_hex4_length in E. rewrite (Hput r) by lia.
  destruct (high_surrogate h); [|done]. destruct (scan_low r) as [[l r']|] eqn:E'; [|done].
  apply scan_low_length in E'. by rewrite Hput by lia.
Qed.

(** Beyond two units for each character, the fuel plays no role. *)
Lemma scan_fuel_step f :
  (forall f' s, (2 * length s + 1 <= f)%nat -> (2 * length s + 1 <= f')%nat -> scan_value f s = scan_value f' s) /\
  (forall f' d s, (2 * length s + 1 <= f)%nat -> (2 * length s + 1 <= f')%nat -> scan_members f d s = scan_members f' d s) /\
  (forall f' l s, (2 * length s + 2 <= f)%nat -> (2 * length s + 2 <= f')%nat -> scan_items f l s = scan_items f' l s).
Proof.
  induction f as [|f (IHv & IHm & IHi)]; [split; [|split]; intros; lia|].
  split; [|split]; intros [|f'] ? *; try lia.
  - destruct s as [|c s]; [done|]. simpl length. intros H H'. cbn [scan_value].
    rewrite (scan_string_fuel f f') by lia.
    pose proof (skip_ws_length s). destruct (skip_ws s) as [|x s']; [done|]. simpl in *.
    rewrite (IHm f'), (IHi f') by (simpl; lia). done.
  - destruct s as [|c s]; [done|]. simpl length. intros H H'. cbn [scan_members].
    rewrite (scan_string_fuel f f') by lia.
    destruct (scan_string f' s) as [[k r1]|] eqn:E1; [|done]. shorter.
    destruct (skip_ws r1) as [|x r2] eqn:E2; [done|]. shorter. simpl in *.
    pose proof (skip_ws_length r2). rewrite (IHv f') by lia.
    destruct (scan_value f' (skip_ws r2)) as [[w r3]|] eqn:E3; [|done]. apply scan_length in E3.
    destruct (skip_ws r3) as [|y r4] eqn:E4; [done|]. shorter. simpl in *.
    pose proof (skip_ws_length r4). by rewrite (IHm f') by lia.
  - intros H H'. cbn [scan_items]. rewrite (IHv f') by lia.
    destruct (scan_value f' s) as [[w r3]|] eqn:E3; [|done]. apply scan_length in E3.
    destruct (skip_ws r3) as [|y r4] eqn:E4; [done|]. shorter. simpl in *.
    pose proof (skip_ws_length r4). by rewrite (IHi f') by lia.
Qed.

Lemma scan_fuel f f' s :
  (2 * length s + 1 <= f)%nat -> (2 * length s + 1 <= f')%nat -> scan_value f s = scan_value f' s.
Proof. apply scan_fuel_step. Qed.

(** ** What was written is read back *)

Lemma digits_value_app ds c : digits_value (ds ++ [c]) = (10 * digits_value ds + (c - 48))%N.
Proof. unfold digits_value. by rewrite foldl_app. Qed.

(** The digits of a number *)
Definition numeral (n : N) (ds : pystr) : Prop :=
  Forall (fun c => is_digit c = true) ds /\ digits_value ds = n /\ (ds = [48%N] \/ exists c r, ds = c :: r /\ c <> 48%N).

Lemma is_digit_add n : (n < 10)%N -> is_digit (48 + n)%N = true.
Proof. intros H. unfold is_digit. apply andb_true_intro. split; apply N.leb_le; lia. Qed.

Lemma digits_go_numeral f n acc :
  (n < 10 ^ N.of_nat f)%N -> exists ds, digits_go f n acc = ds ++ acc /\ (0 < f -> numeral n ds)%nat.
Proof.
  revert n acc. induction f as [|f IH]; intros n acc Hn; [by exists []; split; [|lia]|].
  cbn [digits_go]. pose proof (N.div_mod n 10 ltac:(lia)) as Hd. pose proof (N.mod_lt n 10 ltac:(lia)) as Hm.
  destruct (n <? 10)%N eqn:E.
  - apply N.ltb_lt in E. rewrite N.mod_small in * by done. exists [48 + n]%N. split; [done|]. intros _.
    split; [constructor; [by apply is_digit_add|constructor]|]. split; [unfold digits_value; simpl; lia|].
    destruct (decide (n = 0%N)) as [->|Hz]; [by left|right]. exists (48 + n)%N, []. split; [done|lia].
  - apply N.ltb_ge in E.
    assert (Hq : (n / 10 < 10 ^ N.of_nat f)%N).
    { apply N.Div0.div_lt_upper_bound. rewrite <- N.pow_succ_r', <- Nat2N.inj_succ. exact Hn. }
    destruct (IH (n / 10)%N ((48 + n mod 10)%N :: acc) Hq) as (ds & -> & Hnum).
    exists (ds ++ [48 + n mod 10]%N). split; [by rewrite <- app_assoc|]. intros _.
    assert (Hf : (0 < f)%nat).
    { destruct f; [|lia]. change (10 ^ N.of_nat 0)%N with 1%N in Hq. assert (1 <= n / 10)%N by (apply N.div_le_lower_bound; lia). lia. }
    destruct (Hnum Hf) as (H1 & H2 & H3). split; [|split].
    + apply Forall_app. split; [done|]. constructor; [by apply is_digit_add|constructor].
    + rewrite digits_value_app, H2, (N.add_comm 48), N.add_sub. by symmetry.
    + right. destruct H3 as [->|(c & r & -> & Hc)]; [|by exists c, (r ++ [48 + n mod 10]%N)].
      exfalso. change (digits_value [48%N]) with 0%N in H2.
      assert (1 <= n / 10)%N by (apply N.div_le_lower_bound; lia). lia.
Qed.

Lemma str_of_N_numeral n : numeral n (str_of_N n).
Proof.
  unfold str_of_N. destruct (digits_go_numeral (S (N.to_nat (N.log2 n))) n []) as (ds & -> & H).
  - destruct (decide (n = 0%N)) as [->|Hz]; [done|].
    assert (n < 2 ^ N.succ (N.log2 n))%N by (apply N.log2_spec; lia).
    rewrite Nat2N.inj_succ, N2Nat.id. eapply N.lt_le_trans; [done|]. apply N.pow_le_mono_l. lia.
  - rewrite app_nil_r. apply H. lia.
Qed.

(** A text after which a number ends *)
Definition ends_number (s : pystr) : Prop :=
  match s with c :: _ => is_digit c = false /\ c <> 46%N /\ c <> 101%N /\ c <> 69%N | [] => True end.

Lemma span_digits_app ds s :
  Forall (fun c => is_digit c = true) ds -> ends_number s -> span_digits (ds ++ s) = (ds, s).
Proof.
  intros Hd Hs. induction Hd as [|c ds Hc _ IH]; simpl.
  - destruct s as [|c s]; [done|]. simpl. by destruct Hs as [-> _].
  - by rewrite Hc, IH.
Qed.

Lemma scan_integer_numeral n ds s : numeral n ds -> ends_number s -> scan_integer (ds ++ s) = Some (ds, s).
Proof.
  intros (Hd & _ & [->|(c & r & -> & Hc)]) Hs; [done|]. unfold scan_integer.
  change ((c :: r) ++ s) with (c :: (r ++ s)). cbn iota. destruct (c =? 48)%N eqn:E; [by apply N.eqb_eq in E|].
  change (c :: (r ++ s)) with ((c :: r) ++ s). by rewrite span_digits_app.
Qed.

Lemma scan_number_end s : ends_number s -> scan_fraction s = None /\ scan_exponent s = None.
Proof.
  destruct s as [|c s]; [done|]. intros (H1 & H2 & H3 & H4). unfold scan_fraction, scan_exponent.
  apply N.eqb_neq in H2, H3, H4. by rewrite H2, H3, H4.
Qed.

Lemma scan_number_Z z s : ends_number s -> scan_number (str_of_Z z ++ s) = Some (JInt z, s).
Proof.
  intros Hs. destruct (scan_number_end s Hs) as [Hf He]. unfold str_of_Z.
  assert (Hdig : forall n, exists c r, str_of_N n = c :: r /\ (c =? 45)%N = false).
  { intros n. destruct (str_of_N_numeral n) as (Hd & _ & H).
    destruct (str_of_N n) as [|c r]; [destruct H as [H|(? & ? & H & _)]; done|].
    exists c, r. split; [done|]. inversion Hd as [|? ? Hc]; subst.
    apply N.eqb_neq. intros ->. vm_compute in Hc. discriminate Hc. }
  destruct (z <? 0) eqn:Ez.
  - unfold scan_number. change ((45%N :: ?l) ++ ?m) with (45%N :: (l ++ m)). cbn [N.eqb Pos.eqb].
    rewrite (scan_integer_numeral _ _ s (str_of_N_numeral _) Hs), Hf, He.
    destruct (str_of_N_numeral (Z.to_N (- z))) as (_ & -> & _). apply Z.ltb_lt in Ez. do 3 f_equal. lia.
  - destruct (Hdig (Z.to_N z)) as (c & r & Hcr & Hc). unfold scan_number.
    assert (Hm : match str_of_N (Z.to_N z) ++ s with
                 | c :: r => if (c =? 45)%N then (true, r) else (false, str_of_N (Z.to_N z) ++ s)
                 | [] => (false, str_of_N (Z.to_N z) ++ s) end = (false, str_of_N (Z.to_N z) ++ s)).
    { rewrite Hcr. change ((c :: r) ++ s) with (c :: (r ++ s)). cbn iota. by rewrite Hc. }
    rewrite Hm, (scan_integer_numeral _ _ s (str_of_N_numeral _) Hs), Hf, He.
    destruct (str_of_N_numeral (Z.to_N z)) as (_ & -> & _). apply Z.ltb_ge in Ez. do 3 f_equal. lia.
Qed.

Lemma scan_string_dump s rest f :
  (length (mjoin (escape_char <$> s) ++ [34%N]) <= f)%nat ->
  scan_string f ((mjoin (escape_char <$> s) ++ [34%N]) ++ rest) = Some (s, rest).
Proof.
  revert f. induction s as [|c s IH]; intros f Hf.
  { destruct f; [simpl in Hf; lia|]. reflexivity. }
  change (mjoin (escape_char <$> c :: s)) with (escape_char c ++ mjoin (escape_char <$> s)) in *.
  revert IH Hf. generalize (mjoin (escape_char <$> s)). intros body IH Hf. rewrite !length_app in Hf.
  rewrite <- !app_assoc. setoid_rewrite <- app_assoc in IH. set (tail := body ++ [34%N] ++ rest) in *.
  assert (Hlen : (1 <= length (escape_char c))%nat).
  { unfold escape_char. repeat case_match; simpl; lia. }
  destruct f as [|f]; [lia|].
  assert (Hput : scan_string f tail = Some (s, rest)) by (apply IH; rewrite length_app; lia).
  clearbody tail. clear IH.
  unfold escape_char.
  destruct (c =? 34)%N eqn:E1; [apply N.eqb_eq in E1 as ->; cbn; by rewrite Hput|].
  destruct (c =? 92)%N eqn:E2; [apply N.eqb_eq in E2 as ->; cbn; by rewrite Hput|].
  destruct (c =? 10)%N eqn:E3; [apply N.eqb_eq in E3 as ->; change (u "\n") with [92; 110]%N; cbn; by rewrite Hput|].
  destruct (c =? 13)%N eqn:E4; [apply N.eqb_eq in E4 as ->; change (u "\r") with [92; 114]%N; cbn; by rewrite Hput|].
  destruct (c =? 9)%N eqn:E5; [apply N.eqb_eq in E5 as ->; change (u "\t") with [92; 116]%N; cbn; by rewrite Hput|].
  destruct (c =? 12)%N eqn:E6; [apply N.eqb_eq in E6 as ->; change (u "\f") with [92; 102]%N; cbn; by rewrite Hput|].
  destruct (c =? 8)%N eqn:E7; [apply N.eqb_eq in E7 as ->; change (u "\b") with [92; 98]%N; cbn; by rewrite Hput|].
  destruct (c <? 32)%N eqn:E8.
  - assert (Hu : scan_hex4 ([48; 48; hex_digit (c / 16); hex_digit (c mod 16)]%N ++ tail) = Some (c, tail)).
    { apply N.ltb_lt in E8. clear -E8.
      assert (Hc : c = 0%N \/ (exists p, c = Npos p /\ p < 32)%positive) by (destruct c; [by left|right; eexists; split; [done|lia]]).
      destruct Hc as [->|(p & -> & Hp)]; [reflexivity|].
      do 5 (destruct p as [p|p|]; try lia; try reflexivity). }
    change ((u "\u00" ++ [hex_digit (c / 16); hex_digit (c mod 16)]) ++ tail)
      with (92%N :: 117%N :: ([48; 48; hex_digit (c / 16); hex_digit (c mod 16)]%N ++ tail)).
    cbn [scan_string]. change (92 =? 34)%N with false. change (92 =? 92)%N with true. change (117 =? 117)%N with true.
    cbn iota. rewrite Hu. replace (high_surrogate c) with false; [by rewrite Hput|].
    symmetry. apply N.ltb_lt in E8. unfold high_surrogate. apply andb_false_intro1, N.leb_gt. lia.
  - change ([c] ++ tail) with (c :: tail). cbn [scan_string]. by rewrite E1, E2, E8, Hput.
Qed.

(** The formats of [json.dumps] differ in what follows a comma and a colon. *)
Fixpoint dump_ws (a b : pystr) (v : json) : pystr :=
  match v with
  | JNull => u "null"
  | JBool b => if b then u "true" else u "false"
  | JInt z => str_of_Z z
  | JFloat f => dump_float f
  | JStr s => dump_str s
  | JArr l => 91%N :: sjoin (44%N :: a) (dump_ws a b <$> l) ++ [93%N]
  | JObj d =>
      123%N :: sjoin (44%N :: a) ((fun kv : pystr * json => dump_str kv.1 ++ 58%N :: b ++ dump_ws a b kv.2) <$> d)
      ++ [125%N]
  end.

(** No number with a fraction or an exponent *)
Fixpoint float_free (v : json) : bool :=
  match v with
  | JFloat _ => false
  | JArr l => forallb float_free l
  | JObj d => forallb (fun kv => float_free kv.2) d
  | _ => true
  end.

Lemma after_prefix_app p s : after_prefix p (p ++ s) = Some s.
Proof. induction p as [|x p IH]; simpl; [done|]. by rewrite N.eqb_refl. Qed.

Lemma str_of_Z_first z :
  (exists c r, str_of_Z z = c :: r /\ is_digit c = true) \/
  (exists c r, str_of_Z z = 45%N :: c :: r /\ is_digit c = true).
Proof.
  assert (Hn : forall n, exists c r, str_of_N n = c :: r /\ is_digit c = true).
  { intros n. destruct (str_of_N_numeral n) as (Hd & _ & H).
    destruct (str_of_N n) as [|c r]; [destruct H as [H|(? & ? & H & _)]; done|]. by inversion Hd; eauto. }
  unfold str_of_Z. destruct (z <? 0); [right|left]; [|apply Hn].
  destruct (Hn (Z.to_N (- z))) as (c & r & -> & Hc). eauto.
Qed.

Lemma digit_not n c : is_digit c = true -> (n < 48 \/ 57 < n)%N -> (n =? c)%N = false /\ (c =? n)%N = false.
Proof.
  unfold is_digit. intros H Hn. apply andb_prop in H as [H1 H2]. apply N.leb_le in H1, H2.
  split; apply N.eqb_neq; lia.
Qed.

Lemma no_constant z s : scan_constant constants (str_of_Z z ++ s) = None.
Proof.
  destruct (str_of_Z_first z) as [(c & r & -> & Hc)|(c & r & -> & Hc)];
    unfold constants; change (u "null") with [110; 117; 108; 108]%N; change (u "true") with [116; 114; 117; 101]%N;
    change (u "false") with [102; 97; 108; 115; 101]%N; change (u "NaN") with [78; 97; 78]%N;
    change (u "Infinity") with [73; 110; 102; 105; 110; 105; 116; 121]%N;
    change (u "-Infinity") with [45; 73; 110; 102; 105; 110; 105; 116; 121]%N;
    cbn [app scan_constant after_prefix]; change (110 =? 45)%N with false; change (116 =? 45)%N with false;
    change (102 =? 45)%N with false; change (78 =? 45)%N with false; change (73 =? 45)%N with false;
    change (45 =? 45)%N with true; cbn iota.
  - pose proof (digit_not 110 c Hc ltac:(lia)) as [-> _]. pose proof (digit_not 116 c Hc ltac:(lia)) as [-> _].
    pose proof (digit_not 102 c Hc ltac:(lia)) as [-> _]. pose proof (digit_not 78 c Hc ltac:(lia)) as [-> _].
    pose proof (digit_not 73 c Hc ltac:(lia)) as [-> _]. by pose proof (digit_not 45 c Hc ltac:(lia)) as [-> _].
  - by pose proof (digit_not 73 c Hc ltac:(lia)) as [-> _].
Qed.

(** No text of a value starts with white space or a closing bracket. *)
Lemma dump_first a b v :
  float_free v = true ->
  exists c r, dump_ws a b v = c :: r /\ json_ws c = false /\ (c =? 93)%N = false /\ (c =? 125)%N = false /\ (c < 127)%N.
Proof.
  destruct v as [|[|]|z|f|s|l|d]; intros Hf; try discriminate Hf.
  - by exists 110%N, [117; 108; 108]%N.
  - by exists 116%N, [114; 117; 101]%N.
  - by exists 102%N, [97; 108; 115; 101]%N.
  - change (dump_ws a b (JInt z)) with (str_of_Z z).
    destruct (str_of_Z_first z) as [(c & r & -> & Hc)|(c & r & -> & Hc)]; [|by exists 45%N, (c :: r)].
    exists c, r. unfold json_ws. pose proof (digit_not 32 c Hc ltac:(lia)) as [_ ->].
    pose proof (digit_not 9 c Hc ltac:(lia)) as [_ ->]. pose proof (digit_not 10 c Hc ltac:(lia)) as [_ ->].
    pose proof (digit_not 13 c Hc ltac:(lia)) as [_ ->]. pose proof (digit_not 93 c Hc ltac:(lia)) as [_ ->].
    pose proof (digit_not 125 c Hc ltac:(lia)) as [_ ->]. do 4 (split; [done|]).
    unfold is_digit in Hc. apply andb_prop in Hc as [_ Hc]. apply N.leb_le in Hc. lia.
  - by exists 34%N, (mjoin (escape_char <$> s) ++ [34%N]).
  - by eexists 91%N, _.
  - by eexists 123%N, _.
Qed.

Lemma skip_ws_app a s : Forall (fun c => json_ws c = true) a -> skip_ws (a ++ s) = skip_ws s.
Proof. induction 1 as [|c a Hc _ IH]; simpl; [done|]. by rewrite Hc. Qed.

Lemma skip_ws_dump a b v s : float_free v = true -> skip_ws (dump_ws a b v ++ s) = dump_ws a b v ++ s.
Proof. intros Hv. destruct (dump_first a b v Hv) as (c & r & -> & Hc & _). cbn [app skip_ws]. by rewrite Hc. Qed.

Lemma forallb_Forall {A} (p : A -> bool) l : forallb p l = true -> Forall (fun x => p x = true) l.
Proof. induction l as [|x l IH]; simpl; [done|]. intros H. apply andb_prop in H as [H1 H2]. auto. Qed.

Section RoundTrip.
Context (a b : pystr) (Ha : Forall (fun c => json_ws c = true) a) (Hb : Forall (fun c => json_ws c = true) b).

Ltac count H := revert H; repeat (rewrite length_app || cbn [length]); intros; lia.

(** The text of [v] is read as [v], whatever stands after it. *)
Definition reads_back (v : json) : Prop :=
  forall f rest, ends_number rest -> (2 * length (dump_ws a b v ++ rest) + 1 <= f)%nat ->
  scan_value f (dump_ws a b v ++ rest) = Some (v, rest).

Lemma sjoin_cons sep (p : pystr) ps : ps <> [] -> sjoin sep (p :: ps) = p ++ sep ++ sjoin sep ps.
Proof. by destruct ps. Qed.

Lemma scan_items_dump l : Forall (fun v => float_free v = true) l -> Forall reads_back l -> l <> [] ->
  forall f acc rest, (2 * length (sjoin (44%N :: a) (dump_ws a b <$> l) ++ 93%N :: rest) + 2 <= f)%nat ->
  scan_items f acc (sjoin (44%N :: a) (dump_ws a b <$> l) ++ 93%N :: rest) = Some (JArr (acc ++ l), rest).
Proof.
  intros Hff Hl. induction Hl as [|v l Hv Hl IH]; [done|]. intros _ f acc rest Hf.
  inversion Hff as [|? ? Hv0 Hff']; subst. destruct f as [|f]; [lia|]. cbn [scan_items].
  destruct (decide (l = [])) as [->|Hne].
  - cbn [fmap list_fmap sjoin] in *. rewrite (Hv f (93%N :: rest)); [|done|lia]. reflexivity.
  - change (dump_ws a b <$> v :: l) with (dump_ws a b v :: (dump_ws a b <$> l)) in *.
    rewrite sjoin_cons in * by (intros H; by apply fmap_nil_inv in H).
    rewrite <- !app_assoc in *. change ((44%N :: a) ++ ?t) with (44%N :: (a ++ t)) in *.
    rewrite (Hv f (44%N :: _)); [|done|lia].
    change (skip_ws (44%N :: ?t)) with (44%N :: t). change (44 =? 93)%N with false. change (44 =? 44)%N with true. cbn iota.
    rewrite skip_ws_app by done.
    assert (Hskip : skip_ws (sjoin (44%N :: a) (dump_ws a b <$> l) ++ 93%N :: rest)
                    = sjoin (44%N :: a) (dump_ws a b <$> l) ++ 93%N :: rest).
    { destruct l as [|w l]; [done|]. inversion Hff' as [|? ? Hw0]; subst.
      change (dump_ws a b <$> w :: l) with (dump_ws a b w :: (dump_ws a b <$> l)).
      destruct (dump_ws a b <$> l) as [|p ps]; cbn [sjoin]; rewrite <- ?app_assoc; by apply skip_ws_dump. }
    rewrite Hskip, (IH Hff' Hne).
    + by rewrite <- app_assoc.
    + count Hf.
Qed.

Definition dump_entry (kv : pystr * json) : pystr := dump_str kv.1 ++ 58%N :: b ++ dump_ws a b kv.2.

Lemma dump_entry_app kv t :
  dump_entry kv ++ t = 34%N :: ((mjoin (escape_char <$> kv.1) ++ [34%N]) ++ 58%N :: b ++ dump_ws a b kv.2 ++ t).
Proof. unfold dump_entry, dump_str. rewrite <- !app_assoc. simpl. by rewrite <- !app_assoc. Qed.

(** One entry, up to what follows its value *)
Lemma scan_entry f d kv t :
  float_free kv.2 = true -> reads_back kv.2 -> ends_number t -> (2 * length (dump_entry kv ++ t) + 1 <= S f)%nat ->
  scan_members (S f) d (dump_entry kv ++ t) =
    match skip_ws t with
    | y :: r => if (y =? 125)%N then Some (JObj (dict_set kv.1 kv.2 d), r)
                else if (y =? 44)%N then scan_members f (dict_set kv.1 kv.2 d) (skip_ws r) else None
    | [] => None
    end.
Proof.
  intros Hff Hkv Ht. rewrite dump_entry_app. intros Hf.
  assert (Hlen : (2 * length (mjoin (escape_char <$> kv.1) ++ [34%N]) + 2 * length (dump_ws a b kv.2 ++ t) + 4 <= S f)%nat).
  { revert Hf. generalize (mjoin (escape_char <$> kv.1) ++ [34%N]), (dump_ws a b kv.2 ++ t). intros x y.
    simpl. rewrite length_app. simpl. rewrite length_app. lia. }
  cbn [scan_members]. change (34 =? 34)%N with true. cbn iota. rewrite scan_string_dump by lia.
  change (skip_ws (58%N :: ?t)) with (58%N :: t). cbn iota. change (58 =? 58)%N with true. cbn iota.
  rewrite skip_ws_app, skip_ws_dump, (Hkv f t) by (done || lia). reflexivity.
Qed.

Lemma dict_set_app_fresh (d : list (pystr * json)) k v : k ∉ d.*1 -> dict_set k v d = d ++ [(k, v)].
Proof.
  intros Hk. apply dict_set_fresh. destruct (dict_get k d) eqn:E; [|done].
  exfalso. apply Hk, dict_get_mem. by rewrite E.
Qed.

Lemma scan_members_dump e :
  Forall (fun kv => float_free kv.2 = true) e -> Forall (fun kv => reads_back kv.2) e -> e <> [] ->
  forall f d rest, NoDup (d.*1 ++ e.*1) ->
  (2 * length (sjoin (44%N :: a) (dump_entry <$> e) ++ 125%N :: rest) + 1 <= f)%nat ->
  scan_members f d (sjoin (44%N :: a) (dump_entry <$> e) ++ 125%N :: rest) = Some (JObj (d ++ e), rest).
Proof.
  intros Hff He. induction He as [|kv e Hkv He IH]; [done|]. intros _ f d rest Hn Hf.
  inversion Hff as [|? ? Hv0 Hff']; subst. destruct f as [|f]; [lia|].
  assert (Hk : kv.1 ∉ d.*1).
  { apply NoDup_app in Hn as (_ & Hn & _). intros H. apply (Hn _ H). simpl. by left. }
  destruct (decide (e = [])) as [->|Hne].
  - cbn [fmap list_fmap sjoin] in *. rewrite scan_entry by (done || lia).
    change (skip_ws (125%N :: rest)) with (125%N :: rest). change (125 =? 125)%N with true. cbn iota.
    rewrite dict_set_app_fresh by done. by destruct kv.
  - change (dump_entry <$> kv :: e) with (dump_entry kv :: (dump_entry <$> e)) in *.
    rewrite sjoin_cons in * by (intros H; by apply fmap_nil_inv in H).
    rewrite <- !app_assoc in *. change ((44%N :: a) ++ ?t) with (44%N :: (a ++ t)) in *.
    rewrite scan_entry by (done || lia).
    change (skip_ws (44%N :: ?t)) with (44%N :: t). change (44 =? 125)%N with false. change (44 =? 44)%N with true. cbn iota.
    rewrite skip_ws_app by done.
    assert (Hskip : skip_ws (sjoin (44%N :: a) (dump_entry <$> e) ++ 125%N :: rest)
                    = sjoin (44%N :: a) (dump_entry <$> e) ++ 125%N :: rest).
    { destruct e as [|w e]; [done|]. change (dump_entry <$> w :: e) with (dump_entry w :: (dump_entry <$> e)).
      destruct (dump_entry <$> e) as [|p ps]; cbn [sjoin]; rewrite <- ?app_assoc, dump_entry_app; done. }
    rewrite dict_set_app_fresh by done. rewrite Hskip, (IH Hff' Hne).
    + rewrite <- app_assoc. simpl. by destruct kv.
    + rewrite fmap_app, <- app_assoc. exact Hn.
    + count Hf.
Qed.

Lemma scan_dump v : json_wf v -> float_free v = true -> reads_back v.
Proof.
  induction v as [| [|] |z|f0|s|l IH|d IH] using json_ind'; intros Hwf Hff f rest Hrest Hf; try discriminate Hff;
    (destruct f as [|f]; [lia|]).
  - change (dump_ws a b JNull) with [110; 117; 108; 108]%N. reflexivity.
  - change (dump_ws a b (JBool true)) with [116; 114; 117; 101]%N. reflexivity.
  - change (dump_ws a b (JBool false)) with [102; 97; 108; 115; 101]%N. reflexivity.
  - change (dump_ws a b (JInt z)) with (str_of_Z z). cbn [scan_value].
    pose proof (no_constant z rest) as Hc. pose proof (scan_number_Z z rest Hrest) as Hz.
    destruct (str_of_Z_first z) as [(c & r & E & Hd)|(c & r & E & Hd)]; rewrite E in *; cbn [app] in *.
    + pose proof (digit_not 34 c Hd ltac:(lia)) as [_ ->]. pose proof (digit_not 123 c Hd ltac:(lia)) as [_ ->].
      pose proof (digit_not 91 c Hd ltac:(lia)) as [_ ->]. unfold scan_atom. by rewrite Hc.
    + change (45 =? 34)%N with false. change (45 =? 123)%N with false. change (45 =? 91)%N with false.
      unfold scan_atom. by rewrite Hc.
  - change (dump_ws a b (JStr s)) with (34%N :: (mjoin (escape_char <$> s) ++ [34%N])) in *.
    change ((34%N :: ?l) ++ rest) with (34%N :: (l ++ rest)) in *. cbn [scan_value]. change (34 =? 34)%N with true. cbn iota.
    rewrite scan_string_dump; [done|]. simpl in Hf. rewrite length_app in Hf. lia.
  - inversion Hwf as [| | | | |l' Hl|]; subst. cbn [dump_ws] in *.
    change ((91%N :: ?l) ++ rest) with (91%N :: (l ++ rest)) in *. rewrite <- app_assoc in *.
    change ([93%N] ++ rest) with (93%N :: rest) in *. cbn [scan_value].
    change (91 =? 34)%N with false. change (91 =? 123)%N with false. change (91 =? 91)%N with true. cbn iota.
    assert (Hffl : Forall (fun v => float_free v = true) l) by (by apply forallb_Forall).
    destruct l as [|x l']; [done|].
    rewrite <- (app_nil_l (x :: l')) at 2. rewrite <- (scan_items_dump (x :: l') Hffl) with (f := f) (acc := []).
    + inversion Hffl as [|? ? Hx]; subst. destruct (dump_first a b x Hx) as (c & r & E & Hc & H93 & _).
      change (dump_ws a b <$> x :: l') with (dump_ws a b x :: (dump_ws a b <$> l')). rewrite E.
      destruct (dump_ws a b <$> l'); cbn [sjoin app skip_ws]; by rewrite Hc, H93.
    + rewrite !Forall_forall in *. intros y Hy. apply IH; auto.
    + done.
    + count Hf.
  - inversion Hwf as [| | | | | |d' Hn Hl]; subst. cbn [dump_ws] in *. fold dump_entry in *.
    change ((123%N :: ?l) ++ rest) with (123%N :: (l ++ rest)) in *. rewrite <- app_assoc in *.
    change ([125%N] ++ rest) with (125%N :: rest) in *. cbn [scan_value].
    change (123 =? 34)%N with false. change (123 =? 123)%N with true. cbn iota.
    assert (Hffl : Forall (fun kv => float_free kv.2 = true) d) by (by apply (forallb_Forall (fun kv => float_free kv.2))).
    change (fun kv : pystr * json => dump_str kv.1 ++ 58%N :: b ++ dump_ws a b kv.2) with dump_entry in *.
    destruct d as [|x d']; [done|].
    rewrite <- (app_nil_l (x :: d')) at 2. rewrite <- (scan_members_dump (x :: d') Hffl) with (f := f) (d := []).
    + change (dump_entry <$> x :: d') with (dump_entry x :: (dump_entry <$> d')).
      destruct (dump_entry <$> d'); cbn [sjoin]; rewrite <- ?app_assoc, dump_entry_app; done.
    + rewrite !Forall_forall in *. intros y Hy. apply IH; auto.
    + done.
    + done.
    + count Hf.
Qed.
End RoundTrip.

(** Nothing follows: the whole text is the value. *)
Lemma loads_dump_ws a b v :
  Forall (fun c => json_ws c = true) a -> Forall (fun c => json_ws c = true) b ->
  json_wf v -> float_free v = true -> loads (dump_ws a b v) = Some v.
Proof.
  intros Ha Hb Hwf Hff.
  assert (H : scan_value (2 * length (dump_ws a b v) + 2) (skip_ws (dump_ws a b v)) = Some (v, [])).
  { rewrite <- (app_nil_r (dump_ws a b v)) at 2. rewrite skip_ws_dump by done.
    apply scan_dump; try done. rewrite app_nil_r. lia. }
  unfold loads. rewrite H. destruct (dump_first a b v Hff) as (c & r & E & _ & _ & _ & Hc). rewrite E.
  destruct (decide (c = 65279%N)) as [->|Hne]; [lia|].
  destruct c as [|p]; [done|]. repeat (destruct p as [p|p|]; try reflexivity). congruence.
Qed.

Lemma dump_json_plain_ws v : dump_json_plain v = dump_ws [32%N] [32%N] v.
Proof.
  induction v as [| | | | |l IH|d IH] using json_ind'; try done.
  - cbn [dump_json_plain dump_ws]. change (u "[") with [91%N]. change (u "]") with [93%N].
    change (u ", ") with [44; 32]%N. do 3 f_equal. apply list_fmap_ext. intros i x Hx.
    by apply (Forall_lookup_1 _ _ _ _ IH Hx).
  - cbn [dump_json_plain dump_ws]. change (u "{") with [123%N]. change (u "}") with [125%N].
    change (u ", ") with [44; 32]%N. change (u ": ") with [58; 32]%N. do 3 f_equal. apply list_fmap_ext. intros i x Hx.
    by rewrite (Forall_lookup_1 _ _ _ _ IH Hx).
Qed.

Lemma sort_by_fmap {A B} (h : A -> B) (le : A -> A -> bool) (le' : B -> B -> bool) l :
  (forall x y, le' (h x) (h y) = le x y) -> sort_by le' (h <$> l) = h <$> sort_by le l.
Proof.
  intros Hh. assert (Hins : forall x l, insert_sorted le' (h x) (h <$> l) = h <$> insert_sorted le x l).
  { intros x l'. induction l' as [|y l' IH]; simpl; [done|]. rewrite Hh.
    destruct (le x y); [done|]. simpl. by f_equal. }
  induction l as [|x l IH]; [done|].
  change (sort_by le' (h <$> x :: l)) with (insert_sorted le' (h x) (sort_by le' (h <$> l))).
  by rewrite IH, Hins.
Qed.

Lemma dump_json_ws v : dump_json v = dump_ws [] [] (sort_keys_rec v).
Proof.
  induction v as [| | | | |l IH|d IH] using json_ind'; try done.
  - cbn [dump_json dump_ws sort_keys_rec]. change (u "[") with [91%N]. change (u "]") with [93%N].
    change (u ",") with [44%N]. rewrite <- list_fmap_compose. do 3 f_equal. apply list_fmap_ext. intros i x Hx.
    by apply (Forall_lookup_1 _ _ _ _ IH Hx).
  - cbn [dump_json dump_ws sort_keys_rec]. change (u "{") with [123%N]. change (u "}") with [125%N].
    change (u ",") with [44%N]. change (u ":") with [58%N].
    assert (He : (fun kv : pystr * json => (kv.1, dump_json kv.2)) <$> d
                 = (fun kv : pystr * json => (kv.1, dump_ws [] [] kv.2))
                   <$> ((fun kv : pystr * json => (kv.1, sort_keys_rec kv.2)) <$> d)).
    { rewrite <- list_fmap_compose. apply list_fmap_ext. intros i x Hx. simpl.
      by rewrite (Forall_lookup_1 _ _ _ _ IH Hx). }
    rewrite He, (sort_by_fmap _ key_leb) by done. rewrite <- list_fmap_compose. reflexivity.
Qed.

Lemma forallb_perm {A} (p : A -> bool) l l' : l ≡ₚ l' -> forallb p l = forallb p l'.
Proof. induction 1 as [|x l l' _ IH|x y l|l l' l'' _ IH1 _ IH2]; simpl; [done|by f_equal| |congruence]. by destruct (p x), (p y). Qed.

Lemma sort_keys_float_free v : float_free (sort_keys_rec v) = float_free v.
Proof.
  induction v as [| | | | |l IH|d IH] using json_ind'; try done; cbn [sort_keys_rec float_free].
  - induction IH as [|x l Hx _ IHl]; [done|]. cbn [fmap list_fmap forallb]. rewrite Hx. by f_equal.
  - rewrite (forallb_perm _ _ _ (sort_by_perm key_leb _)). induction IH as [|x d Hx _ IHd]; [done|].
    cbn [fmap list_fmap forallb snd]. rewrite Hx. by f_equal.
Qed.

(** [json.loads(json.dumps(v, ensure_ascii=False)) == v], the keys in their order. *)
Lemma loads_dump_json_plain v : json_wf v -> float_free v = true -> loads (dump_json_plain v) = Some v.
Proof. intros. rewrite dump_json_plain_ws. apply loads_dump_ws; repeat constructor; done. Qed.

(** With [sort_keys=True] and compact separators, the keys come back sorted: this
    is what [_normalize_structured_output] of the tool executor relies on. *)
Lemma loads_dump_json v : json_wf v -> float_free v = true -> loads (dump_json v) = Some (sort_keys_rec v).
Proof.
  intros Hwf Hff. rewrite dump_json_ws.
  apply loads_dump_ws; try constructor; [by apply sort_keys_wf|by rewrite sort_keys_float_free].
Qed.
