(* ===== verification/Regex.v ===== *)
(** * Regular expressions: the part of Python's [re] that the code uses

    A pattern is matched by backtracking, alternatives from left to right and
    repetitions greedily, at a position of the text: [b] is the text before it,
    reversed, and [s] the text after it, so that look-behind, [\b], [^] and [$]
    are tests of the two ([Look]).  [match_re] is what the engine computes and
    [matches] the language of a pattern; [sub] is [pattern.sub(repl, s)].  The
    body of every [Star] of the code consumes a character. *)

From S2P Require Import Prelude.
Local Open Scope nat_scope.

Inductive re :=
| Eps
| Chr (p : N -> bool)
| Seq (a b : re)
| Alt (a b : re)
| Star (a : re)
| Look (test : pystr -> pystr -> bool).

Fixpoint seqs (l : list re) : re :=
  match l with [] => Eps | [r] => r | r :: l => Seq r (seqs l) end.
Fixpoint alts (l : list re) : re :=
  match l with [] => Look (fun _ _ => false) | [r] => r | r :: l => Alt r (alts l) end.
Definition Opt (a : re) : re := Alt a Eps.
Definition Plus (a : re) : re := Seq a (Star a).
(** [a{n}] and [a{n,}] *)
Fixpoint times (n : nat) (a : re) : re := match n with O => Eps | S n => Seq a (times n a) end.
Definition at_least (n : nat) (a : re) : re := Seq (times n a) (Star a).

(** ** Matching *)

(** The rest of the match: the text before and after its end. *)
Abbreviation cont := (pystr -> pystr -> option (pystr * pystr)).

(** One round of a greedy repetition per unit of fuel. *)
Fixpoint star_loop (body : cont -> cont) (k : cont) (fuel : nat) : cont := fun b s =>
  match fuel with
  | O => k b s
  | S f =>
      match body (fun b' s' => if length s' <? length s then star_loop body k f b' s' else None) b s with
      | Some r => Some r
      | None => k b s
      end
  end.

Fixpoint match_re (r : re) (k : cont) : cont := fun b s =>
  match r with
  | Eps => k b s
  | Chr p => match s with c :: s' => if p c then k (c :: b) s' else None | [] => None end
  | Seq x y => match_re x (match_re y k) b s
  | Alt x y => match match_re x k b s with Some e => Some e | None => match_re y k b s end
  | Star x => star_loop (match_re x) k (length s) b s
  | Look test => if test b s then k b s else None
  end.

(** [pattern.match] at a position: the text before and after the match. *)
Definition match_at (r : re) : cont := match_re r (fun b s => Some (b, s)).

(** [pattern.sub(repl, text)] for a pattern that never matches the empty text. *)
Fixpoint sub_go (r : re) (repl : pystr) (fuel : nat) (b s : pystr) : pystr :=
  match fuel with
  | O => s
  | S f =>
      match match_at r b s, s with
      | Some (b', s'), _ => repl ++ sub_go r repl f b' s'
      | None, c :: s' => c :: sub_go r repl f (c :: b) s'
      | None, [] => []
      end
  end.
Definition sub (r : re) (repl text : pystr) : pystr := sub_go r repl (length text) [] text.

(** ** Character classes and assertions *)

Definition is_digit (c : N) : bool := ((48 <=? c) && (c <=? 57))%N.
Definition is_upper (c : N) : bool := ((65 <=? c) && (c <=? 90))%N.
Definition is_lower (c : N) : bool := ((97 <=? c) && (c <=? 122))%N.
Definition is_letter (c : N) : bool := is_upper c || is_lower c.
Definition one_of (l : pystr) (c : N) : bool := existsb (N.eqb c) l.

(** [re.IGNORECASE] for ASCII letters: the capital letters, and the four other
    characters whose lower case or case variant is an ASCII letter. *)
Definition fold_case (c : N) : N :=
  if is_upper c then (c + 32)%N
  else if (c =? 304)%N || (c =? 305)%N then 105%N
  else if (c =? 383)%N then 115%N
  else if (c =? 8490)%N then 107%N
  else c.

Fixpoint lit (l : pystr) : re :=
  match l with [] => Eps | [c] => Chr (N.eqb c) | c :: l => Seq (Chr (N.eqb c)) (lit l) end.
(** A word in lower case, read with [re.IGNORECASE] *)
Fixpoint lit_i (l : pystr) : re :=
  match l with
  | [] => Eps
  | [c] => Chr (fun x => fold_case x =? c)%N
  | c :: l => Seq (Chr (fun x => fold_case x =? c)%N) (lit_i l)
  end.

Definition first_is (p : N -> bool) (s : pystr) : bool := match s with c :: _ => p c | [] => false end.
(** [(?<!p)] and [(?!p)] for one character; [^] and [$] with [re.MULTILINE] *)
Definition not_behind (p : N -> bool) : re := Look (fun b _ => negb (first_is p b)).
Definition not_ahead (p : N -> bool) : re := Look (fun _ s => negb (first_is p s)).
Definition line_start : re := Look (fun b _ => match b with c :: _ => (c =? 10)%N | [] => true end).
Definition line_end : re := Look (fun _ s => match s with c :: _ => (c =? 10)%N | [] => true end).
(** [\b], from the test of a word character *)
Definition word_edge (is_word : N -> bool) : re :=
  Look (fun b s => xorb (first_is is_word b) (first_is is_word s)).
Definition spaces : re := Star (Chr is_space).
Definition not_newline : re := Chr (fun c => negb (c =? 10)%N).

(** ** The language of a pattern

    [matches r b w s]: [w], after the (reversed) text [b] and before [s], is
    in the language of [r]. *)
Inductive matches : re -> pystr -> pystr -> pystr -> Prop :=
| MEps b s : matches Eps b [] s
| MChr p c b s : p c = true -> matches (Chr p) b [c] s
| MSeq x y b v w s : matches x b v (w ++ s) -> matches y (rev v ++ b) w s -> matches (Seq x y) b (v ++ w) s
| MAltL x y b w s : matches x b w s -> matches (Alt x y) b w s
| MAltR x y b w s : matches y b w s -> matches (Alt x y) b w s
| MStarNil x b s : matches (Star x) b [] s
| MStar x b v w s : v <> [] -> matches x b v (w ++ s) -> matches (Star x) (rev v ++ b) w s ->
    matches (Star x) b (v ++ w) s
| MLook t b s : t b s = true -> matches (Look t) b [] s.

#[export] Hint Constructors matches : re.

(** What the engine finds is in the language. *)
Lemma match_re_sound r : forall k b s e, match_re r k b s = Some e ->
  exists w s', s = w ++ s' /\ matches r b w s' /\ k (rev w ++ b) s' = Some e.
Proof.
  induction r as [|p|x IHx y IHy|x IHx y IHy|x IHx|t]; simpl; intros k b s e He.
  - exists [], s. eauto with re.
  - destruct s as [|c s]; [done|]. destruct (p c) eqn:Hp; [|done]. exists [c], s. eauto with re.
  - apply IHx in He as (v & s1 & -> & Hv & He). apply IHy in He as (w & s2 & -> & Hw & He).
    exists (v ++ w), s2. split; [by rewrite app_assoc|]. split; [eauto with re|].
    by rewrite rev_app_distr, <- app_assoc.
  - destruct (match_re x k b s) as [e'|] eqn:Ex.
    + injection He as <-. apply IHx in Ex as (w & s' & ? & ? & ?). eauto 6 with re.
    + apply IHy in He as (w & s' & ? & ? & ?). eauto 6 with re.
  - remember (length s) as n eqn:Hn. clear Hn. revert k b s e He.
    induction n as [|n IHn]; simpl; intros k b s e He.
    + exists [], s. eauto with re.
    + destruct (match_re x _ b s) as [e'|] eqn:Ex.
      * injection He as <-. apply IHx in Ex as (v & s1 & -> & Hv & Ex).
        destruct (length s1 <? length (v ++ s1)) eqn:Hlt; [|done].
        apply IHn in Ex as (w & s2 & -> & Hw & Ex). exists (v ++ w), s2.
        split; [by rewrite app_assoc|]. split; [|by rewrite rev_app_distr, <- app_assoc].
        constructor; [|done..]. intros ->. simpl in Hlt. rewrite Nat.ltb_irrefl in Hlt. done.
      * exists [], s. eauto with re.
  - destruct (t b s) eqn:Ht; [|done]. exists [], s. eauto with re.
Qed.

(** The engine fails only where no text of the language leads on. *)
Lemma star_complete x
    (IHx : forall k b s, match_re x k b s = None ->
       forall w s', s = w ++ s' -> matches x b w s' -> k (rev w ++ b) s' = None) :
  forall n k b s, star_loop (match_re x) k n b s = None -> length s <= n ->
  forall w s', s = w ++ s' -> matches (Star x) b w s' -> k (rev w ++ b) s' = None.
Proof.
  induction n as [|n IHn]; simpl; intros k b s He Hn w s' -> Hm.
  { rewrite length_app in Hn. destruct w; [done|simpl in Hn; lia]. }
  destruct (match_re x _ b (w ++ s')) eqn:Ex; [done|].
  inversion Hm as [| | | | |x' b' s1|x' b' v w2 s1 Hv Hx Hw|]; subst; [done|]. rename w2 into w.
  pose proof (IHx _ _ _ Ex v (w ++ s') (eq_sym (app_assoc _ _ _)) Hx) as Hk. cbn beta in Hk.
  assert (Hlt : (length (w ++ s') <? length ((v ++ w) ++ s')) = true).
  { apply Nat.ltb_lt. rewrite !length_app. destruct v; [done|simpl; lia]. }
  rewrite Hlt in Hk. rewrite rev_app_distr, <- app_assoc.
  apply (IHn _ _ _ Hk); [|done|done]. apply Nat.ltb_lt in Hlt. lia.
Qed.

Lemma match_re_complete r : forall k b s, match_re r k b s = None ->
  forall w s', s = w ++ s' -> matches r b w s' -> k (rev w ++ b) s' = None.
Proof.
  induction r as [|p|x IHx y IHy|x IHx y IHy|x IHx|t]; intros k b s He w s' Hs Hm.
  - inversion Hm; subst. done.
  - inversion Hm; subst. simpl in *. by rewrite H0 in He.
  - inversion Hm; subst. simpl in He. rewrite <- app_assoc in He.
    rewrite rev_app_distr, <- app_assoc.
    pose proof (IHx _ _ _ He _ _ eq_refl H1) as Hk. by eapply IHy.
  - simpl in He. destruct (match_re x k b s) eqn:Ex; [done|]. inversion Hm; subst; eauto.
  - simpl in He. by eapply star_complete.
  - inversion Hm; subst. simpl in *. by rewrite H0 in He.
Qed.

Lemma match_at_sound r b s b' s' : match_at r b s = Some (b', s') ->
  exists w, s = w ++ s' /\ b' = rev w ++ b /\ matches r b w s'.
Proof.
  intros (w & s1 & -> & Hm & [= <- <-])%match_re_sound. eauto.
Qed.

Lemma match_at_none r b s : match_at r b s = None ->
  forall w s', s = w ++ s' -> ~ matches r b w s'.
Proof. intros He w s' Hs Hm. by pose proof (match_re_complete _ _ _ _ He _ _ Hs Hm). Qed.

(** ** What [sub] does *)

(** Every match contains a character. *)
Fixpoint consuming (r : re) : bool :=
  match r with
  | Chr _ => true
  | Seq a b => consuming a || consuming b
  | Alt a b => consuming a && consuming b
  | Eps | Star _ | Look _ => false
  end.

Lemma consuming_ne r b w s : consuming r = true -> matches r b w s -> w <> [].
Proof.
  intros Hc Hm. revert Hc. induction Hm; simpl; intros Hc; try done; bools; try naive_solver.
  intros [-> ->]%app_nil. naive_solver.
Qed.

(** The text is read from left to right: where the pattern matches, the matched
    text is replaced; a character stays where no match begins at it. *)
Inductive replaced (r : re) (repl : pystr) : pystr -> pystr -> pystr -> Prop :=
| ReplacedEnd b : replaced r repl b [] []
| ReplacedHit b w s o : match_at r b (w ++ s) = Some (rev w ++ b, s) -> matches r b w s -> w <> [] ->
    replaced r repl (rev w ++ b) s o -> replaced r repl b (w ++ s) (repl ++ o)
| ReplacedKeep b c s o : (forall w s', c :: s = w ++ s' -> ~ matches r b w s') ->
    replaced r repl (c :: b) s o -> replaced r repl b (c :: s) (c :: o).

Lemma sub_go_replaced r repl : consuming r = true ->
  forall n b s, length s <= n -> replaced r repl b s (sub_go r repl n b s).
Proof.
  intros Hr. induction n as [|n IH]; intros b s Hn.
  { destruct s; [constructor|simpl in Hn; lia]. }
  simpl. destruct (match_at r b s) as [[b' s']|] eqn:Em.
  - pose proof (match_at_sound _ _ _ _ _ Em) as (w & -> & -> & Hm).
    pose proof (consuming_ne _ _ _ _ Hr Hm) as Hw. constructor; [done..|].
    apply IH. rewrite length_app in Hn. destruct w; [done|simpl in Hn; lia].
  - destruct s as [|c s]; constructor; [by apply match_at_none|]. apply IH. simpl in Hn. lia.
Qed.

Lemma sub_replaced r repl text : consuming r = true -> replaced r repl [] text (sub r repl text).
Proof. intros Hr. by apply sub_go_replaced. Qed.

(** A text without a match stays as it is. *)
Lemma replaced_same r repl b s o : replaced r repl b s o ->
  (forall u w s', s = u ++ w ++ s' -> ~ matches r (rev u ++ b) w s') -> o = s.
Proof.
  induction 1 as [b|b w s o _ Hm Hw _ _|b c s o Hc _ IH]; intros Hn; [done| |].
  - destruct (Hn [] w s eq_refl Hm).
  - f_equal. apply IH. intros v w s' -> Hm. apply (Hn (c :: v) w s' eq_refl).
    simpl. by rewrite <- app_assoc.
Qed.

Lemma sub_same r repl text : consuming r = true ->
  (forall pre w post, text = pre ++ w ++ post -> ~ matches r (rev pre) w post) -> sub r repl text = text.
Proof.
  intros Hr Hn. apply (replaced_same r repl []); [by apply sub_replaced|].
  intros v w s Hs. rewrite app_nil_r. by apply Hn.
Qed.

(** A final greedy repetition of a class stops only at a character outside it. *)
Lemma star_chr_greedy p : forall n b s, length s <= n ->
  exists b' s', star_loop (match_re (Chr p)) (fun b s => Some (b, s)) n b s = Some (b', s') /\
    first_is p s' = false.
Proof.
  induction n as [|n IH]; intros b s Hn.
  { destruct s; [|simpl in Hn; lia]. by exists b, []. }
  destruct s as [|c s]; [by exists b, []|]. simpl in Hn.
  destruct (IH (c :: b) s) as (b' & s' & He & Hf); [lia|]. cbn [star_loop match_re] in *.
  destruct (p c) eqn:Hp; [|by exists b, (c :: s)].
  replace (length s <? length (c :: s)) with true by (symmetry; apply Nat.ltb_lt; simpl; lia).
  rewrite He. eauto.
Qed.

(** Where a match ends, the continuation has answered. *)
Lemma match_re_k r : forall k b s e, match_re r k b s = Some e -> exists b' s', k b' s' = Some e.
Proof. intros k b s e (w & s' & _ & _ & H)%match_re_sound. eauto. Qed.
