(* ===== verification/Redaction.v ===== *)
(** * Public text: [app/api/redaction.py]

    What a user may read of a model's answer, a tool's output or a retrieved
    document: credentials, stack traces and internal paths are replaced and the
    text is cut at 1200 characters.  [str.isalnum] of characters outside ASCII
    is the argument [is_alnum]. *)

From S2P Require Import Prelude Regex.

Definition MAX_RAG_CONTENT_CHARS : Z := 1200.
Definition PUBLIC_REDACTION : pystr := u "[redacted]".
Definition PUBLIC_INTERNAL_PATH_REDACTION : pystr := u "[internal path redacted]".
Definition PUBLIC_STACK_LINE_REDACTION : pystr := u "[stack trace redacted]".

Section Redaction.
Context (is_alnum : N -> bool).

(** [\w] *)
Definition is_word (c : N) : bool := is_alnum c || (c =? 95)%N.

Definition word_i (s : string) : re := lit_i (u s).
Definition chars (l : string) : re := Chr (one_of (u l)).
(** ASCII letters, with [re.IGNORECASE] *)
Definition letter_i (c : N) : bool := is_letter (fold_case c).
Definition alnum_i (c : N) : bool := letter_i c || is_digit c.

Definition SENSITIVE_ASSIGNMENT_RE : re :=
  seqs [word_edge is_word;
        alts [seqs [word_i "api"; Opt (chars "_-"); word_i "key"];
              word_i "x-api-key";
              seqs [word_i "access"; Opt (chars "_-"); word_i "token"];
              seqs [word_i "refresh"; Opt (chars "_-"); word_i "token"];
              word_i "secret";
              word_i "password"];
        word_edge is_word; spaces; chars ":="; spaces;
        Plus (Chr (fun c => negb (is_space c || one_of (u ",;") c)))].

Definition BEARER_TOKEN_RE : re :=
  seqs [word_edge is_word; word_i "bearer"; Plus (Chr is_space);
        Plus (Chr (fun c => alnum_i c || one_of (u "._~+/=-") c))].

Definition key_char (c : N) : bool := alnum_i c || one_of (u "_-") c.
Definition KNOWN_API_KEY_RE : re :=
  alts [seqs [not_behind alnum_i;
              alts [word_i "sk"; word_i "pk"; word_i "rk"; word_i "ghp"; word_i "github_pat"; word_i "xoxb";
                    word_i "xoxp"];
              chars "-"; Chr alnum_i; at_least 8 (Chr key_char)];
        seqs [not_behind alnum_i; word_i "aiza"; at_least 20 (Chr key_char)];
        seqs [not_behind alnum_i; word_i "akia"; times 16 (Chr alnum_i); not_ahead alnum_i]].

Definition path_char (c : N) : bool := negb (is_space c || (c =? 58)%N).
Definition path_roots : list pystr :=
  [u "/Users/"; u "/home/"; u "/var/"; u "/private/"; u "/opt/"; u "/srv/"; u "/tmp/"; u "/etc/"; u "/root/"].
Definition INTERNAL_PATH_RE : re :=
  Seq (not_behind is_word)
    (Alt (Seq (alts (lit <$> path_roots)) (Plus (Chr path_char)))
         (Seq (Chr is_letter) (Seq (lit (u ":\")) (Plus (Chr path_char))))).

Definition STACK_TRACE_LINE_RE : re :=
  seqs [line_start; spaces;
        alts [seqs [word_i "traceback"; spaces; chars "("; Star not_newline; lit (u "):")];
              seqs [word_i "file"; Plus (Chr is_space); Chr (one_of [34; 39]%N); Star not_newline];
              seqs [word_i "at"; Plus (Chr is_space);
                    alts [chars "/";
                          Seq (Chr letter_i) (lit (u ":\"));
                          seqs [Chr (fun c => letter_i c || one_of (u "_$") c);
                                Star (Chr (fun c => is_word c || (c =? 36)%N));
                                Star (Seq (chars ".$") (Star (Chr (fun c => is_word c || one_of (u "$<>") c))));
                                spaces; chars "("]];
                    Star not_newline];
              seqs [word_i "caused by:"; Star not_newline]];
        line_end].

Definition redact (content : pystr) : pystr :=
  let sanitized := sub STACK_TRACE_LINE_RE PUBLIC_STACK_LINE_REDACTION content in
  let sanitized := sub SENSITIVE_ASSIGNMENT_RE PUBLIC_REDACTION sanitized in
  let sanitized := sub BEARER_TOKEN_RE (u "Bearer " ++ PUBLIC_REDACTION) sanitized in
  let sanitized := sub KNOWN_API_KEY_RE PUBLIC_REDACTION sanitized in
  sub INTERNAL_PATH_RE PUBLIC_INTERNAL_PATH_REDACTION sanitized.

Definition sanitize_public_rag_content (content : pystr) : pystr * bool :=
  let sanitized := redact content in
  let changed := negb (bool_decide (sanitized = content)) in
  if (MAX_RAG_CONTENT_CHARS <? slen sanitized)%Z
  then (sprefix MAX_RAG_CONTENT_CHARS sanitized, true)
  else (sanitized, changed).

Definition sanitize_public_text (content : pystr) : pystr := fst (sanitize_public_rag_content content).
End Redaction.

(** [str.isalnum] on ASCII text *)
Definition ascii_alnum (c : N) : bool := is_letter c || is_digit c.

(** ** What [sanitize_public_text] guarantees *)

Section RedactionFacts.
Context (is_alnum : N -> bool).
Abbreviation PATH := (INTERNAL_PATH_RE is_alnum).
Abbreviation GONE := PUBLIC_INTERNAL_PATH_REDACTION.

(** An internal path begins at this place. *)
Definition root_here (s : pystr) : bool :=
  existsb (fun root => starts_with root s && first_is path_char (drop (length root) s)) path_roots.
Definition drive_here (s : pystr) : bool :=
  match s with
  | c :: s => is_letter c && (starts_with [58; 92]%N s && first_is path_char (drop 2 s))
  | [] => false
  end.
Definition path_here (b s : pystr) : bool :=
  negb (first_is (is_word is_alnum) b) && (root_here s || drive_here s).

Lemma matches_seq x y b w s : matches (Seq x y) b w s ->
  exists v w', w = v ++ w' /\ matches x b v (w' ++ s) /\ matches y (rev v ++ b) w' s.
Proof. intros Hm. inversion Hm; subst. eauto. Qed.
Lemma matches_alt x y b w s : matches (Alt x y) b w s -> matches x b w s \/ matches y b w s.
Proof. intros Hm. inversion Hm; subst; auto. Qed.
Lemma matches_look t b w s : matches (Look t) b w s -> w = [] /\ t b s = true.
Proof. intros Hm. by inversion Hm; subst. Qed.
Lemma matches_chr p b w s : matches (Chr p) b w s -> exists c, w = [c] /\ p c = true.
Proof. intros Hm. inversion Hm; subst. eauto. Qed.

Lemma lit_matches l : forall b s, matches (lit l) b l s.
Proof.
  induction l as [|c [|d l] IH]; intros b s; [constructor|constructor; by rewrite N.eqb_refl|].
  apply (MSeq _ _ b [c] (d :: l)); [constructor; by rewrite N.eqb_refl|apply IH].
Qed.

Lemma matches_lit l : forall b w s, matches (lit l) b w s -> w = l.
Proof.
  induction l as [|c [|d l] IH]; intros b w s Hm; inversion Hm; subst; [done|bools; by subst|].
  match goal with H : matches (Chr _) _ _ _ |- _ => inversion H; subst end.
  bools. subst. simpl. f_equal. by eapply IH.
Qed.

Lemma alts_matches rs r b w s : r ∈ rs -> matches r b w s -> matches (alts rs) b w s.
Proof.
  induction rs as [|x [|y rs] IH]; [by intros ?%not_elem_of_nil|by intros ->%list_elem_of_singleton|].
  intros [->|Hin]%elem_of_cons Hm; [by constructor|]. apply MAltR. by apply IH.
Qed.

Lemma matches_alts rs b w s : matches (alts rs) b w s -> exists r, r ∈ rs /\ matches r b w s.
Proof.
  induction rs as [|x [|y rs] IH]; simpl; intros Hm; [inversion Hm; done|by eexists; split; [left|]|].
  inversion Hm; subst; [by eexists; split; [left|]|].
  destruct IH as (r & ? & ?); [done|]. exists r. split; [by right|done].
Qed.

Lemma plus_matches p b c s : p c = true -> matches (Plus (Chr p)) b [c] s.
Proof. intros Hp. apply (MSeq _ _ b [c] []); [by constructor|constructor]. Qed.

Lemma matches_plus p b w s : matches (Plus (Chr p)) b w s -> first_is p w = true.
Proof.
  intros Hm. inversion Hm; subst.
  match goal with H : matches (Chr _) _ _ _ |- _ => inversion H; subst; done end.
Qed.

Lemma first_is_app p l s : first_is p l = true -> first_is p (l ++ s) = true.
Proof. by destruct l. Qed.

Lemma first_is_split p s : first_is p s = true -> exists c s', s = c :: s' /\ p c = true.
Proof. destruct s; [done|]. eauto. Qed.

(** [path_here] decides whether a match begins. *)
Lemma matches_path_here b w s : matches PATH b w s -> path_here b (w ++ s) = true.
Proof.
  intros (v & w1 & -> & (-> & Hb)%matches_look & Ha)%matches_seq. apply andb_true_iff. split; [done|].
  apply orb_true_iff. apply matches_alt in Ha as [Hr|Hd].
  - left. apply matches_seq in Hr as (v & w2 & -> & Hroot & Hq%matches_plus).
    apply matches_alts in Hroot as (r & (root & -> & Hin)%list_elem_of_fmap & ->%matches_lit).
    apply existsb_exists. exists root. split; [by apply list_elem_of_In|].
    rewrite app_nil_l, <- app_assoc, starts_with_app, drop_app_length. by apply first_is_app.
  - right. apply matches_seq in Hd as (v & w2 & -> & (c & -> & Hc)%matches_chr & Hr).
    apply matches_seq in Hr as (v & w3 & -> & ->%matches_lit & Hq%matches_plus).
    change (u ":\") with [58; 92]%N. cbn [app drive_here]. rewrite Hc. by apply first_is_app.
Qed.

Lemma path_here_matches b s : path_here b s = true ->
  exists w s', s = w ++ s' /\ matches PATH b w s'.
Proof.
  intros [Hb [Hr|Hd]%orb_true_iff]%andb_true_iff.
  - apply existsb_exists in Hr as (root & Hin%list_elem_of_In & [(t & ->)%starts_with_true Hf]%andb_true_iff).
    rewrite drop_app_length in Hf. apply first_is_split in Hf as (c & t' & -> & Hc).
    exists (root ++ [c]), t'. split; [by rewrite <- app_assoc|].
    apply (MSeq _ _ b [] (root ++ [c])); [by constructor|]. apply MAltL.
    apply MSeq; [|by apply plus_matches].
    apply (alts_matches _ (lit root)); [by apply list_elem_of_fmap_2|apply lit_matches].
  - destruct s as [|d s]; [done|]. apply andb_true_iff in Hd as [Hd [(t & ->)%starts_with_true Hf]%andb_true_iff].
    change (first_is path_char t = true) in Hf. apply first_is_split in Hf as (c & t' & -> & Hc).
    exists (d :: [58; 92]%N ++ [c]), t'. split; [done|].
    apply (MSeq _ _ b [] (d :: [58; 92]%N ++ [c])); [by constructor|]. apply MAltR.
    apply (MSeq _ _ b [d] ([58; 92]%N ++ [c])); [by constructor|].
    apply MSeq; [apply (lit_matches [58; 92]%N)|by apply plus_matches].
Qed.

(** A match of the engine ends where a path cannot go on. *)
Lemma match_at_greedy b s b' s' : match_at PATH b s = Some (b', s') -> first_is path_char s' = false.
Proof.
  unfold match_at, INTERNAL_PATH_RE. intros He.
  enough (Hplus : exists b0 s0, match_re (Plus (Chr path_char)) (fun b s => Some (b, s)) b0 s0 = Some (b', s')).
  { destruct Hplus as (b0 & s0 & (b1 & s1 & H)%(match_re_k (Chr path_char))).
    destruct (star_chr_greedy path_char (length s1) b1 s1) as (b2 & s2 & E & Hf); [done|].
    assert (Hs : Some (b2, s2) = Some (b', s')) by exact (eq_trans (eq_sym E) H). by injection Hs as <- <-. }
  apply (match_re_k (not_behind (is_word is_alnum))) in He as (b1 & s1 & He).
  set (k := match_re (Plus (Chr path_char)) (fun b s => Some (b, s))) in *.
  change (match match_re (alts (lit <$> path_roots)) k b1 s1 with
          | Some e => Some e
          | None => match_re (Chr is_letter) (match_re (lit (u ":\")) k) b1 s1
          end = Some (b', s')) in He.
  destruct (match_re (alts _) k b1 s1) as [e|] eqn:Er.
  - injection He as ->. by apply (match_re_k (alts (lit <$> path_roots))) in Er.
  - apply (match_re_k (Chr is_letter)) in He as (b2 & s2 & He). by apply (match_re_k (lit (u ":\"))) in He.
Qed.

(** No internal path begins anywhere in [o], which comes after [b]. *)
Fixpoint pathless (b o : pystr) : Prop :=
  match o with [] => True | c :: o' => path_here b o = false /\ pathless (c :: b) o' end.

(** What the redaction writes holds no beginning of a path, whatever follows. *)
Fixpoint harmless (l : pystr) : bool :=
  match l with
  | [] => true
  | c :: l' =>
      negb (c =? 47)%N && (negb (is_letter c) || match l' with d :: _ => negb (d =? 58)%N | [] => false end)
      && harmless l'
  end.

Lemma roots_slash : Forall (fun r => first_is (N.eqb 47) r = true) path_roots.
Proof. repeat constructor. Qed.

Lemma path_here_head b c s : path_here b (c :: s) = true ->
  (c = 47%N \/ is_letter c = true /\ first_is (N.eqb 58) s = true).
Proof.
  intros [_ [Hr|Hd]%orb_true_iff]%andb_true_iff.
  - left. apply existsb_exists in Hr as (root & Hin%list_elem_of_In & [Hs _]%andb_true_iff).
    pose proof (proj1 (Forall_forall _ _) roots_slash _ Hin) as Hroot. cbn beta in Hroot.
    destruct root as [|x root]; [done|]. apply (N.eqb_eq 47) in Hroot. simpl in Hs. bools. congruence.
  - right. apply andb_true_iff in Hd as [Hc [(t & ->)%starts_with_true _]%andb_true_iff]. by split.
Qed.

Lemma harmless_pathless l : forall b o, harmless l = true -> pathless (rev l ++ b) o -> pathless b (l ++ o).
Proof.
  induction l as [|c l IH]; [done|]. intros b o [[Hc Hn]%andb_true_iff Hl]%andb_true_iff Ho. split.
  - destruct (path_here b ((c :: l) ++ o)) eqn:Hp; [|done]. exfalso. bools.
    apply path_here_head in Hp as [Hp|[Hp Hs]]; [congruence|]. rewrite Hp in Hn.
    destruct l as [|d l]; [by destruct Hn|]. apply (N.eqb_eq 58) in Hs. subst d. by destruct Hn.
  - apply IH; [done|]. simpl in Ho. by rewrite <- app_assoc in Ho.
Qed.

Lemma gone_harmless : harmless GONE = true.
Proof. by vm_compute. Qed.

Lemma path_char_start c : c = 47%N \/ is_letter c = true -> path_char c = true.
Proof.
  unfold is_letter, is_upper, is_lower, path_char, is_space. intros [->|H]; [done|].
  apply negb_true_iff. apply orb_false_iff.
  split; [|apply N.eqb_neq; intros ->; done].
  apply orb_true_iff in H as [H|H]; apply andb_true_iff in H as [Hl%N.leb_le Hh%N.leb_le];
  repeat (apply orb_false_iff; split); try (apply andb_false_iff);
  rewrite ?N.leb_gt, ?N.eqb_neq; lia.
Qed.

(** Where the output begins with text that has no [[], so does the input. *)
Lemma replaced_prefix b s o l : replaced PATH GONE b s o -> forallb (fun c => negb (c =? 91)%N) l = true ->
  starts_with l o = true -> starts_with l s = true /\
  exists b', replaced PATH GONE b' (drop (length l) s) (drop (length l) o).
Proof.
  intros Hr. revert l. induction Hr as [b|b w s o He Hm Hw Hr IH|b c s o Hc Hr IH]; intros l Hl Ho.
  - destruct l; [|done]. split; [done|]. exists b. constructor.
  - destruct l as [|c l]; [|exfalso].
    + split; [done|]. exists b. by constructor.
    + simpl in Hl, Ho. bools. subst. done.
  - destruct l as [|d l]; [split; [done|]; exists b; by constructor|].
    simpl in *. bools. subst. rewrite N.eqb_refl. by apply IH.
Qed.

Lemma replaced_first b s o : replaced PATH GONE b s o -> first_is path_char o = true ->
  first_is path_char s = true.
Proof.
  destruct 1 as [b|b w s o He Hm Hw Hr|b c s o Hc Hr]; [done| |done]. intros _. apply first_is_app.
  apply matches_path_here in Hm. destruct w as [|c w]; [done|]. simpl in Hm |- *.
  apply path_char_start. apply path_here_head in Hm. naive_solver.
Qed.

(** A path that begins at a kept character began there before. *)
Lemma path_here_back b bo c s o : replaced PATH GONE b (c :: s) (c :: o) ->
  first_is (is_word is_alnum) bo = first_is (is_word is_alnum) b ->
  path_here bo (c :: o) = true -> path_here b (c :: s) = true.
Proof.
  intros Hr Hb [Hbo Hp]%andb_true_iff. apply andb_true_iff. split; [by rewrite <- Hb|].
  apply orb_true_iff. apply orb_true_iff in Hp as [Hp|Hp].
  - left. apply existsb_exists in Hp as (root & Hin & [Hs Hf]%andb_true_iff).
    apply existsb_exists. exists root. split; [done|].
    assert (Hplain : forallb (forallb (fun c => negb (c =? 91)%N)) path_roots = true) by (by vm_compute).
    rewrite forallb_forall in Hplain. specialize (Hplain _ Hin).
    destruct (replaced_prefix _ _ _ _ Hr Hplain Hs) as (-> & b' & Hr').
    by apply (replaced_first b' _ (drop (length root) (c :: o))).
  - right. apply andb_true_iff in Hp as [Hc [Hs Hf]%andb_true_iff]. cbn [drive_here]. rewrite Hc.
    assert (Hne : (c =? 91)%N = false).
    { apply N.eqb_neq. intros ->. done. }
    destruct (replaced_prefix _ _ _ [c; 58; 92]%N Hr) as (Hs' & b' & Hr').
    + cbn [forallb]. by rewrite Hne.
    + apply starts_with_true in Hs as [t ->]. apply (starts_with_app [c; 58; 92]%N).
    + apply starts_with_true in Hs' as [t [= ->]]. apply (replaced_first _ _ _ Hr'). done.
Qed.

Lemma replaced_pathless b s o : replaced PATH GONE b s o ->
  forall bo, first_is (is_word is_alnum) bo = first_is (is_word is_alnum) b \/ first_is path_char s = false ->
  pathless bo o.
Proof.
  induction 1 as [b|b w s o He Hm Hw Hr IH|b c s o Hc Hr IH]; intros bo Hb; [done| |].
  - apply harmless_pathless; [apply gone_harmless|]. apply IH. right. by apply match_at_greedy in He.
  - split; [|by apply IH; left]. destruct (path_here bo (c :: o)) eqn:Hp; [|done]. exfalso.
    destruct Hb as [Hb|Hb].
    + apply (path_here_back b) with (s := s) in Hp; [|by constructor|done].
      apply path_here_matches in Hp as (w & s' & Hs & Hm). by destruct (Hc w s' Hs).
    + apply path_here_head in Hp. cbn [first_is] in Hb.
      assert (Hpc : path_char c = true) by (apply path_char_start; naive_solver). congruence.
Qed.

Lemma pathless_spec o : forall b pre w post, pathless b o -> o = pre ++ w ++ post ->
  ~ matches PATH (rev pre ++ b) w post.
Proof.
  induction o as [|c o IH]; intros b pre w post Ho Hs Hm.
  - symmetry in Hs. apply app_nil in Hs as [-> [-> ->]%app_nil].
    apply matches_path_here, andb_true_iff in Hm as [_ Hm]. by vm_compute in Hm.
  - destruct Ho as [Hc Ho]. destruct pre as [|d pre].
    + apply matches_path_here in Hm. simpl in Hm, Hs. rewrite <- Hs in Hm. congruence.
    + injection Hs as -> Hs. apply (IH (d :: b) pre w post Ho Hs).
      change (rev (d :: pre)) with (rev pre ++ [d]) in Hm. by rewrite <- app_assoc in Hm.
Qed.

(** A path that begins in a text begins there in every longer text. *)
Lemma prefix_extend (p : N -> bool) l s t : starts_with l s && first_is p (drop (length l) s) = true ->
  starts_with l (s ++ t) && first_is p (drop (length l) (s ++ t)) = true.
Proof.
  intros [(r & ->)%starts_with_true Hf]%andb_true_iff. rewrite drop_app_length in Hf.
  rewrite <- app_assoc, starts_with_app, drop_app_length. by apply first_is_app.
Qed.

Lemma path_here_extend b s t : path_here b s = true -> path_here b (s ++ t) = true.
Proof.
  intros [Hb [Hr|Hd]%orb_true_iff]%andb_true_iff; apply andb_true_iff; (split; [done|]); apply orb_true_iff.
  - left. apply existsb_exists in Hr as (root & Hin & Hr). apply existsb_exists.
    exists root. split; [done|]. by apply prefix_extend.
  - right. destruct s as [|c s]; [done|]. apply andb_true_iff in Hd as [Hc Hd].
    apply andb_true_iff. split; [done|]. by apply (prefix_extend _ [58; 92]%N).
Qed.

Lemma pathless_prefix t : forall b o, pathless b (o ++ t) -> pathless b o.
Proof.
  intros b o. revert b. induction o as [|c o IH]; [done|]. intros b [Hc Ho]. split; [|by apply IH].
  destruct (path_here b (c :: o)) eqn:Hp; [|done]. pose proof (path_here_extend _ _ t Hp) as Ht.
  change ((c :: o) ++ t) with (c :: o ++ t) in Ht. congruence.
Qed.

Lemma redact_pathless content : pathless [] (redact is_alnum content).
Proof.
  eapply (replaced_pathless []); [|by left]. by apply sub_replaced.
Qed.

Lemma sanitize_is_prefix content :
  sanitize_public_text is_alnum content = sprefix MAX_RAG_CONTENT_CHARS (redact is_alnum content).
Proof.
  unfold sanitize_public_text, sanitize_public_rag_content. destruct (_ <? _)%Z eqn:E; [done|].
  apply Z.ltb_ge in E. cbn [fst]. unfold slen in E. unfold sprefix. symmetry. apply take_ge. lia.
Qed.

Lemma sanitize_length content : (slen (sanitize_public_text is_alnum content) <= MAX_RAG_CONTENT_CHARS)%Z.
Proof. rewrite sanitize_is_prefix. apply sprefix_length. Qed.

(** C10. No text that the public redaction lets through contains an internal
    path: no part of [sanitize_public_text content] is in the language of
    [INTERNAL_PATH_RE], wherever it stands and also where the text was cut, and
    the text has at most 1200 characters. *)
Theorem public_text_has_no_path content :
  (slen (sanitize_public_text is_alnum content) <= MAX_RAG_CONTENT_CHARS)%Z /\
  forall pre w post, sanitize_public_text is_alnum content = pre ++ w ++ post ->
    ~ matches PATH (rev pre) w post.
Proof.
  split; [apply sanitize_length|]. rewrite sanitize_is_prefix. intros pre w post Hs.
  rewrite <- (app_nil_r (rev pre)). refine (pathless_spec _ [] pre w post _ Hs).
  unfold sprefix. apply (pathless_prefix (drop (Z.to_nat MAX_RAG_CONTENT_CHARS) (redact is_alnum content))).
  rewrite take_drop. apply redact_pathless.
Qed.

Lemma unchanged_flag content : snd (sanitize_public_rag_content is_alnum content) = false ->
  fst (sanitize_public_rag_content is_alnum content) = content.
Proof.
  unfold sanitize_public_rag_content. destruct (_ <? _)%Z; [done|]. intros H.
  by apply negb_false_iff, bool_decide_eq_true in H.
Qed.

(** The flag that travels with a retrieved document is faithful: when it is
    not set, the text is the document's, unchanged; a text without a match of
    any of the five patterns is never changed unless it is too long. *)
Theorem unchanged_flag_is_true content :
  (snd (sanitize_public_rag_content is_alnum content) = false ->
     fst (sanitize_public_rag_content is_alnum content) = content) /\
  (Forall (fun r => forall pre w post, content = pre ++ w ++ post -> ~ matches r (rev pre) w post)
     [STACK_TRACE_LINE_RE is_alnum; SENSITIVE_ASSIGNMENT_RE is_alnum; BEARER_TOKEN_RE is_alnum; KNOWN_API_KEY_RE; PATH] ->
   (slen content <= MAX_RAG_CONTENT_CHARS)%Z -> sanitize_public_rag_content is_alnum content = (content, false)).
Proof.
  split; [apply unchanged_flag|].
  intros Hn Hl. assert (Hr : redact is_alnum content = content).
  { unfold redact. repeat (apply Forall_cons in Hn as [? Hn]).
      repeat (rewrite (sub_same _ _ content); [|reflexivity|assumption]). reflexivity. }
    unfold sanitize_public_rag_content. rewrite Hr, bool_decide_eq_true_2 by done.
    by apply Z.ltb_ge in Hl as ->.
Qed.
End RedactionFacts.

Example redaction_demo :
  sanitize_public_text ascii_alnum (u "see /home/bob/x.txt: ok, API_KEY = abc; at BEARER a.b sk-abcdefghij") =
  u "see [internal path redacted]: ok, [redacted]; at Bearer [redacted] [redacted]".
Proof. by vm_compute. Qed.
