(* ===== verification/RateLimit.v ===== *)
(** * Rate limiting: [app/ratelimit]

    The in-memory sliding-window limiter ([memory.py]), the service that turns
    a refusal into [RateLimitError] ([service.py]) and the request guards
    ([dependencies.py]).  The monotonic clock is an argument of [acquire], in
    nanoseconds (the resolution of [time.monotonic]); a deque is a list whose
    head is its left end. *)

From S2P Require Import Prelude.
Local Open Scope Z_scope.

(** One second of the monotonic clock. *)
Definition ns_per_second : Z := 1000000000.

Record RateLimitResult := mkRateLimitResult {
  allowed : bool;
  remaining : Z;
  limit : Z;
  reset_after : Z
}.

#[export] Instance RateLimitResult_eq_dec : EqDecision RateLimitResult.
Proof. solve_decision. Defined.

Record MemorySlidingWindowLimiter := mkLimiter {
  _limit : Z;
  _window_seconds : Z;
  _queues : gmap pystr (list Z)
}.

Definition set_queues (m : gmap pystr (list Z)) (st : MemorySlidingWindowLimiter) :=
  mkLimiter (_limit st) (_window_seconds st) m.

(** [while queue and queue[0] < cutoff: queue.popleft()] *)
Fixpoint popleft_expired (cutoff : Z) (queue : list Z) : list Z :=
  match queue with
  | t :: rest => if t <? cutoff then popleft_expired cutoff rest else queue
  | [] => []
  end.

Definition window_ns (st : MemorySlidingWindowLimiter) : Z := _window_seconds st * ns_per_second.

(** [MemorySlidingWindowLimiter.acquire] *)
Definition acquire (st : MemorySlidingWindowLimiter) (key : pystr) (now : Z)
  : MemorySlidingWindowLimiter * RateLimitResult :=
  let cutoff := now - window_ns st in
  let is_new := match _queues st !! key with None => true | Some _ => false end in
  let queue0 := default [] (_queues st !! key) in
  let queue := popleft_expired cutoff queue0 in
  if negb is_new && bool_decide (queue = []) then
    (set_queues (delete key (_queues st)) st,
     mkRateLimitResult true (_limit st) (_limit st) (_window_seconds st))
  else
    let reset :=
      match queue with
      | [] => _window_seconds st
      | t :: _ => Z.max 1 (Z.quot (t + window_ns st - now) ns_per_second)
      end in
    if _limit st <=? Z.of_nat (length queue) then
      (set_queues (<[key := queue]> (_queues st)) st,
       mkRateLimitResult false 0 (_limit st) reset)
    else
      let queue' := queue ++ [now] in
      (set_queues (<[key := queue']> (_queues st)) st,
       mkRateLimitResult true (_limit st - Z.of_nat (length queue')) (_limit st) reset).

(** ** [RateLimitService] *)

Record APIKey := mkAPIKey { key_hash : pystr; key_name : pystr }.

Inductive RateLimitError := mkRateLimitError (message : pystr).

Definition ip_limit_message (r : RateLimitResult) : pystr :=
  u "IP rate limit exceeded. Limit: " ++ str_of_Z (limit r)
  ++ u " requests per minute. Retry after " ++ str_of_Z (reset_after r) ++ u "s.".

Definition key_limit_message (r : RateLimitResult) : pystr :=
  u "Rate limit exceeded. Limit: " ++ str_of_Z (limit r)
  ++ u " requests per minute. Retry after " ++ str_of_Z (reset_after r) ++ u "s.".

Definition check_and_record_key (st : MemorySlidingWindowLimiter) (key : pystr) (now : Z)
  : MemorySlidingWindowLimiter * result RateLimitError RateLimitResult :=
  let '(st', r) := acquire st key now in
  if negb (allowed r) then (st', Err (mkRateLimitError (ip_limit_message r))) else (st', Ok r).

Definition check_and_record (st : MemorySlidingWindowLimiter) (api_key : APIKey) (now : Z)
  : MemorySlidingWindowLimiter * result RateLimitError RateLimitResult :=
  let '(st', r) := acquire st (key_hash api_key) now in
  if negb (allowed r) then (st', Err (mkRateLimitError (key_limit_message r))) else (st', Ok r).

(** ** Request guards.  The values stored in [request.state] are the [Some]. *)

Definition require_auth_ip_rate_limit (enabled : bool) (client_host : option pystr)
    (st : MemorySlidingWindowLimiter) (now : Z)
  : MemorySlidingWindowLimiter * result RateLimitError (option RateLimitResult) :=
  if negb enabled then (st, Ok None) else
  let client_ip := default (u "unknown") client_host in
  let '(st', r) := check_and_record_key st (u "auth_ip:" ++ client_ip) now in
  (st', Some <$> r).

Definition require_rate_limit (enabled : bool) (api_key : APIKey)
    (st : MemorySlidingWindowLimiter) (now : Z)
  : MemorySlidingWindowLimiter * result RateLimitError (APIKey * option RateLimitResult) :=
  if negb enabled then (st, Ok (api_key, None)) else
  let '(st', r) := check_and_record st api_key now in
  (st', (fun x => (api_key, Some x)) <$> r).

(** ** Histories *)

(** The calls [acquire(key)] at the given instants, with their outcomes. *)
Fixpoint run_acquires (st : MemorySlidingWindowLimiter) (calls : list (pystr * Z))
  : MemorySlidingWindowLimiter * list (pystr * Z * bool) :=
  match calls with
  | [] => (st, [])
  | (k, t) :: rest =>
      let '(st1, r) := acquire st k t in
      let '(st2, out) := run_acquires st1 rest in
      (st2, (k, t, allowed r) :: out)
  end.

(** The clock does not go back between calls. *)
Fixpoint clock_from (t0 : Z) (calls : list (pystr * Z)) : Prop :=
  match calls with
  | [] => True
  | (_, t) :: rest => t0 <= t /\ clock_from t rest
  end.

(** How many calls on [key] were let through during [[t, t + w]]. *)
Definition allowed_within (key : pystr) (t w : Z) (out : list (pystr * Z * bool)) : Z :=
  sumZ ((fun '(k, s, b) =>
    if bool_decide (k = key) && b && (t <=? s) && (s <=? t + w) then 1 else 0) <$> out).

Definition empty_limiter (limit window : Z) : MemorySlidingWindowLimiter :=
  mkLimiter limit window ∅.

(** ** Proofs *)

(** What has happened on one key: instants of the recorded and of the
    unrecorded (window fully expired) acquisitions, latest first. *)
Record key_history := mkHist { recorded : list Z; unrecorded : list Z }.

Definition count_in (lo hi : Z) (l : list Z) : Z :=
  sumZ ((fun s => if (lo <=? s) && (s <=? hi) then 1 else 0) <$> l).

Lemma count_in_cons lo hi l x :
  count_in lo hi (x :: l) = (if (lo <=? x) && (x <=? hi) then 1 else 0) + count_in lo hi l.
Proof. reflexivity. Qed.

Lemma count_in_nonneg lo hi l : 0 <= count_in lo hi l.
Proof. induction l as [|a l IH]; [done|]. rewrite count_in_cons. case_match; simpl length; lia. Qed.

Lemma count_in_app lo hi l1 l2 : count_in lo hi (l1 ++ l2) = count_in lo hi l1 + count_in lo hi l2.
Proof. unfold count_in. by rewrite fmap_app, sumZ_app. Qed.

Lemma count_in_length lo hi l : count_in lo hi l <= Z.of_nat (length l).
Proof. induction l as [|a l IH]; [done|]. rewrite count_in_cons. case_match; simpl length; lia. Qed.

Lemma count_in_none lo hi l : Forall (fun s => s < lo) l -> count_in lo hi l = 0.
Proof.
  induction 1 as [|a l Ha _ IH]; [done|].
  rewrite count_in_cons, IH. case_match; bools; lia.
Qed.

(** Popping only removes entries before the cutoff. *)
Lemma count_in_popleft c lo hi q : c <= lo -> count_in lo hi (popleft_expired c q) = count_in lo hi q.
Proof.
  intros Hc. induction q as [|t q IH]; simpl; [done|].
  case_match; [|done]. rewrite IH, count_in_cons. bools.
  destruct (lo <=? t) eqn:E; bools; [lia|]. done.
Qed.

Lemma popleft_incl c q x : x ∈ popleft_expired c q -> x ∈ q.
Proof. induction q as [|t q IH]; simpl; [done|]. case_match; [|done]. set_solver. Qed.

Lemma popleft_length c q : (length (popleft_expired c q) <= length q)%nat.
Proof. induction q as [|t q IH]; simpl; [done|]. case_match; simpl; lia. Qed.

Lemma popleft_nil c q : popleft_expired c q = [] -> Forall (fun s => s < c) q.
Proof.
  induction q as [|t q IH]; simpl; [constructor|].
  case_match; [|done]. intros H'. bools. constructor; auto.
Qed.

(** The invariant tying the queue of a key to its history at instant [now]. *)
Record key_inv (L w now : Z) (q : option (list Z)) (h : key_history) : Prop := {
  ki_past : Forall (fun s => s <= now) (recorded h ++ unrecorded h);
  ki_live : match q with Some l => l <> [] /\ Z.of_nat (length l) <= L | None => True end;
  ki_kept : forall lo hi, now - w <= lo ->
    count_in lo hi (recorded h) = count_in lo hi (default [] q);
  ki_free : forall f, f ∈ unrecorded h -> Forall (fun s => f <= s) (default [] q);
  ki_window : forall t, count_in t (t + w) (recorded h) <= L;
  ki_apart : forall t, count_in t (t + w) (unrecorded h) <= 1
}.

Lemma key_inv_later L w now now' q h :
  now <= now' -> key_inv L w now q h -> key_inv L w now' q h.
Proof.
  intros Hn [H1 H2 H3 H4 H5 H6]. split; try done.
  - eapply Forall_impl; [exact H1|]. simpl. lia.
  - intros lo hi Hlo. apply H3. lia.
Qed.

Lemma count_in_snoc lo hi l x :
  count_in lo hi (l ++ [x]) = count_in lo hi l + (if (lo <=? x) && (x <=? hi) then 1 else 0).
Proof. rewrite count_in_app. unfold count_in at 2. simpl. lia. Qed.

(** An unrecorded acquisition: everything in the queue is older than the window. *)
Lemma key_inv_free L w now q h :
  0 <= w -> key_inv L w now (Some q) h -> popleft_expired (now - w) q = [] ->
  key_inv L w now None (mkHist (recorded h) (now :: unrecorded h)).
Proof.
  intros Hw [H1 [Hne HL] H3 H4 H5 H6] Hpop. apply popleft_nil in Hpop.
  assert (Hold : Forall (fun f => f < now - w) (unrecorded h)).
  { apply Forall_forall. intros f Hf. destruct q as [|x q]; [done|].
    specialize (H4 f Hf). simpl in H4.
    apply Forall_cons in H4 as [? _]. apply Forall_cons in Hpop as [? _]. lia. }
  apply Forall_app in H1 as [Hr Hu]. split; simpl; try done.
  - apply Forall_app. split; [done|]. by constructor.
  - intros lo hi Hlo. rewrite H3 by done. simpl. rewrite (count_in_none lo hi q); [done|].
    eapply Forall_impl; [exact Hpop|]. simpl. lia.
  - intros t. rewrite count_in_cons. destruct (_ && _) eqn:E; [|by apply H6]. bools.
    rewrite (count_in_none t); [lia|]. eapply Forall_impl; [exact Hold|]. simpl. lia.
Qed.

(** A recorded acquisition: the queue, once popped, is below the limit. *)
Lemma key_inv_record L w now q h :
  0 <= w -> key_inv L w now q h ->
  Z.of_nat (length (popleft_expired (now - w) (default [] q))) < L ->
  key_inv L w now (Some (popleft_expired (now - w) (default [] q) ++ [now]))
    (mkHist (now :: recorded h) (unrecorded h)).
Proof.
  intros Hw [H1 H2 H3 H4 H5 H6] Hlt. apply Forall_app in H1 as [Hr Hu]. split; simpl; try done.
  - by constructor; [|apply Forall_app].
  - rewrite length_app. simpl. split; [by destruct (popleft_expired _ _)|lia].
  - intros lo hi Hlo. rewrite count_in_cons, count_in_snoc, count_in_popleft by done.
    rewrite H3 by done. lia.
  - intros f Hf. apply Forall_app. split.
    + specialize (H4 f Hf). rewrite Forall_forall in H4 |- *. intros x Hx.
      apply H4. by eapply popleft_incl.
    + repeat constructor. rewrite Forall_forall in Hu. by apply Hu.
  - intros t. rewrite count_in_cons. destruct (_ && _) eqn:E; [|specialize (H5 t); lia]. bools.
    rewrite H3 by lia. rewrite <- (count_in_popleft (now - w)) by lia.
    pose proof (count_in_length t (t + w) (popleft_expired (now - w) (default [] q))). lia.
Qed.

Lemma key_inv_refuse L w now q h :
  key_inv L w now q h -> popleft_expired (now - w) (default [] q) <> [] ->
  key_inv L w now (Some (popleft_expired (now - w) (default [] q))) h.
Proof.
  intros [H1 H2 H3 H4 H5 H6] Hne. split; try done.
  - split; [done|]. pose proof (popleft_length (now - w) (default [] q)).
    destruct q as [q|]; simpl in *; [destruct H2; lia|done].
  - intros lo hi Hlo. simpl. rewrite count_in_popleft by done. by apply H3.
  - intros f Hf. specialize (H4 f Hf). rewrite Forall_forall in H4 |- *. intros x Hx.
    apply H4. by eapply popleft_incl.
Qed.

(** One [acquire], seen from an arbitrary key. *)
Lemma acquire_inv st key now k h :
  1 <= _limit st -> 0 <= _window_seconds st ->
  key_inv (_limit st) (window_ns st) now (_queues st !! k) h ->
  let '(st', r) := acquire st key now in
  _limit st' = _limit st /\ _window_seconds st' = _window_seconds st /\
  exists h', key_inv (_limit st) (window_ns st) now (_queues st' !! k) h' /\
    ((recorded h' = recorded h /\ unrecorded h' = unrecorded h /\
      (k = key -> allowed r = false)) \/
     (k = key /\ allowed r = true /\
      ((recorded h' = now :: recorded h /\ unrecorded h' = unrecorded h) \/
       (recorded h' = recorded h /\ unrecorded h' = now :: unrecorded h)))).
Proof.
  intros HL Hw Hinv. assert (0 <= window_ns st) as Hw'.
  { unfold window_ns, ns_per_second. lia. }
  unfold acquire. destruct (decide (k = key)) as [->|Hk].
  - destruct (negb _ && _) eqn:E1; [|destruct (_ <=? _) eqn:E2]; (split; [done|split; [done|]]); simpl.
    + rewrite lookup_delete_eq. destruct (_queues st !! key) as [q|] eqn:Eq; [|done].
      apply andb_true_iff in E1 as [_ E1%bool_decide_eq_true].
      exists (mkHist (recorded h) (now :: unrecorded h)). split; [by eapply key_inv_free|].
      right. repeat split; auto.
    + rewrite lookup_insert_eq. exists h. bools. split; [|left; auto].
      apply key_inv_refuse; [done|]. intros Hnil. rewrite Hnil in E2. simpl in E2. lia.
    + rewrite lookup_insert_eq. exists (mkHist (now :: recorded h) (unrecorded h)). bools.
      split; [|right; repeat split; auto]. apply key_inv_record; [done|done|lia].
  - destruct (negb _ && _) eqn:E1; [|destruct (_ <=? _) eqn:E2]; (split; [done|split; [done|]]);
      exists h; simpl; rewrite ?lookup_delete_ne, ?lookup_insert_ne by done; naive_solver.
Qed.

Lemma allowed_within_cons key t w k s b out :
  allowed_within key t w ((k, s, b) :: out)
  = (if bool_decide (k = key) && b && (t <=? s) && (s <=? t + w) then 1 else 0)
    + allowed_within key t w out.
Proof. reflexivity. Qed.

(** From an arbitrary good state, the history and the calls still to come
    never let more than [limit] recorded and one unrecorded acquisition of a
    key into one window. *)
Lemma run_acquires_window key t st calls now h :
  1 <= _limit st -> 0 <= _window_seconds st -> clock_from now calls ->
  key_inv (_limit st) (window_ns st) now (_queues st !! key) h ->
  count_in t (t + window_ns st) (recorded h) + count_in t (t + window_ns st) (unrecorded h)
  + allowed_within key t (window_ns st) (run_acquires st calls).2 <= _limit st + 1.
Proof.
  revert st now h. induction calls as [|[k s] calls IH]; intros st now h HL Hw Hclk Hinv; simpl.
  { destruct Hinv as [_ _ _ _ H5 H6]. specialize (H5 t). specialize (H6 t).
    unfold allowed_within. simpl. lia. }
  destruct Hclk as [Hle Hclk].
  pose proof (acquire_inv st k s key h HL Hw (key_inv_later _ _ _ _ _ _ Hle Hinv)) as Hstep.
  destruct (acquire st k s) as [st1 r]. destruct Hstep as (EL & EW & h' & Hinv' & Hcase).
  assert (EN : window_ns st1 = window_ns st) by (unfold window_ns; congruence).
  specialize (IH st1 s h'). rewrite EL, EW, EN in IH. specialize (IH HL Hw Hclk Hinv').
  destruct (run_acquires st1 calls) as [st2 out]. simpl in *.
  rewrite allowed_within_cons.
  destruct Hcase as [(E1 & E2 & Hr)|(-> & Hr & [[E1 E2]|[E1 E2]])];
    rewrite E1, E2 in IH; rewrite ?count_in_cons in IH.
  - assert (bool_decide (k = key) && allowed r = false) as ->; [|simpl; lia].
    destruct (decide (k = key)) as [->|]; [rewrite Hr by done; by rewrite andb_false_r|].
    by rewrite bool_decide_eq_false_2.
  - rewrite Hr, bool_decide_eq_true_2 by done. simpl. lia.
  - rewrite Hr, bool_decide_eq_true_2 by done. simpl. lia.
Qed.



(** The bound is reached: when the queue of a key has expired as a whole the
    next acquisition is granted without being recorded, so a limit of 2 per
    60 s grants 3 acquisitions within 2 ns. *)
Theorem acquire_exceeds_limit :
  let t := 120 * ns_per_second in
  allowed_within (u "k") t (60 * ns_per_second)
    (run_acquires (empty_limiter 2 60)
      [(u "k", 0); (u "k", t); (u "k", t + 1); (u "k", t + 2); (u "k", t + 2)]).2 = 3.
Proof. vm_compute. reflexivity. Qed.

(** With a limit of zero the limiter still grants every second call. *)
Theorem acquire_zero_limit_grants (key : pystr) (W now : Z) :
  let '(st1, r1) := acquire (empty_limiter 0 W) key now in
  let '(st2, r2) := acquire st1 key now in
  allowed r1 = false /\ allowed r2 = true /\ _queues st2 = ∅.
Proof.
  unfold acquire at 1. simpl. rewrite lookup_empty. simpl.
  unfold acquire. simpl. rewrite lookup_insert_eq. simpl.
  repeat split. by rewrite delete_insert_id.
Qed.
