(* ===== verification/ToolModels.v ===== *)
(** * Tool contracts: [app/tools/models.py]

    The metadata and result types shared by the registry, the executor and the
    agent runtime. *)

From S2P Require Import Prelude Json.
Local Open Scope Z_scope.

Module RiskLevel.
Inductive t := LOW | MEDIUM | HIGH.
#[global] Instance eq_dec : EqDecision t.
Proof. solve_decision. Defined.
(** [RiskLevel(value)]: the enum constructor raises on other strings. *)
Definition of_str (s : pystr) : option t :=
  if decide (s = u "low") then Some LOW
  else if decide (s = u "medium") then Some MEDIUM
  else if decide (s = u "high") then Some HIGH
  else None.
End RiskLevel.

Module ToolExecutionStatus.
Inductive t := SUCCEEDED | INVALID_ARGUMENTS | NOT_FOUND | PERMISSION_DENIED | TIMED_OUT | FAILED.
#[global] Instance eq_dec : EqDecision t.
Proof. solve_decision. Defined.
End ToolExecutionStatus.

(** A JSON schema is a mapping from keywords to values. *)
Abbreviation JSONSchema := (list (pystr * json)).

Record ToolContext := mkToolContext {
  ctx_run_id : pystr;
  ctx_step_index : Z;
  ctx_request_id : option pystr;
  ctx_metadata : list (pystr * json)
}.

Record ToolDescriptor := mkToolDescriptor {
  td_name : pystr;
  td_description : pystr;
  td_input_schema : JSONSchema;
  td_output_schema : JSONSchema;
  td_risk_level : RiskLevel.t;
  td_required_permissions : list pystr
}.

(** [__post_init__]: an empty name or description raises [ValueError]. *)
Definition ToolDescriptor_make (name description : pystr) (input output : JSONSchema)
    (risk : RiskLevel.t) (perms : list pystr) : result pystr ToolDescriptor :=
  if bool_decide (strip name = []) then Err (u "tool name must not be empty")
  else if bool_decide (strip description = []) then Err (u "tool description must not be empty")
  else Ok (mkToolDescriptor name description input output risk perms).

(** [to_model_schema] *)
Definition to_model_schema (d : ToolDescriptor) : json :=
  JObj [(u "type", JStr (u "function"));
        (u "function", JObj [(u "name", JStr (td_name d));
                             (u "description", JStr (td_description d));
                             (u "parameters", JObj (td_input_schema d))])].

Record ToolExecutionResult := mkToolExecutionResult {
  tr_tool_name : pystr;
  tr_status : ToolExecutionStatus.t;
  tr_output : pystr;
  tr_error_code : option pystr;
  tr_error_message : option pystr;
  tr_truncated : bool
}.

Definition succeeded (r : ToolExecutionResult) : bool :=
  bool_decide (tr_status r = ToolExecutionStatus.SUCCEEDED).
