(* ===== verification/ToolExecutor.v ===== *)
(** * The tool boundary: [app/tools/registry.py] and [app/tools/executor.py]

    The registry of tools and the executor that validates the arguments of a
    call, checks risk and permissions, runs the tool under a timeout and bounds
    its output.  A tool is a record whose [tool_execute] acts on a world [W]
    the executor knows nothing about; its output is a JSON value.  Decoded JSON
    has no sharing, so the in-place edits of the truncation are functions from
    a value to the edited value. *)

From Corelib Require Import SpecFloat.
From S2P Require Import Prelude Json ToolModels.
Local Open Scope Z_scope.

(** ** Schema validation *)

Definition get (k : string) (schema : JSONSchema) : option json := dict_get (u k) schema.

(** [isinstance(v, int)] ([bool] is a subclass of [int]). *)
Definition as_int (v : option json) : option Z :=
  match v with
  | Some (JInt z) => Some z
  | Some (JBool b) => Some (if b then 1 else 0)
  | _ => None
  end.

(** [_matches_type] *)
Definition _matches_type (value : json) (t : pystr) : bool :=
  if decide (t = u "object") then match value with JObj _ => true | _ => false end
  else if decide (t = u "array") then match value with JArr _ => true | _ => false end
  else if decide (t = u "string") then match value with JStr _ => true | _ => false end
  else if decide (t = u "integer") then match value with JInt _ => true | _ => false end
  else if decide (t = u "number") then
    match value with JInt _ | JFloat _ => true | _ => false end
  else if decide (t = u "boolean") then match value with JBool _ => true | _ => false end
  else if decide (t = u "null") then match value with JNull => true | _ => false end
  else false.

(** [_validate_string] *)
Definition _validate_string (s : pystr) (schema : JSONSchema) : bool :=
  if match as_int (get "minLength" schema) with Some n => slen s <? n | None => false end
  then false
  else if match as_int (get "maxLength" schema) with Some n => n <? slen s | None => false end
  then false
  else true.

(** [_validate_number] *)
Definition _validate_number (value : json) (schema : JSONSchema) : bool :=
  if match get "minimum" schema with
     | Some m => is_number m && num_lt value m | None => false end then false
  else if match get "maximum" schema with
     | Some m => is_number m && num_lt m value | None => false end then false
  else true.

Definition is_str (v : json) : bool := match v with JStr _ => true | _ => false end.

(** [_validate_object], where [rec] is [_validate_schema] *)
Definition _validate_object (rec : json -> JSONSchema -> bool)
    (value : list (pystr * json)) (schema : JSONSchema) : bool :=
  match default (JObj []) (get "properties" schema) with
  | JObj properties =>
      match default (JArr []) (get "required" schema) with
      | JArr required =>
          if existsb (fun name => match name with
                                  | JStr k => negb (dict_has k value)
                                  | _ => true end) required then false
          else if (match default (JBool true) (get "additionalProperties" schema) with
                   | JBool false => true | _ => false end)
                  && existsb (fun kv => negb (dict_has kv.1 properties)) value then false
          else
            forallb (fun kv =>
              match dict_get kv.1 properties with
              | None | Some JNull => true
              | Some (JObj item_schema) => rec kv.2 item_schema
              | Some _ => false
              end) value
      | _ => false
      end
  | _ => false
  end.

Definition _validate_body (rec : json -> JSONSchema -> bool) (value : json) (schema : JSONSchema)
  : bool :=
  if match get "type" schema with
     | Some (JStr t) => negb (_matches_type value t) | _ => false end then false
  else if match get "enum" schema with
     | Some (JArr enum) => negb (existsb (py_eq value) enum) | _ => false end then false
  else if match get "anyOf" schema with
     | Some (JArr any_of) =>
         negb (existsb (fun o => match o with JObj s => rec value s | _ => false end) any_of)
     | _ => false end then false
  else
    match value with
    | JObj d => _validate_object rec d schema
    | JStr s => _validate_string s schema
    | JInt _ | JFloat _ => _validate_number value schema
    | JArr l =>
        match get "items" schema with
        | Some (JObj item_schema) => forallb (fun item => rec item item_schema) l
        | _ => true
        end
    | JBool _ | JNull => true
    end.

(** The recursion goes into parts of the schema: its depth bounds it. *)
Fixpoint json_depth (v : json) : nat :=
  match v with
  | JArr l => S (foldr (fun x n => Nat.max (json_depth x) n) 0%nat l)
  | JObj d => S (foldr (fun kv n => Nat.max (json_depth kv.2) n) 0%nat d)
  | _ => 0%nat
  end.

Fixpoint validate_fuel (fuel : nat) (value : json) (schema : JSONSchema) : bool :=
  match fuel with
  | O => false
  | S f => _validate_body (validate_fuel f) value schema
  end.

Definition _validate_schema (value : json) (schema : JSONSchema) : bool :=
  validate_fuel (json_depth (JObj schema)) value schema.

(** ** The registry *)

(** What waiting for [tool.execute(arguments, context)] can come to. *)
Inductive tool_outcome :=
| ToolReturned (value : json)
| ToolTimeoutError
| ToolException
| ToolCancelledError
| ToolBaseException.

Section Tools.
Context {W : Type}.

Record Tool := mkTool {
  tool_name : pystr;
  tool_description : pystr;
  tool_input_schema : JSONSchema;
  tool_output_schema : option JSONSchema;
  tool_risk_level : option pystr;
  tool_required_permissions : list pystr;
  tool_execute : list (pystr * json) -> ToolContext -> float64 -> W -> tool_outcome * W
}.

(** [ToolRegistry._tools]: the dictionary keeps the registration order. *)
Abbreviation ToolRegistry := (list (pystr * Tool)).

Inductive ToolRegistryError :=
| InvalidTool (message : pystr)
| DuplicateToolError (message : pystr)
| ToolNotFoundError (message : pystr).

(** [_describe] *)
Definition _describe (tool : Tool) : result ToolRegistryError ToolDescriptor :=
  match RiskLevel.of_str (default (u "low") (tool_risk_level tool)) with
  | None => Err (InvalidTool (u "is not a valid RiskLevel"))
  | Some risk_level =>
      match ToolDescriptor_make (tool_name tool) (tool_description tool) (tool_input_schema tool)
              (default [(u "type", JStr (u "string"))] (tool_output_schema tool))
              risk_level (tool_required_permissions tool) with
      | Ok d => Ok d
      | Err m => Err (InvalidTool m)
      end
  end.

(** [register] *)
Definition register (reg : ToolRegistry) (tool : Tool)
  : result ToolRegistryError (ToolRegistry * ToolDescriptor) :=
  descriptor ← _describe tool;
  if dict_has (td_name descriptor) reg
  then Err (DuplicateToolError (u "tool already registered: " ++ td_name descriptor))
  else Ok (dict_set (td_name descriptor) tool reg, descriptor).

(** [ToolRegistry.__init__] *)
Definition ToolRegistry_init (tools : list Tool) : result ToolRegistryError ToolRegistry :=
  foldE (fun reg tool => fst <$> register reg tool) [] tools.

Definition registry_get (reg : ToolRegistry) (name : pystr) : option Tool := dict_get name reg.

Definition get_descriptor (reg : ToolRegistry) (name : pystr)
  : result ToolRegistryError (option ToolDescriptor) :=
  match registry_get reg name with
  | None => Ok None
  | Some tool => Some <$> _describe tool
  end.

Definition resolve (reg : ToolRegistry) (name : pystr) : result ToolRegistryError Tool :=
  match registry_get reg name with
  | None => Err (ToolNotFoundError (u "tool is not registered: " ++ name))
  | Some tool => Ok tool
  end.

Definition list_tools (reg : ToolRegistry) : list Tool := reg.*2.

(** [list_descriptors] *)
Definition list_descriptors (reg : ToolRegistry) : result ToolRegistryError (list ToolDescriptor) :=
  foldE (fun acc tool => (fun d => acc ++ [d]) <$> _describe tool) [] (list_tools reg).

Definition export_schemas (reg : ToolRegistry) : result ToolRegistryError (list json) :=
  (fun ds : list ToolDescriptor => to_model_schema <$> ds) <$> list_descriptors reg.
End Tools.
Arguments Tool W : clear implicits.

(** ** Bounding the output *)

Definition _OUTPUT_TRUNCATION_MARKER : pystr := u "...[tool output truncated]".
Definition _PROTECTED_IDENTIFIER_KEYS : list pystr :=
  [u "document_id"; u "chunk_id"; u "call_id"; u "id"].

(** [_truncate_output] *)
Definition _truncate_output (output : pystr) (max_chars : Z) : pystr * bool :=
  if slen output <=? max_chars then (output, false)
  else if max_chars <=? slen _OUTPUT_TRUNCATION_MARKER
  then (sprefix max_chars _OUTPUT_TRUNCATION_MARKER, true)
  else
    let content_length := max_chars - slen _OUTPUT_TRUNCATION_MARKER in
    (sprefix content_length output ++ _OUTPUT_TRUNCATION_MARKER, true).

(** [_serialize_output] *)
Definition _serialize_output (value : json) : pystr :=
  match value with JStr s => s | _ => dump_json value end.

(** [_schema_allows_property] *)
Definition _schema_allows_property (schema : JSONSchema) (name : pystr) : bool :=
  match get "properties" schema with
  | Some (JObj properties) =>
      match dict_get name properties with
      | Some (JObj property_schema) => _validate_schema (JBool true) property_schema
      | Some _ => false
      | None => match get "additionalProperties" schema with Some (JBool false) => false | _ => true end
      end
  | _ => match get "additionalProperties" schema with Some (JBool false) => false | _ => true end
  end.

(** [_schema_required_keys]: a set, as the list of its elements. *)
Definition _schema_required_keys (schema : JSONSchema) : list pystr :=
  match get "required" schema with
  | Some (JArr required) =>
      remove_dups (omap (fun name => match name with JStr k => Some k | _ => None end) required)
  | _ => []
  end.

(** [_schema_fallback], where [rec] is [_schema_fallback(..., truncated=False)] *)
Definition fallback_body (rec : JSONSchema -> json) (schema : JSONSchema) (truncated : bool) : json :=
  match get "type" schema with
  | Some (JStr t) =>
      if decide (t = u "object") then
        let properties := match get "properties" schema with Some (JObj p) => p | _ => [] end in
        let result :=
          foldl (fun d name =>
            dict_set name (match dict_get name properties with
                           | Some (JObj property_schema) => rec property_schema
                           | _ => JStr []
                           end) d) [] (_schema_required_keys schema) in
        JObj (if truncated && _schema_allows_property schema (u "truncated")
              then dict_set (u "truncated") (JBool true) result else result)
      else if decide (t = u "array") then JArr []
      else if decide (t = u "boolean") then JBool false
      else if decide (t = u "number" \/ t = u "integer") then JInt 0
      else if decide (t = u "null") then JNull
      else JStr []
  | _ => JStr []
  end.

Fixpoint fallback_fuel (fuel : nat) (schema : JSONSchema) : json :=
  match fuel with
  | O => JStr []
  | S f => fallback_body (fallback_fuel f) schema false
  end.

Definition _schema_fallback (schema : JSONSchema) (truncated : bool) : json :=
  fallback_body (fallback_fuel (json_depth (JObj schema))) schema truncated.

(** [_normalize_structured_output]: [json.loads(json.dumps(value, sort_keys=True))] *)
Definition _normalize_structured_output (value : json) : json := sort_keys_rec value.

(** *** The longest string *)

Inductive path_step := PKey (k : pystr) | PIndex (i : nat).

(** [max(candidates, key=lambda item: len(item[1]), default=None)]: the first of
    the longest. *)
Definition longest {A} (candidates : list (A * pystr)) : option (A * pystr) :=
  foldl (fun best c =>
    match best with
    | Some b => if slen b.2 <? slen c.2 then Some c else best
    | None => Some c
    end) None candidates.

Definition protected (path : list path_step) : bool :=
  match last path with
  | Some (PKey k) => bool_decide (k ∈ _PROTECTED_IDENTIFIER_KEYS)
  | _ => false
  end.

(** [_find_longest_string] *)
Fixpoint _find_longest_string (value : json) (path : list path_step)
  : option (list path_step * pystr) :=
  match value with
  | JStr s => if protected path then None else Some (path, s)
  | JObj d =>
      longest ((fix go d := match d with
        | [] => []
        | (key, item) :: d' =>
            option_list (_find_longest_string item (path ++ [PKey key])) ++ go d'
        end) d)
  | JArr l =>
      longest ((fix go index l := match l with
        | [] => []
        | item :: l' =>
            option_list (_find_longest_string item (path ++ [PIndex index])) ++ go (S index) l'
        end) 0%nat l)
  | _ => None
  end.

(** [_set_json_path]; [None] is the [KeyError] or [IndexError] of a path that
    leads nowhere. *)
Fixpoint _set_json_path (root : json) (path : list path_step) (replacement : pystr) : option json :=
  match path with
  | [] => Some root
  | part :: rest =>
      match root, part with
      | JObj d, PKey k =>
          match rest with
          | [] => Some (JObj (dict_set k (JStr replacement) d))
          | _ => item ← dict_get k d; item' ← _set_json_path item rest replacement;
                 Some (JObj (dict_set k item' d))
          end
      | JArr l, PIndex i =>
          item ← l !! i;
          match rest with
          | [] => Some (JArr (<[i := JStr replacement]> l))
          | _ => item' ← _set_json_path item rest replacement; Some (JArr (<[i := item']> l))
          end
      | _, _ => Some root
      end
  end.

(** The shortened string of [_truncate_longest_string]. *)
Definition shortened (current : pystr) (serialized_length max_chars : Z) : pystr :=
  let excess := Z.max (serialized_length - max_chars) 1 in
  let reduction := Z.max (Z.max excess (slen current / 4)) 1 in
  let new_length := Z.max (slen current - reduction) 0 in
  let replacement :=
    if new_length =? 0 then [] else sprefix (Z.max (new_length - 1) 0) current ++ u "…" in
  if decide (replacement = current) then sprefix (Z.max (slen current - 1) 0) current
  else replacement.

(** [_truncate_longest_string]: [None] when it returns [False]. *)
Definition _truncate_longest_string (value : json) (max_chars : Z) : option json :=
  match _find_longest_string value [] with
  | None => None
  | Some (path, current) =>
      if decide (current = []) then None
      else _set_json_path value path (shortened current (slen (dump_json value)) max_chars)
  end.

(** *** Removing items and entries *)

(** [_is_truncation_marker] *)
Definition _is_truncation_marker (value : json) : bool :=
  match value with JObj _ => py_eq value (JObj [(u "truncated", JBool true)]) | _ => false end.

(** [_remove_one_list_item]: [None] when it returns [False]. *)
Fixpoint _remove_one_list_item (is_root : bool) (value : json) : option json :=
  match value with
  | JArr l =>
      let last_index := Z.of_nat (length l) - 1 in
      let last_index :=
        if is_root && (0 <=? last_index)
           && match last l with Some x => _is_truncation_marker x | None => false end
        then last_index - 1 else last_index in
      if 0 <=? last_index then Some (JArr (delete (Z.to_nat last_index) l)) else None
  | JObj d =>
      JObj <$> (fix any d := match d with
        | [] => None
        | (k, item) :: d' =>
            match _remove_one_list_item false item with
            | Some item' => Some ((k, item') :: d')
            | None => cons (k, item) <$> any d'
            end
        end) d
  | _ => None
  end.

(** The key [_remove_one_mapping_entry] deletes: the last one it may. *)
Definition removable_key (is_root : bool) (protected_keys : list pystr)
    (d : list (pystr * json)) : option pystr :=
  head (filter (fun key => negb (is_root && (bool_decide (key = u "truncated")
                                             || bool_decide (key ∈ protected_keys)))) (rev d.*1)).

(** [_remove_one_mapping_entry] *)
Fixpoint _remove_one_mapping_entry (is_root : bool) (protected_keys : list pystr) (value : json)
  : option json :=
  match value with
  | JObj d =>
      match removable_key is_root protected_keys d with
      | Some key => Some (JObj (dict_del key d))
      | None =>
          JObj <$> (fix any d := match d with
            | [] => None
            | (k, item) :: d' =>
                match _remove_one_mapping_entry false protected_keys item with
                | Some item' => Some ((k, item') :: d')
                | None => cons (k, item) <$> any d'
                end
            end) d
      end
  | JArr l =>
      JArr <$> (fix any l := match l with
        | [] => None
        | item :: l' =>
            match _remove_one_mapping_entry false protected_keys item with
            | Some item' => Some (item' :: l')
            | None => cons item <$> any l'
            end
        end) l
  | _ => None
  end.

(** *** The truncation loop *)

(** One pass of the [while] body: [None] when it [break]s. *)
Definition shrink_step (max_chars : Z) (protected_keys : list pystr) (value : json) : option json :=
  match _truncate_longest_string value max_chars with
  | Some v => Some v
  | None =>
      match _remove_one_list_item true value with
      | Some v => Some v
      | None => _remove_one_mapping_entry true protected_keys value
      end
  end.

Definition too_long (max_chars : Z) (value : json) : bool := max_chars <? slen (dump_json value).

(** Every pass removes a character, an item or an entry: the [weight] of the
    value bounds the number of passes. *)
Fixpoint weight (v : json) : nat :=
  match v with
  | JStr s => length s
  | JArr l => foldr (fun x n => S (weight x + n)) 0%nat l
  | JObj d => foldr (fun kv n => S (weight kv.2 + n)) 0%nat d
  | _ => 0%nat
  end.

Fixpoint shrink_fuel (fuel : nat) (max_chars : Z) (protected_keys : list pystr) (value : json)
  : json :=
  match fuel with
  | O => value
  | S f =>
      if too_long max_chars value then
        match shrink_step max_chars protected_keys value with
        | Some v => shrink_fuel f max_chars protected_keys v
        | None => value
        end
      else value
  end.

Definition shrink (max_chars : Z) (protected_keys : list pystr) (value : json) : json :=
  shrink_fuel (S (weight value)) max_chars protected_keys value.

Inductive _StructuredOutputLimitError := StructuredOutputLimitError.

(** A candidate output that fits and satisfies the schema. *)
Definition acceptable (value : json) (max_chars : Z) (schema : JSONSchema) : bool :=
  negb (too_long max_chars value) && _validate_schema value schema.

(** [_serialize_and_truncate_output] *)
Definition _serialize_and_truncate_output (value : json) (max_chars : Z) (schema : JSONSchema)
  : result _StructuredOutputLimitError (pystr * bool) :=
  match value with
  | JObj _ | JArr _ =>
      let normalized := _normalize_structured_output value in
      if negb (too_long max_chars normalized) then Ok (dump_json normalized, false)
      else
        let truncated_value :=
          match normalized with
          | JObj d => if _schema_allows_property schema (u "truncated")
                      then JObj (dict_set (u "truncated") (JBool true) d) else normalized
          | _ => normalized
          end in
        let truncated_value := shrink max_chars (_schema_required_keys schema) truncated_value in
        if acceptable truncated_value max_chars schema then Ok (dump_json truncated_value, true)
        else
          let fallback := _schema_fallback schema true in
          if acceptable fallback max_chars schema then Ok (dump_json fallback, true)
          else
            let fallback := _schema_fallback schema false in
            if acceptable fallback max_chars schema then Ok (dump_json fallback, true)
            else Err StructuredOutputLimitError
  | _ => Ok (_truncate_output (_serialize_output value) max_chars)
  end.

(** ** The executor *)

Definition is_finite (x : float64) : bool :=
  match x with S754_zero _ | S754_finite _ _ _ => true | _ => false end.
(** [x <= 0] *)
Definition not_positive (x : float64) : bool := num_lt (JFloat x) (JInt 0) || num_eq (JFloat x) (JInt 0).

Definition _RISK_RANK (r : RiskLevel.t) : Z :=
  match r with RiskLevel.LOW => 0 | RiskLevel.MEDIUM => 1 | RiskLevel.HIGH => 2 end.

(** The exceptions that leave [execute]. *)
Inductive execute_error :=
| ExecuteValueError (message : pystr)
| RegistryRaised (e : ToolRegistryError)
| CancelledError
| BaseException.

Section Executor.
Context {W : Type}.

Record ToolExecutor := mkToolExecutor {
  te_registry : list (pystr * Tool W);
  te_default_timeout_seconds : float64;
  te_output_max_chars : Z;
  te_max_risk_level : RiskLevel.t;
  te_granted_permissions : list pystr
}.

(** [ToolExecutor.__init__] *)
Definition ToolExecutor_init registry default_timeout output_max_chars max_risk granted
  : result pystr ToolExecutor :=
  _ ← raise_if (not_positive default_timeout) (u "default_timeout_seconds must be greater than zero");
  _ ← raise_if (output_max_chars <? 1) (u "output_max_chars must be greater than zero");
  Ok (mkToolExecutor registry default_timeout output_max_chars max_risk granted).

Definition _failure (tool_name : pystr) (status : ToolExecutionStatus.t) (code message : pystr)
  : ToolExecutionResult :=
  mkToolExecutionResult tool_name status message (Some code) (Some message) false.

Definition _is_permitted (ex : ToolExecutor) (risk : RiskLevel.t) (required : list pystr) : bool :=
  (_RISK_RANK risk <=? _RISK_RANK (te_max_risk_level ex))
  && forallb (fun p => bool_decide (p ∈ te_granted_permissions ex)) required.

Definition _resolve_timeout (ex : ToolExecutor) (timeout_seconds : option float64)
  : result execute_error float64 :=
  let timeout := default (te_default_timeout_seconds ex) timeout_seconds in
  if negb (is_finite timeout) || not_positive timeout
  then Err (ExecuteValueError (u "timeout_seconds must be a finite positive number"))
  else Ok timeout.

Definition _INVALID_ARGUMENTS_CODE : pystr := u "invalid_tool_arguments".
Definition _NOT_FOUND_CODE : pystr := u "tool_not_found".
Definition _PERMISSION_DENIED_CODE : pystr := u "tool_permission_denied".
Definition _TIMEOUT_CODE : pystr := u "tool_timeout".
Definition _EXECUTION_FAILED_CODE : pystr := u "tool_execution_failed".
Definition _OUTPUT_LIMIT_CODE : pystr := u "tool_output_too_large".
Definition _INVALID_ARGUMENTS_MESSAGE : pystr := u "Invalid tool arguments.".
Definition _NOT_FOUND_MESSAGE : pystr := u "Requested tool is unavailable.".
Definition _PERMISSION_DENIED_MESSAGE : pystr := u "Tool execution is not permitted.".
Definition _TIMEOUT_MESSAGE : pystr := u "Tool execution timed out.".
Definition _EXECUTION_FAILED_MESSAGE : pystr := u "Tool execution failed.".
Definition _OUTPUT_LIMIT_MESSAGE : pystr := u "Tool output exceeds the configured limit.".

(** What [_execute] makes of a value the tool returned. *)
Definition output_result (ex : ToolExecutor) (tool_name : pystr) (descriptor : ToolDescriptor)
    (raw_output : json) : ToolExecutionResult :=
  match _serialize_and_truncate_output raw_output (te_output_max_chars ex)
          (td_output_schema descriptor) with
  | Err _ =>
      _failure tool_name ToolExecutionStatus.FAILED _OUTPUT_LIMIT_CODE
        (_truncate_output _OUTPUT_LIMIT_MESSAGE (te_output_max_chars ex)).1
  | Ok (output, truncated) =>
      mkToolExecutionResult tool_name ToolExecutionStatus.SUCCEEDED output None None truncated
  end.

(** [_execute] *)
Definition _execute (ex : ToolExecutor) (tool_name : pystr) (arguments : json) (context : ToolContext)
    (timeout_seconds : option float64) (w : W) : result execute_error ToolExecutionResult * W :=
  match _resolve_timeout ex timeout_seconds with
  | Err e => (Err e, w)
  | Ok timeout =>
  match get_descriptor (te_registry ex) tool_name with
  | Err e => (Err (RegistryRaised e), w)
  | Ok descriptor =>
  match registry_get (te_registry ex) tool_name, descriptor with
  | Some tool, Some descriptor =>
      if negb (_is_permitted ex (td_risk_level descriptor) (td_required_permissions descriptor)) then
        (Ok (_failure tool_name ToolExecutionStatus.PERMISSION_DENIED
               _PERMISSION_DENIED_CODE _PERMISSION_DENIED_MESSAGE), w)
      else
        match arguments with
        | JObj args =>
            if negb (_validate_schema arguments (tool_input_schema tool)) then
              (Ok (_failure tool_name ToolExecutionStatus.INVALID_ARGUMENTS
                     _INVALID_ARGUMENTS_CODE _INVALID_ARGUMENTS_MESSAGE), w)
            else
              match tool_execute tool args context timeout w with
              | (ToolTimeoutError, w') =>
                  (Ok (_failure tool_name ToolExecutionStatus.TIMED_OUT _TIMEOUT_CODE
                         _TIMEOUT_MESSAGE), w')
              | (ToolException, w') =>
                  (Ok (_failure tool_name ToolExecutionStatus.FAILED _EXECUTION_FAILED_CODE
                         _EXECUTION_FAILED_MESSAGE), w')
              | (ToolCancelledError, w') => (Err CancelledError, w')
              | (ToolBaseException, w') => (Err BaseException, w')
              | (ToolReturned raw_output, w') =>
                  (Ok (output_result ex tool_name descriptor raw_output), w')
              end
        | _ => (Ok (_failure tool_name ToolExecutionStatus.INVALID_ARGUMENTS
                      _INVALID_ARGUMENTS_CODE _INVALID_ARGUMENTS_MESSAGE), w)
        end
  | _, _ =>
      (Ok (_failure tool_name ToolExecutionStatus.NOT_FOUND _NOT_FOUND_CODE _NOT_FOUND_MESSAGE), w)
  end end end.

Definition status_value (s : ToolExecutionStatus.t) : pystr :=
  match s with
  | ToolExecutionStatus.SUCCEEDED => u "succeeded"
  | ToolExecutionStatus.INVALID_ARGUMENTS => u "invalid_arguments"
  | ToolExecutionStatus.NOT_FOUND => u "not_found"
  | ToolExecutionStatus.PERMISSION_DENIED => u "permission_denied"
  | ToolExecutionStatus.TIMED_OUT => u "timed_out"
  | ToolExecutionStatus.FAILED => u "failed"
  end.

(** The status [execute] reports to the metrics. *)
Definition metric_status (r : result execute_error ToolExecutionResult) : pystr :=
  match r with
  | Ok result => status_value (tr_status result)
  | Err CancelledError => u "cancelled"
  | Err _ => u "error"
  end.

(** [execute]: also the [record_tool_execution(tool_name, status)] calls made. *)
Definition execute (ex : ToolExecutor) (tool_name : pystr) (arguments : json) (context : ToolContext)
    (timeout_seconds : option float64) (w : W)
  : result execute_error ToolExecutionResult * list (pystr * pystr) * W :=
  match get_descriptor (te_registry ex) tool_name with
  | Err e => (Err (RegistryRaised e), [], w)
  | Ok _ =>
      let '(r, w') := _execute ex tool_name arguments context timeout_seconds w in
      (r, [(tool_name, metric_status r)], w')
  end.
End Executor.
Arguments ToolExecutor W : clear implicits.
