(* ===== verification/ToolExecutorProps.v ===== *)
(** * Properties of the tool boundary

    Schema validation does not depend on its fuel, the truncation loop ends,
    the executor's output is bounded and conforms to the tool's schema, a tool
    only runs when every gate is open, and the registry keeps distinct tools in
    the order of registration. *)

From Corelib Require Import SpecFloat.
From S2P Require Import Prelude Json ToolModels ToolExecutor.
Local Open Scope Z_scope.

(** ** Schema validation *)

Lemma depth_entry k d x : dict_get k d = Some x -> (json_depth x < json_depth (JObj d))%nat.
Proof.
  intros H%dict_get_Some. simpl. apply Nat.lt_succ_r.
  induction d as [|kv d IH]; [set_solver|]. apply elem_of_cons in H as [<-|H]; simpl; [lia|].
  specialize (IH H). lia.
Qed.

Lemma depth_item x l : x ∈ l -> (json_depth x < json_depth (JArr l))%nat.
Proof.
  intros H. simpl. apply Nat.lt_succ_r.
  induction l as [|y l IH]; [set_solver|]. apply elem_of_cons in H as [->|H]; simpl; [lia|].
  specialize (IH H). lia.
Qed.

Lemma existsb_ext_in {A} (f g : A -> bool) l : (forall x, x ∈ l -> f x = g x) -> existsb f l = existsb g l.
Proof.
  induction l as [|x l IH]; intros H; simpl; [done|]. rewrite H by set_solver.
  f_equal. apply IH. set_solver.
Qed.

Lemma forallb_ext_in {A} (f g : A -> bool) l : (forall x, x ∈ l -> f x = g x) -> forallb f l = forallb g l.
Proof.
  induction l as [|x l IH]; intros H; simpl; [done|]. rewrite H by set_solver.
  f_equal. apply IH. set_solver.
Qed.

Lemma validate_body_ext rec1 rec2 v schema :
  (forall v' s', (json_depth (JObj s') < json_depth (JObj schema))%nat -> rec1 v' s' = rec2 v' s') ->
  _validate_body rec1 v schema = _validate_body rec2 v schema.
Proof.
  intros Hrec. unfold _validate_body, _validate_object, get.
  do 2 match goal with |- (if ?b then _ else _) = _ => destruct b; [done|] end.
  assert (Hany : match dict_get (u "anyOf") schema with
     | Some (JArr l) => negb (existsb (fun o => match o with JObj s => rec1 v s | _ => false end) l)
     | _ => false end = match dict_get (u "anyOf") schema with
     | Some (JArr l) => negb (existsb (fun o => match o with JObj s => rec2 v s | _ => false end) l)
     | _ => false end).
  { destruct (dict_get (u "anyOf") schema) as [[]|] eqn:E; try done. f_equal.
    apply existsb_ext_in. intros [] Hx; try done. apply Hrec.
    pose proof (depth_item _ _ Hx). pose proof (depth_entry _ _ _ E). lia. }
  rewrite Hany. match goal with |- (if ?b then _ else _) = _ => destruct b; [done|] end.
  destruct v; try done.
  - destruct (dict_get (u "items") schema) as [[]|] eqn:E; try done.
    apply forallb_ext_in. intros x _. apply Hrec. by eapply depth_entry.
  - destruct (dict_get (u "properties") schema) as [[]|] eqn:E; try done; simpl.
    all: destruct (default (JArr []) (dict_get (u "required") schema)); try done.
    all: do 2 (match goal with |- (if ?b then _ else _) = _ => destruct b; [done|] end).
    apply forallb_ext_in. intros [k x] _. simpl.
    destruct (dict_get k _) as [[]|] eqn:E2; try done. apply Hrec.
    pose proof (depth_entry _ _ _ E). pose proof (depth_entry _ _ _ E2). lia.
Qed.

Lemma validate_fuel_enough n m v schema :
  (json_depth (JObj schema) <= n)%nat -> (json_depth (JObj schema) <= m)%nat ->
  validate_fuel n v schema = validate_fuel m v schema.
Proof.
  revert m v schema. induction n as [|n IH]; intros m v schema Hn Hm; [simpl in Hn; lia|].
  destruct m as [|m]; [simpl in Hm; lia|]. simpl. apply validate_body_ext.
  intros v' s' Hs. apply IH; lia.
Qed.

Lemma validate_unfold value schema :
  _validate_schema value schema = _validate_body _validate_schema value schema.
Proof.
  unfold _validate_schema at 1. simpl validate_fuel. apply validate_body_ext.
  intros v' s' Hs. apply validate_fuel_enough; simpl in *; lia.
Qed.

(** What acceptance of an object means. *)
Definition declared (schema : JSONSchema) : list (pystr * json) :=
  match get "properties" schema with Some (JObj p) => p | _ => [] end.
Definition required_names (schema : JSONSchema) : list json :=
  match get "required" schema with Some (JArr r) => r | _ => [] end.

(** An object the schema accepts has every required key, no undeclared key
    when [additionalProperties] is [false], and a value its schema accepts
    under every declared key. *)
Theorem accepted_object d schema :
  _validate_schema (JObj d) schema = true ->
  (forall name, name ∈ required_names schema -> exists k, name = JStr k /\ k ∈ d.*1) /\
  (get "additionalProperties" schema = Some (JBool false) ->
     forall k, k ∈ d.*1 -> k ∈ (declared schema).*1) /\
  (forall k x s, (k, x) ∈ d -> dict_get k (declared schema) = Some (JObj s) ->
     _validate_schema x s = true).
Proof.
  rewrite validate_unfold. unfold _validate_body.
  do 3 match goal with |- (if ?b then _ else _) = _ -> _ => destruct b; [done|] end.
  unfold _validate_object, declared, required_names, get.
  assert (Hin : forall k (e : list (pystr * json)), dict_has k e = true -> k ∈ e.*1).
  { intros k e He. apply dict_get_mem. unfold dict_has in He.
    destruct (dict_get k e); [by eexists|done]. }
  destruct (default (JObj []) (dict_get (u "properties") schema)) as [| | | | | |p] eqn:Ep; try done.
  assert (Hp : match dict_get (u "properties") schema with Some (JObj p) => p | _ => [] end = p).
  { destruct (dict_get (u "properties") schema) as [[]|]; simpl in Ep; congruence. }
  rewrite Hp. clear Ep Hp.
  destruct (default (JArr []) (dict_get (u "required") schema)) as [| | | | |r|] eqn:Er; try done.
  assert (Hr : match dict_get (u "required") schema with Some (JArr r) => r | _ => [] end = r).
  { destruct (dict_get (u "required") schema) as [[]|]; simpl in Er; congruence. }
  rewrite Hr. clear Er Hr.
  destruct (existsb _ r) eqn:E1; [done|]. destruct (_ && existsb _ d) eqn:E2; [done|].
  intros E3. repeat split.
  - intros name Hn. apply not_true_iff_false in E1. rewrite existsb_exists in E1.
    destruct name as [| | | |k| |]; try (destruct E1; eexists; split; [by apply list_elem_of_In|done]).
    exists k. split; [done|]. apply Hin. apply not_false_iff_true. intros Hf. apply E1.
    exists (JStr k). rewrite Hf. split; [by apply list_elem_of_In|done].
  - intros Ha k Hk. rewrite Ha in E2. simpl in E2. apply not_true_iff_false in E2.
    rewrite existsb_exists in E2. apply Hin, not_false_iff_true. intros Hf. apply E2.
    apply list_elem_of_fmap in Hk as [kv [-> Hkv]]. exists kv. rewrite Hf.
    split; [by apply list_elem_of_In|done].
  - intros k x s Hx Hs. rewrite forallb_forall in E3. apply list_elem_of_In in Hx.
    specialize (E3 _ Hx). simpl in E3. by rewrite Hs in E3.
Qed.

Definition demo_schema : JSONSchema :=
  [(u "type", JStr (u "object"));
   (u "properties", JObj [(u "expression", JObj [(u "type", JStr (u "string"));
                                                 (u "maxLength", JInt 5)])]);
   (u "required", JArr [JStr (u "expression")]);
   (u "additionalProperties", JBool false)].

Definition demo_object : list (pystr * json) := [(u "expression", JStr (u "6*7"))].

Lemma accepted_object_witness :
  exists k, JStr (u "expression") = JStr k /\ k ∈ demo_object.*1.
Proof.
  destruct (accepted_object demo_object demo_schema ltac:(vm_compute; reflexivity)) as (H & _ & _).
  apply H. set_solver.
Defined.

(** ** The truncation loop *)

Lemma weight_set k x y d :
  dict_get k d = Some x ->
  (weight (JObj (dict_set k y d)) + weight x = weight (JObj d) + weight y)%nat.
Proof.
  simpl. induction d as [|[k0 x0] d IH]; simpl; [done|]. case_decide; simpl.
  - intros [= ->]. lia.
  - intros Hg. specialize (IH Hg). simpl in *. lia.
Qed.

Lemma weight_insert i x y l :
  l !! i = Some x -> (weight (JArr (<[i:=y]> l)) + weight x = weight (JArr l) + weight y)%nat.
Proof.
  revert i. induction l as [|z l IH]; intros [|i]; simpl; try done.
  - intros [= ->]. lia.
  - intros Hg. specialize (IH _ Hg). simpl in *. lia.
Qed.

Lemma weight_delete i l : (i < length l)%nat -> (weight (JArr (delete i l)) < weight (JArr l))%nat.
Proof.
  revert i. induction l as [|z l IH]; intros [|i] H; simpl in *; try lia.
  specialize (IH i ltac:(lia)). lia.
Qed.

Lemma weight_del k d : k ∈ d.*1 -> (weight (JObj (dict_del k d)) < weight (JObj d))%nat.
Proof.
  simpl. induction d as [|[k0 x0] d IH]; simpl; [set_solver|].
  intros Hk. apply elem_of_cons in Hk. case_decide; simpl; [lia|].
  destruct Hk as [?|Hk]; [done|]. specialize (IH Hk). lia.
Qed.

(** A path that leads to the string [s]. *)
Inductive leads_to : json -> list path_step -> pystr -> Prop :=
| leads_key d k x p s : dict_get k d = Some x -> leads_to x p s -> leads_to (JObj d) (PKey k :: p) s
| leads_index l i x p s : l !! i = Some x -> leads_to x p s -> leads_to (JArr l) (PIndex i :: p) s
| leads_here s : leads_to (JStr s) [] s.

Lemma longest_mem {A} (l : list (A * pystr)) c : longest l = Some c -> c ∈ l.
Proof.
  unfold longest. assert (H : forall l (b : option (A * pystr)) c,
    foldl (fun best c => match best with
      | Some b => if slen b.2 <? slen c.2 then Some c else best | None => Some c end) b l = Some c ->
    b = Some c \/ c ∈ l).
  { clear. induction l as [|x l IH]; intros b c; simpl; [by left|].
    intros H%IH. destruct H as [H|H]; [|right; set_solver]. destruct b as [b|].
    - case_match; simplify_eq; [right; set_solver|by left].
    - simplify_eq. right. set_solver. }
  intros [?|?]%H; done.
Qed.

Lemma find_leads v p q s :
  json_wf v -> _find_longest_string v p = Some (q, s) -> exists r, q = p ++ r /\ leads_to v r s.
Proof.
  intros Hwf. revert p q s. induction v as [| | | |s0|l IH|d IH] using json_ind'; intros p q s; simpl; try done.
  - case_match; [done|]. intros [= <- <-]. exists []. split; [by rewrite app_nil_r|constructor].
  - inversion Hwf as [| | | | |l' Hl|]; subst. intros Hc%longest_mem.
    enough (exists i x r, l !! i = Some x /\ q = p ++ PIndex (0 + i) :: r /\ leads_to x r s)
      as (i & x & r & Hi & -> & Hr) by (eexists; split; [done|]; by econstructor).
    revert Hc. generalize 0%nat as n. clear Hwf.
    induction l as [|y l IHl]; intros n; [set_solver|].
    apply Forall_cons in IH as [IHy IH]. apply Forall_cons in Hl as [Hy Hl].
    intros [Hc|Hc]%elem_of_app.
    + destruct (_find_longest_string y _) as [[q' s']|] eqn:E; [|set_solver].
      apply list_elem_of_singleton in Hc as [= -> ->]. apply (IHy Hy) in E as (r & -> & Hr).
      exists 0%nat, y, r. rewrite <- app_assoc, Nat.add_0_r. done.
    + destruct (IHl IH Hl (S n) Hc) as (i & x & r & ? & ? & ?). exists (S i), x, r.
      replace (n + S i)%nat with (S n + i)%nat by lia. done.
  - inversion Hwf as [| | | | | |d' Hn Hd]; subst. intros Hc%longest_mem.
    enough (exists k x r, dict_get k d = Some x /\ q = p ++ PKey k :: r /\ leads_to x r s)
      as (k & x & r & Hi & -> & Hr) by (eexists; split; [done|]; by econstructor).
    clear Hwf. induction d as [|[k0 y] d IHd]; [set_solver|].
    apply Forall_cons in IH as [IHy IH]. apply Forall_cons in Hd as [Hy Hd].
    apply NoDup_cons in Hn as [Hk Hn]. apply elem_of_app in Hc as [Hc|Hc].
    + destruct (_find_longest_string y _) as [[q' s']|] eqn:E; [|set_solver].
      apply list_elem_of_singleton in Hc as [= -> ->]. apply (IHy Hy) in E as (r & -> & Hr).
      exists k0, y, r. simpl. rewrite decide_True, <- app_assoc by done. done.
    + destruct (IHd IH Hn Hd Hc) as (k & x & r & Hg & ? & ?). exists k, x, r. simpl.
      rewrite decide_False; [done|]. intros ->. apply Hk. simpl. apply dict_get_mem. by exists x.
Qed.

Definition structured (v : json) : bool := match v with JArr _ | JObj _ => true | _ => false end.

Lemma wf_dict_set k x d :
  json_wf (JObj d) -> json_wf x -> json_wf (JObj (dict_set k x d)).
Proof.
  inversion 1 as [| | | | | |d' Hn Hd]; subst. intros Hx. constructor; [by apply dict_set_NoDup|].
  clear Hn H. induction d as [|[k0 x0] d IH]; simpl; [by constructor|].
  apply Forall_cons in Hd as [? ?]. case_decide; constructor; auto.
Qed.

Lemma wf_dict_get k x d : json_wf (JObj d) -> dict_get k d = Some x -> json_wf x.
Proof.
  inversion 1 as [| | | | | |d' Hn Hd]; subst. intros Hx%dict_get_Some.
  rewrite Forall_forall in Hd. by apply (Hd (k, x)).
Qed.

Lemma set_path_key d k st p r :
  _set_json_path (JObj d) (PKey k :: st :: p) r =
  (item ← dict_get k d; item' ← _set_json_path item (st :: p) r; Some (JObj (dict_set k item' d))).
Proof. reflexivity. Qed.

Lemma set_path_index l i st p r :
  _set_json_path (JArr l) (PIndex i :: st :: p) r =
  (item ← l !! i; item' ← _set_json_path item (st :: p) r; Some (JArr (<[i := item']> l))).
Proof. reflexivity. Qed.

Lemma set_leads v p s r :
  json_wf v -> leads_to v p s -> p <> [] ->
  exists v', _set_json_path v p r = Some v' /\ json_wf v' /\ structured v' = true
             /\ (weight v' + length s = weight v + length r)%nat.
Proof.
  intros Hwf Hl. revert Hwf. induction Hl as [d k x p s Hg Hl IH|l i x p s Hg Hl IH|s];
    intros Hwf Hp; [| |done].
  - pose proof (wf_dict_get _ _ _ Hwf Hg) as Hx. destruct p as [|st p].
    + inversion Hl; subst. eexists. split; [done|]. split; [apply wf_dict_set; [done|constructor]|].
      split; [done|]. by apply (weight_set k (JStr s) (JStr r)).
    + destruct (IH Hx) as (x' & Ex & Hx' & _ & Hw); [done|].
      rewrite set_path_key, Hg; cbn [mbind option_bind]; rewrite Ex; cbn [mbind option_bind].
      eexists. split; [done|]. split; [by apply wf_dict_set|]. split; [done|].
      pose proof (weight_set k x x' d Hg) as H. simpl in *. lia.
  - assert (Hall : forall y, json_wf y -> json_wf (JArr (<[i:=y]> l))).
    { intros y Hy. inversion Hwf; subst. constructor. by apply Forall_insert. }
    assert (Hx : json_wf x).
    { inversion Hwf; subst. by eapply Forall_lookup_1. }
    destruct p as [|st p].
    + inversion Hl; subst. simpl. rewrite Hg. simpl. eexists. split; [done|]. split; [apply Hall; constructor|]. split; [done|].
      by apply (weight_insert i (JStr s) (JStr r)).
    + destruct (IH Hx) as (x' & Ex & Hx' & _ & Hw); [done|].
      rewrite set_path_index, Hg; cbn [mbind option_bind]; rewrite Ex.
      eexists. split; [done|]. split; [by apply Hall|]. split; [done|].
      pose proof (weight_insert i x x' l Hg) as H. simpl in *. lia.
Qed.

Lemma slen_sprefix n s : 0 <= n -> slen (sprefix n s) <= n.
Proof. intros Hn. unfold slen, sprefix. rewrite length_take. lia. Qed.

Lemma slen_app s t : slen (s ++ t) = slen s + slen t.
Proof. unfold slen. rewrite length_app. lia. Qed.

Lemma shortened_shorter s n m : s <> [] -> slen (shortened s n m) < slen s.
Proof.
  intros Hs. assert (Hl : 0 < slen s) by (destruct s; [done|unfold slen; simpl; lia]).
  unfold shortened. case_decide.
  - pose proof (slen_sprefix (Z.max (slen s - 1) 0) s). lia.
  - case_match; [change (slen []) with 0; lia|]. bools. rewrite slen_app.
    change (slen (u "…")) with 1.
    pose proof (slen_sprefix (Z.max (Z.max (slen s - Z.max (Z.max (Z.max (n - m) 1) (slen s / 4)) 1) 0 - 1) 0) s).
    lia.
Qed.

(** A value from which one character, item or entry can be taken away. *)
Definition smaller (v v' : json) : Prop :=
  json_wf v' /\ structured v' = structured v /\ (weight v' < weight v)%nat.

Lemma truncate_smaller v m v' :
  json_wf v -> structured v = true -> _truncate_longest_string v m = Some v' -> smaller v v'.
Proof.
  intros Hwf Hst. unfold _truncate_longest_string.
  destruct (_find_longest_string v []) as [[p s]|] eqn:E; [|done]. case_decide; [done|].
  apply find_leads in E as (r & -> & Hl); [|done]. simpl.
  destruct (set_leads v r s (shortened s (slen (dump_json v)) m) Hwf Hl) as (x & -> & Hx & Hs & Hw).
  { intros ->. by inversion Hl; subst. }
  intros [= <-]. pose proof (shortened_shorter s (slen (dump_json v)) m) as Hlt. unfold slen in *.
  split; [done|]. split; [congruence|]. specialize (Hlt ltac:(done)). lia.
Qed.

(** The edit of one value of a dictionary or list. *)
Lemma obj_any_smaller (f : json -> option json) d d' :
  json_wf (JObj d) -> Forall (fun kv => forall v', json_wf kv.2 -> f kv.2 = Some v' -> smaller kv.2 v') d ->
  (fix any d := match d with
    | [] => None
    | (k, item) :: d' => match f item with
        | Some item' => Some ((k, item') :: d') | None => cons (k, item) <$> any d' end
    end) d = Some d' ->
  d'.*1 = d.*1 /\ smaller (JObj d) (JObj d').
Proof.
  inversion 1 as [| | | | | |d0 Hn Hd]; subst. clear H. revert d' Hn Hd.
  induction d as [|[k x] d IH]; intros d' Hn Hd Hf; [done|].
  apply Forall_cons in Hf as [Hx Hf]. apply Forall_cons in Hd as [Hwx Hd].
  apply NoDup_cons in Hn as [Hk Hn]. simpl in *.
  destruct (f x) as [x'|] eqn:E.
  - intros [= <-]. destruct (Hx x' Hwx eq_refl) as (? & ? & ?). split; [done|].
    split; [constructor; [by constructor|by constructor]|]. split; [done|]. simpl in *. lia.
  - match goal with |- context [cons _ <$> ?a] => destruct a as [d1|] eqn:E1; [|done] end.
    intros [= <-]. destruct (IH d1 Hn Hd Hf eq_refl) as (Hk1 & Hw & _ & Hlt). split; [by f_equal/=|].
    inversion Hw; subst. split; [|split; [done|]].
    + constructor; [|by constructor]. rewrite fmap_cons, Hk1. by constructor.
    + simpl in *. lia.
Qed.

Lemma arr_any_smaller (f : json -> option json) l l' :
  json_wf (JArr l) -> Forall (fun v => forall v', json_wf v -> f v = Some v' -> smaller v v') l ->
  (fix any l := match l with
    | [] => None
    | item :: l' => match f item with
        | Some item' => Some (item' :: l') | None => cons item <$> any l' end
    end) l = Some l' ->
  smaller (JArr l) (JArr l').
Proof.
  inversion 1 as [| | | | |l0 Hl|]; subst. clear H. revert l' Hl.
  induction l as [|x l IH]; intros l' Hl Hf; [done|].
  apply Forall_cons in Hf as [Hx Hf]. apply Forall_cons in Hl as [Hwx Hl].
  destruct (f x) as [x'|] eqn:E.
  - intros [= <-]. destruct (Hx x' Hwx eq_refl) as (? & ? & ?).
    split; [by do 2 constructor|]. split; [done|]. simpl in *. lia.
  - match goal with |- context [cons _ <$> ?a] => destruct a as [l1|] eqn:E1; [|done] end.
    intros [= <-]. destruct (IH l1 Hl Hf eq_refl) as (Hw & _ & Hlt). inversion Hw; subst.
    split; [by do 2 constructor|]. split; [done|]. simpl in *. lia.
Qed.

Lemma remove_list_item_smaller root v v' :
  json_wf v -> _remove_one_list_item root v = Some v' -> smaller v v'.
Proof.
  revert root v'. induction v as [| | | | |l _|d IH] using json_ind'; intros root v' Hwf; simpl; try done.
  - set (i := if root && _ && _ then _ else _).
    assert (Hi : i < Z.of_nat (length l)) by (unfold i; case_match; lia).
    case_match; [|done]. bools. intros [= <-]. inversion Hwf; subst.
    split; [constructor; by apply Forall_delete|]. split; [done|]. apply weight_delete. lia.
  - match goal with |- JObj <$> ?a = _ -> _ => destruct a as [d'|] eqn:E; [|done] end.
    intros [= <-]. eapply obj_any_smaller; [done| |exact E].
    eapply Forall_impl; [exact IH|]. intros kv H y Hy. by apply H.
Qed.

Lemma NoDup_dict_del k (d : list (pystr * json)) : NoDup d.*1 -> NoDup (dict_del k d).*1.
Proof.
  assert (Hsub : forall x, x ∈ (dict_del k d).*1 -> x ∈ d.*1).
  { intros x. induction d as [|[k0 x0] d IH]; simpl; [done|]. case_decide; simpl; set_solver. }
  revert Hsub. induction d as [|[k0 x0] d IH]; intros Hsub; simpl; [done|].
  intros [Hk Hn]%NoDup_cons. case_decide; [done|]. simpl.
  assert (Hs' : forall x, x ∈ (dict_del k d).*1 -> x ∈ d.*1).
  { clear. induction d as [|[k0 x0] d IH]; simpl; [done|]. intros x. case_decide; simpl; set_solver. }
  constructor; [|by apply IH]. intros Hin. by apply Hk, Hs'.
Qed.

Lemma remove_mapping_entry_smaller root ks v v' :
  json_wf v -> _remove_one_mapping_entry root ks v = Some v' -> smaller v v'.
Proof.
  revert root v'. induction v as [| | | | |l IH|d IH] using json_ind'; intros root v' Hwf; simpl; try done.
  - match goal with |- JArr <$> ?a = _ -> _ => destruct a as [l'|] eqn:E; [|done] end.
    intros [= <-]. eapply arr_any_smaller; [done| |exact E].
    eapply Forall_impl; [exact IH|]. intros x Hx y Hy. by apply Hx.
  - destruct (removable_key root ks d) as [k|] eqn:Ek.
    + intros [= <-]. assert (Hk : k ∈ d.*1).
      { unfold removable_key in Ek. destruct (filter _ _) as [|y f] eqn:Ef; [done|]. simpl in Ek.
        simplify_eq. assert (Hin : k ∈ k :: f) by set_solver. rewrite <- Ef in Hin.
        apply list_elem_of_filter in Hin as [_ Hin]. by apply list_elem_of_In, in_rev, list_elem_of_In in Hin. }
      inversion Hwf as [| | | | | |d0 Hn Hd]; subst. split; [|split; [done|by apply weight_del]].
      constructor; [by apply NoDup_dict_del|].
      clear -Hd. induction d as [|[k0 x0] d IH]; simpl; [done|].
      apply Forall_cons in Hd as [? ?]. case_decide; [done|]. constructor; auto.
    + match goal with |- JObj <$> ?a = _ -> _ => destruct a as [d'|] eqn:E; [|done] end.
      intros [= <-]. eapply obj_any_smaller; [done| |exact E].
      eapply Forall_impl; [exact IH|]. intros kv Hkv y Hy. by apply Hkv.
Qed.

Lemma shrink_step_smaller m ks v v' :
  json_wf v -> structured v = true -> shrink_step m ks v = Some v' -> smaller v v'.
Proof.
  intros Hwf Hs. unfold shrink_step. destruct (_truncate_longest_string v m) as [x|] eqn:E1.
  - intros [= <-]. by eapply truncate_smaller.
  - destruct (_remove_one_list_item true v) as [x|] eqn:E2.
    + intros [= <-]. by eapply remove_list_item_smaller.
    + by apply remove_mapping_entry_smaller.
Qed.

(** One iteration of the [while] loop. *)
Definition loop_pass (m : Z) (ks : list pystr) (v v' : json) : Prop :=
  too_long m v = true /\ shrink_step m ks v = Some v'.

Lemma shrink_fuel_spec n m ks v :
  json_wf v -> structured v = true -> (weight v < n)%nat ->
  rtc (loop_pass m ks) v (shrink_fuel n m ks v) /\
  (too_long m (shrink_fuel n m ks v) = false \/ shrink_step m ks (shrink_fuel n m ks v) = None) /\
  json_wf (shrink_fuel n m ks v).
Proof.
  revert v. induction n as [|n IH]; intros v Hwf Hs Hn; [lia|]. simpl.
  destruct (too_long m v) eqn:Et; [|by eauto using rtc_refl].
  destruct (shrink_step m ks v) as [v'|] eqn:E; [|by eauto using rtc_refl].
  destruct (shrink_step_smaller _ _ _ _ Hwf Hs E) as (Hw & Hs' & Hlt).
  destruct (IH v') as (H1 & H2 & H3); [done|congruence|lia|].
  split; [|done]. by eapply rtc_l.
Qed.

(** The truncation loop ends on every structured value: [shrink] is reached
    by finitely many passes of its body and leaves a value that fits or from
    which nothing more can be taken. *)
Theorem shrink_terminates m ks v :
  json_wf v -> structured v = true ->
  rtc (loop_pass m ks) v (shrink m ks v) /\
  (too_long m (shrink m ks v) = false \/ shrink_step m ks (shrink m ks v) = None).
Proof.
  intros Hwf Hs. destruct (shrink_fuel_spec (S (weight v)) m ks v) as (H1 & H2 & _); [done|done|lia|].
  done.
Qed.

Definition demo_value : json :=
  JObj [(u "items", JArr [JStr (u "abcdef"); JStr (u "gh")]); (u "n", JInt 7)].

Lemma shrink_terminates_witness :
  rtc (loop_pass 14 []) demo_value (shrink 14 [] demo_value) /\
  dump_json (shrink 14 [] demo_value) = u "{" ++ dump_str (u "items") ++ u ":[]}".
Proof.
  split; [|vm_compute; reflexivity]. apply (shrink_terminates 14 [] demo_value); [|reflexivity].
  constructor; [vm_compute; repeat constructor; set_solver|].
  repeat constructor.
Defined.

(** ** The output of a tool *)

Lemma truncate_output_bound s m : 0 <= m -> slen (_truncate_output s m).1 <= m.
Proof.
  intros Hm. unfold _truncate_output. case_match; bools; [done|]. case_match; bools; simpl.
  - by apply slen_sprefix.
  - rewrite slen_app. pose proof (slen_sprefix (m - slen _OUTPUT_TRUNCATION_MARKER) s). lia.
Qed.

Lemma acceptable_spec v m schema :
  acceptable v m schema = true -> slen (dump_json v) <= m /\ _validate_schema v schema = true.
Proof. unfold acceptable, too_long. intros H. bools. split; [lia|done]. Qed.

Lemma serialize_structured_cases value m schema output truncated :
  structured value = true ->
  _serialize_and_truncate_output value m schema = Ok (output, truncated) ->
  (truncated = false /\ output = dump_json (_normalize_structured_output value) /\ slen output <= m) \/
  (truncated = true /\ exists v, output = dump_json v /\ acceptable v m schema = true).
Proof.
  intros Hs. unfold _serialize_and_truncate_output.
  set (n := _normalize_structured_output value).
  destruct value; try done; cbv zeta; fold n; unfold too_long;
    (destruct (m <? slen (dump_json n)) eqn:E; simpl;
     [|intros [= <- <-]; left; split; [done|]; split; [done|by apply Z.ltb_ge in E]]);
    match goal with |- context [shrink ?a ?b ?c] => generalize (shrink a b c); intros t end;
    repeat (match goal with |- (if ?c then _ else _) = _ -> _ => destruct c eqn:?; [intros [= <- <-]; eauto|] end);
    done.
Qed.

Lemma serialize_bound value m schema output truncated :
  0 <= m -> _serialize_and_truncate_output value m schema = Ok (output, truncated) ->
  slen output <= m.
Proof.
  intros Hm H. destruct (structured value) eqn:Es.
  - destruct (serialize_structured_cases _ _ _ _ _ Es H) as [(_ & _ & ?)|(_ & v & -> & Hv)]; [done|].
    by apply acceptable_spec in Hv as [? _].
  - assert (H' : Ok (E := _StructuredOutputLimitError) (_truncate_output (_serialize_output value) m)
      = Ok (output, truncated)) by (by destruct value).
    injection H' as H'. pose proof (truncate_output_bound (_serialize_output value) m Hm).
    by rewrite H' in *.
Qed.

(** What [_serialize_and_truncate_output] returns is at most [max_chars]
    long; when it had to shorten a structured value, the text is still the JSON
    of a value the output schema accepts, and otherwise it is the JSON of the
    value itself. *)
Theorem serialize_output_spec value m schema output truncated :
  0 <= m ->
  _serialize_and_truncate_output value m schema = Ok (output, truncated) ->
  slen output <= m /\
  (structured value = true ->
     if truncated
     then exists v, output = dump_json v /\ _validate_schema v schema = true
     else output = dump_json (_normalize_structured_output value)).
Proof.
  intros Hm H. split; [by eapply serialize_bound|]. intros Hs.
  destruct (serialize_structured_cases _ _ _ _ _ Hs H) as [(-> & ? & _)|(-> & v & -> & Hv)]; [done|].
  apply acceptable_spec in Hv as [_ ?]. eauto.
Qed.

Lemma serialize_output_spec_witness :
  slen (u "{" ++ dump_str (u "truncated") ++ u ":true}") <= 20.
Proof.
  apply (serialize_output_spec demo_value 20 [(u "type", JStr (u "object"))] _ true); [lia|].
  vm_compute. reflexivity.
Defined.

(** ** The executor *)

Section ExecutorProps.
Context {W : Type}.
Implicit Types (ex : ToolExecutor W) (w : W).

(** All the gates a call passes before its tool runs. *)
Definition gates_open ex (name : pystr) (args : list (pystr * json)) (timeout : option float64)
    (tool : Tool W) (t : float64) : Prop :=
  registry_get (te_registry ex) name = Some tool /\
  _resolve_timeout ex timeout = Ok t /\
  (exists d, _describe tool = Ok d /\
     _is_permitted ex (td_risk_level d) (td_required_permissions d) = true) /\
  _validate_schema (JObj args) (tool_input_schema tool) = true.

(** The calls [execute] refuses without running a tool. *)
Definition refused (r : result execute_error ToolExecutionResult) : Prop :=
  match r with
  | Ok res => tr_status res ∈ [ToolExecutionStatus.NOT_FOUND; ToolExecutionStatus.PERMISSION_DENIED;
                              ToolExecutionStatus.INVALID_ARGUMENTS]
              /\ is_Some (tr_error_code res)
  | Err (ExecuteValueError _) | Err (RegistryRaised _) => True
  | Err _ => False
  end.

Lemma _execute_cases ex name args ctx timeout w :
  (refused (_execute ex name args ctx timeout w).1 /\ (_execute ex name args ctx timeout w).2 = w) \/
  exists tool t a, args = JObj a /\ gates_open ex name a timeout tool t /\
    (_execute ex name args ctx timeout w).2 = (tool_execute tool a ctx t w).2 /\
    match (tool_execute tool a ctx t w).1, (_execute ex name args ctx timeout w).1 with
    | ToolReturned v, Ok r => exists d, _describe tool = Ok d /\ r = output_result ex name d v
    | ToolTimeoutError, Ok r => tr_status r = ToolExecutionStatus.TIMED_OUT
    | ToolException, Ok r => tr_status r = ToolExecutionStatus.FAILED
    | ToolCancelledError, Err CancelledError => True
    | ToolBaseException, Err BaseException => True
    | _, _ => False
    end.
Proof.
  unfold _execute, get_descriptor, gates_open.
  destruct (_resolve_timeout ex timeout) as [t|e] eqn:Et.
  2: { left. unfold _resolve_timeout in Et. case_match; simplify_eq. done. }
  destruct (registry_get (te_registry ex) name) as [tool|] eqn:Eg.
  2: { left. split; [|done]. split; [set_solver|by eexists]. }
  destruct (_describe tool) as [d|e] eqn:Ed; [|by left]. simpl.
  destruct (_is_permitted ex _ _) eqn:Ep; simpl.
  2: { left. split; [|done]. split; [set_solver|by eexists]. }
  destruct args as [| | | | | |a];
    try (left; split; [|done]; split; [set_solver|by eexists]).
  destruct (_validate_schema (JObj a) (tool_input_schema tool)) eqn:Ev; simpl.
  2: { left. split; [|done]. split; [set_solver|by eexists]. }
  right. exists tool, t, a. split; [done|]. split; [by eauto 10|].
  destruct (tool_execute tool a ctx t w) as [[] w'] eqn:E; simpl; rewrite ?E; simpl; eauto.
Qed.


Lemma output_result_bound ex name d v :
  1 <= te_output_max_chars ex ->
  slen (tr_output (output_result ex name d v)) <= te_output_max_chars ex.
Proof.
  intros Hm. unfold output_result.
  destruct (_serialize_and_truncate_output _ _ _) as [[o b]|] eqn:E; simpl.
  - eapply serialize_bound; [lia|exact E].
  - apply truncate_output_bound. lia.
Qed.

(** A constructed executor never returns a tool's output, or its report
    that the output was too large, longer than [output_max_chars]. *)
Theorem execute_output_bounded registry dt m risk granted ex name args ctx timeout w r :
  ToolExecutor_init registry dt m risk granted = Ok ex ->
  (execute ex name args ctx timeout w).1.1 = Ok r ->
  tr_status r = ToolExecutionStatus.SUCCEEDED \/ tr_error_code r = Some _OUTPUT_LIMIT_CODE ->
  slen (tr_output r) <= m.
Proof.
  intros Hex Hr Hs.
  assert (Hm : 1 <= m /\ te_output_max_chars ex = m).
  { unfold ToolExecutor_init, raise_if in Hex. simpl in Hex.
    destruct (not_positive dt); [done|]. simpl in Hex. destruct (m <? 1) eqn:E; [done|].
    bools. by injection Hex as <-. }
  destruct Hm as [Hm <-]. revert Hr. unfold execute, _execute, get_descriptor.
  destruct (registry_get _ _) as [tool|]; [destruct (_describe tool) as [d|]|]; simpl; [|done|].
  - destruct (_resolve_timeout _ _); [|done].
    destruct (_is_permitted _ _ _); simpl; [|intros [= <-]; by destruct Hs].
    destruct args as [| | | | | |obj]; simpl; try (intros [= <-]; by destruct Hs).
    destruct (_validate_schema _ _); simpl; [|intros [= <-]; by destruct Hs].
    destruct (tool_execute _ _ _ _ _) as [[] w1]; simpl; try done;
      intros [= <-]; try (by destruct Hs). by apply output_result_bound.
  - destruct (_resolve_timeout _ _); [|done]. intros [= <-]. by destruct Hs.
Qed.
End ExecutorProps.

(** A tool that counts its runs. *)
Definition demo_tool : Tool nat :=
  mkTool (u "calculator") (u "Evaluate an expression.") demo_schema None None []
    (fun _ _ _ n => (ToolReturned (JStr (u "a rather long answer to a short question")), S n)).
Definition demo_context : ToolContext := mkToolContext (u "run") 1 None [].
Definition one_second : float64 := round_ratio false 1 1.
Definition demo_executor : ToolExecutor nat :=
  mkToolExecutor [(u "calculator", demo_tool)] one_second 34 RiskLevel.LOW [].

Definition demo_arguments : json := JObj [(u "expression", JStr (u "6*7"))].
Definition demo_result : ToolExecutionResult :=
  mkToolExecutionResult (u "calculator") ToolExecutionStatus.SUCCEEDED
    (u "a rather...[tool output truncated]") None None true.

Lemma demo_execute :
  execute demo_executor (u "calculator") demo_arguments demo_context None 0%nat =
  (Ok demo_result, [(u "calculator", u "succeeded")], 1%nat).
Proof. vm_compute. reflexivity. Qed.


Lemma execute_output_bounded_witness : slen (tr_output demo_result) <= 34.
Proof.
  refine (execute_output_bounded [(u "calculator", demo_tool)] one_second 34 RiskLevel.LOW []
    demo_executor (u "calculator") demo_arguments demo_context None 0%nat demo_result _ _ _).
  - vm_compute. reflexivity.
  - rewrite demo_execute. reflexivity.
  - left. reflexivity.
Defined.

(** ** The registry *)

Section RegistryProps.
Context {W : Type}.
Implicit Types (reg : list (pystr * Tool W)) (tool : Tool W).

Lemma describe_name tool d : _describe tool = Ok d -> td_name d = tool_name tool.
Proof.
  unfold _describe, ToolDescriptor_make. intros H.
  destruct (RiskLevel.of_str _); [|done]. repeat case_bool_decide; simplify_eq/=; done.
Qed.

(** Every registered tool has a descriptor, under its own distinct name. *)
Definition registry_ok reg : Prop :=
  reg.*1 = tool_name <$> reg.*2 /\ NoDup reg.*1 /\
  Forall (fun tool => exists d, _describe tool = Ok d) reg.*2.

Lemma register_spec reg tool reg' d :
  registry_ok reg -> register reg tool = Ok (reg', d) ->
  reg' = reg ++ [(tool_name tool, tool)] /\ registry_ok reg' /\ td_name d = tool_name tool.
Proof.
  intros (Hn & Hd & Hf) H. unfold register in H.
  destruct (_describe tool) as [d'|] eqn:E; [|done]. simpl in H.
  pose proof (describe_name _ _ E) as Hname. rewrite Hname in H.
  unfold dict_has in H. destruct (dict_get (tool_name tool) reg) eqn:Eg; [done|].
  injection H as <- <-. rewrite (dict_set_fresh _ _ _ Eg). split; [done|]. split; [|done].
  unfold registry_ok. rewrite !fmap_app, Hn. simpl. split; [done|]. split.
  - apply NoDup_app. rewrite <- Hn. split; [done|]. split; [|repeat constructor; set_solver].
    intros x Hx [= ->]%list_elem_of_singleton. apply dict_get_mem in Hx as [? Hx]. congruence.
  - apply Forall_app. split; [done|]. repeat constructor. by exists d'.
Qed.

Lemma register_all tools reg reg' :
  registry_ok reg -> foldE (fun r t => fst <$> register r t) reg tools = Ok reg' ->
  reg' = reg ++ ((fun t => (tool_name t, t)) <$> tools) /\ registry_ok reg'.
Proof.
  revert reg. induction tools as [|t tools IH]; intros reg Hok; simpl.
  - intros [= <-]. by rewrite app_nil_r.
  - destruct (register reg t) as [[r d]|] eqn:E; simpl; [|done]. intros H.
    destruct (register_spec _ _ _ _ Hok E) as (-> & Hr & _).
    destruct (IH _ Hr H) as [-> Hok2]. rewrite <- app_assoc in Hok2 |- *. done.
Qed.

(** A registry that could be built holds exactly the given tools in the
    given order, under distinct names; each is found under its name and has a
    descriptor of that name, and one more tool of a taken name is refused. *)
Theorem registry_init_spec (tools : list (Tool W)) reg :
  ToolRegistry_init tools = Ok reg ->
  list_tools reg = tools /\ NoDup (tool_name <$> tools) /\
  (forall tool, tool ∈ tools ->
     registry_get reg (tool_name tool) = Some tool /\
     exists d, get_descriptor reg (tool_name tool) = Ok (Some d) /\ td_name d = tool_name tool) /\
  (forall tool, tool_name tool ∈ tool_name <$> tools ->
     exists e, register reg tool = Err e).
Proof.
  intros H. destruct (register_all tools [] reg) as [-> (Hn & Hd & Hf)]; [by repeat constructor|done|].
  rewrite app_nil_l in *. unfold list_tools.
  assert (E1 : ((fun t => (tool_name t, t)) <$> tools).*1 = tool_name <$> tools)
    by (rewrite <- list_fmap_compose; done).
  assert (E2 : ((fun t => (tool_name t, t)) <$> tools).*2 = tools)
    by (rewrite <- list_fmap_compose; apply list_fmap_id).
  rewrite E1, ?E2 in *. split; [done|]. split; [done|].
  assert (Hget : forall tool, tool ∈ tools ->
    dict_get (tool_name tool) ((fun t => (tool_name t, t)) <$> tools) = Some tool).
  { clear -Hd. induction tools as [|t tools IH]; intros tool Ht; [set_solver|]. simpl.
    apply NoDup_cons in Hd as [Hk Hd]. apply elem_of_cons in Ht as [->|Ht].
    - by rewrite decide_True.
    - rewrite decide_False; [by apply IH|]. intros E. apply Hk. rewrite <- E.
      by apply list_elem_of_fmap_2. }
  split.
  - intros tool Ht. unfold get_descriptor, registry_get. rewrite Hget by done. split; [done|].
    rewrite Forall_forall in Hf. destruct (Hf tool Ht) as [d Ed]. exists d. rewrite Ed.
    split; [done|by apply describe_name].
  - intros tool (t & En & Ht)%list_elem_of_fmap. unfold register.
    destruct (_describe tool) as [d|e] eqn:Ed; simpl; [|by eexists].
    rewrite (describe_name _ _ Ed). unfold dict_has. rewrite En, Hget by done. by eexists.
Qed.
End RegistryProps.

Lemma registry_init_spec_witness :
  list_tools [(u "calculator", demo_tool)] = [demo_tool] /\
  (exists e, register [(u "calculator", demo_tool)] demo_tool = Err e).
Proof.
  destruct (registry_init_spec [demo_tool] [(u "calculator", demo_tool)]
    ltac:(vm_compute; reflexivity)) as (H1 & _ & _ & H4).
  split; [exact H1|]. apply H4. set_solver.
Defined.
