(* ===== verification/Workflow.v ===== *)
(** * Workflow definitions: [app/workflows/engine/models.py] and [validation.py]

    The node graph of a workflow, its serialized form, the validation that
    guards every run, Kahn's topological order, and the template and condition
    languages.  The regular expressions are translated to matchers on code
    points: each is deterministic (the character classes of consecutive parts
    are disjoint), so no backtracking is needed. *)

From S2P Require Import Prelude Json.
Local Open Scope Z_scope.

Module NodeType.
Inductive t := INPUT | LLM | KNOWLEDGE | TOOL | CODE | CONDITION | AGENT | OUTPUT.
#[global] Instance eq_dec : EqDecision t.
Proof. solve_decision. Defined.
Definition value (x : t) : pystr :=
  match x with
  | INPUT => u "input" | LLM => u "llm" | KNOWLEDGE => u "knowledge" | TOOL => u "tool"
  | CODE => u "code" | CONDITION => u "condition" | AGENT => u "agent" | OUTPUT => u "output"
  end.
Definition all : list t := [INPUT; LLM; KNOWLEDGE; TOOL; CODE; CONDITION; AGENT; OUTPUT].
(** [NodeType(value)] *)
Definition of_str (s : pystr) : option t := head (filter (fun x => value x = s) all).
End NodeType.

(** ** Models *)

Definition _SUMMARY_MAX_CHARS : Z := 256.
Definition _TRUNCATION_MARKER : pystr := u "...[truncated]".

(** [truncate_summary] *)
Definition truncate_summary (value : pystr) (max_chars : Z) : pystr :=
  if max_chars <=? 0 then []
  else
    let compact := sjoin (u " ") (split_ws value) in
    if slen compact <=? max_chars then compact
    else
      let available := max_chars - slen _TRUNCATION_MARKER in
      if available <=? 0 then sprefix max_chars _TRUNCATION_MARKER
      else sprefix available compact ++ _TRUNCATION_MARKER.

Record WorkflowNode := mkNode {
  id : pystr;
  node_type : NodeType.t;
  config : list (pystr * json)
}.

Record WorkflowEdge := mkEdge { from_node : pystr; to_node : pystr }.

Record WorkflowDefinition := mkDefinition {
  nodes : list WorkflowNode;
  edges : list WorkflowEdge;
  version : Z
}.

(** The exceptions of this module; [PyError] stands for the built-in ones
    ([KeyError], [TypeError], [ValueError]) with their text. *)
Inductive workflow_error :=
| WorkflowValidationError (message : pystr)
| PyError (message : pystr).

Definition error_text (e : workflow_error) : pystr :=
  match e with WorkflowValidationError m | PyError m => m end.

(** [str(v)]: a string is its own text, any other JSON value has its [repr]. *)
Definition str_of (repr : json -> pystr) (v : json) : pystr :=
  match v with JStr s => s | _ => repr v end.

Section Models.
(** The built-ins [repr], [int] and [dict] on decoded JSON values. *)
Context (repr : json -> pystr) (py_int : json -> option Z)
  (py_dict : json -> option (list (pystr * json))).

Definition getitem (k : string) (raw : list (pystr * json)) : result workflow_error json :=
  match dict_get (u k) raw with Some v => Ok v | None => Err (PyError (u "KeyError")) end.

(** [v or {}] is not [{}] *)
Definition truthy (v : json) : bool :=
  match v with
  | JNull => false
  | JBool b => b
  | JInt z => negb (z =? 0)
  | JFloat f => negb (num_eq (JFloat f) (JInt 0))
  | JStr s => negb (bool_decide (s = []))
  | JArr l => negb (bool_decide (l = []))
  | JObj d => negb (bool_decide (d = []))
  end.

(** [WorkflowNode.from_dict] and [to_dict] *)
Definition node_from_dict (raw : json) : result workflow_error WorkflowNode :=
  match raw with
  | JObj d =>
      node_id ← getitem "id" d;
      type_value ← getitem "type" d;
      match NodeType.of_str (str_of repr type_value) with
      | None => Err (PyError (u "ValueError"))
      | Some t =>
          let c := default JNull (dict_get (u "config") d) in
          match py_dict (if truthy c then c else JObj []) with
          | Some config => Ok (mkNode (str_of repr node_id) t config)
          | None => Err (PyError (u "TypeError"))
          end
      end
  | _ => Err (PyError (u "TypeError"))
  end.

Definition node_to_dict (n : WorkflowNode) : json :=
  JObj [(u "id", JStr (id n)); (u "type", JStr (NodeType.value (node_type n)));
        (u "config", JObj (config n))].

(** [WorkflowEdge.from_dict] and [to_dict] *)
Definition edge_from_dict (raw : json) : result workflow_error WorkflowEdge :=
  match raw with
  | JObj d =>
      from ← getitem "from" d;
      to ← getitem "to" d;
      Ok (mkEdge (str_of repr from) (str_of repr to))
  | _ => Err (PyError (u "TypeError"))
  end.

Definition edge_to_dict (e : WorkflowEdge) : json :=
  JObj [(u "from", JStr (from_node e)); (u "to", JStr (to_node e))].

(** [tuple(f(x) for x in raw)] *)
Definition each {A} (f : json -> result workflow_error A) (raw : json)
  : result workflow_error (list A) :=
  match raw with
  | JArr l => foldE (fun acc x => (fun a => acc ++ [a]) <$> f x) [] l
  | JStr [] | JObj [] => Ok []
  | _ => Err (PyError (u "TypeError"))
  end.

(** [WorkflowDefinition.from_dict] and [to_dict] *)
Definition definition_from_dict (raw : list (pystr * json)) : result workflow_error WorkflowDefinition :=
  ns ← each node_from_dict (default (JArr []) (dict_get (u "nodes") raw));
  es ← each edge_from_dict (default (JArr []) (dict_get (u "edges") raw));
  match py_int (default (JInt 1) (dict_get (u "version") raw)) with
  | Some v => Ok (mkDefinition ns es v)
  | None => Err (PyError (u "ValueError"))
  end.

Definition definition_to_dict (d : WorkflowDefinition) : list (pystr * json) :=
  [(u "nodes", JArr (node_to_dict <$> nodes d)); (u "edges", JArr (edge_to_dict <$> edges d));
   (u "version", JInt (version d))].
End Models.

(** ** Text matching *)

Definition in_range (a b c : N) : bool := (a <=? c)%N && (c <=? b)%N.
(** [[A-Za-z0-9_]] and [[A-Za-z0-9_-]] *)
Definition is_word_char (c : N) : bool :=
  in_range 65 90 c || in_range 97 122 c || in_range 48 57 c || (c =? 95)%N.
Definition is_id_char (c : N) : bool := is_word_char c || (c =? 45)%N.

(** The longest prefix in a character class, and the rest. *)
Fixpoint span (p : N -> bool) (s : pystr) : pystr * pystr :=
  match s with
  | [] => ([], [])
  | c :: s' => if p c then let '(a, b) := span p s' in (c :: a, b) else ([], s)
  end.

(** The rest of [s] after the literal [p]. *)
Definition literal (p s : pystr) : option pystr :=
  if starts_with p s then Some (drop (length p) s) else None.

(** [\s+]: the rest after at least one white space character. *)
Definition spaces1 (s : pystr) : option pystr :=
  match s with c :: _ => if is_space c then Some (lstrip s) else None | [] => None end.

(** [_VARIABLE_RE] at the start of [s]: the group and the rest. *)
Definition match_variable (s : pystr) : option (pystr * pystr) :=
  s1 ← literal (u "{{") s;
  let '(name, s2) := span is_id_char (lstrip s1) in
  if bool_decide (name = []) then None
  else
    let '(name, s3) :=
      match literal (u ".") s2 with
      | Some r => let '(w, r') := span is_word_char r in
                  if bool_decide (w = []) then (name, s2) else (name ++ u "." ++ w, r')
      | None => (name, s2)
      end in
    rest ← literal (u "}}") (lstrip s3);
    Some (name, rest).

(** [_NODE_REFERENCE_RE] at the start of [s]. *)
Definition match_node_reference (s : pystr) : option (pystr * pystr) :=
  s1 ← literal (u "{{") s;
  let '(name, s2) := span is_id_char (lstrip s1) in
  if bool_decide (name = []) then None
  else
    s3 ← literal (u ".output") s2;
    rest ← literal (u "}}") (lstrip s3);
    Some (name, rest).

(** [$] after a match: the end of the text, or before a final newline. *)
Definition at_end (s : pystr) : bool := bool_decide (s = []) || bool_decide (s = [10%N]).

(** A quoted literal that ends the text: the quote, no quote inside, the quote. *)
Definition match_quoted_end (s : pystr) : option pystr :=
  s1 ← literal (u "'") s;
  let '(lit, s2) := span (fun c => negb (c =? 39)%N) s1 in
  rest ← literal (u "'") s2;
  if at_end rest then Some lit else None.

Inductive condition_form :=
| Contains (var lit : pystr)
| IsEmpty (var : pystr)
| Equals (var lit : pystr).

(** [_CONDITION_PATTERNS], in the order of the dictionary *)
Definition match_contains (s : pystr) : option condition_form :=
  '(var, s1) ← match_variable s;
  s2 ← spaces1 s1;
  s3 ← literal (u "contains") s2;
  s4 ← spaces1 s3;
  lit ← match_quoted_end s4;
  Some (Contains var lit).

Definition match_is_empty (s : pystr) : option condition_form :=
  '(var, s1) ← match_variable s;
  s2 ← spaces1 s1;
  s3 ← literal (u "is") s2;
  s4 ← spaces1 s3;
  rest ← literal (u "empty") s4;
  if at_end rest then Some (IsEmpty var) else None.

Definition match_equals (s : pystr) : option condition_form :=
  '(var, s1) ← match_variable s;
  s2 ← literal (u "==") (lstrip s1);
  lit ← match_quoted_end (lstrip s2);
  Some (Equals var lit).

Definition parse_condition (s : pystr) : option condition_form :=
  match match_contains s with
  | Some f => Some f
  | None => match match_is_empty s with Some f => Some f | None => match_equals s end
  end.

(** [_is_valid_condition] *)
Definition _is_valid_condition (expr : pystr) : bool :=
  match parse_condition expr with Some _ => true | None => false end.

(** [findall]: the groups of the leftmost non-overlapping matches. *)
Fixpoint findall_fuel (fuel : nat) (m : pystr -> option (pystr * pystr)) (s : pystr) : list pystr :=
  match fuel with
  | O => []
  | S f =>
      match s with
      | [] => []
      | _ :: s' =>
          match m s with
          | Some (name, rest) => name :: findall_fuel f m rest
          | None => findall_fuel f m s'
          end
      end
  end.
Definition findall (m : pystr -> option (pystr * pystr)) (s : pystr) : list pystr :=
  findall_fuel (length s) m s.

(** [sub]: every match replaced by what [replace] makes of its group. *)
Fixpoint sub_fuel {E} (fuel : nat) (replace : pystr -> result E pystr) (s : pystr) : result E pystr :=
  match fuel with
  | O => Ok s
  | S f =>
      match s with
      | [] => Ok []
      | c :: s' =>
          match match_variable s with
          | Some (name, rest) =>
              text ← replace name;
              tail ← sub_fuel f replace rest;
              Ok (text ++ tail)
          | None =>
              tail ← sub_fuel f replace s';
              Ok (c :: tail)
          end
      end
  end.

(** [literal in text] *)
Fixpoint contains_text (lit text : pystr) : bool :=
  starts_with lit text || match text with [] => false | _ :: t => contains_text lit t end.

(** ** Validation *)

(** [d[k]] and [d[k] = f(d[k])] on dictionaries whose order is not observed. *)
Definition lookup_key {A} (d : gmap pystr A) (k : pystr) : result workflow_error A :=
  match d !! k with Some v => Ok v | None => Err (PyError (u "KeyError")) end.
Definition update_key {A} (f : A -> A) (d : gmap pystr A) (k : pystr)
  : result workflow_error (gmap pystr A) :=
  (fun v => <[k := f v]> d) <$> lookup_key d k.

Definition is_condition (n : WorkflowNode) : bool := bool_decide (node_type n = NodeType.CONDITION).

(** [for branch in node.config.get("branches", [])]: what the loop runs over. *)
Definition iter_branches (n : WorkflowNode) : result workflow_error (list json) :=
  match dict_get (u "branches") (config n) with
  | None => Ok []
  | Some (JArr l) => Ok l
  | Some (JStr s) => Ok ((fun c => JStr [c]) <$> s)
  | Some (JObj d) => Ok ((fun kv : pystr * json => JStr kv.1) <$> d)
  | Some _ => Err (PyError (u "TypeError"))
  end.

(** The target of one branch, when it is the name of a node. *)
Definition branch_target (ids : list pystr) (branch : json) : option pystr :=
  match branch with
  | JObj b => match dict_get (u "target") b with
              | Some (JStr t) => if bool_decide (t ∈ ids) then Some t else None
              | _ => None
              end
  | _ => None
  end.

Definition node_ids (d : WorkflowDefinition) : list pystr := id <$> nodes d.

(** The edges a node contributes through its branches. *)
Definition branch_edges (ids : list pystr) (n : WorkflowNode)
  : result workflow_error (list (pystr * pystr)) :=
  if is_condition n
  then (fun bs : list json => (fun t => (id n, t)) <$> omap (branch_target ids) bs) <$> iter_branches n
  else Ok [].

(** One edge of Kahn's graph:
    [adjacency[x].append(y); in_degree[y] += 1]. *)
Definition graph : Type := gmap pystr (list pystr) * gmap pystr Z.
Definition add_edge (g : graph) (e : pystr * pystr) : result workflow_error graph :=
  adjacency ← update_key (fun l => l ++ [e.2]) g.1 e.1;
  in_degree ← update_key (fun n => n + 1) g.2 e.2;
  Ok (adjacency, in_degree).

Definition dict_of {A} (v : A) (ids : list pystr) : gmap pystr A :=
  list_to_map ((fun k => (k, v)) <$> ids).

Definition build_graph (d : WorkflowDefinition) : result workflow_error graph :=
  let ids := node_ids d in
  g ← foldE (fun g e => add_edge g (from_node e, to_node e)) (dict_of [] ids, dict_of 0 ids) (edges d);
  foldE (fun g n => es ← branch_edges ids n; foldE add_edge g es) g (nodes d).

(** [for target in adjacency[node_id]: ...] *)
Definition relax (st : list pystr * gmap pystr Z) (target : pystr)
  : result workflow_error (list pystr * gmap pystr Z) :=
  let '(ready, in_degree) := st in
  n ← lookup_key in_degree target;
  let in_degree := <[target := n - 1]> in_degree in
  Ok (if n - 1 =? 0 then ready ++ [target] else ready, in_degree).

(** The loop of Kahn's algorithm; every pass emits a node not emitted before, so
    one more than the number of nodes is enough fuel. *)
Fixpoint kahn (fuel : nat) (adjacency : gmap pystr (list pystr)) (ready : list pystr)
    (in_degree : gmap pystr Z) (ordered : list pystr) : result workflow_error (list pystr) :=
  match fuel with
  | O => Ok ordered
  | S f =>
      match ready with
      | [] => Ok ordered
      | node_id :: ready =>
          targets ← lookup_key adjacency node_id;
          '(ready, in_degree) ← foldE relax (ready, in_degree) targets;
          kahn f adjacency ready in_degree (ordered ++ [node_id])
      end
  end.

(** [topological_order]; [index_of] is the position in the list. *)
Definition topological_order (d : WorkflowDefinition) : result workflow_error (option (list pystr)) :=
  '(adjacency, in_degree) ← build_graph d;
  let ready := filter (fun k => in_degree !! k = Some 0) (node_ids d) in
  ordered ← kahn (S (length (nodes d))) adjacency ready in_degree [];
  Ok (if (length ordered =? length (nodes d))%nat then Some ordered else None).

(** [_walk_strings] *)
Fixpoint _walk_strings (value : json) : list pystr :=
  match value with
  | JStr s => [s]
  | JObj d => foldr (fun kv acc => _walk_strings kv.2 ++ acc) [] d
  | JArr l => foldr (fun x acc => _walk_strings x ++ acc) [] l
  | _ => []
  end.

Fixpoint index_of (k : pystr) (l : list pystr) : option nat :=
  match l with
  | [] => None
  | x :: l' => if decide (k = x) then Some O else S <$> index_of k l'
  end.

Section Validation.
(** The built-in [repr], which only error messages use. *)
Context (repr : json -> pystr).

Definition invalid {A} (message : pystr) : result workflow_error A := Err (WorkflowValidationError message).

Definition _CONDITION_FORM_LABELS : list pystr :=
  [u "{{var}} contains 'x'"; u "{{var}} is empty"; u "{{var}} == 'x'"].

(** The ids met again after their first occurrence. *)
Fixpoint duplicates (seen : list pystr) (ids : list pystr) : list pystr :=
  match ids with
  | [] => []
  | k :: ids' => (if bool_decide (k ∈ seen) then [k] else []) ++ duplicates (k :: seen) ids'
  end.

Definition check_edge (ids : list pystr) (e : WorkflowEdge) : result workflow_error unit :=
  if negb (bool_decide (from_node e ∈ ids)) then
    invalid (u "边 from=" ++ from_node e ++ u " 引用了不存在的节点 " ++ from_node e)
  else if negb (bool_decide (to_node e ∈ ids)) then
    invalid (u "边 to=" ++ to_node e ++ u " 引用了不存在的节点 " ++ to_node e)
  else if bool_decide (from_node e = to_node e) then
    invalid (u "边 " ++ from_node e ++ u " → " ++ to_node e ++ u " 不允许自环")
  else Ok tt.

(** [_validate_condition_node] *)
Definition check_branch (n : WorkflowNode) (ids : list pystr) (default_seen : bool) (branch : json)
  : result workflow_error bool :=
  match branch with
  | JObj b =>
      match branch_target ids branch with
      | None =>
          invalid (u "条件节点 " ++ id n ++ u " 的分支 target 不存在："
                   ++ repr (default JNull (dict_get (u "target") b)))
      | Some _ =>
          match default JNull (dict_get (u "condition") b) with
          | JNull =>
              if default_seen
              then invalid (u "条件节点 " ++ id n ++ u " 有多个默认分支（无 condition 的分支至多一个）")
              else Ok true
          | condition =>
              if match condition with JStr c => _is_valid_condition c | _ => false end
              then Ok default_seen
              else invalid (u "条件节点 " ++ id n ++ u " 的分支表达式不合法：" ++ repr condition
                            ++ u "，仅支持：" ++ sjoin (u " / ") _CONDITION_FORM_LABELS)
          end
      end
  | _ => invalid (u "条件节点 " ++ id n ++ u " 的分支必须是对象（含 condition/target）")
  end.

Definition _validate_condition_node (ids : list pystr) (n : WorkflowNode) : result workflow_error unit :=
  match default JNull (dict_get (u "branches") (config n)) with
  | JArr [] => invalid (u "条件节点 " ++ id n ++ u " 至少需要一个分支")
  | JArr branches => (fun _ => tt) <$> foldE (check_branch n ids) false branches
  | _ => invalid (u "条件节点 " ++ id n ++ u " 的 config.branches 必须是数组")
  end.

(** [_validate_template_references] *)
Definition check_reference (n : WorkflowNode) (order : list pystr) (reference : pystr)
  : result workflow_error unit :=
  if bool_decide (reference = id n) then
    invalid (u "节点 " ++ id n ++ u " 的模板不能引用自身输出")
  else
    match index_of reference order with
    | None => invalid (u "节点 " ++ id n ++ u " 的模板引用了不存在的节点：" ++ reference)
    | Some i =>
        match index_of (id n) order with
        | None => Err (PyError (u "KeyError"))
        | Some j =>
            if (j <=? i)%nat then
              invalid (u "节点 " ++ id n ++ u " 的模板引用了拓扑序不早于自身的节点输出："
                       ++ reference ++ u "（引用必须指向已执行完成的节点）")
            else Ok tt
        end
    end.

Definition references (n : WorkflowNode) : list pystr :=
  mjoin (findall match_node_reference <$> _walk_strings (JObj (config n))).

Definition _validate_template_references (order : list pystr) (n : WorkflowNode)
  : result workflow_error unit :=
  foldE (fun _ r => check_reference n order r) tt (references n).

Definition of_type (t : NodeType.t) (d : WorkflowDefinition) : list WorkflowNode :=
  filter (fun n => node_type n = t) (nodes d).

(** [validate_definition]; the test that every type is a [NodeType] cannot fail
    on a [WorkflowNode]. *)
Definition validate_definition (d : WorkflowDefinition) : result workflow_error unit :=
  let ids := node_ids d in
  let duplicate_ids := duplicates [] ids in
  _ ← raise_if (negb (bool_decide (duplicate_ids = [])))
        (WorkflowValidationError
           (u "节点 id 重复：" ++ sjoin (u ", ") (sort_by str_leb (remove_dups duplicate_ids))));
  _ ← foldE (fun _ e => check_edge ids e) tt (edges d);
  let input_nodes := of_type NodeType.INPUT d in
  _ ← raise_if (bool_decide (input_nodes = []))
        (WorkflowValidationError (u "定义中缺少 input 节点（至少需要一个）"));
  _ ← raise_if (bool_decide (of_type NodeType.OUTPUT d = []))
        (WorkflowValidationError (u "定义中缺少 output 节点（至少需要一个）"));
  out_degrees ← foldE (fun m e => update_key (fun n => n + 1) m (from_node e)) (dict_of 0 ids) (edges d);
  _ ← foldE (fun _ n =>
        c ← lookup_key out_degrees (id n);
        raise_if (negb (c =? 1))
          (WorkflowValidationError
             (u "input 节点 " ++ id n ++ u " 的出边数量为 " ++ str_of_Z c ++ u "，必须恰好为 1")))
        tt input_nodes;
  incoming ← foldE (fun m e => update_key (fun l => l ++ [from_node e]) m (to_node e))
               (dict_of [] ids) (edges d);
  incoming ← foldE (fun m n =>
        es ← branch_edges ids n;
        foldE (fun m e => update_key (fun l => l ++ [e.1]) m e.2) m es) incoming (nodes d);
  _ ← foldE (fun _ n =>
        l ← lookup_key incoming (id n);
        raise_if (1 <? Z.of_nat (length l))
          (WorkflowValidationError
             (u "节点 " ++ id n ++ u " 的入边数量为 " ++ str_of_Z (Z.of_nat (length l))
              ++ u "，串行流要求每个节点至多 1 条入边"))) tt (nodes d);
  topo ← topological_order d;
  match topo with
  | None => invalid (u "定义存在环，不是 DAG")
  | Some order =>
      _ ← foldE (fun _ n => if is_condition n then _validate_condition_node ids n else Ok tt) tt (nodes d);
      foldE (fun _ n => _validate_template_references order n) tt (nodes d)
  end.
End Validation.
