(* ===== verification/WorkflowFacts.v ===== *)
(** * Kahn's algorithm on workflow graphs

    The graph [build_graph] makes of a definition, and what the loop of
    [topological_order] does to it. *)

From S2P Require Import Prelude Json Workflow.
Local Open Scope Z_scope.

(** ** The edges of a definition *)

Definition branch_list (ids : list pystr) (n : WorkflowNode) : list (pystr * pystr) :=
  match branch_edges ids n with Ok l => l | Err _ => [] end.

(** Explicit edges and condition branches. *)
Definition edge_list (d : WorkflowDefinition) : list (pystr * pystr) :=
  ((fun e => (from_node e, to_node e)) <$> edges d) ++ mjoin (branch_list (node_ids d) <$> nodes d).

Definition edge_in (E : list (pystr * pystr)) (x y : pystr) : Prop := (x, y) ∈ E.

Definition succs (E : list (pystr * pystr)) (x : pystr) : list pystr := (filter (fun e => e.1 = x) E).*2.
Definition preds (E : list (pystr * pystr)) (y : pystr) : list pystr := (filter (fun e => e.2 = y) E).*1.
Definition indeg (E : list (pystr * pystr)) (y : pystr) : Z := Z.of_nat (length (preds E y)).

Lemma succs_app E1 E2 x : succs (E1 ++ E2) x = succs E1 x ++ succs E2 x.
Proof. unfold succs. by rewrite filter_app, fmap_app. Qed.

Lemma preds_app E1 E2 x : preds (E1 ++ E2) x = preds E1 x ++ preds E2 x.
Proof. unfold preds. by rewrite filter_app, fmap_app. Qed.

Lemma succs_one x y z : succs [(x, y)] z = if decide (x = z) then [y] else [].
Proof. unfold succs. rewrite filter_cons. simpl. by destruct (decide (x = z)). Qed.

Lemma preds_one x y z : preds [(x, y)] z = if decide (y = z) then [x] else [].
Proof. unfold preds. rewrite filter_cons. simpl. by destruct (decide (y = z)). Qed.

Lemma preds_mem E x y : x ∈ preds E y <-> (x, y) ∈ E.
Proof.
  unfold preds. rewrite list_elem_of_fmap. split.
  - intros ([a b] & -> & [? ?]%list_elem_of_filter). simpl in *. by subst.
  - intros H. exists (x, y). split; [done|]. by apply list_elem_of_filter.
Qed.

Lemma succs_mem E x y : y ∈ succs E x <-> (x, y) ∈ E.
Proof.
  unfold succs. rewrite list_elem_of_fmap. split.
  - intros ([a b] & -> & [? ?]%list_elem_of_filter). simpl in *. by subst.
  - intros H. exists (x, y). split; [done|]. by apply list_elem_of_filter.
Qed.

Lemma preds_perm E1 E2 y : E1 ≡ₚ E2 -> preds E1 y ≡ₚ preds E2 y.
Proof. intros H. unfold preds. by rewrite H. Qed.

Lemma indeg_perm E1 E2 y : E1 ≡ₚ E2 -> indeg E1 y = indeg E2 y.
Proof. intros H. unfold indeg. by rewrite (preds_perm _ _ y H). Qed.

Lemma indeg_zero E y : indeg E y = 0 <-> forall x, (x, y) ∉ E.
Proof.
  unfold indeg. split.
  - intros H x Hx%preds_mem. destruct (preds E y); [set_solver|simpl in H; lia].
  - intros H. destruct (preds E y) as [|x l] eqn:Ep; [done|]. exfalso. apply (H x).
    apply preds_mem. rewrite Ep. set_solver.
Qed.

Lemma indeg_nonneg E y : 0 <= indeg E y.
Proof. unfold indeg. lia. Qed.

Lemma indeg_cons x y E z : indeg ((x, y) :: E) z = (if decide (y = z) then 1 else 0) + indeg E z.
Proof.
  unfold indeg. change ((x, y) :: E) with ([(x, y)] ++ E). rewrite preds_app, preds_one.
  destruct (decide (y = z)); rewrite length_app; simpl; lia.
Qed.

(** ** [build_graph] *)

(** The dictionaries hold the successors and in-degrees of the edges [E]. *)
Definition represents (ids : list pystr) (E : list (pystr * pystr)) (g : graph) : Prop :=
  (forall x, g.1 !! x = if decide (x ∈ ids) then Some (succs E x) else None) /\
  (forall x, g.2 !! x = if decide (x ∈ ids) then Some (indeg E x) else None) /\
  (forall x y, (x, y) ∈ E -> x ∈ ids /\ y ∈ ids).

Lemma dict_of_lookup {A} (v : A) ids x :
  dict_of v ids !! x = if decide (x ∈ ids) then Some v else None.
Proof.
  unfold dict_of. induction ids as [|k ids IH]; [done|]. rewrite fmap_cons. simpl.
  destruct (decide (k = x)) as [->|Hk].
  - rewrite lookup_insert_eq, decide_True by set_solver. done.
  - rewrite lookup_insert_ne by done. rewrite IH. destruct (decide (x ∈ ids)).
    + by rewrite decide_True by set_solver.
    + by rewrite decide_False by set_solver.
Qed.

Lemma represents_empty ids : represents ids [] (dict_of [] ids, dict_of 0 ids).
Proof.
  split; [|split]; simpl; [intros x; by rewrite dict_of_lookup..|set_solver].
Qed.

Lemma update_key_ok {A} (f : A -> A) m k m' :
  update_key f m k = Ok m' -> exists v, m !! k = Some v /\ m' = <[k := f v]> m.
Proof.
  unfold update_key, lookup_key. destruct (m !! k) as [v|]; [|done]. intros [= <-]. eauto.
Qed.

Lemma add_edge_rep ids E g e g' :
  represents ids E g -> add_edge g e = Ok g' -> represents ids (E ++ [e]) g'.
Proof.
  intros (H1 & H2 & H3) H. destruct e as [x y]. unfold add_edge in H. simpl in H.
  destruct (update_key _ g.1 x) as [m1|] eqn:E1; [|done]. simpl in H.
  destruct (update_key _ g.2 y) as [m2|] eqn:E2; [|done]. injection H as <-.
  apply update_key_ok in E1 as (l & Hl & ->). apply update_key_ok in E2 as (n & Hn & ->).
  rewrite H1 in Hl. rewrite H2 in Hn. case_decide; [|done]. case_decide; [|done]. simplify_eq.
  split; [|split]; simpl.
  - intros z. rewrite succs_app, succs_one. destruct (decide (x = z)) as [->|Hz].
    + rewrite lookup_insert_eq, decide_True by done. done.
    + rewrite lookup_insert_ne, H1, app_nil_r by done. done.
  - intros z. unfold indeg. rewrite preds_app, preds_one, length_app.
    destruct (decide (y = z)) as [->|Hz]; simpl.
    + rewrite lookup_insert_eq, decide_True by done. unfold indeg. f_equal. lia.
    + rewrite lookup_insert_ne, H2 by done. unfold indeg. case_decide; [f_equal; lia|done].
  - intros a b [Hab|Hab]%elem_of_app; [by apply H3|].
    apply list_elem_of_singleton in Hab as [= -> ->]. done.
Qed.

Lemma add_edges_rep ids E es g g' :
  represents ids E g -> foldE add_edge g es = Ok g' -> represents ids (E ++ es) g'.
Proof.
  intros Hr H. apply (foldE_inv (fun pre g => represents ids (E ++ pre) g) _ _ _ _ H).
  - by rewrite app_nil_r.
  - intros pre a s s' Hp Ha. rewrite app_assoc. by eapply add_edge_rep.
Qed.

Lemma build_graph_rep d g : build_graph d = Ok g -> represents (node_ids d) (edge_list d) g.
Proof.
  unfold build_graph, edge_list. intros H.
  destruct (foldE _ _ (edges d)) as [g1|] eqn:E1; [|done]. simpl in H.
  assert (H1 : represents (node_ids d) ((fun e => (from_node e, to_node e)) <$> edges d) g1).
  { apply (foldE_inv (fun pre g => represents (node_ids d)
      ((fun e => (from_node e, to_node e)) <$> pre) g) _ _ _ _ E1); [apply represents_empty|].
    intros pre a s s' Hp Ha. rewrite fmap_app. by eapply add_edge_rep. }
  revert H. generalize (nodes d) as ns. intros ns H.
  apply (foldE_inv (fun pre g => represents (node_ids d)
    (((fun e => (from_node e, to_node e)) <$> edges d) ++ mjoin (branch_list (node_ids d) <$> pre)) g)
    _ _ _ _ H); [by rewrite app_nil_r|].
  intros pre a s s' Hp Ha. rewrite fmap_app, join_app, app_assoc. simpl. rewrite app_nil_r.
  unfold branch_list at 2. destruct (branch_edges (node_ids d) a) as [es|]; [|done].
  by eapply add_edges_rep.
Qed.

(** ** The loop *)

(** Every edge into an element of [l] comes from an earlier element. *)
Definition in_order (E : list (pystr * pystr)) (l : list pystr) : Prop :=
  forall l1 y l2, l = l1 ++ y :: l2 -> forall x, (x, y) ∈ E -> x ∈ l1.

Lemma in_order_snoc E l y :
  in_order E l -> (forall x, (x, y) ∈ E -> x ∈ l) -> in_order E (l ++ [y]).
Proof.
  intros Hl Hy l1 z l2 Heq x Hx. destruct l2 as [|w l2 _] using rev_ind.
  - apply app_inj_tail in Heq as [-> ->]. by apply Hy.
  - rewrite app_comm_cons, app_assoc in Heq. apply app_inj_tail in Heq as [-> _].
    by eapply Hl.
Qed.

Section Kahn.
Context (ids : list pystr) (E : list (pystr * pystr)) (adjacency : gmap pystr (list pystr)).
Hypothesis adjacency_ok : forall x, adjacency !! x = if decide (x ∈ ids) then Some (succs E x) else None.
Hypothesis edges_ok : forall x y, (x, y) ∈ E -> x ∈ ids /\ y ∈ ids.

(** [P] are the edges not yet taken off the in-degrees. *)
Record kahn_inv (P : list (pystr * pystr)) (ordered ready : list pystr) (deg : gmap pystr Z) : Prop := {
  ki_deg : forall v, v ∈ ids -> deg !! v = Some (indeg P v);
  ki_nodup : NoDup (ordered ++ ready);
  ki_zero : forall v, v ∈ ordered ++ ready <-> v ∈ ids /\ indeg P v = 0;
  ki_edges : forall x y, (x, y) ∈ E -> (x, y) ∈ P \/ x ∈ ordered;
  ki_part : forall x y, (x, y) ∈ P -> (x, y) ∈ E;
  ki_order : in_order E (ordered ++ ready)
}.

Lemma relax_inv P ordered ready deg x t :
  kahn_inv ((x, t) :: P) ordered ready deg -> x ∈ ordered ->
  exists ready' deg', relax (ready, deg) t = Ok (ready', deg') /\ kahn_inv P ordered ready' deg'.
Proof.
  intros [Hdeg Hnd Hz He Hp Ho] Hx.
  assert (Ht : t ∈ ids) by (apply (edges_ok x), Hp; set_solver).
  unfold relax, lookup_key. rewrite (Hdeg t Ht). simpl. rewrite indeg_cons, decide_True by done.
  assert (Hne : forall v, v <> t -> indeg ((x, t) :: P) v = indeg P v).
  { intros v Hv. rewrite indeg_cons, decide_False by done. lia. }
  assert (Hnew : forall v, v ∈ ids -> <[t := 1 + indeg P t - 1]> deg !! v = Some (indeg P v)).
  { intros v Hv. destruct (decide (v = t)) as [->|Hvt].
    - rewrite lookup_insert_eq. f_equal. lia.
    - rewrite lookup_insert_ne, Hdeg, Hne by done. done. }
  assert (Htn : t ∉ ordered ++ ready).
  { intros [_ H]%Hz. rewrite indeg_cons, decide_True in H by done. pose proof (indeg_nonneg P t). lia. }
  assert (He' : forall a b, (a, b) ∈ E -> (a, b) ∈ P \/ a ∈ ordered).
  { intros a b Hab. destruct (He _ _ Hab) as [H|?]; [|by right].
    apply elem_of_cons in H as [[= -> ->]|?]; [by right|by left]. }
  assert (Hp' : forall a b, (a, b) ∈ P -> (a, b) ∈ E) by (intros; apply Hp; set_solver).
  destruct (1 + indeg P t - 1 =? 0) eqn:Et; bools; do 2 eexists; (split; [reflexivity|]); split; try done.
  - rewrite app_assoc. apply NoDup_app. split; [done|]. split; [set_solver|]. apply NoDup_singleton.
  - intros v. rewrite app_assoc, elem_of_app, list_elem_of_singleton, Hz.
    destruct (decide (v = t)) as [->|Hvt]; [|rewrite Hne by done; naive_solver].
    split; [|by right]. intros _. split; [done|lia].
  - rewrite app_assoc. apply in_order_snoc; [done|]. intros a Ha.
    destruct (He' _ _ Ha) as [H|?]; [|set_solver]. exfalso. by eapply (indeg_zero P t); [lia|].
  - intros v. rewrite Hz. destruct (decide (v = t)) as [->|Hvt]; [|by rewrite Hne].
    rewrite indeg_cons, decide_True by done. pose proof (indeg_nonneg P t). split; [lia|].
    intros [_ H0]. lia.
Qed.

Lemma relax_all_inv ts P ordered ready deg x :
  kahn_inv (((fun t => (x, t)) <$> ts) ++ P) ordered ready deg -> x ∈ ordered ->
  exists ready' deg', foldE relax (ready, deg) ts = Ok (ready', deg') /\ kahn_inv P ordered ready' deg'.
Proof.
  revert ready deg. induction ts as [|t ts IH]; intros ready deg Hi Hx; [by eauto|].
  destruct (relax_inv _ _ _ _ _ _ Hi Hx) as (r & dg & Er & Hi').
  cbn [foldE]. rewrite Er. by apply IH.
Qed.

(** The edges out of nodes that were not emitted. *)
Definition remaining (ordered : list pystr) : list (pystr * pystr) :=
  filter (fun e => e.1 ∉ ordered) E.

Lemma remaining_pop ordered x :
  x ∉ ordered ->
  remaining ordered ≡ₚ ((fun t => (x, t)) <$> succs E x) ++ remaining (ordered ++ [x]).
Proof.
  clear adjacency_ok edges_ok. intros Hx. unfold remaining, succs. induction E as [|[a b] E' IH]; [done|].
  rewrite !filter_cons. cbn [fst snd].
  destruct (decide (a = x)) as [->|Hax].
  - rewrite (decide_True (P := x ∉ ordered)) by done.
    rewrite (decide_False (P := x ∉ ordered ++ [x])) by set_solver. simpl. by apply perm_skip.
  - destruct (decide (a ∉ ordered)) as [Ha|Ha].
    + rewrite (decide_True (P := a ∉ ordered ++ [x])) by set_solver. rewrite IH.
      apply Permutation_middle.
    + rewrite (decide_False (P := a ∉ ordered ++ [x])) by set_solver. done.
Qed.

Lemma kahn_inv_perm P P' ordered ready deg :
  P ≡ₚ P' -> kahn_inv P ordered ready deg -> kahn_inv P' ordered ready deg.
Proof.
  intros HP [Hdeg Hnd Hz He Hp Ho]. split; try done.
  - intros v Hv. rewrite Hdeg by done. by rewrite (indeg_perm _ _ v HP).
  - intros v. by rewrite <- (indeg_perm _ _ v HP).
  - intros x y Hxy. rewrite <- HP. by apply He.
  - intros x y Hxy. apply Hp. by rewrite HP.
Qed.

Lemma kahn_spec fuel ordered ready deg :
  kahn_inv (remaining ordered) ordered ready deg ->
  (length ids < fuel + length ordered)%nat ->
  exists order deg', kahn fuel adjacency ready deg ordered = Ok order /\
    kahn_inv (remaining order) order [] deg'.
Proof.
  revert ordered ready deg. induction fuel as [|f IH]; intros ordered ready deg Hi Hf.
  - exfalso. assert (length (ordered ++ ready) <= length ids)%nat.
    { apply submseteq_length, NoDup_submseteq; [apply Hi|]. intros v Hv. by apply (ki_zero _ _ _ _ Hi). }
    rewrite length_app in *. lia.
  - destruct ready as [|x ready]; simpl; [by eauto|].
    assert (Hx : x ∈ ids /\ indeg (remaining ordered) x = 0)
      by (apply (ki_zero _ _ _ _ Hi); set_solver).
    unfold lookup_key. rewrite adjacency_ok, decide_True by apply Hx. simpl.
    assert (Hxo : x ∉ ordered).
    { pose proof (ki_nodup _ _ _ _ Hi) as Hn. apply NoDup_app in Hn as (_ & Hn & _).
      intros H. apply (Hn x H). set_solver. }
    destruct (relax_all_inv (succs E x) (remaining (ordered ++ [x])) (ordered ++ [x]) ready deg x)
      as (r & dg & -> & Hi'); [|set_solver|].
    + apply (kahn_inv_perm _ _ _ _ _ (remaining_pop ordered x Hxo)).
      destruct Hi as [Hdeg Hnd Hz He Hp Ho].
      rewrite (cons_middle x ordered ready), app_assoc in Hnd, Ho.
      split; try done.
      * intros v. rewrite <- app_assoc. apply Hz.
      * intros a b Hab. destruct (He _ _ Hab); set_solver.
    + simpl. apply (IH _ _ _ Hi'). rewrite length_app. simpl. lia.
Qed.
End Kahn.

Lemma kahn_start ids E deg :
  (forall x, deg !! x = if decide (x ∈ ids) then Some (indeg E x) else None) -> NoDup ids ->
  (forall x y, (x, y) ∈ E -> x ∈ ids /\ y ∈ ids) ->
  kahn_inv ids E (remaining E []) [] (filter (fun k => deg !! k = Some 0) ids) deg.
Proof.
  intros Hdeg Hnd He.
  assert (HE : remaining E [] = E).
  { unfold remaining. clear. induction E as [|e E IH]; [done|].
    by rewrite filter_cons, IH, decide_True by set_solver. }
  rewrite HE. set (ready := filter _ ids).
  assert (Hr : forall v, v ∈ ready <-> v ∈ ids /\ indeg E v = 0).
  { intros v. unfold ready. rewrite list_elem_of_filter, Hdeg.
    destruct (decide (v ∈ ids)); [|split; intros [? ?]; done].
    split; [by intros [[= ?] ?]|by intros [? ->]]. }
  split; simpl; try done.
  - intros v Hv. by rewrite Hdeg, decide_True.
  - by apply NoDup_filter.
  - by left.
  - intros l1 y l2 Heq x Hx. exfalso.
    assert (Hy : y ∈ ready) by (rewrite Heq; set_solver).
    apply Hr in Hy as [_ Hy]. by eapply (indeg_zero E y).
Qed.

(** What [topological_order] computes on a definition whose ids are distinct. *)
Lemma topological_order_spec d o :
  NoDup (node_ids d) -> topological_order d = Ok o ->
  exists order,
    NoDup order /\ in_order (edge_list d) order /\
    (forall v, v ∈ order <-> v ∈ node_ids d /\ forall x, (x, v) ∈ edge_list d -> x ∈ order) /\
    (forall x y, (x, y) ∈ edge_list d -> x ∈ node_ids d /\ y ∈ node_ids d) /\
    o = if (length order =? length (nodes d))%nat then Some order else None.
Proof.
  intros Hnd H. unfold topological_order in H.
  destruct (build_graph d) as [[adj deg]|] eqn:Eg; [|done].
  apply build_graph_rep in Eg as (H1 & H2 & H3). cbn [fst snd] in *.
  cbn [mbind result_bind] in H. set (ready := filter _ _) in *.
  destruct (kahn_spec (node_ids d) (edge_list d) adj H1 H3 (S (length (nodes d))) [] ready deg)
    as (order & dg & Ek & Hi).
  - by apply kahn_start.
  - unfold node_ids. rewrite length_fmap. cbn [length]. lia.
  - rewrite Ek in H. injection H as <-. exists order.
    destruct Hi as [_ Hn Hz He Hp Ho]. rewrite app_nil_r in *.
    split; [done|]. split; [done|]. split; [|done].
    intros v. rewrite Hz, indeg_zero. split; intros [? Hv]; (split; [done|]); intros x Hx.
    + destruct (He _ _ Hx) as [Hp0|?]; [by destruct (Hv x)|done].
    + apply (proj1 (list_elem_of_filter _ _ _)) in Hx as [Hx Hxv]. simpl in Hx. by apply Hx, Hv.
Qed.
