(* ===== verification/WorkflowEngine.v ===== *)
(** * The workflow engine: [app/workflows/engine/executor.py]

    [WorkflowEngine.run]: validation, the topological loop over active nodes,
    the native nodes (input, condition, output) and the injected executors of
    the others.  The values of variables are Python objects the engine only
    converts ([PyValue]); the executors act on a world [W] that also carries
    the clocks. *)

From S2P Require Import Prelude Json Workflow.
Local Open Scope Z_scope.

(** What the engine uses of the objects it passes around: [None], strings,
    [str(x)], and [json.dumps] of a dictionary of them ([None] when it raises). *)
Class PyValue (Obj : Type) := {
  obj_none : Obj;
  obj_is_none : Obj -> bool;
  obj_of_str : pystr -> Obj;
  obj_str : Obj -> pystr;
  obj_dumps : list (pystr * Obj) -> option pystr
}.

Module NodeStatus.
Inductive t := PENDING | RUNNING | COMPLETED | FAILED.
#[global] Instance eq_dec : EqDecision t.
Proof. solve_decision. Defined.
End NodeStatus.

Module WorkflowRunStatus.
Inductive t := COMPLETED | FAILED.
#[global] Instance eq_dec : EqDecision t.
Proof. solve_decision. Defined.
End WorkflowRunStatus.

(** Instants in microseconds, durations in nanoseconds (before the rounding to
    hundredths of a millisecond). *)
Record NodeResult := mkNodeResult {
  nr_node_id : pystr;
  nr_type : NodeType.t;
  nr_status : NodeStatus.t;
  nr_started_at : Z;
  nr_duration : Z;
  nr_input_summary : option pystr;
  nr_output_summary : option pystr;
  nr_error : option pystr
}.

Section Engine.
Context {Obj W : Type} {PV : PyValue Obj}.

Record WorkflowRunResult := mkRunResult {
  wr_status : WorkflowRunStatus.t;
  wr_inputs : list (pystr * Obj);
  wr_output : Obj;
  wr_node_results : list NodeResult;
  wr_error : option pystr
}.

Record NodeOutput := mkNodeOutput {
  output : Obj;
  error : option pystr;
  input_summary : option pystr;
  output_summary : option pystr
}.

(** How executing a node ends; an exception is known by its text. *)
Inductive node_end :=
| NodeReturned (o : NodeOutput)
| NodeRaised (text : pystr)
| NodeCancelled.

Record engine_env := mkEngineEnv {
  node_executors : NodeType.t -> option (WorkflowNode -> list (pystr * Obj) -> W -> node_end * W);
  utc_now : W -> Z * W;
  monotonic : W -> Z * W
}.

(** The built-in [repr] on JSON values. *)
Context (repr : json -> pystr).
Context (env : engine_env).

Abbreviation vars := (list (pystr * Obj)).

(** [render_template] *)
Definition render_template (template : pystr) (variables : vars) : result workflow_error pystr :=
  sub_fuel (length template) (fun name =>
    match dict_get name variables with
    | None => Err (WorkflowValidationError (u "模板引用了未定义的变量：" ++ name))
    | Some v => Ok (obj_str v)
    end) template.

(** [evaluate_condition] *)
Definition evaluate_condition (expr : pystr) (variables : vars) : result workflow_error bool :=
  match parse_condition expr with
  | None =>
      invalid (u "条件表达式不合法：" ++ repr (JStr expr) ++ u "，仅支持："
               ++ sjoin (u " / ") _CONDITION_FORM_LABELS)
  | Some form =>
      let name := match form with Contains v _ | IsEmpty v | Equals v _ => v end in
      match dict_get name variables with
      | None => invalid (u "条件表达式引用了未定义的变量：" ++ name)
      | Some value =>
          Ok (match form with
              | Contains _ lit => contains_text lit (obj_str value)
              | IsEmpty _ => obj_is_none value || bool_decide (obj_str value = [])
              | Equals _ lit => bool_decide (obj_str value = lit)
              end)
      end
  end.

(** [_branches] *)
Definition _branches (n : WorkflowNode) : list (list (pystr * json)) :=
  match dict_get (u "branches") (config n) with
  | Some (JArr l) => omap (fun b => match b with JObj d => Some d | _ => None end) l
  | _ => []
  end.

Definition branch_condition (b : list (pystr * json)) : option json :=
  match dict_get (u "condition") b with Some JNull | None => None | Some c => Some c end.

Definition branch_target_str (b : list (pystr * json)) : result workflow_error pystr :=
  match dict_get (u "target") b with
  | Some t => Ok (str_of repr t)
  | None => Err (PyError (u "'target'"))
  end.

(** [_selected_target] *)
Fixpoint matching_branch (bs : list (list (pystr * json))) (variables : vars)
  : result workflow_error (option pystr) :=
  match bs with
  | [] => Ok None
  | b :: bs' =>
      match branch_condition b with
      | None => matching_branch bs' variables
      | Some c =>
          holds ← evaluate_condition (str_of repr c) variables;
          if holds : bool then Some <$> branch_target_str b else matching_branch bs' variables
      end
  end.

Definition default_branch (bs : list (list (pystr * json))) : option (list (pystr * json)) :=
  head (filter (fun b => branch_condition b = None) bs).

Definition _selected_target (n : WorkflowNode) (variables : vars) : result workflow_error pystr :=
  m ← matching_branch (_branches n) variables;
  match m with
  | Some target => Ok target
  | None =>
      match default_branch (_branches n) with
      | Some b => branch_target_str b
      | None => invalid (u "条件节点 " ++ id n ++ u " 没有匹配的分支，且未配置默认分支")
      end
  end.

(** [_branch_for_target] *)
Definition _branch_for_target (n : WorkflowNode) (target : pystr)
  : result workflow_error (list (pystr * json)) :=
  match head (filter (fun b => dict_get (u "target") b = Some (JStr target)) (_branches n)) with
  | Some b => Ok b
  | None => invalid (u "条件节点 " ++ id n ++ u " 找不到 target " ++ target ++ u " 对应的分支")
  end.

Definition starts_input (k : pystr) : bool := starts_with (u "input.") k.

(** [variables_inputs] *)
Definition variables_inputs (variables : vars) : vars :=
  foldl (fun d kv => if starts_input kv.1 then dict_set (drop 6 kv.1) kv.2 d else d) [] variables.

Definition summary (s : pystr) : pystr := truncate_summary s _SUMMARY_MAX_CHARS.

Definition of_result {A} (r : result workflow_error A) (k : A -> node_end) : node_end :=
  match r with Ok a => k a | Err e => NodeRaised (error_text e) end.

(** The native nodes of [_execute_node]. *)
Definition execute_input (variables : vars) : node_end :=
  match obj_dumps (variables_inputs variables) with
  | None => NodeRaised (u "TypeError")
  | Some text => NodeReturned (mkNodeOutput (obj_of_str text) None (Some (summary text)) (Some (summary text)))
  end.

Definition execute_condition (n : WorkflowNode) (variables : vars) : node_end :=
  of_result (_selected_target n variables) (fun selected =>
  of_result (_branch_for_target n selected) (fun branch =>
    let conditions := sjoin (u "; ") (str_of repr <$> omap branch_condition (_branches n)) in
    let branch_id := match dict_get (u "id") branch with Some i => str_of repr i | None => u "?" end in
    NodeReturned (mkNodeOutput (obj_of_str selected) None
      (Some (summary (if decide (conditions = []) then u "无条件分支" else conditions)))
      (Some (summary (u "选中分支 " ++ branch_id ++ u " → " ++ selected)))))).

Definition execute_output (n : WorkflowNode) (variables : vars) : node_end :=
  match dict_get (u "output_template") (config n) with
  | Some (JStr template) =>
      of_result (render_template template variables) (fun rendered =>
        NodeReturned (mkNodeOutput (obj_of_str rendered) None (Some (summary rendered))
                        (Some (summary rendered))))
  | _ => NodeRaised (u "output 节点 " ++ id n ++ u " 缺少 output_template 配置")
  end.

(** [_execute_node] *)
Definition _execute_node (n : WorkflowNode) (variables : vars) (w : W) : node_end * W :=
  match node_type n with
  | NodeType.INPUT => (execute_input variables, w)
  | NodeType.CONDITION => (execute_condition n variables, w)
  | NodeType.OUTPUT => (execute_output n variables, w)
  | t =>
      match node_executors env t with
      | None =>
          (NodeRaised (u "未注册 " ++ NodeType.value t ++ u " 类型的节点执行器（节点 " ++ id n ++ u "）"), w)
      | Some execute => execute n variables w
      end
  end.

(** [_build_result] *)
Definition _build_result (n : WorkflowNode) (started_at start : Z) (status : NodeStatus.t)
    (out : Obj) (err isum osum : option pystr) (w : W) : NodeResult * W :=
  let '(now, w) := monotonic env w in
  let completed := bool_decide (status = NodeStatus.COMPLETED) in
  let isum := if completed
              then Some (default (summary (dump_json_plain (JObj (config n)))) isum) else isum in
  let osum := if completed
              then Some (match osum with Some s => summary s | None => summary (obj_str out) end)
              else osum in
  (mkNodeResult (id n) (node_type n) status started_at (now - start) isum osum err, w).

(** [_failed] *)
Definition _failed (inputs : vars) (node_results : list NodeResult) (message : pystr)
  : WorkflowRunResult :=
  mkRunResult WorkflowRunStatus.FAILED inputs obj_none node_results (Some message).

(** [_descendants]: the recursion adds a node to [seen] before every call, so
    one more than the number of nodes is enough fuel. *)
Fixpoint _descendants (fuel : nat) (adjacency : gmap pystr (list pystr)) (node_id : pystr)
    (seen : gset pystr) : gset pystr :=
  match fuel with
  | O => seen
  | S f =>
      foldl (fun seen target =>
        if bool_decide (target ∈ seen) then seen
        else _descendants f adjacency target (seen ∪ {[target]}))
        seen (default [] (adjacency !! node_id))
  end.

(** The adjacency lists of [run]. *)
Definition build_adjacency (d : WorkflowDefinition) : result workflow_error (gmap pystr (list pystr)) :=
  let ids := node_ids d in
  m ← foldE (fun m e => update_key (fun l => l ++ [to_node e]) m (from_node e)) (dict_of [] ids) (edges d);
  foldE (fun m n =>
    if is_condition n then
      foldE (fun m b =>
        match branch_target ids (JObj b) with
        | Some t => update_key (fun l => l ++ [t]) m (id n)
        | None => Ok m
        end) m (_branches n)
    else Ok m) m (nodes d).

(** How [run] ends. *)
Inductive run_end :=
| Finished (r : WorkflowRunResult)
| RaisedError (e : workflow_error)
| Cancelled.

Record run_state := mkRunState {
  rs_variables : vars;
  rs_node_results : list NodeResult;
  rs_active : gset pystr;
  rs_output : Obj
}.

Definition find_node (d : WorkflowDefinition) (k : pystr) : option WorkflowNode :=
  last (filter (fun n => id n = k) (nodes d)).

(** What follows a node that returned an output without an error. *)
Definition after_node (d : WorkflowDefinition) (adjacency : gmap pystr (list pystr))
    (n : WorkflowNode) (o : NodeOutput) (nr : NodeResult) (st : run_state)
  : result workflow_error run_state :=
  let results := rs_node_results st ++ [nr] in
  match node_type n with
  | NodeType.OUTPUT => Ok (mkRunState (rs_variables st) results (rs_active st) (output o))
  | NodeType.CONDITION =>
      target ← _selected_target n (rs_variables st);
      Ok (mkRunState (rs_variables st) results
            ({[target]} ∪ _descendants (S (length (nodes d))) adjacency target ∅) (rs_output st))
  | _ =>
      Ok (mkRunState (dict_set (id n ++ u ".output") (obj_of_str (obj_str (output o))) (rs_variables st))
            results (rs_active st) (rs_output st))
  end.

(** One active node. *)
Definition run_node (d : WorkflowDefinition) (adjacency : gmap pystr (list pystr))
    (inputs : vars) (n : WorkflowNode) (st : run_state) (w : W) : (run_end + run_state) * W :=
  let '(started_at, w) := utc_now env w in
  let '(start, w) := monotonic env w in
  let fail text isum w :=
    let message := u "节点 " ++ id n ++ u " 执行失败：" ++ text in
    let '(nr, w) := _build_result n started_at start NodeStatus.FAILED obj_none (Some message) isum None w in
    (inl (Finished (_failed inputs (rs_node_results st ++ [nr]) message)), w) in
  match _execute_node n (rs_variables st) w with
  | (NodeCancelled, w) => (inl Cancelled, w)
  | (NodeRaised text, w) => fail text None w
  | (NodeReturned o, w) =>
      match error o with
      | Some text => fail text (input_summary o) w
      | None =>
          let '(nr, w) := _build_result n started_at start NodeStatus.COMPLETED (output o) None
                            (input_summary o) (output_summary o) w in
          match after_node d adjacency n o nr st with
          | Ok st => (inr st, w)
          | Err e => (inl (RaisedError e), w)
          end
      end
  end.

(** [for node_id in order.ordered_ids] *)
Fixpoint run_loop (d : WorkflowDefinition) (adjacency : gmap pystr (list pystr)) (inputs : vars)
    (order : list pystr) (st : run_state) (w : W) : run_end * W :=
  match order with
  | [] => (Finished (mkRunResult WorkflowRunStatus.COMPLETED inputs (rs_output st)
                       (rs_node_results st) None), w)
  | k :: order =>
      if bool_decide (k ∉ rs_active st) then run_loop d adjacency inputs order st w
      else
        match find_node d k with
        | None => (RaisedError (PyError (u "KeyError")), w)
        | Some n =>
            match run_node d adjacency inputs n st w with
            | (inl e, w) => (e, w)
            | (inr st, w) => run_loop d adjacency inputs order st w
            end
        end
  end.

Definition initial_variables (inputs : vars) : vars :=
  foldl (fun m kv => dict_set (u "input." ++ kv.1) kv.2 m) [] inputs.

(** [WorkflowEngine.run] *)
Definition run (d : WorkflowDefinition) (inputs : vars) (w : W) : run_end * W :=
  match
    _ ← validate_definition repr d;
    order ← topological_order d;
    match order with
    | None => invalid (u "定义存在环，不是 DAG")
    | Some order => adjacency ← build_adjacency d; Ok (order, adjacency)
    end
  with
  | Err e => (RaisedError e, w)
  | Ok (order, adjacency) =>
      run_loop d adjacency inputs order
        (mkRunState (initial_variables inputs) [] (list_to_set (node_ids d)) obj_none) w
  end.
End Engine.
Arguments engine_env : clear implicits.
