(* ===== verification/WorkflowGraph.v ===== *)
(** * The graph of a validated workflow

    Kahn's order is a topological order and exists exactly for graphs without
    cycles; what validation guarantees; the engine's adjacency lists and its
    depth-first search for descendants. *)

From stdpp Require Import relations.
From S2P Require Import Prelude Json Workflow WorkflowFacts WorkflowEngine.
Local Open Scope Z_scope.

(** ** The topological order *)

Lemma in_order_all E (ids order : list pystr) :
  (forall v, v ∈ order <-> v ∈ ids /\ forall x, (x, v) ∈ E -> x ∈ order) ->
  (forall x y, (x, y) ∈ E -> x ∈ ids /\ y ∈ ids) ->
  well_founded (edge_in E) -> forall v, v ∈ ids -> v ∈ order.
Proof.
  intros Hz He Hwf v. induction (Hwf v) as [v _ IH]. intros Hv. apply Hz. split; [done|].
  intros x Hx. apply IH; [done|]. by apply (He x v).
Qed.

Lemma in_order_wf E order :
  NoDup order -> in_order E order -> (forall x y, (x, y) ∈ E -> y ∈ order) -> well_founded (edge_in E).
Proof.
  intros Hnd Ho He.
  assert (H : forall l1 l2, order = l1 ++ l2 -> forall x, x ∈ l1 -> Acc (edge_in E) x).
  { induction l1 as [|y l1 IH] using rev_ind; intros l2 Heq x Hx; [set_solver|].
    rewrite <- app_assoc in Heq. simpl in Heq. apply elem_of_app in Hx as [Hx|Hx].
    - by eapply IH.
    - apply list_elem_of_singleton in Hx as ->. constructor. intros z Hz.
      eapply IH; [done|]. by eapply Ho. }
  intros x. constructor. intros y Hy.
  assert (Hyo : y ∈ order \/ y ∉ order) by (destruct (decide (y ∈ order)); auto).
  destruct Hyo as [Hyo|Hyo]; [by apply (H order []); rewrite ?app_nil_r|].
  constructor. intros z Hz. exfalso. by apply Hyo, (He z y).
Qed.

(** C30. On a definition with distinct node ids whose edges join existing nodes,
    [topological_order] returns an order exactly when the edges and branches
    form no cycle (are well-founded); the order lists every node once and every
    edge goes forward in it. *)
Theorem topological_order_correct d o :
  NoDup (node_ids d) -> topological_order d = Ok o ->
  (is_Some o <-> well_founded (edge_in (edge_list d))) /\
  (forall order, o = Some order -> order ≡ₚ node_ids d /\ in_order (edge_list d) order).
Proof.
  intros Hnd H. destruct (topological_order_spec _ _ Hnd H) as (order & Hno & Ho & Hz & He & ->).
  assert (Hlen : length (nodes d) = length (node_ids d)) by (unfold node_ids; by rewrite length_fmap).
  assert (Hsub : order ⊆+ node_ids d) by (apply NoDup_submseteq; [done|]; intros v; apply Hz).
  rewrite Hlen. destruct (length order =? length (node_ids d))%nat eqn:El.
  - apply Nat.eqb_eq in El.
    assert (Hp : order ≡ₚ node_ids d) by (apply submseteq_length_Permutation; [done|lia]).
    split; [|by intros ? [= <-]]. split; [intros _|by eauto].
    apply (in_order_wf _ order); [done..|]. intros x y Hxy. rewrite Hp. by apply (He x).
  - split; [|done]. split; [by intros [? ?]|]. intros Hwf. exfalso.
    apply Nat.eqb_neq in El. apply El, Permutation_length, NoDup_Permutation; [done..|].
    intros v. split; [by intros [? _]%Hz|]. by apply (in_order_all (edge_list d) (node_ids d)).
Qed.

Definition text_node (k : string) (t : NodeType.t) (c : list (pystr * json)) : WorkflowNode :=
  mkNode (u k) t c.
Definition demo_definition : WorkflowDefinition :=
  mkDefinition
    [text_node "start" NodeType.INPUT [];
     text_node "choice" NodeType.CONDITION
       [(u "branches", JArr
          [JObj [(u "id", JStr (u "yes")); (u "condition", JStr (u "{{input.q}} contains 'x'"));
                 (u "target", JStr (u "end"))];
           JObj [(u "id", JStr (u "no")); (u "target", JStr (u "other"))]])];
     text_node "end" NodeType.OUTPUT [(u "output_template", JStr (u "got {{start.output}}"))];
     text_node "other" NodeType.OUTPUT [(u "output_template", JStr (u "none"))]]
    [mkEdge (u "start") (u "choice")] 1.

Lemma topological_order_correct_witness :
  [u "start"; u "choice"; u "end"; u "other"] ≡ₚ node_ids demo_definition /\
  in_order (edge_list demo_definition) [u "start"; u "choice"; u "end"; u "other"].
Proof.
  apply (topological_order_correct demo_definition (Some [u "start"; u "choice"; u "end"; u "other"])).
  - apply (bool_decide_unpack _). vm_compute. exact I.
  - vm_compute. reflexivity.
  - reflexivity.
Defined.

(** ** What validation guarantees *)

Lemma duplicates_nil seen ids :
  duplicates seen ids = [] -> NoDup ids /\ forall k, k ∈ ids -> k ∉ seen.
Proof.
  revert seen. induction ids as [|k ids IH]; intros seen; simpl; [repeat constructor; set_solver|].
  case_bool_decide; [done|]. intros [Hn Hs]%IH. split; [|set_solver].
  constructor; [|done]. intros Hk. apply (Hs k Hk). set_solver.
Qed.

(** The dictionary [incoming] holds the predecessors. *)
Definition holds_preds (ids : list pystr) (E : list (pystr * pystr)) (m : gmap pystr (list pystr)) : Prop :=
  forall y, m !! y = if decide (y ∈ ids) then Some (preds E y) else None.

Lemma add_pred_rep ids E m x y m' :
  holds_preds ids E m -> update_key (fun l => l ++ [x]) m y = Ok m' -> holds_preds ids (E ++ [(x, y)]) m'.
Proof.
  intros Hm H. apply update_key_ok in H as (l & Hl & ->). rewrite Hm in Hl.
  case_decide; [|done]. simplify_eq. intros z. rewrite preds_app, preds_one.
  destruct (decide (y = z)) as [->|Hz].
  - by rewrite lookup_insert_eq, decide_True by done.
  - by rewrite lookup_insert_ne, Hm, app_nil_r by done.
Qed.

Lemma incoming_rep d m1 m2 :
  foldE (fun m e => update_key (fun l => l ++ [from_node e]) m (to_node e))
    (dict_of [] (node_ids d)) (edges d) = Ok m1 ->
  foldE (fun m n => es ← branch_edges (node_ids d) n;
    foldE (fun m e => update_key (fun l => l ++ [e.1]) m e.2) m es) m1 (nodes d) = Ok m2 ->
  holds_preds (node_ids d) (edge_list d) m2.
Proof.
  intros E1 H. unfold edge_list.
  assert (H1 : holds_preds (node_ids d) ((fun e => (from_node e, to_node e)) <$> edges d) m1).
  { apply (foldE_inv (fun pre m => holds_preds (node_ids d)
      ((fun e => (from_node e, to_node e)) <$> pre) m) _ _ _ _ E1).
    - intros y. by rewrite dict_of_lookup.
    - intros pre a s s' Hp Ha. rewrite fmap_app. by eapply add_pred_rep. }
  revert H. generalize (nodes d) as ns. intros ns H.
  apply (foldE_inv (fun pre m => holds_preds (node_ids d)
    (((fun e => (from_node e, to_node e)) <$> edges d) ++ mjoin (branch_list (node_ids d) <$> pre)) m)
    _ _ _ _ H); [by rewrite app_nil_r|].
  intros pre a s s' Hp Ha. rewrite fmap_app, join_app, app_assoc. simpl. rewrite app_nil_r.
  unfold branch_list at 2. destruct (branch_edges (node_ids d) a) as [es|]; [|done].
  apply (foldE_inv (fun pre' m => holds_preds (node_ids d) (_ ++ pre') m) _ _ _ _ Ha);
    [by rewrite app_nil_r|].
  intros pre' [x y] t t' Hq Hb. rewrite app_assoc. by eapply add_pred_rep.
Qed.

(** The facts about a validated definition the engine relies on. *)
Record valid_definition (repr : json -> pystr) (d : WorkflowDefinition) (order : list pystr) : Prop := {
  vd_nodup : NoDup (node_ids d);
  vd_topo : topological_order d = Ok (Some order);
  vd_unique : forall x x' y, (x, y) ∈ edge_list d -> (x', y) ∈ edge_list d -> x = x';
  vd_condition : forall n, n ∈ nodes d -> is_condition n = true ->
    _validate_condition_node repr (node_ids d) n = Ok tt
}.

Lemma validate_facts repr d :
  validate_definition repr d = Ok tt -> exists order, valid_definition repr d order.
Proof.
  unfold validate_definition. intros H.
  apply bind_ok in H as ([] & Edup & H). apply raise_if_ok, negb_false_iff, bool_decide_eq_true in Edup.
  apply duplicates_nil in Edup as [Hnd _].
  apply bind_ok in H as (? & _ & H). apply bind_ok in H as (? & _ & H).
  apply bind_ok in H as (? & _ & H). apply bind_ok in H as (? & _ & H).
  apply bind_ok in H as (? & _ & H). apply bind_ok in H as (m1 & E1 & H).
  apply bind_ok in H as (m2 & E2 & H). pose proof (incoming_rep d m1 m2 E1 E2) as Hm.
  apply bind_ok in H as ([] & E3 & H). apply bind_ok in H as ([order|] & Et & H); [|done].
  apply bind_ok in H as ([] & E4 & H).
  exists order. split; [done|done| |].
  - intros a b y Hx Hx'. apply foldE_check in E3. rewrite Forall_forall in E3.
    destruct (topological_order_spec d (Some order) Hnd Et) as (_ & _ & _ & _ & He & _).
    destruct (He _ _ Hx) as [_ Hy]. pose proof Hy as (n & -> & Hn)%list_elem_of_fmap.
    specialize (E3 n Hn). apply bind_ok in E3 as (l & El & E3).
    unfold lookup_key in El. rewrite Hm, decide_True in El by done. injection El as <-.
    apply raise_if_ok, Z.ltb_ge in E3. apply preds_mem in Hx, Hx'.
    destruct (preds (edge_list d) (id n)) as [|p [|q l]]; simpl in E3; [set_solver| |lia].
    set_solver.
  - intros n Hn Hc. apply foldE_check in E4. rewrite Forall_forall in E4.
    specialize (E4 n Hn). by rewrite Hc in E4.
Qed.

(** ** The engine's graph *)

Lemma branches_edges ids n l :
  is_condition n = true -> branch_edges ids n = Ok l ->
  l = (fun t => (id n, t)) <$> omap (fun b => branch_target ids (JObj b)) (_branches n).
Proof.
  intros Hc. unfold branch_edges, iter_branches, _branches. rewrite Hc.
  destruct (dict_get (u "branches") (config n)) as [[| | | |s|items|o]|]; try done.
  - intros [= <-]. simpl. f_equal. induction s as [|c s IH]; [done|exact IH].
  - intros [= <-]. f_equal. induction items as [|x items IH]; [done|].
    destruct x as [| | | | | |o]; try exact IH. cbn [omap list_omap] in *.
    destruct (branch_target ids (JObj o)); [by f_equal|done].
  - intros [= <-]. simpl. f_equal. induction o as [|c o IH]; [done|exact IH].
  - by intros [= <-].
Qed.

Definition holds_succs (ids : list pystr) (E : list (pystr * pystr)) (m : gmap pystr (list pystr)) : Prop :=
  forall x, m !! x = if decide (x ∈ ids) then Some (succs E x) else None.

Lemma add_succ_rep ids E m x y :
  holds_succs ids E m -> x ∈ ids ->
  exists m', update_key (fun l => l ++ [y]) m x = Ok m' /\ holds_succs ids (E ++ [(x, y)]) m'.
Proof.
  intros Hm Hx. unfold update_key, lookup_key. rewrite Hm, decide_True by done. simpl.
  eexists. split; [done|]. intros z. rewrite succs_app, succs_one.
  destruct (decide (x = z)) as [->|Hz].
  - by rewrite lookup_insert_eq, decide_True by done.
  - by rewrite lookup_insert_ne, Hm, app_nil_r by done.
Qed.

Lemma add_edges_succs ids E (es : list WorkflowEdge) m :
  holds_succs ids E m -> Forall (fun e => from_node e ∈ ids) es ->
  exists m', foldE (fun m e => update_key (fun l => l ++ [to_node e]) m (from_node e)) m es = Ok m' /\
    holds_succs ids (E ++ ((fun e => (from_node e, to_node e)) <$> es)) m'.
Proof.
  revert E m. induction es as [|e es IH]; intros E m Hm He; [rewrite app_nil_r; by eauto|].
  apply Forall_cons in He as [He1 He2].
  destruct (add_succ_rep ids E m (from_node e) (to_node e) Hm He1) as (m' & E1 & Hm').
  destruct (IH _ _ Hm' He2) as (m'' & E2 & Hm''). exists m''. cbn [foldE]. rewrite E1.
  split; [done|]. by rewrite <- app_assoc in Hm''.
Qed.

Lemma add_branches_succs ids E n bs m :
  holds_succs ids E m -> id n ∈ ids ->
  exists m', foldE (fun m b => match branch_target ids (JObj b) with
      | Some t => update_key (fun l => l ++ [t]) m (id n) | None => Ok m end) m bs = Ok m' /\
    holds_succs ids (E ++ ((fun t => (id n, t)) <$> omap (fun b => branch_target ids (JObj b)) bs)) m'.
Proof.
  revert E m. induction bs as [|b bs IH]; intros E m Hm Hn; [rewrite app_nil_r; by eauto|].
  cbn [foldE omap list_omap]. destruct (branch_target ids (JObj b)) as [t|]; [|by apply IH].
  destruct (add_succ_rep ids E m (id n) t Hm Hn) as (m' & E1 & Hm'). rewrite E1.
  destruct (IH _ _ Hm' Hn) as (m'' & E2 & Hm''). exists m''.
  split; [done|]. by rewrite <- app_assoc in Hm''.
Qed.

Lemma build_adjacency_rep d g :
  build_graph d = Ok g ->
  exists m, build_adjacency d = Ok m /\ holds_succs (node_ids d) (edge_list d) m.
Proof.
  intros Hg. pose proof (build_graph_rep _ _ Hg) as (_ & _ & He).
  assert (Hbr : forall n, n ∈ nodes d -> exists l, branch_edges (node_ids d) n = Ok l).
  { unfold build_graph in Hg. apply bind_ok in Hg as (g1 & _ & Hg). revert g1 Hg.
    induction (nodes d) as [|n ns IH]; intros g1 Hg k; [set_solver|].
    cbn [foldE] in Hg. destruct (branch_edges (node_ids d) n) as [l|] eqn:El; [|done].
    cbn [mbind result_bind] in Hg. destruct (foldE add_edge g1 l) as [g2|]; [|done].
    intros [->|Hk]%elem_of_cons; [by exists l|]. by apply (IH g2). }
  assert (Hid : forall n, n ∈ nodes d -> id n ∈ node_ids d) by (intros n Hn; by apply list_elem_of_fmap_2).
  unfold build_adjacency, edge_list in *.
  destruct (add_edges_succs (node_ids d) [] (edges d) (dict_of [] (node_ids d))) as (m1 & E1 & H1).
  { intros x. by rewrite dict_of_lookup. }
  { apply Forall_forall. intros e Hin. apply (He _ (to_node e)), elem_of_app. left.
    apply list_elem_of_fmap. by exists e. }
  rewrite E1. cbn [mbind result_bind]. rewrite app_nil_l in H1. clear E1 He Hg.
  revert m1 H1 Hbr Hid. generalize ((fun e => (from_node e, to_node e)) <$> edges d) as E.
  generalize (node_ids d) as ids. intros ids. induction (nodes d) as [|n ns IH]; intros E m1 H1 Hbr Hid.
  { exists m1. rewrite app_nil_r. done. }
  cbn [foldE]. destruct (Hbr n) as [l El]; [set_solver|].
  rewrite fmap_cons. cbn [mjoin list_join]. unfold branch_list at 1. rewrite El.
  destruct (is_condition n) eqn:Hc.
  - destruct (add_branches_succs ids E n (_branches n) m1 H1) as (m2 & E2 & H2); [apply Hid; set_solver|].
    rewrite E2. rewrite <- (branches_edges _ _ _ Hc El) in H2. rewrite app_assoc.
    apply IH; [done|intros; apply Hbr; set_solver|intros; apply Hid; set_solver].
  - unfold branch_edges in El. rewrite Hc in El. injection El as <-. rewrite app_nil_l.
    apply IH; [done|intros; apply Hbr; set_solver|intros; apply Hid; set_solver].
Qed.

(** *** Descendants *)

Lemma list_to_set_size_le (l : list pystr) : (size (list_to_set l : gset pystr) <= length l)%nat.
Proof.
  induction l as [|k l IH]; [done|]. cbn [list_to_set length].
  rewrite size_union_alt, size_singleton.
  assert (size (list_to_set l ∖ {[k]} : gset pystr) <= size (list_to_set l : gset pystr))%nat
    by (apply subseteq_size; set_solver).
  lia.
Qed.

Section Descendants.
Context (ids : list pystr) (E : list (pystr * pystr)) (adjacency : gmap pystr (list pystr)).
Hypothesis adj_ok : holds_succs ids E adjacency.
Hypothesis edges_ok : forall x y, (x, y) ∈ E -> x ∈ ids /\ y ∈ ids.

(** Every successor of [v] was seen. *)
Definition closed_at (seen : gset pystr) (v : pystr) : Prop := forall y, (v, y) ∈ E -> y ∈ seen.

Lemma descendants_spec fuel x seen :
  x ∈ ids -> (size (list_to_set ids ∖ seen) < fuel)%nat ->
  let r := _descendants fuel adjacency x seen in
  seen ⊆ r /\ (forall v, v ∈ r -> v ∈ seen \/ tc (edge_in E) x v) /\ closed_at r x /\
  (forall v, v ∈ r -> v ∉ seen -> closed_at r v).
Proof.
  revert x seen. induction fuel as [|f IH]; intros x seen Hx Hf; [lia|].
  assert (Hd : _descendants (S f) adjacency x seen =
    foldl (fun seen target => if bool_decide (target ∈ seen) then seen
      else _descendants f adjacency target (seen ∪ {[target]})) seen (succs E x)).
  { cbn [_descendants]. by rewrite adj_ok, decide_True by done. }
  rewrite Hd. clear Hd. cbv zeta.
  assert (Hts : forall y, y ∈ succs E x -> (x, y) ∈ E) by (intros y; apply succs_mem).
  assert (Hcl : forall y, (x, y) ∈ E -> y ∈ seen \/ y ∈ succs E x) by (intros y ?; right; by apply succs_mem).
  unfold closed_at at 1. revert Hts Hcl.
  enough (H : forall ts s, seen ⊆ s -> (forall y, y ∈ ts -> (x, y) ∈ E) ->
    (forall v, v ∈ s -> v ∈ seen \/ tc (edge_in E) x v) ->
    (forall v, v ∈ s -> v ∉ seen -> closed_at s v) ->
    let r := foldl (fun seen target => if bool_decide (target ∈ seen) then seen
        else _descendants f adjacency target (seen ∪ {[target]})) s ts in
    s ⊆ r /\ (forall y, y ∈ ts -> y ∈ r) /\ (forall v, v ∈ r -> v ∈ seen \/ tc (edge_in E) x v) /\
    (forall v, v ∈ r -> v ∉ seen -> closed_at r v)).
  { intros Hts Hcl. destruct (H (succs E x) seen) as (H1 & H2 & H3 & H4); [set_solver..|].
    split; [done|]. split; [done|]. split; [|done]. intros y Hy. destruct (Hcl y Hy); set_solver. }
  induction ts as [|t ts IHt]; intros s Hs Hts Hr Hc; [set_solver|]. cbn [foldl]. cbv zeta in *.
  case_bool_decide as Ht.
  { destruct (IHt s) as (H1 & H2 & H3 & H4); [done|set_solver|done..|].
    split; [done|]. split; [|done]. intros y [->|Hy]%elem_of_cons; set_solver. }
  assert (Hxt : (x, t) ∈ E) by (apply Hts; set_solver).
  destruct (IH t (s ∪ {[t]})) as (D1 & D2 & D3 & D4).
  { by apply (edges_ok x). }
  { assert (size (list_to_set ids ∖ (s ∪ {[t]})) < size (list_to_set ids ∖ seen))%nat; [|lia].
    apply subset_size. split; [set_solver|]. intros Hsub.
    assert (Hin : t ∈ list_to_set ids ∖ seen).
    { apply elem_of_difference. split; [apply elem_of_list_to_set; by apply (edges_ok x)|set_solver]. }
    apply Hsub in Hin. set_solver. }
  set (r1 := _descendants f adjacency t (s ∪ {[t]})) in *.
  destruct (IHt r1) as (H1 & H2 & H3 & H4).
  - set_solver.
  - set_solver.
  - intros v Hv. destruct (D2 v Hv) as [Hv'|Hv'].
    + apply elem_of_union in Hv' as [Hv'|Hv']; [by apply Hr|].
      apply elem_of_singleton in Hv' as ->. right. by apply tc_once.
    + right. by eapply tc_l.
  - intros v Hv Hvn y Hy. destruct (decide (v ∈ s)) as [Hvs|Hvs].
    + apply D1, elem_of_union. left. by apply (Hc v).
    + destruct (decide (v = t)) as [->|Hvt]; [by apply D3|].
      apply (D4 v Hv); [set_solver|done].
  - split; [set_solver|]. split; [|done]. intros y [->|Hy]%elem_of_cons; set_solver.
Qed.

(** The nodes [_descendants] finds are those a path of edges leads to. *)
Lemma descendants_tc x v :
  x ∈ ids -> v ∈ _descendants (S (length ids)) adjacency x ∅ <-> tc (edge_in E) x v.
Proof.
  intros Hx. destruct (descendants_spec (S (length ids)) x ∅ Hx) as (_ & H2 & H3 & H4).
  { rewrite difference_empty_L. pose proof (list_to_set_size_le ids). lia. }
  split; [intros Hv; destruct (H2 v Hv); set_solver|]. intros Hv.
  refine (tc_ind_r (fun v => v ∈ _descendants (S (length ids)) adjacency x ∅) x _ _ v Hv).
  - intros y Hy. by apply H3.
  - intros y z _ Hyz Hy. by apply (H4 y Hy); [set_solver|].
Qed.
End Descendants.

