(* ===== verification/WorkflowProps.v ===== *)
(** * Properties of the workflow engine

    The engine runs every node at most once, in topological order, after its
    predecessor, stops at the first failure and never escapes with an exception
    after validation; definitions survive serialization. *)

From stdpp Require Import relations.
From S2P Require Import Prelude Json Workflow WorkflowFacts WorkflowEngine WorkflowGraph.
Local Open Scope Z_scope.

(** *** The selected branch *)

Lemma check_branches_ok repr n ids bs b0 b1 :
  foldE (check_branch repr n ids) b0 bs = Ok b1 ->
  Forall (fun b => exists d t, b = JObj d /\ branch_target ids b = Some t) bs.
Proof.
  revert b0. induction bs as [|b bs IH]; intros b0 H; [constructor|]. cbn [foldE] in H.
  destruct (check_branch repr n ids b0 b) as [b2|] eqn:E; [|done]. constructor; [|by eapply IH].
  destruct b as [| | | | | |o]; try done. unfold check_branch in E.
  destruct (branch_target ids (JObj o)) as [t|]; [|done]. by exists o, t.
Qed.

Lemma target_str_edge repr n ids b t :
  _validate_condition_node repr ids n = Ok tt -> b ∈ _branches n ->
  branch_target_str repr b = Ok t ->
  t ∈ omap (fun b => branch_target ids (JObj b)) (_branches n).
Proof.
  intros Hv Hb Ht. apply list_elem_of_omap. exists b. split; [done|].
  unfold _validate_condition_node in Hv. unfold _branches in Hb.
  destruct (dict_get (u "branches") (config n)) as [[| | | | |l|]|];
    cbn [from_option Datatypes.id] in Hv; try done.
  assert (Hall : Forall (fun b => exists d t, b = JObj d /\ branch_target ids b = Some t) l).
  { destruct l as [|x l]; [done|].
    destruct (foldE (check_branch repr n ids) false (x :: l)) eqn:Ef; [|done].
    by eapply check_branches_ok. }
  apply list_elem_of_omap in Hb as (x & Hx & E). destruct x as [| | | | | |o]; try done.
  injection E as ->. rewrite Forall_forall in Hall.
  destruct (Hall _ Hx) as (? & t' & _ & Et). rewrite Et. unfold branch_target in Et.
  unfold branch_target_str in Ht. destruct (dict_get (u "target") b) as [[]|]; try done.
  case_bool_decide; [|done]. injection Et as <-. by injection Ht as <-.
Qed.

Section Engine.
Context {Obj W : Type} {PV : PyValue Obj} (repr : json -> pystr) (env : engine_env Obj W).

Lemma matching_branch_mem bs (vs : list (pystr * Obj)) t :
  matching_branch repr bs vs = Ok (Some t) -> exists b, b ∈ bs /\ branch_target_str repr b = Ok t.
Proof.
  induction bs as [|b bs IH]; cbn [matching_branch]; [done|].
  destruct (branch_condition b) as [c|].
  - intros H. apply bind_ok in H as ([|] & _ & H); [|apply IH in H as (b' & ? & ?); set_solver].
    exists b. split; [set_solver|]. destruct (branch_target_str repr b); [|done]. by injection H as ->.
  - intros H. apply IH in H as (b' & ? & ?). set_solver.
Qed.

Lemma selected_target_edge ids n (vs : list (pystr * Obj)) t :
  _validate_condition_node repr ids n = Ok tt -> is_condition n = true ->
  _selected_target repr n vs = Ok t -> (id n, t) ∈ branch_list ids n.
Proof.
  intros Hv Hc H. unfold _selected_target in H. apply bind_ok in H as (m & Hm & H).
  assert (Hb : exists b, b ∈ _branches n /\ branch_target_str repr b = Ok t).
  { destruct m as [t'|].
    - injection H as ->. by eapply matching_branch_mem.
    - destruct (default_branch (_branches n)) as [b|] eqn:Ed; [|done]. exists b. split; [|done].
      unfold default_branch in Ed. destruct (filter _ _) as [|b' l] eqn:Ef; [done|].
      injection Ed as ->. assert (Hin : b ∈ b :: l) by set_solver. rewrite <- Ef in Hin.
      by apply list_elem_of_filter in Hin as [_ ?]. }
  destruct Hb as (b & Hb & Ht). pose proof (target_str_edge _ _ _ _ _ Hv Hb Ht) as Hin.
  unfold branch_list. destruct (branch_edges ids n) as [l|] eqn:El.
  - rewrite (branches_edges _ _ _ Hc El). by apply list_elem_of_fmap_2.
  - exfalso. unfold branch_edges, iter_branches in El. rewrite Hc in El. unfold _branches in Hb.
    destruct (dict_get (u "branches") (config n)) as [[]|]; try done;
      by apply not_elem_of_nil in Hb.
Qed.

(** ** The loop of [run] *)

Definition completed (nr : NodeResult) : Prop := nr_status nr = NodeStatus.COMPLETED.

(** Every result whose node has a predecessor follows a completed result of it. *)
Definition after_predecessors (E : list (pystr * pystr)) (results : list NodeResult) : Prop :=
  forall l1 nr l2, results = l1 ++ nr :: l2 -> forall x, (x, nr_node_id nr) ∈ E ->
    exists nr', nr' ∈ l1 /\ nr_node_id nr' = x /\ completed nr'.

(** What is known between two iterations; [pre] was processed, [rest] was not. *)
Record loop_inv (d : WorkflowDefinition) (pre rest : list pystr) (st : run_state (Obj := Obj)) : Prop := {
  li_sub : (nr_node_id <$> rs_node_results st) `sublist_of` pre;
  li_done : Forall completed (rs_node_results st);
  li_after : after_predecessors (edge_list d) (rs_node_results st);
  li_active : forall x y, (x, y) ∈ edge_list d -> y ∈ rest -> y ∈ rs_active st ->
    x ∈ nr_node_id <$> rs_node_results st \/ (x ∈ rest /\ x ∈ rs_active st)
}.

(** How a run that passed validation may end. *)
Definition good_end (d : WorkflowDefinition) (order : list pystr) (r : WorkflowRunResult (Obj := Obj)) : Prop :=
  (nr_node_id <$> wr_node_results r) `sublist_of` order /\
  after_predecessors (edge_list d) (wr_node_results r) /\
  match wr_status r with
  | WorkflowRunStatus.COMPLETED => Forall completed (wr_node_results r) /\ wr_error r = None
  | WorkflowRunStatus.FAILED =>
      exists done_ last, wr_node_results r = done_ ++ [last] /\ Forall completed done_ /\
        nr_status last = NodeStatus.FAILED /\ nr_error last = wr_error r /\ is_Some (wr_error r) /\
        wr_output r = obj_none
  end.

Lemma after_snoc E results nr :
  after_predecessors E results -> Forall completed results ->
  (forall x, (x, nr_node_id nr) ∈ E -> x ∈ nr_node_id <$> results) ->
  after_predecessors E (results ++ [nr]).
Proof.
  intros Ha Hc Hp l1 nr0 l2 Heq x Hx. destruct l2 as [|z l2 _] using rev_ind.
  - apply app_inj_tail in Heq as [-> ->]. apply Hp in Hx as (nr' & -> & Hin)%list_elem_of_fmap.
    exists nr'. rewrite Forall_forall in Hc. eauto.
  - rewrite app_comm_cons, app_assoc in Heq. apply app_inj_tail in Heq as [-> _]. by eapply Ha.
Qed.

Lemma build_result_fields n t1 t2 s o e i os w :
  let nr := (_build_result env n t1 t2 s o e i os w).1 in
  nr_node_id nr = id n /\ nr_status nr = s /\ nr_error nr = e.
Proof. unfold _build_result. by destruct (monotonic env w). Qed.

(** A validated definition and its order. *)
Record ordered_definition (d : WorkflowDefinition) (order : list pystr) : Prop := {
  od_nodup : NoDup order;
  od_order : in_order (edge_list d) order;
  od_perm : order ≡ₚ node_ids d;
  od_edges : forall x y, (x, y) ∈ edge_list d -> x ∈ node_ids d /\ y ∈ node_ids d
}.

Lemma valid_ordered d order : valid_definition repr d order -> ordered_definition d order.
Proof.
  intros [Hnd Ht _ _]. destruct (topological_order_spec _ _ Hnd Ht) as (o & Hno & Ho & Hz & He & Heq).
  destruct (length o =? length (nodes d))%nat eqn:El; [|done]. injection Heq as ->.
  split; try done. apply Nat.eqb_eq in El. apply submseteq_length_Permutation.
  - apply NoDup_submseteq; [done|]. intros v. apply Hz.
  - unfold node_ids. rewrite length_fmap. lia.
Qed.

(** Nothing at or before a position is reachable from it. *)
Lemma edge_forward d order pre k rest a b :
  ordered_definition d order -> order = pre ++ k :: rest -> a ∈ k :: rest ->
  (a, b) ∈ edge_list d -> b ∈ rest.
Proof.
  intros [Hnd Ho Hp He] -> Ha Hab.
  assert (Hb : b ∈ pre ++ k :: rest) by (rewrite Hp; by apply (He a)).
  assert (Hna : a ∉ pre). { apply NoDup_app in Hnd as (_ & Hn & _). intros H. by apply (Hn a). }
  apply elem_of_app in Hb as [Hb|Hb].
  - apply list_elem_of_split in Hb as (l1 & l2 & ->). exfalso. apply Hna.
    rewrite <- app_assoc in Ho. apply elem_of_app. left. by eapply (Ho l1 b).
  - apply elem_of_cons in Hb as [->|Hb]; [|done]. exfalso. apply Hna. by eapply Ho.
Qed.

Lemma tc_forward d order pre k rest z :
  ordered_definition d order -> order = pre ++ k :: rest -> tc (edge_in (edge_list d)) k z -> z ∈ rest.
Proof.
  intros Ho Heq H. refine (tc_ind_r (fun z => z ∈ rest) k _ _ z H).
  - intros y Hy. eapply edge_forward; [done..| |exact Hy]. set_solver.
  - intros y y' _ Hy' Hy. eapply edge_forward; [done..| |exact Hy']. set_solver.
Qed.

Lemma preds_executed d order pre k rest (st : run_state (Obj := Obj)) x :
  ordered_definition d order -> order = pre ++ k :: rest -> loop_inv d pre (k :: rest) st ->
  k ∈ rs_active st -> (x, k) ∈ edge_list d -> x ∈ nr_node_id <$> rs_node_results st.
Proof.
  intros Ho Heq Hi Hk Hx.
  destruct (li_active _ _ _ _ Hi x k Hx ltac:(set_solver) Hk) as [?|[Hr _]]; [done|].
  exfalso. pose proof (edge_forward _ _ _ _ _ _ _ Ho Heq Hr Hx) as Hkr.
  destruct Ho as [Hnd _ _ _]. subst. apply NoDup_app in Hnd as (_ & _ & Hnd). by apply NoDup_cons in Hnd as [? _].
Qed.

(** The branch a condition selected becomes the active part of the graph. *)
Lemma select_active d order adjacency pre n rest t (done_ : list pystr) x y :
  valid_definition repr d order -> holds_succs (node_ids d) (edge_list d) adjacency ->
  order = pre ++ id n :: rest -> (id n, t) ∈ edge_list d -> id n ∈ done_ ->
  (x, y) ∈ edge_list d -> y ∈ rest ->
  y ∈ {[t]} ∪ _descendants (S (length (nodes d))) adjacency t ∅ ->
  x ∈ done_ \/ (x ∈ rest /\ x ∈ {[t]} ∪ _descendants (S (length (nodes d))) adjacency t ∅).
Proof.
  intros Hv Hadj Heq Ht Hdone Hxy Hy. pose proof (valid_ordered _ _ Hv) as Ho.
  assert (Hlen : length (nodes d) = length (node_ids d)) by (unfold node_ids; by rewrite length_fmap).
  assert (Hdesc : forall v, v ∈ _descendants (S (length (nodes d))) adjacency t ∅
                            <-> tc (edge_in (edge_list d)) t v).
  { intros v. rewrite Hlen. apply (descendants_tc (node_ids d)); [done|apply Ho|].
    by apply (od_edges _ _ Ho (id n)). }
  rewrite !elem_of_union, !elem_of_singleton, !Hdesc. intros [->|Hty].
  - left. by rewrite (vd_unique _ _ _ Hv _ _ _ Hxy Ht).
  - right. assert (Htx : x = t \/ tc (edge_in (edge_list d)) t x).
    { assert (Hinv : exists z, rtc (edge_in (edge_list d)) t z /\ edge_in (edge_list d) z y).
      { revert Hty. generalize y. refine (tc_ind_r _ t _ _).
        - intros z Hz. exists t. split; [constructor|done].
        - intros z z' Htz Hz' _. exists z. split; [by apply tc_rtc|done]. }
      destruct Hinv as (z & Hz & Hzy). rewrite (vd_unique _ _ _ Hv _ _ _ Hxy Hzy).
      apply rtc_tc in Hz as [->|?]; auto. }
    split; [|done]. apply (tc_forward d order pre (id n) rest); [done..|].
    destruct Htx as [->|Htx]; [by apply tc_once|by eapply tc_l].
Qed.

Lemma execute_condition_ok n (vs : list (pystr * Obj)) o :
  execute_condition repr n vs = NodeReturned o -> exists t, _selected_target repr n vs = Ok t.
Proof.
  unfold execute_condition. destruct (_selected_target repr n vs) as [t|]; [by exists t|done].
Qed.

Lemma continue_inv d pre n rest (st st' : run_state (Obj := Obj)) nr order :
  ordered_definition d order -> order = pre ++ id n :: rest ->
  loop_inv d pre (id n :: rest) st -> id n ∈ rs_active st ->
  nr_node_id nr = id n -> completed nr -> rs_node_results st' = rs_node_results st ++ [nr] ->
  (forall x y, (x, y) ∈ edge_list d -> y ∈ rest -> y ∈ rs_active st' ->
     x ∈ nr_node_id <$> rs_node_results st' \/ (x ∈ rest /\ x ∈ rs_active st')) ->
  loop_inv d (pre ++ [id n]) rest st'.
Proof.
  intros Ho Heq Hi Hk Hid Hc Hres Hact. split; [..|done]; rewrite Hres.
  - rewrite fmap_app. simpl. rewrite Hid. apply sublist_app; [apply Hi|done].
  - apply Forall_app. split; [apply Hi|by repeat constructor].
  - apply after_snoc; [apply Hi|apply Hi|]. rewrite Hid. intros x Hx. by eapply preds_executed.
Qed.

Lemma after_node_inv d adjacency n o nr (st : run_state (Obj := Obj)) pre rest order :
  valid_definition repr d order -> holds_succs (node_ids d) (edge_list d) adjacency ->
  order = pre ++ id n :: rest -> n ∈ nodes d -> id n ∈ rs_active st ->
  loop_inv d pre (id n :: rest) st -> nr_node_id nr = id n -> completed nr ->
  (node_type n = NodeType.CONDITION -> exists t, _selected_target repr n (rs_variables st) = Ok t) ->
  exists st', after_node repr d adjacency n o nr st = Ok st' /\ loop_inv d (pre ++ [id n]) rest st'.
Proof.
  intros Hv Hadj Heq Hn Hk Hi Hid Hc Hsel. pose proof (valid_ordered _ _ Hv) as Ho.
  destruct (decide (node_type n = NodeType.CONDITION)) as [Et|Et].
  - destruct (Hsel Et) as [t Ht]. unfold after_node. rewrite Et, Ht. cbn [mbind result_bind].
    eexists. split; [done|]. eapply continue_inv; [done..|].
    cbn [rs_node_results rs_active]. intros x y Hxy Hy.
    eapply select_active; [done..| |rewrite fmap_app; simpl; rewrite Hid; set_solver|done|done].
    assert (Hcond : is_condition n = true) by (by apply bool_decide_eq_true).
    unfold edge_list. apply elem_of_app. right. apply list_elem_of_join.
    exists (branch_list (node_ids d) n). split; [|by apply list_elem_of_fmap_2].
    by eapply selected_target_edge; [apply Hv| |].
  - assert (Hst : exists st', after_node repr d adjacency n o nr st = Ok st' /\
      rs_active st' = rs_active st /\ rs_node_results st' = rs_node_results st ++ [nr]).
    { unfold after_node. destruct (node_type n); try done; by eexists. }
    destruct Hst as (st' & -> & Ha & Hr). exists st'. split; [done|].
    eapply continue_inv; [done..|]. rewrite Ha, Hr. intros x y Hxy Hy Hya.
    destruct (li_active _ _ _ _ Hi x y Hxy ltac:(set_solver) Hya) as [?|[Hx Hxa]];
      rewrite fmap_app, elem_of_app; [by left; left|].
    apply elem_of_cons in Hx as [->|Hx]; [|by right]. left. right. simpl. rewrite Hid. set_solver.
Qed.

Lemma run_node_spec d adjacency inputs n (st : run_state (Obj := Obj)) (w : W) pre rest order :
  valid_definition repr d order -> holds_succs (node_ids d) (edge_list d) adjacency ->
  order = pre ++ id n :: rest -> n ∈ nodes d -> id n ∈ rs_active st ->
  loop_inv d pre (id n :: rest) st ->
  match run_node repr env d adjacency inputs n st w with
  | (inl (Finished r), _) => good_end d order r
  | (inl Cancelled, _) => True
  | (inl (RaisedError _), _) => False
  | (inr st', _) => loop_inv d (pre ++ [id n]) rest st'
  end.
Proof.
  intros Hv Hadj Heq Hn Hk Hi. pose proof (valid_ordered _ _ Hv) as Ho. unfold run_node.
  destruct (utc_now env w) as [t1 w1]. destruct (monotonic env w1) as [t2 w2].
  assert (Hfail : forall message isum w3,
    good_end d order (_failed inputs (rs_node_results st ++
      [(_build_result env n t1 t2 NodeStatus.FAILED obj_none (Some message) isum None w3).1]) message)).
  { intros message isum w3.
    destruct (build_result_fields n t1 t2 NodeStatus.FAILED obj_none (Some message) isum None w3) as (Hid & Hs & He).
    set (nr := (_build_result _ _ _ _ _ _ _ _ _ _).1) in *. clearbody nr. unfold good_end. cbn. split; [|split].
    - rewrite fmap_app. subst order. rewrite (cons_middle (id n) pre rest), app_assoc.
      apply sublist_inserts_r, sublist_app; [apply Hi|]. simpl. by rewrite Hid.
    - apply after_snoc; [apply Hi|apply Hi|]. rewrite Hid. intros x Hx. by eapply preds_executed.
    - exists (rs_node_results st), nr. split; [done|]. split; [apply Hi|].
      split; [done|]. split; [done|]. split; [by eexists|done]. }
  destruct (_execute_node repr env n (rs_variables st) w2) as [[o|text|] w3] eqn:Ee; [|cbv zeta|done].
  - destruct (error o) as [text|]; cbv zeta.
    + generalize (u "节点 " ++ id n ++ u " 执行失败：" ++ text) as message. intros message.
      specialize (Hfail message (input_summary o) w3). by destruct (_build_result env n t1 t2 NodeStatus.FAILED _ _ _ _ w3).
    + pose proof (build_result_fields n t1 t2 NodeStatus.COMPLETED (output o) None (input_summary o)
        (output_summary o) w3) as (Hid & Hs & _).
      destruct (_build_result env n t1 t2 NodeStatus.COMPLETED _ _ _ _ w3) as [nr w4]. simpl in Hid, Hs.
      destruct (after_node_inv d adjacency n o nr st pre rest order) as (st' & -> & Hi'); try done.
      intros Et. unfold _execute_node in Ee. rewrite Et in Ee. injection Ee as Ee _.
      by eapply execute_condition_ok.
  - generalize (u "节点 " ++ id n ++ u " 执行失败：" ++ text) as message. intros message.
    specialize (Hfail message None w3). by destruct (_build_result env n t1 t2 NodeStatus.FAILED _ _ _ _ w3).
Qed.

Lemma find_node_spec d k n : find_node d k = Some n -> n ∈ nodes d /\ id n = k.
Proof.
  unfold find_node. intros H. apply last_Some in H as [l Hl].
  assert (Hin : n ∈ filter (fun n => id n = k) (nodes d)) by (rewrite Hl; set_solver).
  by apply list_elem_of_filter in Hin as [? ?].
Qed.

Lemma find_node_some d k : k ∈ node_ids d -> is_Some (find_node d k).
Proof.
  intros (n & -> & Hn)%list_elem_of_fmap. unfold find_node. rewrite last_is_Some.
  intros Hf. assert (Hin : n ∈ filter (fun m => id m = id n) (nodes d)) by (by apply list_elem_of_filter).
  rewrite Hf in Hin. set_solver.
Qed.

Lemma run_loop_spec d adjacency inputs order rest :
  valid_definition repr d order -> holds_succs (node_ids d) (edge_list d) adjacency ->
  forall pre (st : run_state (Obj := Obj)) (w : W), order = pre ++ rest -> loop_inv d pre rest st ->
  match run_loop repr env d adjacency inputs rest st w with
  | (Finished r, _) => good_end d order r
  | (Cancelled, _) => True
  | (RaisedError _, _) => False
  end.
Proof.
  intros Hv Hadj. pose proof (valid_ordered _ _ Hv) as Ho.
  induction rest as [|k rest IH]; intros pre st w Heq Hi; cbn [run_loop].
  - rewrite app_nil_r in Heq. subst. unfold good_end. cbn. by destruct Hi.
  - case_bool_decide as Hk.
    + apply (IH (pre ++ [k])); [by rewrite <- app_assoc|]. destruct Hi as [H1 H2 H3 H4].
      split; try done; [by apply sublist_inserts_r|].
      intros x y Hxy Hy Hya. destruct (H4 x y Hxy) as [?|[Hx Hxa]]; [set_solver|done|by left|].
      right. split; [|done]. apply elem_of_cons in Hx as [->|?]; [done|done].
    + destruct (find_node d k) as [n|] eqn:En.
      * apply find_node_spec in En as [Hn <-].
        pose proof (run_node_spec d adjacency inputs n st w pre rest order Hv Hadj Heq Hn Hk Hi) as H.
        destruct (run_node repr env d adjacency inputs n st w) as [[[r|e|]|st'] w']; try done.
        apply (IH (pre ++ [id n])); [by rewrite <- app_assoc|done].
      * destruct (find_node_some d k) as [? ?]; [|congruence].
        rewrite <- (od_perm _ _ Ho), Heq. set_solver.
Qed.

Lemma start_inv d order (vs : list (pystr * Obj)) :
  valid_definition repr d order ->
  loop_inv d [] order (mkRunState vs [] (list_to_set (node_ids d)) obj_none).
Proof.
  intros Hv. pose proof (valid_ordered _ _ Hv) as Ho. split; cbn; [done|done| |].
  - intros [|? ?] ? ?; done.
  - intros x y Hxy Hy _. right. destruct (od_edges _ _ Ho _ _ Hxy) as [Hx _]. split.
    + by rewrite (od_perm _ _ Ho).
    + by apply elem_of_list_to_set.
Qed.

(** A validated definition runs to a result unless an executor is cancelled. *)
Lemma run_valid d inputs (w : W) :
  validate_definition repr d = Ok tt ->
  exists order w', topological_order d = Ok (Some order) /\
    (run repr env d inputs w = (Cancelled, w') \/
     exists r, run repr env d inputs w = (Finished r, w') /\ good_end d order r).
Proof.
  intros Ev. destruct (validate_facts _ _ Ev) as [order Hv]. pose proof (vd_topo _ _ _ Hv) as Ht.
  destruct (build_graph d) as [g|] eqn:Eg; [|unfold topological_order in Ht; by rewrite Eg in Ht].
  destruct (build_adjacency_rep _ _ Eg) as (m & Em & Hm).
  assert (Hrun : run repr env d inputs w = run_loop repr env d m inputs order
    (mkRunState (initial_variables inputs) [] (list_to_set (node_ids d)) obj_none) w).
  { unfold run. rewrite Ev. cbn [mbind result_bind]. rewrite Ht. cbn [mbind result_bind].
    by rewrite Em. }
  pose proof (run_loop_spec d m inputs order order Hv Hm [] 
    (mkRunState (initial_variables inputs) [] (list_to_set (node_ids d)) obj_none) w eq_refl) as H.
  rewrite Hrun. destruct (run_loop _ _ _ _ _ _ _ _) as [[r|e|] w'];
    [|exfalso; by apply H, start_inv|exists order, w'; by auto].
  exists order, w'. split; [done|]. right. exists r. split; [done|]. by apply H, start_inv.
Qed.

(** C29. A definition that fails validation is rejected before anything runs; a
    validated one always runs to a result unless an executor is cancelled: no
    [KeyError] or validation error leaves [run].  In the result every node ran
    at most once, in topological order, after its predecessor had completed; the
    run is COMPLETED exactly when all its nodes are, and otherwise its last node
    failed, alone, and no node ran after it. *)
Theorem run_correct d inputs (w : W) :
  (exists e, validate_definition repr d = Err e /\ run repr env d inputs w = (RaisedError e, w)) \/
  (validate_definition repr d = Ok tt /\
   exists order w', topological_order d = Ok (Some order) /\
     (run repr env d inputs w = (Cancelled, w') \/
      exists r, run repr env d inputs w = (Finished r, w') /\ good_end d order r)).
Proof.
  destruct (validate_definition repr d) as [[]|e] eqn:Ev.
  - right. split; [done|]. by apply run_valid.
  - left. exists e. split; [done|]. unfold run. by rewrite Ev.
Qed.
End Engine.

(** ** Serialization *)

Lemma of_str_value t : NodeType.of_str (NodeType.value t) = Some t.
Proof. by destruct t. Qed.

Lemma each_roundtrip {A} (f : json -> result workflow_error A) (g : A -> json) (l : list A) :
  (forall a, f (g a) = Ok a) -> each f (JArr (g <$> l)) = Ok l.
Proof.
  intros Hfg. unfold each. enough (H : forall acc,
    foldE (fun acc x => (fun a => acc ++ [a]) <$> f x) acc (g <$> l) = Ok (acc ++ l)) by apply (H []).
  induction l as [|a l IH]; intros acc; cbn [foldE fmap list_fmap]; [by rewrite app_nil_r|].
  rewrite Hfg. cbn [fmap result_fmap]. change (list_fmap _ _ g l) with (g <$> l).
  by rewrite IH, <- app_assoc.
Qed.

Section Back.
Context (repr : json -> pystr) (py_int : json -> option Z) (py_dict : json -> option (list (pystr * json))).
Context (Hdict : forall m, py_dict (JObj m) = Some m).

Lemma node_back n : node_from_dict repr py_dict (node_to_dict n) = Ok n.
Proof.
  destruct n as [i t c]. unfold node_from_dict, node_to_dict. cbn [node_type config id].
  change (getitem "id" _) with (Ok (E := workflow_error) (JStr i)). cbn [mbind result_bind].
  change (getitem "type" _) with (Ok (E := workflow_error) (JStr (NodeType.value t))).
  cbn [mbind result_bind str_of]. rewrite of_str_value.
  change (dict_get (u "config") _) with (Some (JObj c)). cbn [from_option Datatypes.id].
  assert (Hc : (if truthy (JObj c) then JObj c else JObj []) = JObj c) by (by destruct c).
  by rewrite Hc, Hdict.
Qed.

(** What [from_dict] makes of [to_dict] *)
Lemma definition_back d :
  (forall z, py_int (JInt z) = Some z) ->
  definition_from_dict repr py_int py_dict (definition_to_dict d) = Ok d.
Proof.
  intros Hint. destruct d as [ns es v].
  assert (He : forall e, edge_from_dict repr (edge_to_dict e) = Ok e) by (by intros [a b]).
  unfold definition_from_dict, definition_to_dict. cbn [nodes edges version].
  change (dict_get (u "nodes") _) with (Some (JArr (node_to_dict <$> ns))). cbn [from_option Datatypes.id].
  rewrite (each_roundtrip _ _ ns node_back). cbn [mbind result_bind].
  change (dict_get (u "edges") _) with (Some (JArr (edge_to_dict <$> es))). cbn [from_option Datatypes.id].
  rewrite (each_roundtrip _ _ es He). cbn [mbind result_bind].
  change (dict_get (u "version") _) with (Some (JInt v)). cbn [from_option Datatypes.id].
  by rewrite Hint.
Qed.
End Back.

(** A workflow definition survives being written to and read back from its
    dictionary form, for any [int] and [dict] built-ins that leave integers and
    dictionaries alone. *)
Theorem definition_roundtrip repr py_int py_dict d :
  (forall z, py_int (JInt z) = Some z) -> (forall m, py_dict (JObj m) = Some m) ->
  definition_from_dict repr py_int py_dict (definition_to_dict d) = Ok d.
Proof. intros Hint Hdict. by apply definition_back. Qed.

Definition demo_int (v : json) : option Z := match v with JInt z => Some z | _ => None end.
Definition demo_dict (v : json) : option (list (pystr * json)) :=
  match v with JObj d => Some d | _ => None end.

Lemma definition_roundtrip_witness :
  definition_from_dict dump_json demo_int demo_dict (definition_to_dict demo_definition)
  = Ok demo_definition.
Proof. apply (definition_roundtrip dump_json demo_int demo_dict); reflexivity. Defined.

(** ** What the engine does not check *)

(** Strings as the only objects. *)
#[local] Instance text_value : PyValue pystr := {
  obj_none := u "None";
  obj_is_none := fun s => bool_decide (s = u "None");
  obj_of_str := fun s => s;
  obj_str := fun s => s;
  obj_dumps := fun d => Some (dump_json_plain (JObj ((fun kv => (kv.1, JStr kv.2)) <$> d)))
}.

Definition still_env : engine_env pystr unit :=
  mkEngineEnv (fun _ => None) (fun w => (0, w)) (fun w => (0, w)).

(** Two trees: a condition and, beside it, an input wired to an output. *)
Definition two_trees : WorkflowDefinition :=
  mkDefinition
    [text_node "start" NodeType.INPUT [];
     text_node "choice" NodeType.CONDITION
       [(u "branches", JArr [JObj [(u "target", JStr (u "first"))]])];
     text_node "first" NodeType.OUTPUT [(u "output_template", JStr (u "one"))];
     text_node "second" NodeType.INPUT [];
     text_node "last" NodeType.OUTPUT [(u "output_template", JStr (u "two"))]]
    [mkEdge (u "start") (u "choice"); mkEdge (u "second") (u "last")] 1.

(** Choosing a branch also deactivates every node that is not below it: in a
    valid definition of two separate trees the output of the other tree never
    runs, and the run is COMPLETED all the same. *)
Theorem condition_drops_other_trees :
  validate_definition dump_json two_trees = Ok tt /\
  exists r, run dump_json still_env two_trees [] tt = (Finished r, tt) /\
    wr_status r = WorkflowRunStatus.COMPLETED /\
    nr_node_id <$> wr_node_results r = [u "start"; u "second"; u "choice"; u "first"] /\
    u "last" ∉ nr_node_id <$> wr_node_results r.
Proof.
  split; [vm_compute; reflexivity|]. eexists. split; [vm_compute; reflexivity|].
  split; [vm_compute; reflexivity|]. split; [vm_compute; reflexivity|].
  apply (bool_decide_unpack _). vm_compute. exact I.
Qed.

(** The branches of a condition that are [null]. *)
Definition null_branches : WorkflowDefinition :=
  mkDefinition
    [text_node "start" NodeType.INPUT [];
     text_node "choice" NodeType.CONDITION [(u "branches", JNull)];
     text_node "end" NodeType.OUTPUT [(u "output_template", JStr (u "one"))]]
    [mkEdge (u "start") (u "choice")] 1.

(** Branches that are no array make validation raise [TypeError] instead of
    the [WorkflowValidationError] it has for them. *)
Theorem null_branches_type_error :
  validate_definition dump_json null_branches = Err (PyError (u "TypeError")).
Proof. vm_compute. reflexivity. Qed.
