(* ===== verification/Billing.v ===== *)
(** * Billing: [app/billing]

    Plans and subscriptions ([models.py]), the repository interface as a type
    class with the laws its clients rely on, the in-memory repository
    ([memory_repository.py]), the entitlement checks ([entitlement.py]), the
    subscription lifecycle ([service.py]) and the seeded plans ([seeds.py]).
    Instants are microseconds; the random id of a new subscription is an
    argument. *)

From S2P Require Import Prelude.
Local Open Scope Z_scope.

Module SubscriptionStatus.
Inductive t := ACTIVE | TRIAL | EXPIRED | CANCELLED.
#[global] Instance eq_dec : EqDecision t.
Proof. solve_decision. Defined.
End SubscriptionStatus.

Definition ACTIVE_SUBSCRIPTION_STATUSES : list SubscriptionStatus.t :=
  [SubscriptionStatus.ACTIVE; SubscriptionStatus.TRIAL].

Record Plan := mkPlan {
  plan_id : pystr;
  plan_name : pystr;
  plan_version : Z;
  daily_token_limit : option Z;
  monthly_token_limit : option Z;
  max_agents : option Z;
  max_documents : option Z;
  max_members : option Z;
  features : list (pystr * bool)
}.

Record Subscription := mkSubscription {
  sub_id : pystr;
  sub_workspace_id : pystr;
  sub_plan_id : pystr;
  sub_status : SubscriptionStatus.t;
  sub_started_at : option Z;
  sub_expired_at : option Z
}.

Definition is_active (s : Subscription) : bool :=
  bool_decide (sub_status s ∈ ACTIVE_SUBSCRIPTION_STATUSES).

(** ** The repository interface *)
Class BillingRepository (R : Type) := {
  repo_seed_plan : Plan -> R -> Plan * R;
  repo_list_plans : R -> list Plan;
  repo_get_plan : pystr -> R -> option Plan;
  repo_create_subscription : Subscription -> R -> R;
  repo_update_subscription : Subscription -> R -> option Subscription * R;
  repo_get_subscription_for_workspace : pystr -> R -> option Subscription
}.

(** What every client relies on: one current subscription per workspace. *)
Class BillingLaws (R : Type) {B : BillingRepository R} := {
  repo_ok : R -> Prop;
  repo_fresh : pystr -> R -> Prop;
  law_create_ok s r : repo_ok r -> repo_fresh (sub_id s) r -> repo_ok (repo_create_subscription s r);
  law_get_create s r ws : repo_ok r -> repo_fresh (sub_id s) r ->
    repo_get_subscription_for_workspace ws (repo_create_subscription s r) =
    if decide (ws = sub_workspace_id s) then Some s else repo_get_subscription_for_workspace ws r;
  law_create_plans s r p : repo_get_plan p (repo_create_subscription s r) = repo_get_plan p r;
  law_sub_workspace r ws s : repo_ok r -> repo_get_subscription_for_workspace ws r = Some s ->
    sub_workspace_id s = ws;
  law_update r ws s s' : repo_ok r -> repo_get_subscription_for_workspace ws r = Some s ->
    sub_id s' = sub_id s -> sub_workspace_id s' = ws ->
    let '(o, r') := repo_update_subscription s' r in
    o = Some s' /\ repo_ok r' /\ (forall p, repo_get_plan p r' = repo_get_plan p r) /\
    (forall ws', repo_get_subscription_for_workspace ws' r' =
       if decide (ws' = ws) then Some s' else repo_get_subscription_for_workspace ws' r)
}.

(** ** The in-memory repository *)
Record InMemoryBillingRepository := mkBillingRepo {
  _plans_by_id : list (pystr * Plan);
  _plans_by_name : list (pystr * Plan);
  _subscriptions_by_id : list (pystr * Subscription);
  _subscription_workspace_ids : list (pystr * pystr)
}.

(** [__init__] *)
Definition InMemoryBillingRepository_init (plans : list Plan) : InMemoryBillingRepository :=
  mkBillingRepo (foldl (fun d p => dict_set (plan_id p) p d) [] plans)
    (foldl (fun d p => dict_set (plan_name p) p d) [] plans) [] [].

Definition seed_plan (plan : Plan) (r : InMemoryBillingRepository) : Plan * InMemoryBillingRepository :=
  match dict_get (plan_name plan) (_plans_by_name r) with
  | Some existing => (existing, r)
  | None =>
      (plan, mkBillingRepo (dict_set (plan_id plan) plan (_plans_by_id r))
               (dict_set (plan_name plan) plan (_plans_by_name r))
               (_subscriptions_by_id r) (_subscription_workspace_ids r))
  end.

Definition list_plans (r : InMemoryBillingRepository) : list Plan := (_plans_by_id r).*2.
Definition get_plan (p : pystr) (r : InMemoryBillingRepository) : option Plan :=
  dict_get p (_plans_by_id r).

Definition create_subscription (s : Subscription) (r : InMemoryBillingRepository)
  : InMemoryBillingRepository :=
  mkBillingRepo (_plans_by_id r) (_plans_by_name r)
    (dict_set (sub_id s) s (_subscriptions_by_id r))
    (dict_set (sub_workspace_id s) (sub_id s) (_subscription_workspace_ids r)).

Definition update_subscription (s : Subscription) (r : InMemoryBillingRepository)
  : option Subscription * InMemoryBillingRepository :=
  if dict_has (sub_id s) (_subscriptions_by_id r) then (Some s, create_subscription s r) else (None, r).

Definition get_subscription_for_workspace (ws : pystr) (r : InMemoryBillingRepository)
  : option Subscription :=
  subscription_id ← dict_get ws (_subscription_workspace_ids r);
  dict_get subscription_id (_subscriptions_by_id r).

Definition list_subscriptions (p : option pystr) (status : option SubscriptionStatus.t)
    (r : InMemoryBillingRepository) : list Subscription :=
  filter (fun s => match p with Some x => bool_decide (sub_plan_id s = x) | None => true end &&
                   match status with Some x => bool_decide (sub_status s = x) | None => true end)
    (_subscriptions_by_id r).*2.

#[export] Instance memory_billing : BillingRepository InMemoryBillingRepository := {
  repo_seed_plan := seed_plan;
  repo_list_plans := list_plans;
  repo_get_plan := get_plan;
  repo_create_subscription := create_subscription;
  repo_update_subscription := update_subscription;
  repo_get_subscription_for_workspace := get_subscription_for_workspace
}.

(** ** Clients *)

Inductive ValidationError := mkValidationError (message : pystr).

Section Clients.
Context {R : Type} {B : BillingRepository R}.

(** *** [EntitlementService] *)

Definition _plan_for_workspace (ws : pystr) (r : R) : option Plan :=
  match repo_get_subscription_for_workspace ws r with
  | None => None
  | Some s => if negb (is_active s) then None else repo_get_plan (sub_plan_id s) r
  end.

Definition check_feature (ws feature : pystr) (r : R) : bool :=
  match _plan_for_workspace ws r with
  | None => true
  | Some plan => default false (dict_get feature (features plan))
  end.

(** The exceptions of the limit checks. *)
Inductive limit_error :=
| UnknownResource
| LimitReached (e : ValidationError).

(** [_limit_for] *)
Definition _limit_for (plan : Plan) (resource : pystr) : result limit_error (option Z) :=
  if decide (resource = u "agent") then Ok (max_agents plan)
  else if decide (resource = u "document") then Ok (max_documents plan)
  else if decide (resource = u "member") then Ok (max_members plan)
  else Err UnknownResource.

Definition check_limit (ws resource : pystr) (current_count : Z) (r : R) : result limit_error bool :=
  match _plan_for_workspace ws r with
  | None => Ok true
  | Some plan =>
      limit ← _limit_for plan resource;
      Ok (match limit with None => true | Some n => current_count <? n end)
  end.

Definition require_limit (ws resource : pystr) (current_count : Z) (r : R) : result limit_error unit :=
  match _plan_for_workspace ws r with
  | None => Ok tt
  | Some plan =>
      limit ← _limit_for plan resource;
      match limit with
      | None => Ok tt
      | Some n =>
          if current_count <? n then Ok tt
          else Err (LimitReached (mkValidationError
                 (u "已达 " ++ plan_name plan ++ u " 计划上限（" ++ resource ++ u " " ++ str_of_Z n ++ u "）。")))
      end
  end.

(** *** [PlanService.assign_plan] *)
Definition assign_plan (ws p : pystr) (status : SubscriptionStatus.t) (new_id : pystr) (now : Z) (r : R)
  : result ValidationError Subscription * R :=
  match repo_get_plan p r with
  | None => (Err (mkValidationError (u "Plan '" ++ p ++ u "' not found.")), r)
  | Some _ =>
      let active := bool_decide (status ∈ ACTIVE_SUBSCRIPTION_STATUSES) in
      match repo_get_subscription_for_workspace ws r with
      | None =>
          let s := mkSubscription new_id ws p status (Some now) (if active then None else Some now) in
          (Ok s, repo_create_subscription s r)
      | Some existing =>
          let expired_at :=
            if active then None
            else match sub_expired_at existing with None => Some now | Some e => Some e end in
          let updated := mkSubscription (sub_id existing) (sub_workspace_id existing) p status
                           (sub_started_at existing) expired_at in
          match repo_update_subscription updated r with
          | (None, r') => (Err (mkValidationError (u "Subscription no longer exists.")), r')
          | (Some s, r') => (Ok s, r')
          end
      end
  end.

(** *** Seeds *)
Definition FREE_PLAN_ID : pystr := u "10000000-0000-0000-0000-000000000001".
Definition PRO_PLAN_ID : pystr := u "10000000-0000-0000-0000-000000000002".
Definition ENTERPRISE_PLAN_ID : pystr := u "10000000-0000-0000-0000-000000000003".

Definition build_seed_plans : list Plan :=
  [mkPlan FREE_PLAN_ID (u "free") 1 None (Some 100000) (Some 3) (Some 5) None
     [(u "reranker", false); (u "benchmark", false)];
   mkPlan PRO_PLAN_ID (u "pro") 1 None (Some 10000000) (Some 50) (Some 100) None
     [(u "reranker", true); (u "benchmark", true)];
   mkPlan ENTERPRISE_PLAN_ID (u "enterprise") 1 None None None None None
     [(u "reranker", true); (u "benchmark", true)]].

(** [seed_billing_plans] *)
Definition seed_billing_plans (r : R) : R :=
  foldl (fun r p => (repo_seed_plan p r).2) r build_seed_plans.
End Clients.

(** ** The in-memory repository keeps the promises *)

(** A workspace points to a stored subscription of its own. *)
Definition memory_ok (r : InMemoryBillingRepository) : Prop :=
  forall ws i, dict_get ws (_subscription_workspace_ids r) = Some i ->
    exists s, dict_get i (_subscriptions_by_id r) = Some s /\ sub_workspace_id s = ws /\ sub_id s = i.

Lemma memory_create_ok s r :
  memory_ok r -> dict_get (sub_id s) (_subscriptions_by_id r) = None -> memory_ok (create_subscription s r).
Proof.
  intros Hr Hf ws i. simpl. rewrite !dict_get_set. case_decide as Hws.
  - intros [= <-]. exists s. by rewrite decide_True.
  - intros Hi. destruct (Hr _ _ Hi) as (s' & Hs' & ? & ?). exists s'.
    rewrite decide_False; [done|]. congruence.
Qed.

Lemma memory_get_create s r ws :
  memory_ok r -> dict_get (sub_id s) (_subscriptions_by_id r) = None ->
  get_subscription_for_workspace ws (create_subscription s r) =
  if decide (ws = sub_workspace_id s) then Some s else get_subscription_for_workspace ws r.
Proof.
  intros Hr Hf. unfold get_subscription_for_workspace. simpl. rewrite dict_get_set. case_decide as Hws.
  - simpl. by rewrite dict_get_set, decide_True.
  - destruct (dict_get ws (_subscription_workspace_ids r)) as [i|] eqn:Ei; [|done]. simpl.
    rewrite dict_get_set, decide_False; [done|]. intros ->.
    destruct (Hr _ _ Ei) as (? & ? & _). congruence.
Qed.

Lemma memory_get_inv r ws s :
  memory_ok r -> get_subscription_for_workspace ws r = Some s ->
  sub_workspace_id s = ws /\ dict_get ws (_subscription_workspace_ids r) = Some (sub_id s) /\
  dict_get (sub_id s) (_subscriptions_by_id r) = Some s.
Proof.
  unfold get_subscription_for_workspace. intros Hr H.
  destruct (dict_get ws (_subscription_workspace_ids r)) as [i|] eqn:Ei; [|done]. simpl in H.
  destruct (Hr _ _ Ei) as (s' & Hs' & ? & <-). by simplify_eq.
Qed.

Lemma memory_update r ws s s' :
  memory_ok r -> get_subscription_for_workspace ws r = Some s ->
  sub_id s' = sub_id s -> sub_workspace_id s' = ws ->
  let '(o, r') := update_subscription s' r in
  o = Some s' /\ memory_ok r' /\ (forall p, get_plan p r' = get_plan p r) /\
  (forall ws', get_subscription_for_workspace ws' r' =
     if decide (ws' = ws) then Some s' else get_subscription_for_workspace ws' r).
Proof.
  intros Hr Hg Hid Hws. destruct (memory_get_inv _ _ _ Hr Hg) as (Hs & Hi & Hd).
  unfold update_subscription, dict_has. rewrite Hid, Hd. split; [done|].
  assert (Hother : forall ws' i, ws' <> ws -> dict_get ws' (_subscription_workspace_ids r) = Some i ->
    i <> sub_id s).
  { intros ws' i Hne Hi' ->. destruct (Hr _ _ Hi') as (x & Hx & ? & _). congruence. }
  split; [|split; [done|]].
  - intros ws' i. simpl. rewrite !dict_get_set. case_decide as He.
    + intros [= <-]. exists s'. rewrite decide_True by done. split; [done|].
      split; [congruence|done].
    + intros Hi'. destruct (Hr _ _ Hi') as (x & Hx & ? & ?). exists x.
      rewrite decide_False; [done|]. rewrite Hid. apply (Hother ws'); congruence.
  - intros ws'. unfold get_subscription_for_workspace. simpl. rewrite dict_get_set, Hws.
    case_decide as He; simpl; [by rewrite dict_get_set, decide_True by done|].
    destruct (dict_get ws' (_subscription_workspace_ids r)) as [i|] eqn:Ei; [|done]. simpl.
    rewrite dict_get_set, decide_False; [done|]. rewrite Hid. by apply (Hother ws').
Qed.

#[export] Instance memory_billing_laws : BillingLaws InMemoryBillingRepository.
Proof.
  refine {| repo_ok := memory_ok;
            repo_fresh := fun i r => dict_get i (_subscriptions_by_id r) = None |}.
  - exact memory_create_ok.
  - exact memory_get_create.
  - done.
  - intros r ws s Hr Hs. by apply memory_get_inv in Hs as [? _].
  - exact memory_update.
Defined.

(** ** Properties, against the interface *)

Section Laws.
Context {R : Type} {B : BillingRepository R} {L : BillingLaws R}.

(** Over any repository that keeps its promises, assigning an existing plan
    to a workspace leaves exactly that workspace with exactly that plan and
    status (new or updated, keeping id and start), keeps every other workspace
    and the repository's invariant, and the entitlement checks see the plan
    when the status is active and no plan at all otherwise. *)
Theorem assign_plan_correct ws p plan status new_id now (r : R) :
  repo_ok r -> repo_fresh new_id r -> repo_get_plan p r = Some plan ->
  exists s r', assign_plan ws p status new_id now r = (Ok s, r') /\ repo_ok r' /\
    sub_plan_id s = p /\ sub_status s = status /\
    (sub_expired_at s = None <-> status ∈ ACTIVE_SUBSCRIPTION_STATUSES) /\
    (forall old, repo_get_subscription_for_workspace ws r = Some old ->
       sub_id s = sub_id old /\ sub_started_at s = sub_started_at old) /\
    (forall ws', repo_get_subscription_for_workspace ws' r' =
       if decide (ws' = ws) then Some s else repo_get_subscription_for_workspace ws' r) /\
    _plan_for_workspace ws r' = (if is_active s then Some plan else None).
Proof.
  intros Hr Hf Hp. unfold assign_plan. rewrite Hp.
  set (active := bool_decide (status ∈ ACTIVE_SUBSCRIPTION_STATUSES)).
  assert (Ha : forall s, sub_status s = status -> is_active s = active) by (by intros s <-).
  assert (Hact : active = true <-> status ∈ ACTIVE_SUBSCRIPTION_STATUSES) by apply bool_decide_eq_true.
  destruct (repo_get_subscription_for_workspace ws r) as [old|] eqn:Eg.
  - set (s := mkSubscription (sub_id old) _ _ _ _ _).
    pose proof (law_sub_workspace r ws old Hr Eg) as Hws.
    pose proof (law_update r ws old s Hr Eg eq_refl Hws) as H.
    destruct (repo_update_subscription s r) as [o r']. destruct H as (-> & Hr' & Hpl & Hget).
    exists s, r'. split; [done|]. split; [done|]. split; [done|]. split; [done|]. split; [|split].
    + unfold s; simpl. destruct active; [naive_solver|]. destruct (sub_expired_at old); naive_solver.
    + by intros ? [= <-].
    + split; [done|]. unfold _plan_for_workspace. rewrite Hget, decide_True by done.
      rewrite (Ha s eq_refl), Hpl. simpl. rewrite Hp. by destruct active.
  - set (s := mkSubscription new_id ws p status (Some now) _).
    exists s, (repo_create_subscription s r). split; [done|].
    split; [by apply law_create_ok|]. split; [done|]. split; [done|]. split; [|split; [done|]].
    + unfold s; simpl. destruct active; naive_solver.
    + assert (Hget : forall ws', repo_get_subscription_for_workspace ws' (repo_create_subscription s r) =
        if decide (ws' = ws) then Some s else repo_get_subscription_for_workspace ws' r)
        by (intros ws'; by rewrite law_get_create).
      split; [done|]. unfold _plan_for_workspace. rewrite Hget, decide_True by done.
      rewrite (Ha s eq_refl), law_create_plans. simpl. rewrite Hp. by destruct active.
Qed.
End Laws.

Definition seeded : InMemoryBillingRepository := seed_billing_plans (InMemoryBillingRepository_init []).

Lemma assign_plan_correct_witness :
  exists s r', assign_plan (u "ws") (u "10000000-0000-0000-0000-000000000001")
      SubscriptionStatus.TRIAL (u "s1") 5 seeded = (Ok s, r') /\ memory_ok r'.
Proof.
  destruct (assign_plan_correct (u "ws") (u "10000000-0000-0000-0000-000000000001")
    (mkPlan FREE_PLAN_ID (u "free") 1 None (Some 100000) (Some 3) (Some 5) None
       [(u "reranker", false); (u "benchmark", false)]) SubscriptionStatus.TRIAL (u "s1") 5 seeded)
    as (s & r' & E & Hr' & _).
  - intros ws i H. vm_compute in H. discriminate H.
  - vm_compute. reflexivity.
  - vm_compute. reflexivity.
  - exists s, r'. split; [exact E|exact Hr'].
Defined.

Definition has_plan (p : Plan) (r : InMemoryBillingRepository) : Prop :=
  is_Some (dict_get (plan_name p) (_plans_by_name r)).

Lemma seed_has p r : has_plan p (seed_plan p r).2.
Proof.
  unfold has_plan, seed_plan. destruct (dict_get (plan_name p) (_plans_by_name r)) eqn:E; simpl;
    [by rewrite E|rewrite dict_get_set, decide_True by done; by eexists].
Qed.

Lemma seed_keeps p q r : has_plan p r -> has_plan p (seed_plan q r).2.
Proof.
  unfold has_plan, seed_plan. intros H. destruct (dict_get (plan_name q) _); simpl; [done|].
  rewrite dict_get_set. case_decide; [by eexists|done].
Qed.

Lemma seed_present p r : has_plan p r -> (seed_plan p r).2 = r.
Proof. unfold has_plan, seed_plan. intros [x ->]. done. Qed.

(** Seeding is idempotent: seeding a seeded repository changes nothing, for
    whatever plans and subscriptions it already held. *)
Theorem seed_idempotent (r : InMemoryBillingRepository) :
  seed_billing_plans (seed_billing_plans r) = seed_billing_plans r.
Proof.
  assert (H : forall l r, Forall (fun p => has_plan p (foldl (fun r p => (seed_plan p r).2) r l)) l).
  { clear. induction l as [|p l IH]; intros r; [constructor|]. constructor; [|apply IH].
    assert (Hk : forall l r, has_plan p r -> has_plan p (foldl (fun r p => (seed_plan p r).2) r l)).
    { clear. induction l as [|q l IH]; intros r Hr; [done|]. by apply IH, seed_keeps. }
    exact (Hk l (seed_plan p r).2 (seed_has p r)). }
  assert (Hid : forall l r, Forall (fun p => has_plan p r) l -> foldl (fun r p => (seed_plan p r).2) r l = r).
  { clear. induction l as [|p l IH]; intros r Hr; [done|]. apply Forall_cons in Hr as [Hp Hr].
    cbn [foldl]. rewrite (seed_present p r Hp). by apply IH. }
  apply Hid, H.
Qed.
