(* ===== verification/Usage.v ===== *)
(** * Token usage: [app/usage]

    The records of model calls and the in-memory repository that aggregates
    them ([models.py], [memory_repository.py], [service.py]), with the part of
    [datetime] the code uses (UTC, proleptic Gregorian calendar).  Instants are
    microseconds since 1970-01-01; an operation reads the clock once. *)

From S2P Require Import Prelude Json.
Local Open Scope Z_scope.

(** ** Dates *)

Definition us_per_second : Z := 1000000.
Definition us_per_day : Z := 86400 * us_per_second.

Definition is_leap (y : Z) : bool :=
  (y mod 4 =? 0) && (negb (y mod 100 =? 0) || (y mod 400 =? 0)).

Definition days_in_month (y m : Z) : Z :=
  if m =? 2 then (if is_leap y then 29 else 28)
  else if (m =? 4) || (m =? 6) || (m =? 9) || (m =? 11) then 30 else 31.

(** Days before January 1st of year [y], and before the month within the year. *)
Definition days_before_year (y : Z) : Z :=
  let p := y - 1 in p * 365 + p / 4 - p / 100 + p / 400.

Fixpoint days_before_month_go (k : nat) (y m : Z) : Z :=
  match k with
  | O => 0
  | S k' => if m <=? 1 then 0 else days_before_month_go k' y (m - 1) + days_in_month y (m - 1)
  end.
Definition days_before_month (y m : Z) : Z := days_before_month_go 12 y m.

(** [date.toordinal]: day 1 is 0001-01-01; 1970-01-01 is day 719163. *)
Definition ymd2ord (y m d : Z) : Z := days_before_year y + days_before_month y m + d.
Definition epoch_ordinal : Z := 719163.

(** [date.fromordinal], with the cycles of 400, 100, 4 and 1 years. *)
Fixpoint find_month (k : nat) (y m n : Z) : Z * Z :=
  match k with
  | O => (m, n)
  | S k' => if n <? days_in_month y m then (m, n) else find_month k' y (m + 1) (n - days_in_month y m)
  end.

Definition ord2ymd (ordinal : Z) : Z * Z * Z :=
  let n := ordinal - 1 in
  let n400 := n / 146097 in
  let n := n mod 146097 in
  let n100 := n / 36524 in
  let n := n mod 36524 in
  let n4 := n / 1461 in
  let n := n mod 1461 in
  let n1 := n / 365 in
  let n := n mod 365 in
  let y := n400 * 400 + n100 * 100 + n4 * 4 + n1 + 1 in
  if (n1 =? 4) || (n100 =? 4) then (y - 1, 12, 31)
  else let '(m, k) := find_month 11 y 1 n in (y, m, k + 1).

Definition pad (width : nat) (n : Z) : pystr :=
  let s := str_of_Z n in replicate (width - length s) 48%N ++ s.

Definition date_of (now : Z) : Z * Z * Z := ord2ymd (epoch_ordinal + now / us_per_day).

(** [strftime("%Y-%m-%d")] and [strftime("%Y-%m")] *)
Definition date_str (now : Z) : pystr :=
  let '(y, m, d) := date_of now in pad 4 y ++ u "-" ++ pad 2 m ++ u "-" ++ pad 2 d.
Definition month_str (now : Z) : pystr :=
  let '(y, m, _) := date_of now in pad 4 y ++ u "-" ++ pad 2 m.

Example date_str_ex : date_str 1767225599999999 = u "2025-12-31".
Proof. vm_compute. reflexivity. Qed.
Example date_str_leap : date_str (1709164800 * us_per_second) = u "2024-02-29".
Proof. vm_compute. reflexivity. Qed.
Example date_str_epoch : date_str 0 = u "1970-01-01".
Proof. vm_compute. reflexivity. Qed.

(** ** Models *)

Record UsageRecord := mkUsageRecord {
  u_request_id : pystr;
  u_model : pystr;
  u_prompt_tokens : Z;
  u_completion_tokens : Z;
  u_total_tokens : Z;
  u_api_key_hash : option pystr;
  u_workspace_id : option pystr;
  u_usage_date : option pystr
}.

Record UsageAggregation := mkAggregation {
  agg_model : pystr;
  agg_request_count : Z;
  agg_prompt_tokens : Z;
  agg_completion_tokens : Z;
  agg_total_tokens : Z
}.

Definition new_aggregation (model : pystr) : UsageAggregation := mkAggregation model 0 0 0 0.

Record WorkspaceUsagePoint := mkPoint {
  pt_usage_date : pystr; pt_total_tokens : Z; pt_request_count : Z }.

Record UsageRanking := mkRanking {
  rk_name : pystr; rk_total_tokens : Z; rk_request_count : Z }.

Record UsageSummary := mkSummary {
  sm_total_requests : Z;
  sm_total_prompt_tokens : Z;
  sm_total_completion_tokens : Z;
  sm_total_tokens : Z;
  sm_by_model : list (pystr * (Z * Z))
}.

(** What the quota code asks of a usage repository. *)
Class UsageRepository (U : Type) := {
  total_tokens_for_key : pystr -> pystr -> U -> Z;
  monthly_usage : pystr -> pystr -> U -> list UsageAggregation;
  total_tokens_for_workspace : pystr -> pystr -> U -> Z;
  monthly_usage_for_workspace : pystr -> pystr -> U -> list UsageAggregation
}.

(** ** [InMemoryUsageRepository] *)

Definition _MAX_RECORDS : nat := 1000.
Definition _MAX_DAILY_DAYS : Z := 90.

Record InMemoryUsageRepository := mkUsageRepo {
  _records : list UsageRecord;
  _daily : list (pystr * list (pystr * UsageAggregation))
}.

Definition daily_key (api_key_hash usage_date : pystr) : pystr := api_key_hash ++ u ":" ++ usage_date.

(** [d.setdefault(k, new)], then an update of the stored value. *)
Definition upsert {V} (k : pystr) (new : V) (f : V -> V) (d : list (pystr * V)) : list (pystr * V) :=
  dict_set k (f (default new (dict_get k d))) d.

Definition add_record (r : UsageRecord) (a : UsageAggregation) : UsageAggregation :=
  mkAggregation (agg_model a) (agg_request_count a + 1) (agg_prompt_tokens a + u_prompt_tokens r)
    (agg_completion_tokens a + u_completion_tokens r) (agg_total_tokens a + u_total_tokens r).

(** [k.split(":")[1]] *)
Fixpoint until_colon (s : pystr) : pystr :=
  match s with [] => [] | c :: s' => if (c =? 58)%N then [] else c :: until_colon s' end.
Fixpoint after_colon (s : pystr) : pystr :=
  match s with [] => [] | c :: s' => if (c =? 58)%N then s' else after_colon s' end.
Definition second_field (k : pystr) : pystr := until_colon (after_colon k).

(** Strict code-point order. *)
Definition str_ltb (a b : pystr) : bool := str_leb a b && negb (bool_decide (a = b)).

(** [_cleanup_old_daily] *)
Definition _cleanup_old_daily {V} (now : Z) (daily : list (pystr * V)) : list (pystr * V) :=
  let cutoff := date_str (now - _MAX_DAILY_DAYS * us_per_day) in
  filter (fun kv => negb (str_ltb (second_field kv.1) cutoff)) daily.

(** [record_usage] *)
Definition record_usage (now : Z) (r : UsageRecord) (s : InMemoryUsageRepository)
  : InMemoryUsageRepository :=
  let records := _records s ++ [r] in
  let records := drop (length records - _MAX_RECORDS) records in
  let daily :=
    match u_api_key_hash r, u_usage_date r with
    | Some ((_ :: _) as h), Some ((_ :: _) as d) =>
        upsert (daily_key h d) [] (upsert (u_model r) (new_aggregation (u_model r)) (add_record r)) (_daily s)
    | _, _ => _daily s
    end in
  mkUsageRepo records (_cleanup_old_daily now daily).

Definition get_daily_usage (h d : pystr) (s : InMemoryUsageRepository) : list UsageAggregation :=
  (default [] (dict_get (daily_key h d) (_daily s))).*2.

Definition merge_aggregation (a merged : UsageAggregation) : UsageAggregation :=
  mkAggregation (agg_model merged) (agg_request_count merged + agg_request_count a)
    (agg_prompt_tokens merged + agg_prompt_tokens a)
    (agg_completion_tokens merged + agg_completion_tokens a)
    (agg_total_tokens merged + agg_total_tokens a).

Definition get_monthly_usage (h year_month : pystr) (s : InMemoryUsageRepository) : list UsageAggregation :=
  let prefix := daily_key h year_month in
  (foldl (fun result kv =>
     if negb (starts_with prefix kv.1) then result
     else foldl (fun result (ma : pystr * UsageAggregation) =>
            upsert (agg_model ma.2) (new_aggregation (agg_model ma.2)) (merge_aggregation ma.2) result)
            result kv.2) [] (_daily s)).*2.

Definition sum_tokens (l : list UsageAggregation) : Z := sumZ (agg_total_tokens <$> l).

Definition get_total_tokens_for_key (h d : pystr) (s : InMemoryUsageRepository) : Z :=
  sum_tokens (get_daily_usage h d s).

Definition get_total_tokens_for_workspace (ws d : pystr) (s : InMemoryUsageRepository) : Z :=
  sumZ (u_total_tokens <$> filter (fun r => u_workspace_id r = Some ws /\ u_usage_date r = Some d) (_records s)).

Definition in_month (year_month : pystr) (r : UsageRecord) : bool :=
  match u_usage_date r with Some d => starts_with year_month d | None => false end.

Definition get_monthly_usage_for_workspace (ws year_month : pystr) (s : InMemoryUsageRepository)
  : list UsageAggregation :=
  (foldl (fun result r =>
     if bool_decide (u_workspace_id r <> Some ws) then result
     else if negb (in_month year_month r) then result
     else upsert (u_model r) (new_aggregation (u_model r)) (fun a =>
            mkAggregation (agg_model a) (agg_request_count a + 1) (agg_prompt_tokens a)
              (agg_completion_tokens a) (agg_total_tokens a + u_total_tokens r)) result)
     [] (_records s)).*2.

#[export] Instance memory_usage : UsageRepository InMemoryUsageRepository := {
  total_tokens_for_key := get_total_tokens_for_key;
  monthly_usage := get_monthly_usage;
  total_tokens_for_workspace := get_total_tokens_for_workspace;
  monthly_usage_for_workspace := get_monthly_usage_for_workspace
}.

(** [_in_scope] and [_window_start] *)
Definition _in_scope (r : UsageRecord) (owner_scope : pystr) : bool :=
  bool_decide (u_workspace_id r = Some owner_scope)
  || (bool_decide (u_workspace_id r = None) && bool_decide (u_api_key_hash r = Some owner_scope)).

Definition _window_start (now days : Z) : pystr := date_str (now - (days - 1) * us_per_day).

(** The records of a scope within the window, with their dates. *)
Definition in_window (now : Z) (owner_scope : pystr) (days : Z) (r : UsageRecord) : option pystr :=
  if negb (_in_scope r owner_scope) then None
  else match u_usage_date r with
       | Some d => if str_ltb d (_window_start now days) then None else Some d
       | None => None
       end.

Definition get_workspace_trend (now : Z) (owner_scope : pystr) (days : Z) (s : InMemoryUsageRepository)
  : list WorkspaceUsagePoint :=
  let points := foldl (fun points r =>
      match in_window now owner_scope days r with
      | Some d => upsert d (mkPoint d 0 0) (fun p => mkPoint (pt_usage_date p)
                    (pt_total_tokens p + u_total_tokens r) (pt_request_count p + 1)) points
      | None => points
      end) [] (_records s) in
  (sort_by key_leb points).*2.

(** [_rank]: by decreasing tokens, first seen first among equals. *)
Definition _rank (now : Z) (owner_scope : pystr) (days : Z) (key : UsageRecord -> pystr)
    (records : list UsageRecord) : list UsageRanking :=
  let totals := foldl (fun totals r =>
      match in_window now owner_scope days r with
      | Some _ => upsert (key r) (mkRanking (key r) 0 0) (fun k => mkRanking (rk_name k)
                    (rk_total_tokens k + u_total_tokens r) (rk_request_count k + 1)) totals
      | None => totals
      end) [] records in
  sort_by (fun a b => rk_total_tokens b <=? rk_total_tokens a) totals.*2.

Definition get_workspace_model_ranking now owner_scope days (s : InMemoryUsageRepository)
  : list UsageRanking :=
  _rank now owner_scope days u_model (_records s).

Definition get_workspace_key_ranking now owner_scope days (s : InMemoryUsageRepository)
  : list UsageRanking :=
  (fun k => mkRanking (sprefix 8 (rk_name k)) (rk_total_tokens k) (rk_request_count k))
    <$> _rank now owner_scope days (fun r => default [] (u_api_key_hash r)) (_records s).

(** [_summarize] *)
Definition _summarize (records : list UsageRecord) : UsageSummary :=
  foldl (fun sm r =>
    mkSummary (sm_total_requests sm + 1) (sm_total_prompt_tokens sm + u_prompt_tokens r)
      (sm_total_completion_tokens sm + u_completion_tokens r) (sm_total_tokens sm + u_total_tokens r)
      (upsert (u_model r) (0, 0) (fun st => (st.1 + 1, st.2 + u_total_tokens r)) (sm_by_model sm)))
    (mkSummary 0 0 0 0 []) records.

Definition get_all_summary (s : InMemoryUsageRepository) : UsageSummary := _summarize (_records s).
Definition get_summary_for_key (h : pystr) (s : InMemoryUsageRepository) : UsageSummary :=
  _summarize (filter (fun r => u_api_key_hash r = Some h) (_records s)).

(** ** [UsageService.record] *)
Definition service_record (now : Z) (usage : UsageRecord) (s : InMemoryUsageRepository)
  : InMemoryUsageRepository :=
  record_usage now
    (mkUsageRecord (u_request_id usage) (u_model usage) (u_prompt_tokens usage)
       (u_completion_tokens usage) (u_total_tokens usage)
       (Some (default [] (u_api_key_hash usage))) (u_workspace_id usage)
       (Some (default (date_str now) (u_usage_date usage)))) s.
