(* ===== verification/Quota.v ===== *)
(** * Token quotas: [app/quota]

    The models, the in-memory repository of reservations
    ([memory_repository.py]), the service that resolves limits and reserves
    ([service.py]), the prompt estimate ([token_estimator.py]) and the life
    cycle of one reservation ([lifecycle.py]).  The usage and billing
    repositories are used through their interfaces ([UsageRepository],
    [BillingRepository]).  Each operation reads the clock once; instants are
    microseconds. *)

From S2P Require Import Prelude Billing Usage.
Local Open Scope Z_scope.

(** ** Models *)

Inductive ReservationResult := CREATED | DAILY_LIMIT | MONTHLY_LIMIT | NOT_FOUND.

#[export] Instance ReservationResult_eq_dec : EqDecision ReservationResult.
Proof. solve_decision. Defined.

Inductive quota_scope_t := KeyScope | WorkspaceScope.

Record QuotaConfig := mkQuotaConfig {
  cfg_daily_token_limit : option Z;
  cfg_monthly_token_limit : option Z;
  default_reserve_tokens : Z;
  reservation_ttl_seconds : Z;
  reservation_renewal_seconds : Z;
  quota_scope : quota_scope_t
}.

Definition is_some {A} (o : option A) : bool := match o with Some _ => true | None => false end.

Definition enabled (c : QuotaConfig) : bool :=
  is_some (cfg_daily_token_limit c) || is_some (cfg_monthly_token_limit c).

Record QuotaReservation := mkQuotaReservation {
  qr_reservation_id : pystr;
  qr_api_key_hash : pystr;
  qr_reserved_tokens : Z;
  qr_usage_date : pystr;
  qr_workspace_id : option pystr
}.

Record WorkspaceQuota := mkWorkspaceQuota {
  wq_workspace_id : pystr;
  wq_daily_token_limit : option Z;
  wq_monthly_token_limit : option Z
}.

(** [estimate_prompt_tokens]: UTF-8 bytes plus fixed overheads. *)
Definition utf8_length (s : pystr) : Z :=
  sumZ ((fun c => if (c <? 128)%N then 1 else if (c <? 2048)%N then 2
                  else if (c <? 65536)%N then 3 else 4) <$> s).

Definition estimate_prompt_tokens (messages : list (pystr * pystr)) : Z :=
  2 + sumZ ((fun m : pystr * pystr => utf8_length m.1 + utf8_length m.2 + 4) <$> messages).

(** ** [InMemoryQuotaRepository] *)

(** One entry of [_reservations]. *)
Record reservation := mkReservation {
  r_api_key_hash : pystr;
  r_workspace_id : option pystr;
  r_usage_date : pystr;
  r_reserved_tokens : Z;
  r_settled : bool;
  r_expires_at : Z
}.

Record InMemoryQuotaRepository := mkQuotaRepo {
  _workspace_quotas : gmap pystr WorkspaceQuota;
  _reservations : gmap pystr reservation
}.

Definition set_reservations (m : gmap pystr reservation) (q : InMemoryQuotaRepository) :=
  mkQuotaRepo (_workspace_quotas q) m.

(** [not settled and expires_at > now] *)
Definition live (now : Z) (r : reservation) : bool := negb (r_settled r) && (now <? r_expires_at r).

(** The sums over the reservations that satisfy a test. *)
Definition sum_reserved (p : reservation -> bool) (m : gmap pystr reservation) : Z :=
  map_fold (fun _ r acc => (if p r then r_reserved_tokens r else 0) + acc) 0 m.

Definition of_key_day (h d : pystr) (now : Z) (r : reservation) : bool :=
  bool_decide (r_api_key_hash r = h) && bool_decide (r_usage_date r = d) && live now r.
Definition of_key_month (h ym : pystr) (now : Z) (r : reservation) : bool :=
  bool_decide (r_api_key_hash r = h) && bool_decide (sprefix 7 (r_usage_date r) = ym) && live now r.
Definition of_workspace_day (ws d : pystr) (now : Z) (r : reservation) : bool :=
  bool_decide (r_workspace_id r = Some ws) && bool_decide (r_usage_date r = d) && live now r.
Definition of_workspace_month (ws ym : pystr) (now : Z) (r : reservation) : bool :=
  bool_decide (r_workspace_id r = Some ws) && starts_with ym (r_usage_date r) && live now r.

Definition get_reserved_tokens_for_key (h d : pystr) (now : Z) (q : InMemoryQuotaRepository) : Z :=
  sum_reserved (of_key_day h d now) (_reservations q).
Definition get_monthly_reserved_tokens_for_key (h ym : pystr) (now : Z) (q : InMemoryQuotaRepository) : Z :=
  sum_reserved (of_key_month h ym now) (_reservations q).

(** [_purge_expired] *)
Definition _purge_expired (now : Z) (q : InMemoryQuotaRepository) : InMemoryQuotaRepository :=
  set_reservations (filter (fun kv => live now kv.2) (_reservations q)) q.

Section Repository.
Context {U : Type} {UR : UsageRepository U}.

Definition exceeds (total : Z) (limit : option Z) : bool :=
  match limit with Some n => n <? total | None => false end.

(** [create_reservation] *)
Definition create_reservation (usage : U) (now : Z) (reservation_id h usage_date : pystr)
    (reserved_tokens : Z) (daily_limit monthly_limit : option Z) (ttl : Z)
    (workspace_id : option pystr) (q : InMemoryQuotaRepository)
  : ReservationResult * InMemoryQuotaRepository :=
  let q := _purge_expired now q in
  let ym := sprefix 7 usage_date in
  let daily :=
    match workspace_id with
    | Some ws => total_tokens_for_workspace ws usage_date usage
                 + sum_reserved (of_workspace_day ws usage_date now) (_reservations q)
    | None => total_tokens_for_key h usage_date usage + get_reserved_tokens_for_key h usage_date now q
    end in
  let monthly :=
    match workspace_id with
    | Some ws => sum_tokens (monthly_usage_for_workspace ws ym usage)
                 + sum_reserved (of_workspace_month ws ym now) (_reservations q)
    | None => sum_tokens (monthly_usage h ym usage) + get_monthly_reserved_tokens_for_key h ym now q
    end in
  if exceeds (daily + reserved_tokens) daily_limit then (DAILY_LIMIT, q)
  else if exceeds (monthly + reserved_tokens) monthly_limit then (MONTHLY_LIMIT, q)
  else
    (CREATED,
     set_reservations
       (<[reservation_id := mkReservation h workspace_id usage_date reserved_tokens false
                              (now + ttl * us_per_second)]> (_reservations q)) q).

(** [settle_reservation] and [release_reservation] *)
Definition pop_reservation (reservation_id : pystr) (q : InMemoryQuotaRepository)
  : InMemoryQuotaRepository :=
  set_reservations (delete reservation_id (_reservations q)) q.

Definition with_tokens (n : Z) (r : reservation) : reservation :=
  mkReservation (r_api_key_hash r) (r_workspace_id r) (r_usage_date r) n (r_settled r) (r_expires_at r).
Definition with_expiry (t : Z) (r : reservation) : reservation :=
  mkReservation (r_api_key_hash r) (r_workspace_id r) (r_usage_date r) (r_reserved_tokens r)
    (r_settled r) t.

(** [extend_reservation]; its [workspace_id] is not used. *)
Definition extend_reservation (usage : U) (now : Z) (reservation_id : pystr) (additional_tokens : Z)
    (daily_limit monthly_limit : option Z) (workspace_id : option pystr) (q : InMemoryQuotaRepository)
  : ReservationResult * InMemoryQuotaRepository :=
  let q := _purge_expired now q in
  match _reservations q !! reservation_id with
  | None => (NOT_FOUND, q)
  | Some entry =>
      if r_settled entry then (NOT_FOUND, q)
      else
        let h := r_api_key_hash entry in
        let d := r_usage_date entry in
        let ym := sprefix 7 d in
        if exceeds (total_tokens_for_key h d usage + get_reserved_tokens_for_key h d now q
                    + additional_tokens) daily_limit then (DAILY_LIMIT, q)
        else if exceeds (sum_tokens (monthly_usage h ym usage)
                         + get_monthly_reserved_tokens_for_key h ym now q + additional_tokens)
                  monthly_limit then (MONTHLY_LIMIT, q)
        else
          (CREATED,
           set_reservations
             (<[reservation_id := with_tokens (r_reserved_tokens entry + additional_tokens) entry]>
                (_reservations q)) q)
  end.

(** [renew_reservation] *)
Definition renew_reservation (now : Z) (reservation_id : pystr) (ttl : Z) (q : InMemoryQuotaRepository)
  : bool * InMemoryQuotaRepository :=
  match _reservations q !! reservation_id with
  | None => (false, q)
  | Some entry =>
      if r_settled entry || (r_expires_at entry <=? now) then (false, q)
      else (true, set_reservations
                    (<[reservation_id := with_expiry (now + ttl * us_per_second) entry]> (_reservations q)) q)
  end.

Definition get_workspace_quota (ws : pystr) (q : InMemoryQuotaRepository) : option WorkspaceQuota :=
  _workspace_quotas q !! ws.
Definition set_workspace_quota (ws : pystr) (daily monthly : option Z) (q : InMemoryQuotaRepository)
  : WorkspaceQuota * InMemoryQuotaRepository :=
  let quota := mkWorkspaceQuota ws daily monthly in
  (quota, mkQuotaRepo (<[ws := quota]> (_workspace_quotas q)) (_reservations q)).

Definition cleanup_expired (now : Z) (q : InMemoryQuotaRepository) : Z * InMemoryQuotaRepository :=
  let q' := _purge_expired now q in
  (Z.of_nat (size (_reservations q)) - Z.of_nat (size (_reservations q')), q').
End Repository.

(** ** [QuotaService] *)

(** The exceptions of the service. *)
Inductive quota_error :=
| QuotaExceededError (message : pystr) (retry_after : option Z)
| AssertionError
| RuntimeError.

Section Service.
Context {U R : Type} {UR : UsageRepository U} {B : BillingRepository R}.
(** The configuration and, when wired, the billing repository. *)
Context (config : QuotaConfig) (billing : option R).

(** [_plan_token_limits] *)
Definition _plan_token_limits (ws : pystr) : option Z * option Z :=
  match billing with
  | None => (None, None)
  | Some r =>
      match repo_get_subscription_for_workspace ws r with
      | None => (None, None)
      | Some s =>
          if negb (is_active s) then (None, None)
          else match repo_get_plan (sub_plan_id s) r with
               | None => (None, None)
               | Some plan => (daily_token_limit plan, monthly_token_limit plan)
               end
      end
  end.

(** [if v is not None: limit = v] *)
Definition override_with (v limit : option Z) : option Z :=
  match v with Some _ => v | None => limit end.

(** [_resolve_workspace_limits] *)
Definition _resolve_workspace_limits (ws : option pystr) (q : InMemoryQuotaRepository)
  : option Z * option Z :=
  let daily := cfg_daily_token_limit config in
  let monthly := cfg_monthly_token_limit config in
  match ws with
  | None => (daily, monthly)
  | Some ws =>
      let '(plan_daily, plan_monthly) := _plan_token_limits ws in
      let daily := override_with plan_daily daily in
      let monthly := override_with plan_monthly monthly in
      match get_workspace_quota ws q with
      | None => (daily, monthly)
      | Some o => (override_with (wq_daily_token_limit o) daily,
                   override_with (wq_monthly_token_limit o) monthly)
      end
  end.

(** [_resolve_limits] *)
Definition _resolve_limits (ws : option pystr) (q : InMemoryQuotaRepository) : option Z * option Z :=
  match quota_scope config with
  | KeyScope => (cfg_daily_token_limit config, cfg_monthly_token_limit config)
  | WorkspaceScope => _resolve_workspace_limits ws q
  end.

Definition dimension_workspace_id (ws : option pystr) : option pystr :=
  match quota_scope config with WorkspaceScope => ws | KeyScope => None end.

(** [_lock_key] *)
Definition _lock_key (h : pystr) (ws : option pystr) : pystr :=
  match quota_scope config, ws with
  | WorkspaceScope, Some w => u "ws:" ++ w
  | _, _ => h
  end.

(** [_seconds_until_next_day] and [_seconds_until_next_month] *)
Definition _seconds_until_next_day (now : Z) : Z :=
  ((now / us_per_day + 1) * us_per_day - now) / us_per_second.

Definition start_of (y m : Z) : Z := (ymd2ord y m 1 - epoch_ordinal) * us_per_day.

Definition _seconds_until_next_month (now : Z) : Z :=
  let '(y, m, _) := date_of now in
  let next_month := if m =? 12 then start_of (y + 1) 1 else start_of y (m + 1) in
  (next_month - now) / us_per_second.

Definition daily_exceeded (now : Z) : quota_error :=
  QuotaExceededError (u "Daily token quota exceeded.") (Some (_seconds_until_next_day now)).
Definition monthly_exceeded (now : Z) : quota_error :=
  QuotaExceededError (u "Monthly token quota exceeded.") (Some (_seconds_until_next_month now)).

(** [_raise_daily_limit] and [_raise_monthly_limit] *)
Definition _raise_daily_limit (now : Z) : quota_error :=
  match cfg_daily_token_limit config with None => AssertionError | Some _ => daily_exceeded now end.
Definition _raise_monthly_limit (now : Z) : quota_error :=
  match cfg_monthly_token_limit config with None => AssertionError | Some _ => monthly_exceeded now end.

(** [max_tokens or default_reserve_tokens] *)
Definition completion_tokens (max_tokens : option Z) : Z :=
  match max_tokens with
  | Some n => if n =? 0 then default_reserve_tokens config else n
  | None => default_reserve_tokens config
  end.

(** [reserve]; [fresh] is the new uuid. *)
Definition reserve (usage : U) (now : Z) (fresh h : pystr) (max_tokens : option Z) (prompt_tokens : Z)
    (ws : option pystr) (q : InMemoryQuotaRepository)
  : result quota_error (option QuotaReservation) * InMemoryQuotaRepository :=
  if negb (enabled config) then (Ok None, q)
  else
    let today := date_str now in
    let reserve_amount := prompt_tokens + completion_tokens max_tokens in
    let '(daily_limit, monthly_limit) := _resolve_limits ws q in
    let '(res, q') := create_reservation usage now fresh h today reserve_amount daily_limit
                        monthly_limit (reservation_ttl_seconds config) (dimension_workspace_id ws) q in
    match res with
    | DAILY_LIMIT => (Err (_raise_daily_limit now), q')
    | MONTHLY_LIMIT => (Err (_raise_monthly_limit now), q')
    | CREATED => (Ok (Some (mkQuotaReservation fresh h reserve_amount today ws)), q')
    | NOT_FOUND => (Err RuntimeError, q')
    end.

(** [settle] and [release] *)
Definition settle (reservation_id : pystr) (q : InMemoryQuotaRepository) : InMemoryQuotaRepository :=
  if negb (enabled config) then q else pop_reservation reservation_id q.
Definition release (reservation_id : pystr) (q : InMemoryQuotaRepository) : InMemoryQuotaRepository :=
  if negb (enabled config) then q else pop_reservation reservation_id q.

(** [extend] *)
Definition extend (usage : U) (now : Z) (reservation_id : pystr) (additional_tokens : Z)
    (ws : option pystr) (q : InMemoryQuotaRepository)
  : result quota_error unit * InMemoryQuotaRepository :=
  if negb (enabled config) || (additional_tokens <=? 0) then (Ok tt, q)
  else
    let '(daily_limit, monthly_limit) := _resolve_limits ws q in
    let '(res, q') := extend_reservation usage now reservation_id additional_tokens daily_limit
                        monthly_limit (dimension_workspace_id ws) q in
    match res with
    | DAILY_LIMIT => (Err (daily_exceeded now), q')
    | MONTHLY_LIMIT => (Err (monthly_exceeded now), q')
    | NOT_FOUND => (Err (QuotaExceededError (u "Quota reservation is no longer active.") None), q')
    | CREATED => (Ok tt, q')
    end.

(** [renew] *)
Definition renew (now : Z) (reservation_id : pystr) (q : InMemoryQuotaRepository)
  : bool * InMemoryQuotaRepository :=
  if negb (enabled config) then (false, q)
  else renew_reservation now reservation_id (reservation_ttl_seconds config) q.
End Service.
