(* ===== verification/QuotaFacts.v ===== *)
(** * Facts about reservations and recorded usage

    Sums over the reservations of the in-memory quota repository, and the
    effect of [record_usage] on the totals the quota checks read. *)

From S2P Require Import Prelude Json Usage Quota.
Local Open Scope Z_scope.

(** ** Sums over reservations *)

Definition contribution (p : reservation -> bool) (r : reservation) : Z :=
  if p r then r_reserved_tokens r else 0.

Lemma sum_empty p : sum_reserved p ∅ = 0.
Proof. unfold sum_reserved. apply map_fold_empty. Qed.

Lemma sum_insert_fresh p m i r :
  m !! i = None -> sum_reserved p (<[i := r]> m) = contribution p r + sum_reserved p m.
Proof.
  intros Hi. unfold sum_reserved. rewrite map_fold_insert_L; [done|intros; lia|done].
Qed.

Lemma sum_delete p m i r :
  m !! i = Some r -> sum_reserved p m = contribution p r + sum_reserved p (delete i m).
Proof.
  intros Hi. rewrite <- (sum_insert_fresh p (delete i m) i r) by apply lookup_delete_eq.
  by rewrite insert_delete_id.
Qed.

Lemma sum_insert p m i r r' :
  m !! i = Some r ->
  sum_reserved p (<[i := r']> m) = sum_reserved p m - contribution p r + contribution p r'.
Proof.
  intros Hi. rewrite <- insert_delete_eq, sum_insert_fresh by apply lookup_delete_eq.
  rewrite (sum_delete p m i r Hi). lia.
Qed.

(** Every reservation holds a non-negative amount. *)
Definition nonneg_reservations (m : gmap pystr reservation) : Prop :=
  map_Forall (fun _ r => 0 <= r_reserved_tokens r) m.

Lemma sum_mono p p' m :
  nonneg_reservations m -> (forall i r, m !! i = Some r -> p r = true -> p' r = true) ->
  sum_reserved p m <= sum_reserved p' m.
Proof.
  unfold nonneg_reservations. induction m as [|i r m Hi IH] using map_ind; intros Hn Hp;
    [by rewrite !sum_empty|].
  apply map_Forall_insert in Hn as [Hr Hn]; [|done]. rewrite !sum_insert_fresh by done.
  assert (IH' : sum_reserved p m <= sum_reserved p' m).
  { apply IH; [done|]. intros j x Hj. apply (Hp j). rewrite lookup_insert_ne; [done|]. congruence. }
  specialize (Hp i r (lookup_insert_eq _ _ _)). unfold contribution.
  destruct (p r); [rewrite Hp by done; lia|]. destruct (p' r); lia.
Qed.

Lemma sum_filter p (q : reservation -> bool) m :
  (forall r, p r = true -> q r = true) ->
  sum_reserved p (filter (fun kv => q kv.2) m) = sum_reserved p m.
Proof.
  intros Hpq. induction m as [|i r m Hi IH] using map_ind; [done|].
  rewrite sum_insert_fresh by done. destruct (decide (q r)) as [Hq|Hq].
  - rewrite map_filter_insert_True by done. rewrite sum_insert_fresh, IH; [done|].
    apply map_lookup_filter_None. by left.
  - rewrite map_filter_insert_False by done. rewrite delete_id by done. rewrite IH.
    unfold contribution. destruct (p r) eqn:E; [|lia]. exfalso. apply Hq, Is_true_true. by apply Hpq.
Qed.

Lemma nonneg_filter (q : reservation -> bool) m :
  nonneg_reservations m -> nonneg_reservations (filter (fun kv => q kv.2) m).
Proof. intros Hn i r H. apply map_lookup_filter_Some in H as [H _]. by apply (Hn i). Qed.

Lemma nonneg_insert i r m :
  nonneg_reservations m -> 0 <= r_reserved_tokens r -> nonneg_reservations (<[i := r]> m).
Proof. intros Hn Hr. by apply map_Forall_insert_2. Qed.

Lemma nonneg_delete i m : nonneg_reservations m -> nonneg_reservations (delete i m).
Proof. intros Hn. by apply map_Forall_delete. Qed.

(** A test that only accepts reservations that are live. *)
Definition live_only (now : Z) (p : reservation -> bool) : Prop := forall r, p r = true -> live now r = true.

Lemma key_day_live h d now : live_only now (of_key_day h d now).
Proof. intros r H. unfold of_key_day in H. by bools. Qed.
Lemma key_month_live h ym now : live_only now (of_key_month h ym now).
Proof. intros r H. unfold of_key_month in H. by bools. Qed.

Lemma live_later now now' r : now <= now' -> live now' r = true -> live now r = true.
Proof. unfold live. intros Hn H. bools. apply andb_true_iff. split; [by apply negb_true_iff|]. lia. Qed.

#[export] Hint Resolve key_day_live key_month_live nonneg_filter nonneg_insert nonneg_delete : py.

(** ** Recorded usage *)

(** A sum over the entries of a dictionary. *)
Definition dsum {V} (w : pystr * V -> Z) (d : list (pystr * V)) : Z := sumZ (w <$> d).

Lemma dsum_cons {V} (w : pystr * V -> Z) kv d : dsum w (kv :: d) = w kv + dsum w d.
Proof. reflexivity. Qed.

Lemma dsum_set {V} (w : pystr * V -> Z) k v d :
  dsum w (dict_set k v d) =
  dsum w d - match dict_get k d with Some v0 => w (k, v0) | None => 0 end + w (k, v).
Proof.
  induction d as [|[k0 v0] d IH]; simpl.
  - rewrite dsum_cons. unfold dsum. simpl. lia.
  - destruct (decide (k = k0)) as [->|Hk]; rewrite !dsum_cons; [lia|]. rewrite IH. lia.
Qed.

Lemma dsum_filter {V} (w : pystr * V -> Z) (P : pystr * V -> bool) d :
  (forall kv, kv ∈ d -> 0 <= w kv) -> dsum w (filter (fun kv => P kv) d) <= dsum w d.
Proof.
  induction d as [|kv d IH]; intros Hw; [done|]. rewrite filter_cons, dsum_cons.
  assert (Hk : 0 <= w kv) by (apply Hw; set_solver).
  assert (IH' : dsum w (filter (fun kv => P kv) d) <= dsum w d) by (apply IH; intros; apply Hw; set_solver).
  case_decide; rewrite ?dsum_cons; lia.
Qed.

Definition inner_total (aggs : list (pystr * UsageAggregation)) : Z :=
  dsum (fun ma => agg_total_tokens ma.2) aggs.

Lemma sum_tokens_inner aggs : sum_tokens aggs.*2 = inner_total aggs.
Proof. unfold sum_tokens, inner_total, dsum. by rewrite <- list_fmap_compose. Qed.

Lemma inner_upsert_record r aggs :
  inner_total (upsert (u_model r) (new_aggregation (u_model r)) (add_record r) aggs)
  = inner_total aggs + u_total_tokens r.
Proof.
  unfold inner_total, upsert. rewrite dsum_set. destruct (dict_get (u_model r) aggs); simpl; lia.
Qed.

(** All recorded totals are non-negative. *)
Definition daily_ok (daily : list (pystr * list (pystr * UsageAggregation))) : Prop :=
  Forall (fun kv => Forall (fun ma : pystr * UsageAggregation => 0 <= agg_total_tokens ma.2) kv.2) daily.

Lemma inner_nonneg aggs :
  Forall (fun ma : pystr * UsageAggregation => 0 <= agg_total_tokens ma.2) aggs -> 0 <= inner_total aggs.
Proof.
  induction 1 as [|ma l Hm _ IH]; [done|]. unfold inner_total in *. rewrite dsum_cons. lia.
Qed.

Lemma Forall_dict_set {V} (P : V -> Prop) k v (d : list (pystr * V)) :
  Forall (fun kv => P kv.2) d -> P v -> Forall (fun kv => P kv.2) (dict_set k v d).
Proof.
  intros Hd Hv. induction Hd as [|[k0 v0] d H0 Hd IH]; simpl; [by repeat constructor|].
  destruct (decide (k = k0)); by constructor.
Qed.

Lemma Forall_dict_get {V} (P : V -> Prop) k v (d : list (pystr * V)) :
  Forall (fun kv => P kv.2) d -> dict_get k d = Some v -> P v.
Proof. intros Hd Hg%dict_get_Some. rewrite Forall_forall in Hd. by apply (Hd (k, v)). Qed.

(** What one record adds: its tokens under its key. *)
Definition recorded_key (r : UsageRecord) : option (pystr * pystr) :=
  match u_api_key_hash r, u_usage_date r with
  | Some ((_ :: _) as h), Some ((_ :: _) as d) => Some (h, d)
  | _, _ => None
  end.

Lemma recorded_key_spec r h d :
  recorded_key r = Some (h, d) -> u_api_key_hash r = Some h /\ u_usage_date r = Some d.
Proof.
  unfold recorded_key. destruct (u_api_key_hash r) as [[|? ?]|], (u_usage_date r) as [[|? ?]|];
    simpl; intros H; by simplify_eq.
Qed.

Lemma record_usage_daily now r s :
  _daily (record_usage now r s) = _cleanup_old_daily now
    match recorded_key r with
    | Some (h, d) => upsert (daily_key h d) [] (upsert (u_model r) (new_aggregation (u_model r)) (add_record r)) (_daily s)
    | None => _daily s
    end.
Proof.
  unfold record_usage, recorded_key. simpl. by destruct (u_api_key_hash r) as [[|? ?]|], (u_usage_date r) as [[|? ?]|].
Qed.

Lemma inner_ok_upsert r aggs :
  0 <= u_total_tokens r ->
  Forall (fun ma : pystr * UsageAggregation => 0 <= agg_total_tokens ma.2) aggs ->
  Forall (fun ma : pystr * UsageAggregation => 0 <= agg_total_tokens ma.2)
    (upsert (u_model r) (new_aggregation (u_model r)) (add_record r) aggs).
Proof.
  intros Hr Ha. unfold upsert. apply (Forall_dict_set (fun a => 0 <= agg_total_tokens a)); [done|]. simpl.
  destruct (dict_get (u_model r) aggs) as [a|] eqn:E; simpl; [|lia].
  pose proof (Forall_dict_get (fun a => 0 <= agg_total_tokens a) _ _ _ Ha E). simpl in *. lia.
Qed.

Lemma default_ok (k : pystr) daily :
  daily_ok daily ->
  Forall (fun ma : pystr * UsageAggregation => 0 <= agg_total_tokens ma.2) (default [] (dict_get k daily)).
Proof.
  intros Hd. destruct (dict_get k daily) as [aggs|] eqn:E; [|constructor]. simpl.
  exact (Forall_dict_get (Forall (fun ma : pystr * UsageAggregation => 0 <= agg_total_tokens ma.2)) _ _ _ Hd E).
Qed.

(** The dictionary before the clean-up. *)
Lemma upsert_daily_ok r k daily :
  0 <= u_total_tokens r -> daily_ok daily ->
  daily_ok (upsert k [] (upsert (u_model r) (new_aggregation (u_model r)) (add_record r)) daily).
Proof.
  intros Hr Hd. apply (Forall_dict_set (Forall (fun ma : pystr * UsageAggregation => 0 <= agg_total_tokens ma.2))).
  - done.
  - apply inner_ok_upsert; [done|]. by apply default_ok.
Qed.

Lemma record_daily_ok now r s :
  0 <= u_total_tokens r -> daily_ok (_daily s) -> daily_ok (_daily (record_usage now r s)).
Proof.
  intros Hr Hd. rewrite record_usage_daily. unfold _cleanup_old_daily.
  assert (H : daily_ok match recorded_key r with
    | Some (h, d) => upsert (daily_key h d) [] (upsert (u_model r) (new_aggregation (u_model r)) (add_record r)) (_daily s)
    | None => _daily s end).
  { destruct (recorded_key r) as [[h d]|]; [by apply upsert_daily_ok|done]. }
  unfold daily_ok in *. rewrite Forall_forall in *. intros kv [_ Hkv]%list_elem_of_filter. by apply H.
Qed.

Definition no_colon (h : pystr) : Prop := 58%N ∉ h.

Lemma daily_key_prefix h h' x d :
  no_colon h -> no_colon h' ->
  starts_with (daily_key h x) (daily_key h' d) = bool_decide (h = h') && starts_with x d.
Proof.
  unfold no_colon, daily_key. change (u ":") with [58%N].
  revert h'. induction h as [|c h IH]; intros [|c' h'] Hh Hh'; cbn [starts_with app].
  - by rewrite N.eqb_refl.
  - destruct (58 =? c')%N eqn:E; [apply N.eqb_eq in E; subst; set_solver|].
    by rewrite bool_decide_eq_false_2.
  - destruct (c =? 58)%N eqn:E; [apply N.eqb_eq in E; subst; set_solver|].
    by rewrite bool_decide_eq_false_2.
  - rewrite IH by set_solver. destruct (c =? c')%N eqn:E; simpl.
    + apply N.eqb_eq in E. subst. f_equal. apply bool_decide_ext. naive_solver.
    + apply N.eqb_neq in E. rewrite bool_decide_eq_false_2; [done|]. congruence.
Qed.

Lemma daily_key_inj h h' d d' :
  no_colon h -> no_colon h' -> daily_key h d = daily_key h' d' -> h = h' /\ d = d'.
Proof.
  intros Hh Hh' He.
  assert (H1 : starts_with (daily_key h d) (daily_key h' d') = true)
    by (rewrite He; apply starts_with_true; exists []; by rewrite app_nil_r).
  rewrite daily_key_prefix in H1 by done. apply andb_true_iff in H1 as [H1 _].
  apply bool_decide_eq_true in H1 as ->. split; [done|]. unfold daily_key in He. by simplify_list_eq.
Qed.

Definition matches_day (h d : pystr) (r : UsageRecord) : bool := bool_decide (recorded_key r = Some (h, d)).
Definition matches_month (h ym : pystr) (r : UsageRecord) : bool :=
  match recorded_key r with Some (h', d') => bool_decide (h = h') && starts_with ym d' | None => false end.

Lemma dict_get_filter {V} (P : pystr -> bool) k (d : list (pystr * V)) :
  dict_get k (filter (fun kv => P kv.1) d) = if P k then dict_get k d else None.
Proof.
  induction d as [|[k0 v0] d IH]; simpl; [by destruct (P k)|]. rewrite filter_cons. simpl.
  destruct (P k0) eqn:E; simpl.
  - destruct (decide (k = k0)) as [->|]; [by rewrite E|done].
  - rewrite IH. destruct (decide (k = k0)) as [->|]; [by rewrite E|done].
Qed.

(** Recording adds at most the tokens of the record to the day of its key and
    nothing to the days of other keys (old days may be forgotten). *)
Lemma record_day_le now r s h d :
  daily_ok (_daily s) -> 0 <= u_total_tokens r -> no_colon h ->
  (forall h', u_api_key_hash r = Some h' -> no_colon h') ->
  get_total_tokens_for_key h d (record_usage now r s)
  <= get_total_tokens_for_key h d s + (if matches_day h d r then u_total_tokens r else 0).
Proof.
  intros Hok Hr Hh Hh'. unfold get_total_tokens_for_key, get_daily_usage. rewrite !sum_tokens_inner.
  rewrite record_usage_daily. unfold _cleanup_old_daily.
  rewrite (dict_get_filter (fun k => negb (str_ltb (second_field k) _))).
  set (daily' := match recorded_key r with Some _ => _ | None => _ end).
  assert (H : inner_total (default [] (dict_get (daily_key h d) daily')) =
    inner_total (default [] (dict_get (daily_key h d) (_daily s)))
    + (if matches_day h d r then u_total_tokens r else 0)).
  { unfold daily', matches_day. destruct (recorded_key r) as [[h0 d0]|] eqn:Ek.
    2: { rewrite bool_decide_eq_false_2 by done. lia. }
    assert (Hn0 : no_colon h0).
    { apply recorded_key_spec in Ek as [Eh _]. by apply Hh'. }
    unfold upsert at 1. rewrite dict_get_set. destruct (decide (daily_key h d = daily_key h0 d0)) as [He|He].
    - apply daily_key_inj in He as [-> ->]; [|done..]. rewrite bool_decide_eq_true_2 by done.
      simpl. by rewrite inner_upsert_record.
    - rewrite bool_decide_eq_false_2 by (intros [= -> ->]; done). lia. }
  rewrite <- H. destruct (negb _); [done|]. simpl.
  apply inner_nonneg, default_ok. unfold daily'.
  destruct (recorded_key r) as [[h0 d0]|]; [by apply upsert_daily_ok|done].
Qed.

(** *** Months *)

Definition month_weight (h ym : pystr) (kv : pystr * list (pystr * UsageAggregation)) : Z :=
  if starts_with (daily_key h ym) kv.1 then inner_total kv.2 else 0.

Lemma merge_all aggs result :
  inner_total (foldl (fun result (ma : pystr * UsageAggregation) =>
    upsert (agg_model ma.2) (new_aggregation (agg_model ma.2)) (merge_aggregation ma.2) result) result aggs)
  = inner_total result + inner_total aggs.
Proof.
  revert result. induction aggs as [|ma aggs IH]; intros result; cbn [foldl].
  - unfold inner_total at 3, dsum. simpl. lia.
  - rewrite IH. unfold inner_total, upsert. rewrite dsum_set, dsum_cons.
    destruct (dict_get (agg_model ma.2) result); simpl; lia.
Qed.

(** The monthly aggregation adds up the days of the month. *)
Lemma monthly_total h ym s :
  sum_tokens (get_monthly_usage h ym s) = dsum (month_weight h ym) (_daily s).
Proof.
  unfold get_monthly_usage. rewrite sum_tokens_inner.
  enough (H : forall daily result, inner_total (foldl (fun result kv =>
     if negb (starts_with (daily_key h ym) kv.1) then result
     else foldl (fun result (ma : pystr * UsageAggregation) =>
       upsert (agg_model ma.2) (new_aggregation (agg_model ma.2)) (merge_aggregation ma.2) result)
       result kv.2) result daily) = inner_total result + dsum (month_weight h ym) daily)
    by (rewrite H; unfold inner_total at 1, dsum at 1; simpl; lia).
  induction daily as [|kv daily IH]; intros result; cbn [foldl]; [unfold dsum; simpl; lia|].
  rewrite IH, dsum_cons. unfold month_weight at 2.
  destruct (starts_with _ kv.1); simpl; [rewrite merge_all; lia|lia].
Qed.

(** Recording adds at most the tokens of the record to the month of its key. *)
Lemma record_month_le now r s h ym :
  daily_ok (_daily s) -> 0 <= u_total_tokens r -> no_colon h ->
  (forall h', u_api_key_hash r = Some h' -> no_colon h') ->
  sum_tokens (get_monthly_usage h ym (record_usage now r s))
  <= sum_tokens (get_monthly_usage h ym s) + (if matches_month h ym r then u_total_tokens r else 0).
Proof.
  intros Hok Hr Hh Hh'. rewrite !monthly_total, record_usage_daily. unfold _cleanup_old_daily.
  set (daily' := match recorded_key r with Some _ => _ | None => _ end).
  assert (Hok' : daily_ok daily').
  { unfold daily'. destruct (recorded_key r) as [[h0 d0]|]; [by apply upsert_daily_ok|done]. }
  assert (H : dsum (month_weight h ym) daily' = dsum (month_weight h ym) (_daily s)
    + (if matches_month h ym r then u_total_tokens r else 0)).
  { unfold daily', matches_month. destruct (recorded_key r) as [[h0 d0]|] eqn:Ek; [|lia].
    assert (Hn0 : no_colon h0).
    { apply recorded_key_spec in Ek as [Eh _]. by apply Hh'. }
    unfold upsert at 1. rewrite dsum_set. unfold month_weight at 2 3. cbn [fst snd].
    rewrite daily_key_prefix, inner_upsert_record by done.
    destruct (bool_decide (h = h0) && starts_with ym d0);
      destruct (dict_get (daily_key h0 d0) (_daily s)); simpl; try lia.
    unfold inner_total, dsum. simpl. lia. }
  rewrite <- H. apply dsum_filter. intros kv Hkv. unfold month_weight.
  destruct (starts_with _ _); [|lia]. apply inner_nonneg. unfold daily_ok in Hok'.
  rewrite Forall_forall in Hok'. by apply Hok'.
Qed.
