(* ===== verification/QuotaProps.v ===== *)
(** * Properties of the quota service

    The safety of reservations: under any interleaving of the repository's
    operations, what a key has used plus what it still holds reserved stays
    within its limits.  Which limit applies, what a refusal raises, and the
    cases in which the code does less than its comments promise. *)

From S2P Require Import Prelude Json Billing Usage Quota QuotaFacts.
Local Open Scope Z_scope.

(** ** Safety of reservations in key scope *)

Section Safety.
Context {U : Type} {UR : UsageRepository U} (daily_limit monthly_limit : option Z).

(** What the usage repository does when [t] tokens of key [h] on day [d] are
    recorded: at most that much is added, in that day and its month. *)
Definition usage_grows (usage usage' : U) (h d : pystr) (t : Z) : Prop :=
  (forall h' d', no_colon h' -> total_tokens_for_key h' d' usage' <=
     total_tokens_for_key h' d' usage + (if bool_decide (h' = h) && bool_decide (d' = d) then t else 0)) /\
  (forall h' ym, no_colon h' -> sum_tokens (monthly_usage h' ym usage') <=
     sum_tokens (monthly_usage h' ym usage) + (if bool_decide (h' = h) && starts_with ym d then t else 0)).

Record sys := mkSys { s_usage : U; s_repo : InMemoryQuotaRepository; s_now : Z }.

(** The operations on the repository, in any order; a reservation is completed
    by recording at most its tokens while it is live and settling it. *)
Inductive quota_step : sys -> sys -> Prop :=
| step_create s i h d tokens ttl :
    no_colon h -> 0 <= tokens -> 7 <= slen d ->
    quota_step s (mkSys (s_usage s) (create_reservation (s_usage s) (s_now s) i h d tokens
      daily_limit monthly_limit ttl None (s_repo s)).2 (s_now s))
| step_extend s i more ws :
    0 <= more ->
    quota_step s (mkSys (s_usage s) (extend_reservation (s_usage s) (s_now s) i more
      daily_limit monthly_limit ws (s_repo s)).2 (s_now s))
| step_renew s i ttl :
    quota_step s (mkSys (s_usage s) (renew_reservation (s_now s) i ttl (s_repo s)).2 (s_now s))
| step_release s i :
    quota_step s (mkSys (s_usage s) (pop_reservation i (s_repo s)) (s_now s))
| step_finish s i r t usage' :
    _reservations (s_repo s) !! i = Some r -> live (s_now s) r = true ->
    0 <= t <= r_reserved_tokens r ->
    usage_grows (s_usage s) usage' (r_api_key_hash r) (r_usage_date r) t ->
    quota_step s (mkSys usage' (pop_reservation i (s_repo s)) (s_now s))
| step_cleanup s :
    quota_step s (mkSys (s_usage s) (cleanup_expired (s_now s) (s_repo s)).2 (s_now s))
| step_tick s now' :
    s_now s <= now' -> quota_step s (mkSys (s_usage s) (s_repo s) now').

(** Tokens used and still reserved. *)
Definition day_committed (s : sys) (h d : pystr) : Z :=
  total_tokens_for_key h d (s_usage s) + get_reserved_tokens_for_key h d (s_now s) (s_repo s).
Definition month_committed (s : sys) (h ym : pystr) : Z :=
  sum_tokens (monthly_usage h ym (s_usage s)) + get_monthly_reserved_tokens_for_key h ym (s_now s) (s_repo s).

Definition key_ok (m : gmap pystr reservation) : Prop :=
  map_Forall (fun _ r => no_colon (r_api_key_hash r) /\ 7 <= slen (r_usage_date r)) m.

Record within_limits (s : sys) : Prop := {
  wl_nonneg : nonneg_reservations (_reservations (s_repo s));
  wl_keys : key_ok (_reservations (s_repo s));
  wl_day : forall L h d, daily_limit = Some L -> no_colon h -> day_committed s h d <= L;
  wl_month : forall L h ym, monthly_limit = Some L -> no_colon h -> slen ym = 7 ->
    month_committed s h ym <= L
}.

(** A change after which no sum is larger. *)
Lemma within_shrink s usage' repo' now' :
  within_limits s ->
  nonneg_reservations (_reservations repo') -> key_ok (_reservations repo') ->
  (forall h d, no_colon h -> day_committed (mkSys usage' repo' now') h d <= day_committed s h d) ->
  (forall h ym, no_colon h -> slen ym = 7 ->
     month_committed (mkSys usage' repo' now') h ym <= month_committed s h ym) ->
  within_limits (mkSys usage' repo' now').
Proof.
  intros [Hn Hk Hd Hm] Hn' Hk' Hd' Hm'. split; [done|done| |].
  - intros L h d HL Hh. specialize (Hd L h d HL Hh). specialize (Hd' h d Hh). lia.
  - intros L h ym HL Hh Hy. specialize (Hm L h ym HL Hh Hy). specialize (Hm' h ym Hh Hy). lia.
Qed.

Lemma key_ok_filter (q : reservation -> bool) m : key_ok m -> key_ok (filter (fun kv => q kv.2) m).
Proof. intros Hk i r H. apply map_lookup_filter_Some in H as [H _]. by apply (Hk i). Qed.

Lemma purge_within s : within_limits s ->
  within_limits (mkSys (s_usage s) (_purge_expired (s_now s) (s_repo s)) (s_now s)).
Proof.
  intros Hs. apply (within_shrink s); [done|apply nonneg_filter, Hs|apply key_ok_filter, Hs|..].
  - intros h d _. unfold day_committed, get_reserved_tokens_for_key. simpl.
    rewrite sum_filter; [done|apply key_day_live].
  - intros h ym _ _. unfold month_committed, get_monthly_reserved_tokens_for_key. simpl.
    rewrite sum_filter; [done|apply key_month_live].
Qed.

(** Giving reservation [i] the entry [r'], which holds at most [extra] more
    tokens for the day and month of [r']. *)
Lemma insert_committed p m i r' extra :
  nonneg_reservations m -> 0 <= extra ->
  (forall r, m !! i = Some r -> contribution p r' <= contribution p r + (if p r' then extra else 0)) ->
  (m !! i = None -> contribution p r' <= if p r' then extra else 0) ->
  sum_reserved p (<[i := r']> m) <= sum_reserved p m + (if p r' then extra else 0).
Proof.
  intros Hn He Hs Hf. destruct (m !! i) as [r|] eqn:Ei.
  - rewrite (sum_insert p m i r r' Ei). specialize (Hs r eq_refl). lia.
  - rewrite sum_insert_fresh by done. specialize (Hf eq_refl). lia.
Qed.

Lemma exceeds_false total limit L : exceeds total limit = false -> limit = Some L -> total <= L.
Proof. intros H ->. unfold exceeds in H. by apply Z.ltb_ge in H. Qed.

(** A test that does not look at the amount. *)
Definition token_blind (p : reservation -> bool) : Prop := forall n r, p (with_tokens n r) = p r.

(** A granted amount [extra] for the entry [r'] keeps the limits. *)
Lemma grant_within s i r' extra :
  within_limits s -> 0 <= extra -> 0 <= r_reserved_tokens r' ->
  no_colon (r_api_key_hash r') -> 7 <= slen (r_usage_date r') ->
  (forall p r, token_blind p -> _reservations (s_repo s) !! i = Some r ->
     contribution p r' <= contribution p r + (if p r' then extra else 0)) ->
  (_reservations (s_repo s) !! i = None -> r_reserved_tokens r' <= extra) ->
  exceeds (day_committed s (r_api_key_hash r') (r_usage_date r') + extra) daily_limit = false ->
  exceeds (month_committed s (r_api_key_hash r') (sprefix 7 (r_usage_date r')) + extra) monthly_limit = false ->
  within_limits (mkSys (s_usage s) (set_reservations (<[i := r']> (_reservations (s_repo s))) (s_repo s)) (s_now s)).
Proof.
  intros Hs He Hr Hh Hlen Hold Hnew Hd Hm. destruct Hs as [Wn Wk Wd Wm].
  assert (Hins : forall p, token_blind p -> sum_reserved p (<[i := r']> (_reservations (s_repo s)))
    <= sum_reserved p (_reservations (s_repo s)) + (if p r' then extra else 0)).
  { intros p Hp. apply insert_committed; [done|done|intros r; by apply Hold|].
    intros Hi. unfold contribution. destruct (p r'); [by apply Hnew|lia]. }
  split; simpl.
  - by apply nonneg_insert.
  - by apply map_Forall_insert_2.
  - intros L h d HL Hnc. specialize (Hins (of_key_day h d (s_now s)) ltac:(done)).
    specialize (Wd L h d HL Hnc) as Wd'. unfold day_committed, get_reserved_tokens_for_key in *. simpl in *.
    destruct (of_key_day h d (s_now s) r') eqn:Ep; [|lia].
    unfold of_key_day in Ep. bools. subst h d. pose proof (exceeds_false _ _ L Hd HL). lia.
  - intros L h ym HL Hnc Hy. specialize (Hins (of_key_month h ym (s_now s)) ltac:(done)).
    specialize (Wm L h ym HL Hnc Hy) as Wm'. unfold month_committed, get_monthly_reserved_tokens_for_key in *.
    simpl in *. destruct (of_key_month h ym (s_now s) r') eqn:Ep; [|lia].
    unfold of_key_month in Ep. bools. subst h ym. pose proof (exceeds_false _ _ L Hm HL). lia.
Qed.

Lemma create_within s i h d tokens ttl :
  within_limits s -> no_colon h -> 0 <= tokens -> 7 <= slen d ->
  within_limits (mkSys (s_usage s) (create_reservation (s_usage s) (s_now s) i h d tokens
    daily_limit monthly_limit ttl None (s_repo s)).2 (s_now s)).
Proof.
  intros Hs Hh Ht Hlen. apply purge_within in Hs. unfold create_reservation.
  destruct (exceeds _ daily_limit) eqn:E1; [done|]. destruct (exceeds _ monthly_limit) eqn:E2; [done|].
  simpl. set (s' := mkSys _ (_purge_expired (s_now s) (s_repo s)) _) in Hs.
  apply (grant_within s' i (mkReservation h None d tokens false (s_now s + ttl * us_per_second)) tokens);
    try done.
  intros p r _ Hr. pose proof (wl_nonneg _ Hs i r Hr) as H0. simpl in H0. unfold contribution. simpl.
  destruct (p (mkReservation _ _ _ _ _ _)), (p r); lia.
Qed.

Lemma extend_within s i more ws :
  within_limits s -> 0 <= more ->
  within_limits (mkSys (s_usage s) (extend_reservation (s_usage s) (s_now s) i more
    daily_limit monthly_limit ws (s_repo s)).2 (s_now s)).
Proof.
  intros Hs Hm. apply purge_within in Hs. unfold extend_reservation.
  destruct (_reservations (_purge_expired (s_now s) (s_repo s)) !! i) as [r|] eqn:Er; [|done].
  destruct (r_settled r); [done|].
  destruct (exceeds _ daily_limit) eqn:E1; [done|]. destruct (exceeds _ monthly_limit) eqn:E2; [done|].
  simpl. set (s' := mkSys _ (_purge_expired (s_now s) (s_repo s)) _) in Hs.
  pose proof (wl_nonneg _ Hs i r Er) as H0. destruct (wl_keys _ Hs i r Er) as [Hk Hl]. simpl in H0, Hk, Hl.
  apply (grant_within s' i (with_tokens (r_reserved_tokens r + more) r) more); simpl; try done; [lia|..].
  - intros p r0 Hp Hr0. pose proof (eq_trans (eq_sym Er) Hr0) as [= <-].
    unfold contribution. rewrite Hp. simpl. destruct (p r); lia.
  - intros Hn. by pose proof (eq_trans (eq_sym Er) Hn).
Qed.

(** Replacing a reservation by one that counts no more. *)
Lemma replace_within s i r r' :
  within_limits s -> _reservations (s_repo s) !! i = Some r ->
  0 <= r_reserved_tokens r' -> r_api_key_hash r' = r_api_key_hash r -> r_usage_date r' = r_usage_date r ->
  (forall h d, contribution (of_key_day h d (s_now s)) r' <= contribution (of_key_day h d (s_now s)) r) ->
  (forall h ym, contribution (of_key_month h ym (s_now s)) r' <= contribution (of_key_month h ym (s_now s)) r) ->
  within_limits (mkSys (s_usage s) (set_reservations (<[i := r']> (_reservations (s_repo s))) (s_repo s)) (s_now s)).
Proof.
  intros Hs Hi Hn Hh Hd Hc1 Hc2. destruct (wl_keys _ Hs i r Hi) as [Hk Hl].
  apply (within_shrink s); [done|..]; simpl.
  - apply nonneg_insert; [apply Hs|done].
  - apply map_Forall_insert_2; [by rewrite Hh, Hd|apply Hs].
  - intros h d _. unfold day_committed, get_reserved_tokens_for_key. simpl.
    rewrite (sum_insert _ _ i r r' Hi). specialize (Hc1 h d). lia.
  - intros h ym _ _. unfold month_committed, get_monthly_reserved_tokens_for_key. simpl.
    rewrite (sum_insert _ _ i r r' Hi). specialize (Hc2 h ym). lia.
Qed.

Lemma renew_within s i ttl :
  within_limits s ->
  within_limits (mkSys (s_usage s) (renew_reservation (s_now s) i ttl (s_repo s)).2 (s_now s)).
Proof.
  intros Hs. unfold renew_reservation.
  destruct (_reservations (s_repo s) !! i) as [r|] eqn:Er; [|by destruct s].
  destruct (r_settled r || _) eqn:E; [by destruct s|]. apply orb_false_iff in E as [E1 E2].
  apply Z.leb_gt in E2.
  assert (Hlive : live (s_now s) r = true) by (unfold live; rewrite E1; simpl; lia).
  pose proof (wl_nonneg _ Hs i r Er) as H0. simpl in H0.
  simpl. eapply replace_within; [done|exact Er|done..| |].
  - intros h d. unfold contribution, of_key_day. simpl. rewrite Hlive. clear Hlive.
    destruct (bool_decide _), (bool_decide _); simpl; try lia; destruct (live _ _); lia.
  - intros h ym. unfold contribution, of_key_month. simpl. rewrite Hlive. clear Hlive.
    destruct (bool_decide _), (bool_decide _); simpl; try lia; destruct (live _ _); lia.
Qed.

Lemma pop_sum p i m : nonneg_reservations m -> sum_reserved p (delete i m) <= sum_reserved p m.
Proof.
  intros Hn. destruct (m !! i) as [r|] eqn:Ei.
  - rewrite (sum_delete p m i r Ei). pose proof (Hn i r Ei) as H0. simpl in H0. unfold contribution.
    destruct (p r); lia.
  - by rewrite delete_id.
Qed.

Lemma finish_within s i r t usage' :
  within_limits s -> _reservations (s_repo s) !! i = Some r -> live (s_now s) r = true ->
  0 <= t <= r_reserved_tokens r ->
  usage_grows (s_usage s) usage' (r_api_key_hash r) (r_usage_date r) t ->
  within_limits (mkSys usage' (pop_reservation i (s_repo s)) (s_now s)).
Proof.
  intros Hs Hi Hl Ht [Hg1 Hg2]. pose proof (wl_nonneg _ Hs) as Hn.
  apply (within_shrink s); [done|by apply nonneg_delete|apply map_Forall_delete, Hs|..].
  - intros h d Hh. specialize (Hg1 h d Hh). unfold day_committed, get_reserved_tokens_for_key. simpl.
    rewrite (sum_delete _ _ i r Hi). unfold contribution, of_key_day at 2. rewrite Hl.
    destruct (bool_decide (h = r_api_key_hash r)) eqn:E1, (bool_decide (d = r_usage_date r)) eqn:E2;
      bools; subst; simpl in *; rewrite ?bool_decide_eq_true_2 by done; simpl; try lia;
      destruct (_ && _); lia.
  - intros h ym Hh Hy. specialize (Hg2 h ym Hh). unfold month_committed, get_monthly_reserved_tokens_for_key.
    simpl. rewrite (sum_delete _ _ i r Hi). unfold contribution, of_key_month at 2. rewrite Hl.
    destruct (bool_decide (h = r_api_key_hash r)) eqn:E1, (starts_with ym (r_usage_date r)) eqn:E2;
      bools; simpl in *; try (destruct (_ && _); lia).
    subst. apply starts_with_true in E2 as [rest E2].
    rewrite !bool_decide_eq_true_2; [simpl; lia| |done].
    unfold sprefix. rewrite E2. unfold slen in Hy. rewrite take_app_length'; [done|lia].
Qed.

End Safety.

(** The in-memory usage repository grows as the safety theorem assumes. *)
Lemma record_usage_grows now r s h d :
  daily_ok (_daily s) -> 0 <= u_total_tokens r -> no_colon h -> recorded_key r = Some (h, d) ->
  usage_grows s (record_usage now r s) h d (u_total_tokens r).
Proof.
  intros Hok Hr Hh Hk. destruct (recorded_key_spec _ _ _ Hk) as [Eh Ed].
  assert (Hc : forall h', u_api_key_hash r = Some h' -> no_colon h') by (intros h' E; simplify_eq; congruence).
  split; simpl; intros h' x Hh'.
  - pose proof (record_day_le now r s h' x Hok Hr Hh' Hc) as H. unfold matches_day in H. rewrite Hk in H.
    replace (bool_decide (h' = h) && bool_decide (x = d)) with (bool_decide (Some (h, d) = Some (h', x)));
      [done|]. rewrite <- bool_decide_and. apply bool_decide_ext. naive_solver.
  - pose proof (record_month_le now r s h' x Hok Hr Hh' Hc) as H. unfold matches_month in H. by rewrite Hk in H.
Qed.

Definition no_usage : InMemoryUsageRepository := mkUsageRepo [] [].
Definition no_quota : InMemoryQuotaRepository := mkQuotaRepo ∅ ∅.
Definition demo_day : pystr := u "2025-01-31".
Definition start_sys : sys := mkSys no_usage no_quota 0.
Definition granted_sys : sys :=
  mkSys no_usage (create_reservation no_usage 0 (u "r1") (u "key") demo_day 80 (Some 100) None 600 None
                    no_quota).2 0.
Definition finished_sys : sys :=
  mkSys (record_usage 0 (mkUsageRecord (u "q") (u "m") 10 40 50 (Some (u "key")) None (Some demo_day)) no_usage)
    (pop_reservation (u "r1") (s_repo granted_sys)) 0.


(** ** Which limit applies *)

Section Limits.
Context {U R : Type} {UR : UsageRepository U} {B : BillingRepository R}.
Implicit Types (config : QuotaConfig) (billing : option R) (q : InMemoryQuotaRepository).

(** The first limit that is set, in order of precedence. *)
Fixpoint first_set (limits : list (option Z)) : option Z :=
  match limits with
  | [] => None
  | Some n :: _ => Some n
  | None :: rest => first_set rest
  end.

Definition override_of (f : WorkspaceQuota -> option Z) (ws : pystr) q : option Z :=
  match get_workspace_quota ws q with Some o => f o | None => None end.

(** In key scope only the settings count; in workspace scope each of the
    two limits of a workspace is the first one set among its override, the plan
    of its active subscription and the settings. *)
Theorem resolve_limits_precedence config billing ws q :
  _resolve_limits config billing ws q =
  match quota_scope config, ws with
  | WorkspaceScope, Some w =>
      (first_set [override_of wq_daily_token_limit w q; (_plan_token_limits billing w).1;
                  cfg_daily_token_limit config],
       first_set [override_of wq_monthly_token_limit w q; (_plan_token_limits billing w).2;
                  cfg_monthly_token_limit config])
  | _, _ => (cfg_daily_token_limit config, cfg_monthly_token_limit config)
  end.
Proof.
  unfold _resolve_limits, _resolve_workspace_limits, override_of.
  destruct (quota_scope config); [done|]. destruct ws as [w|]; [|done].
  destruct (_plan_token_limits billing w) as [pd pm]. simpl.
  destruct (get_workspace_quota w q) as [[i od om]|]; simpl;
    repeat match goal with |- context [match ?o with Some _ => _ | None => _ end] => destruct o end; done.
Qed.

(** [_seconds_until_next_day] is the whole number of seconds left of the
    UTC day: never negative, at most a day, and the next midnight lies within
    the second that follows. *)
Theorem seconds_until_next_day_spec now :
  0 <= _seconds_until_next_day now <= 86400 /\
  now + _seconds_until_next_day now * us_per_second <= (now / us_per_day + 1) * us_per_day
    < now + (_seconds_until_next_day now + 1) * us_per_second.
Proof.
  unfold _seconds_until_next_day, us_per_day, us_per_second.
  pose proof (Z.div_mod now 86400000000) as H1. pose proof (Z.mod_pos_bound now 86400000000) as H2.
  set (a := now / (86400 * 1000000)) in *. change (86400 * 1000000) with 86400000000 in *. fold a in H1.
  assert (H3 : 0 < (a + 1) * 86400000000 - now <= 86400000000) by lia.
  pose proof (Z.div_mod ((a + 1) * 86400000000 - now) 1000000).
  pose proof (Z.mod_pos_bound ((a + 1) * 86400000000 - now) 1000000). lia.
Qed.
End Limits.

(** In key scope a refused reservation always raises [QuotaExceededError]
    with the time to wait, and a granted one is stored with exactly the
    requested amount under today's date. *)
Theorem reserve_key_scope {U R} {UR : UsageRepository U} {B : BillingRepository R}
    config (billing : option R) (usage : U) now i h max_tokens prompt ws q r q' :
  quota_scope config = KeyScope -> enabled config = true ->
  reserve config billing usage now i h max_tokens prompt ws q = (r, q') ->
  match r with
  | Ok (Some qr) =>
      qr_reserved_tokens qr = prompt + completion_tokens config max_tokens /\
      _reservations q' !! i = Some (mkReservation h None (date_str now) (qr_reserved_tokens qr) false
                                      (now + reservation_ttl_seconds config * us_per_second))
  | Ok None => False
  | Err (QuotaExceededError _ (Some _)) => _reservations q' = _reservations (_purge_expired now q)
  | Err _ => False
  end.
Proof.
  intros Hk He H. unfold reserve in H. rewrite He in H. simpl in H.
  unfold _resolve_limits, dimension_workspace_id in H. rewrite Hk in H. unfold create_reservation in H.
  destruct (exceeds _ (cfg_daily_token_limit config)) eqn:E1.
  { unfold exceeds in E1. unfold _raise_daily_limit in H.
    destruct (cfg_daily_token_limit config); [|done]. by injection H as <- <-. }
  destruct (exceeds _ (cfg_monthly_token_limit config)) eqn:E2.
  { unfold exceeds in E2. unfold _raise_monthly_limit in H.
    destruct (cfg_monthly_token_limit config); [|done]. by injection H as <- <-. }
  injection H as <- <-. simpl. split; [done|]. by rewrite lookup_insert_eq.
Qed.

Lemma reserve_key_scope_witness :
  exists qr, (reserve (R := InMemoryBillingRepository) (mkQuotaConfig (Some 100) None 512 600 60 KeyScope) None no_usage 0 (u "r1")
     (u "key") (Some 40) 20 None no_quota).1 = Ok (Some qr) /\ qr_reserved_tokens qr = 60.
Proof.
  exists (mkQuotaReservation (u "r1") (u "key") 60 (date_str 0) None). split; [vm_compute; reflexivity|].
  pose proof (reserve_key_scope (R := InMemoryBillingRepository)
    (mkQuotaConfig (Some 100) None 512 600 60 KeyScope) None no_usage 0 (u "r1") (u "key")
    (Some 40) 20 None no_quota _ _ eq_refl eq_refl eq_refl) as H.
  exact (proj1 H).
Defined.

(** ** Where the code falls short *)

Definition small_plan : Plan := mkPlan (u "p1") (u "small") 1 (Some 10) None None None None [].
Definition small_billing : InMemoryBillingRepository :=
  create_subscription (mkSubscription (u "s1") (u "team") (u "p1") SubscriptionStatus.ACTIVE None None)
    (InMemoryBillingRepository_init [small_plan]).

(** A daily limit that comes from the plan while the settings have only a
    monthly one is refused with [AssertionError], not [QuotaExceededError]. *)
Theorem plan_limit_refusal_asserts :
  (reserve (mkQuotaConfig None (Some 1000) 512 600 60 WorkspaceScope) (Some small_billing) no_usage 0
     (u "r1") (u "key") (Some 20) 0 (Some (u "team")) no_quota).1 = Err AssertionError.
Proof. vm_compute. reflexivity. Qed.

(** Without limits in the settings the plan's limit is not enforced at all:
    the same reservation of 20 tokens against a plan of 10 is let through
    unreserved. *)
Theorem plan_limit_needs_settings :
  reserve (mkQuotaConfig None None 512 600 60 WorkspaceScope) (Some small_billing) no_usage 0
    (u "r1") (u "key") (Some 20) 0 (Some (u "team")) no_quota = (Ok None, no_quota).
Proof. vm_compute. reflexivity. Qed.

Definition shared_config : QuotaConfig := mkQuotaConfig (Some 100) None 512 600 60 WorkspaceScope.
Definition reserve_shared (i h : string) (n : Z) (q : InMemoryQuotaRepository) : InMemoryQuotaRepository :=
  (reserve shared_config (Some small_billing) no_usage 0 (u i) (u h) (Some n) 0 (Some (u "ws")) q).2.

(** Extending a reservation is judged by its key alone: two keys of one
    workspace hold its whole limit of 100 tokens, and one of them still extends
    its reservation by 30, so the workspace has 130 reserved. *)
Theorem extend_exceeds_workspace_limit :
  let q := reserve_shared "r2" "k2" 40 (reserve_shared "r1" "k1" 60 no_quota) in
  let '(r, q') := extend shared_config (Some small_billing) no_usage 0 (u "r1") 30 (Some (u "ws")) q in
  r = Ok tt /\ sum_reserved (of_workspace_day (u "ws") (date_str 0) 0) (_reservations q') = 130.
Proof. vm_compute. split; reflexivity. Qed.
