(* ===== verification/Lifecycle.v ===== *)
(** * The life of one reservation: [app/quota/lifecycle.py]

    [ReservationLifecycle] as a state machine: the renewal task and its failure
    signal, [run]'s race between an operation and the signal, and the single
    settlement.  The calls it makes on the quota service are a log. *)

From S2P Require Import Prelude.
Local Open Scope Z_scope.

Inductive QuotaReservationError := RenewalRefused | RenewalRaised.

(** The calls on the quota service that took effect. *)
Inductive service_call := CallSettle (reservation_id : pystr) | CallRelease (reservation_id : pystr)
| CallRenew (reservation_id : pystr).

(** [_renewal_failure]: no future, pending, or failed. *)
Inductive failure_signal := NoSignal | Pending | Failed (e : QuotaReservationError).

Record ReservationLifecycle := mkLifecycle {
  _reservation : option pystr;
  _has_service : bool;
  _renewal_failure : failure_signal;
  _renewal_running : bool;
  _finalized : bool;
  calls : list service_call
}.

(** [__init__] *)
Definition lifecycle_init (reservation : option pystr) (has_service : bool) : ReservationLifecycle :=
  mkLifecycle reservation has_service NoSignal false false [].

(** The reservation, when there is one and a service to call. *)
Definition managed (lc : ReservationLifecycle) : option pystr :=
  if _has_service lc then _reservation lc else None.

(** [__aenter__] *)
Definition aenter (lc : ReservationLifecycle) : ReservationLifecycle :=
  match managed lc with
  | None => lc
  | Some _ => mkLifecycle (_reservation lc) (_has_service lc) Pending true (_finalized lc) (calls lc)
  end.

(** [_stop_renewal] *)
Definition _stop_renewal (lc : ReservationLifecycle) : ReservationLifecycle :=
  mkLifecycle (_reservation lc) (_has_service lc) NoSignal false (_finalized lc) (calls lc).

(** The common shape of [settle] and [release]; [ok] is whether the service call
    returned. *)
Definition finalize (call : pystr -> service_call) (ok : bool) (lc : ReservationLifecycle)
  : result unit unit * ReservationLifecycle :=
  let lc := _stop_renewal lc in
  match managed lc with
  | Some i =>
      if _finalized lc then (Ok tt, lc)
      else if ok then
        (Ok tt, mkLifecycle (_reservation lc) (_has_service lc) (_renewal_failure lc)
                  (_renewal_running lc) true (calls lc ++ [call i]))
      else (Err tt, lc)
  | None => (Ok tt, lc)
  end.

Definition settle := finalize CallSettle.
Definition release := finalize CallRelease.

(** [__aexit__] *)
Definition aexit (ok : bool) (lc : ReservationLifecycle) : result unit unit * ReservationLifecycle :=
  let lc := _stop_renewal lc in
  if negb (_finalized lc) then release ok lc else (Ok tt, lc).

(** [_set_renewal_failure] *)
Definition _set_renewal_failure (e : QuotaReservationError) (lc : ReservationLifecycle)
  : ReservationLifecycle :=
  match _renewal_failure lc with
  | Pending => mkLifecycle (_reservation lc) (_has_service lc) (Failed e) (_renewal_running lc)
                 (_finalized lc) (calls lc)
  | _ => lc
  end.

(** One wake-up of [_renew_reservation]: the answer of the service, or [None]
    when it raised.  Nothing happens once the task has ended. *)
Definition renewal_tick (renewed : option bool) (lc : ReservationLifecycle) : ReservationLifecycle :=
  let ended lc := mkLifecycle (_reservation lc) (_has_service lc) (_renewal_failure lc) false
                    (_finalized lc) (calls lc) in
  match _renewal_running lc, _reservation lc with
  | true, Some i =>
      match renewed with
      | Some true => mkLifecycle (_reservation lc) (_has_service lc) (_renewal_failure lc) true
                       (_finalized lc) (calls lc ++ [CallRenew i])
      | Some false => ended (_set_renewal_failure RenewalRefused lc)
      | None => ended (_set_renewal_failure RenewalRaised lc)
      end
  | _, _ => lc
  end.

(** *** [run] *)

(** How the operation ends. *)
Inductive op_end (T : Type) := OpReturned (v : T) | OpRaised (text : pystr) | OpCancelled.
Arguments OpReturned {T} v.
Arguments OpRaised {T} text.
Arguments OpCancelled {T}.

Inductive run_error := OperationError (text : pystr) | OperationCancelled | RenewalError (e : QuotaReservationError).

Definition await_operation {T} (o : op_end T) : result run_error T :=
  match o with
  | OpReturned v => Ok v
  | OpRaised text => Err (OperationError text)
  | OpCancelled => Err OperationCancelled
  end.

(** [run]: [finished] is how the operation ended before the wait was over;
    [cancelled] how it ends when it is cancelled instead. *)
Definition run {T} (return_quota_failure_result : bool) (finished : option (op_end T))
    (cancelled : op_end T) (lc : ReservationLifecycle) : option (result run_error T) :=
  match _renewal_failure lc with
  | NoSignal => await_operation <$> finished
  | Pending => await_operation <$> finished
  | Failed e =>
      let o := default cancelled finished in
      Some (if return_quota_failure_result && match o with OpCancelled => false | _ => true end
            then await_operation o else Err (RenewalError e))
  end.

(** ** Once settled or released, never again *)

(** What may happen between [__aenter__] and [__aexit__]. *)
Inductive action := ASettle (ok : bool) | ARelease (ok : bool) | ATick (renewed : option bool).

Definition act (lc : ReservationLifecycle) (a : action) : ReservationLifecycle :=
  match a with
  | ASettle ok => (settle ok lc).2
  | ARelease ok => (release ok lc).2
  | ATick r => renewal_tick r lc
  end.

Definition is_final (c : service_call) : bool := match c with CallRenew _ => false | _ => true end.

Definition final_calls (lc : ReservationLifecycle) : list service_call := filter (fun c => is_final c) (calls lc).

(** What holds at every moment: a final call was made exactly when the life
    cycle is finalized, and then renewal is over. *)
Record lifecycle_ok (lc : ReservationLifecycle) : Prop := {
  lo_final : length (final_calls lc) = if _finalized lc then 1%nat else 0%nat;
  lo_stopped : _finalized lc = true -> _renewal_running lc = false;
  lo_managed : managed lc = None -> calls lc = [] /\ _renewal_running lc = false
}.

Lemma finalize_ok f ok lc :
  (forall i, is_final (f i) = true) -> lifecycle_ok lc -> lifecycle_ok (finalize f ok lc).2.
Proof.
  intros Hf [H1 H2 H3]. unfold finalize.
  change (managed (_stop_renewal lc)) with (managed lc).
  destruct (managed lc) as [i|] eqn:Em; [|split; [done|done|]; intros _; by destruct H3].
  assert (Hm : forall P : Prop, managed lc = None -> P) by (intros P; by rewrite Em).
  simpl. destruct (_finalized lc) eqn:Ef; [split; simpl; rewrite ?Ef; [exact H1|done|apply Hm]|].
  destruct ok; [|split; simpl; rewrite ?Ef; [exact H1|done|apply Hm]].
  split; [|done|apply Hm].
  unfold final_calls in *. simpl. rewrite filter_app, length_app, H1, filter_cons.
  rewrite decide_True by (by rewrite Hf). done.
Qed.

Lemma tick_ok r lc : lifecycle_ok lc -> lifecycle_ok (renewal_tick r lc).
Proof.
  intros [H1 H2 H3]. unfold renewal_tick.
  destruct (_renewal_running lc) eqn:Er; [|by split; rewrite ?Er]. destruct (_reservation lc) as [i|] eqn:Ei; [|by split; rewrite ?Er].
  assert (Hf : _finalized lc = false).
  { apply not_true_is_false. intros Hf. apply H2 in Hf. congruence. }
  assert (Hm : managed lc <> None) by (intros Hm; destruct (H3 Hm); congruence).
  unfold managed in Hm. rewrite Ei in Hm.
  destruct r as [[|]|]; unfold _set_renewal_failure; [|destruct (_renewal_failure lc)..];
    split; unfold final_calls, managed in *; simpl; rewrite ?Ei, ?Hf in *; try done.
  by rewrite filter_app, app_nil_r.
Qed.

Lemma act_ok lc a : lifecycle_ok lc -> lifecycle_ok (act lc a).
Proof. intros H. destruct a; simpl; [by apply finalize_ok|by apply finalize_ok|by apply tick_ok]. Qed.

(** C32. A managed reservation is finalized exactly once: whatever renewals,
    settlements and releases happen inside the [async with] block, failing
    service calls included, when [__aexit__]'s release can reach the service
    exactly one settle or release was made in all, renewal has stopped, and the
    block of an unmanaged reservation makes no call. *)
Theorem lifecycle_finalizes_once i has_service actions :
  let lc := (aexit true (foldl act (aenter (lifecycle_init i has_service)) actions)).2 in
  _renewal_running lc = false /\
  match managed lc with
  | Some _ => length (final_calls lc) = 1%nat
  | None => calls lc = []
  end.
Proof.
  intros lc. set (lc1 := foldl act (aenter (lifecycle_init i has_service)) actions) in lc.
  assert (H1 : lifecycle_ok lc1).
  { unfold lc1. assert (H0 : lifecycle_ok (aenter (lifecycle_init i has_service))).
    { unfold aenter, managed, lifecycle_init. simpl. destruct has_service, i; by split. }
    revert H0. generalize (aenter (lifecycle_init i has_service)). clear lc lc1.
    induction actions as [|a actions IH]; intros lc Hlc; [done|]. by apply IH, act_ok. }
  assert (H2 : lifecycle_ok (_stop_renewal lc1)).
  { destruct H1 as [A1 A2 A3]. split; [done|done|]. intros Hm. by destruct (A3 Hm). }
  assert (H3 : lifecycle_ok lc).
  { unfold lc, aexit. destruct (_finalized (_stop_renewal lc1)); [done|]. by apply finalize_ok. }
  assert (Hfin : _renewal_running lc = false /\ (managed lc <> None -> _finalized lc = true)).
  { unfold lc, aexit. simpl. destruct (_finalized lc1) eqn:Ef; simpl; [done|].
    unfold release, finalize. simpl. change (managed (_stop_renewal (_stop_renewal lc1))) with (managed lc1).
    destruct (managed lc1) as [k|] eqn:Em; simpl; [by rewrite Ef|].
    split; [done|]. change (managed lc1 <> None -> _finalized lc1 = true). congruence. }
  destruct Hfin as [Hr Hf]. split; [done|]. destruct (managed lc) eqn:Em.
  - rewrite (lo_final _ H3), Hf by congruence. done.
  - by apply (lo_managed _ H3).
Qed.

(** A failed renewal wins the race: [run] raises the renewal error even if
    the operation has returned a value, unless its caller asked for the result
    and the operation did produce one. *)
Theorem run_renewal_failure {T} flag (finished : option (op_end T)) cancelled lc e r :
  _renewal_failure lc = Failed e -> run flag finished cancelled lc = Some r ->
  r = Err (RenewalError e) \/
  (flag = true /\ default cancelled finished <> OpCancelled /\ r = await_operation (default cancelled finished)).
Proof.
  intros He H. unfold run in H. rewrite He in H. destruct flag; simpl in H; [|left; congruence].
  destruct (default cancelled finished) eqn:Eo; simpl in H; injection H as <-; auto.
Qed.

Definition failed_lifecycle : ReservationLifecycle :=
  renewal_tick (Some false) (aenter (lifecycle_init (Some (u "r")) true)).
Definition returned_one : option (op_end Z) := Some (OpReturned 1).

Lemma run_renewal_failure_witness :
  run false returned_one OpCancelled failed_lifecycle = Some (Err (RenewalError RenewalRefused)) /\
  (Err (RenewalError RenewalRefused) = Err (A := Z) (RenewalError RenewalRefused) \/
   (false = true /\ default OpCancelled returned_one <> OpCancelled /\
    Err (RenewalError RenewalRefused) = await_operation (default OpCancelled returned_one))).
Proof.
  split; [reflexivity|].
  apply (run_renewal_failure false returned_one OpCancelled failed_lifecycle RenewalRefused); reflexivity.
Defined.
