(* ===== verification/AgentRuntime.v ===== *)
(** * The agent runtime: [app/agents/models.py] and [app/agents/runtime.py]

    [AgentRuntime.run] is a bounded model/tool loop.  It is written here in a
    small state monad over the run ([RunS]: the agent state, the event log, what
    the observer and the recorder were told, and the outside world) with three
    outcomes: go on, return a result, raise.  The world is arbitrary: clocks,
    the cancellation flag, the model, the tools and the scheduling of the waits
    are the fields of [runtime_env], so the theorems hold for every behaviour of
    them. *)

From S2P Require Import Prelude Json ToolModels.
Local Open Scope Z_scope.

(** ** Models *)

Module RunStatus.
Inductive t := COMPLETED | STOPPED | FAILED | CANCELLED | TIMED_OUT.
#[global] Instance eq_dec : EqDecision t.
Proof. solve_decision. Defined.
End RunStatus.

Module StopReason.
Inductive t := DIRECT_ANSWER | MAX_STEPS | DEADLINE_EXCEEDED | EXTERNAL_CANCELLED
  | MODEL_ERROR | INVALID_DECISION | TOKEN_BUDGET_EXCEEDED.
#[global] Instance eq_dec : EqDecision t.
Proof. solve_decision. Defined.
End StopReason.

Module AgentEventKind.
Inductive t := RUN_STARTED | STEP_STARTED | STEP_COMPLETED | MODEL_DECISION | TOOL_STARTED
  | TOOL_COMPLETED | TOOL_FAILED | ANSWER_DELTA | ANSWER | RUN_STOPPED.
#[global] Instance eq_dec : EqDecision t.
Proof. solve_decision. Defined.
End AgentEventKind.

(** The values of the enums *)
Definition run_status_value (s : RunStatus.t) : pystr :=
  match s with
  | RunStatus.COMPLETED => u "completed"
  | RunStatus.STOPPED => u "stopped"
  | RunStatus.FAILED => u "failed"
  | RunStatus.CANCELLED => u "cancelled"
  | RunStatus.TIMED_OUT => u "timed_out"
  end.
Definition stop_reason_value (r : StopReason.t) : pystr :=
  match r with
  | StopReason.DIRECT_ANSWER => u "direct_answer"
  | StopReason.MAX_STEPS => u "max_steps"
  | StopReason.DEADLINE_EXCEEDED => u "deadline_exceeded"
  | StopReason.EXTERNAL_CANCELLED => u "external_cancelled"
  | StopReason.MODEL_ERROR => u "model_error"
  | StopReason.INVALID_DECISION => u "invalid_decision"
  | StopReason.TOKEN_BUDGET_EXCEEDED => u "token_budget_exceeded"
  end.
Definition kind_value (k : AgentEventKind.t) : pystr :=
  match k with
  | AgentEventKind.RUN_STARTED => u "run_started"
  | AgentEventKind.STEP_STARTED => u "step_started"
  | AgentEventKind.STEP_COMPLETED => u "step_completed"
  | AgentEventKind.MODEL_DECISION => u "model_decision"
  | AgentEventKind.TOOL_STARTED => u "tool_started"
  | AgentEventKind.TOOL_COMPLETED => u "tool_completed"
  | AgentEventKind.TOOL_FAILED => u "tool_failed"
  | AgentEventKind.ANSWER_DELTA => u "answer_delta"
  | AgentEventKind.ANSWER => u "answer"
  | AgentEventKind.RUN_STOPPED => u "run_stopped"
  end.

Inductive AgentMessageRole := RoleUser | RoleAssistant | RoleTool.

Record AgentMessage := mkAgentMessage {
  msg_role : AgentMessageRole;
  msg_content : pystr;
  msg_tool_call_id : option pystr;
  msg_tool_name : option pystr
}.

Record ToolCall := mkToolCall {
  call_id : pystr;
  call_name : pystr;
  call_arguments : list (pystr * json)
}.

Record AgentDecision := mkAgentDecision {
  answer : option pystr;
  tool_calls : list ToolCall;
  token_usage : option Z;
  usage_complete : bool
}.

Record ToolResult := mkToolResult {
  res_call_id : pystr;
  res_name : pystr;
  res_content : pystr;
  res_succeeded : bool;
  res_error : option pystr;
  res_truncated : bool;
  res_cached : bool
}.

Record AgentStep := mkAgentStep {
  step_index : Z;
  step_decision : AgentDecision;
  step_tool_results : list ToolResult
}.

Record AgentState := mkAgentState {
  st_run_id : pystr;
  st_user_input : pystr;
  st_messages : list AgentMessage;
  st_steps : list AgentStep;
  st_token_usage : Z;
  st_request_id : option pystr
}.

Record AgentEvent := mkAgentEvent {
  ev_kind : AgentEventKind.t;
  ev_run_id : pystr;
  ev_sequence : Z;
  ev_occurred_at : Z;
  ev_step_index : option Z;
  ev_message : option pystr;
  ev_decision : option AgentDecision;
  ev_tool_call : option ToolCall;
  ev_tool_result : option ToolResult;
  ev_status : option RunStatus.t;
  ev_stop_reason : option StopReason.t;
  ev_cumulative_token_usage : option Z
}.

Record AgentRunResult := mkAgentRunResult {
  rr_run_id : pystr;
  rr_status : RunStatus.t;
  rr_stop_reason : StopReason.t;
  rr_answer : option pystr;
  rr_state : AgentState;
  rr_events : list AgentEvent;
  rr_token_usage : Z;
  rr_error : option pystr
}.

(** Updates of the mutable state. *)
Definition add_message (m : AgentMessage) (s : AgentState) : AgentState :=
  mkAgentState (st_run_id s) (st_user_input s) (st_messages s ++ [m]) (st_steps s)
    (st_token_usage s) (st_request_id s).
Definition add_step (x : AgentStep) (s : AgentState) : AgentState :=
  mkAgentState (st_run_id s) (st_user_input s) (st_messages s) (st_steps s ++ [x])
    (st_token_usage s) (st_request_id s).
Definition add_usage (n : Z) (s : AgentState) : AgentState :=
  mkAgentState (st_run_id s) (st_user_input s) (st_messages s) (st_steps s)
    (st_token_usage s + n) (st_request_id s).

(** ** Exceptions, and the outcome of [asyncio.wait] *)

(** [CancelledError quota]: whether one of its arguments is a
    [QuotaReservationError] ([_is_quota_renewal_cancellation]). *)
Inductive exn :=
| RuntimeStop (reason : StopReason.t)
| CancelledError (quota : bool)
| QuotaExceededError
| PyError (message : pystr).

(** What code outside the runtime can raise. *)
Inductive op_error :=
| OpCancelled (quota : bool)
| OpQuotaExceeded
| OpError (message : pystr).

Definition exn_of (e : op_error) : exn :=
  match e with
  | OpCancelled quota => CancelledError quota
  | OpQuotaExceeded => QuotaExceededError
  | OpError m => PyError m
  end.

(** Awaiting an operation next to the cancellation waiter: either the wait
    itself is cancelled, or it returns with the operation done or not, and the
    waiter done or not. *)
Inductive waited (A : Type) :=
| WaitInterrupted (quota : bool)
| WaitReturned (op : option (result op_error A)) (cancel_done : bool).
Arguments WaitInterrupted {A} quota.
Arguments WaitReturned {A} op cancel_done.

Inductive answer_chunk := Chunk (content : pystr) | InvalidChunk.
Inductive answer_stream := StreamUnavailable | StreamInvalid | StreamOf (chunks : nat).

(** ** The outside world of one run *)
Record runtime_env (W : Type) := mkEnv {
  env_utc_now : W -> Z * W;
  env_loop_time : W -> Z * W;
  env_cancel_is_set : W -> bool * W;
  (** waiting for [model.decide(state)] with a timeout *)
  env_decide : option Z -> AgentState -> W -> waited AgentDecision * W;
  (** [model.stream_answer(state)]: the chunks it will produce, and each [anext] *)
  env_stream : AgentState -> W -> answer_stream * W;
  env_next_chunk : option Z -> W -> waited answer_chunk * W;
  env_stream_end : option Z -> W -> waited unit * W;
  env_stream_close : W -> option op_error * W;
  (** [tool_executor.execute(..., timeout_seconds)] within a wait, or a tool of
      the plain mapping *)
  env_execute : option Z -> option Z -> ToolCall -> ToolContext -> W -> waited ToolExecutionResult * W;
  env_plain_tool : pystr -> bool;
  env_run_plain : option Z -> ToolCall -> ToolContext -> W -> waited pystr * W
}.
Arguments mkEnv {W}.
Arguments env_utc_now {W}.
Arguments env_loop_time {W}.
Arguments env_cancel_is_set {W}.
Arguments env_decide {W}.
Arguments env_stream {W}.
Arguments env_next_chunk {W}.
Arguments env_stream_end {W}.
Arguments env_stream_close {W}.
Arguments env_execute {W}.
Arguments env_plain_tool {W}.
Arguments env_run_plain {W}.

(** ** The runtime object *)
Record AgentRuntime := mkAgentRuntime {
  rt_uses_executor : bool;
  rt_tool_output_max_chars : Z;
  rt_has_observer : bool;
  rt_has_recorder : bool
}.

(** [__init__]; [created] says whether the factory called by [_create_recorder]
    yields a recorder.  As an observer and a recorder are never both given, the
    test [self._observer is self._recorder] of [_notify_observer] only holds
    when there is no observer. *)
Definition AgentRuntime_init (has_tools uses_executor : bool) (max_chars : Z)
    (has_observer has_recorder has_factory created : bool) : result pystr AgentRuntime :=
  if has_tools && uses_executor then Err (u "provide tools or tool_executor, not both")
  else if max_chars <? 1 then Err (u "tool_output_max_chars must be greater than zero")
  else if has_observer && has_recorder then Err (u "provide observer or recorder, not both")
  else if has_recorder && has_factory then
    Err (u "provide recorder or recorder_factory, not both")
  else Ok (mkAgentRuntime uses_executor max_chars has_observer
             (if has_factory then created else has_recorder)).

Definition _TOOL_OUTPUT_TRUNCATION_MARKER : pystr := u "...[tool output truncated]".
Definition _TOOL_EXECUTION_ERROR : pystr := u "tool_execution_failed".
Definition _TOOL_FAILURE_MESSAGE : pystr := u "Tool execution failed.".
Definition _TOOL_NOT_FOUND_MESSAGE : pystr := u "Requested tool is unavailable.".
Definition AGENT_QUOTA_FAILURE : pystr := u "quota_exceeded".

(** The arguments of [run]. *)
Record run_args := mkRunArgs {
  ra_user_input : pystr;
  ra_max_steps : Z;
  ra_timeout : option Z;
  ra_deadline : option Z;
  ra_has_cancel : bool;
  ra_token_budget : option Z;
  ra_run_id : option pystr;
  ra_request_id : option pystr;
  ra_stream_answer : bool;
  ra_metadata : list (pystr * json)
}.

(** ** Pure helpers *)

(** [_resolve_deadline] *)
Definition _resolve_deadline (now : Z) (timeout deadline : option Z) : option Z :=
  match timeout, deadline with
  | None, _ => deadline
  | Some t, None => Some (now + t)
  | Some t, Some d => Some (Z.min (now + t) d)
  end.

(** [_validate_decision] *)
Definition _validate_decision (d : AgentDecision) : option pystr :=
  if bool_decide (is_Some (answer d)) && negb (bool_decide (tool_calls d = []))
  then Some (u "decision cannot contain both an answer and tool calls")
  else if bool_decide (answer d = None) && bool_decide (tool_calls d = [])
  then Some (u "decision must contain an answer or at least one tool call")
  else if match answer d with Some a => bool_decide (strip a = []) | None => false end
  then Some (u "answer must not be empty")
  else if match token_usage d with Some n => n <? 0 | None => false end
  then Some (u "token_usage must not be negative")
  else None.

(** [_status_for] *)
Definition _status_for (r : StopReason.t) : RunStatus.t :=
  match r with
  | StopReason.DEADLINE_EXCEEDED => RunStatus.TIMED_OUT
  | StopReason.EXTERNAL_CANCELLED => RunStatus.CANCELLED
  | StopReason.MODEL_ERROR | StopReason.INVALID_DECISION => RunStatus.FAILED
  | _ => RunStatus.STOPPED
  end.

(** [_truncate_tool_output] *)
Definition _truncate_tool_output (max_chars : Z) (content : pystr) : pystr * bool :=
  if slen content <=? max_chars then (content, false) else
  let available := max_chars - slen _TOOL_OUTPUT_TRUNCATION_MARKER in
  if available <=? 0 then (sprefix max_chars _TOOL_OUTPUT_TRUNCATION_MARKER, true)
  else (sprefix available content ++ _TOOL_OUTPUT_TRUNCATION_MARKER, true).

(** [_tool_call_fingerprint] *)
Definition _tool_call_fingerprint (c : ToolCall) : pystr :=
  dump_json (JObj [(u "name", JStr (call_name c)); (u "arguments", JObj (call_arguments c))]).

(** [_find_cached_tool_result]: the calls and results of a step, zipped. *)
Fixpoint find_in_step (fp : pystr) (calls : list ToolCall) (results : list ToolResult)
  : option ToolResult :=
  match calls, results with
  | c :: cs, r :: rs =>
      if res_succeeded r && bool_decide (_tool_call_fingerprint c = fp)
      then Some r else find_in_step fp cs rs
  | _, _ => None
  end.

Fixpoint find_in_steps (fp : pystr) (steps : list AgentStep) : option ToolResult :=
  match steps with
  | [] => None
  | x :: xs =>
      match find_in_step fp (tool_calls (step_decision x)) (step_tool_results x) with
      | Some r => Some r
      | None => find_in_steps fp xs
      end
  end.

Definition _find_cached_tool_result (s : AgentState) (c : ToolCall) : option ToolResult :=
  find_in_steps (_tool_call_fingerprint c) (st_steps s).

Definition is_calculator (c : ToolCall) : bool := bool_decide (call_name c = u "calculator").

(** [_last_calculator_result] *)
Definition _last_calculator_result (s : AgentState) : option pystr :=
  match last (st_steps s) with
  | None => None
  | Some x =>
      let calls := tool_calls (step_decision x) in
      let results := step_tool_results x in
      if bool_decide (calls = []) then None
      else if negb (forallb is_calculator calls) then None
      else if negb (length results =? length calls)%nat then None
      else if negb (forallb res_succeeded results) then None
      else res_content <$> last results
  end.

(** [include_result_event] *)
Definition include_result_event (e : AgentEvent) : bool :=
  match ev_kind e with
  | AgentEventKind.STEP_STARTED | AgentEventKind.STEP_COMPLETED => false
  | _ => true
  end.

(** [replace(event, sequence=index)] *)
Definition with_sequence (n : Z) (e : AgentEvent) : AgentEvent :=
  mkAgentEvent (ev_kind e) (ev_run_id e) n (ev_occurred_at e) (ev_step_index e) (ev_message e)
    (ev_decision e) (ev_tool_call e) (ev_tool_result e) (ev_status e) (ev_stop_reason e)
    (ev_cumulative_token_usage e).

Fixpoint renumber (n : Z) (l : list AgentEvent) : list AgentEvent :=
  match l with
  | [] => []
  | e :: l' => with_sequence n e :: renumber (n + 1) l'
  end.

(** The optional fields given to [_append_event]. *)
Inductive event_field :=
| FStep (n : Z)
| FMessage (m : option pystr)
| FDecision (d : AgentDecision)
| FToolCall (c : ToolCall)
| FToolResult (r : ToolResult)
| FStatus (s : RunStatus.t)
| FStopReason (r : StopReason.t)
| FCumulative (n : Z).

Definition set_field (e : AgentEvent) (f : event_field) : AgentEvent :=
  let '(mkAgentEvent k rid sq t si m d c r s sr cu) := e in
  match f with
  | FStep n => mkAgentEvent k rid sq t (Some n) m d c r s sr cu
  | FMessage x => mkAgentEvent k rid sq t si x d c r s sr cu
  | FDecision x => mkAgentEvent k rid sq t si m (Some x) c r s sr cu
  | FToolCall x => mkAgentEvent k rid sq t si m d (Some x) r s sr cu
  | FToolResult x => mkAgentEvent k rid sq t si m d c (Some x) s sr cu
  | FStatus x => mkAgentEvent k rid sq t si m d c r (Some x) sr cu
  | FStopReason x => mkAgentEvent k rid sq t si m d c r s (Some x) cu
  | FCumulative n => mkAgentEvent k rid sq t si m d c r s sr (Some n)
  end.

(** ** The run monad *)

(** How a part of [run] ends: it goes on, [return]s or raises. *)
Inductive ctl (A : Type) :=
| Next (a : A)
| Return (r : AgentRunResult)
| Raise (e : exn).
Arguments Next {A} a.
Arguments Return {A} r.
Arguments Raise {A} e.

Section Run.
Context {W : Type} (env : runtime_env W) (rt : AgentRuntime) (ra : run_args).

Record RunS := mkRunS {
  rs_state : AgentState;
  rs_events : list AgentEvent;
  rs_observed : list AgentEvent;
  rs_recorded : list AgentEvent;
  rs_finished : option AgentRunResult;
  rs_world : W
}.

Definition M (A : Type) : Type := RunS -> ctl A * RunS.

Definition ret {A} (a : A) : M A := fun s => (Next a, s).
Definition bind {A B} (m : M A) (k : A -> M B) : M B := fun s =>
  match m s with
  | (Next a, s') => k a s'
  | (Return r, s') => (Return r, s')
  | (Raise e, s') => (Raise e, s')
  end.
Definition raise {A} (e : exn) : M A := fun s => (Raise e, s).
Definition return_result {A} (r : AgentRunResult) : M A := fun s => (Return r, s).
(** [try: m except ...: h] *)
Definition try_except {A} (m : M A) (h : exn -> M A) : M A := fun s =>
  match m s with
  | (Raise e, s') => h e s'
  | other => other
  end.

Local Notation "x <- m ;; k" := (bind m (fun x => k)) (at level 60, m at next level, right associativity).
Local Notation "m ;;; k" := (bind m (fun _ => k)) (at level 60, right associativity).

Definition get_state : M AgentState := fun s => (Next (rs_state s), s).
Definition get_events : M (list AgentEvent) := fun s => (Next (rs_events s), s).
Definition mod_state (f : AgentState -> AgentState) : M unit := fun s =>
  (Next tt, mkRunS (f (rs_state s)) (rs_events s) (rs_observed s) (rs_recorded s)
              (rs_finished s) (rs_world s)).
(** An effect of the outside world. *)
Definition world {A} (f : W -> A * W) : M A := fun s =>
  let '(a, w) := f (rs_world s) in
  (Next a, mkRunS (rs_state s) (rs_events s) (rs_observed s) (rs_recorded s) (rs_finished s) w).

(** [_append_event], [_notify_observer] and [_notify_recorder] (whose failures
    are logged and ignored). *)
Definition push_event (include_recorder : bool) (e : AgentEvent) : M unit := fun s =>
  (Next tt, mkRunS (rs_state s) (rs_events s ++ [e])
     (if rt_has_observer rt then rs_observed s ++ [e] else rs_observed s)
     (if include_recorder && rt_has_recorder rt then rs_recorded s ++ [e] else rs_recorded s)
     (rs_finished s) (rs_world s)).

Definition event_time (previous : option AgentEvent) (now : Z) : Z :=
  match previous with Some p => Z.max now (ev_occurred_at p) | None => now end.
Definition event_sequence (previous : option AgentEvent) : Z :=
  match previous with Some p => ev_sequence p + 1 | None => 1 end.

Definition _append_event (include_recorder : bool) (kind : AgentEventKind.t) (fs : list event_field)
  : M unit :=
  events <- get_events ;;
  st <- get_state ;;
  now <- world (env_utc_now env) ;;
  push_event include_recorder
    (fold_left set_field fs
      (mkAgentEvent kind (st_run_id st) (event_sequence (last events))
         (event_time (last events) now) None None None None None None None None)).

(** [_complete_open_steps] *)
Definition step_indices (kind : AgentEventKind.t) (events : list AgentEvent) : list Z :=
  omap (fun e => if decide (ev_kind e = kind) then ev_step_index e else None) events.

Definition open_steps (events : list AgentEvent) : list Z :=
  sort_by Z.leb (remove_dups
    (list_difference (step_indices AgentEventKind.STEP_STARTED events)
                     (step_indices AgentEventKind.STEP_COMPLETED events))).

Fixpoint complete_each (l : list Z) : M unit :=
  match l with
  | [] => ret tt
  | i :: l' => _append_event false AgentEventKind.STEP_COMPLETED [FStep i] ;;; complete_each l'
  end.

Definition _complete_open_steps : M unit :=
  events <- get_events ;; complete_each (open_steps events).

Definition is_answer_event (e : AgentEvent) : bool :=
  match ev_kind e with
  | AgentEventKind.ANSWER | AgentEventKind.ANSWER_DELTA => true
  | _ => false
  end.

(** [recorder.finish(result)] *)
Definition notify_finish (r : AgentRunResult) : M unit := fun s =>
  (Next tt, mkRunS (rs_state s) (rs_events s) (rs_observed s) (rs_recorded s)
     (if rt_has_recorder rt then Some r else rs_finished s) (rs_world s)).

(** [_finish] *)
Definition build_result (status : RunStatus.t) (stop_reason : StopReason.t)
    (answer error : option pystr) (st : AgentState) (events : list AgentEvent) : AgentRunResult :=
  mkAgentRunResult (st_run_id st) status stop_reason answer st
    (renumber 1 (filter (fun e => include_result_event e = true) events)) (st_token_usage st) error.

Definition _finish {A} (status : RunStatus.t) (stop_reason : StopReason.t)
    (answer error : option pystr) : M A :=
  _complete_open_steps ;;;
  events <- get_events ;;
  (match answer with
   | Some a =>
       if bool_decide (status = RunStatus.COMPLETED) && negb (existsb is_answer_event events)
       then _append_event true AgentEventKind.ANSWER [FMessage (Some a)]
       else ret tt
   | None => ret tt
   end) ;;;
  st <- get_state ;;
  _append_event true AgentEventKind.RUN_STOPPED
    [FStatus status; FStopReason stop_reason; FMessage error; FCumulative (st_token_usage st)] ;;;
  final <- get_events ;;
  let r := build_result status stop_reason answer error st final in
  notify_finish r ;;; return_result r.

(** ** Waiting under the deadline and the cancellation event *)

Definition _remaining (deadline : option Z) : M (option Z) :=
  match deadline with
  | None => ret None
  | Some d => now <- world (env_loop_time env) ;; ret (Some (Z.max 0 (d - now)))
  end.

(** [_check_stop] *)
Definition _check_stop (deadline : option Z) : M (option StopReason.t) :=
  cancelled <- (if ra_has_cancel ra then world (env_cancel_is_set env) else ret false) ;;
  if cancelled then ret (Some StopReason.EXTERNAL_CANCELLED) else
  match deadline with
  | Some d =>
      now <- world (env_loop_time env) ;;
      if d <=? now then ret (Some StopReason.DEADLINE_EXCEEDED) else ret None
  | None => ret None
  end.

(** [_await_controlled]: what the two futures of the wait give. *)
Definition controlled {A} (has_cancel : bool) (w : waited A) : result exn A :=
  match w with
  | WaitInterrupted quota => Err (CancelledError quota)
  | WaitReturned op cancel_done =>
      if negb (bool_decide (is_Some op)) && negb (has_cancel && cancel_done)
      then Err (RuntimeStop StopReason.DEADLINE_EXCEEDED)
      else if has_cancel && cancel_done then Err (RuntimeStop StopReason.EXTERNAL_CANCELLED)
      else match op with
           | Some (Ok a) => Ok a
           | Some (Err e) => Err (exn_of e)
           | None => Err (RuntimeStop StopReason.DEADLINE_EXCEEDED)
           end
  end.

Definition lift_result {A} (r : result exn A) : M A :=
  match r with Ok a => ret a | Err e => raise e end.

Definition _await_controlled {A} (deadline : option Z) (op : option Z -> W -> waited A * W) : M A :=
  timeout <- _remaining deadline ;;
  w <- world (op timeout) ;;
  lift_result (controlled (ra_has_cancel ra) w).

(** ** Exception handlers of [run] *)

(** The [except] clauses after [model.decide] and after the answer stream. *)
Definition finish_call_error {A} (e : exn) : M A :=
  match e with
  | RuntimeStop r => _finish (_status_for r) r None None
  | CancelledError quota =>
      if quota
      then _finish RunStatus.FAILED StopReason.MODEL_ERROR None (Some AGENT_QUOTA_FAILURE)
      else _finish RunStatus.CANCELLED StopReason.EXTERNAL_CANCELLED None None
  | QuotaExceededError =>
      _finish RunStatus.FAILED StopReason.MODEL_ERROR None (Some AGENT_QUOTA_FAILURE)
  | PyError m => _finish RunStatus.FAILED StopReason.MODEL_ERROR None (Some m)
  end.

(** The clauses after a tool call: other exceptions propagate. *)
Definition finish_tool_error {A} (e : exn) : M A :=
  match e with
  | RuntimeStop _ | CancelledError _ => finish_call_error e
  | _ => raise e
  end.

(** The clauses around the whole loop. *)
Definition finish_run_error {A} (e : exn) : M A :=
  match e with
  | QuotaExceededError | CancelledError _ => finish_call_error e
  | _ => raise e
  end.

(** ** Streaming the answer: [_consume_answer_stream] *)

(** [try: m finally: await close()] *)
Definition finally_close {A} (m : M A) : M A := fun s =>
  let '(c, s1) := m s in
  match world (env_stream_close env) s1 with
  | (Next (Some e), s2) => (Raise (exn_of e), s2)
  | (_, s2) => (c, s2)
  end.

Fixpoint consume_chunks (deadline : option Z) (i : Z) (chunks : nat) (parts : list pystr)
  : M (list pystr) :=
  match chunks with
  | O => _await_controlled deadline (env_stream_end env) ;;; ret parts
  | S n =>
      chunk <- _await_controlled deadline (env_next_chunk env) ;;
      match chunk with
      | InvalidChunk => raise (PyError (u "streaming answer returned an invalid chunk"))
      | Chunk content =>
          if bool_decide (content = []) then consume_chunks deadline i n parts
          else _append_event false AgentEventKind.ANSWER_DELTA [FStep i; FMessage (Some content)] ;;;
               consume_chunks deadline i n (parts ++ [content])
      end
  end.

Definition _consume_answer_stream (deadline : option Z) (i : Z) : M pystr :=
  st <- get_state ;;
  stream <- world (env_stream env st) ;;
  match stream with
  | StreamUnavailable => raise (PyError (u "streaming answer is unavailable"))
  | StreamInvalid => raise (PyError (u "streaming answer returned an invalid iterator"))
  | StreamOf n =>
      parts <- finally_close (consume_chunks deadline i n []) ;;
      if bool_decide (parts = []) then raise (PyError (u "streaming answer returned no content"))
      else ret (mjoin parts)
  end.

(** ** Tools: [_execute_tool] *)

Definition tool_context (st : AgentState) (i : Z) : ToolContext :=
  mkToolContext (st_run_id st) i (st_request_id st) (ra_metadata ra).

Definition result_of_execution (call : ToolCall) (x : ToolExecutionResult) : ToolResult :=
  mkToolResult (call_id call) (call_name call) (tr_output x) (succeeded x) (tr_error_code x)
    (tr_truncated x) false.

Definition tool_not_found (call : ToolCall) : ToolResult :=
  mkToolResult (call_id call) (call_name call) _TOOL_NOT_FOUND_MESSAGE false
    (Some (u "tool_not_found")) false false.

Definition tool_failure (call : ToolCall) : ToolResult :=
  mkToolResult (call_id call) (call_name call)
    (_TOOL_FAILURE_MESSAGE ++ u " [error_code=" ++ _TOOL_EXECUTION_ERROR ++ u "]") false
    (Some _TOOL_EXECUTION_ERROR) false false.

Definition tool_success (call : ToolCall) (content : pystr) : ToolResult :=
  let '(safe, truncated) := _truncate_tool_output (rt_tool_output_max_chars rt) content in
  mkToolResult (call_id call) (call_name call) safe true None truncated false.

Definition _execute_tool (call : ToolCall) (i : Z) (deadline : option Z) : M ToolResult :=
  st <- get_state ;;
  if rt_uses_executor rt then
    remaining <- _remaining deadline ;;
    execution <- _await_controlled deadline
                   (fun t => env_execute env remaining t call (tool_context st i)) ;;
    ret (result_of_execution call execution)
  else if negb (env_plain_tool env (call_name call)) then ret (tool_not_found call)
  else
    try_except
      (content <- _await_controlled deadline
                    (fun t => env_run_plain env t call (tool_context st i)) ;;
       ret (tool_success call content))
      (fun e => match e with
                | RuntimeStop _ | CancelledError _ => raise e
                | _ => ret (tool_failure call)
                end).

Definition as_cached (call : ToolCall) (r : ToolResult) : ToolResult :=
  mkToolResult (call_id call) (res_name r) (res_content r) (res_succeeded r) (res_error r)
    (res_truncated r) true.

Definition tool_message (r : ToolResult) : AgentMessage :=
  mkAgentMessage RoleTool (res_content r) (Some (res_call_id r)) (Some (res_name r)).

(** One iteration of the loop over [decision.tool_calls]; the result and whether
    it came from the cache. *)
Definition run_tool_call (i : Z) (deadline : option Z) (call : ToolCall) : M (ToolResult * bool) :=
  stop <- _check_stop deadline ;;
  (match stop with Some r => _finish (_status_for r) r None None | None => ret tt end) ;;;
  _append_event true AgentEventKind.TOOL_STARTED [FStep i; FToolCall call] ;;;
  st <- get_state ;;
  rc <- (match _find_cached_tool_result st call with
         | Some c => ret (as_cached call c, true)
         | None =>
             r <- try_except (_execute_tool call i deadline) finish_tool_error ;; ret (r, false)
         end) ;;
  mod_state (add_message (tool_message rc.1)) ;;;
  _append_event true
    (if res_succeeded rc.1 then AgentEventKind.TOOL_COMPLETED else AgentEventKind.TOOL_FAILED)
    [FStep i; FToolCall call; FToolResult rc.1; FMessage (res_error rc.1)] ;;;
  ret rc.

Fixpoint run_tool_calls (i : Z) (deadline : option Z) (calls : list ToolCall)
    (results : list ToolResult) (reused : option ToolResult)
  : M (list ToolResult * option ToolResult) :=
  match calls with
  | [] => ret (results, reused)
  | call :: rest =>
      rc <- run_tool_call i deadline call ;;
      run_tool_calls i deadline rest (results ++ [rc.1])
        (if rc.2 && is_calculator call then Some rc.1 else reused)
  end.

(** ** The loop *)

Definition over_budget_before (st : AgentState) : bool :=
  match ra_token_budget ra with
  | Some b => (0 <? b) && (b <=? st_token_usage st)
  | None => false
  end.

Definition over_budget_after (st : AgentState) : bool :=
  match ra_token_budget ra with Some b => b <? st_token_usage st | None => false end.

(** The branch of a decision that carries an answer. *)
Definition answer_branch (deadline : option Z) (i : Z) (d : AgentDecision) (a : pystr) : M unit :=
  final <- (if ra_stream_answer ra
            then try_except (_consume_answer_stream deadline i) finish_call_error
            else ret a) ;;
  mod_state (add_message (mkAgentMessage RoleAssistant final None None)) ;;;
  (if ra_stream_answer ra then ret tt
   else _append_event true AgentEventKind.ANSWER [FStep i; FMessage (Some final)]) ;;;
  mod_state (add_step (mkAgentStep i d [])) ;;;
  _append_event false AgentEventKind.STEP_COMPLETED [FStep i] ;;;
  _finish RunStatus.COMPLETED StopReason.DIRECT_ANSWER (Some final) None.

(** The branch of a decision that calls tools. *)
Definition tools_branch (deadline : option Z) (i : Z) (d : AgentDecision) : M unit :=
  (if bool_decide (is_Some (ra_token_budget ra)) && negb (bool_decide (tool_calls d = []))
      && negb (usage_complete d)
   then mod_state (add_step (mkAgentStep i d [])) ;;;
        _finish RunStatus.STOPPED StopReason.TOKEN_BUDGET_EXCEEDED None None
   else ret tt) ;;;
  out <- run_tool_calls i deadline (tool_calls d) [] None ;;
  mod_state (add_step (mkAgentStep i d out.1)) ;;;
  _append_event false AgentEventKind.STEP_COMPLETED [FStep i] ;;;
  match out.2 with
  | Some r =>
      if forallb is_calculator (tool_calls d) && res_succeeded r
      then _finish RunStatus.COMPLETED StopReason.DIRECT_ANSWER (Some (res_content r)) None
      else ret tt
  | None => ret tt
  end.

(** What follows [model.decide] in one iteration. *)
Definition after_decision (deadline : option Z) (i : Z) (d : AgentDecision) : M unit :=
  st <- get_state ;;
  _append_event true AgentEventKind.MODEL_DECISION
    [FStep i; FDecision d;
     FCumulative (match token_usage d with
                  | None => st_token_usage st
                  | Some n => st_token_usage st + n
                  end)] ;;;
  (match _validate_decision d with
   | Some reason => _finish RunStatus.FAILED StopReason.INVALID_DECISION None (Some reason)
   | None => ret tt
   end) ;;;
  (match token_usage d with Some n => mod_state (add_usage n) | None => ret tt end) ;;;
  st' <- get_state ;;
  (if over_budget_after st'
   then mod_state (add_step (mkAgentStep i d [])) ;;;
        _append_event false AgentEventKind.STEP_COMPLETED [FStep i] ;;;
        _finish RunStatus.STOPPED StopReason.TOKEN_BUDGET_EXCEEDED None None
   else ret tt) ;;;
  match answer d with
  | Some a => answer_branch deadline i d a
  | None => tools_branch deadline i d
  end.

(** One iteration of [for _ in range(max_steps)]. *)
Definition run_step (deadline : option Z) : M unit :=
  stop <- _check_stop deadline ;;
  (match stop with Some r => _finish (_status_for r) r None None | None => ret tt end) ;;;
  st <- get_state ;;
  (if over_budget_before st
   then _finish RunStatus.STOPPED StopReason.TOKEN_BUDGET_EXCEEDED None None
   else ret tt) ;;;
  let i := Z.of_nat (length (st_steps st)) + 1 in
  _append_event false AgentEventKind.STEP_STARTED [FStep i] ;;;
  d <- try_except (_await_controlled deadline (fun t => env_decide env t st)) finish_call_error ;;
  after_decision deadline i d.

Fixpoint run_steps (n : nat) (deadline : option Z) : M unit :=
  match n with
  | O => ret tt
  | S n' => run_step deadline ;;; run_steps n' deadline
  end.

(** What follows the loop when the steps are used up. *)
Definition after_steps : M unit :=
  st <- get_state ;;
  match _last_calculator_result st with
  | Some a => _finish RunStatus.COMPLETED StopReason.DIRECT_ANSWER (Some a) None
  | None => _finish RunStatus.STOPPED StopReason.MAX_STEPS None None
  end.

Definition run_loop (deadline : option Z) : M unit :=
  try_except (run_steps (Z.to_nat (ra_max_steps ra)) deadline ;;; after_steps) finish_run_error.

(** [run]: the checks of the arguments, then the run. *)
Definition check_arguments : result exn unit :=
  if bool_decide (strip (ra_user_input ra) = []) then
    Err (PyError (u "user_input must not be empty"))
  else if ra_max_steps ra <? 1 then Err (PyError (u "max_steps must be greater than zero"))
  else if match ra_timeout ra with Some t => t <? 0 | None => false end then
    Err (PyError (u "timeout must not be negative"))
  else if match ra_token_budget ra with Some b => b <? 0 | None => false end then
    Err (PyError (u "token_budget must not be negative"))
  else Ok tt.

Definition initial_state (fresh_id : pystr) : AgentState :=
  let run_id := match ra_run_id ra with
                | Some rid => if bool_decide (rid = []) then fresh_id else rid
                | None => fresh_id
                end in
  mkAgentState run_id (ra_user_input ra)
    [mkAgentMessage RoleUser (ra_user_input ra) None None] [] 0 (ra_request_id ra).

Definition run_body : M unit :=
  st <- get_state ;;
  _append_event true AgentEventKind.RUN_STARTED [FMessage (Some (ra_user_input ra))] ;;;
  now <- world (env_loop_time env) ;;
  run_loop (_resolve_deadline now (ra_timeout ra) (ra_deadline ra)).

Definition run (fresh_id : pystr) (w : W) : ctl unit * RunS :=
  (lift_result check_arguments ;;; run_body)
    (mkRunS (initial_state fresh_id) [] [] [] None w).

End Run.

Arguments mkRunS {W}.
Arguments rs_state {W}.
Arguments rs_events {W}.
Arguments rs_observed {W}.
Arguments rs_recorded {W}.
Arguments rs_finished {W}.
Arguments rs_world {W}.
