(* ===== verification/AgentRuntimeFacts.v ===== *)
(** * Correctness of the agent runtime

    A weakest-precondition reading of the run monad, the invariant of a run
    (event log, steps, reported usage), its preservation by every part of
    [run], and the properties of the results. *)

From S2P Require Import Prelude Json ToolModels AgentRuntime.
Local Open Scope Z_scope.

(** ** Vocabulary of the properties *)

(** Log entries are numbered from 1. *)
Definition numbered (l : list AgentEvent) : Prop :=
  forall i e, l !! i = Some e -> ev_sequence e = Z.of_nat i + 1.

Definition earlier (a b : AgentEvent) : Prop := ev_occurred_at a <= ev_occurred_at b.

Definition inner_event (e : AgentEvent) : Prop :=
  ev_kind e <> AgentEventKind.RUN_STARTED /\ ev_kind e <> AgentEventKind.RUN_STOPPED.

(** A log that has been opened and not closed yet. *)
Record log_open (run_id : pystr) (l : list AgentEvent) : Prop := {
  lo_numbered : numbered l;
  lo_sorted : StronglySorted earlier l;
  lo_run : Forall (fun e => ev_run_id e = run_id) l;
  lo_shape : exists e0 rest, l = e0 :: rest /\ ev_kind e0 = AgentEventKind.RUN_STARTED
               /\ Forall inner_event rest
}.

(** The usage reported by the decisions of a log that pass validation. *)
Definition event_usage (e : AgentEvent) : Z :=
  match ev_kind e, ev_decision e with
  | AgentEventKind.MODEL_DECISION, Some d =>
      match _validate_decision d with Some _ => 0 | None => default 0 (token_usage d) end
  | _, _ => 0
  end.
Definition usage_of (l : list AgentEvent) : Z := sumZ (event_usage <$> l).

Definition is_decision (e : AgentEvent) : bool :=
  bool_decide (ev_kind e = AgentEventKind.MODEL_DECISION).
Definition decisions_in (l : list AgentEvent) : nat := length (List.filter is_decision l).

(** Steps are numbered from 1, hold validated decisions, and carry either no
    result (the step was cut by the budget or answered) or one per call. *)
Definition step_ok (i : nat) (x : AgentStep) : Prop :=
  step_index x = Z.of_nat i + 1 /\ _validate_decision (step_decision x) = None /\
  (step_tool_results x = [] \/
   res_call_id <$> step_tool_results x = call_id <$> tool_calls (step_decision x)).
Definition steps_ok (l : list AgentStep) : Prop := forall i x, l !! i = Some x -> step_ok i x.

(** Status, stop reason, answer and error of a result agree. *)
Definition coherent (status : RunStatus.t) (reason : StopReason.t) (ans err : option pystr) : Prop :=
  (is_Some ans <-> status = RunStatus.COMPLETED) /\
  (status = RunStatus.COMPLETED <-> reason = StopReason.DIRECT_ANSWER) /\
  (is_Some err <-> status = RunStatus.FAILED) /\
  (status <> RunStatus.COMPLETED -> status = _status_for reason).

(** The public trace of a result: [RUN_STARTED], then only inner events that
    are not step markers, then one [RUN_STOPPED] that repeats the outcome. *)
Record trace_ok (r : AgentRunResult) : Prop := {
  to_numbered : numbered (rr_events r);
  to_sorted : StronglySorted earlier (rr_events r);
  to_run : Forall (fun e => ev_run_id e = rr_run_id r) (rr_events r);
  to_shape : exists e0 mid en, rr_events r = e0 :: mid ++ [en]
    /\ ev_kind e0 = AgentEventKind.RUN_STARTED
    /\ Forall (fun e => inner_event e /\ include_result_event e = true) mid
    /\ ev_kind en = AgentEventKind.RUN_STOPPED
    /\ ev_status en = Some (rr_status r) /\ ev_stop_reason en = Some (rr_stop_reason r)
    /\ ev_message en = rr_error r /\ ev_cumulative_token_usage en = Some (rr_token_usage r)
}.

(** ** Lists of events *)

Lemma usage_of_app l1 l2 : usage_of (l1 ++ l2) = usage_of l1 + usage_of l2.
Proof. unfold usage_of. by rewrite fmap_app, sumZ_app. Qed.

Lemma usage_of_cons e l : usage_of (e :: l) = event_usage e + usage_of l.
Proof. reflexivity. Qed.

Lemma decisions_in_app l1 l2 : decisions_in (l1 ++ l2) = (decisions_in l1 + decisions_in l2)%nat.
Proof. unfold decisions_in. by rewrite List.filter_app, length_app. Qed.

Lemma step_indices_app k l1 l2 :
  step_indices k (l1 ++ l2) = step_indices k l1 ++ step_indices k l2.
Proof. unfold step_indices. by rewrite omap_app. Qed.

Lemma step_indices_one k e :
  step_indices k [e] = if decide (ev_kind e = k) then option_list (ev_step_index e) else [].
Proof.
  unfold step_indices. cbn. destruct (decide (ev_kind e = k)); [|done].
  by destruct (ev_step_index e).
Qed.

Lemma decisions_in_one e :
  decisions_in [e] = if decide (ev_kind e = AgentEventKind.MODEL_DECISION) then 1%nat else 0%nat.
Proof.
  unfold decisions_in, is_decision. simpl.
  case_decide; [rewrite bool_decide_eq_true_2|rewrite bool_decide_eq_false_2]; done.
Qed.

Lemma usage_of_one e : usage_of [e] = event_usage e.
Proof. unfold usage_of. simpl. lia. Qed.

Lemma numbered_snoc l e : numbered l -> ev_sequence e = Z.of_nat (length l) + 1 -> numbered (l ++ [e]).
Proof.
  intros Hl He i x. rewrite lookup_app. destruct (l !! i) eqn:E.
  - intros. simplify_eq. by apply Hl.
  - apply lookup_ge_None in E. intros Hx. apply list_lookup_singleton_Some in Hx as [Hi <-].
    rewrite He. lia.
Qed.

(** In a sorted log the last event is the latest. *)
Lemma sorted_last l e x :
  StronglySorted earlier l -> last l = Some e -> x ∈ l -> ev_occurred_at x <= ev_occurred_at e.
Proof.
  induction 1 as [|a l Hl IH Ha]; [done|]. destruct l as [|b l].
  - simpl. intros [= ->] Hx. apply list_elem_of_singleton in Hx as ->. lia.
  - intros He Hx. apply elem_of_cons in Hx as [->|Hx]; [|by apply IH].
    rewrite Forall_forall in Ha. apply Ha. change (last (b :: l) = Some e) in He.
    apply last_Some in He as [l' ->]. set_solver.
Qed.

Lemma renumber_map {B} (f : AgentEvent -> B) n l :
  (forall m e, f (with_sequence m e) = f e) -> f <$> renumber n l = f <$> l.
Proof. intros Hf. revert n. induction l as [|e l IH]; intros n; simpl; [done|]. by rewrite Hf, IH. Qed.

Lemma renumber_app n l1 l2 :
  renumber n (l1 ++ l2) = renumber n l1 ++ renumber (n + Z.of_nat (length l1)) l2.
Proof.
  revert n. induction l1 as [|e l1 IH]; intros n; simpl; [by rewrite Z.add_0_r|].
  rewrite IH. do 3 f_equal. lia.
Qed.

Lemma renumber_numbered n l i e :
  renumber n l !! i = Some e -> ev_sequence e = n + Z.of_nat i.
Proof.
  revert n i. induction l as [|x l IH]; intros n [|i]; simpl; intros H; simplify_eq; simpl; [lia|].
  rewrite (IH _ _ H). lia.
Qed.

Lemma renumber_Forall (P : AgentEvent -> Prop) n l :
  (forall m e, P e -> P (with_sequence m e)) -> Forall P l -> Forall P (renumber n l).
Proof. intros HP Hl. revert n. induction Hl; intros n; simpl; constructor; auto. Qed.

Lemma renumber_sorted n l : StronglySorted earlier l -> StronglySorted earlier (renumber n l).
Proof.
  intros Hl. revert n. induction Hl as [|a l Hl IH Ha]; intros n; simpl; constructor; [done|].
  by apply renumber_Forall.
Qed.

Lemma usage_of_result l :
  usage_of (renumber 1 (filter (fun e => include_result_event e = true) l)) = usage_of l.
Proof.
  unfold usage_of at 1. rewrite (renumber_map event_usage) by done.
  induction l as [|e l IH]; [done|]. rewrite filter_cons, usage_of_cons.
  case_decide as E; csimpl; rewrite IH; [done|].
  unfold include_result_event in E. unfold event_usage.
  destruct (ev_kind e); naive_solver.
Qed.

Lemma decisions_in_result l :
  decisions_in (renumber 1 (filter (fun e => include_result_event e = true) l)) = decisions_in l.
Proof.
  unfold decisions_in. generalize 1. induction l as [|e l IH]; intros n; [done|].
  rewrite filter_cons. case_decide as E; simpl.
  - change (is_decision (with_sequence n e)) with (is_decision e).
    destruct (is_decision e); simpl; by rewrite IH.
  - unfold include_result_event in E. unfold is_decision at 2. destruct (ev_kind e); simpl; naive_solver.
Qed.

(** ** Weakest preconditions *)

Section Wp.
Context {W : Type} (R : AgentRunResult -> @RunS W -> Prop).

(** [Q] after going on, [R] on a returned result, [X] on an exception. *)
Definition wp {A} (X : exn -> @RunS W -> Prop) (m : M A) (Q : A -> @RunS W -> Prop) (s : RunS) : Prop :=
  match m s with
  | (Next a, s') => Q a s'
  | (Return r, s') => R r s'
  | (Raise e, s') => X e s'
  end.

Lemma wp_ret {A} X (a : A) Q s : Q a s -> wp X (ret a) Q s.
Proof. done. Qed.

Lemma wp_raise {A} X e (Q : A -> _ -> Prop) s : X e s -> wp X (raise e) Q s.
Proof. done. Qed.

Lemma wp_bind {A B} X (m : M A) (k : A -> M B) Q s :
  wp X m (fun a s' => wp X (k a) Q s') s -> wp X (bind m k) Q s.
Proof. unfold wp, bind. destruct (m s) as [[?|?|?] ?]; auto. Qed.

Lemma wp_mono {A} (X X' : exn -> _ -> Prop) (m : M A) (Q Q' : A -> _ -> Prop) s :
  wp X m Q s -> (forall a s', Q a s' -> Q' a s') -> (forall e s', X e s' -> X' e s') -> wp X' m Q' s.
Proof. unfold wp. destruct (m s) as [[?|?|?] ?]; auto. Qed.

Lemma wp_try {A} X (m : M A) h Q s :
  wp (fun e s' => wp X (h e) Q s') m Q s -> wp X (try_except m h) Q s.
Proof. unfold wp, try_except. destruct (m s) as [[?|?|?] ?]; auto. Qed.

Lemma wp_get_state X Q s : Q (rs_state s) s -> wp X get_state Q s.
Proof. done. Qed.

Lemma wp_get_events X Q s : Q (rs_events s) s -> wp X get_events Q s.
Proof. done. Qed.
End Wp.

(** The run as the invariants see it: the world may differ. *)
Definition same {W} (s s' : @RunS W) : Prop :=
  rs_state s' = rs_state s /\ rs_events s' = rs_events s /\ rs_observed s' = rs_observed s.

Lemma same_refl {W} (s : @RunS W) : same s s.
Proof. done. Qed.
Lemma same_trans {W} (a b c : @RunS W) : same a b -> same b c -> same a c.
Proof. unfold same. naive_solver congruence. Qed.

#[export] Hint Resolve same_refl same_trans : py.

(** The only reasons a wait stops for. *)
Definition stop_ok (r : StopReason.t) : Prop :=
  r = StopReason.EXTERNAL_CANCELLED \/ r = StopReason.DEADLINE_EXCEEDED.
Definition exn_ok (e : exn) : Prop := match e with RuntimeStop r => stop_ok r | _ => True end.

Lemma exn_ok_of e : exn_ok (exn_of e).
Proof. by destruct e. Qed.

Lemma controlled_exn {A} c (w : waited A) e : controlled c w = Err e -> exn_ok e.
Proof.
  unfold controlled. destruct w as [q|op cd]; [by intros [= <-]|].
  repeat case_match; intros; simplify_eq; try apply exn_ok_of; unfold exn_ok, stop_ok; auto.
Qed.

Section Facts.
Context {W : Type} (env : runtime_env W) (rt : AgentRuntime) (ra : run_args).
Context (R : AgentRunResult -> @RunS W -> Prop).

Lemma wp_world {A} X (f : W -> A * W) Q s :
  (forall a s', same s s' -> Q a s') -> wp R X (world f) Q s.
Proof. intros H. unfold wp, world. destruct (f (rs_world s)). by apply H. Qed.

(** *** Waiting leaves the run as it is *)

Lemma wp_remaining X d Q s :
  (forall a s', same s s' -> Q a s') -> wp R X (_remaining env d) Q s.
Proof.
  intros H. destruct d; simpl; [|by apply wp_ret, H].
  apply wp_bind, wp_world. intros now s' Hs. by apply wp_ret, H.
Qed.

Lemma wp_check_stop X d Q s :
  (forall a s', same s s' -> (forall r, a = Some r ->
     stop_ok r) -> Q a s') ->
  wp R X (_check_stop env ra d) Q s.
Proof.
  intros H. apply wp_bind. assert (Hk : forall b s', same s s' ->
    wp R X (if b : bool then ret (Some StopReason.EXTERNAL_CANCELLED) else
      match d with
      | Some d => bind (world (env_loop_time env)) (fun now =>
          if d <=? now then ret (Some StopReason.DEADLINE_EXCEEDED) else ret None)
      | None => ret None
      end) Q s').
  { unfold stop_ok in H. intros [] s' Hs; [apply wp_ret, H; naive_solver|].
    destruct d; [|apply wp_ret, H; naive_solver].
    apply wp_bind, wp_world. intros now s2 Hs2.
    destruct (_ <=? _); apply wp_ret, H; eauto with py; naive_solver. }
  destruct (ra_has_cancel ra); [apply wp_world; intros b s' Hs; by apply (Hk b)|].
  apply wp_ret. by apply (Hk false).
Qed.

Lemma wp_await {A} X d (op : option Z -> W -> waited A * W) Q s :
  (forall a s', same s s' -> Q a s') -> (forall e s', exn_ok e -> same s s' -> X e s') ->
  wp R X (_await_controlled env ra d op) Q s.
Proof.
  intros HQ HX. apply wp_bind, wp_remaining. intros t s1 H1.
  apply wp_bind, wp_world. intros w s2 H2.
  destruct (controlled _ w) eqn:E; simpl; [apply wp_ret, HQ; eauto with py|].
  apply wp_raise, HX; eauto using controlled_exn with py.
Qed.

(** *** Appending an event *)

Definition appended (kind : AgentEventKind.t) (fs : list event_field) (s s' : @RunS W) : Prop :=
  exists now e,
    e = fold_left set_field fs
      (mkAgentEvent kind (st_run_id (rs_state s)) (event_sequence (last (rs_events s)))
         (event_time (last (rs_events s)) now) None None None None None None None None) /\
    rs_state s' = rs_state s /\ rs_events s' = rs_events s ++ [e] /\
    rs_observed s' = if rt_has_observer rt then rs_observed s ++ [e] else rs_observed s.

Lemma wp_append X b kind fs Q s :
  (forall s', appended kind fs s s' -> Q tt s') -> wp R X (_append_event env rt b kind fs) Q s.
Proof.
  intros H. do 2 (apply wp_bind; first [apply wp_get_events|apply wp_get_state]).
  apply wp_bind, wp_world. intros now s1 (E1 & E2 & E3).
  unfold wp, push_event. apply H. eexists now, _. split; [reflexivity|].
  simpl. rewrite E1, E2, E3. done.
Qed.

Lemma set_field_frame f e :
  ev_kind (set_field e f) = ev_kind e /\ ev_run_id (set_field e f) = ev_run_id e /\
  ev_sequence (set_field e f) = ev_sequence e /\ ev_occurred_at (set_field e f) = ev_occurred_at e.
Proof. by destruct e, f. Qed.

Lemma set_fields_frame fs e :
  let e' := fold_left set_field fs e in
  ev_kind e' = ev_kind e /\ ev_run_id e' = ev_run_id e /\
  ev_sequence e' = ev_sequence e /\ ev_occurred_at e' = ev_occurred_at e.
Proof.
  revert e. induction fs as [|f fs IH]; intros e; [done|]. simpl in *.
  destruct (IH (set_field e f)) as (-> & -> & -> & ->). apply set_field_frame.
Qed.

Lemma numbered_last l : numbered l -> event_sequence (last l) = Z.of_nat (length l) + 1.
Proof.
  intros Hl. destruct (last l) as [e|] eqn:E; simpl; [|by apply last_None in E as ->].
  rewrite (Hl (pred (length l)) e); [|by rewrite <- last_lookup].
  apply last_Some in E as [l' ->]. rewrite length_app. simpl. lia.
Qed.

(** The frame of an event appended to a good log. *)
Lemma appended_log kind fs s s' :
  numbered (rs_events s) -> StronglySorted earlier (rs_events s) -> appended kind fs s s' ->
  exists e, rs_state s' = rs_state s /\ rs_events s' = rs_events s ++ [e] /\
    e = fold_left set_field fs (mkAgentEvent kind (ev_run_id e) (ev_sequence e) (ev_occurred_at e)
          None None None None None None None None) /\
    ev_kind e = kind /\ ev_run_id e = st_run_id (rs_state s) /\
    numbered (rs_events s') /\ StronglySorted earlier (rs_events s').
Proof.
  intros Hn Hs (now & e & He & E1 & E2 & _). exists e.
  pose proof (set_fields_frame fs (mkAgentEvent kind (st_run_id (rs_state s))
    (event_sequence (last (rs_events s))) (event_time (last (rs_events s)) now)
    None None None None None None None None)) as Hf.
  rewrite <- He in Hf. destruct Hf as (K1 & K2 & K3 & K4). simpl in *.
  repeat split; try done.
  - rewrite K2, K3, K4. done.
  - rewrite E2. apply numbered_snoc; [done|]. by rewrite K3, numbered_last.
  - rewrite E2. apply sorted_snoc; [done|]. apply Forall_forall. intros x Hx.
    unfold earlier. rewrite K4. destruct (last (rs_events s)) as [p|] eqn:El; simpl.
    + pose proof (sorted_last _ _ _ Hs El Hx). lia.
    + apply last_None in El. rewrite El in Hx. set_solver.
Qed.

(** *** The invariant of a run

    [k] steps were started, [j] are recorded, [m] decisions were logged, and the
    usage of the state lags [d] behind the logged decisions. *)
Record run_inv (k j m : nat) (d : Z) (s : @RunS W) : Prop := {
  ri_log : log_open (st_run_id (rs_state s)) (rs_events s);
  ri_observed : rs_observed s = if rt_has_observer rt then rs_events s else [];
  ri_started : step_indices AgentEventKind.STEP_STARTED (rs_events s) = Z.of_nat <$> seq 1 k;
  ri_steps : steps_ok (st_steps (rs_state s));
  ri_recorded : length (st_steps (rs_state s)) = j;
  ri_decisions : decisions_in (rs_events s) = m;
  ri_usage : st_token_usage (rs_state s) + d = usage_of (rs_events s);
  ri_nonneg : 0 <= st_token_usage (rs_state s)
}.

Definition within_budget (s : @RunS W) : Prop :=
  forall b, ra_token_budget ra = Some b -> st_token_usage (rs_state s) <= b.

(** A quiet point of the run: nothing pending, budget respected. *)
Definition quiet (k j m : nat) (s : @RunS W) : Prop := run_inv k j m 0 s /\ within_budget s.

Lemma run_inv_same k j m d s s' : same s s' -> run_inv k j m d s -> run_inv k j m d s'.
Proof. intros (E1 & E2 & E3) []. split; rewrite ?E1, ?E2, ?E3; auto. Qed.

Lemma within_same s s' : same s s' -> within_budget s -> within_budget s'.
Proof. intros (E1 & _) H b Hb. rewrite E1. auto. Qed.

Lemma quiet_same k j m s s' : same s s' -> quiet k j m s -> quiet k j m s'.
Proof. intros H [H1 H2]. split; eauto using run_inv_same, within_same. Qed.

Lemma within_state s s' : rs_state s' = rs_state s -> within_budget s -> within_budget s'.
Proof. intros E H b Hb. rewrite E. auto. Qed.

Lemma log_open_numbered rid l : log_open rid l -> numbered l /\ StronglySorted earlier l.
Proof. by intros []. Qed.

(** What an inner event does to the invariant. *)
Lemma inv_append kind fs k j m d s s' :
  appended kind fs s s' -> run_inv k j m d s ->
  kind <> AgentEventKind.RUN_STARTED -> kind <> AgentEventKind.RUN_STOPPED ->
  exists e, e = fold_left set_field fs (mkAgentEvent kind (ev_run_id e) (ev_sequence e)
              (ev_occurred_at e) None None None None None None None None) /\
    rs_state s' = rs_state s /\ rs_events s' = rs_events s ++ [e] /\ ev_kind e = kind /\
    log_open (st_run_id (rs_state s')) (rs_events s') /\
    rs_observed s' = (if rt_has_observer rt then rs_events s' else []).
Proof.
  intros Ha Hinv H1 H2. destruct Hinv as [[Hn Hs Hr (e0 & rest & Hsh & Hk & Hin)] Hobs _ _ _ _ _ _].
  destruct (appended_log _ _ _ _ Hn Hs Ha) as (e & E1 & E2 & E3 & E4 & E5 & E6 & E7).
  exists e. repeat split; try done.
  - rewrite E1, E2. apply Forall_app. split; [done|]. by repeat constructor.
  - exists e0, (rest ++ [e]). rewrite E2, Hsh. repeat split; try done.
    apply Forall_app. split; [done|]. repeat constructor; by rewrite E4.
  - destruct Ha as (now & e' & _ & _ & E2' & ->). rewrite E2 in E2'.
    apply app_inj_2 in E2' as [_ [= <-]]; [|done]. rewrite E2, Hobs. by destruct (rt_has_observer rt).
Qed.

Definition neutral (kind : AgentEventKind.t) : Prop :=
  kind <> AgentEventKind.RUN_STARTED /\ kind <> AgentEventKind.RUN_STOPPED /\
  kind <> AgentEventKind.STEP_STARTED /\ kind <> AgentEventKind.MODEL_DECISION.

Lemma inv_neutral kind fs k j m d s s' :
  neutral kind -> appended kind fs s s' -> run_inv k j m d s -> run_inv k j m d s'.
Proof.
  intros (N1 & N2 & N3 & N4) Ha Hinv.
  destruct (inv_append _ _ _ _ _ _ _ _ Ha Hinv N1 N2) as (e & He & E1 & E2 & E3 & Hl & Ho).
  destruct Hinv as [_ _ I3 I4 I5 I6 I7 I8].
  split; rewrite ?E1, ?E2 in *; try done.
  - rewrite step_indices_app, I3, step_indices_one, decide_False by congruence.
    by rewrite app_nil_r.
  - rewrite decisions_in_app, I6, decisions_in_one, decide_False by congruence. lia.
  - rewrite usage_of_app, <- I7, usage_of_one. unfold event_usage. rewrite E3.
    destruct kind; naive_solver lia.
Qed.

Lemma inv_step_started k j m d s s' :
  appended AgentEventKind.STEP_STARTED [FStep (Z.of_nat k + 1)] s s' ->
  run_inv k j m d s -> run_inv (S k) j m d s'.
Proof.
  intros Ha Hinv.
  destruct (inv_append _ _ _ _ _ _ _ _ Ha Hinv) as (e & He & E1 & E2 & E3 & Hl & Ho); [done|done|].
  destruct Hinv as [_ _ I3 I4 I5 I6 I7 I8]. simpl in He.
  split; rewrite ?E1, ?E2 in *; try done.
  - rewrite step_indices_app, I3, step_indices_one, decide_True by done.
    rewrite He, seq_S, fmap_app. simpl. do 2 f_equal. lia.
  - rewrite decisions_in_app, I6, decisions_in_one, decide_False by congruence. lia.
  - rewrite usage_of_app, <- I7, usage_of_one. unfold event_usage. rewrite E3. lia.
Qed.

Definition reported (dec : AgentDecision) : Z :=
  match _validate_decision dec with Some _ => 0 | None => default 0 (token_usage dec) end.

Lemma inv_decision i dec n k j m s s' :
  appended AgentEventKind.MODEL_DECISION [FStep i; FDecision dec; FCumulative n] s s' ->
  run_inv k j m 0 s -> run_inv k j (S m) (reported dec) s'.
Proof.
  intros Ha Hinv.
  destruct (inv_append _ _ _ _ _ _ _ _ Ha Hinv) as (e & He & E1 & E2 & E3 & Hl & Ho); [done|done|].
  destruct Hinv as [_ _ I3 I4 I5 I6 I7 I8]. simpl in He.
  split; rewrite ?E1, ?E2 in *; try done.
  - rewrite step_indices_app, I3, step_indices_one, decide_False by congruence.
    by rewrite app_nil_r.
  - rewrite decisions_in_app, I6, decisions_in_one, decide_True by congruence. lia.
  - rewrite usage_of_app, <- I7, usage_of_one. unfold event_usage, reported. rewrite E3.
    rewrite He. simpl. lia.
Qed.

Lemma quiet_neutral kind fs k j m s s' :
  neutral kind -> appended kind fs s s' -> quiet k j m s -> quiet k j m s'.
Proof.
  intros Hn Ha [H1 H2]. split; [by eapply inv_neutral|].
  destruct Ha as (? & ? & _ & E & _). by eapply within_state.
Qed.

(** *** Closing the open steps *)

Lemma neutral_completed : neutral AgentEventKind.STEP_COMPLETED.
Proof. by repeat split. Qed.

Lemma wp_complete_each X l k j m Q s :
  run_inv k j m 0 s ->
  (forall s', run_inv k j m 0 s' -> rs_state s' = rs_state s ->
     (forall i, i ∈ l \/ i ∈ step_indices AgentEventKind.STEP_COMPLETED (rs_events s) ->
        i ∈ step_indices AgentEventKind.STEP_COMPLETED (rs_events s')) -> Q tt s') ->
  wp R X (complete_each env rt l) Q s.
Proof.
  revert s. induction l as [|i l IH]; intros s Hinv HQ; simpl.
  - apply wp_ret, HQ; [done|done|]. set_solver.
  - apply wp_bind, wp_append. intros s1 Ha.
    pose proof (inv_neutral _ _ _ _ _ _ _ _ neutral_completed Ha Hinv) as Hinv1.
    apply IH; [done|]. intros s2 Hinv2 E2 Hi.
    destruct (inv_append _ _ _ _ _ _ _ _ Ha Hinv) as (e & He & F1 & F2 & F3 & _ & _); [done|done|].
    apply HQ; [done|congruence|]. intros x Hx. apply Hi. rewrite F2, step_indices_app.
    rewrite step_indices_one, decide_True by done. rewrite He. simpl. set_solver.
Qed.

Lemma sort_by_mem {A} (leb : A -> A -> bool) l x : x ∈ sort_by leb l <-> x ∈ l.
Proof.
  assert (Hi : forall y l, x ∈ insert_sorted leb y l <-> x = y \/ x ∈ l).
  { intros y l'. induction l' as [|z l' IH]; simpl; [set_solver|]. case_match; set_solver. }
  induction l as [|y l IH]; simpl; [done|]. rewrite Hi. set_solver.
Qed.

Lemma open_steps_mem i l :
  i ∈ open_steps l <-> i ∈ step_indices AgentEventKind.STEP_STARTED l /\
                       i ∉ step_indices AgentEventKind.STEP_COMPLETED l.
Proof. unfold open_steps. rewrite sort_by_mem, elem_of_remove_dups. apply list_elem_of_difference. Qed.

Lemma wp_complete_open X k j m Q s :
  run_inv k j m 0 s ->
  (forall s', run_inv k j m 0 s' -> rs_state s' = rs_state s -> open_steps (rs_events s') = [] ->
     Q tt s') ->
  wp R X (_complete_open_steps env rt) Q s.
Proof.
  intros Hinv HQ. apply wp_bind, wp_get_events, (wp_complete_each _ _ k j m); [done|].
  intros s' Hinv' E Hi. apply HQ; [done|done|]. apply elem_of_nil_inv. intros i Hmem.
  apply open_steps_mem in Hmem as [H1 H2]. apply H2, Hi.
  destruct (decide (i ∈ step_indices AgentEventKind.STEP_COMPLETED (rs_events s))); [by right|left].
  apply open_steps_mem. split; [|done]. by rewrite (ri_started _ _ _ _ _ Hinv), <- (ri_started _ _ _ _ _ Hinv').
Qed.
End Facts.

(** ** What a returned result promises *)

Section Result.
Context {W : Type} (env : runtime_env W) (rt : AgentRuntime) (ra : run_args) (N : nat).

Record result_good (r : AgentRunResult) (s : @RunS W) : Prop := {
  rg_trace : trace_ok r;
  rg_usage : rr_token_usage r = usage_of (rr_events r) /\ 0 <= rr_token_usage r;
  rg_steps : steps_ok (st_steps (rr_state r)) /\ (length (st_steps (rr_state r)) <= N)%nat;
  rg_decisions : (decisions_in (rr_events r) <= N)%nat;
  rg_coherent : coherent (rr_status r) (rr_stop_reason r) (rr_answer r) (rr_error r);
  rg_budget : rr_status r = RunStatus.COMPLETED ->
    forall b, ra_token_budget ra = Some b -> rr_token_usage r <= b;
  rg_observed : rs_observed s = if rt_has_observer rt then rs_events s else [];
  rg_closed : open_steps (rs_events s) = [];
  rg_public : rr_events r
    = renumber 1 (filter (fun e => include_result_event e = true) (rs_events s))
}.

(** The result built from a log closed by [RUN_STOPPED]. *)
Lemma build_result_trace status reason ans err st l en :
  log_open (st_run_id st) l ->
  numbered (l ++ [en]) -> StronglySorted earlier (l ++ [en]) -> ev_run_id en = st_run_id st ->
  ev_kind en = AgentEventKind.RUN_STOPPED ->
  ev_status en = Some status -> ev_stop_reason en = Some reason -> ev_message en = err ->
  ev_cumulative_token_usage en = Some (st_token_usage st) ->
  trace_ok (build_result status reason ans err st (l ++ [en])).
Proof.
  intros [_ _ Hrun (e0 & rest & -> & Hk & Hin)] Hn Hs Hid K1 K2 K3 K4 K5.
  assert (Hkeep0 : include_result_event e0 = true) by (unfold include_result_event; by rewrite Hk).
  assert (Hkeep1 : include_result_event en = true) by (unfold include_result_event; by rewrite K1).
  split; simpl.
  - intros i e He. apply renumber_numbered in He. lia.
  - apply renumber_sorted, (sorted_filter _ _ _ Hs).
  - apply renumber_Forall; [done|]. rewrite Forall_forall in Hrun |- *.
    intros x [_ Hx]%list_elem_of_filter.
    assert (x ∈ e0 :: rest \/ x = en) as [Hx'| -> ] by set_solver; [by apply Hrun|done].
  - rewrite filter_cons, decide_True, filter_app, filter_cons, decide_True, filter_nil by done.
    simpl. rewrite renumber_app. simpl. do 3 eexists. split; [reflexivity|].
    repeat split; try done. apply renumber_Forall; [done|].
    rewrite Forall_forall in Hin |- *. intros x Hx%list_elem_of_filter. naive_solver.
Qed.

Lemma wp_finish {A} X k j m status reason ans err (Q : A -> _ -> Prop) (s : @RunS W) :
  run_inv rt k j m 0 s -> (j <= N)%nat -> (m <= N)%nat -> coherent status reason ans err ->
  (status = RunStatus.COMPLETED -> within_budget ra s) ->
  wp result_good X (_finish env rt status reason ans err) Q s.
Proof.
  intros Hinv Hj Hm Hcoh Hbud. unfold _finish.
  apply wp_bind, (wp_complete_open _ _ _ _ k j m); [done|]. intros s1 Hinv1 E1 Hopen.
  apply wp_bind, wp_get_events, wp_bind.
  (* the optional [ANSWER] event *)
  assert (Hk : forall s2, run_inv rt k j m 0 s2 -> rs_state s2 = rs_state s1 ->
    open_steps (rs_events s2) = [] ->
    wp result_good X
      (bind get_state (fun st => bind (_append_event env rt true AgentEventKind.RUN_STOPPED
        [FStatus status; FStopReason reason; FMessage err; FCumulative (st_token_usage st)])
        (fun _ => bind get_events (fun final =>
          let r := build_result status reason ans err st final in
          bind (notify_finish rt r) (fun _ => return_result r))))) Q s2).
  { intros s2 Hinv2 E2 Hopen2. apply wp_bind, wp_get_state, wp_bind, wp_append. intros s3 Ha.
    apply wp_bind, wp_get_events. unfold wp, bind, notify_finish, return_result.
    destruct Hinv2 as [Hlog Hobs _ I4 I5 I6 I7 I8].
    destruct (log_open_numbered _ _ Hlog) as [Hn Hs].
    destruct (appended_log _ _ _ _ _ Hn Hs Ha) as (e & F1 & F2 & F3 & F4 & F5 & F6 & F7).
    destruct Ha as (now & e' & _ & _ & F2' & F8). rewrite F2 in F2'.
    apply app_inj_2 in F2' as [_ [= <-]]; [|done].
    split; simpl; try done.
    - rewrite F2 in *. apply build_result_trace; try done; by rewrite F3.
    - rewrite usage_of_result, F2, usage_of_app, <- I7, usage_of_one. unfold event_usage.
      rewrite F4. split; [lia|done].
    - rewrite I5. done.
    - rewrite decisions_in_result, F2, decisions_in_app, I6, decisions_in_one, decide_False by congruence. lia.
    - intros Hst b Hb. rewrite E2, E1. by apply Hbud.
    - rewrite F8, F2, Hobs. by destruct (rt_has_observer rt).
    - unfold open_steps. rewrite F2, !step_indices_app, !step_indices_one.
      rewrite !decide_False by congruence. by rewrite !app_nil_r. }
  destruct ans as [a|]; [|by apply wp_ret, Hk]. destruct (_ && _); [|by apply wp_ret, Hk].
  apply wp_append. intros s2 Ha. apply Hk.
  - by eapply inv_neutral; [|exact Ha|].
  - by destruct Ha as (? & ? & _ & ? & _).
  - destruct (inv_append _ _ _ _ _ _ _ _ _ Ha Hinv1) as (e & _ & _ & F2 & F3 & _ & _); [done|done|].
    unfold open_steps. rewrite F2, !step_indices_app, !step_indices_one.
    rewrite !decide_False by congruence. by rewrite !app_nil_r.
Qed.

(** *** The exception handlers *)

Ltac solve_coherent := unfold coherent; naive_solver.

Lemma coherent_stop r : stop_ok r -> coherent (_status_for r) r None None.
Proof. intros [->| -> ]; simpl; solve_coherent. Qed.

Lemma wp_call_error {A} X k j m e (Q : A -> _ -> Prop) s :
  quiet rt ra k j m s -> (j <= N)%nat -> (m <= N)%nat -> exn_ok e ->
  wp result_good X (finish_call_error env rt e) Q s.
Proof.
  intros [Hi Hb] Hj Hm He.
  destruct e as [r|[]| |msg]; eapply wp_finish; eauto; try solve_coherent. by apply coherent_stop.
Qed.

(** What leaves the handlers of a tool call: only the tool executor raises it. *)
Definition tool_raise (e : exn) : Prop :=
  rt_uses_executor rt = true /\ (e = QuotaExceededError \/ exists msg, e = PyError msg).

Definition raised (e : exn) (s : @RunS W) : Prop :=
  tool_raise e /\ exists k j m, quiet rt ra k j m s /\ (j <= N)%nat /\ (m <= N)%nat.

(** *** Updates of the state *)

Lemma wp_append_quiet R X b kind fs k j m Q s :
  neutral kind -> quiet rt ra k j m s ->
  (forall s', quiet rt ra k j m s' -> rs_state s' = rs_state s -> Q tt s') ->
  wp R X (_append_event env rt b kind fs) Q s.
Proof.
  intros Hn Hq HQ. apply wp_append. intros s' Ha. apply HQ; [by eapply quiet_neutral|].
  by destruct Ha as (? & ? & _ & ? & _).
Qed.

Lemma wp_message R X msg k j m Q (s : @RunS W) :
  quiet rt ra k j m s ->
  (forall s', quiet rt ra k j m s' -> st_steps (rs_state s') = st_steps (rs_state s) -> Q tt s') ->
  wp R X (mod_state (add_message msg)) Q s.
Proof. intros [[] Hb] HQ. apply HQ; [|done]. split; [by split|done]. Qed.

Lemma wp_step R X x k j m d Q (s : @RunS W) :
  run_inv rt k j m d s -> step_ok j x ->
  (forall s', run_inv rt k (S j) m d s' -> (within_budget ra s -> within_budget ra s') -> Q tt s') ->
  wp R X (mod_state (add_step x)) Q s.
Proof.
  intros [I1 I2 I3 I4 I5 I6 I7 I8] Hx HQ. apply HQ; [|done]. split; simpl; try done.
  - intros i y. rewrite lookup_app. destruct (_ !! i) eqn:E; [intros; simplify_eq; by apply I4|].
    intros [Hi ->]%list_lookup_singleton_Some. apply lookup_ge_None in E.
    replace i with j; [done|lia].
  - rewrite length_app. simpl. lia.
Qed.

Lemma wp_usage R X n k j m d Q (s : @RunS W) :
  run_inv rt k j m d s -> 0 <= n ->
  (forall s', run_inv rt k j m (d - n) s' -> Q tt s') ->
  wp R X (mod_state (add_usage n)) Q s.
Proof. intros [] Hn HQ. apply HQ. split; simpl; try done; lia. Qed.

(** *** The answer stream *)

Lemma wp_finally R X (m : M (list pystr)) Q (s : @RunS W) :
  wp (fun _ _ => False) (fun e s1 => forall s2, same s1 s2 -> X e s2 /\ forall o, X (exn_of o) s2) m
     (fun a s1 => forall s2, same s1 s2 -> Q a s2 /\ forall o, X (exn_of o) s2) s ->
  wp R X (finally_close env m) Q s.
Proof.
  unfold wp, finally_close, world. destruct (m s) as [[a|r|e] s1]; [|done|];
    destruct (env_stream_close env (rs_world s1)) as [[o|] w]; intros H; by apply H.
Qed.

Lemma wp_consume R X d i n parts k j m Q s :
  quiet rt ra k j m s ->
  (forall parts s', quiet rt ra k j m s' -> rs_state s' = rs_state s -> Q parts s') ->
  (forall e s', exn_ok e -> quiet rt ra k j m s' -> rs_state s' = rs_state s -> X e s') ->
  wp R X (consume_chunks env rt ra d i n parts) Q s.
Proof.
  revert parts s. induction n as [|n IH]; intros parts s Hq HQ HX; simpl; apply wp_bind.
  - apply wp_await; [intros _ s1 H1; apply wp_ret, HQ|intros e s1 He H1; apply HX];
      eauto using quiet_same; apply H1.
  - apply wp_await; [|intros e s1 He H1; apply HX; eauto using quiet_same; apply H1].
    intros [content|] s1 H1; [|apply wp_raise, HX; eauto using quiet_same; [done|apply H1]].
    assert (E1 : rs_state s1 = rs_state s) by apply H1.
    assert (Hq1 : quiet rt ra k j m s1) by eauto using quiet_same.
    case_bool_decide; [apply IH; [done| |]; rewrite E1; done|].
    apply wp_bind, (wp_append_quiet _ _ _ _ _ k j m); [by repeat split|done|].
    intros s2 Hq2 E2. apply IH; [done| |]; rewrite E2, E1; done.
Qed.

Lemma wp_stream R X d i k j m Q s :
  quiet rt ra k j m s ->
  (forall a s', quiet rt ra k j m s' -> st_steps (rs_state s') = st_steps (rs_state s) -> Q a s') ->
  (forall e s', exn_ok e -> quiet rt ra k j m s' -> X e s') ->
  wp R X (_consume_answer_stream env rt ra d i) Q s.
Proof.
  intros Hq HQ HX. apply wp_bind, wp_get_state, wp_bind, wp_world. intros st s1 H1.
  assert (Hq1 : quiet rt ra k j m s1) by eauto using quiet_same. destruct H1 as [E1 _].
  destruct st as [| |n]; [by apply wp_raise, HX..|].
  apply wp_bind, wp_finally, (wp_consume _ _ _ _ _ _ k j m); [done| |].
  - intros parts s2 Hq2 E2 s3 H3. assert (Hq3 : quiet rt ra k j m s3) by eauto using quiet_same.
    split; [|intros o; apply HX; [apply exn_ok_of|done]].
    case_bool_decide; [by apply wp_raise, HX|]. apply wp_ret, HQ; [done|].
    destruct H3 as [-> _]. congruence.
  - intros e s2 He Hq2 E2 s3 H3. assert (Hq3 : quiet rt ra k j m s3) by eauto using quiet_same.
    split; [by apply HX|intros o; apply HX; [apply exn_ok_of|done]].
Qed.

(** *** Tools *)

Lemma tool_success_id call content : res_call_id (tool_success rt call content) = call_id call.
Proof. unfold tool_success. by destruct (_truncate_tool_output _ _). Qed.

Lemma wp_execute_tool R X call i d Q (s : @RunS W) :
  (forall r s', res_call_id r = call_id call -> same s s' -> Q r s') ->
  (forall e s', exn_ok e ->
     (rt_uses_executor rt = true \/ (exists r, e = RuntimeStop r) \/ exists q, e = CancelledError q) ->
     same s s' -> X e s') ->
  wp R X (_execute_tool env rt ra call i d) Q s.
Proof.
  intros HQ HX. apply wp_bind, wp_get_state. destruct (rt_uses_executor rt) eqn:Eu.
  - apply wp_bind, wp_remaining. intros t s1 H1. apply wp_bind, wp_await.
    + intros x s2 H2. apply wp_ret, HQ; eauto with py.
    + intros e s2 He H2. apply HX; eauto with py.
  - destruct (negb _); [by apply wp_ret, HQ|]. apply wp_try, wp_bind, wp_await.
    + intros x s2 H2. apply wp_ret, HQ; [apply tool_success_id|done].
    + intros e s2 He H2. destruct e as [r|q| |msg];
        [apply wp_raise, HX; [done|right; eauto|done]..|by apply wp_ret, HQ|by apply wp_ret, HQ].
Qed.

Lemma wp_stop_finish X k j m (stop : option StopReason.t) Q s :
  quiet rt ra k j m s -> (j <= N)%nat -> (m <= N)%nat ->
  (forall r, stop = Some r -> stop_ok r) -> Q tt s ->
  wp result_good X
    (match stop with Some r => _finish env rt (_status_for r) r None None | None => ret tt end) Q s.
Proof.
  intros Hq Hj Hm Hr HQ. destruct stop as [r|]; [|done].
  by apply (wp_call_error X k j m (RuntimeStop r)); [| | |apply Hr].
Qed.

Lemma wp_tool_call call i d k j m Q s :
  quiet rt ra k j m s -> (j <= N)%nat -> (m <= N)%nat ->
  (forall rc s', quiet rt ra k j m s' -> res_call_id rc.1 = call_id call -> Q rc s') ->
  wp result_good raised (run_tool_call env rt ra i d call) Q s.
Proof.
  intros Hq Hj Hm HQ. apply wp_bind, wp_check_stop. intros stop s1 H1 Hstop.
  apply wp_bind, (wp_stop_finish _ k j m); [by eapply quiet_same|done|done|done|].
  apply wp_bind, (wp_append_quiet _ _ _ _ _ k j m); [by repeat split|by eapply quiet_same|].
  intros s2 Hq2 _. apply wp_bind, wp_get_state, wp_bind.
  assert (Hk : forall rc s3, quiet rt ra k j m s3 -> res_call_id rc.1 = call_id call ->
    wp result_good raised (bind (mod_state (add_message (tool_message rc.1)))
      (fun _ => bind (_append_event env rt true
         (if res_succeeded rc.1 then AgentEventKind.TOOL_COMPLETED else AgentEventKind.TOOL_FAILED)
         [FStep i; FToolCall call; FToolResult rc.1; FMessage (res_error rc.1)])
        (fun _ => ret rc))) Q s3).
  { intros rc s3 Hq3 Hid. apply wp_bind, (wp_message _ _ _ k j m); [done|]. intros s4 Hq4 _.
    apply wp_bind, (wp_append_quiet _ _ _ _ _ k j m); [by destruct (res_succeeded _)|done|].
    intros s5 Hq5 _. by apply wp_ret, HQ. }
  destruct (_find_cached_tool_result _ _) as [c|]; [by apply wp_ret, Hk|].
  apply wp_bind, wp_try, wp_execute_tool.
  - intros r s3 Hid H3. apply wp_ret, Hk; [by eapply quiet_same|done].
  - intros e s3 He Hor H3. assert (Hq3 : quiet rt ra k j m s3) by by eapply quiet_same.
    destruct e as [r|q| |msg]; [by eapply wp_call_error..| |]; apply wp_raise;
      (split; [split; [by destruct Hor as [?|[[? ?]|[? ?]]]|eauto]|by exists k, j, m]).
Qed.

Lemma wp_tool_calls calls i d results reused k j m Q s :
  quiet rt ra k j m s -> (j <= N)%nat -> (m <= N)%nat ->
  (forall out s', quiet rt ra k j m s' ->
     res_call_id <$> out.1 = (res_call_id <$> results) ++ (call_id <$> calls) -> Q out s') ->
  wp result_good raised (run_tool_calls env rt ra i d calls results reused) Q s.
Proof.
  revert results reused s. induction calls as [|call calls IH]; intros results reused s Hq Hj Hm HQ; simpl.
  - apply wp_ret, HQ; [done|]. simpl. by rewrite app_nil_r.
  - apply wp_bind, (wp_tool_call _ _ _ k j m); [done..|]. intros rc s1 Hq1 Hid.
    apply IH; [done..|]. intros out s2 Hq2 Hout. apply HQ; [done|].
    rewrite Hout, fmap_app, <- app_assoc. simpl. by rewrite Hid.
Qed.

(** *** The branches of one iteration *)

Lemma wp_answer_branch X d dec a k Q s :
  quiet rt ra (S k) k (S k) s -> (S k <= N)%nat -> _validate_decision dec = None ->
  wp result_good X (answer_branch env rt ra d (Z.of_nat k + 1) dec a) Q s.
Proof.
  intros Hq Hk Hv. apply wp_bind.
  assert (Hrest : forall final s1, quiet rt ra (S k) k (S k) s1 ->
    wp result_good X (bind (mod_state (add_message (mkAgentMessage RoleAssistant final None None)))
      (fun _ => bind (if ra_stream_answer ra then ret tt else
          _append_event env rt true AgentEventKind.ANSWER [FStep (Z.of_nat k + 1); FMessage (Some final)])
        (fun _ => bind (mod_state (add_step (mkAgentStep (Z.of_nat k + 1) dec [])))
          (fun _ => bind (_append_event env rt false AgentEventKind.STEP_COMPLETED [FStep (Z.of_nat k + 1)])
            (fun _ => _finish env rt RunStatus.COMPLETED StopReason.DIRECT_ANSWER (Some final) None))))) Q s1).
  { intros final s1 Hq1. apply wp_bind, (wp_message _ _ _ (S k) k (S k)); [done|]. intros s2 Hq2 _.
    apply wp_bind. assert (Hs3 : forall s3, quiet rt ra (S k) k (S k) s3 ->
      wp result_good X (bind (mod_state (add_step (mkAgentStep (Z.of_nat k + 1) dec [])))
          (fun _ => bind (_append_event env rt false AgentEventKind.STEP_COMPLETED [FStep (Z.of_nat k + 1)])
            (fun _ => _finish env rt RunStatus.COMPLETED StopReason.DIRECT_ANSWER (Some final) None))) Q s3).
    { intros s3 [Hi3 Hb3]. apply wp_bind, (wp_step _ _ _ (S k) k (S k) 0); [done|by repeat split; auto|].
      intros s4 Hi4 Hb4. apply wp_bind, (wp_append_quiet _ _ _ _ _ (S k) (S k) (S k));
        [by repeat split|by split; auto|].
      intros s5 [Hi5 Hb5] _. eapply wp_finish; [done..| |done]. solve_coherent. }
    destruct (ra_stream_answer ra); [by apply wp_ret, Hs3|].
    apply (wp_append_quiet _ _ _ _ _ (S k) k (S k)); [by repeat split|done|]. intros s3 Hq3 _. by apply Hs3. }
  destruct (ra_stream_answer ra); [|by apply wp_ret, Hrest].
  apply wp_try, (wp_stream _ _ _ _ (S k) k (S k)); [done|intros final s1 Hq1 _; by apply Hrest|].
  intros e s1 He Hq1. eapply wp_call_error; [done|lia..|done].
Qed.

Lemma wp_tools_branch d dec k Q s :
  quiet rt ra (S k) k (S k) s -> (S k <= N)%nat -> _validate_decision dec = None ->
  (forall s', quiet rt ra (S k) (S k) (S k) s' -> Q tt s') ->
  wp result_good raised (tools_branch env rt ra d (Z.of_nat k + 1) dec) Q s.
Proof.
  intros Hq Hk Hv HQ. apply wp_bind. destruct (_ && _).
  { destruct Hq as [Hi Hb]. apply wp_bind, (wp_step _ _ _ (S k) k (S k) 0); [done|by repeat split; auto|].
    intros s1 Hi1 Hb1. eapply wp_finish; [done..| |done]. solve_coherent. }
  apply wp_ret, wp_bind, (wp_tool_calls _ _ _ _ _ (S k) k (S k)); [done|lia|lia|].
  intros out s1 [Hi1 Hb1] Hout.
  apply wp_bind, (wp_step _ _ _ (S k) k (S k) 0); [done|by repeat split; auto|]. intros s2 Hi2 Hb2.
  apply wp_bind, (wp_append_quiet _ _ _ _ _ (S k) (S k) (S k)); [by repeat split|by split; auto|].
  intros s3 Hq3 _. destruct (out.2) as [r|]; [|by apply wp_ret, HQ].
  destruct (_ && _); [|by apply wp_ret, HQ].
  destruct Hq3. eapply wp_finish; [done..| |done]. solve_coherent.
Qed.

Lemma valid_usage_nonneg dec n :
  _validate_decision dec = None -> token_usage dec = Some n -> 0 <= n.
Proof.
  unfold _validate_decision. intros Hv Et. rewrite Et in Hv.
  do 2 (destruct (_ && _); [done|]).
  destruct (match answer dec with Some _ => _ | None => _ end); [done|].
  destruct (n <? 0) eqn:E; [done|]. bools. lia.
Qed.

Lemma wp_after_decision d dec k Q s :
  quiet rt ra (S k) k k s -> (S k <= N)%nat ->
  (forall s', quiet rt ra (S k) (S k) (S k) s' -> Q tt s') ->
  wp result_good raised (after_decision env rt ra d (Z.of_nat k + 1) dec) Q s.
Proof.
  intros [Hi Hb] Hk HQ. apply wp_bind, wp_get_state, wp_bind, wp_append. intros s1 Ha.
  pose proof (inv_decision _ _ _ _ _ _ _ _ _ Ha Hi) as Hi1.
  assert (Hb1 : within_budget ra s1).
  { destruct Ha as (? & ? & _ & E & _). by eapply within_state. }
  apply wp_bind. unfold reported in Hi1. destruct (_validate_decision dec) as [reason|] eqn:Hv.
  { eapply wp_finish; [exact Hi1|lia|lia| |done]. solve_coherent. }
  apply wp_ret, wp_bind.
  assert (Hrest : forall s2, run_inv rt (S k) k (S k) 0 s2 ->
    wp result_good raised (bind get_state (fun st' => bind
      (if over_budget_after ra st'
       then bind (mod_state (add_step (mkAgentStep (Z.of_nat k + 1) dec [])))
          (fun _ => bind (_append_event env rt false AgentEventKind.STEP_COMPLETED [FStep (Z.of_nat k + 1)])
            (fun _ => _finish env rt RunStatus.STOPPED StopReason.TOKEN_BUDGET_EXCEEDED None None))
       else ret tt)
      (fun _ => match answer dec with
                | Some a => answer_branch env rt ra d (Z.of_nat k + 1) dec a
                | None => tools_branch env rt ra d (Z.of_nat k + 1) dec
                end))) Q s2).
  { intros s2 Hi2. apply wp_bind, wp_get_state, wp_bind.
    destruct (over_budget_after ra (rs_state s2)) eqn:Eo.
    - apply wp_bind, (wp_step _ _ _ (S k) k (S k) 0); [done|by repeat split; auto|]. intros s3 Hi3 _.
      apply wp_bind, wp_append. intros s4 Ha4.
      pose proof (inv_neutral _ _ _ _ _ _ _ _ _ neutral_completed Ha4 Hi3).
      eapply wp_finish; [done..| |done]. solve_coherent.
    - apply wp_ret. assert (Hq2 : quiet rt ra (S k) k (S k) s2).
      { split; [done|]. intros b Hbud. unfold over_budget_after in Eo. rewrite Hbud in Eo. bools. lia. }
      destruct (answer dec) as [a|]; [by apply wp_answer_branch|by apply wp_tools_branch]. }
  destruct (token_usage dec) as [n|] eqn:Et; [|by apply wp_ret, Hrest].
  apply (wp_usage _ _ _ (S k) k (S k) n); [done| |].
  - by eapply valid_usage_nonneg.
  - intros s2 Hi2. apply Hrest. by rewrite Z.sub_diag in Hi2.
Qed.

Lemma wp_run_step d k Q s :
  quiet rt ra k k k s -> (S k <= N)%nat ->
  (forall s', quiet rt ra (S k) (S k) (S k) s' -> Q tt s') ->
  wp result_good raised (run_step env rt ra d) Q s.
Proof.
  intros Hq Hk HQ. apply wp_bind, wp_check_stop. intros stop s1 H1 Hstop.
  assert (Hq1 : quiet rt ra k k k s1) by by eapply quiet_same.
  apply wp_bind, (wp_stop_finish _ k k k); [done|lia|lia|done|].
  apply wp_bind, wp_get_state, wp_bind. destruct (over_budget_before _ _).
  { destruct Hq1. eapply wp_finish; [done|lia|lia|solve_coherent|done]. }
  apply wp_ret. replace (Z.of_nat (length (st_steps (rs_state s1))) + 1) with (Z.of_nat k + 1);
    [|by destruct Hq1 as [[_ _ _ _ -> _ _ _] _]].
  apply wp_bind, wp_append. intros s2 Ha2. destruct Hq1 as [Hi1 Hb1].
  pose proof (inv_step_started _ _ _ _ _ _ _ Ha2 Hi1) as Hi2.
  assert (Hq2 : quiet rt ra (S k) k k s2).
  { split; [done|]. destruct Ha2 as (? & ? & _ & E & _). by eapply within_state. }
  apply wp_bind, wp_try, wp_await.
  - intros dec s3 H3. apply wp_after_decision; [by eapply quiet_same|done|done].
  - intros e s3 He H3. eapply wp_call_error; [by eapply quiet_same|lia|lia|done].
Qed.

(** *** The loop and the whole run *)

Lemma wp_run_steps n d k Q s :
  quiet rt ra k k k s -> (k + n <= N)%nat ->
  (forall s', quiet rt ra (k + n) (k + n) (k + n) s' -> Q tt s') ->
  wp result_good raised (run_steps env rt ra n d) Q s.
Proof.
  revert k s. induction n as [|n IH]; intros k s Hq Hk HQ; simpl.
  - rewrite Nat.add_0_r in HQ. by apply wp_ret, HQ.
  - apply wp_bind, (wp_run_step _ k); [done|lia|]. intros s1 Hq1.
    apply (IH (S k)); [done|lia|]. by rewrite Nat.add_succ_comm.
Qed.

Lemma wp_after_steps X k Q s :
  quiet rt ra k k k s -> (k <= N)%nat -> wp result_good X (after_steps env rt) Q s.
Proof.
  intros [Hi Hb] Hk. apply wp_bind, wp_get_state.
  destruct (_last_calculator_result _); (eapply wp_finish; [done..| |done]); solve_coherent.
Qed.

(** What escapes from [run]: an exception of the tool executor. *)
Definition escapes (e : exn) (_ : @RunS W) : Prop :=
  rt_uses_executor rt = true /\ exists msg, e = PyError msg.

Lemma wp_run_loop d s :
  quiet rt ra 0 0 0 s -> Z.to_nat (ra_max_steps ra) = N ->
  wp result_good escapes (run_loop env rt ra d) (fun _ _ => False) s.
Proof.
  intros Hq HN. apply wp_try, wp_bind.
  apply (wp_mono _ raised _ _ (fun _ s' => quiet rt ra N N N s')).
  - rewrite HN. by apply (wp_run_steps _ _ 0).
  - intros [] s1 Hq1. by eapply wp_after_steps.
  - intros e s1 [[Hu [-> |[msg -> ]]] (k & j & m & Hq1 & Hj & Hm)]; [by eapply wp_call_error|].
    apply wp_raise. unfold escapes. eauto.
Qed.

End Result.
