(* ===== verification/AgentRuntimeProps.v ===== *)
(** * Properties of [AgentRuntime.run]

    The theorems about the results of a run, each with a concrete run of a
    scripted model as its witness. *)

From S2P Require Import Prelude Json ToolModels AgentRuntime AgentRuntimeFacts.
Local Open Scope Z_scope.

(** ** A scripted world: the decisions the model will take, a clock that ticks *)

Record script := mkScript { sc_time : Z; sc_decisions : list AgentDecision; sc_executed : nat }.

Definition tick (w : script) : Z * script :=
  (sc_time w, mkScript (sc_time w + 1) (sc_decisions w) (sc_executed w)).

Definition script_decide (w : script) : waited AgentDecision * script :=
  match sc_decisions w with
  | [] => (WaitReturned (Some (Err (OpError (u "model unavailable")))) false, w)
  | d :: ds => (WaitReturned (Some (Ok d)) false, mkScript (sc_time w) ds (sc_executed w))
  end.

(** A tool executor that rejects a timeout that is not positive
    ([ToolExecutor._resolve_timeout]) and otherwise answers. *)
Definition script_execute (timeout : option Z) (call : ToolCall) (w : script)
  : waited ToolExecutionResult * script :=
  let w' := mkScript (sc_time w) (sc_decisions w) (S (sc_executed w)) in
  if match timeout with Some t => t <=? 0 | None => false end
  then (WaitReturned (Some (Err (OpError (u "timeout_seconds must be a finite positive number")))) false, w')
  else (WaitReturned (Some (Ok (mkToolExecutionResult (call_name call)
          ToolExecutionStatus.SUCCEEDED (u "42") None None false))) false, w').

Definition script_env : runtime_env script := {|
  env_utc_now := tick;
  env_loop_time := tick;
  env_cancel_is_set := fun w => (false, w);
  env_decide := fun _ _ w => script_decide w;
  env_stream := fun _ w => (StreamOf 2, w);
  env_next_chunk := fun _ w => (WaitReturned (Some (Ok (Chunk (u "par")))) false, w);
  env_stream_end := fun _ w => (WaitReturned (Some (Ok tt)) false, w);
  env_stream_close := fun w => (None, w);
  env_execute := fun timeout _ call _ w => script_execute timeout call w;
  env_plain_tool := fun name => bool_decide (name = u "calculator");
  env_run_plain := fun _ _ _ w =>
    (WaitReturned (Some (Ok (u "42"))) false, mkScript (sc_time w) (sc_decisions w) (S (sc_executed w)))
|}.

Definition call_42 : ToolCall := mkToolCall (u "c1") (u "calculator") [(u "expression", JStr (u "6*7"))].
Definition decide_call : AgentDecision := mkAgentDecision None [call_42] (Some 10) true.
Definition decide_answer : AgentDecision := mkAgentDecision (Some (u "It is 42.")) [] (Some 5) true.

Definition plain_runtime : AgentRuntime := mkAgentRuntime false 8192 true true.
Definition executor_runtime : AgentRuntime := mkAgentRuntime true 8192 true true.

Definition demo_args : run_args :=
  mkRunArgs (u "6*7?") 8 None (Some 100) false (Some 50) None None false [].
Definition demo_world : script := mkScript 0 [decide_call; decide_answer] 0.

(** ** The run as a whole *)

Lemma check_arguments_budget ra b :
  check_arguments ra = Ok tt -> ra_token_budget ra = Some b -> 0 <= b.
Proof.
  unfold check_arguments. intros H Hb. rewrite Hb in H.
  destruct (bool_decide _); [done|]. destruct (ra_max_steps ra <? 1); [done|].
  destruct (match ra_timeout ra with Some _ => _ | None => _ end); [done|].
  destruct (b <? 0) eqn:E; [done|]. bools. lia.
Qed.

Lemma run_spec {W} (env : runtime_env W) rt ra fresh w :
  check_arguments ra = Ok tt ->
  match run env rt ra fresh w with
  | (Next _, _) => False
  | (Return r, s) => result_good rt ra (Z.to_nat (ra_max_steps ra)) r s
  | (Raise e, s) => escapes rt e s
  end.
Proof.
  intros Hargs. unfold run. rewrite Hargs.
  apply (wp_bind (result_good rt ra (Z.to_nat (ra_max_steps ra))) (escapes rt)
           (lift_result (Ok tt)) (fun _ => run_body env rt ra) (fun _ _ => False)).
  apply wp_ret, wp_bind, wp_get_state, wp_bind, wp_append. intros s1 (now & e & He & E1 & E2 & E3).
  apply wp_bind, wp_world. intros t s2 H2. apply wp_run_loop; [|done].
  eapply quiet_same; [exact H2|]. simpl in *.
  split; [|intros b Hb; rewrite E1; simpl; by eapply check_arguments_budget].
  split; rewrite ?E1, ?E2, ?E3; simpl; try done.
  - rewrite He. simpl. split.
    + intros [|i] x; simpl; [|done]. by intros [= <-].
    + repeat constructor.
    + by repeat constructor.
    + do 2 eexists. split; [reflexivity|]. split; [done|constructor].
  - by rewrite He.
  - by rewrite He.
  - by rewrite He.
Qed.



(** C1. The trace of every result is well formed: events numbered from 1
    without gaps, in time order, all of this run, [RUN_STARTED] first and only
    there, one [RUN_STOPPED] last that repeats status, stop reason, error and
    token usage, and no step marker in between. *)
Theorem run_trace_well_formed {W} (env : runtime_env W) rt ra fresh w r s :
  check_arguments ra = Ok tt -> run env rt ra fresh w = (Return r, s) -> trace_ok r.
Proof.
  intros Hargs Hrun. pose proof (run_spec env rt ra fresh w Hargs) as H. rewrite Hrun in H. apply H.
Qed.

(** The result of the scripted run and its final state. *)
Definition demo_run := run script_env plain_runtime demo_args (u "id") demo_world.
Definition demo_result : AgentRunResult :=
  match demo_run with
  | (Return r, _) => r
  | (_, s) => build_result RunStatus.FAILED StopReason.MODEL_ERROR None None (rs_state s) []
  end.

Lemma run_trace_well_formed_witness :
  trace_ok demo_result /\ (ev_kind <$> rr_events demo_result) =
    [AgentEventKind.RUN_STARTED; AgentEventKind.MODEL_DECISION; AgentEventKind.TOOL_STARTED;
     AgentEventKind.TOOL_COMPLETED; AgentEventKind.MODEL_DECISION; AgentEventKind.ANSWER;
     AgentEventKind.RUN_STOPPED].
Proof.
  split; [|vm_compute; reflexivity].
  apply (run_trace_well_formed script_env plain_runtime demo_args (u "id") demo_world demo_result
           demo_run.2); [reflexivity|]. vm_compute. reflexivity.
Defined.

(** A run takes at most [max_steps] steps and asks the model for at most
    [max_steps] decisions; its steps are numbered from 1, hold valid decisions,
    and have one result per tool call, in the order of the calls, unless cut. *)
Theorem run_bounded_steps {W} (env : runtime_env W) rt ra fresh w r s :
  check_arguments ra = Ok tt -> run env rt ra fresh w = (Return r, s) ->
  Z.of_nat (length (st_steps (rr_state r))) <= ra_max_steps ra /\
  Z.of_nat (decisions_in (rr_events r)) <= ra_max_steps ra /\
  steps_ok (st_steps (rr_state r)).
Proof.
  intros Hargs Hrun. pose proof (run_spec env rt ra fresh w Hargs) as H. rewrite Hrun in H.
  destruct H as [_ _ [Hok Hlen] Hdec _ _ _ _ _].
  assert (1 <= ra_max_steps ra).
  { unfold check_arguments in Hargs. destruct (bool_decide _); [done|].
    destruct (ra_max_steps ra <? 1) eqn:E; [done|]. bools. lia. }
  split_and!; [lia|lia|exact Hok].
Qed.

Lemma run_bounded_steps_witness :
  length (st_steps (rr_state demo_result)) = 2%nat /\
  Z.of_nat (length (st_steps (rr_state demo_result))) <= 8.
Proof.
  split; [vm_compute; reflexivity|].
  apply (run_bounded_steps script_env plain_runtime demo_args (u "id") demo_world demo_result demo_run.2);
    [reflexivity|vm_compute; reflexivity].
Defined.

(** The status that a caller may rely on for each stop reason. *)
Definition promised_status (r : StopReason.t) : RunStatus.t :=
  match r with
  | StopReason.DIRECT_ANSWER => RunStatus.COMPLETED
  | StopReason.DEADLINE_EXCEEDED => RunStatus.TIMED_OUT
  | StopReason.EXTERNAL_CANCELLED => RunStatus.CANCELLED
  | StopReason.MODEL_ERROR | StopReason.INVALID_DECISION => RunStatus.FAILED
  | _ => RunStatus.STOPPED
  end.

Lemma coherent_promised status reason ans err :
  coherent status reason ans err ->
  status = promised_status reason /\ (is_Some ans <-> status = RunStatus.COMPLETED) /\
  (is_Some err <-> status = RunStatus.FAILED).
Proof.
  intros (Ha & Hr & He & Hs). split_and!; [|done|done].
  destruct (decide (status = RunStatus.COMPLETED)) as [E|E].
  - rewrite E. apply Hr in E. by rewrite E.
  - assert (Hne : reason <> StopReason.DIRECT_ANSWER) by (intros F; by apply E, Hr).
    rewrite (Hs E). by destruct reason.
Qed.

(** The outcome is coherent: the stop reason decides the status
    ([DIRECT_ANSWER] means [COMPLETED], a passed deadline [TIMED_OUT], an external
    cancellation [CANCELLED], a model error or an invalid decision [FAILED],
    everything else [STOPPED]); there is an answer exactly when the run is
    [COMPLETED] and an error exactly when it is [FAILED]. *)
Theorem run_outcome_coherent {W} (env : runtime_env W) rt ra fresh w r s :
  check_arguments ra = Ok tt -> run env rt ra fresh w = (Return r, s) ->
  rr_status r = promised_status (rr_stop_reason r) /\
  (is_Some (rr_answer r) <-> rr_status r = RunStatus.COMPLETED) /\
  (is_Some (rr_error r) <-> rr_status r = RunStatus.FAILED).
Proof.
  intros Hargs Hrun. pose proof (run_spec env rt ra fresh w Hargs) as H. rewrite Hrun in H.
  apply coherent_promised, H.
Qed.

Lemma run_outcome_coherent_witness :
  rr_status demo_result = promised_status (rr_stop_reason demo_result) /\
  (is_Some (rr_answer demo_result) <-> rr_status demo_result = RunStatus.COMPLETED) /\
  (is_Some (rr_error demo_result) <-> rr_status demo_result = RunStatus.FAILED).
Proof.
  apply (run_outcome_coherent script_env plain_runtime demo_args (u "id") demo_world demo_result demo_run.2);
    [reflexivity|vm_compute; reflexivity].
Defined.

(** C3. The token usage of a result is the sum of what the validated decisions
    of its trace reported, and a completed run with a token budget is within
    that budget. *)
Theorem run_token_accounting {W} (env : runtime_env W) rt ra fresh w r s :
  check_arguments ra = Ok tt -> run env rt ra fresh w = (Return r, s) ->
  rr_token_usage r = usage_of (rr_events r) /\ 0 <= rr_token_usage r /\
  (rr_status r = RunStatus.COMPLETED ->
   forall b, ra_token_budget ra = Some b -> rr_token_usage r <= b).
Proof.
  intros Hargs Hrun. pose proof (run_spec env rt ra fresh w Hargs) as H. rewrite Hrun in H.
  destruct H as [_ [H1 H2] _ _ _ H3 _ _ _]. auto.
Qed.

Lemma run_token_accounting_witness :
  rr_token_usage demo_result = 15 /\ rr_token_usage demo_result = usage_of (rr_events demo_result).
Proof.
  split; [vm_compute; reflexivity|].
  apply (run_token_accounting script_env plain_runtime demo_args (u "id") demo_world demo_result demo_run.2);
    [reflexivity|vm_compute; reflexivity].
Defined.

(** When a run returns, an observer has been told the whole event log, in
    which every started step has been completed, and the public trace is that
    log without the step markers, renumbered. *)
Theorem run_observer_sees_closed_steps {W} (env : runtime_env W) rt ra fresh w r s :
  check_arguments ra = Ok tt -> run env rt ra fresh w = (Return r, s) ->
  rt_has_observer rt = true ->
  rs_observed s = rs_events s /\
  (forall i, i ∈ step_indices AgentEventKind.STEP_STARTED (rs_observed s) ->
             i ∈ step_indices AgentEventKind.STEP_COMPLETED (rs_observed s)) /\
  rr_events r = renumber 1 (filter (fun e => include_result_event e = true) (rs_observed s)).
Proof.
  intros Hargs Hrun Hobs. pose proof (run_spec env rt ra fresh w Hargs) as H. rewrite Hrun in H.
  destruct H as [_ _ _ _ _ _ H1 H2 H3]. rewrite Hobs in H1. rewrite H1. split; [done|]. split; [|done].
  intros i Hi. destruct (decide (i ∈ step_indices AgentEventKind.STEP_COMPLETED (rs_events s))); [done|].
  exfalso. assert (i ∈ open_steps (rs_events s)) by (by apply open_steps_mem).
  rewrite H2 in *. set_solver.
Qed.

Lemma run_observer_sees_closed_steps_witness :
  step_indices AgentEventKind.STEP_STARTED (rs_observed demo_run.2) = [1; 2] /\
  rs_observed demo_run.2 = rs_events demo_run.2.
Proof.
  split; [vm_compute; reflexivity|].
  apply (run_observer_sees_closed_steps script_env plain_runtime demo_args (u "id") demo_world
           demo_result demo_run.2); [reflexivity|vm_compute; reflexivity|reflexivity].
Defined.

(** ** Cached tool results *)

Lemma find_in_step_sound fp calls results r :
  find_in_step fp calls results = Some r ->
  exists n c, calls !! n = Some c /\ results !! n = Some r /\ res_succeeded r = true /\
    _tool_call_fingerprint c = fp.
Proof.
  revert results. induction calls as [|c calls IH]; intros [|x results]; try done; simpl.
  destruct (_ && _) eqn:E.
  - intros [= ->]. bools. by exists 0%nat, c.
  - intros (n & c' & ?)%IH. by exists (S n), c'.
Qed.

Lemma find_in_steps_sound fp steps r :
  find_in_steps fp steps = Some r ->
  exists x n c, x ∈ steps /\ tool_calls (step_decision x) !! n = Some c /\
    step_tool_results x !! n = Some r /\ res_succeeded r = true /\ _tool_call_fingerprint c = fp.
Proof.
  induction steps as [|x steps IH]; [done|]. simpl. destruct (find_in_step _ _ _) eqn:E.
  - intros [= ->]. apply find_in_step_sound in E as (n & c & ?). exists x, n, c. set_solver.
  - intros (y & n & c & ? & ?)%IH. exists y, n, c. set_solver.
Qed.

(** The same world with other tools. *)
Definition with_tools {W} (env : runtime_env W)
    (execute : option Z -> option Z -> ToolCall -> ToolContext -> W -> waited ToolExecutionResult * W)
    (plain : pystr -> bool) (run_plain : option Z -> ToolCall -> ToolContext -> W -> waited pystr * W)
  : runtime_env W :=
  mkEnv (env_utc_now env) (env_loop_time env) (env_cancel_is_set env) (env_decide env)
    (env_stream env) (env_next_chunk env) (env_stream_end env) (env_stream_close env)
    execute plain run_plain.

Lemma bind_cong {W A B} (m m' : @M W A) (k k' : A -> @M W B) s :
  m s = m' s -> (forall a s', m s = (Next a, s') -> k a s' = k' a s') -> bind m k s = bind m' k' s.
Proof. intros Hm Hk. unfold bind. rewrite <- Hm. destruct (m s) as [[a|r|e] s'] eqn:E; auto. Qed.

(** [_finish] never goes on. *)
Definition never_next {W A} (m : @M W A) : Prop := forall s a s', m s <> (Next a, s').

Lemma never_bind {W A B} (m : @M W A) (k : A -> @M W B) :
  (forall a, never_next (k a)) -> never_next (bind m k).
Proof. intros Hk s b s'. unfold bind. destruct (m s) as [[a|r|e] s1]; [apply Hk|done|done]. Qed.

Lemma finish_never_next {W A} (env : runtime_env W) rt status reason ans err :
  never_next (_finish (A := A) env rt status reason ans err).
Proof. unfold _finish. repeat (apply never_bind; intros). by intros ? ? ?. Qed.

(** A tool call whose name and arguments match an earlier successful call
    of the run is answered from that call: the earlier result is a success of a
    call with the same fingerprint, and the tools are not used at all (the call
    behaves the same whatever they are). *)
Theorem cached_call_not_executed {W} (env : runtime_env W) rt ra i d call s c :
  _find_cached_tool_result (rs_state s) call = Some c ->
  (exists x n c0, x ∈ st_steps (rs_state s) /\ tool_calls (step_decision x) !! n = Some c0 /\
     step_tool_results x !! n = Some c /\ res_succeeded c = true /\
     _tool_call_fingerprint c0 = _tool_call_fingerprint call) /\
  forall execute plain run_plain,
    run_tool_call (with_tools env execute plain run_plain) rt ra i d call s
    = run_tool_call env rt ra i d call s.
Proof.
  intros Hc. split; [by apply find_in_steps_sound|]. intros execute plain run_plain.
  unfold run_tool_call. apply bind_cong; [reflexivity|]. intros stop s1 Estop.
  assert (E1 : rs_state s1 = rs_state s).
  { pose proof (wp_check_stop env ra (fun _ _ => False) (fun _ _ => False) d
      (fun _ s' => same s s') s (fun _ _ H _ => H)) as Hs.
    unfold wp in Hs. change (_check_stop (with_tools env execute plain run_plain) ra d s)
      with (_check_stop env ra d s) in Estop. rewrite Estop in Hs. apply Hs. }
  apply bind_cong; [reflexivity|]. intros [] s2 Es2.
  destruct stop as [r|]; [by apply finish_never_next in Es2|]. injection Es2 as <-.
  apply bind_cong; [reflexivity|]. intros [] s3 Es3.
  assert (E3 : rs_state s3 = rs_state s).
  { pose proof (wp_append env rt (fun _ _ => False) (fun _ _ => False) true AgentEventKind.TOOL_STARTED
      [FStep i; FToolCall call] (fun _ s' => rs_state s' = rs_state s1) s1) as Ha.
    unfold wp in Ha. change (_append_event (with_tools env execute plain run_plain) rt)
      with (@_append_event W env rt) in Es3. rewrite Es3 in Ha. rewrite <- E1. apply Ha.
    by intros s' (? & ? & _ & ? & _). }
  apply bind_cong; [reflexivity|]. intros st s4 [= <- <-]. rewrite E3, Hc. reflexivity.
Qed.

Definition cached_state : @RunS script :=
  mkRunS (mkAgentState (u "id") (u "x") [] [mkAgentStep 1 decide_call
      [mkToolResult (u "c0") (u "calculator") (u "42") true None false false]] 10 None)
    [] [] [] None (mkScript 0 [] 0).

Lemma cached_call_not_executed_witness :
  exists c, _find_cached_tool_result (rs_state cached_state) call_42 = Some c /\
    run_tool_call (with_tools script_env (fun _ _ _ _ w => (WaitInterrupted false, w)) (fun _ => false)
        (fun _ _ _ w => (WaitInterrupted false, w))) plain_runtime demo_args 2 None call_42 cached_state
    = run_tool_call script_env plain_runtime demo_args 2 None call_42 cached_state.
Proof.
  eexists. split; [vm_compute; reflexivity|].
  eapply cached_call_not_executed. vm_compute. reflexivity.
Defined.

(** ** The narrow escape *)

(** Time jumps past the deadline between [_check_stop] and [_remaining]. *)
Definition late_clock (w : script) : Z * script :=
  (sc_time w, mkScript (sc_time w + 28) (sc_decisions w) (sc_executed w)).
Definition late_env : runtime_env script := {|
  env_utc_now := env_utc_now script_env;
  env_loop_time := late_clock;
  env_cancel_is_set := env_cancel_is_set script_env;
  env_decide := env_decide script_env;
  env_stream := env_stream script_env;
  env_next_chunk := env_next_chunk script_env;
  env_stream_end := env_stream_end script_env;
  env_stream_close := env_stream_close script_env;
  env_execute := env_execute script_env;
  env_plain_tool := env_plain_tool script_env;
  env_run_plain := env_run_plain script_env
|}.

(** With a tool executor the run can end in an exception instead of
    [TIMED_OUT]: when the deadline passes between the check before a tool call
    and the computation of the remaining time, the executor is called with a
    timeout of zero, rejects it with [ValueError], and no clause of [run]
    catches it. *)
Theorem run_escapes_with_value_error :
  exists s, run late_env executor_runtime demo_args (u "id") demo_world
    = (Raise (PyError (u "timeout_seconds must be a finite positive number")), s)
    /\ check_arguments demo_args = Ok tt.
Proof. eexists. split; [vm_compute; reflexivity|reflexivity]. Qed.
