(* ===== verification/Runs.v ===== *)
(** * Run traces: [app/runs/] and [app/agents/stream.py]

    What is kept of an agent run: the sanitiser ([sanitizer.py]), the trace and
    its dictionaries ([models.py]), the in-memory recorder ([recorder.py]) and the
    stream of a run's events to one SSE consumer ([agents/stream.py]).  Instants
    are microseconds; SHA-256 and the two directions of the ISO 8601 text of an
    instant are arguments.  The JSON text of a line is left to [json.dumps] and
    [json.loads]: [to_records] and [from_records] have the decoded lines. *)

From Corelib Require Import SpecFloat.
From S2P Require Import Prelude Json AgentRuntime.
Local Open Scope Z_scope.

(** ** Enums *)

(** The enum constructor: [None] for [ValueError] *)
Definition RunStatus_of (s : pystr) : option RunStatus.t :=
  head (filter (fun x => run_status_value x = s)
    [RunStatus.COMPLETED; RunStatus.STOPPED; RunStatus.FAILED; RunStatus.CANCELLED; RunStatus.TIMED_OUT]).
Definition StopReason_of (s : pystr) : option StopReason.t :=
  head (filter (fun x => stop_reason_value x = s)
    [StopReason.DIRECT_ANSWER; StopReason.MAX_STEPS; StopReason.DEADLINE_EXCEEDED; StopReason.EXTERNAL_CANCELLED;
     StopReason.MODEL_ERROR; StopReason.INVALID_DECISION; StopReason.TOKEN_BUDGET_EXCEEDED]).

(** ** Traces *)

Record RunTraceEvent := mkTraceEvent {
  te_run_id : pystr;
  te_sequence : Z;
  te_kind : pystr;
  te_occurred_at : Z;
  te_elapsed_ms : float64;
  te_step_index : option Z;
  te_message_summary : option pystr;
  te_error_summary : option pystr;
  te_decision_type : option pystr;
  te_tool_name : option pystr;
  te_tool_call_count : option Z;
  te_tool_arguments_count : option Z;
  te_tool_arguments_fingerprint : option pystr;
  te_tool_succeeded : option bool;
  te_tool_error_code : option pystr;
  te_tool_output_chars : option Z;
  te_tool_output_fingerprint : option pystr;
  te_tool_output_truncated : option bool;
  te_status : option pystr;
  te_stop_reason : option pystr;
  te_token_usage : option Z;
  te_cumulative_token_usage : option Z
}.

Record RunTraceToolSummary := mkToolSummary {
  ts_name : pystr;
  ts_call_count : Z;
  ts_success_count : Z;
  ts_failure_count : Z;
  ts_last_error_code : option pystr
}.

Record RunTrace := mkRunTrace {
  rt_run_id : pystr;
  rt_request_id : option pystr;
  rt_model : option pystr;
  rt_started_at : Z;
  rt_completed_at : option Z;
  rt_status : option RunStatus.t;
  rt_stop_reason : option StopReason.t;
  rt_token_usage : option Z;
  rt_events : list RunTraceEvent;
  rt_recorder_errors : list pystr
}.

(** [(a - b).total_seconds() * 1000] and [max(0.0, ...)] *)
Definition milliseconds (us : Z) : float64 :=
  let seconds :=
    match us with
    | Z0 => S754_zero false
    | Zpos p => round_ratio false p 1000000
    | Zneg p => round_ratio true p 1000000
    end in
  let ms := SFmul 53 1024 seconds (round_ratio false 1000 1) in
  if SFltb (S754_zero false) ms then ms else S754_zero false.

(** [max(..., default=0)] *)
Definition step_count (t : RunTrace) : Z :=
  match (fun e => default 0 (te_step_index e)) <$> rt_events t with
  | [] => 0
  | x :: l => foldl Z.max x l
  end.

Definition duration_ms (t : RunTrace) : option float64 :=
  (fun c => milliseconds (c - rt_started_at t)) <$> rt_completed_at t.

Definition count_tool (values : RunTraceToolSummary) (succeeded : bool) (error_code : option pystr)
  : RunTraceToolSummary :=
  mkToolSummary (ts_name values) (ts_call_count values + 1)
    (if succeeded then ts_success_count values + 1 else ts_success_count values)
    (if succeeded then ts_failure_count values else ts_failure_count values + 1)
    (if succeeded then ts_last_error_code values
     else match error_code with Some e => Some e | None => ts_last_error_code values end).

Definition add_tool_event (summaries : list (pystr * RunTraceToolSummary)) (e : RunTraceEvent)
  : list (pystr * RunTraceToolSummary) :=
  match te_tool_name e, te_tool_succeeded e with
  | Some name, Some ok =>
      dict_set name (count_tool (default (mkToolSummary name 0 0 0 None) (dict_get name summaries)) ok
                       (te_tool_error_code e)) summaries
  | _, _ => summaries
  end.

Definition tool_summaries (t : RunTrace) : list RunTraceToolSummary :=
  (foldl add_tool_event [] (rt_events t)).*2.

(** ** Dictionaries *)

Definition of_opt {A} (f : A -> json) (o : option A) : json := match o with Some a => f a | None => JNull end.

Inductive trace_error := TraceValueError (message : pystr).

Definition field_error (key text : pystr) : trace_error := TraceValueError (u "trace field " ++ key ++ text).

Section Dicts.
Context (isoformat : Z -> pystr) (fromisoformat : pystr -> option Z).
Abbreviation data := (list (pystr * json)).

Definition get_value (key : pystr) (d : data) : json := default JNull (dict_get key d).

Definition event_to_dict (e : RunTraceEvent) : data :=
  [(u "type", JStr (u "event"));
   (u "run_id", JStr (te_run_id e));
   (u "sequence", JInt (te_sequence e));
   (u "kind", JStr (te_kind e));
   (u "occurred_at", JStr (isoformat (te_occurred_at e)));
   (u "elapsed_ms", JFloat (te_elapsed_ms e));
   (u "step_index", of_opt JInt (te_step_index e));
   (u "message_summary", of_opt JStr (te_message_summary e));
   (u "error_summary", of_opt JStr (te_error_summary e));
   (u "decision_type", of_opt JStr (te_decision_type e));
   (u "tool_name", of_opt JStr (te_tool_name e));
   (u "tool_call_count", of_opt JInt (te_tool_call_count e));
   (u "tool_arguments_count", of_opt JInt (te_tool_arguments_count e));
   (u "tool_arguments_fingerprint", of_opt JStr (te_tool_arguments_fingerprint e));
   (u "tool_succeeded", of_opt JBool (te_tool_succeeded e));
   (u "tool_error_code", of_opt JStr (te_tool_error_code e));
   (u "tool_output_chars", of_opt JInt (te_tool_output_chars e));
   (u "tool_output_fingerprint", of_opt JStr (te_tool_output_fingerprint e));
   (u "tool_output_truncated", of_opt JBool (te_tool_output_truncated e));
   (u "status", of_opt JStr (te_status e));
   (u "stop_reason", of_opt JStr (te_stop_reason e));
   (u "token_usage", of_opt JInt (te_token_usage e));
   (u "cumulative_token_usage", of_opt JInt (te_cumulative_token_usage e))].

Definition _required_str (d : data) (key : pystr) : result trace_error pystr :=
  match get_value key d with
  | JStr ((_ :: _) as s) => Ok s
  | _ => Err (field_error key (u " must be a non-empty string"))
  end.
Definition _required_int (d : data) (key : pystr) : result trace_error Z :=
  match get_value key d with
  | JInt z => Ok z
  | _ => Err (field_error key (u " must be an integer"))
  end.
Definition _required_float (d : data) (key : pystr) : result trace_error float64 :=
  match get_value key d with
  | JFloat f => Ok f
  | JInt Z0 => Ok (S754_zero false)
  | JInt (Zpos p) => Ok (round_ratio false p 1)
  | JInt (Zneg p) => Ok (round_ratio true p 1)
  | _ => Err (field_error key (u " must be a number"))
  end.
Definition _optional_str (v : json) : option pystr := match v with JStr s => Some s | _ => None end.
Definition _optional_int (v : json) : option Z := match v with JInt z => Some z | _ => None end.
Definition _optional_bool (v : json) : option bool := match v with JBool b => Some b | _ => None end.

Definition _parse_datetime_value (v : json) (key : pystr) : result trace_error Z :=
  match v with
  | JStr s =>
      match fromisoformat s with
      | Some t => Ok t
      | None => Err (TraceValueError (u "Invalid isoformat string: " ++ s))
      end
  | _ => Err (field_error key (u " must be an ISO datetime string"))
  end.
Definition _parse_datetime (d : data) (key : pystr) : result trace_error Z :=
  _parse_datetime_value (get_value key d) key.

Definition _optional_enum {A} (of_str : pystr -> option A) (v : json) : result trace_error (option A) :=
  match v with
  | JNull => Ok None
  | JStr s =>
      match of_str s with
      | Some a => Ok (Some a)
      | None => Err (TraceValueError (u "unknown trace enum value: " ++ s))
      end
  | _ => Err (TraceValueError (u "trace enum field must be a string"))
  end.

Definition event_from_dict (d : data) : result trace_error RunTraceEvent :=
  run_id ← _required_str d (u "run_id");
  sequence ← _required_int d (u "sequence");
  kind ← _required_str d (u "kind");
  occurred_at ← _parse_datetime d (u "occurred_at");
  elapsed_ms ← _required_float d (u "elapsed_ms");
  Ok (mkTraceEvent run_id sequence kind occurred_at elapsed_ms
        (_optional_int (get_value (u "step_index") d))
        (_optional_str (get_value (u "message_summary") d))
        (_optional_str (get_value (u "error_summary") d))
        (_optional_str (get_value (u "decision_type") d))
        (_optional_str (get_value (u "tool_name") d))
        (_optional_int (get_value (u "tool_call_count") d))
        (_optional_int (get_value (u "tool_arguments_count") d))
        (_optional_str (get_value (u "tool_arguments_fingerprint") d))
        (_optional_bool (get_value (u "tool_succeeded") d))
        (_optional_str (get_value (u "tool_error_code") d))
        (_optional_int (get_value (u "tool_output_chars") d))
        (_optional_str (get_value (u "tool_output_fingerprint") d))
        (_optional_bool (get_value (u "tool_output_truncated") d))
        (_optional_str (get_value (u "status") d))
        (_optional_str (get_value (u "stop_reason") d))
        (_optional_int (get_value (u "token_usage") d))
        (_optional_int (get_value (u "cumulative_token_usage") d))).

Definition summary_to_dict (s : RunTraceToolSummary) : data :=
  [(u "name", JStr (ts_name s));
   (u "call_count", JInt (ts_call_count s));
   (u "success_count", JInt (ts_success_count s));
   (u "failure_count", JInt (ts_failure_count s));
   (u "last_error_code", of_opt JStr (ts_last_error_code s))].

(** [RunTrace.to_dict] without ["events"] *)
Definition run_record (t : RunTrace) : data :=
  [(u "type", JStr (u "run"));
   (u "run_id", JStr (rt_run_id t));
   (u "request_id", of_opt JStr (rt_request_id t));
   (u "model", of_opt JStr (rt_model t));
   (u "started_at", JStr (isoformat (rt_started_at t)));
   (u "completed_at", of_opt (fun c => JStr (isoformat c)) (rt_completed_at t));
   (u "status", of_opt (fun s => JStr (run_status_value s)) (rt_status t));
   (u "stop_reason", of_opt (fun r => JStr (stop_reason_value r)) (rt_stop_reason t));
   (u "step_count", JInt (step_count t));
   (u "duration_ms", of_opt JFloat (duration_ms t));
   (u "token_usage", of_opt JInt (rt_token_usage t));
   (u "tool_summaries", JArr ((fun s => JObj (summary_to_dict s)) <$> tool_summaries t));
   (u "recorder_errors", JArr (JStr <$> rt_recorder_errors t))].

Definition trace_to_dict (t : RunTrace) : data :=
  run_record t ++ [(u "events", JArr ((fun e => JObj (event_to_dict e)) <$> rt_events t))].

(** The records of the lines of [to_jsonl]. *)
Definition to_records (t : RunTrace) : list json :=
  JObj (run_record t) :: ((fun e => JObj (event_to_dict e)) <$> rt_events t).

Definition is_event_record (v : json) : option data :=
  match v with
  | JObj d => if decide (get_value (u "type") d = JStr (u "event")) then Some d else None
  | _ => None
  end.

Definition string_list (v : json) : result trace_error (list pystr) :=
  let bad := TraceValueError (u "trace recorder_errors must be a string list") in
  match v with
  | JArr l => mapM (fun x => match x with JStr s => Ok s | _ => Err bad end) l
  | _ => Err bad
  end.

(** [from_jsonl], the lines decoded. *)
Definition from_records (records : list json) : result trace_error RunTrace :=
  match records with
  | [] => Err (TraceValueError (u "trace JSONL must contain at least one record"))
  | JObj d :: event_records =>
      _ ← raise_if (negb (bool_decide (get_value (u "type") d = JStr (u "run"))))
            (TraceValueError (u "trace JSONL must start with a run record"));
      recorder_errors ← string_list (default (JArr []) (dict_get (u "recorder_errors") d));
      events ← mapM event_from_dict (omap is_event_record event_records);
      run_id ← _required_str d (u "run_id");
      started_at ← _parse_datetime d (u "started_at");
      completed_at ← match get_value (u "completed_at") d with
                     | JNull => Ok None
                     | v => t ← _parse_datetime_value v (u "completed_at"); Ok (Some t)
                     end;
      status ← _optional_enum RunStatus_of (get_value (u "status") d);
      stop_reason ← _optional_enum StopReason_of (get_value (u "stop_reason") d);
      Ok (mkRunTrace run_id (_optional_str (get_value (u "request_id") d)) (_optional_str (get_value (u "model") d))
            started_at completed_at status stop_reason (_optional_int (get_value (u "token_usage") d)) events
            recorder_errors)
  | _ => Err (TraceValueError (u "trace JSONL must start with a run record"))
  end.
End Dicts.

(** ** The sanitiser *)

Definition _DEFAULT_SUMMARY_MAX_CHARS : Z := 160.
Definition _TRUNCATION_MARKER : pystr := u "...[truncated]".

(** A lower-case letter against a character under [(?i)]: besides the two cases,
    i matches U+0130 and U+0131, s matches U+017F, k matches U+212A. *)
Definition matches_ci (c x : N) : bool :=
  ((x =? c) || ((97 <=? c) && (c <=? 122) && (x =? c - 32))
   || ((c =? 105) && ((x =? 304) || (x =? 305))) || ((c =? 115) && (x =? 383)) || ((c =? 107) && (x =? 8490)))%N.

Fixpoint starts_ci (w s : pystr) : bool :=
  match w, s with
  | [], _ => true
  | c :: w', x :: s' => matches_ci c x && starts_ci w' s'
  | _ :: _, [] => false
  end.

(** The first group: at most one alternative matches at a place. *)
Definition keyword_length (s : pystr) : option nat :=
  match filter (fun w => starts_ci w s = true)
    [u "apikey"; u "api_key"; u "api key"; u "api-key"; u "authorization"; u "bearer"; u "password"; u "secret"; u "token"]
  with
  | w :: _ => Some (length w)
  | [] => None
  end.

Fixpoint count_while (p : N -> bool) (s : pystr) : nat :=
  match s with
  | c :: s' => if p c then S (count_while p s') else O
  | [] => O
  end.

Definition is_quote (c : N) : bool := (c =? 39)%N || (c =? 34)%N.
(** The class of the characters of a value *)
Definition is_value_char (c : N) : bool := negb (is_space c || (c =? 44)%N || is_quote c || (c =? 125)%N).

(** [_SECRET_PATTERN.match]: the lengths of the first two groups and of the
    match.  No backtracking finds another match: a colon or an equals sign is not
    a space, and a quote is not a character of the value. *)
Definition secret_match (s : pystr) : option (nat * nat) :=
  k ← keyword_length s;
  let s1 := drop k s in
  let a := count_while is_space s1 in
  match drop a s1 with
  | c :: s2 =>
      if (c =? 58)%N || (c =? 61)%N then
        let b := count_while is_space s2 in
        let groups := (k + a + 1 + b)%nat in
        match drop b s2 with
        | q :: s3 =>
            if is_quote q then
              let v := count_while is_value_char s3 in
              if (0 <? v)%nat && bool_decide (s3 !! v = Some q) then Some (groups, (groups + v + 2)%nat) else None
            else
              let v := count_while is_value_char (q :: s3) in
              if (0 <? v)%nat then Some (groups, (groups + v)%nat) else None
        | [] => None
        end
      else None
  | [] => None
  end.

(** Every match takes at least one character: the length is enough fuel. *)
Fixpoint redact_fuel (fuel : nat) (s : pystr) : pystr :=
  match fuel with
  | O => s
  | S f =>
      match secret_match s with
      | Some (groups, n) => take groups s ++ u "<redacted>" ++ redact_fuel f (drop n s)
      | None => match s with [] => [] | c :: s' => c :: redact_fuel f s' end
      end
  end.
Definition _redact (value : pystr) : pystr := redact_fuel (length value) value.

(** [ensure_ascii]: what [json.dumps] escapes beyond [dump_json]. *)
Definition hex4 (n : N) : pystr :=
  u "\u" ++ ((fun k => hex_digit (N.shiftr n k mod 16)) <$> [12; 8; 4; 0]%N).
Definition ascii_char (c : N) : pystr :=
  if (c <? 127)%N then [c]
  else if (c <? 65536)%N then hex4 c
  else hex4 (55296 + N.shiftr (c - 65536) 10) ++ hex4 (56320 + (c - 65536) mod 1024).
Definition dump_ascii (v : json) : pystr := concat (ascii_char <$> dump_json v).

Section Sanitizer.
Context (_sha256 : pystr -> pystr).

Definition _fingerprint (v : json) : pystr := u "sha256:" ++ _sha256 (dump_ascii v).

Definition _summarize_text (value : option pystr) (max_chars : Z) (include_preview : bool) : option pystr :=
  v ← value;
  let redacted := _redact v in
  let preview := sprefix max_chars redacted in
  let preview :=
    if max_chars <? slen redacted
    then sprefix (Z.max 0 (max_chars - slen _TRUNCATION_MARKER)) preview ++ _TRUNCATION_MARKER
    else preview in
  let preview_part := if include_preview then u ";preview=" ++ preview else [] in
  Some (u "chars=" ++ str_of_Z (slen v) ++ u ";sha256=" ++ _sha256 v ++ preview_part).

Definition _safe_text (value : option pystr) : option pystr :=
  v ← value; Some (sprefix _DEFAULT_SUMMARY_MAX_CHARS (_redact v)).

(** [__init__]: [None] is [ValueError] *)
Definition DefaultRunTraceSanitizer_init (summary_max_chars : Z) : option Z :=
  if summary_max_chars <? 1 then None else Some summary_max_chars.

Definition sanitize (summary_max_chars : Z) (e : AgentEvent) (started_at : Z) : RunTraceEvent :=
  let message_summary :=
    match ev_kind e with
    | AgentEventKind.RUN_STARTED => _summarize_text (ev_message e) summary_max_chars false
    | AgentEventKind.ANSWER => _summarize_text (ev_message e) summary_max_chars true
    | _ => None
    end in
  let error_summary :=
    match ev_kind e with
    | AgentEventKind.RUN_STARTED | AgentEventKind.ANSWER => None
    | _ => _summarize_text (ev_message e) summary_max_chars true
    end in
  let tool_name :=
    match ev_tool_call e with
    | Some c => _safe_text (Some (call_name c))
    | None => r ← ev_tool_result e; _safe_text (Some (res_name r))
    end in
  mkTraceEvent (ev_run_id e) (ev_sequence e) (kind_value (ev_kind e)) (ev_occurred_at e)
    (milliseconds (ev_occurred_at e - started_at)) (ev_step_index e) message_summary error_summary
    ((fun d => match answer d with Some _ => u "answer" | None => u "tool_call" end) <$> ev_decision e)
    tool_name
    ((fun d => Z.of_nat (length (tool_calls d))) <$> ev_decision e)
    ((fun c => Z.of_nat (length (call_arguments c))) <$> ev_tool_call e)
    ((fun c => _fingerprint (JObj (call_arguments c))) <$> ev_tool_call e)
    (res_succeeded <$> ev_tool_result e)
    (r ← ev_tool_result e; _safe_text (res_error r))
    ((fun r => slen (res_content r)) <$> ev_tool_result e)
    ((fun r => _fingerprint (JStr (res_content r))) <$> ev_tool_result e)
    (res_truncated <$> ev_tool_result e)
    (run_status_value <$> ev_status e)
    (stop_reason_value <$> ev_stop_reason e)
    (match ev_decision e with Some d => token_usage d | None => ev_cumulative_token_usage e end)
    (ev_cumulative_token_usage e).

(** ** The recorder *)

Record InMemoryRunTraceRecorder := mkRecorder {
  rec_events : list RunTraceEvent;
  rec_run_id : option pystr;
  rec_request_id : option pystr;
  rec_model : option pystr;
  rec_started_at : option Z;
  rec_errors : list pystr
}.
Definition recorder_init : InMemoryRunTraceRecorder := mkRecorder [] None None None None [].

(** [None]: [ValueError], the recorder belongs to another run. *)
Definition rec_start (run_id : pystr) (request_id model : option pystr) (started_at : Z)
    (r : InMemoryRunTraceRecorder) : option InMemoryRunTraceRecorder :=
  match rec_run_id r with
  | Some i => if decide (i = run_id) then Some r else None
  | None => Some (mkRecorder (rec_events r) (Some run_id) request_id model (Some started_at) (rec_errors r))
  end.

Definition observation_failed (r : InMemoryRunTraceRecorder) : InMemoryRunTraceRecorder :=
  mkRecorder (rec_events r) (rec_run_id r) (rec_request_id r) (rec_model r) (rec_started_at r)
    (rec_errors r ++ [u "trace_observation_failed"]).

Definition rec_observe (summary_max_chars : Z) (e : AgentEvent) (r : InMemoryRunTraceRecorder)
  : InMemoryRunTraceRecorder :=
  let started :=
    match rec_started_at r with
    | None => rec_start (ev_run_id e) None None (ev_occurred_at e) r
    | Some _ => Some r
    end in
  match started with
  | None => observation_failed r
  | Some r =>
      match rec_started_at r with
      | Some started_at =>
          if decide (rec_run_id r = Some (ev_run_id e)) then
            mkRecorder (rec_events r ++ [sanitize summary_max_chars e started_at]) (rec_run_id r) (rec_request_id r)
              (rec_model r) (rec_started_at r) (rec_errors r)
          else observation_failed r
      | None => observation_failed r
      end
  end.

Definition rec_finish (result : AgentRunResult) (r : InMemoryRunTraceRecorder) : option InMemoryRunTraceRecorder :=
  match rec_run_id r with
  | None => Some (mkRecorder (rec_events r) (Some (rr_run_id result)) (rec_request_id r) (rec_model r)
                    (rec_started_at r) (rec_errors r))
  | Some i => if decide (i = rr_run_id result) then Some r else None
  end.

Definition snapshot (r : InMemoryRunTraceRecorder) : option RunTrace :=
  match rec_events r, rec_started_at r, rec_run_id r with
  | _ :: _, Some started_at, Some run_id =>
      let terminal := last (filter (fun e => te_kind e = u "run_stopped") (rec_events r)) in
      Some (mkRunTrace run_id (rec_request_id r) (rec_model r) started_at (te_occurred_at <$> terminal)
              (e ← terminal; s ← te_status e; RunStatus_of s) (e ← terminal; r ← te_stop_reason e; StopReason_of r)
              (last (omap te_cumulative_token_usage (rec_events r))) (rec_events r) (rec_errors r))
  | _, _, _ => None
  end.
End Sanitizer.

(** ** The event stream *)

Inductive stream_item := StreamEvent (e : AgentEvent) | AgentStreamClosed | AgentStreamSetupError.

Record AgentEventStream := mkStream {
  st_queue : list stream_item;
  st_run_started : bool;
  st_terminal : bool;
  st_stream_run_id : option pystr;
  st_last_sequence : option Z
}.
Definition stream_init : AgentEventStream := mkStream [] false false None None.

Definition stream_observe (e : AgentEvent) (s : AgentEventStream) : AgentEventStream :=
  let started := bool_decide (ev_kind e = AgentEventKind.RUN_STARTED) in
  mkStream (st_queue s ++ [StreamEvent e]) (started || st_run_started s)
    (bool_decide (ev_kind e = AgentEventKind.RUN_STOPPED) || st_terminal s)
    (if started then Some (ev_run_id e) else st_stream_run_id s)
    (Some (match st_last_sequence s with None => ev_sequence e | Some n => Z.max n (ev_sequence e) end)).

Definition put (x : stream_item) (s : AgentEventStream) : AgentEventStream :=
  mkStream (st_queue s ++ [x]) (st_run_started s) (st_terminal s) (st_stream_run_id s) (st_last_sequence s).
Definition close : AgentEventStream -> AgentEventStream := put AgentStreamClosed.

Definition fail_setup (s : AgentEventStream) : AgentEventStream :=
  close (if st_terminal s then s else put AgentStreamSetupError s).

(** [None]: [RuntimeError] *)
Definition fail_unexpected (now : Z) (s : AgentEventStream) : option AgentEventStream :=
  if st_terminal s then Some (close s)
  else if negb (st_run_started s) then Some (fail_setup s)
  else
    run_id ← st_stream_run_id s;
    let sequence := match st_last_sequence s with None => 1 | Some n => n + 1 end in
    Some (close (stream_observe
      (mkAgentEvent AgentEventKind.RUN_STOPPED run_id sequence now None None None None None
         (Some RunStatus.FAILED) (Some StopReason.MODEL_ERROR) None) s)).

(** [receive]: [None] while the consumer waits *)
Definition receive (s : AgentEventStream) : option (stream_item * AgentEventStream) :=
  match st_queue s with
  | [] => None
  | x :: q => Some (x, mkStream q (st_run_started s) (st_terminal s) (st_stream_run_id s) (st_last_sequence s))
  end.
