(* ===== verification/RunsProps.v ===== *)
(** * Properties of the run traces and of the event stream

    The recorder is told the log of a run without its step markers and answer
    deltas; its snapshot repeats the outcome of the run; a trace is read back
    from its records; a stream ends with one terminal item. *)

From S2P Require Import Prelude Json ToolModels AgentRuntime AgentRuntimeFacts AgentRuntimeProps Runs.
Local Open Scope Z_scope.

(** ** What a recorder is told *)

Definition recordable (k : AgentEventKind.t) : bool :=
  match k with
  | AgentEventKind.STEP_STARTED | AgentEventKind.STEP_COMPLETED | AgentEventKind.ANSWER_DELTA => false
  | _ => true
  end.

Section Recorded.
Context {W : Type} (env : runtime_env W) (rt : AgentRuntime) (ra : run_args).

Definition mirror (s : @RunS W) : Prop :=
  rs_recorded s = if rt_has_recorder rt then filter (fun e => recordable (ev_kind e) = true) (rs_events s) else [].
Definition keeps {A} (m : @M W A) : Prop := forall s, mirror s -> mirror (m s).2.

Lemma keeps_ret {A} (a : A) : keeps (ret a).
Proof. by intros s. Qed.
Lemma keeps_raise {A} e : keeps (A := A) (raise e).
Proof. by intros s. Qed.
Lemma keeps_return {A} r : keeps (A := A) (return_result r).
Proof. by intros s. Qed.
Lemma keeps_bind {A B} (m : @M W A) (k : A -> M B) : keeps m -> (forall a, keeps (k a)) -> keeps (bind m k).
Proof.
  intros Hm Hk s Hs. specialize (Hm s Hs). unfold bind.
  destruct (m s) as [[a|r|e] s']; simpl in *; try done. by apply Hk.
Qed.
Lemma keeps_try {A} (m : @M W A) h : keeps m -> (forall e, keeps (h e)) -> keeps (try_except m h).
Proof.
  intros Hm Hh s Hs. specialize (Hm s Hs). unfold try_except.
  destruct (m s) as [[a|r|e] s']; simpl in *; try done. by apply Hh.
Qed.
Lemma keeps_get_state : keeps get_state.
Proof. by intros s. Qed.
Lemma keeps_get_events : keeps get_events.
Proof. by intros s. Qed.
Lemma keeps_mod_state f : keeps (mod_state f).
Proof. by intros s. Qed.
Lemma keeps_notify_finish r : keeps (notify_finish rt r).
Proof. by intros s. Qed.
Lemma keeps_world {A} (f : W -> A * W) : keeps (world f).
Proof. intros s Hs. unfold world. by destruct (f (rs_world s)). Qed.
Lemma keeps_finally {A} (m : @M W A) : keeps m -> keeps (finally_close env m).
Proof.
  intros Hm s Hs. specialize (Hm s Hs). unfold finally_close.
  destruct (m s) as [c s1]. simpl in Hm.
  pose proof (keeps_world (env_stream_close env) s1 Hm) as H2.
  destruct (world (env_stream_close env) s1) as [[[e|]|r|e] s2]; exact H2.
Qed.

Lemma push_keeps b e : b = recordable (ev_kind e) -> keeps (push_event rt b e).
Proof.
  intros -> s Hs. unfold mirror in *. simpl. rewrite Hs.
  destruct (rt_has_recorder rt); [|by rewrite andb_false_r].
  rewrite andb_true_r, filter_app, filter_cons, filter_nil.
  destruct (recordable (ev_kind e)); simpl; [done|by rewrite app_nil_r].
Qed.

Lemma keeps_append b kind fs : b = recordable kind -> keeps (_append_event env rt b kind fs).
Proof.
  intros Hb. unfold _append_event.
  do 2 (apply keeps_bind; [by intros s|intros ?]). apply keeps_bind; [apply keeps_world|intros now].
  apply push_keeps. by destruct (set_fields_frame fs (mkAgentEvent kind (st_run_id a0) (event_sequence (last a))
      (event_time (last a) now) None None None None None None None None)) as (-> & _).
Qed.

Lemma keeps_complete l : keeps (complete_each env rt l).
Proof.
  induction l as [|i l IH]; simpl; [apply keeps_ret|].
  apply keeps_bind; [by apply keeps_append|done].
Qed.
End Recorded.

#[local] Hint Resolve keeps_ret keeps_raise keeps_return keeps_get_state keeps_get_events keeps_mod_state
  keeps_notify_finish keeps_world keeps_complete : keeps.
(** The steps of a run are built from the operations above. *)
Ltac keeps :=
  repeat first
    [ solve [eauto with keeps]
    | simple apply keeps_append; first [reflexivity | by case_match]
    | apply keeps_bind; [|intros ?]
    | apply keeps_try; [|intros ?]
    | apply keeps_finally
    | match goal with |- keeps _ (match ?x with _ => _ end) => destruct x end
    | progress cbv zeta ].

Section Run_keeps.
Context {W : Type} (env : runtime_env W) (rt : AgentRuntime) (ra : run_args).

Lemma keeps_finish {A} status reason ans err : keeps rt (_finish (A := A) env rt status reason ans err).
Proof. unfold _finish, _complete_open_steps. keeps. Qed.
#[local] Hint Resolve keeps_finish : keeps.

Lemma keeps_remaining d : keeps rt (_remaining env d).
Proof. unfold _remaining. keeps. Qed.
Lemma keeps_check_stop d : keeps rt (_check_stop env ra d).
Proof. unfold _check_stop. keeps. Qed.
#[local] Hint Resolve keeps_remaining keeps_check_stop : keeps.
Lemma keeps_await {A} d (op : option Z -> W -> waited A * W) : keeps rt (_await_controlled env ra d op).
Proof. unfold _await_controlled, lift_result. keeps. Qed.
#[local] Hint Resolve keeps_await : keeps.

Lemma keeps_call_error {A} e : keeps rt (finish_call_error (A := A) env rt e).
Proof. unfold finish_call_error. keeps. Qed.
#[local] Hint Resolve keeps_call_error : keeps.
Lemma keeps_tool_error {A} e : keeps rt (finish_tool_error (A := A) env rt e).
Proof. unfold finish_tool_error. keeps. Qed.
Lemma keeps_run_error {A} e : keeps rt (finish_run_error (A := A) env rt e).
Proof. unfold finish_run_error. keeps. Qed.
#[local] Hint Resolve keeps_tool_error keeps_run_error : keeps.

Lemma keeps_chunks d i n parts : keeps rt (consume_chunks env rt ra d i n parts).
Proof. revert parts. induction n as [|n IH]; intros parts; simpl; keeps; apply IH. Qed.
#[local] Hint Resolve keeps_chunks : keeps.
Lemma keeps_stream d i : keeps rt (_consume_answer_stream env rt ra d i).
Proof. unfold _consume_answer_stream. keeps. Qed.
Lemma keeps_execute call i d : keeps rt (_execute_tool env rt ra call i d).
Proof. unfold _execute_tool. keeps. Qed.
#[local] Hint Resolve keeps_stream keeps_execute : keeps.

Lemma keeps_tool_call i d call : keeps rt (run_tool_call env rt ra i d call).
Proof. unfold run_tool_call. keeps. Qed.
#[local] Hint Resolve keeps_tool_call : keeps.
Lemma keeps_tool_calls i d calls results reused : keeps rt (run_tool_calls env rt ra i d calls results reused).
Proof.
  revert results reused. induction calls as [|c calls IH]; intros results reused; simpl; keeps; apply IH.
Qed.
#[local] Hint Resolve keeps_tool_calls : keeps.

Lemma keeps_answer d i dec a : keeps rt (answer_branch env rt ra d i dec a).
Proof. unfold answer_branch. keeps. Qed.
Lemma keeps_tools d i dec : keeps rt (tools_branch env rt ra d i dec).
Proof. unfold tools_branch. keeps. Qed.
#[local] Hint Resolve keeps_answer keeps_tools : keeps.
Lemma keeps_after d i dec : keeps rt (after_decision env rt ra d i dec).
Proof. unfold after_decision. keeps. Qed.
#[local] Hint Resolve keeps_after : keeps.
Lemma keeps_step d : keeps rt (run_step env rt ra d).
Proof. unfold run_step. cbv zeta. keeps. Qed.
#[local] Hint Resolve keeps_step : keeps.
Lemma keeps_steps n d : keeps rt (run_steps env rt ra n d).
Proof. induction n; simpl; keeps. Qed.
#[local] Hint Resolve keeps_steps : keeps.
Lemma keeps_loop d : keeps rt (run_loop env rt ra d).
Proof. unfold run_loop, after_steps. keeps. Qed.
#[local] Hint Resolve keeps_loop : keeps.

Lemma run_recorded fresh w : mirror rt (run env rt ra fresh w).2.
Proof.
  unfold run, lift_result, run_body. set (s0 := mkRunS _ _ _ _ _ _).
  assert (H : mirror rt s0) by (unfold mirror; simpl; by destruct (rt_has_recorder rt)).
  revert H. generalize s0. intros s. revert s.
  match goal with |- forall s, _ -> mirror rt (?m s).2 => change (keeps rt m) end. keeps.
Qed.
End Run_keeps.

(** ** The snapshot of a run *)

Lemma RunStatus_of_value s : RunStatus_of (run_status_value s) = Some s.
Proof. by destruct s. Qed.
Lemma StopReason_of_value r : StopReason_of (stop_reason_value r) = Some r.
Proof. by destruct r. Qed.

(** An event up to its number. *)
Definition core (e : AgentEvent) : AgentEvent := with_sequence 0 e.

Lemma filter_renumber (P : AgentEventKind.t -> bool) n l :
  core <$> filter (fun e => P (ev_kind e) = true) (renumber n l)
  = core <$> filter (fun e => P (ev_kind e) = true) l.
Proof.
  revert n. induction l as [|e l IH]; intros n; [done|]. simpl. rewrite !filter_cons. simpl.
  case_decide; simpl; by rewrite IH.
Qed.

Lemma core_fmap {B} (f : AgentEvent -> B) (l l' : list AgentEvent) :
  (forall e, f (core e) = f e) -> core <$> l = core <$> l' -> f <$> l = f <$> l'.
Proof.
  intros Hf H. apply (f_equal (fmap f)) in H. rewrite <- !list_fmap_compose in H.
  by rewrite !(list_fmap_ext (f ∘ core) f) in H by (intros; apply Hf).
Qed.

Lemma core_run_ids rid (l l' : list AgentEvent) :
  core <$> l = core <$> l' -> Forall (fun e => ev_run_id e = rid) l' -> Forall (fun e => ev_run_id e = rid) l.
Proof.
  intros H Hl. apply (core_fmap ev_run_id) in H; [|done].
  apply (proj1 (Forall_fmap ev_run_id (fun i => i = rid) l)). rewrite H. by apply Forall_fmap.
Qed.

(** What the recorder was told is the public trace without the answer deltas. *)
Lemma recorded_public {W} (env : runtime_env W) rt ra fresh w r s :
  check_arguments ra = Ok tt -> run env rt ra fresh w = (Return r, s) -> rt_has_recorder rt = true ->
  core <$> rs_recorded s = core <$> filter (fun e => recordable (ev_kind e) = true) (rr_events r).
Proof.
  intros Hargs Hrun Hrec. pose proof (run_spec env rt ra fresh w Hargs) as H. rewrite Hrun in H.
  pose proof (run_recorded env rt ra fresh w) as Hm. rewrite Hrun in Hm. unfold mirror in Hm. simpl in Hm.
  rewrite Hrec in Hm. rewrite Hm, (rg_public _ _ _ _ _ H), filter_renumber, list_filter_filter_l; [done|].
  intros e. unfold include_result_event. by destruct (ev_kind e).
Qed.

Section Recorder.
Context (_sha256 : pystr -> pystr) (max_chars : Z).

Definition observe_all (es : list AgentEvent) (r : InMemoryRunTraceRecorder) : InMemoryRunTraceRecorder :=
  foldl (fun r e => rec_observe _sha256 max_chars e r) r es.

Lemma observe_all_same rid req model t es l :
  Forall (fun e => ev_run_id e = rid) es ->
  observe_all es (mkRecorder l (Some rid) req model (Some t) [])
  = mkRecorder (l ++ ((fun e => sanitize _sha256 max_chars e t) <$> es)) (Some rid) req model (Some t) [].
Proof.
  intros H. revert l. induction H as [|e es He Hes IH]; intros l; [simpl; by rewrite app_nil_r|].
  assert (Hstep : rec_observe _sha256 max_chars e (mkRecorder l (Some rid) req model (Some t) [])
    = mkRecorder (l ++ [sanitize _sha256 max_chars e t]) (Some rid) req model (Some t) []).
  { unfold rec_observe. cbn -[sanitize]. by rewrite decide_True by congruence. }
  rewrite fmap_cons, cons_middle, app_assoc, <- IH, <- Hstep. reflexivity.
Qed.

Lemma snapshot_ended l x rid req model t st sr usage :
  te_kind x = u "run_stopped" -> te_status x = Some (run_status_value st) ->
  te_stop_reason x = Some (stop_reason_value sr) -> te_cumulative_token_usage x = Some usage ->
  snapshot (mkRecorder (l ++ [x]) (Some rid) req model (Some t) [])
  = Some (mkRunTrace rid req model t (Some (te_occurred_at x)) (Some st) (Some sr) (Some usage) (l ++ [x]) []).
Proof.
  intros Hk Hst Hsr Hu. unfold snapshot. simpl rec_events. simpl rec_started_at. simpl rec_run_id.
  destruct (l ++ [x]) as [|y ys] eqn:E; [by destruct l|]. rewrite <- E. clear E y ys.
  rewrite omap_app, filter_app, filter_cons, decide_True, filter_nil, last_snoc by done.
  change (omap te_cumulative_token_usage [x])
    with (match te_cumulative_token_usage x with Some b => [b] | None => [] end).
  rewrite Hu, last_snoc. cbv [mbind option_bind fmap option_fmap option_map].
  by rewrite Hst, Hsr, RunStatus_of_value, StopReason_of_value.
Qed.
End Recorder.


(** The recorder of the scripted run. *)
Definition demo_trace : option RunTrace :=
  rec0 ← rec_start (u "id") None (Some (u "m")) 0 recorder_init;
  snapshot (observe_all (fun s => s) 160 (rs_recorded demo_run.2) rec0).


(** ** Reading a trace back *)

Lemma optional_str_of o : _optional_str (of_opt JStr o) = o.
Proof. by destruct o. Qed.
Lemma optional_int_of o : _optional_int (of_opt JInt o) = o.
Proof. by destruct o. Qed.
Lemma optional_bool_of o : _optional_bool (of_opt JBool o) = o.
Proof. by destruct o. Qed.
Lemma optional_enum_of {A} (of_str : pystr -> option A) (value : A -> pystr) o :
  (forall a, of_str (value a) = Some a) -> _optional_enum of_str (of_opt (fun a => JStr (value a)) o) = Ok o.
Proof. intros H. destruct o; simpl; [by rewrite H|done]. Qed.

Section Roundtrip.
Context (isoformat : Z -> pystr) (fromisoformat : pystr -> option Z).
Context (iso_law : forall t, fromisoformat (isoformat t) = Some t).

Definition event_named (e : RunTraceEvent) : Prop := te_run_id e <> [] /\ te_kind e <> [].

Lemma required_str d key s : get_value key d = JStr s -> s <> [] -> _required_str d key = Ok s.
Proof. intros H Hs. unfold _required_str. rewrite H. by destruct s. Qed.

Lemma datetime_of t key : _parse_datetime_value fromisoformat (JStr (isoformat t)) key = Ok t.
Proof. unfold _parse_datetime_value. by rewrite iso_law. Qed.

(** A field of a dictionary computes. *)
Ltac field key v := match goal with |- context [get_value key ?d] => change (get_value key d) with v end.

Lemma event_back e : event_named e -> event_from_dict fromisoformat (event_to_dict isoformat e) = Ok e.
Proof.
  intros [Hr Hk]. unfold event_from_dict, _parse_datetime.
  rewrite (required_str _ (u "run_id") (te_run_id e)), (required_str _ (u "kind") (te_kind e)) by done.
  field (u "occurred_at") (JStr (isoformat (te_occurred_at e))). rewrite datetime_of.
  change (_required_int (event_to_dict isoformat e) (u "sequence")) with (Ok (E := trace_error) (te_sequence e)).
  change (_required_float (event_to_dict isoformat e) (u "elapsed_ms")) with (Ok (E := trace_error) (te_elapsed_ms e)).
  cbn [mbind result_bind].
  field (u "step_index") (of_opt JInt (te_step_index e)).
  field (u "message_summary") (of_opt JStr (te_message_summary e)).
  field (u "error_summary") (of_opt JStr (te_error_summary e)).
  field (u "decision_type") (of_opt JStr (te_decision_type e)).
  field (u "tool_name") (of_opt JStr (te_tool_name e)).
  field (u "tool_call_count") (of_opt JInt (te_tool_call_count e)).
  field (u "tool_arguments_count") (of_opt JInt (te_tool_arguments_count e)).
  field (u "tool_arguments_fingerprint") (of_opt JStr (te_tool_arguments_fingerprint e)).
  field (u "tool_succeeded") (of_opt JBool (te_tool_succeeded e)).
  field (u "tool_error_code") (of_opt JStr (te_tool_error_code e)).
  field (u "tool_output_chars") (of_opt JInt (te_tool_output_chars e)).
  field (u "tool_output_fingerprint") (of_opt JStr (te_tool_output_fingerprint e)).
  field (u "tool_output_truncated") (of_opt JBool (te_tool_output_truncated e)).
  field (u "status") (of_opt JStr (te_status e)).
  field (u "stop_reason") (of_opt JStr (te_stop_reason e)).
  field (u "token_usage") (of_opt JInt (te_token_usage e)).
  field (u "cumulative_token_usage") (of_opt JInt (te_cumulative_token_usage e)).
  rewrite !optional_int_of, !optional_str_of, !optional_bool_of. by destruct e.
Qed.

Lemma events_are_records (es : list RunTraceEvent) :
  omap is_event_record ((fun e => JObj (event_to_dict isoformat e)) <$> es) = event_to_dict isoformat <$> es.
Proof.
  induction es as [|e es IH]; [done|]. rewrite !fmap_cons, <- IH.
  change (is_event_record (JObj (event_to_dict isoformat e))) with (Some (event_to_dict isoformat e)).
  reflexivity.
Qed.

Lemma mapM_ok {A B} (f : A -> result trace_error B) (g : B -> A) (l : list B) :
  Forall (fun b => f (g b) = Ok b) l -> mapM f (g <$> l) = Ok l.
Proof. induction 1 as [|b l Hb _ IH]; [done|].
  change (mapM f (g <$> b :: l)) with (y ← f (g b); k ← mapM f (g <$> l); mret (M := result trace_error) (y :: k)).
  by rewrite Hb, IH.
Qed.

Lemma string_list_back l : string_list (JArr (JStr <$> l)) = Ok l.
Proof. unfold string_list. rewrite (mapM_ok _ JStr); [done|by apply Forall_true]. Qed.

Lemma trace_back t :
  rt_run_id t <> [] -> Forall event_named (rt_events t) ->
  from_records fromisoformat (to_records isoformat t) = Ok t.
Proof.
  intros Hr He. unfold to_records, from_records.
  field (u "type") (JStr (u "run")). rewrite bool_decide_true by done. cbn [negb raise_if mbind result_bind].
  change (dict_get (u "recorder_errors") (run_record isoformat t))
    with (Some (JArr (JStr <$> rt_recorder_errors t))).
  change (default (JArr []) (Some ?x)) with x. rewrite string_list_back.
  cbn [mbind result_bind]. rewrite events_are_records, (mapM_ok _ (event_to_dict isoformat))
    by (eapply Forall_impl; [exact He|apply event_back]).
  cbn [mbind result_bind]. rewrite (required_str _ (u "run_id") (rt_run_id t)) by done.
  cbn [mbind result_bind]. unfold _parse_datetime.
  field (u "started_at") (JStr (isoformat (rt_started_at t))). rewrite datetime_of. cbn [mbind result_bind].
  field (u "completed_at") (of_opt (fun c => JStr (isoformat c)) (rt_completed_at t)).
  field (u "status") (of_opt (fun s => JStr (run_status_value s)) (rt_status t)).
  field (u "stop_reason") (of_opt (fun r => JStr (stop_reason_value r)) (rt_stop_reason t)).
  field (u "request_id") (of_opt JStr (rt_request_id t)). field (u "model") (of_opt JStr (rt_model t)).
  field (u "token_usage") (of_opt JInt (rt_token_usage t)).
  rewrite (optional_enum_of _ _ _ RunStatus_of_value), (optional_enum_of _ _ _ StopReason_of_value).
  rewrite optional_int_of, !optional_str_of.
  destruct t as [? ? ? ? [c|] ? ? ? ? ?]; simpl; [by rewrite iso_law|done].
Qed.
End Roundtrip.

(** A trace is read back from its records: for instants whose ISO text
    parses to the same instant, decoding the records that [to_jsonl] writes gives
    the same trace, unless the run or an event has an empty name.  In particular
    the snapshot of a recorder whose run has a name is read back. *)
Theorem trace_roundtrip isoformat fromisoformat :
  (forall t, fromisoformat (isoformat t) = Some t) ->
  (forall t, rt_run_id t <> [] -> Forall event_named (rt_events t) ->
     from_records fromisoformat (to_records isoformat t) = Ok t) /\
  (forall _sha256 max_chars rid req model started es t,
     rid <> [] -> Forall (fun e => ev_run_id e = rid) es ->
     snapshot (observe_all _sha256 max_chars es (mkRecorder [] (Some rid) req model (Some started) [])) = Some t ->
     from_records fromisoformat (to_records isoformat t) = Ok t).
Proof.
  intros Hiso. split; [intros t; by apply trace_back|].
  intros sha n rid req model started es t Hrid Hes. rewrite (observe_all_same sha n rid) by done.
  unfold snapshot. simpl rec_events. simpl rec_started_at. simpl rec_run_id.
  destruct (_ <$> es) as [|y ys] eqn:E; [done|]. rewrite <- E. intros [= <-].
  apply trace_back; [done|done|]. cbn [rt_events]. apply Forall_fmap. eapply Forall_impl; [exact Hes|].
  intros e He. split; [simpl; congruence|]. simpl. by destruct (ev_kind e).
Qed.

(** Instants as the text of their digits. *)
Definition demo_iso (t : Z) : pystr := if t <? 0 then [45%N; Z.to_N (- t)] else [Z.to_N t].
Definition demo_of_iso (s : pystr) : option Z :=
  match s with
  | [n] => Some (Z.of_N n)
  | [_; n] => Some (- Z.of_N n)
  | _ => None
  end.

Lemma demo_iso_law t : demo_of_iso (demo_iso t) = Some t.
Proof. unfold demo_iso. destruct (t <? 0) eqn:E; bools; simpl; f_equal; lia. Qed.

Lemma trace_roundtrip_witness :
  exists t, demo_trace = Some t /\ from_records demo_of_iso (to_records demo_iso t) = Ok t.
Proof.
  destruct (trace_roundtrip demo_iso demo_of_iso demo_iso_law) as [_ H].
  eexists. split; [vm_compute; reflexivity|].
  apply (H (fun s => s) 160 (u "id") None (Some (u "m")) 0 (rs_recorded demo_run.2));
    [done| |vm_compute; reflexivity].
  vm_compute. repeat constructor.
Defined.

(** ** Streams *)

Definition feed (es : list AgentEvent) : AgentEventStream :=
  foldl (fun s e => stream_observe e s) stream_init es.

Definition terminal_item (x : stream_item) : Prop :=
  match x with
  | StreamEvent e => ev_kind e = AgentEventKind.RUN_STOPPED
  | AgentStreamSetupError => True
  | AgentStreamClosed => False
  end.

Definition is_started (e : AgentEvent) : Prop := ev_kind e = AgentEventKind.RUN_STARTED.
Definition is_stopped (e : AgentEvent) : Prop := ev_kind e = AgentEventKind.RUN_STOPPED.

#[local] Instance is_started_dec e : Decision (is_started e).
Proof. unfold is_started. apply _. Defined.

(** The state of a stream after some events. *)
Record fed (es : list AgentEvent) (s : AgentEventStream) : Prop := {
  fed_queue : st_queue s = StreamEvent <$> es;
  fed_terminal : st_terminal s = true <-> Exists is_stopped es;
  fed_started : st_run_started s = true <-> Exists is_started es;
  fed_run_id : st_stream_run_id s = ev_run_id <$> last (filter is_started es);
  fed_sequence : match st_last_sequence s with
                 | None => es = []
                 | Some n => Forall (fun e => ev_sequence e <= n) es
                 end
}.

Lemma feed_fed es : fed es (feed es).
Proof.
  induction es as [|e es IH] using rev_ind; [split; simpl; rewrite ?Exists_nil; done|].
  unfold feed. rewrite foldl_app. simpl. fold (feed es). destruct IH as [H1 H2 H3 H4 H5].
  split; simpl.
  - by rewrite H1, fmap_app.
  - rewrite orb_true_iff, H2, Exists_app, Exists_cons, Exists_nil, bool_decide_eq_true. unfold is_stopped at 2. tauto.
  - rewrite orb_true_iff, H3, Exists_app, Exists_cons, Exists_nil, bool_decide_eq_true. unfold is_started at 2. tauto.
  - rewrite filter_app, filter_cons, filter_nil. unfold is_started at 3.
    destruct (decide (ev_kind e = AgentEventKind.RUN_STARTED)) as [E|E].
    + rewrite bool_decide_true by done. rewrite decide_True by done. by rewrite last_snoc.
    + rewrite bool_decide_false by done. rewrite decide_False by done. by rewrite app_nil_r.
  - apply Forall_app. destruct (st_last_sequence (feed es)) as [n|].
    + split; [eapply Forall_impl; [exact H5|intros x; simpl; lia]|apply Forall_singleton; lia].
    + rewrite H5. split; [constructor|apply Forall_singleton; lia].
Qed.

(** What [fail_unexpected] adds to the queue. *)
Definition failure_tail (now : Z) (es : list AgentEvent) (tail : list stream_item) : Prop :=
  (Exists is_stopped es /\ tail = [AgentStreamClosed]) \/
  (~ Exists is_stopped es /\ ~ Exists is_started es /\ tail = [AgentStreamSetupError; AgentStreamClosed]) \/
  (~ Exists is_stopped es /\ exists e0 e, last (filter is_started es) = Some e0 /\
     tail = [StreamEvent e; AgentStreamClosed] /\ ev_kind e = AgentEventKind.RUN_STOPPED /\
     ev_run_id e = ev_run_id e0 /\ ev_occurred_at e = now /\ ev_status e = Some RunStatus.FAILED /\
     ev_stop_reason e = Some StopReason.MODEL_ERROR /\ Forall (fun x => ev_sequence x < ev_sequence e) es).

Lemma last_filter_some {A} (P : A -> Prop) `{forall x, Decision (P x)} (l : list A) :
  Exists P l -> exists x, last (filter P l) = Some x.
Proof.
  intros (x & Hx & Hp)%Exists_exists. destruct (last (filter P l)) as [y|] eqn:E; [by exists y|].
  apply last_None in E. assert (Hin : x ∈ filter P l) by (by apply list_elem_of_filter).
  rewrite E in Hin. by apply not_elem_of_nil in Hin.
Qed.

Lemma fail_unexpected_spec now es :
  exists s tail, fail_unexpected now (feed es) = Some s /\ st_queue s = (StreamEvent <$> es) ++ tail /\
    failure_tail now es tail.
Proof.
  destruct (feed_fed es) as [H1 H2 H3 H4 H5]. unfold fail_unexpected, fail_setup.
  destruct (st_terminal (feed es)) eqn:Et; [|destruct (st_run_started (feed es)) eqn:Es; simpl].
  - do 2 eexists. split; [reflexivity|]. simpl. rewrite H1. split; [reflexivity|]. left. split; [by apply H2|done].
  - assert (exists e0, last (filter is_started es) = Some e0) as [e0 He0] by (by apply last_filter_some, H3).
    rewrite H4, He0. simpl. do 2 eexists. split; [reflexivity|]. simpl. rewrite H1, <- app_assoc. split; [reflexivity|].
    right. right. split; [rewrite <- H2; done|]. exists e0. eexists. split; [exact He0|]. split; [reflexivity|].
    simpl. do 5 (split; [reflexivity|]). destruct (st_last_sequence (feed es)) as [n|]; [|by rewrite H5].
    eapply Forall_impl; [exact H5|]. intros x. simpl. lia.
  - do 2 eexists. split; [reflexivity|]. simpl. rewrite H1, <- app_assoc. split; [reflexivity|].
    right. left. rewrite <- H2, <- H3. by split_and!.
Qed.

#[local] Instance is_stopped_dec e : Decision (is_stopped e).
Proof. unfold is_stopped. apply _. Defined.
#[local] Instance terminal_item_dec x : Decision (terminal_item x).
Proof. destruct x; simpl; apply _. Defined.

Lemma none_filtered {A} (P : A -> Prop) `{forall x, Decision (P x)} (l : list A) :
  Forall (fun x => ~ P x) l -> filter P l = [].
Proof. induction 1 as [|x l Hx _ IH]; [done|]. by rewrite filter_cons, decide_False by done. Qed.

(** The log of a run has one [RUN_STOPPED]. *)
Lemma log_stops_once {W} (env : runtime_env W) rt ra fresh w r s :
  check_arguments ra = Ok tt -> run env rt ra fresh w = (Return r, s) ->
  length (filter is_stopped (rs_events s)) = 1%nat.
Proof.
  intros Hargs Hrun. pose proof (run_spec env rt ra fresh w Hargs) as H. rewrite Hrun in H.
  destruct (rg_trace _ _ _ _ _ H) as [_ _ _ (e0 & mid & en & Hev & Hk0 & Hmid & Hkn & _)].
  set (stops := fun k => bool_decide (k = AgentEventKind.RUN_STOPPED)).
  assert (Heq : forall l : list AgentEvent, filter is_stopped l = filter (fun e => stops (ev_kind e) = true) l).
  { intros l. apply list_filter_iff. intros e. unfold stops. by rewrite bool_decide_eq_true. }
  assert (Hlen : length (filter is_stopped (rs_events s)) = length (filter is_stopped (rr_events r))).
  { rewrite (rg_public _ _ _ _ _ H), !Heq, <- (length_fmap core), <- (length_fmap core (filter _ (renumber _ _))).
    rewrite filter_renumber, list_filter_filter_l; [done|]. intros e. unfold stops, include_result_event.
    rewrite bool_decide_eq_true. by intros ->. }
  assert (Hnone : filter is_stopped (e0 :: mid) = []).
  { apply none_filtered. constructor; [unfold is_stopped; congruence|].
    eapply Forall_impl; [exact Hmid|]. intros e [[_ He] _]. exact He. }
  by rewrite Hlen, Hev, app_comm_cons, filter_app, Hnone, filter_cons, decide_True by done.
Qed.

Lemma terminal_items (es : list AgentEvent) tail :
  length (filter terminal_item ((StreamEvent <$> es) ++ tail))
  = Nat.add (length (filter is_stopped es)) (length (filter terminal_item tail)).
Proof.
  rewrite filter_app, length_app. f_equal. induction es as [|e es IH]; [done|]. csimpl.
  rewrite !filter_cons. destruct (decide (terminal_item (StreamEvent e))) as [E|E]; simpl in E;
    destruct (decide (is_stopped e)) as [F|F]; simpl; by rewrite ?IH.
Qed.

(** The consumer of a stream always sees how the run ended.  When the
    producer fails, everything observed is delivered first; then, if the run had
    not stopped, a setup error before it started, or a [RUN_STOPPED] with status
    [FAILED] of the same run, numbered after every event; then the closing mark.
    A stream that observed a whole run has exactly one terminal item, whether the
    producer ends with [close] or with [fail_unexpected]. *)
Theorem stream_ends_once {W} (env : runtime_env W) rt ra fresh w r s now :
  (forall es, exists s' tail, fail_unexpected now (feed es) = Some s' /\
     st_queue s' = (StreamEvent <$> es) ++ tail /\ failure_tail now es tail) /\
  (check_arguments ra = Ok tt -> run env rt ra fresh w = (Return r, s) -> rt_has_observer rt = true ->
     fail_unexpected now (feed (rs_observed s)) = Some (close (feed (rs_observed s))) /\
     st_queue (close (feed (rs_observed s))) = (StreamEvent <$> rs_observed s) ++ [AgentStreamClosed] /\
     length (filter terminal_item (st_queue (close (feed (rs_observed s))))) = 1%nat).
Proof.
  split; [apply fail_unexpected_spec|]. intros Hargs Hrun Hobs.
  pose proof (log_stops_once env rt ra fresh w r s Hargs Hrun) as H1.
  pose proof (run_spec env rt ra fresh w Hargs) as H. rewrite Hrun in H.
  assert (E : rs_observed s = rs_events s) by (by rewrite (rg_observed _ _ _ _ _ H), Hobs).
  rewrite E. destruct (feed_fed (rs_events s)) as [Hq Ht _ _ _].
  assert (Hterm : st_terminal (feed (rs_events s)) = true).
  { apply Ht, Exists_exists. destruct (filter is_stopped (rs_events s)) as [|x l] eqn:El; [done|].
    exists x. assert (Hin : x ∈ filter is_stopped (rs_events s)) by (rewrite El; left).
    by apply list_elem_of_filter in Hin as [? ?]. }
  unfold fail_unexpected. rewrite Hterm. split; [done|]. simpl. rewrite Hq. split; [done|].
  by rewrite terminal_items, H1.
Qed.

Lemma stream_ends_once_witness :
  length (filter terminal_item (st_queue (close (feed (rs_observed demo_run.2))))) = 1%nat /\
  length (rs_observed demo_run.2) = 11%nat.
Proof.
  split; [|vm_compute; reflexivity].
  apply (stream_ends_once script_env plain_runtime demo_args (u "id") demo_world demo_result demo_run.2 0);
    [reflexivity|vm_compute; reflexivity|reflexivity].
Defined.
