(* ===== verification/MultiAgent.v ===== *)
(** * Multi-agent orchestration: [app/multi_agent]

    The models ([models.py]), the conversion of a canvas graph into subtasks
    ([decision_factory.py]) and the scheduling loop of the orchestrator
    ([orchestrator.py]: [_execute_single_task], [_execute_dag] and [execute]).
    The outside world is a [dag_env]: [env_wait] says which of the tasks in
    progress have finished when [asyncio.wait] returns, in which order, and how
    the agent and chat services answered each of them; [env_order] is the
    iteration order of the Python set [pending]. *)

From S2P Require Import Prelude Json Workflow AgentRuntime.
Local Open Scope Z_scope.

(** ** Models *)

Module AgentRole.
Inductive t := RESEARCH | WRITER | REVIEWER | CUSTOM.
#[global] Instance eq_dec : EqDecision t.
Proof. solve_decision. Defined.
Definition of_str (s : pystr) : option t :=
  if decide (s = u "research") then Some RESEARCH
  else if decide (s = u "writer") then Some WRITER
  else if decide (s = u "reviewer") then Some REVIEWER
  else if decide (s = u "custom") then Some CUSTOM
  else None.
Definition value (r : t) : pystr :=
  match r with
  | RESEARCH => u "research" | WRITER => u "writer" | REVIEWER => u "reviewer" | CUSTOM => u "custom"
  end.
End AgentRole.

Module TaskStatus.
Inductive t := PENDING | RUNNING | COMPLETED | FAILED | CANCELLED | SKIPPED.
#[global] Instance eq_dec : EqDecision t.
Proof. solve_decision. Defined.
End TaskStatus.

Module OrchestrationStatus.
Inductive t := RUNNING | COMPLETED | FAILED | CANCELLED | TIMED_OUT | BUDGET_EXCEEDED.
#[global] Instance eq_dec : EqDecision t.
Proof. solve_decision. Defined.
End OrchestrationStatus.

Module FailurePolicy.
Inductive t := FAIL_FAST | SKIP | RETRY_ONCE.
#[global] Instance eq_dec : EqDecision t.
Proof. solve_decision. Defined.
End FailurePolicy.

(** [timeout] in seconds; only whole numbers of seconds are represented. *)
Record AgentConfig := mkAgentConfig {
  ac_role : AgentRole.t;
  ac_name : pystr;
  ac_system_prompt : pystr;
  ac_model : option pystr;
  ac_max_steps : Z;
  ac_timeout : option Z;
  ac_token_budget : option Z
}.

Record Subtask := mkSubtask {
  task_id : pystr;
  description : pystr;
  agent_role : AgentRole.t;
  agent_id : option pystr;
  depends_on : list pystr;
  input_template : pystr;
  priority : Z
}.

Record SubtaskResult := mkSubtaskResult {
  sr_task_id : pystr;
  sr_status : TaskStatus.t;
  sr_output : pystr;
  sr_error : option pystr;
  sr_agent_role : AgentRole.t;
  sr_token_usage : Z;
  sr_steps_taken : Z;
  sr_tool_calls : list pystr
}.

(** [SharedContext] and [get_prev_results] *)
Record SharedContext := mkSharedContext {
  user_input : pystr;
  task_results : list (pystr * SubtaskResult)
}.

Definition get_prev_results (c : SharedContext) (task_ids : list pystr) : pystr :=
  sjoin [10; 10]%N (omap (fun tid =>
    match dict_get tid (task_results c) with
    | Some r =>
        match sr_status r with
        | TaskStatus.COMPLETED => Some (u "[" ++ tid ++ u "]: " ++ sr_output r)
        | TaskStatus.FAILED => Some (u "[" ++ tid ++ u "]: FAILED - " ++ default (u "None") (sr_error r))
        | _ => None
        end
    | None => None
    end) task_ids).

Record OrchestrationConfig := mkOrchestrationConfig {
  max_concurrency : Z;
  failure_policy : FailurePolicy.t;
  max_retries : Z;
  total_timeout : option Z;
  total_token_budget : option Z;
  agent_configs : list (AgentRole.t * AgentConfig)
}.

Record OrchestrationState := mkOrchestrationState {
  os_status : OrchestrationStatus.t;
  os_shared_context : SharedContext;
  os_results : list (pystr * SubtaskResult);
  os_total_token_usage : Z;
  os_error : option pystr;
  os_error_code : option pystr
}.

Record OrchestrationResult := mkOrchestrationResult {
  or_status : OrchestrationStatus.t;
  or_final_output : pystr;
  or_subtask_results : list SubtaskResult;
  or_total_token_usage : Z;
  or_error : option pystr;
  or_error_code : option pystr
}.

(** [is_terminal] *)
Definition is_terminal (s : OrchestrationState) : bool :=
  bool_decide (os_status s <> OrchestrationStatus.RUNNING).

(** ** Canvas graphs: [from_dag] *)

Definition _MAX_CANVAS_NODES : nat := 20.

(** [DecisionFactoryError], or another exception of malformed input. *)
Inductive factory_error := DecisionFactoryError (message : pystr) | OtherException.

(** [node["id"]].  An id that is no string always ends in an exception: which
    one (a number passes until [build_subtask], a list is unhashable) is not
    distinguished. *)
Definition dag_node_id (node : json) : result factory_error pystr :=
  match node with
  | JObj d => match dict_get (u "id") d with Some (JStr i) => Ok i | _ => Err OtherException end
  | _ => Err OtherException
  end.

Definition dag_edge (edge : json) : result factory_error (json * json) :=
  match edge with
  | JObj d => Ok (default JNull (dict_get (u "source") d), default JNull (dict_get (u "target") d))
  | _ => Err OtherException
  end.

Abbreviation depends_map := (gmap pystr (list pystr)).

(** [v in depends_map]: a list or a dict is unhashable. *)
Definition has_key (m : depends_map) (v : json) : result factory_error bool :=
  match v with
  | JStr s => Ok (bool_decide (is_Some (m !! s)))
  | JArr _ | JObj _ => Err OtherException
  | _ => Ok false
  end.

(** [depends_map[target].add(source)] *)
Definition add_dep (s t : pystr) (m : depends_map) : depends_map :=
  match m !! t with
  | Some deps => <[t := if bool_decide (s ∈ deps) then deps else deps ++ [s]]> m
  | None => m
  end.

Definition add_dependency (repr : json -> pystr) (m : depends_map) (edge : json)
  : result factory_error depends_map :=
  '(source, target) ← dag_edge edge;
  source_in ← has_key m source;
  target_in ← (if source_in : bool then has_key m target else Ok false);
  match source, target with
  | JStr s, JStr t => if target_in : bool then Ok (add_dep s t m) else
      Err (DecisionFactoryError (u "Edge references unknown node: " ++ s ++ u " -> " ++ t))
  | _, _ =>
      Err (DecisionFactoryError (u "Edge references unknown node: " ++ str_of repr source
             ++ u " -> " ++ str_of repr target))
  end.

Definition cycle_error : factory_error := DecisionFactoryError (u "DAG contains a cycle").

(** [visit] of [_validate_acyclic]; the stack holds distinct nodes, so one more
    than their number is enough fuel. *)
Fixpoint visit (fuel : nat) (m : depends_map) (visited in_stack : gset pystr) (node : pystr)
  : result factory_error (gset pystr) :=
  match fuel with
  | O => Err cycle_error
  | S f =>
      if bool_decide (node ∈ in_stack) then Err cycle_error
      else if bool_decide (node ∈ visited) then Ok visited
      else
        visited ← foldE (fun visited dep => visit f m visited ({[node]} ∪ in_stack) dep) visited
                    (default [] (m !! node));
        Ok ({[node]} ∪ visited)
  end.

(** [_validate_acyclic], the keys in some order *)
Definition _validate_acyclic (keys : list pystr) (m : depends_map) : result factory_error (gset pystr) :=
  foldE (fun visited node => visit (S (length keys)) m visited ∅ node) ∅ keys.

Section Factory.
Context (repr : json -> pystr).

Definition build_subtask (m : depends_map) (node : json) : result factory_error Subtask :=
  match node with
  | JObj d =>
      match dict_get (u "id") d with
      | Some (JStr (_ :: _)) =>
          node_id ← dag_node_id node;
          let role :=
            match default (JStr (u "custom")) (dict_get (u "role") d) with
            | JStr r => default AgentRole.CUSTOM (AgentRole.of_str r)
            | _ => AgentRole.CUSTOM
            end in
          let node_config := default JNull (dict_get (u "config") d) in
          match (if truthy node_config then node_config else JObj []) with
          | JObj _ =>
              Ok (mkSubtask node_id (str_of repr (default (JStr []) (dict_get (u "description") d)))
                    role None (sort_by str_leb (default [] (m !! node_id))) [] 0)
          | _ => Err (DecisionFactoryError (u "Node " ++ node_id ++ u " 'config' must be an object"))
          end
      | _ => Err (DecisionFactoryError (u "Each node must have a non-empty 'id'"))
      end
  | _ => Err OtherException
  end.

(** A comprehension whose body may raise. *)
Definition collect {E A B} (f : A -> result E B) (l : list A) : result E (list B) :=
  foldE (fun acc x => (fun b => acc ++ [b]) <$> f x) [] l.

(** [from_dag] *)
Definition from_dag (dag_json : json) : result factory_error (list Subtask) :=
  match dag_json with
  | JObj dag =>
      match dict_get (u "nodes") dag with
      | Some (JArr raw_nodes) =>
          _ ← raise_if (bool_decide (raw_nodes = []))
                (DecisionFactoryError (u "DAG must contain a non-empty 'nodes' list"));
          _ ← raise_if (_MAX_CANVAS_NODES <? length raw_nodes)%nat
                (DecisionFactoryError (u "DAG exceeds maximum of 20 nodes"));
          match dict_get (u "edges") dag with
          | Some (JArr raw_edges) =>
              ids ← collect dag_node_id raw_nodes;
              m ← foldE (add_dependency repr) (dict_of [] ids) raw_edges;
              _ ← _validate_acyclic (remove_dups ids) m;
              collect (build_subtask m) raw_nodes
          | _ => Err (DecisionFactoryError (u "'edges' must be a list"))
          end
      | _ => Err (DecisionFactoryError (u "DAG must contain a non-empty 'nodes' list"))
      end
  | _ => Err (DecisionFactoryError (u "DAG must be a JSON object"))
  end.
End Factory.

(** ** One subtask: [_execute_single_task] *)

(** The text of an error that escapes, or the cancellation of the task. *)
Inductive task_error := TaskCancelled | TaskException (message : pystr).

(** [str.format] with the keyword [prev_results] *)
Inductive format_error := FormatKeyError | FormatError (message : pystr).

(** The fields of [AgentRunRequest] and [ChatRequest] that the orchestrator sets. *)
Record AgentRunRequest := mkAgentRunRequest {
  rq_message : pystr;
  rq_agent_id : option pystr;
  rq_system_prompt : option pystr;
  rq_model : option pystr;
  rq_max_steps : Z;
  rq_timeout_seconds : Z;
  rq_token_budget : Z
}.

Record ChatRequest := mkChatRequest {
  cr_message : pystr;
  cr_model : option pystr;
  cr_system_prompt : option pystr
}.

(** [AgentRunOutcome], the part that is read, and the chat response. *)
Record AgentRunOutcome := mkAgentRunOutcome {
  oc_result : AgentRunResult;
  oc_prompt_tokens : option Z;
  oc_completion_tokens : option Z
}.

Record ChatResponse := mkChatResponse {
  ch_content : pystr;
  ch_prompt_tokens : option Z;
  ch_completion_tokens : option Z
}.

(** The services the orchestrator was built with: the agent service (with a
    context and an API key), the chat service, or neither. *)
Inductive backend := AgentBackend | ChatBackend | NoBackend.

(** How the world treats one task. *)
Record task_world := mkTaskWorld {
  (** the cancel event is set when the task enters the semaphore *)
  tw_cancelled : bool;
  tw_agent : AgentRunRequest -> result task_error AgentRunOutcome;
  tw_chat : ChatRequest -> result task_error ChatResponse
}.

Definition DEFAULT_AGENT_MAX_STEPS : Z := 4.
Definition DEFAULT_AGENT_TIMEOUT_SECONDS : Z := 60.
Definition DEFAULT_AGENT_TOKEN_BUDGET : Z := 8192.

Definition _DEFAULT_AGENT_CONFIGS : list (AgentRole.t * AgentConfig) :=
  [(AgentRole.RESEARCH, mkAgentConfig AgentRole.RESEARCH (u "Research Agent")
      (u "You are a research agent. Your job is to search for information, gather facts, and provide comprehensive findings. Use available tools (RAG, knowledge search) when appropriate. Be thorough but concise.")
      None 5 None None);
   (AgentRole.WRITER, mkAgentConfig AgentRole.WRITER (u "Writer Agent")
      (u "You are a writer agent. Your job is to generate well-structured text based on the provided context and requirements. Focus on clarity, coherence, and completeness.")
      None 3 None None);
   (AgentRole.REVIEWER, mkAgentConfig AgentRole.REVIEWER (u "Reviewer Agent")
      (u "You are a reviewer agent. Your job is to check the quality of provided content, verify sources, and validate consistency. Provide specific, actionable feedback.")
      None 3 None None)].

Definition config_of_role (role : AgentRole.t) (l : list (AgentRole.t * AgentConfig)) : option AgentConfig :=
  snd <$> head (filter (fun p => p.1 = role) l).

Definition agent_config_for (config : OrchestrationConfig) (role : AgentRole.t) : option AgentConfig :=
  match config_of_role role (agent_configs config) with
  | Some c => Some c
  | None => config_of_role role _DEFAULT_AGENT_CONFIGS
  end.

Section SingleTask.
(** [str.format], and the text of pydantic's error for an empty message. *)
Context (format : pystr -> pystr -> result format_error pystr) (empty_message_error : pystr).

Definition newline : pystr := [10%N].

(** The input built from the template. *)
Definition task_input (ctx : SharedContext) (task : Subtask) : result task_error pystr :=
  if bool_decide (input_template task <> []) && bool_decide (depends_on task <> []) then
    let prev_results := get_prev_results ctx (depends_on task) in
    match format (input_template task) prev_results with
    | Ok s => Ok s
    | Err FormatKeyError =>
        Ok (description task ++ newline ++ newline ++ u "Previous results:" ++ newline ++ prev_results)
    | Err (FormatError m) => Err (TaskException m)
    end
  else Ok (description task).

(** The request of the chat service *)
Definition chat_request (ac : AgentConfig) (input : pystr) : result task_error ChatRequest :=
  match input with
  | [] => Err (TaskException empty_message_error)
  | _ => Ok (mkChatRequest input (ac_model ac) (Some (ac_system_prompt ac)))
  end.

(** The request of the agent service; an empty message is refused by its type. *)
Definition task_request (task : Subtask) (ac : AgentConfig) (input : pystr) : result task_error AgentRunRequest :=
  match input with
  | [] => Err (TaskException empty_message_error)
  | _ =>
      match agent_id task with
      | Some i =>
          Ok (mkAgentRunRequest input (Some i) None None DEFAULT_AGENT_MAX_STEPS
                DEFAULT_AGENT_TIMEOUT_SECONDS DEFAULT_AGENT_TOKEN_BUDGET)
      | None =>
          Ok (mkAgentRunRequest input None (Some (ac_system_prompt ac)) (ac_model ac) (ac_max_steps ac)
                (default DEFAULT_AGENT_TIMEOUT_SECONDS (ac_timeout ac))
                (default DEFAULT_AGENT_TOKEN_BUDGET (ac_token_budget ac)))
      end
  end.

(** What [result] becomes when the agent service returns. *)
Definition agent_task_result (task : Subtask) (o : AgentRunOutcome) : SubtaskResult :=
  let r := oc_result o in
  let '(status, error) :=
    match rr_status r with
    | RunStatus.COMPLETED => (TaskStatus.COMPLETED, None)
    | RunStatus.CANCELLED => (TaskStatus.CANCELLED, Some (u "Subtask cancelled externally"))
    | _ => (TaskStatus.FAILED, Some (u "Subtask agent ended with " ++ stop_reason_value (rr_stop_reason r)))
    end in
  let usage :=
    match oc_prompt_tokens o, oc_completion_tokens o with
    | Some p, Some c => p + c
    | _, _ => rr_token_usage r
    end in
  mkSubtaskResult (task_id task) status (default [] (rr_answer r)) error (agent_role task) usage
    (Z.of_nat (length (st_steps (rr_state r))))
    (st_steps (rr_state r) ≫= fun s => call_name <$> tool_calls (step_decision s)).

Definition chat_task_result (task : Subtask) (c : ChatResponse) : SubtaskResult :=
  mkSubtaskResult (task_id task) TaskStatus.COMPLETED (ch_content c) None (agent_role task)
    (default 0 (ch_prompt_tokens c) + default 0 (ch_completion_tokens c)) 1 [].

Definition placeholder_task_result (task : Subtask) : SubtaskResult :=
  mkSubtaskResult (task_id task) TaskStatus.COMPLETED
    (u "[" ++ AgentRole.value (agent_role task) ++ u "] Completed: " ++ description task)
    None (agent_role task) 0 0 [].

Definition failed_task_result (task : Subtask) (status : TaskStatus.t) (error : pystr) : SubtaskResult :=
  mkSubtaskResult (task_id task) status [] (Some error) (agent_role task) 0 0 [].

(** [_execute_single_task]; the error is what escapes from the coroutine. *)
Definition _execute_single_task (b : backend) (config : OrchestrationConfig) (ctx : SharedContext)
    (task : Subtask) (w : task_world) : result task_error SubtaskResult :=
  match agent_config_for config (agent_role task) with
  | None =>
      Ok (failed_task_result task TaskStatus.FAILED
            (u "No agent config for role " ++ AgentRole.value (agent_role task)))
  | Some ac =>
      input ← task_input ctx task;
      let body :=
        _ ← raise_if (tw_cancelled w) TaskCancelled;
        match b with
        | AgentBackend =>
            request ← task_request task ac input;
            agent_task_result task <$> tw_agent w request
        | ChatBackend =>
            request ← chat_request ac input;
            chat_task_result task <$> tw_chat w request
        | NoBackend => Ok (placeholder_task_result task)
        end in
      match body with
      | Ok r => Ok r
      | Err TaskCancelled => Ok (failed_task_result task TaskStatus.CANCELLED (u "Task cancelled"))
      | Err (TaskException m) => Ok (failed_task_result task TaskStatus.FAILED m)
      end
  end.
End SingleTask.

(** ** The orchestrator *)

(** The outside world of a run. *)
Record dag_env (W : Type) := mkDagEnv {
  env_cancel_set : W -> bool * W;
  (** [time.monotonic() - start_time] *)
  env_elapsed : W -> Z * W;
  env_order : W -> list pystr -> list pystr;
  (** [asyncio.wait(in_progress, FIRST_COMPLETED)]: who finished, in order;
      [None]: the waiting task was itself cancelled *)
  env_wait : list pystr -> W -> option (list (pystr * task_world)) * W
}.
Arguments mkDagEnv {W}.
Arguments env_cancel_set {W}.
Arguments env_elapsed {W}.
Arguments env_order {W}.
Arguments env_wait {W}.

(** What [_execute_dag] does to the tasks, in order; a started task carries the
    input computed from the shared context. *)
Inductive dag_event :=
| Started (i : pystr) (input : result task_error pystr)
| Finished (i : pystr) (r : SubtaskResult)
| Skipped (i : pystr).

Record dag_state := mkDagState {
  ds_state : OrchestrationState;
  ds_completed : list pystr;
  ds_failed : list pystr;
  ds_pending : list pystr;
  ds_in_progress : list pystr;
  ds_trace : list dag_event
}.

Definition with_state (o : OrchestrationState) (s : dag_state) : dag_state :=
  mkDagState o (ds_completed s) (ds_failed s) (ds_pending s) (ds_in_progress s) (ds_trace s).

(** [state.status = ...; state.error = ...; state.error_code = ...] *)
Definition stop_with (st : OrchestrationStatus.t) (err : option pystr) (code : pystr) (s : dag_state)
  : dag_state :=
  let o := ds_state s in
  with_state (mkOrchestrationState st (os_shared_context o) (os_results o) (os_total_token_usage o)
                err (Some code)) s.

Definition set_status (st : OrchestrationStatus.t) (s : dag_state) : dag_state :=
  let o := ds_state s in
  with_state (mkOrchestrationState st (os_shared_context o) (os_results o) (os_total_token_usage o)
                (os_error o) (os_error_code o)) s.

(** [state.results[i] = r] and [state.total_token_usage += tokens] *)
Definition set_result (i : pystr) (r : SubtaskResult) (tokens : Z) (o : OrchestrationState)
  : OrchestrationState :=
  mkOrchestrationState (os_status o) (os_shared_context o) (dict_set i r (os_results o))
    (os_total_token_usage o + tokens) (os_error o) (os_error_code o).

Definition cancelled_msg : pystr := u "Orchestration cancelled externally".
Definition deadlock_msg : pystr := u "Deadlock: pending tasks with unsatisfied dependencies".

(** [pending.discard(i)] *)
Definition discard (i : pystr) (l : list pystr) : list pystr := filter (fun x => x <> i) l.

(** A [return] from the loop, or an exception that leaves it. *)
Inductive dag_exit := Returned (s : dag_state) | Raised (e : task_error) (s : dag_state).

Section Dag.
Context {W : Type} (env : dag_env W) (config : OrchestrationConfig) (b : backend).
Context (format : pystr -> pystr -> result format_error pystr) (empty_message_error : pystr).
(** How Python prints a [float] number of seconds. *)
Context (show_seconds : Z -> pystr).
Context (task_map : gmap pystr Subtask) (concurrency : Z).

Definition subset (l m : list pystr) : bool := forallb (fun x => bool_decide (x ∈ m)) l.

Definition skipped_result (i : pystr) : SubtaskResult :=
  mkSubtaskResult i TaskStatus.SKIPPED [] (Some (u "Skipped due to dependency failure"))
    AgentRole.CUSTOM 0 0 [].

(** The scan for ready tasks. *)
Fixpoint scan_ready (ids : list pystr) (ready : list Subtask) (s : dag_state) : list Subtask * dag_state :=
  match ids with
  | [] => (ready, s)
  | i :: ids =>
      match task_map !! i with
      | None => scan_ready ids ready s
      | Some subtask =>
          if subset (depends_on subtask) (ds_completed s) then
            if existsb (fun d => bool_decide (d ∈ ds_failed s)) (depends_on subtask)
               && bool_decide (failure_policy config = FailurePolicy.FAIL_FAST)
            then
              scan_ready ids ready
                (mkDagState (set_result i (skipped_result i) 0 (ds_state s)) (ds_completed s) (ds_failed s)
                   (discard i (ds_pending s)) (ds_in_progress s) (ds_trace s ++ [Skipped i]))
            else scan_ready ids (ready ++ [subtask]) s
          else scan_ready ids ready s
      end
  end.

(** [for subtask in ready: ...] *)
Fixpoint start_ready (ready : list Subtask) (s : dag_state) : dag_state :=
  match ready with
  | [] => s
  | t :: ready =>
      if concurrency <=? Z.of_nat (length (ds_in_progress s)) then s
      else
        start_ready ready
          (mkDagState (ds_state s) (ds_completed s) (ds_failed s) (discard (task_id t) (ds_pending s))
             (ds_in_progress s ++ [task_id t])
             (ds_trace s ++ [Started (task_id t) (task_input format (os_shared_context (ds_state s)) t)]))
  end.

(** What [task_coro.result()] gives. *)
Definition task_result (s : dag_state) (i : pystr) (tw : task_world) : result task_error SubtaskResult :=
  match task_map !! i with
  | Some t => _execute_single_task format empty_message_error b config (os_shared_context (ds_state s)) t tw
  | None => Err TaskCancelled
  end.

(** [for task_coro in done: ...]: [inl] when the loop is left. *)
Fixpoint handle_done (done : list (pystr * task_world)) (s : dag_state) : dag_exit + dag_state :=
  match done with
  | [] => inr s
  | (i, tw) :: done =>
      match task_result s i tw with
      | Err e => inl (Raised e s)
      | Ok r =>
          let o := set_result i r 0 (ds_state s) in
          let tr := ds_trace s ++ [Finished i r] in
          match sr_status r with
          | TaskStatus.COMPLETED =>
              handle_done done
                (mkDagState (set_result i r (sr_token_usage r) o) (ds_completed s ++ [i]) (ds_failed s)
                   (ds_pending s) (discard i (ds_in_progress s)) tr)
          | TaskStatus.CANCELLED =>
              inl (Returned (stop_with OrchestrationStatus.CANCELLED (Some cancelled_msg) (u "cancelled")
                 (mkDagState o (ds_completed s) (ds_failed s) (ds_pending s) (ds_in_progress s) tr)))
          | TaskStatus.FAILED =>
              if decide (failure_policy config = FailurePolicy.FAIL_FAST) then
                inl (Returned (stop_with OrchestrationStatus.FAILED
                       (Some (u "Task " ++ i ++ u " failed: " ++ default (u "None") (sr_error r)))
                       (u "subtask_failed")
                       (mkDagState o (ds_completed s) (ds_failed s ++ [i]) (ds_pending s)
                          (ds_in_progress s) tr)))
              else
                handle_done done
                  (mkDagState o (ds_completed s) (ds_failed s ++ [i]) (ds_pending s)
                     (discard i (ds_in_progress s)) tr)
          | _ =>
              handle_done done
                (mkDagState o (ds_completed s) (ds_failed s) (ds_pending s) (discard i (ds_in_progress s)) tr)
          end
      end
  end.

(** The tests at the head of the loop: cancellation, timeout, token budget. *)
Definition head_checks (s : dag_state) (w : W) : option dag_state * W :=
  let '(cancelled, w) := env_cancel_set env w in
  if cancelled : bool then
    (Some (stop_with OrchestrationStatus.CANCELLED (Some cancelled_msg) (u "cancelled") s), w)
  else
    let timed :=
      match total_timeout config with
      | None => (None, w)
      | Some t => let '(elapsed, w) := env_elapsed env w in
                  (if t <=? elapsed then Some t else None, w)
      end in
    match timed with
    | (Some t, w) =>
        (Some (stop_with OrchestrationStatus.TIMED_OUT
                 (Some (u "Global timeout exceeded (" ++ show_seconds t ++ u "s)")) (u "timeout") s), w)
    | (None, w) =>
        match total_token_budget config with
        | Some b =>
            if b <=? os_total_token_usage (ds_state s) then
              (Some (stop_with OrchestrationStatus.BUDGET_EXCEEDED
                       (Some (u "Token budget exceeded (" ++ str_of_Z b ++ u ")")) (u "budget_exceeded") s), w)
            else (None, w)
        | None => (None, w)
        end
    end.

(** What follows the loop. *)
Definition after_loop (s : dag_state) : dag_state :=
  if bool_decide (ds_failed s = []) then set_status OrchestrationStatus.COMPLETED s
  else if decide (failure_policy config = FailurePolicy.SKIP)
  then set_status OrchestrationStatus.COMPLETED s
  else stop_with OrchestrationStatus.FAILED (os_error (ds_state s)) (u "subtask_failed") s.

(** One iteration: [inl] when the loop is left. *)
Definition iterate (s : dag_state) (w : W) : (dag_exit + dag_state) * W :=
  match head_checks s w with
  | (Some s, w) => (inl (Returned s), w)
  | (None, w) =>
      let '(ready, s) := scan_ready (env_order env w (ds_pending s)) [] s in
      let s := start_ready ready s in
      if bool_decide (ds_in_progress s = []) then
        if bool_decide (ds_pending s = []) then (inl (Returned (after_loop s)), w)
        else (inl (Returned (stop_with OrchestrationStatus.FAILED (Some deadlock_msg)
                               (u "dependency_deadlock") s)), w)
      else
        match env_wait env (ds_in_progress s) w with
        | (Some done, w) => (handle_done done s, w)
        | (None, w) => (inl (Raised TaskCancelled s), w)
        end
  end.

(** [_execute_dag]; [None] when the fuel runs out. *)
Fixpoint _execute_dag (fuel : nat) (s : dag_state) (w : W) : option dag_exit * W :=
  match fuel with
  | O => (None, w)
  | S f =>
      if bool_decide (ds_pending s = []) && bool_decide (ds_in_progress s = [])
      then (Some (Returned (after_loop s)), w)
      else
        match iterate s w with
        | (inl e, w) => (Some e, w)
        | (inr s, w) => _execute_dag f s w
        end
  end.
End Dag.

Definition task_map_of (subtasks : list Subtask) : gmap pystr Subtask :=
  foldl (fun m t => <[task_id t := t]> m) ∅ subtasks.

Definition initial_state (input : pystr) (subtasks : list Subtask) : dag_state :=
  mkDagState
    (mkOrchestrationState OrchestrationStatus.RUNNING (mkSharedContext input []) [] 0 None None)
    [] [] (remove_dups (task_id <$> subtasks)) [] [].

(** The [try] of [execute]. *)
Definition caught (e : dag_exit) : dag_state :=
  match e with
  | Returned s => s
  | Raised TaskCancelled s =>
      stop_with OrchestrationStatus.CANCELLED (Some cancelled_msg) (u "cancelled") s
  | Raised (TaskException m) s =>
      stop_with OrchestrationStatus.FAILED (Some m) (u "internal_error") s
  end.

(** The output of the last subtask, in the order of the decision, that completed. *)
Definition final_output (subtasks : list Subtask) (results : list (pystr * SubtaskResult)) : pystr :=
  default [] (head (omap (fun t =>
    match dict_get (task_id t) results with
    | Some r => if decide (sr_status r = TaskStatus.COMPLETED) then Some (sr_output r) else None
    | None => None
    end) (rev subtasks))).

(** [asyncio.Semaphore] refuses a negative value. *)
Inductive execute_error := SemaphoreValueError.

Definition concurrency_of (config : OrchestrationConfig) (subtasks : list Subtask) : Z :=
  Z.min (max_concurrency config) (Z.of_nat (length subtasks)).

(** [execute]: an iteration that goes on finishes a task, so one more than the
    number of tasks is enough fuel.  The final state is returned as well. *)
Definition execute {W} (env : dag_env W) (b : backend) (format : pystr -> pystr -> result format_error pystr)
    (empty_message_error : pystr) (show_seconds : Z -> pystr) (config : OrchestrationConfig)
    (input : pystr) (subtasks : list Subtask) (w : W)
  : option (result execute_error (OrchestrationResult * dag_state)) * W :=
  let concurrency := concurrency_of config subtasks in
  if concurrency <? 0 then (Some (Err SemaphoreValueError), w) else
  match _execute_dag env config b format empty_message_error show_seconds (task_map_of subtasks) concurrency
          (S (length subtasks)) (initial_state input subtasks) w with
  | (None, w) => (None, w)
  | (Some e, w) =>
      let s := caught e in
      let o := ds_state s in
      let out := if decide (os_status o = OrchestrationStatus.COMPLETED)
                 then final_output subtasks (os_results o) else [] in
      (Some (Ok (mkOrchestrationResult (os_status o) out (os_results o).*2 (os_total_token_usage o)
                   (os_error o) (os_error_code o), s)), w)
  end.
