(* ===== verification/MultiAgentFacts.v ===== *)
(** * The orchestrator's loop: its invariant

    The trace of a run is judged by [valid_trace]: a task starts once, after all
    its dependencies have completed, within the concurrency, and finishes once,
    after it started; no task is skipped.  [Trace] says that the state is the
    one the trace describes and [Live] where every task is while the loop
    runs; every step of [_execute_dag] preserves them. *)

From S2P Require Import Prelude Json AgentRuntime MultiAgent.
Local Open Scope Z_scope.

Definition started (tr : list dag_event) : list pystr :=
  omap (fun e => match e with Started i _ => Some i | _ => None end) tr.
Definition finished (tr : list dag_event) : list (pystr * SubtaskResult) :=
  omap (fun e => match e with Finished i r => Some (i, r) | _ => None end) tr.
Definition with_status (st : TaskStatus.t) (l : list (pystr * SubtaskResult)) : list (pystr * SubtaskResult) :=
  filter (fun p => sr_status p.2 = st) l.
Definition completed_in (tr : list dag_event) : list pystr :=
  (with_status TaskStatus.COMPLETED (finished tr)).*1.
Definition failed_in (tr : list dag_event) : list pystr :=
  (with_status TaskStatus.FAILED (finished tr)).*1.
Definition tokens_in (tr : list dag_event) : Z :=
  sumZ ((fun p => sr_token_usage p.2) <$> with_status TaskStatus.COMPLETED (finished tr)).

Lemma started_app a b : started (a ++ b) = started a ++ started b.
Proof. apply omap_app. Qed.
Lemma finished_app a b : finished (a ++ b) = finished a ++ finished b.
Proof. apply omap_app. Qed.
Lemma completed_in_app a b : completed_in (a ++ b) = completed_in a ++ completed_in b.
Proof. unfold completed_in, with_status. by rewrite finished_app, filter_app, fmap_app. Qed.
Lemma failed_in_app a b : failed_in (a ++ b) = failed_in a ++ failed_in b.
Proof. unfold failed_in, with_status. by rewrite finished_app, filter_app, fmap_app. Qed.
Lemma tokens_in_app a b : tokens_in (a ++ b) = tokens_in a + tokens_in b.
Proof. unfold tokens_in, with_status. by rewrite finished_app, filter_app, fmap_app, sumZ_app. Qed.
#[export] Hint Rewrite started_app finished_app completed_in_app failed_in_app tokens_in_app : trace.

Section Trace.
Context (format : pystr -> pystr -> result format_error pystr) (ctx : SharedContext).
Context (task_map : gmap pystr Subtask) (concurrency : Z).

(** What may happen after the events [pre]. *)
Definition valid_event (pre : list dag_event) (e : dag_event) : Prop :=
  match e with
  | Started i input =>
      exists t, task_map !! i = Some t /\ i ∉ started pre /\
        (forall d, d ∈ depends_on t -> d ∈ completed_in pre) /\
        Z.of_nat (length (started pre)) < Z.of_nat (length (finished pre)) + concurrency /\
        input = task_input format ctx t
  | Finished i r => i ∈ started pre /\ i ∉ (finished pre).*1 /\ sr_task_id r = i
  | Skipped _ => False
  end.

Definition valid_trace (tr : list dag_event) : Prop :=
  forall pre e post, tr = pre ++ e :: post -> valid_event pre e.

Lemma valid_trace_nil : valid_trace [].
Proof. intros [|] ? ?; discriminate. Qed.

Lemma valid_trace_snoc tr e : valid_trace (tr ++ [e]) <-> valid_trace tr /\ valid_event tr e.
Proof.
  split.
  - intros H. split; [|by eapply (H tr e [])]. intros pre e' post ->.
    apply (H pre e' (post ++ [e])). by rewrite <- app_assoc.
  - intros [H He] pre e' post Heq. destruct post as [|x post _] using rev_ind.
    + apply app_inj_tail in Heq as [-> ->]. done.
    + rewrite app_comm_cons, app_assoc in Heq. apply app_inj_tail in Heq as [-> ->]. by eapply H.
Qed.

Lemma valid_trace_NoDup tr : valid_trace tr -> NoDup (started tr) /\ NoDup (finished tr).*1.
Proof.
  induction tr as [|e tr IH] using rev_ind; [by repeat constructor|].
  intros [Hv He]%valid_trace_snoc. destruct (IH Hv) as [Hs Hf].
  autorewrite with trace. destruct e as [i inp|i r|i]; simpl in *; [| |done].
  - rewrite app_nil_r. split; [|done]. destruct He as (t & _ & Hi & _).
    apply NoDup_app. repeat split; [done|set_solver|apply NoDup_singleton].
  - rewrite app_nil_r, fmap_app. split; [done|]. simpl.
    apply NoDup_app. repeat split; [done|set_solver|apply NoDup_singleton].
Qed.

(** A task that completed did not fail. *)
Lemma completed_not_failed tr i : NoDup (finished tr).*1 -> i ∈ completed_in tr -> i ∉ failed_in tr.
Proof.
  unfold completed_in, failed_in, with_status. intros Hnd.
  intros ([? r] & -> & [Hr Hin]%list_elem_of_filter)%list_elem_of_fmap
         ([? r'] & Heq & [Hr' Hin']%list_elem_of_filter)%list_elem_of_fmap.
  simpl in *. subst. enough (r = r') by congruence.
  apply list_elem_of_lookup in Hin as [k Hk], Hin' as [k' Hk'].
  assert (k = k') as ->.
  { eapply (NoDup_lookup _ _ _ _ Hnd); rewrite list_lookup_fmap, ?Hk, ?Hk'; reflexivity. }
  congruence.
Qed.

Lemma completed_in_finished tr i : i ∈ completed_in tr -> i ∈ (finished tr).*1.
Proof.
  unfold completed_in, with_status. intros ([j r] & -> & [_ Hin]%list_elem_of_filter)%list_elem_of_fmap.
  by apply (list_elem_of_fmap_2 fst) in Hin.
Qed.
End Trace.

(** ** The invariant of the loop *)

Section Loop.
Context (config : OrchestrationConfig) (b : backend).
Context (format : pystr -> pystr -> result format_error pystr) (empty_message_error : pystr).
Context (ctx : SharedContext) (task_map : gmap pystr Subtask) (concurrency : Z).
Context (ids : list pystr).
Context (Hids : NoDup ids) (Hmap : forall i, i ∈ ids <-> is_Some (task_map !! i)).
Context (Hkey : forall i t, task_map !! i = Some t -> task_id t = i).

(** The state is the one its trace describes. *)
Record Traced (s : dag_state) : Prop := {
  tr_valid : valid_trace format ctx task_map concurrency (ds_trace s);
  tr_results : os_results (ds_state s) = finished (ds_trace s);
  tr_tokens : os_total_token_usage (ds_state s) = tokens_in (ds_trace s);
  tr_ctx : os_shared_context (ds_state s) = ctx
}.

(** Where the tasks are while the loop runs. *)
Record Live (s : dag_state) : Prop := {
  lv_traced : Traced s;
  lv_running : os_status (ds_state s) = OrchestrationStatus.RUNNING;
  lv_completed : ds_completed s = completed_in (ds_trace s);
  lv_failed : ds_failed s = failed_in (ds_trace s);
  lv_where : ds_pending s ++ ds_in_progress s ++ (finished (ds_trace s)).*1 ≡ₚ ids;
  lv_started : started (ds_trace s) ≡ₚ ds_in_progress s ++ (finished (ds_trace s)).*1;
  lv_status : Forall (fun p => sr_status p.2 = TaskStatus.COMPLETED \/
    sr_status p.2 = TaskStatus.FAILED /\ failure_policy config <> FailurePolicy.FAIL_FAST)
    (finished (ds_trace s))
}.

(** A run that has ended. *)
Record Ended (s : dag_state) : Prop := {
  en_traced : Traced s;
  en_status : os_status (ds_state s) <> OrchestrationStatus.RUNNING;
  en_completed : os_status (ds_state s) = OrchestrationStatus.COMPLETED ->
    (finished (ds_trace s)).*1 ≡ₚ ids /\
    Forall (fun p => sr_status p.2 = TaskStatus.COMPLETED \/
      sr_status p.2 = TaskStatus.FAILED /\ failure_policy config = FailurePolicy.SKIP)
      (finished (ds_trace s))
}.

Lemma traced_with_state o s :
  os_results o = os_results (ds_state s) ->
  os_total_token_usage o = os_total_token_usage (ds_state s) ->
  os_shared_context o = os_shared_context (ds_state s) ->
  Traced s -> Traced (with_state o s).
Proof. intros ??? [????]. constructor; simpl; (done || congruence). Qed.

Lemma ended_stop st err code s :
  st <> OrchestrationStatus.RUNNING -> st <> OrchestrationStatus.COMPLETED ->
  Traced s -> Ended (stop_with st err code s).
Proof.
  intros ?? Ht. constructor; [by apply traced_with_state|done|]. simpl. congruence.
Qed.

Lemma live_members s i : Live s ->
  (i ∈ ds_pending s \/ i ∈ ds_in_progress s \/ i ∈ (finished (ds_trace s)).*1) <-> i ∈ ids.
Proof. intros H. rewrite <- (lv_where s H), !elem_of_app. done. Qed.

Lemma live_NoDup s : Live s ->
  NoDup (ds_pending s ++ ds_in_progress s ++ (finished (ds_trace s)).*1).
Proof. intros H. by rewrite (lv_where s H). Qed.

Lemma discard_absent i l : i ∉ l -> discard i l = l.
Proof.
  induction l as [|j l IH]; [done|]. intros Hi. unfold discard. rewrite filter_cons.
  rewrite decide_True by set_solver. f_equal. apply IH. set_solver.
Qed.

Lemma discard_perm i l : NoDup l -> i ∈ l -> i :: discard i l ≡ₚ l.
Proof.
  intros Hnd (l1 & l2 & ->)%list_elem_of_split.
  apply NoDup_app in Hnd as (_ & H1 & H2). apply NoDup_cons in H2 as [H2 _].
  assert (discard i (l1 ++ i :: l2) = discard i l1 ++ discard i l2) as ->.
  { unfold discard. rewrite filter_app, filter_cons. by rewrite decide_False by naive_solver. }
  rewrite !discard_absent; [by rewrite Permutation_middle|done|]. intros Hi. eapply H1; set_solver.
Qed.

(** *** The scan starts nothing and skips nothing. *)

Definition ready_task (s : dag_state) (i : pystr) : option Subtask :=
  match task_map !! i with
  | Some t => if subset (depends_on t) (ds_completed s) then Some t else None
  | None => None
  end.

Lemma subset_true l m : subset l m = true <-> (forall x, x ∈ l -> x ∈ m).
Proof.
  unfold subset. rewrite forallb_forall. setoid_rewrite <- list_elem_of_In.
  setoid_rewrite bool_decide_eq_true. done.
Qed.

Lemma scan_ready_spec s l ready : Live s ->
  scan_ready config task_map l ready s = (ready ++ omap (ready_task s) l, s).
Proof.
  intros Hs. revert ready. induction l as [|i l IH]; intros ready; [by rewrite app_nil_r|].
  cbn [scan_ready omap list_omap]. unfold ready_task at 1.
  destruct (task_map !! i) as [t|]; [|apply IH].
  destruct (subset (depends_on t) (ds_completed s)) eqn:Hsub; [|apply IH].
  destruct (existsb _ _ && _) eqn:Hex.
  - exfalso. apply andb_true_iff in Hex as [Hex _]. apply existsb_exists in Hex as (d & Hd%list_elem_of_In & Hf%bool_decide_eq_true).
    rewrite subset_true in Hsub. specialize (Hsub d Hd).
    rewrite (lv_completed s Hs) in Hsub. rewrite (lv_failed s Hs) in Hf.
    eapply completed_not_failed; [|done|done].
    eapply valid_trace_NoDup, tr_valid, lv_traced, Hs.
  - rewrite IH. by rewrite <- app_assoc.
Qed.

(** *** Starting tasks *)

Definition start_one (t : Subtask) (s : dag_state) : dag_state :=
  mkDagState (ds_state s) (ds_completed s) (ds_failed s) (discard (task_id t) (ds_pending s))
    (ds_in_progress s ++ [task_id t])
    (ds_trace s ++ [Started (task_id t) (task_input format (os_shared_context (ds_state s)) t)]).

Definition startable (s : dag_state) (t : Subtask) : Prop :=
  task_map !! task_id t = Some t /\ task_id t ∈ ds_pending s /\
  forall d, d ∈ depends_on t -> d ∈ completed_in (ds_trace s).

Definition work (s : dag_state) : nat := (length (ds_pending s) + length (ds_in_progress s))%nat.

Lemma start_one_live t s : Live s -> startable s t -> Z.of_nat (length (ds_in_progress s)) < concurrency ->
  Live (start_one t s) /\ work (start_one t s) = work s.
Proof.
  intros Hs (Ht & Hp & Hd) Hc. pose proof (live_NoDup s Hs) as Hnd.
  apply NoDup_app in Hnd as (Hndp & Hdis & _).
  pose proof (discard_perm _ _ Hndp Hp) as Hperm.
  pose proof (Permutation_length (lv_started s Hs)) as Hlen.
  rewrite length_app, length_fmap in Hlen.
  split; [|unfold work; simpl; rewrite length_app; simpl; rewrite <- (Permutation_length Hperm); simpl; lia].
  destruct (lv_traced s Hs) as [Hv Hr Hk Hx].
  constructor; [constructor| | | | | |]; simpl; autorewrite with trace; simpl; rewrite ?app_nil_r, ?Z.add_0_r.
  - apply valid_trace_snoc. split; [done|]. exists t. rewrite Hx. repeat split; auto; [|lia].
    intros Hin. rewrite (lv_started s Hs) in Hin. eapply Hdis; [exact Hp|]. by rewrite elem_of_app in *.
  - done.
  - rewrite Hk. change (tokens_in [Started _ _]) with 0. lia.
  - done.
  - by apply lv_running.
  - by rewrite (lv_completed s Hs).
  - by rewrite (lv_failed s Hs).
  - rewrite <- (lv_where s Hs). revert Hperm. generalize (discard (task_id t) (ds_pending s)).
    intros q <-. simpl. rewrite <- app_assoc. simpl. by rewrite app_assoc, <- Permutation_middle, <- app_assoc.
  - rewrite (lv_started s Hs). rewrite <- !app_assoc. by rewrite (Permutation_app_comm [_]).
  - by apply lv_status.
Qed.

Lemma startable_one t t' s : startable s t' -> task_id t' <> task_id t -> startable (start_one t s) t'.
Proof.
  intros (H1 & H2 & H3) Hne. repeat split; simpl; auto.
  - unfold discard. by apply list_elem_of_filter.
  - intros d Hd. rewrite completed_in_app. set_solver.
Qed.

Lemma start_ready_live ready s :
  Live s -> NoDup (task_id <$> ready) -> Forall (startable s) ready ->
  Live (start_ready format concurrency ready s) /\
  work (start_ready format concurrency ready s) = work s /\
  (length (ds_in_progress s) <= length (ds_in_progress (start_ready format concurrency ready s)))%nat /\
  (ready <> [] -> 1 <= concurrency -> ds_in_progress (start_ready format concurrency ready s) <> []).
Proof.
  revert s. induction ready as [|t ready IH]; intros s Hs Hnd Hf; simpl; [done|].
  apply NoDup_cons in Hnd as [Hni Hnd]. apply Forall_cons in Hf as [Ht Hf].
  destruct (concurrency <=? _) eqn:Hc; bools.
  - split_and!; try done. intros _ ? Heq. rewrite Heq in Hc. simpl in Hc. lia.
  - destruct (start_one_live t s Hs Ht Hc) as [Hs' Hw].
    destruct (IH (start_one t s) Hs' Hnd) as (H1 & H2 & H3 & _).
    { apply Forall_forall. intros t' Ht'. apply startable_one; [by eapply Forall_forall in Hf|].
      intros Heq. apply Hni. rewrite <- Heq. by apply list_elem_of_fmap_2. }
    fold (start_one t s). simpl in H3. rewrite length_app in H3. simpl in H3.
    split_and!; [done|congruence|lia|]. intros _ _ Heq. rewrite Heq in H3. simpl in H3. lia.
Qed.

Lemma ready_startable s l : Live s -> l ≡ₚ ds_pending s ->
  NoDup (task_id <$> omap (ready_task s) l) /\ Forall (startable s) (omap (ready_task s) l).
Proof.
  intros Hs Hl. assert (Hr : forall i t, ready_task s i = Some t -> task_id t = i /\
    task_map !! i = Some t /\ (forall d, d ∈ depends_on t -> d ∈ completed_in (ds_trace s))).
  { unfold ready_task. intros i t. destruct (task_map !! i) as [t'|] eqn:Hm; [|done].
    destruct (subset _ _) eqn:Hsub; [|done]. intros [= ->].
    rewrite subset_true, (lv_completed s Hs) in Hsub. split; [by apply Hkey|done]. }
  assert (Hnd : NoDup l).
  { rewrite Hl. by apply live_NoDup, NoDup_app in Hs as [? _]. }
  split.
  - clear Hl. induction Hnd as [|i l Hi Hnd IH]; simpl; [constructor|].
    destruct (ready_task s i) as [t|] eqn:Hrt; [|done]. simpl. constructor; [|done].
    destruct (Hr _ _ Hrt) as [-> _].
    intros (t' & Heq & (j & Hj & Hrj)%list_elem_of_omap)%list_elem_of_fmap.
    destruct (Hr _ _ Hrj) as [Hid _]. congruence.
  - apply Forall_forall. intros t (i & Hi & Hrt)%list_elem_of_omap.
    destruct (Hr _ _ Hrt) as (<- & Hm & Hd). repeat split; [done| |done]. by rewrite <- Hl.
Qed.

(** *** Finishing tasks *)

Lemma single_task_spec t tw c r :
  _execute_single_task format empty_message_error b config c t tw = Ok r ->
  sr_task_id r = task_id t /\
  (sr_status r = TaskStatus.COMPLETED \/ sr_status r = TaskStatus.FAILED \/ sr_status r = TaskStatus.CANCELLED).
Proof.
  unfold _execute_single_task. destruct (agent_config_for config (agent_role t)) as [ac|].
  2: { intros [= <-]. cbn. split; [done|auto]. }
  intros (input & _ & H)%bind_ok.
  match type of H with match ?m with _ => _ end = _ => destruct m as [r'|[|m']] eqn:Hbody end;
    [|injection H as <-; cbn; split; [done|auto]..].
  injection H as <-. apply bind_ok in Hbody as (_ & _ & Hbody). destruct b.
  - apply bind_ok in Hbody as (rq & _ & Hbody). destruct (tw_agent tw rq) as [o|]; [|done].
    injection Hbody as <-. unfold agent_task_result.
    destruct (rr_status (oc_result o)); cbn; (split; [done|auto]).
  - apply bind_ok in Hbody as (rq & _ & Hbody). destruct (tw_chat tw rq) as [o|]; [|done].
    injection Hbody as <-. cbn. split; [done|auto].
  - injection Hbody as <-. cbn. split; [done|auto].
Qed.

Lemma task_result_spec s i tw r :
  task_result config b format empty_message_error task_map s i tw = Ok r ->
  sr_task_id r = i /\ (sr_status r = TaskStatus.COMPLETED \/ sr_status r = TaskStatus.FAILED \/ sr_status r = TaskStatus.CANCELLED).
Proof.
  unfold task_result. destruct (task_map !! i) as [t|] eqn:Ht; [|done].
  intros [H1 H2]%single_task_spec. split; [by rewrite H1, (Hkey i t)|done].
Qed.

(** [state.results[i] = r], the token count of a completed task, and the trace *)
Definition record_result (i : pystr) (r : SubtaskResult) (s : dag_state) (done failed in_progress : list pystr)
  : dag_state :=
  let o := set_result i r 0 (ds_state s) in
  mkDagState (match sr_status r with
              | TaskStatus.COMPLETED => set_result i r (sr_token_usage r) o
              | _ => o
              end) done failed (ds_pending s) in_progress (ds_trace s ++ [Finished i r]).

Lemma finished_one i r : finished [Finished i r] = [(i, r)].
Proof. done. Qed.

Lemma record_traced i r s d f p : Live s -> i ∈ ds_in_progress s -> sr_task_id r = i ->
  Traced (record_result i r s d f p).
Proof.
  intros Hs Hi Hr. destruct (lv_traced s Hs) as [Hv Hres Htok Hctx].
  assert (Hni : i ∉ (finished (ds_trace s)).*1).
  { pose proof (live_NoDup s Hs) as (_ & _ & (_ & Hdis & _)%NoDup_app)%NoDup_app. by apply Hdis. }
  assert (Hg : dict_get i (os_results (ds_state s)) = None).
  { rewrite Hres. apply eq_None_not_Some. by rewrite dict_get_mem. }
  assert (Hset : forall r', dict_set i r' (dict_set i r (os_results (ds_state s)))
     = os_results (ds_state s) ++ [(i, r')]).
  { intros r'. rewrite (dict_set_fresh i r) by done. clear -Hg. induction (os_results _) as [|[j x] l IH]; simpl in *.
    - by rewrite decide_True.
    - case_decide; [done|]. by rewrite IH. }
  constructor; unfold record_result; simpl.
  - apply valid_trace_snoc. split; [done|]. simpl. split; [|done].
    rewrite (lv_started s Hs). set_solver.
  - rewrite finished_app, finished_one, <- Hres.
    destruct (sr_status r); simpl; rewrite ?Hset, ?(dict_set_fresh i r) by done; done.
  - rewrite tokens_in_app, <- Htok. unfold tokens_in, with_status. rewrite finished_one, filter_cons. simpl.
    destruct (sr_status r); simpl; rewrite ?Z.add_0_r; done.
  - destruct (sr_status r); done.
Qed.

Lemma record_live i r s : Live s -> i ∈ ds_in_progress s -> sr_task_id r = i ->
  sr_status r = TaskStatus.COMPLETED \/
    sr_status r = TaskStatus.FAILED /\ failure_policy config <> FailurePolicy.FAIL_FAST ->
  let s' := record_result i r s
    (if decide (sr_status r = TaskStatus.COMPLETED) then ds_completed s ++ [i] else ds_completed s)
    (if decide (sr_status r = TaskStatus.COMPLETED) then ds_failed s else ds_failed s ++ [i])
    (discard i (ds_in_progress s)) in
  Live s' /\ S (work s') = work s.
Proof.
  intros Hs Hi Hr Hst s'. pose proof (live_NoDup s Hs) as (_ & _ & (Hndp & _ & _)%NoDup_app)%NoDup_app.
  pose proof (discard_perm _ _ Hndp Hi) as Hperm.
  split; [|unfold work; subst s'; simpl; rewrite <- (Permutation_length Hperm); simpl; lia].
  pose proof (record_traced i r s (ds_completed s') (ds_failed s') (ds_in_progress s') Hs Hi Hr) as Htr.
  constructor; [exact Htr| | | | | |]; simpl; rewrite ?completed_in_app, ?failed_in_app, ?finished_app, ?started_app.
  - destruct (sr_status r); by apply lv_running.
  - rewrite (lv_completed s Hs). unfold completed_in, with_status. rewrite finished_one, filter_cons. simpl.
    case_decide; simpl; by rewrite ?app_nil_r.
  - rewrite (lv_failed s Hs). unfold failed_in, with_status. rewrite finished_one, filter_cons. simpl.
    destruct Hst as [->|[-> _]]; simpl; by rewrite ?app_nil_r.
  - rewrite <- (lv_where s Hs), fmap_app. simpl. revert Hperm. generalize (discard i (ds_in_progress s)).
    intros q <-. simpl. by rewrite (Permutation_app_comm _ [i]), (app_assoc q), (Permutation_app_comm q [i]).
  - rewrite (lv_started s Hs), fmap_app. simpl. rewrite app_nil_r. revert Hperm.
    generalize (discard i (ds_in_progress s)).
    intros q <-. simpl. by rewrite (Permutation_app_comm _ [i]), (app_assoc q), (Permutation_app_comm q [i]).
  - apply Forall_app. split; [by apply lv_status|]. by constructor.
Qed.

Abbreviation handle := (handle_done config b format empty_message_error task_map).

Lemma ended_raised e s : Traced s -> Ended (caught (Raised e s)).
Proof. destruct e; simpl; by apply ended_stop. Qed.

Lemma handle_done_spec done s :
  Live s -> NoDup done.*1 -> done.*1 ⊆ ds_in_progress s ->
  match handle done s with
  | inl e => Ended (caught e)
  | inr s' => Live s' /\ (work s' + length done = work s)%nat
  end.
Proof.
  revert s. induction done as [|[i tw] done IH]; intros s Hs Hnd Hsub; cbn [handle_done length]; [split; [done|lia]|].
  apply NoDup_cons in Hnd as [Hni Hnd]. simpl in Hsub.
  assert (Hi : i ∈ ds_in_progress s) by set_solver.
  destruct (task_result _ _ _ _ _ s i tw) as [r|e] eqn:Hr; [|by apply ended_raised, Hs].
  destruct (task_result_spec _ _ _ _ Hr) as [Hid Hst].
  assert (Hgo : sr_status r = TaskStatus.COMPLETED \/
      sr_status r = TaskStatus.FAILED /\ failure_policy config <> FailurePolicy.FAIL_FAST ->
      forall s', s' = record_result i r s
        (if decide (sr_status r = TaskStatus.COMPLETED) then ds_completed s ++ [i] else ds_completed s)
        (if decide (sr_status r = TaskStatus.COMPLETED) then ds_failed s else ds_failed s ++ [i])
        (discard i (ds_in_progress s)) ->
      match handle done s' with
      | inl e => Ended (caught e)
      | inr s'' => Live s'' /\ (work s'' + S (length done) = work s)%nat
      end).
  { intros Hc s' ->. destruct (record_live i r s Hs Hi Hid Hc) as [Hl Hw].
    match type of Hl with Live ?x => specialize (IH x Hl Hnd); destruct (handle done x) end.
    - apply IH. unfold record_result, discard. simpl. intros j Hj. apply list_elem_of_filter. set_solver.
    - destruct IH as [H1 H2]; [|split; [done|lia]].
      unfold record_result, discard. simpl. intros j Hj. apply list_elem_of_filter. set_solver. }
  pose proof (fun d f p => record_traced i r s d f p Hs Hi Hid) as Htr.
  unfold record_result in Hgo, Htr.
  destruct Hst as [Hst|[Hst|Hst]]; rewrite Hst in Hgo, Htr |- *.
  - apply Hgo; [by left|done].
  - destruct (decide (failure_policy config = FailurePolicy.FAIL_FAST)) as [Hp|Hp]; [by apply ended_stop, Htr|].
    apply Hgo; [by right|done].
  - by apply ended_stop, Htr.
Qed.

(** *** The whole loop *)

Context {W : Type} (env : dag_env W) (show_seconds : Z -> pystr).

(** [set] has an order, and [asyncio.wait] returns some of the tasks it waits for. *)
Record env_laws : Prop := {
  el_order : forall w l, env_order env w l ≡ₚ l;
  el_wait : forall l w done w', env_wait env l w = (Some done, w') -> l <> [] ->
    done <> [] /\ NoDup done.*1 /\ done.*1 ⊆ l
}.
Context (Henv : env_laws).

Lemma head_checks_spec s w : Live s ->
  match head_checks env config show_seconds s w with
  | (Some s', _) => Ended s' /\ os_status (ds_state s') <> OrchestrationStatus.COMPLETED
  | (None, _) => True
  end.
Proof.
  intros Hs. pose proof (fun st err code H1 H2 => ended_stop st err code s H1 H2 (lv_traced s Hs)) as He.
  unfold head_checks. destruct (env_cancel_set env w) as [[] w1]; [split; [by apply He|done]|].
  match goal with |- match match ?m with _ => _ end with _ => _ end => destruct m as [[t|] w2] end.
  - split; [by apply He|done].
  - destruct (total_token_budget config); [|done]. destruct (_ <=? _); [split; [by apply He|done]|done].
Qed.

Lemma after_loop_spec s : Live s -> ds_pending s = [] -> ds_in_progress s = [] -> Ended (after_loop config s).
Proof.
  intros Hs Hp Hi. pose proof (lv_where s Hs) as Hw. rewrite Hp, Hi in Hw. simpl in Hw.
  assert (Hdone : ds_failed s = [] \/ failure_policy config = FailurePolicy.SKIP ->
    Ended (set_status OrchestrationStatus.COMPLETED s)).
  { intros Hor. constructor; [by apply traced_with_state, Hs|done|]. intros _. split; [done|].
    apply Forall_forall. intros [i r] Hin. simpl.
    pose proof (lv_status s Hs) as Hf. rewrite Forall_forall in Hf. specialize (Hf _ Hin) as [?|[Hfail _]]; [by left|].
    right. split; [done|]. destruct Hor as [Hor|]; [|done]. rewrite (lv_failed s Hs) in Hor.
    assert (Hx : i ∈ failed_in (ds_trace s)); [|rewrite Hor in Hx; set_solver].
    apply list_elem_of_fmap. exists (i, r). split; [done|]. by apply list_elem_of_filter. }
  unfold after_loop. case_match; bools; [by apply Hdone; left|].
  case_match; [by apply Hdone; right|]. by apply ended_stop, Hs.
Qed.

(** The state in which [asyncio.wait] is called. *)
Lemma start_spec s w ready s1 : Live s ->
  scan_ready config task_map (env_order env w (ds_pending s)) [] s = (ready, s1) ->
  let s2 := start_ready format concurrency ready s1 in
  Live s2 /\ work s2 = work s /\
  (ds_in_progress s2 = [] -> 1 <= concurrency -> ready = []) /\
  s1 = s /\ ready = omap (ready_task s) (env_order env w (ds_pending s)).
Proof.
  intros Hs. rewrite scan_ready_spec by done. simpl. intros [= <- <-].
  pose proof (el_order Henv w (ds_pending s)) as Ho.
  destruct (ready_startable s _ Hs Ho) as [Hnd Hf].
  destruct (start_ready_live _ s Hs Hnd Hf) as (H1 & H2 & _ & H4).
  split_and!; [done|done| |done|done]. intros Hip Hc.
  destruct (omap _ _) eqn:Hom; [done|]. exfalso. by apply H4.
Qed.

Lemma iterate_spec s w : Live s ->
  match iterate env config b format empty_message_error show_seconds task_map concurrency s w with
  | (inl e, _) => Ended (caught e)
  | (inr s', _) => Live s' /\ (work s' < work s)%nat
  end.
Proof.
  intros Hs. unfold iterate. pose proof (head_checks_spec s w Hs) as Hh.
  destruct (head_checks _ _ _ s w) as [[s'|] w1]; [by destruct Hh|]. clear Hh.
  destruct (scan_ready _ _ _ _ _) as [ready s1] eqn:Hscan.
  destruct (start_spec s w1 ready s1 Hs Hscan) as (H2 & Hw & _ & _ & _).
  generalize dependent (start_ready format concurrency ready s1). intros s2 H2 Hw.
  destruct (bool_decide (ds_in_progress s2 = [])) eqn:Hip; bools.
  - destruct (bool_decide (ds_pending s2 = [])) eqn:Hp; bools; [by apply after_loop_spec|].
    by apply ended_stop, H2.
  - destruct (env_wait env (ds_in_progress s2) w1) as [[done|] w2] eqn:Hwait; [|by apply ended_raised, H2].
    destruct (el_wait Henv _ _ _ _ Hwait Hip) as (Hne & Hnd & Hsub).
    pose proof (handle_done_spec done s2 H2 Hnd Hsub) as Hh.
    destruct (handle done s2) as [e|s3]; [done|]. destruct Hh as [H3 Hlen]. split; [done|].
    destruct done; [done|]. simpl in Hlen. lia.
Qed.

Lemma execute_dag_spec fuel s w : Live s -> (work s < fuel)%nat ->
  exists e w', _execute_dag env config b format empty_message_error show_seconds task_map concurrency fuel s w
    = (Some e, w') /\ Ended (caught e).
Proof.
  revert s w. induction fuel as [|f IH]; intros s w Hs Hf; [lia|]. cbn [_execute_dag].
  destruct (bool_decide (ds_pending s = []) && _) eqn:Hend; bools.
  - do 2 eexists. split; [done|]. by apply after_loop_spec.
  - pose proof (iterate_spec s w Hs) as Hi.
    destruct (iterate _ _ _ _ _ _ _ _ s w) as [[e|s'] w1]; [by eauto|].
    destruct Hi as [Hs' Hlt]. apply IH; [done|lia].
Qed.

(** *** A run in which nothing goes wrong *)

Definition depends (d i : pystr) : Prop := exists t, task_map !! i = Some t /\ d ∈ depends_on t.

Record calm : Prop := {
  ca_cancel : forall w, (env_cancel_set env w).1 = false;
  ca_timeout : forall w t, total_timeout config = Some t -> (env_elapsed env w).1 < t;
  ca_budget : total_token_budget config = None;
  ca_wait : forall l w, l <> [] -> exists done w', env_wait env l w = (Some done, w');
  ca_tasks : forall l w done w' i tw t, env_wait env l w = (Some done, w') -> (i, tw) ∈ done ->
    task_map !! i = Some t -> exists r,
      _execute_single_task format empty_message_error b config ctx t tw = Ok r /\
      sr_status r = TaskStatus.COMPLETED
}.

Definition all_completed (s : dag_state) : Prop :=
  Forall (fun p => sr_status p.2 = TaskStatus.COMPLETED) (finished (ds_trace s)).

Lemma all_completed_failed s : all_completed s -> failed_in (ds_trace s) = [].
Proof.
  unfold all_completed, failed_in, with_status. intros H.
  destruct (filter _ (finished (ds_trace s))) as [|p l] eqn:Hf; [done|].
  assert (Hp : p ∈ filter (fun p => sr_status p.2 = TaskStatus.FAILED) (finished (ds_trace s)))
    by (rewrite Hf; left).
  apply list_elem_of_filter in Hp as [H1 H2]. rewrite Forall_forall in H. specialize (H p H2). congruence.
Qed.

Lemma head_checks_calm s w : calm ->
  exists w', head_checks env config show_seconds s w = (None, w').
Proof.
  intros H. unfold head_checks. pose proof (ca_cancel H w) as Hc.
  destruct (env_cancel_set env w) as [c w1]. simpl in Hc. rewrite Hc, (ca_budget H).
  destruct (total_timeout config) as [t|] eqn:Ht; [|by eexists].
  pose proof (ca_timeout H w1 t Ht) as He. destruct (env_elapsed env w1) as [el w2]. simpl in He.
  destruct (t <=? el) eqn:Hle; bools; [lia|by eexists].
Qed.

Lemma handle_done_calm done s :
  (forall i tw, (i, tw) ∈ done -> exists t r, task_map !! i = Some t /\
     _execute_single_task format empty_message_error b config ctx t tw = Ok r /\
     sr_status r = TaskStatus.COMPLETED) ->
  os_shared_context (ds_state s) = ctx -> all_completed s ->
  exists s', handle done s = inr s' /\ all_completed s'.
Proof.
  revert s. induction done as [|[i tw] done IH]; intros s Hd Hctx Hall; [by exists s|].
  cbn [handle_done]. destruct (Hd i tw) as (t & r & Ht & Hr & Hst); [left|].
  unfold task_result. rewrite Ht, Hctx, Hr, Hst. apply IH; [|done|].
  - intros j tw' Hin. apply Hd. by right.
  - unfold all_completed. simpl. rewrite finished_app, finished_one. apply Forall_app. split; [done|].
    by constructor.
Qed.

Context (Hclosed : forall d i, depends d i -> d ∈ ids) (Hwf : well_founded depends).

(** While tasks are pending and none runs, one of them is ready. *)
Lemma some_ready s : Live s -> all_completed s -> ds_pending s <> [] -> ds_in_progress s = [] ->
  exists i t, i ∈ ds_pending s /\ ready_task s i = Some t.
Proof.
  intros Hs Hall Hp Hip.
  assert (Hmin : forall i, i ∈ ds_pending s -> exists j, j ∈ ds_pending s /\
            forall d, depends d j -> d ∉ ds_pending s).
  { intros i. induction (Hwf i) as [i _ IH]. intros Hi.
    destruct (task_map !! i) as [t|] eqn:Ht.
    - destruct (decide (Exists (fun d => d ∈ ds_pending s) (depends_on t))) as [He|He].
      + apply Exists_exists in He as (d & Hd & Hdp). apply (IH d); [by exists t|done].
      + exists i. split; [done|]. intros d (t' & Ht' & Hd) Hdp. apply He, Exists_exists. exists d.
        split; congruence.
    - exfalso. assert (Hi' : i ∈ ids) by (apply (live_members s i Hs); by left).
      apply Hmap in Hi' as [? ?]. congruence. }
  destruct (ds_pending s) as [|i0 rest] eqn:Hpe; [done|].
  destruct (Hmin i0) as (j & Hj & Hdep); [left|]. exists j.
  assert (Hj' : j ∈ ids) by (apply (live_members s j Hs); left; by rewrite Hpe).
  apply Hmap in Hj' as [t Ht]. exists t. split; [done|]. unfold ready_task. rewrite Ht.
  assert (Hsub : subset (depends_on t) (ds_completed s) = true); [|by rewrite Hsub].
  apply subset_true. intros d Hd. rewrite (lv_completed s Hs).
  assert (Hdj : depends d j) by (by exists t).
  destruct (proj2 (live_members s d Hs) (Hclosed d j Hdj)) as [H|[H|H]].
  - exfalso. eapply Hdep; [done|]. by rewrite <- Hpe.
  - rewrite Hip in H. set_solver.
  - apply list_elem_of_fmap in H as ([d' r] & -> & Hin). apply list_elem_of_fmap. exists (d', r).
    split; [done|]. apply list_elem_of_filter. split; [|done]. unfold all_completed in Hall.
    rewrite Forall_forall in Hall. by apply Hall.
Qed.

Lemma start_ready_all ready s : all_completed s -> all_completed (start_ready format concurrency ready s).
Proof.
  revert s. induction ready as [|x l IH]; intros s Hs; [done|]. cbn [start_ready].
  destruct (concurrency <=? _); [done|]. apply IH. unfold all_completed. simpl.
  rewrite finished_app. by rewrite app_nil_r.
Qed.

Lemma iterate_calm s w : calm -> 1 <= concurrency -> Live s -> all_completed s -> (0 < work s)%nat ->
  exists s' w', iterate env config b format empty_message_error show_seconds task_map concurrency s w
    = (inr s', w') /\ all_completed s'.
Proof.
  intros Hcalm Hc Hs Hall Hw. unfold iterate.
  destruct (head_checks_calm s w Hcalm) as [w1 ->].
  destruct (scan_ready _ _ _ _ _) as [ready s1] eqn:Hscan.
  destruct (start_spec s w1 ready s1 Hs Hscan) as (H2 & Hw2 & Hno & -> & Hready).
  assert (Hall2 : all_completed (start_ready format concurrency ready s)) by (by apply start_ready_all).
  destruct (bool_decide (ds_in_progress (start_ready format concurrency ready s) = [])) eqn:Hip; bools.
  - exfalso. specialize (Hno Hip Hc). rewrite Hno in *. simpl in *.
    destruct (decide (ds_pending s = [])) as [Hp|Hp]; [unfold work in Hw; rewrite Hp, Hip in Hw; simpl in Hw; lia|].
    destruct (some_ready s Hs Hall Hp Hip) as (i & t & Hi & Hrt).
    assert (Hin : t ∈ omap (ready_task s) (env_order env w1 (ds_pending s))); [|rewrite <- Hready in Hin; set_solver].
    apply list_elem_of_omap. exists i. split; [|done]. by rewrite (el_order Henv w1 (ds_pending s)).
  - destruct (ca_wait Hcalm _ w1 Hip) as (done & w2 & Hwait). rewrite Hwait.
    destruct (el_wait Henv _ _ _ _ Hwait Hip) as (_ & _ & Hsub).
    destruct (handle_done_calm done (start_ready format concurrency ready s)) as (s3 & -> & H3); [|by apply H2|done|eauto].
    intros i tw Hin. assert (Hi : i ∈ ids).
    { apply (live_members _ i H2). right; left. apply Hsub. by apply (list_elem_of_fmap_2 fst) in Hin. }
    apply Hmap in Hi as [t Ht]. destruct (ca_tasks Hcalm _ _ _ _ _ _ _ Hwait Hin Ht) as (r & Hr & Hst). eauto.
Qed.

Lemma execute_dag_calm fuel s w : calm -> 1 <= concurrency -> Live s -> all_completed s -> (work s < fuel)%nat ->
  exists s' w', _execute_dag env config b format empty_message_error show_seconds task_map concurrency fuel s w
    = (Some (Returned s'), w') /\ os_status (ds_state s') = OrchestrationStatus.COMPLETED /\ all_completed s'.
Proof.
  intros Hcalm Hc. revert s w. induction fuel as [|f IH]; intros s w Hs Hall Hf; [lia|]. cbn [_execute_dag].
  destruct (bool_decide (ds_pending s = []) && _) eqn:Hend; bools.
  - do 2 eexists. split; [done|]. unfold after_loop. rewrite (lv_failed s Hs), all_completed_failed by done.
    by rewrite bool_decide_true.
  - assert (Hpos : (0 < work s)%nat).
    { unfold work. destruct (ds_pending s), (ds_in_progress s); simpl; try lia. by destruct Hend. }
    destruct (iterate_calm s w Hcalm Hc Hs Hall Hpos) as (s' & w' & Heq & Hall').
    pose proof (iterate_spec s w Hs) as Hi. rewrite Heq in Hi |- *. destruct Hi as [Hs' Hlt].
    apply IH; [done|done|lia].
Qed.
End Loop.
