(* ===== verification/MultiAgentProps.v ===== *)
(** * Multi-agent orchestration: the theorems

    First the conversion of canvas graphs ([from_dag]), then complete runs of
    the orchestrator ([execute]), then the two together: an accepted canvas
    whose tasks succeed runs to the end. *)

From S2P Require Import Prelude Json Workflow WorkflowFacts AgentRuntime MultiAgent MultiAgentFacts.
Local Open Scope Z_scope.

(** ** The search for cycles *)

Section Acyclic.
Context (m : depends_map).

Definition depends_in (d n : pystr) : Prop := exists l, m !! n = Some l /\ d ∈ l.

Lemma default_dep d n : d ∈ default [] (m !! n) <-> depends_in d n.
Proof.
  unfold depends_in. destruct (m !! n) as [l|] eqn:E; simpl; [naive_solver|].
  split; [set_solver|by intros (? & ? & _)].
Qed.

Definition settled (visited : gset pystr) : Prop := forall x, x ∈ visited -> Acc depends_in x.

Lemma visit_ok fuel visited in_stack node visited' :
  visit fuel m visited in_stack node = Ok visited' -> settled visited ->
  settled visited' /\ visited ⊆ visited' /\ node ∈ visited'.
Proof.
  revert visited in_stack node visited'. induction fuel as [|f IH]; intros visited in_stack node visited'; [done|].
  cbn [visit]. destruct (bool_decide (node ∈ in_stack)); [discriminate|].
  destruct (bool_decide (node ∈ visited)) eqn:Hv; bools; [by intros [= <-]|].
  intros (v1 & Hfold & [= <-])%bind_ok Hset.
  assert (H : settled v1 /\ visited ⊆ v1 /\ forall d, d ∈ default [] (m !! node) -> d ∈ v1).
  { apply (foldE_inv (fun pre v => settled v /\ visited ⊆ v /\ forall d, d ∈ pre -> d ∈ v) _ _ _ _ Hfold).
    - split_and!; [done|done|set_solver].
    - intros pre d v v' (H1 & H2 & H3) Hvis. destruct (IH _ _ _ _ Hvis H1) as (H4 & H5 & H6). set_solver. }
  destruct H as (H1 & H2 & H3). split_and!; [|set_solver|set_solver].
  intros x [->%elem_of_singleton|Hx]%elem_of_union; [|by apply H1].
  constructor. intros d Hd. apply H1, H3. by apply default_dep.
Qed.

Lemma visit_cycle (keys : gset pystr) fuel visited in_stack node e :
  (forall d n, depends_in d n -> d ∈ keys) -> in_stack ⊆ keys -> node ∈ keys ->
  (size keys < size in_stack + fuel)%nat -> (forall x, x ∈ in_stack -> tc depends_in node x) ->
  visit fuel m visited in_stack node = Err e -> e = cycle_error /\ exists x, tc depends_in x x.
Proof.
  intros Hkeys. revert visited in_stack node. induction fuel as [|f IH]; intros visited in_stack node Hst Hn Hsz Htc.
  { apply subseteq_size in Hst. lia. }
  cbn [visit]. destruct (bool_decide (node ∈ in_stack)) eqn:Hin; bools.
  { intros [= <-]. split; [done|]. exists node. by apply Htc. }
  destruct (bool_decide (node ∈ visited)); [done|].
  assert (Hfold : forall l v, (forall d, d ∈ l -> depends_in d node) ->
    foldE (fun visited dep => visit f m visited ({[node]} ∪ in_stack) dep) v l = Err e ->
    e = cycle_error /\ exists x, tc depends_in x x).
  { induction l as [|d l IHl]; intros v Hl; [done|]. simpl.
    assert (Hd : depends_in d node) by (apply Hl; left).
    destruct (visit f m v ({[node]} ∪ in_stack) d) as [v1|e1] eqn:Hvis.
    - apply IHl. intros x Hx. apply Hl. by right.
    - intros [= ->]. apply (IH v ({[node]} ∪ in_stack) d); [set_solver|by eapply Hkeys| | |done].
      + rewrite size_union by set_solver. rewrite size_singleton. lia.
      + intros x [->%elem_of_singleton|Hx]%elem_of_union; [by constructor|].
        eapply tc_l; [done|]. by apply Htc. }
  destruct (foldE _ visited _) as [v1|e1] eqn:Hf; [done|]. intros [= ->].
  eapply Hfold; [|exact Hf]. intros d. by apply default_dep.
Qed.

Lemma validate_acyclic_spec keys :
  NoDup keys -> (forall n, n ∈ keys <-> is_Some (m !! n)) -> (forall d n, depends_in d n -> d ∈ keys) ->
  match _validate_acyclic keys m with
  | Ok _ => well_founded depends_in
  | Err e => e = cycle_error /\ exists x, tc depends_in x x
  end.
Proof.
  intros Hnd Hdom Hkeys. unfold _validate_acyclic.
  destruct (foldE _ ∅ keys) as [v|e] eqn:Hf.
  - assert (H : settled v /\ forall k, k ∈ keys -> k ∈ v).
    { apply (foldE_inv (fun pre v => settled v /\ forall k, k ∈ pre -> k ∈ v) _ _ _ _ Hf).
      - split; [intros ? ?|]; set_solver.
      - intros pre k v0 v1 [H1 H2] Hvis. destruct (visit_ok _ _ _ _ _ Hvis H1) as (H3 & H4 & H5). set_solver. }
    destruct H as [H1 H2]. intros n. constructor. intros d Hd. apply H1, H2. by eapply Hkeys.
  - clear Hdom. revert Hf. generalize (∅ : gset pystr) at 2.
    assert (Hl : forall l v, l ⊆ keys ->
      foldE (fun visited node => visit (S (length keys)) m visited ∅ node) v l = Err e ->
      e = cycle_error /\ exists x, tc depends_in x x); [|intros v; by apply Hl].
    induction l as [|k l IH]; intros v Hl; [done|]. cbn [foldE].
    destruct (visit _ m v ∅ k) as [v1|e1] eqn:Hvis; [apply IH; set_solver|]. intros [= ->].
    apply (visit_cycle (list_to_set keys)) in Hvis; [done|intros d n Hd; apply elem_of_list_to_set; by eapply Hkeys|
      set_solver|set_solver| |set_solver].
    rewrite size_empty, size_list_to_set by done. lia.
Qed.

(** [_validate_acyclic] is right in both directions: when it returns, no
    task depends on itself, directly or through others (the dependency relation
    is well-founded); when it raises, it is the error "DAG contains a cycle" and
    there is a cycle. *)
Theorem validate_acyclic_correct keys :
  keys ≡ₚ (map_to_list m).*1 -> map_Forall (fun _ l => Forall (fun d => d ∈ keys) l) m ->
  match _validate_acyclic keys m with
  | Ok _ => well_founded depends_in
  | Err e => e = cycle_error /\ exists x, tc depends_in x x
  end.
Proof.
  intros Hk Hd. apply validate_acyclic_spec.
  - rewrite Hk. apply NoDup_fst_map_to_list.
  - intros n. rewrite Hk, list_elem_of_fmap. split.
    + intros ([k l] & -> & Hl%elem_of_map_to_list). by exists l.
    + intros [l Hl]. exists (n, l). split; [done|]. by apply elem_of_map_to_list.
  - intros d n (l & Hl & Hin). specialize (Hd n l Hl). rewrite Forall_forall in Hd. by apply Hd.
Qed.
End Acyclic.

Definition demo_depends : depends_map :=
  add_dep (u "b") (u "c") (add_dep (u "a") (u "c") (add_dep (u "a") (u "b")
    (dict_of [] [u "a"; u "b"; u "c"]))).

Lemma validate_acyclic_correct_witness :
  match _validate_acyclic (map_to_list demo_depends).*1 demo_depends with
  | Ok _ => well_founded (depends_in demo_depends)
  | Err e => e = cycle_error /\ exists x, tc (depends_in demo_depends) x x
  end /\
  match _validate_acyclic (map_to_list (add_dep (u "c") (u "a") demo_depends)).*1
          (add_dep (u "c") (u "a") demo_depends) with
  | Ok _ => False
  | Err e => e = cycle_error
  end.
Proof.
  split; [|vm_compute; reflexivity].
  apply (validate_acyclic_correct demo_depends); [reflexivity|].
  refine (proj1 (bool_decide_eq_true (map_Forall (fun _ l => Forall (fun d => d ∈ (map_to_list demo_depends).*1) l)
            demo_depends)) _).
  vm_compute. reflexivity.
Defined.

(** ** Canvas graphs *)

Lemma collect_ok {E A B} (f : A -> result E B) l l' :
  collect f l = Ok l' -> Forall2 (fun a b => f a = Ok b) l l'.
Proof.
  unfold collect. intros H. apply (foldE_inv (fun pre acc => Forall2 (fun a b => f a = Ok b) pre acc) _ _ _ _ H).
  - constructor.
  - intros pre a acc acc' Hf. destruct (f a) as [b|] eqn:Ha; [|done]. cbn. intros [= <-].
    apply Forall2_app; [done|]. by repeat constructor.
Qed.

(** [{"source": s, "target": t}] is one of the edges. *)
Definition has_edge (edges : list json) (s t : pystr) : Prop :=
  exists e, e ∈ edges /\ dag_edge e = Ok (JStr s, JStr t).

(** What the dependency map holds after the edges [es] were added. *)
Definition dependency_map (ids : list pystr) (es : list json) (m : depends_map) : Prop :=
  (forall k, is_Some (m !! k) <-> k ∈ ids) /\
  (forall d t, depends_in m d t <-> has_edge es d t) /\
  (forall s t, has_edge es s t -> s ∈ ids /\ t ∈ ids).

Lemma has_edge_snoc es e s t :
  has_edge (es ++ [e]) s t <-> has_edge es s t \/ dag_edge e = Ok (JStr s, JStr t).
Proof. unfold has_edge. setoid_rewrite elem_of_app. setoid_rewrite list_elem_of_singleton. naive_solver. Qed.

Lemma has_key_true m v : has_key m v = Ok true -> exists s, v = JStr s /\ is_Some (m !! s).
Proof.
  destruct v as [| | | |s|l|l]; simpl; try done. intros [= H]. bools. eauto.
Qed.

Lemma add_dep_depends m s t d n : is_Some (m !! t) ->
  depends_in (add_dep s t m) d n <-> depends_in m d n \/ (d = s /\ n = t).
Proof.
  intros [l Hl]. unfold depends_in, add_dep. rewrite Hl.
  destruct (decide (n = t)) as [->|Hne].
  - rewrite lookup_insert_eq, Hl. destruct (bool_decide (s ∈ l)) eqn:Hs; bools.
    + split; [intros (l' & [= <-] & Hd); eauto|]. intros [(l' & [= <-] & Hd)|[-> _]]; eauto.
    + setoid_rewrite (inj_iff Some). split.
      * intros (l' & <- & [Hd| ->%list_elem_of_singleton]%elem_of_app); [left; eauto|by right].
      * intros [(l' & <- & Hd)|[-> _]]; eexists; (split; [done|]); set_solver.
  - rewrite lookup_insert_ne by done. naive_solver.
Qed.

Lemma dependency_map_step repr ids es m e m' :
  dependency_map ids es m -> add_dependency repr m e = Ok m' -> dependency_map ids (es ++ [e]) m'.
Proof.
  intros (H1 & H2 & H3) Hadd. unfold add_dependency in Hadd.
  apply bind_ok in Hadd as ([source target] & He & Hadd).
  apply bind_ok in Hadd as (source_in & Hs & Hadd). apply bind_ok in Hadd as (target_in & Ht & Hadd).
  destruct source_in; [|injection Ht as <-; by destruct source, target].
  apply has_key_true in Hs as (s & -> & Hs).
  destruct target_in; [|by destruct target].
  apply has_key_true in Ht as (t & -> & Ht). injection Hadd as <-.
  split_and!.
  - intros k. rewrite <- H1. unfold add_dep. destruct Ht as [l Hl]. rewrite Hl.
    rewrite lookup_insert_is_Some'. split; [intros [<-|?]; eauto|by right].
  - intros d n. rewrite add_dep_depends, H2, has_edge_snoc, He by done. naive_solver.
  - intros s' t' [Hh|Hh]%has_edge_snoc; [by apply H3|]. rewrite He in Hh. injection Hh as <- <-.
    split; by apply H1.
Qed.

Lemma dependency_map_start ids : dependency_map ids [] (dict_of [] ids).
Proof.
  split_and!.
  - intros k. rewrite dict_of_lookup. case_decide; [by split; [|eauto]|]. split; [by intros [? ?]|done].
  - intros d t. unfold depends_in. setoid_rewrite dict_of_lookup. split.
    + intros (l & Hl & Hd). case_decide; [injection Hl as <-|done]. set_solver.
    + intros (e & He & _). set_solver.
  - intros s t (e & He & _). set_solver.
Qed.

Lemma build_subtask_spec repr m node t i :
  build_subtask repr m node = Ok t -> dag_node_id node = Ok i ->
  task_id t = i /\ i <> [] /\ input_template t = [] /\ forall d, d ∈ depends_on t <-> depends_in m d i.
Proof.
  intros H Hi. destruct node as [| | | | | |d]; try done. unfold dag_node_id in Hi.
  unfold build_subtask in H. destruct (dict_get (u "id") d) as [[| | | |[|c s]| |]|] eqn:Hid; try done.
  apply bind_ok in H as (i' & Hi' & H). injection Hi as <-.
  assert (i' = c :: s) as -> by (unfold dag_node_id in Hi'; rewrite Hid in Hi'; by injection Hi').
  destruct (if truthy _ then _ else _); try done. injection H as <-. cbn [task_id depends_on input_template].
  split_and!; [done|done|done|]. intros x. by rewrite sort_by_perm, default_dep.
Qed.

Lemma from_dag_spec repr dag tasks :
  from_dag repr (JObj dag) = Ok tasks ->
  exists nodes edges m, dict_get (u "nodes") dag = Some (JArr nodes) /\
    dict_get (u "edges") dag = Some (JArr edges) /\ nodes <> [] /\ (length nodes <= 20)%nat /\
    collect dag_node_id nodes = Ok (task_id <$> tasks) /\
    dependency_map (task_id <$> tasks) edges m /\ well_founded (depends_in m) /\
    forall t, t ∈ tasks -> task_id t <> [] /\ input_template t = [] /\
      forall d, d ∈ depends_on t <-> depends_in m d (task_id t).
Proof.
  intros H. unfold from_dag in H.
  destruct (dict_get (u "nodes") dag) as [[| | | | |nodes|]|] eqn:Hnodes; try done.
  apply bind_ok in H as ([] & Hne%raise_if_ok & H). apply bind_ok in H as ([] & Hlen%raise_if_ok & H).
  apply bool_decide_eq_false in Hne. apply Nat.ltb_ge in Hlen.
  destruct (dict_get (u "edges") dag) as [[| | | | |edges|]|] eqn:Hedges; try done.
  apply bind_ok in H as (ids & Hids & H). apply bind_ok in H as (m & Hm & H).
  apply bind_ok in H as (visited & Hac & H).
  assert (Hdm : dependency_map ids edges m).
  { apply (foldE_inv (fun pre m => dependency_map ids pre m) _ _ _ _ Hm);
      [apply dependency_map_start|intros; by eapply dependency_map_step]. }
  pose proof (validate_acyclic_spec m (remove_dups ids)) as Hwf. rewrite Hac in Hwf.
  apply collect_ok in H. pose proof (collect_ok _ _ _ Hids) as Hids'.
  assert (Hboth : Forall2 (fun i t => task_id t = i /\ i <> [] /\ input_template t = [] /\
                     forall d, d ∈ depends_on t <-> depends_in m d i) ids tasks).
  { clear -H Hids'. revert ids Hids'. induction H as [|n t ns ts Hn H IH]; intros ids Hids; inversion Hids; subst; constructor.
    - by eapply build_subtask_spec.
    - by apply IH. }
  assert (task_id <$> tasks = ids) as <-.
  { clear -Hboth. induction Hboth as [|i t is' ts (Hi & _) _ IH]; [done|]. by rewrite fmap_cons, Hi, IH. }
  exists nodes, edges, m.
  split_and!; [exact eq_refl|exact eq_refl|exact Hne|exact Hlen|exact Hids|exact Hdm| |].
  - apply Hwf; [apply NoDup_remove_dups|intros n; rewrite elem_of_remove_dups; symmetry; apply Hdm|].
    intros d n Hd. apply elem_of_remove_dups. destruct Hdm as (_ & H2 & H3). by apply (H3 d n), H2.
  - intros t Ht. apply list_elem_of_lookup in Ht as [k Hk].
    destruct (Forall2_lookup_r _ _ _ _ _ Hboth Hk) as (i & _ & -> & H1 & H2 & H3). done.
Qed.

(** A canvas graph that [from_dag] accepts has between 1 and 20 nodes and
    becomes one task per node, in their order, with non-empty ids; each task
    depends on exactly the sources of the edges into it, every edge joins two
    tasks, and the dependencies have no cycle. *)
Theorem from_dag_correct repr dag tasks :
  from_dag repr (JObj dag) = Ok tasks ->
  exists nodes edges,
    dict_get (u "nodes") dag = Some (JArr nodes) /\ dict_get (u "edges") dag = Some (JArr edges) /\
    nodes <> [] /\ (length nodes <= 20)%nat /\ collect dag_node_id nodes = Ok (task_id <$> tasks) /\
    (forall t, t ∈ tasks -> task_id t <> [] /\ forall d, d ∈ depends_on t <-> has_edge edges d (task_id t)) /\
    (forall s t, has_edge edges s t -> s ∈ task_id <$> tasks /\ t ∈ task_id <$> tasks) /\
    well_founded (has_edge edges).
Proof.
  intros (nodes & edges & m & H1 & H2 & H3 & H4 & H5 & (H6 & H7 & H8) & H9 & H10)%from_dag_spec.
  exists nodes, edges. split_and!; [exact H1|exact H2|exact H3|exact H4|exact H5| |exact H8|].
  - intros t (Ht & _ & Hd)%H10. split; [done|]. intros d. by rewrite Hd, H7.
  - intros n. induction (H9 n) as [n _ IH]. constructor. intros d Hd. apply IH. by apply H7.
Qed.

Definition no_repr (j : json) : pystr := [].
Definition jnode (i r : string) : json :=
  JObj [(u "id", JStr (u i)); (u "role", JStr (u r)); (u "description", JStr (u "do it"))].
Definition jedge (s t : string) : json := JObj [(u "source", JStr (u s)); (u "target", JStr (u t))].

(** research -> write -> review, and research -> review *)
Definition demo_dag : list (pystr * json) :=
  [(u "nodes", JArr [jnode "review" "reviewer"; jnode "write" "writer"; jnode "look" "research"]);
   (u "edges", JArr [jedge "look" "write"; jedge "write" "review"; jedge "look" "review"])].
Definition demo_tasks : list Subtask :=
  Eval vm_compute in match from_dag no_repr (JObj demo_dag) with Ok l => l | Err _ => [] end.
Lemma demo_accepted : from_dag no_repr (JObj demo_dag) = Ok demo_tasks.
Proof. vm_compute. reflexivity. Qed.

Lemma from_dag_correct_witness : exists nodes edges,
    dict_get (u "nodes") demo_dag = Some (JArr nodes) /\ dict_get (u "edges") demo_dag = Some (JArr edges) /\
    nodes <> [] /\ (length nodes <= 20)%nat /\ collect dag_node_id nodes = Ok (task_id <$> demo_tasks) /\
    (forall t, t ∈ demo_tasks -> task_id t <> [] /\ forall d, d ∈ depends_on t <-> has_edge edges d (task_id t)) /\
    (forall s t, has_edge edges s t -> s ∈ task_id <$> demo_tasks /\ t ∈ task_id <$> demo_tasks) /\
    well_founded (has_edge edges).
Proof. exact (from_dag_correct no_repr demo_dag demo_tasks demo_accepted). Defined.

(** ** Runs of the orchestrator *)

Lemma task_map_of_spec tasks i :
  match task_map_of tasks !! i with
  | Some t => task_id t = i /\ t ∈ tasks
  | None => i ∉ task_id <$> tasks
  end.
Proof.
  unfold task_map_of. induction tasks as [|t tasks IH] using rev_ind; [cbn [foldl]; rewrite lookup_empty; set_solver|].
  rewrite foldl_snoc. destruct (decide (task_id t = i)) as [<-|Hne].
  - rewrite lookup_insert_eq. split; [done|]. apply elem_of_app. right. by left.
  - rewrite lookup_insert_ne by done. destruct (foldl _ ∅ tasks !! i).
    + destruct IH. split; [done|]. apply elem_of_app. by left.
    + rewrite fmap_app, elem_of_app. intros [?|Hi]; [done|]. apply list_elem_of_singleton in Hi. done.
Qed.

Lemma task_map_of_key tasks i t : task_map_of tasks !! i = Some t -> task_id t = i.
Proof. intros H. pose proof (task_map_of_spec tasks i) as Hs. rewrite H in Hs. by destruct Hs. Qed.

Definition ids_of (tasks : list Subtask) : list pystr := remove_dups (task_id <$> tasks).

Lemma task_map_of_dom tasks i : i ∈ ids_of tasks <-> is_Some (task_map_of tasks !! i).
Proof.
  unfold ids_of. rewrite elem_of_remove_dups. pose proof (task_map_of_spec tasks i) as Hs.
  destruct (task_map_of tasks !! i) as [t|].
  - destruct Hs as [<- Ht]. split; [eauto|]. intros _. by apply list_elem_of_fmap_2.
  - split; [done|by intros [? ?]].
Qed.

Section Runs.
Context {W : Type} (env : dag_env W) (b : backend).
Context (format : pystr -> pystr -> result format_error pystr) (empty_message_error : pystr).
Context (show_seconds : Z -> pystr) (config : OrchestrationConfig) (input : pystr) (tasks : list Subtask).

Abbreviation run := (execute env b format empty_message_error show_seconds config input tasks).
Abbreviation the_trace tr :=
  (valid_trace format (mkSharedContext input []) (task_map_of tasks) (concurrency_of config tasks) tr).
Abbreviation start_context := (mkSharedContext input []).

Lemma initial_live concurrency :
  Live config format start_context (task_map_of tasks) concurrency (ids_of tasks) (initial_state input tasks).
Proof.
  constructor; [constructor|..]; simpl; try done; [apply valid_trace_nil|by rewrite app_nil_r].
Qed.

Lemma ids_of_length : (length (ids_of tasks) <= length tasks)%nat.
Proof.
  unfold ids_of. rewrite <- (length_fmap task_id tasks). generalize (task_id <$> tasks). intros l.
  apply submseteq_length, NoDup_submseteq; [apply NoDup_remove_dups|]. intros x. by rewrite elem_of_remove_dups.
Qed.

Lemma orchestration_spec w : env_laws env -> 0 <= concurrency_of config tasks ->
  exists r s w', run w = (Some (Ok (r, s)), w') /\
    Ended config format start_context (task_map_of tasks) (concurrency_of config tasks) (ids_of tasks) s /\
    r = mkOrchestrationResult (os_status (ds_state s))
          (if decide (os_status (ds_state s) = OrchestrationStatus.COMPLETED)
           then final_output tasks (os_results (ds_state s)) else [])
          (os_results (ds_state s)).*2 (os_total_token_usage (ds_state s))
          (os_error (ds_state s)) (os_error_code (ds_state s)).
Proof.
  intros Henv Hc. unfold execute. destruct (_ <? 0) eqn:Hneg; bools; [lia|].
  destruct (execute_dag_spec config b format empty_message_error start_context (task_map_of tasks)
    (concurrency_of config tasks) (ids_of tasks) (NoDup_remove_dups _) (task_map_of_dom tasks) (task_map_of_key tasks) env show_seconds Henv
    (S (length tasks)) (initial_state input tasks) w) as (e & w' & -> & He); [apply initial_live| |eauto 10].
  unfold work. simpl. rewrite Nat.add_0_r. pose proof ids_of_length. unfold ids_of in *. lia.
Qed.

(** C34. [execute] always ends, whatever the tasks, their dependencies, the
    answers of the services and the order of events: it returns a result whose
    status is no longer RUNNING (or, for a negative [max_concurrency], raises
    the semaphore's ValueError before anything runs). *)
Theorem execute_ends w :
  env_laws env ->
  match run w with
  | (Some (Ok (r, _)), _) => 0 <= concurrency_of config tasks /\ or_status r <> OrchestrationStatus.RUNNING
  | (Some (Err SemaphoreValueError), w') => max_concurrency config < 0 /\ w' = w
  | (None, _) => False
  end.
Proof.
  intros Henv. destruct (decide (0 <= concurrency_of config tasks)) as [Hc|Hc].
  - destruct (orchestration_spec w Henv Hc) as (r & s & w' & -> & He & ->). split; [done|]. apply He.
  - unfold execute. rewrite (proj2 (Z.ltb_lt _ 0)) by lia. split; [|done]. unfold concurrency_of in Hc. lia.
Qed.

Lemma run_ended w r s w' : env_laws env -> run w = (Some (Ok (r, s)), w') ->
  Ended config format start_context (task_map_of tasks) (concurrency_of config tasks) (ids_of tasks) s /\
  or_status r = os_status (ds_state s) /\ or_subtask_results r = (os_results (ds_state s)).*2 /\
  or_total_token_usage r = os_total_token_usage (ds_state s) /\
  or_final_output r = (if decide (or_status r = OrchestrationStatus.COMPLETED)
                       then final_output tasks (os_results (ds_state s)) else []).
Proof.
  intros Henv Hrun. assert (Hc : 0 <= concurrency_of config tasks).
  { unfold execute in Hrun. destruct (_ <? 0) eqn:Hneg; bools; [discriminate|done]. }
  destruct (orchestration_spec w Henv Hc) as (r' & s' & w'' & Heq & He & Hr').
  rewrite Hrun in Heq. injection Heq as <- <- <-. subst r. simpl. done.
Qed.

(** C33. In every run, whatever its outcome: a task starts at most once, only
    after all its dependencies have completed, and never beyond the configured
    concurrency; it finishes at most once, after it started; no task is ever
    marked SKIPPED.  The reported results are those of the finished tasks, in
    the order they finished, and the reported token usage is the sum over the
    completed ones. *)
Theorem execute_schedules w r s w' :
  env_laws env -> run w = (Some (Ok (r, s)), w') ->
  the_trace (ds_trace s) /\ NoDup (started (ds_trace s)) /\ NoDup (finished (ds_trace s)).*1 /\
  or_subtask_results r = (finished (ds_trace s)).*2 /\
  or_total_token_usage r = tokens_in (ds_trace s).
Proof.
  intros Henv Hrun. destruct (run_ended _ _ _ _ Henv Hrun) as ([[Hv Hr Ht _] _ _] & _ & H1 & H2 & _).
  destruct (valid_trace_NoDup _ _ _ _ _ Hv). split_and!; congruence || done.
Qed.

(** A completed dependency of a task that finished. *)
Lemma finished_deps tr i t d : the_trace tr -> i ∈ (finished tr).*1 ->
  task_map_of tasks !! i = Some t -> d ∈ depends_on t -> d ∈ completed_in tr.
Proof.
  intros Hv ([i' r] & -> & Hin)%list_elem_of_fmap Ht Hd.
  apply list_elem_of_omap in Hin as (e & (pre & post & ->)%list_elem_of_split & He).
  destruct e as [|j r'|]; simplify_eq/=. pose proof (Hv _ _ _ eq_refl) as (Hst & _).
  apply list_elem_of_omap in Hst as (e & (pre' & post' & ->)%list_elem_of_split & He).
  destruct e as [j inp| |]; simplify_eq/=.
  assert (Hs : valid_event format start_context (task_map_of tasks) (concurrency_of config tasks) pre' (Started i' inp)).
  { apply (Hv _ _ (post' ++ Finished i' r :: post)). by rewrite <- app_assoc. }
  destruct Hs as (t' & Ht' & _ & Hdeps & _). assert (t' = t) as -> by congruence.
  rewrite !completed_in_app. apply elem_of_app. left. apply elem_of_app. left. by apply Hdeps.
Qed.

(** A run reported as COMPLETED finished every task exactly once and all of
    them completed, except that under the SKIP policy tasks that failed are
    tolerated, and those have no dependents: a failed task on which another
    depends never ends in COMPLETED, whatever the policy. *)
Theorem completed_run w r s w' :
  env_laws env -> run w = (Some (Ok (r, s)), w') -> or_status r = OrchestrationStatus.COMPLETED ->
  (finished (ds_trace s)).*1 ≡ₚ ids_of tasks /\
  (forall i x, (i, x) ∈ finished (ds_trace s) ->
     sr_status x = TaskStatus.COMPLETED \/
     sr_status x = TaskStatus.FAILED /\ failure_policy config = FailurePolicy.SKIP /\
       forall j t, task_map_of tasks !! j = Some t -> i ∉ depends_on t) /\
  or_final_output r = final_output tasks (finished (ds_trace s)).
Proof.
  intros Henv Hrun Hst. destruct (run_ended _ _ _ _ Henv Hrun) as ([[Hv Hr _ _] _ He] & H1 & _ & _ & Ho).
  rewrite Hst in H1, Ho. destruct (He (eq_sym H1)) as [Hperm Hall].
  split_and!; [done| |by rewrite Ho, Hr, decide_True].
  intros i x Hin. pose proof Hall as Hall'. rewrite Forall_forall in Hall'.
  destruct (Hall' _ Hin) as [Hc|[Hf Hp]]; [by left|]. simpl in Hf. right. split_and!; [done|done|].
  intros j t Hj Hi. eapply (completed_not_failed (ds_trace s) i); [by eapply valid_trace_NoDup|..].
  - eapply finished_deps; [done| |exact Hj|exact Hi]. rewrite Hperm. apply task_map_of_dom. by eexists.
  - apply list_elem_of_fmap. exists (i, x). split; [done|]. by apply list_elem_of_filter.
Qed.

(** The outputs of earlier tasks never reach the tasks that depend on them:
    the input of every task is computed from an empty context, so its
    [prev_results] is the empty text. *)
Theorem previous_results_never_passed w r s w' pre i inp post :
  env_laws env -> run w = (Some (Ok (r, s)), w') -> ds_trace s = pre ++ Started i inp :: post ->
  exists t, task_map_of tasks !! i = Some t /\
    inp = if decide (input_template t = [] \/ depends_on t = []) then Ok (description t)
          else match format (input_template t) [] with
               | Ok x => Ok x
               | Err FormatKeyError =>
                   Ok (description t ++ newline ++ newline ++ u "Previous results:" ++ newline)
               | Err (FormatError m) => Err (TaskException m)
               end.
Proof.
  intros Henv Hrun Htr. destruct (run_ended _ _ _ _ Henv Hrun) as ([[Hv _ _ _] _ _] & _).
  destruct (Hv _ _ _ Htr) as (t & Ht & _ & _ & _ & ->). exists t. split; [done|].
  assert (Hprev : get_prev_results start_context (depends_on t) = []).
  { unfold get_prev_results. simpl. by induction (depends_on t) as [|d l IH]. }
  unfold task_input. rewrite Hprev. destruct (decide _) as [Hor|Hno].
  - destruct (bool_decide _ && _) eqn:Hb; bools; [|done]. naive_solver.
  - rewrite !bool_decide_true by naive_solver. cbn [andb]. by rewrite app_nil_r.
Qed.

(** C35. A run whose dependencies are known tasks without a cycle, that is not
    cancelled, times out or has a token budget, and whose tasks all succeed,
    ends as COMPLETED with every task completed exactly once: the scheduler
    never deadlocks. *)
Theorem calm_run_completes w :
  env_laws env -> 1 <= max_concurrency config ->
  calm config b format empty_message_error (mkSharedContext input []) (task_map_of tasks) env ->
  (forall t d, t ∈ tasks -> d ∈ depends_on t -> d ∈ task_id <$> tasks) ->
  well_founded (depends (task_map_of tasks)) -> tasks <> [] ->
  exists r s w', run w = (Some (Ok (r, s)), w') /\ or_status r = OrchestrationStatus.COMPLETED /\
    completed_in (ds_trace s) ≡ₚ ids_of tasks.
Proof.
  intros Henv Hmax Hcalm Hclosed Hwf Hne. assert (Hc : 1 <= concurrency_of config tasks).
  { unfold concurrency_of. destruct (length tasks) eqn:E; [by apply nil_length_inv in E|]. lia. }
  destruct (execute_dag_calm config b format empty_message_error start_context (task_map_of tasks)
    (concurrency_of config tasks) (ids_of tasks) (NoDup_remove_dups _) (task_map_of_dom tasks)
    (task_map_of_key tasks) env show_seconds Henv) with (fuel := S (length tasks)) (w := w)
    (s := initial_state input tasks) as (s & w' & Hrun & Hst & Hall); try done.
  - intros d i (t & Ht & Hd). pose proof (task_map_of_spec tasks i) as Hs. rewrite Ht in Hs.
    apply elem_of_remove_dups. eapply Hclosed; [apply Hs|done].
  - apply initial_live.
  - constructor.
  - unfold work. simpl. rewrite Nat.add_0_r. pose proof ids_of_length. unfold ids_of in *. lia.
  - assert (Hex : exists r, run w = (Some (Ok (r, s)), w') /\ or_status r = OrchestrationStatus.COMPLETED).
    { unfold execute. rewrite (proj2 (Z.ltb_ge _ 0)) by lia. rewrite Hrun. by eexists. }
    destruct Hex as (r & Hr & Hrs). exists r, s, w'. split_and!; [done|done|].
    destruct (run_ended _ _ _ _ Henv Hr) as ([_ _ He] & _). destruct (He Hst) as [<- _].
    unfold completed_in, with_status. unfold all_completed in Hall.
    rewrite Forall_forall in Hall. f_equiv. clear -Hall. induction (finished _) as [|p l IH]; [done|].
    rewrite filter_cons, decide_True by (apply Hall; left). f_equiv. apply IH. intros q Hq. apply Hall. by right.
Qed.
End Runs.

(** ** A run of three tasks *)

(** One task finishes at a time; nothing is cancelled. *)
Definition demo_world : task_world :=
  mkTaskWorld false (fun _ => Err TaskCancelled) (fun r => Ok (mkChatResponse (cr_message r) (Some 2) (Some 3))).
Definition demo_env : dag_env unit :=
  mkDagEnv (fun w => (false, w)) (fun w => (0, w)) (fun _ l => l)
    (fun l w => (match l with [] => None | i :: _ => Some [(i, demo_world)] end, w)).
Definition demo_format (template prev : pystr) : result format_error pystr := Ok (template ++ prev).
Definition demo_config : OrchestrationConfig := mkOrchestrationConfig 3 FailurePolicy.FAIL_FAST 1 (Some 300) None [].

(** The canvas above, the writer being given a template. *)
Definition template_tasks : list Subtask :=
  (fun t => mkSubtask (task_id t) (description t) (agent_role t) None (depends_on t) (u "Use this: ") 0)
  <$> demo_tasks.

Definition demo_run (tasks : list Subtask) :=
  execute demo_env ChatBackend demo_format [] str_of_Z demo_config (u "hi") tasks tt.
Definition demo_out : OrchestrationResult * dag_state :=
  Eval vm_compute in
    match fst (demo_run template_tasks) with
    | Some (Ok p) => p
    | _ => (mkOrchestrationResult OrchestrationStatus.RUNNING [] [] 0 None None, initial_state [] [])
    end.
Lemma demo_runs : demo_run template_tasks = (Some (Ok (demo_out.1, demo_out.2)), tt).
Proof. vm_compute. reflexivity. Qed.

Lemma demo_laws : env_laws demo_env.
Proof.
  constructor; [done|]. intros l w done w'. destruct l as [|i l]; simpl; intros [= <- _] _.
  split_and!; [done|repeat constructor; set_solver|set_solver].
Qed.

Lemma execute_ends_witness :
  match demo_run template_tasks with
  | (Some (Ok (r, _)), _) => 0 <= concurrency_of demo_config template_tasks /\
      or_status r <> OrchestrationStatus.RUNNING
  | (Some (Err SemaphoreValueError), w') => max_concurrency demo_config < 0 /\ w' = tt
  | (None, _) => False
  end.
Proof. exact (execute_ends demo_env ChatBackend demo_format [] str_of_Z demo_config (u "hi") template_tasks tt demo_laws). Defined.

Lemma execute_schedules_witness :
  or_total_token_usage demo_out.1 = 15 /\
  valid_trace demo_format (mkSharedContext (u "hi") []) (task_map_of template_tasks) 3 (ds_trace demo_out.2) /\
  NoDup (started (ds_trace demo_out.2)) /\ NoDup (finished (ds_trace demo_out.2)).*1 /\
  or_subtask_results demo_out.1 = (finished (ds_trace demo_out.2)).*2 /\
  or_total_token_usage demo_out.1 = tokens_in (ds_trace demo_out.2).
Proof.
  split; [reflexivity|].
  exact (execute_schedules demo_env ChatBackend demo_format [] str_of_Z demo_config (u "hi") template_tasks
           tt _ _ _ demo_laws demo_runs).
Defined.

Lemma completed_run_witness :
  (finished (ds_trace demo_out.2)).*1 ≡ₚ ids_of template_tasks /\
  (forall i x, (i, x) ∈ finished (ds_trace demo_out.2) ->
     sr_status x = TaskStatus.COMPLETED \/
     sr_status x = TaskStatus.FAILED /\ failure_policy demo_config = FailurePolicy.SKIP /\
       forall j t, task_map_of template_tasks !! j = Some t -> i ∉ depends_on t) /\
  or_final_output demo_out.1 = final_output template_tasks (finished (ds_trace demo_out.2)).
Proof.
  exact (completed_run demo_env ChatBackend demo_format [] str_of_Z demo_config (u "hi") template_tasks
           tt _ _ _ demo_laws demo_runs eq_refl).
Defined.

(** The writer's input is its template without the research output. *)
Lemma previous_results_never_passed_witness :
  exists pre post t, ds_trace demo_out.2 = pre ++ Started (u "write") (Ok (u "Use this: ")) :: post /\
    depends_on t = [u "look"] /\
    Ok (u "Use this: ") = if decide (input_template t = [] \/ depends_on t = []) then Ok (description t)
      else match demo_format (input_template t) [] with
           | Ok x => Ok x
           | Err FormatKeyError => Ok (description t ++ newline ++ newline ++ u "Previous results:" ++ newline)
           | Err (FormatError m) => Err (TaskException m)
           end.
Proof.
  set (pre := take 2 (ds_trace demo_out.2)). set (post := drop 3 (ds_trace demo_out.2)).
  assert (Heq : ds_trace demo_out.2 = pre ++ Started (u "write") (Ok (u "Use this: ")) :: post)
    by (vm_compute; reflexivity).
  destruct (previous_results_never_passed demo_env ChatBackend demo_format [] str_of_Z demo_config (u "hi")
    template_tasks tt _ _ _ pre _ _ post demo_laws demo_runs Heq) as (t & Ht & Hin).
  exists pre, post, t. split; [exact Heq|]. split; [|exact Hin].
  assert (Ht' : task_map_of template_tasks !! u "write" =
    Some (mkSubtask (u "write") (u "do it") AgentRole.WRITER None [u "look"] (u "Use this: ") 0))
    by (vm_compute; reflexivity).
  rewrite Ht' in Ht. injection Ht as <-. reflexivity.
Defined.

Lemma demo_calm : calm demo_config ChatBackend demo_format [] (mkSharedContext (u "hi") [])
  (task_map_of demo_tasks) demo_env.
Proof.
  constructor; [done|by intros w t [= <-]|done| |].
  - intros [|i l] w Hl; [done|]. by do 2 eexists.
  - intros l w done w' i tw t Hw Hin Ht. destruct l as [|j l]; [done|]. injection Hw as <- _.
    apply list_elem_of_singleton in Hin. injection Hin as -> ->.
    pose proof (task_map_of_spec demo_tasks j) as Hs. rewrite Ht in Hs. destruct Hs as [_ Hs].
    repeat (apply elem_of_cons in Hs as [->|Hs]; [eexists; split; vm_compute; reflexivity|]).
    by apply not_elem_of_nil in Hs.
Qed.

Lemma calm_run_completes_witness :
  exists r s w', demo_run demo_tasks = (Some (Ok (r, s)), w') /\
    or_status r = OrchestrationStatus.COMPLETED /\ completed_in (ds_trace s) ≡ₚ ids_of demo_tasks.
Proof.
  destruct (from_dag_spec no_repr demo_dag demo_tasks demo_accepted)
    as (nodes & edges & m & _ & _ & _ & _ & _ & (_ & H7 & H8) & H9 & H10).
  apply (calm_run_completes demo_env ChatBackend demo_format [] str_of_Z demo_config (u "hi") demo_tasks tt demo_laws);
    [done|exact demo_calm| | |done].
  - intros t d Ht Hd. apply (H8 d (task_id t)), H7. by apply (H10 t Ht).
  - intros i. induction (H9 i) as [i _ IH]. constructor. intros d (t & Ht & Hd). apply IH.
    pose proof (task_map_of_spec demo_tasks i) as Hs. rewrite Ht in Hs. destruct Hs as [<- Hs].
    by apply (H10 t Hs).
Defined.
