(* ===== verification/Ingestion.v ===== *)
(** * Document ingestion: [app/rag/ingestion.py]

    [ingest_document] parses, checks, chunks, embeds and stores one document.
    The parser, the embedder, the hash and the vector store are arguments: the
    store is a record of operations over an arbitrary state [W], so that the
    theorem says which calls are made and with what. *)

From S2P Require Import Prelude RagText RagTextProps RagSafety.
Local Open Scope Z_scope.

(** The exceptions that leave [ingest_document]. *)
Inductive ingest_error :=
| OwnerValueError
| ChunkValueError
| ProviderError (message : pystr)
| ValidationError (message : pystr)
| ConflictError (message : pystr)
| CollaboratorError (message : pystr).

Inductive SourceFormat := FmtPdf | FmtTxt | FmtMarkdown | FmtDocx | FmtXlsx | FmtHtml.

Record ParsedDocument := mkParsedDocument {
  pd_filename : pystr;
  pd_text : pystr;
  pd_source_format : SourceFormat;
  pd_page_count : option Z
}.

Record DocumentSummary := mkDocumentSummary {
  ds_document_id : pystr;
  ds_filename : pystr;
  ds_content_sha256 : pystr;
  ds_embedding_model : pystr;
  ds_embedding_dimensions : Z;
  ds_created_at : option Z;
  ds_chunk_count : Z;
  ds_text_characters : Z;
  ds_safety_verdict : option pystr
}.

Record DocumentPreview := mkDocumentPreview {
  dp_document_id : pystr;
  dp_filename : pystr;
  dp_content : pystr;
  dp_truncated : bool
}.

(** The arguments of [VectorStore.add_document]; [F] is [float]. *)
Record add_document_args (F : Type) := mkAddDocument {
  ad_source_path : pystr;
  ad_content_sha256 : pystr;
  ad_embedding_model : pystr;
  ad_embedding_dimensions : Z;
  ad_chunks : list pystr;
  ad_embeddings : list (list F);
  ad_owner_key_hash : pystr;
  ad_safety : option SafetyVerdict
}.
Arguments mkAddDocument {F}.
Arguments ad_source_path {F}.
Arguments ad_content_sha256 {F}.
Arguments ad_embedding_model {F}.
Arguments ad_embedding_dimensions {F}.
Arguments ad_chunks {F}.
Arguments ad_embeddings {F}.
Arguments ad_owner_key_hash {F}.
Arguments ad_safety {F}.

Record collaborators (F W : Type) := mkCollaborators {
  parse_document : option pystr -> list Z -> result ingest_error ParsedDocument;
  embed : list pystr -> W -> result ingest_error (list (list F)) * W;
  list_documents : pystr -> W -> result ingest_error (list DocumentSummary) * W;
  add_document : add_document_args F -> W -> result ingest_error pystr * W;
  get_document_summary : pystr -> pystr -> W -> result ingest_error (option DocumentSummary) * W;
  delete_document : pystr -> pystr -> W -> result ingest_error bool * W;
  get_document_preview : pystr -> pystr -> W -> result ingest_error (option DocumentPreview) * W
}.
Arguments parse_document {F W}.
Arguments embed {F W}.
Arguments list_documents {F W}.
Arguments add_document {F W}.
Arguments get_document_summary {F W}.
Arguments delete_document {F W}.
Arguments get_document_preview {F W}.

Inductive safety_mode := SafetyOff | SafetyFlag | SafetyStrict.
#[global] Instance safety_mode_eq_dec : EqDecision safety_mode.
Proof. solve_decision. Defined.

Record RAGIngestionService := mkIngestionService {
  is_embedding_model : pystr;
  is_embedding_dimensions : Z;
  is_chunk_size : Z;
  is_chunk_overlap : Z;
  is_max_pages : Z;
  is_max_text_characters : Z;
  is_safety_mode : safety_mode
}.

Record IngestedDocument := mkIngestedDocument {
  id_document_id : pystr;
  id_filename : pystr;
  id_text_characters : Z;
  id_chunk_count : Z;
  id_content_sha256 : pystr;
  id_embedding_model : pystr;
  id_created_at : option Z
}.

Section Ingest.
Context {F W : Type} (c : collaborators F W) (is_finite : F -> bool).
Context (lower : pystr -> pystr) (sha256 : pystr -> pystr).
Context (self : RAGIngestionService).

(** An awaited call: its error is raised, its effect on the world remains. *)
Definition await {A B} (m : result ingest_error A * W) (k : A -> W -> result ingest_error B * W)
  : result ingest_error B * W :=
  match m with
  | (Ok a, w) => k a w
  | (Err e, w) => (Err e, w)
  end.

Definition _validate_embeddings (embeddings : list (list F)) (expected_count : Z) : result ingest_error unit :=
  _ ← raise_if (negb (Z.of_nat (length embeddings) =? expected_count))
        (ProviderError (u "Embedding 服务返回的分块数量不一致。"));
  raise_if (bool_decide (length embeddings = 0%nat)
            || existsb (fun v => negb (Z.of_nat (length v) =? is_embedding_dimensions self)
                                 || negb (forallb is_finite v)) embeddings)
    (ProviderError (u "Embedding 服务返回的向量维度或数值不合法。")).

(** The checks and the chunks, before any call that changes the world. *)
Definition admit_document (content : list Z) (filename : option pystr) (owner_key_hash : pystr)
  : result ingest_error (ParsedDocument * option SafetyVerdict * list pystr) :=
  _ ← raise_if (negb (valid_owner_hash owner_key_hash)) OwnerValueError;
  parsed ← parse_document c filename content;
  _ ← raise_if (match pd_page_count parsed with Some n => is_max_pages self <? n | None => false end)
        (ProviderError (u "PDF 页数超过限制（最多 " ++ str_of_Z (is_max_pages self) ++ u " 页）。"));
  _ ← raise_if (is_max_text_characters self <? slen (pd_text parsed))
        (ProviderError (u "文档内容超过限制（最多 " ++ str_of_Z (is_max_text_characters self) ++ u " 字符）。"));
  let verdict := if decide (is_safety_mode self = SafetyOff) then None
                 else Some (evaluate_document lower (pd_text parsed)) in
  _ ← raise_if (match verdict with Some v => is_malicious v | None => false end)
        (ValidationError (u "文档包含疑似注入内容，已拒绝。"));
  chunks ← match chunk_text (pd_text parsed) (is_chunk_size self) (is_chunk_overlap self) with
           | Ok l => Ok l
           | Err _ => Err ChunkValueError
           end;
  _ ← raise_if (bool_decide (length chunks = 0%nat)) (ProviderError (u "文档没有可用于向量化的文本分块。"));
  Ok (parsed, verdict, chunks).

Definition ingest_document (content : list Z) (filename : option pystr) (owner_key_hash : pystr) (w : W)
  : result ingest_error IngestedDocument * W :=
  match admit_document content filename owner_key_hash with
  | Err e => (Err e, w)
  | Ok (parsed, verdict, chunks) =>
      await (list_documents c owner_key_hash w) (fun existing w =>
      if existsb (fun d => bool_decide (ds_filename d = pd_filename parsed)) existing
      then (Err (ConflictError (u "同名文档已存在，请更换文件名后再上传。")), w)
      else
        await (embed c chunks w) (fun embeddings w =>
        await (_validate_embeddings embeddings (Z.of_nat (length chunks)), w) (fun _ w =>
        let digest := sha256 (pd_text parsed) in
        await (add_document c (mkAddDocument (pd_filename parsed) digest (is_embedding_model self)
                 (is_embedding_dimensions self) chunks embeddings owner_key_hash verdict) w) (fun document_id w =>
        await (get_document_summary c document_id owner_key_hash w) (fun summary w =>
        (Ok (mkIngestedDocument document_id (pd_filename parsed) (slen (pd_text parsed))
               (Z.of_nat (length chunks)) digest (is_embedding_model self)
               (summary ≫= ds_created_at)), w))))))
  end.

Definition ingest_pdf := ingest_document.

(** The other operations hand the validated owner to the store. *)
Definition owned {A} (owner_key_hash : pystr) (op : pystr -> W -> result ingest_error A * W) (w : W)
  : result ingest_error A * W :=
  if valid_owner_hash owner_key_hash then op owner_key_hash w else (Err OwnerValueError, w).

Definition list_documents_of (owner_key_hash : pystr) : W -> result ingest_error (list DocumentSummary) * W :=
  owned owner_key_hash (list_documents c).
Definition delete_document_of (owner_key_hash document_id : pystr) : W -> result ingest_error bool * W :=
  owned owner_key_hash (fun owner => delete_document c owner document_id).
Definition get_document_preview_of (owner_key_hash document_id : pystr)
  : W -> result ingest_error (option DocumentPreview) * W :=
  owned owner_key_hash (fun owner => get_document_preview c owner document_id).

(** ** Theorems *)

Lemma await_ok {A B} m (k : A -> W -> result ingest_error B * W) b w' :
  await m k = (Ok b, w') -> exists a w, m = (Ok a, w) /\ k a w = (Ok b, w').
Proof. destruct m as [[a|e] w]; [eauto|done]. Qed.

Lemma validate_embeddings_spec embeddings n : _validate_embeddings embeddings n = Ok tt ->
  Z.of_nat (length embeddings) = n /\
  Forall (fun v => Z.of_nat (length v) = is_embedding_dimensions self /\ forallb is_finite v = true) embeddings.
Proof.
  unfold _validate_embeddings. intros ([] & Hn%raise_if_ok & H%raise_if_ok)%bind_ok.
  apply orb_false_iff in H as [_ H]. bools. split; [done|]. apply Forall_forall. intros v Hv.
  assert (Hf : (negb (Z.of_nat (length v) =? is_embedding_dimensions self) || negb (forallb is_finite v)) = false).
  { apply not_true_iff_false. intros Ht. apply not_true_iff_false in H. apply H, existsb_exists.
    exists v. split; [by apply list_elem_of_In|done]. }
  bools. by split.
Qed.

Lemma admit_document_spec content filename owner parsed verdict chunks :
  admit_document content filename owner = Ok (parsed, verdict, chunks) ->
  valid_owner_hash owner = true /\ parse_document c filename content = Ok parsed /\
  slen (pd_text parsed) <= is_max_text_characters self /\
  (forall n, pd_page_count parsed = Some n -> n <= is_max_pages self) /\
  verdict = (if decide (is_safety_mode self = SafetyOff) then None
             else Some (evaluate_document lower (pd_text parsed))) /\
  (forall v, verdict = Some v -> level v <> Malicious) /\
  chunk_text (pd_text parsed) (is_chunk_size self) (is_chunk_overlap self) = Ok chunks /\ chunks <> [].
Proof.
  unfold admit_document. intros ([] & Ho%raise_if_ok & H)%bind_ok.
  apply bind_ok in H as (p & Hp & H). apply bind_ok in H as ([] & Hpages%raise_if_ok & H).
  apply bind_ok in H as ([] & Htext%raise_if_ok & H). apply bind_ok in H as ([] & Hsafe%raise_if_ok & H).
  apply bind_ok in H as (l & Hl & H). apply bind_ok in H as ([] & Hne%raise_if_ok & H).
  injection H as <- <- <-. bools. split_and!; try done.
  - intros n Hn. rewrite Hn in Hpages. by bools.
  - intros v Hv. rewrite Hv in Hsafe. unfold is_malicious in Hsafe. by bools.
  - by destruct (chunk_text _ _ _); simplify_eq.
  - intros ->. by apply Hne.
Qed.

(** What is stored is what was checked: a document is ingested only through
    one [add_document] call, whose chunks cover the parsed text within the limits,
    with one finite embedding of the configured dimension per chunk, under a name
    that the owner did not use before, and, unless the safety mode is off, with
    the safety verdict of the text, which is not malicious. *)
Theorem ingest_stores_checked content filename owner w doc w' :
  ingest_document content filename owner w = (Ok doc, w') ->
  exists args existing w1 w2 w3,
    add_document c args w2 = (Ok (id_document_id doc), w3) /\
    list_documents c owner w = (Ok existing, w1) /\
    valid_owner_hash owner = true /\ ad_owner_key_hash args = owner /\
    Forall (fun d => ds_filename d <> ad_source_path args) existing /\
    exists parsed, parse_document c filename content = Ok parsed /\
      ad_source_path args = pd_filename parsed /\ ad_content_sha256 args = sha256 (pd_text parsed) /\
      slen (pd_text parsed) <= is_max_text_characters self /\
      rebuild (Z.to_nat (is_chunk_overlap self)) (ad_chunks args) = pd_text parsed /\
      Forall (fun x => 0 < slen x <= is_chunk_size self) (ad_chunks args) /\
      length (ad_embeddings args) = length (ad_chunks args) /\
      Forall (fun v => Z.of_nat (length v) = is_embedding_dimensions self /\ forallb is_finite v = true)
        (ad_embeddings args) /\
      (is_safety_mode self <> SafetyOff ->
         ad_safety args = Some (evaluate_document lower (pd_text parsed)) /\
         ¬ rule_occurs SevHigh (_normalize lower (pd_text parsed))).
Proof.
  unfold ingest_document. destruct (admit_document _ _ _) as [[[parsed verdict] chunks]|e] eqn:Had; [|done].
  apply admit_document_spec in Had as (Ho & Hp & Htext & _ & Hv & Hsafe & Hch & Hne).
  intros (existing & w1 & Hlist & H)%await_ok. destruct (existsb _ existing) eqn:Hex; [done|].
  apply await_ok in H as (embeddings & w2 & Hemb & H). apply await_ok in H as ([] & w2' & Hval & H).
  injection Hval as Hval <-. apply validate_embeddings_spec in Hval as [Hcount Hdims].
  apply await_ok in H as (i & w3 & Hadd & H). apply await_ok in H as (summary & w4 & _ & [= <- <-]).
  eexists _, existing, w1, w2, w3. split; [exact Hadd|]. split_and!; [done|done|done| |].
  - apply Forall_forall. intros d Hd Heq. apply not_true_iff_false in Hex. apply Hex, existsb_exists.
    exists d. split; [by apply list_elem_of_In|by apply bool_decide_eq_true].
  - exists parsed. pose proof (chunk_text_spec (pd_text parsed) (is_chunk_size self) (is_chunk_overlap self)) as Hc.
    rewrite Hch in Hc. destruct Hc as (_ & Hre & Hall).
    split_and!; [done|done|done|done|done| |cbn; lia|done|].
    + apply Forall_forall. intros x (k & Hk)%list_elem_of_lookup. by destruct (Hall k x Hk).
    + intros Hmode. rewrite decide_False in Hv by done. split; [done|].
      intros Hocc. apply (Hsafe _ Hv). by apply evaluate_document_spec.
Qed.
End Ingest.

(** ** One document *)

Definition demo_collaborators : collaborators Z (list pystr) :=
  mkCollaborators Z (list pystr)
    (fun name _ => Ok (mkParsedDocument (default (u "document.pdf") name) (u "abcdefghij") FmtPdf (Some 1)))
    (fun chunks w => (Ok ((fun _ => [1; 2]) <$> chunks), w))
    (fun _ w => (Ok [], w))
    (fun args w => (Ok (u "doc-1"), ad_chunks args ++ w))
    (fun _ _ w => (Ok None, w))
    (fun _ _ w => (Ok false, w))
    (fun _ _ w => (Ok None, w)).
Definition demo_service : RAGIngestionService := mkIngestionService (u "model") 2 4 1 10 1000 SafetyStrict.
Definition demo_ingest :=
  ingest_document demo_collaborators (fun _ => true) ascii_lower (fun s => s) demo_service [] (Some (u "a.pdf"))
    demo_owner [].
Definition demo_document : IngestedDocument := mkIngestedDocument (u "doc-1") (u "a.pdf") 10 3 (u "abcdefghij") (u "model") None.
Lemma demo_ingested : demo_ingest = (Ok demo_document, [u "abcd"; u "defg"; u "ghij"]).
Proof. vm_compute. reflexivity. Qed.

Lemma ingest_stores_checked_witness :
  exists args existing w1 w2 w3,
    add_document demo_collaborators args w2 = (Ok (u "doc-1"), w3) /\
    list_documents demo_collaborators demo_owner [] = (Ok existing, w1) /\
    valid_owner_hash demo_owner = true /\ ad_owner_key_hash args = demo_owner /\
    Forall (fun d => ds_filename d <> ad_source_path args) existing /\
    exists parsed, parse_document demo_collaborators (Some (u "a.pdf")) [] = Ok parsed /\
      ad_source_path args = pd_filename parsed /\ ad_content_sha256 args = pd_text parsed /\
      slen (pd_text parsed) <= 1000 /\
      rebuild 1 (ad_chunks args) = pd_text parsed /\
      Forall (fun x => 0 < slen x <= 4) (ad_chunks args) /\
      length (ad_embeddings args) = length (ad_chunks args) /\
      Forall (fun v => Z.of_nat (length v) = 2 /\ forallb (fun _ => true) v = true) (ad_embeddings args) /\
      (SafetyStrict <> SafetyOff ->
         ad_safety args = Some (evaluate_document ascii_lower (pd_text parsed)) /\
         ¬ rule_occurs SevHigh (_normalize ascii_lower (pd_text parsed))).
Proof.
  exact (ingest_stores_checked demo_collaborators (fun _ => true) ascii_lower (fun s => s) demo_service
    [] (Some (u "a.pdf")) demo_owner [] demo_document _ demo_ingested).
Defined.
