(* ===== verification/RagQueue.v ===== *)
(** * The ingestion queue: [app/rag/queue.py]

    Requests, the worker task and [stop] interleave at the awaits of the code.
    Each stretch of code between awaits is one operation on [queue_state]; the
    step relation [step] says when each of them can run.  The outcome of an
    ingestion and the current time are inputs of the steps. *)

From S2P Require Import Prelude RagText.
Local Open Scope Z_scope.

Module IngestionTaskStatus.
Inductive t := QUEUED | PROCESSING | COMPLETED | FAILED.
#[global] Instance eq_dec : EqDecision t.
Proof. solve_decision. Defined.
End IngestionTaskStatus.

Record IngestionTask := mkIngestionTask {
  it_task_id : pystr;
  it_document_id : option pystr;
  it_filename : pystr;
  it_status : IngestionTaskStatus.t;
  it_created_at : Z;
  it_updated_at : Z;
  it_owner_key_hash : pystr;
  it_error : option pystr;
  it_error_code : option pystr
}.

Record WorkItem := mkWorkItem {
  wi_task_id : pystr;
  wi_content : list Z;
  wi_filename : option pystr;
  wi_owner_key_hash : pystr
}.

(** [_worker_task]: [None], waiting in [queue.get()], in [ingest_document], done *)
Inductive worker := NoWorker | Waiting | Working (item : WorkItem) | Done.

Record queue_state := mkQueue {
  q_items : list (option WorkItem);
  q_tasks : list (pystr * IngestionTask);
  q_worker : worker;
  q_accepting : bool;
  q_stop_requested : bool;
  (** calls of [stop] that await the worker *)
  q_stopping : nat
}.

(** The exception classes that [_safe_error_message] tells apart. *)
Inductive ingest_exception :=
| ExcDocumentValidation | ExcConflict | ExcProviderUnavailable | ExcProvider | ExcStorageUnavailable | ExcOther.

Definition _safe_error_message (e : ingest_exception) : pystr :=
  match e with
  | ExcDocumentValidation => u "PDF 无法解析或不包含可提取文本。"
  | ExcConflict => u "文档与当前知识库中的已有文档冲突。"
  | ExcProviderUnavailable => u "Embedding 服务暂时不可用，请稍后重试。"
  | ExcProvider => u "Embedding 服务处理失败，请稍后重试。"
  | ExcStorageUnavailable => u "知识库存储暂时不可用，请稍后重试。"
  | ExcOther => u "PDF 入库失败，请稍后重试。"
  end.

Definition _safe_error_code (e : ingest_exception) : pystr :=
  match e with
  | ExcDocumentValidation => u "RAG_DOCUMENT_INVALID"
  | ExcConflict => u "CONFLICT_ERROR"
  | ExcProviderUnavailable => u "RAG_EMBEDDING_UNAVAILABLE"
  | ExcProvider => u "RAG_EMBEDDING_FAILED"
  | ExcStorageUnavailable => u "RAG_STORAGE_UNAVAILABLE"
  | ExcOther => u "RAG_INGESTION_FAILED"
  end.

Inductive queue_error := NotRunning | OwnerValueError | QueueFull | CannotRestart.

(** How [ingest_document] ends. *)
Inductive ingest_outcome := Ingested (document_id : pystr) | Failed (e : ingest_exception) | Cancelled.

Section Queue.
Context (max_queue_size : Z).

Definition init : queue_state := mkQueue [] [] NoWorker false false 0.

Definition is_running (s : queue_state) : bool :=
  match q_worker s with Waiting | Working _ => true | _ => false end.

Definition with_tasks (tasks : list (pystr * IngestionTask)) (s : queue_state) : queue_state :=
  mkQueue (q_items s) tasks (q_worker s) (q_accepting s) (q_stop_requested s) (q_stopping s).

(** [asyncio.Queue.full]: a maximum of zero or less means no bound. *)
Definition full (s : queue_state) : bool :=
  (0 <? max_queue_size) && (max_queue_size <=? Z.of_nat (length (q_items s))).

Definition start (s : queue_state) : result queue_error queue_state :=
  if is_running s then Ok s
  else if q_stop_requested s then Err CannotRestart
  else Ok (mkQueue (q_items s) (q_tasks s) Waiting true (q_stop_requested s) (q_stopping s)).

Definition new_task (now : Z) (task_id : pystr) (filename : option pystr) (owner : pystr) : IngestionTask :=
  mkIngestionTask task_id None
    (match filename with Some ((_ :: _) as f) => f | _ => u "document.pdf" end)
    IngestionTaskStatus.QUEUED now now owner None None.

(** [submit]; [task_id] is the fresh [uuid4].  The task that is registered and
    removed again when the queue is full is never seen. *)
Definition submit (now : Z) (task_id : pystr) (content : list Z) (filename : option pystr) (owner : pystr)
    (s : queue_state) : result queue_error (IngestionTask * queue_state) :=
  _ ← raise_if (negb (q_accepting s) || negb (is_running s)) NotRunning;
  _ ← raise_if (negb (valid_owner_hash owner)) OwnerValueError;
  _ ← raise_if (full s) QueueFull;
  let task := new_task now task_id filename owner in
  Ok (task, mkQueue (q_items s ++ [Some (mkWorkItem task_id content filename owner)])
              (dict_set task_id task (q_tasks s)) (q_worker s) (q_accepting s) (q_stop_requested s)
              (q_stopping s)).

Definition get_task (task_id owner : pystr) (s : queue_state) : result queue_error (option IngestionTask) :=
  match dict_get task_id (q_tasks s) with
  | None => Ok None
  | Some task =>
      _ ← raise_if (negb (valid_owner_hash owner)) OwnerValueError;
      Ok (if bool_decide (it_owner_key_hash task = owner) then Some task else None)
  end.

Definition update (now : Z) (status : IngestionTaskStatus.t) (document_id error error_code : option pystr)
    (t : IngestionTask) : IngestionTask :=
  mkIngestionTask (it_task_id t)
    (match document_id with Some d => Some d | None => it_document_id t end)
    (it_filename t) status (it_created_at t) now (it_owner_key_hash t) error error_code.

Definition _update_task (now : Z) (task_id : pystr) (status : IngestionTaskStatus.t)
    (document_id error error_code : option pystr) (tasks : list (pystr * IngestionTask))
  : list (pystr * IngestionTask) :=
  match dict_get task_id tasks with
  | None => tasks
  | Some t => dict_set task_id (update now status document_id error error_code t) tasks
  end.

Definition ingestion_failed : pystr := u "RAG_INGESTION_FAILED".
Definition stopped_message : pystr := u "RAG ingestion worker stopped".
Definition discarded_message : pystr := u "RAG ingestion worker stopped before processing".

(** [_worker] from [queue.get()] to the await in [_process] *)
Definition worker_get (now : Z) (s : queue_state) : option queue_state :=
  match q_worker s, q_items s with
  | Waiting, None :: items =>
      Some (mkQueue items (q_tasks s) Done (q_accepting s) (q_stop_requested s) (q_stopping s))
  | Waiting, Some item :: items =>
      Some (mkQueue items
              (_update_task now (wi_task_id item) IngestionTaskStatus.PROCESSING None None None (q_tasks s))
              (Working item) (q_accepting s) (q_stop_requested s) (q_stopping s))
  | _, _ => None
  end.

(** The rest of [_process] *)
Definition worker_finish (now : Z) (outcome : ingest_outcome) (s : queue_state) : option queue_state :=
  match q_worker s with
  | Working item =>
      let i := wi_task_id item in
      Some (match outcome with
            | Ingested d =>
                mkQueue (q_items s)
                  (_update_task now i IngestionTaskStatus.COMPLETED (Some d) None None (q_tasks s))
                  Waiting (q_accepting s) (q_stop_requested s) (q_stopping s)
            | Failed e =>
                mkQueue (q_items s)
                  (_update_task now i IngestionTaskStatus.FAILED None (Some (_safe_error_message e))
                     (Some (_safe_error_code e)) (q_tasks s))
                  Waiting (q_accepting s) (q_stop_requested s) (q_stopping s)
            | Cancelled =>
                mkQueue (q_items s) (q_tasks s) Done (q_accepting s) (q_stop_requested s) (q_stopping s)
            end)
  | _ => None
  end.

(** The worker task is cancelled while it waits for work. *)
Definition worker_cancelled (s : queue_state) : option queue_state :=
  match q_worker s with
  | Waiting => Some (mkQueue (q_items s) (q_tasks s) Done (q_accepting s) (q_stop_requested s) (q_stopping s))
  | _ => None
  end.

Definition _discard_queued_work (now : Z) (items : list (option WorkItem)) (tasks : list (pystr * IngestionTask))
  : list (pystr * IngestionTask) :=
  foldl (fun tasks item =>
    match item with
    | Some wi => _update_task now (wi_task_id wi) IngestionTaskStatus.FAILED None (Some discarded_message)
                   (Some ingestion_failed) tasks
    | None => tasks
    end) tasks items.

Definition unfinished (t : IngestionTask) : bool :=
  match it_status t with
  | IngestionTaskStatus.QUEUED | IngestionTaskStatus.PROCESSING => true
  | _ => false
  end.

Definition _mark_unfinished_tasks_failed (now : Z) (tasks : list (pystr * IngestionTask))
  : list (pystr * IngestionTask) :=
  (fun p => if unfinished p.2
            then (p.1, mkIngestionTask (it_task_id p.2) (it_document_id p.2) (it_filename p.2)
                         IngestionTaskStatus.FAILED (it_created_at p.2) now (it_owner_key_hash p.2)
                         (Some stopped_message) (Some ingestion_failed))
            else p) <$> tasks.

(** [stop] up to [await worker_task]; the queue has been emptied, so that
    [put(None)] does not wait. *)
Definition stop_begin (now : Z) (s : queue_state) : queue_state :=
  match q_worker s with
  | NoWorker =>
      mkQueue (q_items s) (_mark_unfinished_tasks_failed now (q_tasks s)) NoWorker false true (q_stopping s)
  | w =>
      mkQueue (if is_running s then [None] else []) (_discard_queued_work now (q_items s) (q_tasks s)) w
        false true (S (q_stopping s))
  end.

(** The [finally] of [stop], once the worker task has ended. *)
Definition stop_end (now : Z) (s : queue_state) : option queue_state :=
  match q_stopping s, is_running s with
  | S n, false =>
      Some (mkQueue (q_items s) (_mark_unfinished_tasks_failed now (q_tasks s)) NoWorker (q_accepting s)
              (q_stop_requested s) n)
  | _, _ => None
  end.

(** ** Steps *)

Inductive label :=
| LStart
| LSubmit (task_id : pystr)
| LTake (task_id : pystr)
| LSentinel
| LFinish (task_id : pystr) (outcome : ingest_outcome)
| LCancelled
| LStopBegin
| LStopEnd.

Inductive step (s : queue_state) : label -> queue_state -> Prop :=
| StepStart s' : start s = Ok s' -> step s LStart s'
| StepSubmit now i content filename owner task s' :
    i ∉ (q_tasks s).*1 -> submit now i content filename owner s = Ok (task, s') -> step s (LSubmit i) s'
| StepTake now item items s' : q_items s = Some item :: items -> worker_get now s = Some s' ->
    step s (LTake (wi_task_id item)) s'
| StepSentinel now items s' : q_items s = None :: items -> worker_get now s = Some s' -> step s LSentinel s'
| StepFinish now item outcome s' : q_worker s = Working item -> worker_finish now outcome s = Some s' ->
    step s (LFinish (wi_task_id item) outcome) s'
| StepCancelled s' : worker_cancelled s = Some s' -> step s LCancelled s'
| StepStopBegin now : step s LStopBegin (stop_begin now s)
| StepStopEnd now s' : stop_end now s = Some s' -> step s LStopEnd s'.

Inductive runs : list label -> queue_state -> Prop :=
| RunsNil : runs [] init
| RunsSnoc tr s l s' : runs tr s -> step s l s' -> runs (tr ++ [l]) s'.
End Queue.

(** * Theorems *)

Definition item_ids (items : list (option WorkItem)) : list pystr :=
  omap (fun x => wi_task_id <$> x) items.

Definition status_of (tasks : list (pystr * IngestionTask)) (i : pystr) : option IngestionTaskStatus.t :=
  it_status <$> dict_get i tasks.

(** One task over time: who it belongs to is fixed, and its status only moves
    forward. *)
Inductive status_next : IngestionTaskStatus.t -> IngestionTaskStatus.t -> Prop :=
| QueuedProcessing : status_next IngestionTaskStatus.QUEUED IngestionTaskStatus.PROCESSING
| QueuedFailed : status_next IngestionTaskStatus.QUEUED IngestionTaskStatus.FAILED
| ProcessingCompleted : status_next IngestionTaskStatus.PROCESSING IngestionTaskStatus.COMPLETED
| ProcessingFailed : status_next IngestionTaskStatus.PROCESSING IngestionTaskStatus.FAILED.

Definition advances (t t' : IngestionTask) : Prop :=
  t' = t \/
  it_task_id t' = it_task_id t /\ it_filename t' = it_filename t /\ it_created_at t' = it_created_at t /\
  it_owner_key_hash t' = it_owner_key_hash t /\ status_next (it_status t) (it_status t').

Lemma update_task_get now i st d e c tasks j :
  dict_get j (_update_task now i st d e c tasks) =
    if decide (j = i) then update now st d e c <$> dict_get i tasks else dict_get j tasks.
Proof.
  unfold _update_task. destruct (dict_get i tasks) as [t|] eqn:Ht.
  - rewrite dict_get_set. by case_decide.
  - case_decide; [by subst|done].
Qed.

Lemma update_task_keys now i st d e c tasks : (_update_task now i st d e c tasks).*1 = tasks.*1.
Proof.
  unfold _update_task. destruct (dict_get i tasks) as [t|] eqn:Ht; [|done].
  generalize (update now st d e c t). intros t'. revert t Ht.
  induction tasks as [|[k v] tasks IH]; intros t Ht; [done|]. simpl in *. case_decide; [done|].
  rewrite fmap_cons. f_equal. by eapply IH.
Qed.

Abbreviation discarded now := (update now IngestionTaskStatus.FAILED None (Some discarded_message) (Some ingestion_failed)).

Lemma discard_get now items tasks j : NoDup (item_ids items) ->
  dict_get j (_discard_queued_work now items tasks) =
    if decide (j ∈ item_ids items) then discarded now <$> dict_get j tasks else dict_get j tasks.
Proof.
  unfold _discard_queued_work. revert tasks.
  induction items as [|[wi|] items IH]; intros tasks Hnd; simpl in *; [done| |by apply IH].
  apply NoDup_cons in Hnd as [Hni Hnd]. rewrite IH, update_task_get by done.
  destruct (decide (j = wi_task_id wi)) as [->|Hne].
  - rewrite (decide_False (P := _ ∈ item_ids items)), decide_True by (done || left). done.
  - destruct (decide (j ∈ item_ids items)); [rewrite decide_True by (by right)|rewrite decide_False by set_solver]; done.
Qed.

Lemma discard_keys now items tasks : (_discard_queued_work now items tasks).*1 = tasks.*1.
Proof.
  unfold _discard_queued_work. revert tasks. induction items as [|[wi|] items IH]; intros tasks; simpl; [done| |done].
  by rewrite IH, update_task_keys.
Qed.

Definition mark (now : Z) (t : IngestionTask) : IngestionTask :=
  if unfinished t then
    mkIngestionTask (it_task_id t) (it_document_id t) (it_filename t) IngestionTaskStatus.FAILED (it_created_at t)
      now (it_owner_key_hash t) (Some stopped_message) (Some ingestion_failed)
  else t.

Lemma mark_get now tasks j : dict_get j (_mark_unfinished_tasks_failed now tasks) = mark now <$> dict_get j tasks.
Proof.
  unfold _mark_unfinished_tasks_failed, mark. induction tasks as [|[k t] tasks IH]; [done|].
  cbn [fmap list_fmap fst snd]. destruct (unfinished t) eqn:Hu; cbn [dict_get];
    (case_decide; [simpl; by rewrite Hu|exact IH]).
Qed.

Lemma mark_keys now tasks : (_mark_unfinished_tasks_failed now tasks).*1 = tasks.*1.
Proof.
  unfold _mark_unfinished_tasks_failed. induction tasks as [|[k t] tasks IH]; [done|].
  cbn [fmap list_fmap fst snd]. destruct (unfinished t); cbn [fst]; f_equal; exact IH.
Qed.

Lemma mark_finished now t : unfinished (mark now t) = false.
Proof. unfold mark. destruct (unfinished t) eqn:Hu; [done|exact Hu]. Qed.

Lemma mark_advances now t : advances t (mark now t).
Proof.
  unfold mark, advances. destruct (unfinished t) eqn:Hu; [right|by left]. simpl. split_and!; try done.
  unfold unfinished in Hu. destruct (it_status t); try done; constructor.
Qed.

(** ** The invariant *)

Definition submitted (tr : list label) : list pystr :=
  omap (fun l => match l with LSubmit i => Some i | _ => None end) tr.
Definition taken (tr : list label) : list pystr :=
  omap (fun l => match l with LTake i => Some i | _ => None end) tr.

Record queue_inv (tr : list label) (s : queue_state) : Prop := {
  qi_nodup : NoDup (submitted tr);
  qi_keys : (q_tasks s).*1 = submitted tr;
  qi_ids : forall i t, dict_get i (q_tasks s) = Some t -> it_task_id t = i;
  qi_order : exists rest, submitted tr = taken tr ++ item_ids (q_items s) ++ rest /\
    (q_stop_requested s = false -> rest = []);
  qi_items : forall i, i ∈ item_ids (q_items s) -> status_of (q_tasks s) i = Some IngestionTaskStatus.QUEUED;
  qi_queued : forall i, status_of (q_tasks s) i = Some IngestionTaskStatus.QUEUED -> i ∈ item_ids (q_items s);
  qi_working : forall item, q_worker s = Working item ->
    status_of (q_tasks s) (wi_task_id item) = Some IngestionTaskStatus.PROCESSING;
  qi_stopped : q_stop_requested s = true -> q_accepting s = false /\ item_ids (q_items s) = [];
  qi_sentinel : None ∈ q_items s -> q_stop_requested s = true;
  qi_stopping : q_stopping s <> 0%nat -> q_stop_requested s = true;
  qi_fresh : q_worker s = NoWorker -> q_stop_requested s = false -> q_items s = [] /\ q_tasks s = [];
  qi_settled : q_worker s = NoWorker -> q_stop_requested s = true ->
    forall i t, dict_get i (q_tasks s) = Some t -> unfinished t = false
}.

Lemma queue_inv_init : queue_inv [] init.
Proof. constructor; simpl; try done; try set_solver. constructor. Qed.

Lemma queue_items_nodup tr s : queue_inv tr s -> NoDup (item_ids (q_items s)).
Proof.
  intros H. destruct (qi_order tr s H) as (rest & Heq & _). pose proof (qi_nodup tr s H) as Hnd.
  rewrite Heq in Hnd. apply NoDup_app in Hnd as (_ & _ & Hnd). by apply NoDup_app in Hnd as (? & _).
Qed.

Lemma status_update now i st d e c tasks j :
  status_of (_update_task now i st d e c tasks) j =
    if decide (j = i) then (fun _ => st) <$> status_of tasks i else status_of tasks j.
Proof.
  unfold status_of. rewrite update_task_get. case_decide; [|done]. by destruct (dict_get i tasks).
Qed.

Lemma status_mark now tasks j : status_of (_mark_unfinished_tasks_failed now tasks) j <> Some IngestionTaskStatus.QUEUED /\
  status_of (_mark_unfinished_tasks_failed now tasks) j <> Some IngestionTaskStatus.PROCESSING.
Proof.
  unfold status_of. rewrite mark_get. destruct (dict_get j tasks) as [t|]; [|done]. simpl.
  pose proof (mark_finished now t) as Hm. unfold unfinished in Hm. by destruct (it_status (mark now t)).
Qed.

Lemma status_discard now items tasks j : NoDup (item_ids items) ->
  status_of (_discard_queued_work now items tasks) j =
    if decide (j ∈ item_ids items) then (fun _ => IngestionTaskStatus.FAILED) <$> status_of tasks j
    else status_of tasks j.
Proof. intros H. unfold status_of. rewrite discard_get by done. case_decide; [|done]. by destruct (dict_get j tasks). Qed.

Lemma submitted_app a b : submitted (a ++ b) = submitted a ++ submitted b.
Proof. apply omap_app. Qed.
Lemma taken_app a b : taken (a ++ b) = taken a ++ taken b.
Proof. apply omap_app. Qed.

(** Steps that neither submit nor take leave the history as it is. *)
Lemma history_same tr l : submitted [l] = [] -> taken [l] = [] ->
  submitted (tr ++ [l]) = submitted tr /\ taken (tr ++ [l]) = taken tr.
Proof. intros H1 H2. by rewrite submitted_app, taken_app, H1, H2, !app_nil_r. Qed.

Lemma item_ids_app a b : item_ids (a ++ b) = item_ids a ++ item_ids b.
Proof. apply omap_app. Qed.

Section Preservation.
Context (max_queue_size : Z) (tr : list label) (s : queue_state) (Hs : queue_inv tr s).

(** Closes the conditions that a step does not touch. *)
Ltac keep := first [exact (qi_nodup _ _ Hs)|exact (qi_keys _ _ Hs)|exact (qi_ids _ _ Hs)|exact (qi_order _ _ Hs)
  |exact (qi_items _ _ Hs)|exact (qi_queued _ _ Hs)|exact (qi_working _ _ Hs)
  |exact (qi_stopped _ _ Hs)|exact (qi_sentinel _ _ Hs)|exact (qi_stopping _ _ Hs)|exact (qi_fresh _ _ Hs)|exact (qi_settled _ _ Hs)].

(** The history of a step that neither submits nor takes. *)
Ltac same_history l :=
  let H1 := fresh in let H2 := fresh in
  destruct (history_same tr l eq_refl eq_refl) as [H1 H2];
  constructor; rewrite ?H1, ?H2; cbn [q_items q_tasks q_worker q_accepting q_stop_requested q_stopping];
  try keep; try done; try (intros; congruence).

Lemma queue_start_inv s' : start s = Ok s' -> queue_inv (tr ++ [LStart]) s'.
Proof.
  unfold start. destruct (is_running s) eqn:Hr; [intros [= <-]; by same_history LStart|].
  intros H. assert (s' = mkQueue (q_items s) (q_tasks s) Waiting true (q_stop_requested s) (q_stopping s)) as ->
    by (destruct (q_stop_requested s); congruence).
  assert (Hst : q_stop_requested s = false) by (destruct (q_stop_requested s); congruence).
  same_history LStart.
Qed.

Lemma submit_inv now i content filename owner task s' :
  i ∉ (q_tasks s).*1 -> submit max_queue_size now i content filename owner s = Ok (task, s') ->
  queue_inv (tr ++ [LSubmit i]) s'.
Proof.
  unfold submit. intros Hi ([] & Hrun%raise_if_ok & H)%bind_ok. apply bind_ok in H as ([] & _ & H).
  apply bind_ok in H as ([] & _ & [= <- <-]). bools.
  assert (Hst : q_stop_requested s = false).
  { destruct (q_stop_requested s) eqn:Hst; [|done]. destruct (qi_stopped _ _ Hs Hst). congruence. }
  assert (Hg : dict_get i (q_tasks s) = None) by (apply eq_None_not_Some; by rewrite dict_get_mem).
  assert (Hget : forall j, status_of (dict_set i (new_task now i filename owner) (q_tasks s)) j =
            if decide (j = i) then Some IngestionTaskStatus.QUEUED else status_of (q_tasks s) j).
  { intros j. unfold status_of. rewrite dict_get_set. by case_decide. }
  destruct (qi_order _ _ Hs) as (rest & Hord & Hrest). rewrite (Hrest Hst), app_nil_r in Hord.
  constructor; cbn [q_items q_tasks q_worker q_accepting q_stop_requested q_stopping];
    rewrite ?submitted_app, ?taken_app, ?item_ids_app; simpl; rewrite ?app_nil_r.
  - rewrite <- (qi_keys _ _ Hs). apply NoDup_app. split; [rewrite (qi_keys _ _ Hs); keep|].
    split; [set_solver|apply NoDup_singleton].
  - rewrite dict_set_fresh by done. by rewrite fmap_app, (qi_keys _ _ Hs).
  - intros j t. rewrite dict_get_set. case_decide; [|keep || apply (qi_ids _ _ Hs)]. by intros [= <-].
  - exists []. rewrite Hord, app_nil_r, <- app_assoc. done.
  - intros j. rewrite Hget. case_decide; [done|]. intros [Hj|Hj]%elem_of_app; [by apply (qi_items _ _ Hs)|set_solver].
  - intros j. rewrite Hget. case_decide; [subst; set_solver|]. intros Hj%(qi_queued _ _ Hs). set_solver.
  - intros item Hw. rewrite Hget. case_decide; [|by apply (qi_working _ _ Hs)]. subst i.
    apply (qi_working _ _ Hs) in Hw. unfold status_of in Hw. by rewrite Hg in Hw.
  - congruence.
  - intros [Hin|Hin]%elem_of_app; [by apply (qi_sentinel _ _ Hs)|set_solver].
  - keep.
  - intros Hw. unfold is_running in *. by rewrite Hw in *.
  - congruence.
Qed.

Lemma take_inv now item items s' : q_items s = Some item :: items -> worker_get now s = Some s' ->
  queue_inv (tr ++ [LTake (wi_task_id item)]) s'.
Proof.
  intros Hitems. unfold worker_get. rewrite Hitems. destruct (q_worker s) eqn:Hw; try done. intros [= <-].
  pose proof (queue_items_nodup _ _ Hs) as Hnd. rewrite Hitems in Hnd. simpl in Hnd.
  apply NoDup_cons in Hnd as [Hni Hnd].
  destruct (qi_order _ _ Hs) as (rest & Hord & Hrest). rewrite Hitems in Hord. simpl in Hord.
  pose proof (qi_items _ _ Hs) as Hq. rewrite Hitems in Hq. simpl in Hq.
  pose proof (qi_queued _ _ Hs) as Hq'. rewrite Hitems in Hq'. simpl in Hq'.
  constructor; cbn [q_items q_tasks q_worker q_accepting q_stop_requested q_stopping];
    rewrite ?submitted_app, ?taken_app; simpl; rewrite ?app_nil_r.
  - keep.
  - rewrite update_task_keys. keep.
  - intros j t. rewrite update_task_get. case_decide; [|apply (qi_ids _ _ Hs)]. subst j.
    destruct (dict_get _ _) as [t0|] eqn:Ht; [|done]. intros [= <-]. simpl. by apply (qi_ids _ _ Hs).
  - exists rest. rewrite Hord. by rewrite <- app_assoc.
  - intros j Hj. rewrite status_update. rewrite decide_False by set_solver. apply Hq. by right.
  - intros j. rewrite status_update. case_decide; [|].
    + destruct (status_of (q_tasks s) (wi_task_id item)); done.
    + intros Hj%Hq'. set_solver.
  - intros item' [= <-]. rewrite status_update, decide_True, Hq by (done || left). done.
  - intros Hst. destruct (qi_stopped _ _ Hs Hst) as [_ Hno]. rewrite Hitems in Hno. done.
  - intros Hin. apply (qi_sentinel _ _ Hs). rewrite Hitems. by right.
  - keep.
  - done.
  - done.
Qed.

Lemma sentinel_inv now items s' : q_items s = None :: items -> worker_get now s = Some s' ->
  queue_inv (tr ++ [LSentinel]) s'.
Proof.
  intros Hitems. unfold worker_get. rewrite Hitems. destruct (q_worker s) eqn:Hw; try done. intros [= <-].
  assert (Hids : item_ids (q_items s) = item_ids items) by (by rewrite Hitems).
  same_history LSentinel; rewrite <- ?Hids; try keep.
  intros Hin. apply (qi_sentinel _ _ Hs). rewrite Hitems. by right.
Qed.

Lemma finish_inv now item outcome s' : q_worker s = Working item -> worker_finish now outcome s = Some s' ->
  queue_inv (tr ++ [LFinish (wi_task_id item) outcome]) s'.
Proof.
  intros Hw. unfold worker_finish. rewrite Hw. intros [= <-].
  pose proof (qi_working _ _ Hs _ Hw) as Hst.
  assert (Hgen : forall st d e c, st <> IngestionTaskStatus.QUEUED ->
    queue_inv (tr ++ [LFinish (wi_task_id item) outcome])
      (mkQueue (q_items s) (_update_task now (wi_task_id item) st d e c (q_tasks s)) Waiting (q_accepting s)
         (q_stop_requested s) (q_stopping s))).
  { intros st d e c Hne. same_history (LFinish (wi_task_id item) outcome).
    - rewrite update_task_keys. keep.
    - intros j t. rewrite update_task_get. case_decide; [|apply (qi_ids _ _ Hs)]. subst j.
      destruct (dict_get _ _) as [t0|] eqn:Ht; [|done]. intros [= <-]. simpl. by apply (qi_ids _ _ Hs).
    - intros j Hj. rewrite status_update. case_decide; [|by apply (qi_items _ _ Hs)].
      subst j. apply (qi_items _ _ Hs) in Hj. congruence.
    - intros j. rewrite status_update. case_decide; [|apply (qi_queued _ _ Hs)]. rewrite Hst. simpl. congruence. }
  destruct outcome; [by apply Hgen|by apply Hgen|]. same_history (LFinish (wi_task_id item) Cancelled).
Qed.

Lemma cancelled_inv s' : worker_cancelled s = Some s' -> queue_inv (tr ++ [LCancelled]) s'.
Proof. unfold worker_cancelled. destruct (q_worker s); try done. intros [= <-]. same_history LCancelled. Qed.

Lemma mark_ids now i t : dict_get i (_mark_unfinished_tasks_failed now (q_tasks s)) = Some t -> it_task_id t = i.
Proof.
  rewrite mark_get. destruct (dict_get i (q_tasks s)) as [t0|] eqn:Ht; [|done]. intros [= <-].
  apply (qi_ids _ _ Hs) in Ht. unfold mark. by destruct (unfinished t0).
Qed.

Lemma stop_begin_inv now : queue_inv (tr ++ [LStopBegin]) (stop_begin now s).
Proof.
  pose proof (queue_items_nodup _ _ Hs) as Hnd. destruct (qi_order _ _ Hs) as (rest & Hord & Hrest).
  assert (Hno : q_worker s = NoWorker -> item_ids (q_items s) = []).
  { intros Hw. destruct (q_stop_requested s) eqn:Hst; [by apply (qi_stopped _ _ Hs)|].
    by destruct (qi_fresh _ _ Hs Hw Hst) as [-> _]. }
  assert (Hgen : forall items w n, item_ids items = [] -> w = q_worker s -> w <> NoWorker ->
    queue_inv (tr ++ [LStopBegin])
      (mkQueue items (_discard_queued_work now (q_items s) (q_tasks s)) w false true n)).
  { intros items w n Hitems -> Hne. same_history LStopBegin; rewrite ?Hitems.
    - rewrite discard_keys. keep.
    - intros j t. rewrite discard_get by done. case_decide; [|apply (qi_ids _ _ Hs)].
      destruct (dict_get j _) as [t0|] eqn:Ht; [|done]. intros [= <-]. simpl. by apply (qi_ids _ _ Hs).
    - exists (item_ids (q_items s) ++ rest). split; [by rewrite Hord|done].
    - set_solver.
    - intros j. rewrite status_discard by done. case_decide as Hj; [by destruct (status_of _ j)|].
      intros Hq%(qi_queued _ _ Hs). done.
    - intros item Hw. rewrite status_discard by done. pose proof (qi_working _ _ Hs _ Hw) as Hp.
      case_decide as Hj; [|done]. apply (qi_items _ _ Hs) in Hj. congruence. }
  unfold stop_begin. destruct (q_worker s) eqn:Hw.
  - same_history LStopBegin.
    + rewrite mark_keys. keep.
    + apply mark_ids.
    + exists rest. split; [done|]. done.
    + rewrite Hno by done. set_solver.
    + intros i Hi. by destruct (status_mark now (q_tasks s) i).
    + intros _. split; [done|]. by apply Hno.
    + intros _ _ i t. rewrite mark_get. destruct (dict_get i (q_tasks s)); [|done]. intros [= <-]. apply mark_finished.
  - apply Hgen; [by destruct (is_running s)|done|done].
  - apply Hgen; [by destruct (is_running s)|done|done].
  - apply Hgen; [by destruct (is_running s)|done|done].
Qed.

Lemma stop_end_inv now s' : stop_end now s = Some s' -> queue_inv (tr ++ [LStopEnd]) s'.
Proof.
  unfold stop_end. destruct (q_stopping s) as [|n] eqn:Hn; [done|]. destruct (is_running s); [done|]. intros [= <-].
  assert (Hst : q_stop_requested s = true) by (apply (qi_stopping _ _ Hs); by rewrite Hn).
  destruct (qi_stopped _ _ Hs Hst) as [Hacc Hno]. same_history LStopEnd.
  - rewrite mark_keys. keep.
  - apply mark_ids.
  - rewrite Hno. set_solver.
  - intros i Hi. by destruct (status_mark now (q_tasks s) i).
  - intros _ _ i t. rewrite mark_get. destruct (dict_get i (q_tasks s)); [|done]. intros [= <-]. apply mark_finished.
Qed.
End Preservation.

Lemma step_inv max_queue_size tr s l s' : queue_inv tr s -> step max_queue_size s l s' -> queue_inv (tr ++ [l]) s'.
Proof.
  intros Hs H. destruct H; eauto using queue_start_inv, submit_inv, take_inv, sentinel_inv, finish_inv, cancelled_inv,
    stop_begin_inv, stop_end_inv.
Qed.

Lemma runs_inv max_queue_size tr s : runs max_queue_size tr s -> queue_inv tr s.
Proof. induction 1; [apply queue_inv_init|by eapply step_inv]. Qed.

(** ** Theorems *)

Lemma advances_refl t : advances t t.
Proof. by left. Qed.

Lemma update_advances now st d e c t : status_next (it_status t) st -> advances t (update now st d e c t).
Proof. intros H. right. split_and!; done. Qed.

(** What a step does to the tasks. *)
Definition tasks_advance (tasks tasks' : list (pystr * IngestionTask)) : Prop :=
  forall i t, dict_get i tasks = Some t -> exists t', dict_get i tasks' = Some t' /\ advances t t'.

Lemma tasks_advance_refl tasks : tasks_advance tasks tasks.
Proof. intros i t Ht. exists t. split; [done|apply advances_refl]. Qed.

Lemma tasks_advance_update now i st d e c tasks x :
  status_of tasks i = Some x -> status_next x st -> tasks_advance tasks (_update_task now i st d e c tasks).
Proof.
  intros Hx Hn j t Ht. rewrite update_task_get. case_decide; [subst j|eauto using advances_refl].
  unfold status_of in Hx. rewrite Ht in Hx |- *. injection Hx as <-. eexists. split; [done|by apply update_advances].
Qed.

Lemma tasks_advance_mark now tasks : tasks_advance tasks (_mark_unfinished_tasks_failed now tasks).
Proof. intros j t Ht. rewrite mark_get, Ht. eexists. split; [done|apply mark_advances]. Qed.

Lemma tasks_advance_discard now tr s : queue_inv tr s ->
  tasks_advance (q_tasks s) (_discard_queued_work now (q_items s) (q_tasks s)).
Proof.
  intros Hs j t Ht. rewrite discard_get by (by eapply queue_items_nodup). case_decide as Hj; [|eauto using advances_refl].
  rewrite Ht. eexists. split; [done|]. apply update_advances. apply (qi_items _ _ Hs) in Hj.
  unfold status_of in Hj. rewrite Ht in Hj. injection Hj as ->. constructor.
Qed.

Lemma step_advances max_queue_size tr s l s' : queue_inv tr s -> step max_queue_size s l s' ->
  tasks_advance (q_tasks s) (q_tasks s').
Proof.
  intros Hs H. destruct H as [s' H|now i content filename owner task s' Hi H|now item items s' Hit H|now items s' Hit H
    |now item outcome s' Hw H|s' H|now|now s' H].
  - unfold start in H. destruct (is_running s); [by injection H as <-; apply tasks_advance_refl|].
    destruct (q_stop_requested s); [done|]. injection H as <-. apply tasks_advance_refl.
  - unfold submit in H. apply bind_ok in H as (_ & _ & H). apply bind_ok in H as (_ & _ & H).
    apply bind_ok in H as (_ & _ & [= _ <-]). intros j t Ht. simpl. rewrite dict_get_set.
    case_decide; [subst j|eauto using advances_refl]. exfalso. apply Hi, dict_get_mem. by eexists.
  - unfold worker_get in H. rewrite Hit in H. destruct (q_worker s); try done. injection H as <-.
    eapply tasks_advance_update; [apply (qi_items _ _ Hs); rewrite Hit; left|constructor].
  - unfold worker_get in H. rewrite Hit in H. destruct (q_worker s); try done. injection H as <-. apply tasks_advance_refl.
  - unfold worker_finish in H. rewrite Hw in H. injection H as <-. pose proof (qi_working _ _ Hs _ Hw) as Hst.
    destruct outcome; simpl; [eapply tasks_advance_update; [done|constructor]..|apply tasks_advance_refl].
  - unfold worker_cancelled in H. destruct (q_worker s); try done. injection H as <-. apply tasks_advance_refl.
  - unfold stop_begin. destruct (q_worker s); simpl; eauto using tasks_advance_mark, tasks_advance_discard.
  - unfold stop_end in H. destruct (q_stopping s); [done|]. destruct (is_running s); [done|]. injection H as <-.
    apply tasks_advance_mark.
Qed.

(** Life of a task: whatever requests, worker and [stop] do and in whatever
    order, a task once submitted stays registered under its id with its owner,
    file name and creation time, its status moves only QUEUED to PROCESSING or
    FAILED and PROCESSING to COMPLETED or FAILED (so a finished task never
    changes again), and a request sees it only with the owner's hash. *)
Theorem queue_task_lifecycle max_queue_size tr s l s' i t :
  runs max_queue_size tr s -> step max_queue_size s l s' -> dict_get i (q_tasks s) = Some t ->
  (exists t', dict_get i (q_tasks s') = Some t' /\ advances t t') /\
  it_task_id t = i /\
  forall owner x, get_task i owner s = Ok (Some x) -> x = t /\ it_owner_key_hash t = owner.
Proof.
  intros Hr Hstep Ht. apply runs_inv in Hr. split_and!.
  - by eapply step_advances.
  - by apply (qi_ids _ _ Hr).
  - intros owner x. unfold get_task. rewrite Ht. intros (_ & _ & H)%bind_ok.
    destruct (bool_decide _) eqn:Hb; [|done]. injection H as <-. by bools.
Qed.

(** Work is taken in the order of submission and never twice: the ids taken
    by the worker are a prefix of the ids submitted, all different, and while
    [stop] has not been called the rest is exactly what is queued, in order. *)
Theorem queue_fifo max_queue_size tr s :
  runs max_queue_size tr s ->
  NoDup (submitted tr) /\ (q_tasks s).*1 = submitted tr /\
  (exists rest, submitted tr = taken tr ++ item_ids (q_items s) ++ rest) /\
  (q_stop_requested s = false -> submitted tr = taken tr ++ item_ids (q_items s)).
Proof.
  intros H%runs_inv. destruct (qi_order _ _ H) as (rest & Hord & Hrest). split_and!.
  - apply H.
  - apply H.
  - by exists rest.
  - intros Hst. by rewrite Hord, Hrest, app_nil_r.
Qed.

Lemma stop_end_settled max_queue_size tr s : runs max_queue_size tr s -> LStopEnd ∈ tr ->
  q_worker s = NoWorker /\ q_stop_requested s = true /\ q_accepting s = false.
Proof.
  induction 1 as [|tr s l s' Hr IH Hstep]; [set_solver|]. intros [Hin|Hin]%elem_of_app.
  - destruct (IH Hin) as (Hw & Hst & Hacc). destruct Hstep as [s' H|? ? ? ? ? ? ? ? H|? ? ? ? ? H|? ? ? ? H|? ? ? ? Hw' H|? H|now|now s' H].
    + unfold start, is_running in H. by rewrite Hw, Hst in H.
    + unfold submit in H. by rewrite Hacc in H.
    + unfold worker_get in H. by rewrite Hw in H.
    + unfold worker_get in H. by rewrite Hw in H.
    + congruence.
    + unfold worker_cancelled in H. by rewrite Hw in H.
    + unfold stop_begin. by rewrite Hw.
    + unfold stop_end in H. destruct (q_stopping s); [done|]. destruct (is_running s); [done|]. by injection H as <-.
  - apply list_elem_of_singleton in Hin as <-. apply runs_inv in Hr. inversion Hstep; subst.
    match goal with H : stop_end _ _ = _ |- _ => unfold stop_end in H; rename H into Hend end.
    destruct (q_stopping s) eqn:Hn; [done|]. destruct (is_running s); [done|]. injection Hend as <-. simpl.
    assert (Hst : q_stop_requested s = true) by (apply (qi_stopping _ _ Hr); congruence).
    split_and!; [done|done|by apply (qi_stopped _ _ Hr)].
Qed.

(** [stop] settles everything: once it has returned, every task is COMPLETED
    or FAILED, no worker runs, and no later step changes a task, takes work or
    accepts a submission. *)
Theorem queue_stop_settles max_queue_size tr s :
  runs max_queue_size tr s -> LStopEnd ∈ tr ->
  q_worker s = NoWorker /\
  (forall i t, dict_get i (q_tasks s) = Some t ->
     it_status t = IngestionTaskStatus.COMPLETED \/ it_status t = IngestionTaskStatus.FAILED) /\
  (forall l s', step max_queue_size s l s' ->
     q_tasks s' = q_tasks s /\ q_worker s' = NoWorker /\ (l = LStopBegin \/ l = LStopEnd)).
Proof.
  intros Hr Hin. destruct (stop_end_settled _ _ _ Hr Hin) as (Hw & Hst & Hacc). apply runs_inv in Hr.
  pose proof (qi_settled _ _ Hr Hw Hst) as Hfin. split_and!; [done| |].
  - intros i t Ht. specialize (Hfin i t Ht). unfold unfinished in Hfin. destruct (it_status t); auto; done.
  - assert (Hnd : NoDup (q_tasks s).*1) by (rewrite (qi_keys _ _ Hr); apply Hr).
    assert (Hmark : forall now, _mark_unfinished_tasks_failed now (q_tasks s) = q_tasks s).
    { intros now. unfold _mark_unfinished_tasks_failed. clear -Hfin Hnd. induction (q_tasks s) as [|[k t] l IH]; [done|].
      apply NoDup_cons in Hnd as [Hk Hnd].
      assert (Hu : unfinished t = false) by (apply (Hfin k); simpl; by rewrite decide_True).
      cbn [fmap list_fmap fst snd]. rewrite Hu. f_equal. apply IH; [|done]. intros i t' Ht'. apply (Hfin i). simpl.
      case_decide; [subst|done]. exfalso. apply Hk. apply dict_get_mem. by eexists. }
    intros l s' Hstep. destruct Hstep as [s' H|? ? ? ? ? ? ? ? H|? ? ? ? ? H|? ? ? ? H|? ? ? ? Hw' H|? H|now|now s' H].
    + unfold start, is_running in H. by rewrite Hw, Hst in H.
    + unfold submit in H. by rewrite Hacc in H.
    + unfold worker_get in H. by rewrite Hw in H.
    + unfold worker_get in H. by rewrite Hw in H.
    + congruence.
    + unfold worker_cancelled in H. by rewrite Hw in H.
    + unfold stop_begin. rewrite Hw. simpl. rewrite Hmark. auto.
    + unfold stop_end in H. destruct (q_stopping s); [done|]. destruct (is_running s); [done|].
      injection H as <-. simpl. rewrite Hmark. auto.
Qed.

(** ** A run, for the witnesses: start, submit one task, process it, stop *)

Definition demo_owner : pystr := repeat 97%N 64.
Definition demo_task : pystr := u "t1".

Definition step_or (s : queue_state) (o : option queue_state) : queue_state := default s o.
Definition after_ok (s : queue_state) (r : result queue_error queue_state) : queue_state :=
  match r with Ok s' => s' | Err _ => s end.

Definition demo_started : queue_state := after_ok init (start init).
Definition demo_submitted : queue_state :=
  match submit 2 10 demo_task [1; 2] (Some (u "a.pdf")) demo_owner demo_started with
  | Ok (_, s) => s
  | Err _ => demo_started
  end.
Definition demo_taken : queue_state := step_or demo_submitted (worker_get 11 demo_submitted).
Definition demo_finished : queue_state := step_or demo_taken (worker_finish 12 (Ingested (u "doc")) demo_taken).
Definition demo_stopping : queue_state := stop_begin 13 demo_finished.
Definition demo_sentinel : queue_state := step_or demo_stopping (worker_get 14 demo_stopping).
Definition demo_stopped : queue_state := step_or demo_sentinel (stop_end 15 demo_sentinel).

Definition demo_trace : list label :=
  [LStart; LSubmit demo_task; LTake demo_task; LFinish demo_task (Ingested (u "doc")); LStopBegin; LSentinel; LStopEnd].

Lemma demo_taken_runs : runs 2 [LStart; LSubmit demo_task; LTake demo_task] demo_taken.
Proof.
  apply (RunsSnoc 2 [LStart; LSubmit demo_task] demo_submitted).
  - apply (RunsSnoc 2 [LStart] demo_started).
    + apply (RunsSnoc 2 [] init); [constructor|]. apply StepStart. vm_compute. reflexivity.
    + eapply (StepSubmit 2 _ 10 demo_task [1; 2] (Some (u "a.pdf")) demo_owner).
      * vm_compute. apply not_elem_of_nil.
      * vm_compute. reflexivity.
  - apply (StepTake 2 demo_submitted 11 (mkWorkItem demo_task [1; 2] (Some (u "a.pdf")) demo_owner) []);
      vm_compute; reflexivity.
Qed.

Lemma demo_finish_step : step 2 demo_taken (LFinish demo_task (Ingested (u "doc"))) demo_finished.
Proof.
  apply (StepFinish 2 demo_taken 12 (mkWorkItem demo_task [1; 2] (Some (u "a.pdf")) demo_owner));
    vm_compute; reflexivity.
Qed.

Lemma demo_queue_runs : runs 2 demo_trace demo_stopped.
Proof.
  apply (RunsSnoc 2 (take 6 demo_trace) demo_sentinel).
  - apply (RunsSnoc 2 (take 5 demo_trace) demo_stopping).
    + apply (RunsSnoc 2 (take 4 demo_trace) demo_finished).
      * apply (RunsSnoc 2 (take 3 demo_trace) demo_taken); [exact demo_taken_runs|exact demo_finish_step].
      * exact (StepStopBegin 2 demo_finished 13).
    + apply (StepSentinel 2 demo_stopping 14 []); vm_compute; reflexivity.
  - apply (StepStopEnd 2 demo_sentinel 15). vm_compute. reflexivity.
Qed.

Definition demo_processing : IngestionTask :=
  mkIngestionTask demo_task None (u "a.pdf") IngestionTaskStatus.PROCESSING 10 11 demo_owner None None.

Lemma queue_task_lifecycle_witness :
  (exists t', dict_get demo_task (q_tasks demo_finished) = Some t' /\ advances demo_processing t') /\
  it_task_id demo_processing = demo_task /\
  forall owner x, get_task demo_task owner demo_taken = Ok (Some x) ->
    x = demo_processing /\ it_owner_key_hash demo_processing = owner.
Proof.
  refine (queue_task_lifecycle 2 _ demo_taken _ demo_finished demo_task demo_processing
            demo_taken_runs demo_finish_step _).
  vm_compute. reflexivity.
Defined.

Lemma queue_fifo_witness :
  NoDup (submitted demo_trace) /\ (q_tasks demo_stopped).*1 = submitted demo_trace /\
  (exists rest, submitted demo_trace = taken demo_trace ++ item_ids (q_items demo_stopped) ++ rest) /\
  (q_stop_requested demo_stopped = false ->
     submitted demo_trace = taken demo_trace ++ item_ids (q_items demo_stopped)).
Proof. exact (queue_fifo 2 demo_trace demo_stopped demo_queue_runs). Defined.

Lemma queue_stop_settles_witness :
  q_worker demo_stopped = NoWorker /\
  (forall i t, dict_get i (q_tasks demo_stopped) = Some t ->
     it_status t = IngestionTaskStatus.COMPLETED \/ it_status t = IngestionTaskStatus.FAILED) /\
  (forall l s', step 2 demo_stopped l s' ->
     q_tasks s' = q_tasks demo_stopped /\ q_worker s' = NoWorker /\ (l = LStopBegin \/ l = LStopEnd)).
Proof.
  refine (queue_stop_settles 2 demo_trace demo_stopped demo_queue_runs _).
  do 6 right. left.
Defined.
