(* ===== verification/Conversations.v ===== *)
(** * Conversation memory: [app/conversations/]

    The in-memory repository ([memory_repository.py]), the service
    ([service.py]) and the helpers that attach it to a chat request
    ([memory.py]).  Instants are microseconds, read once per operation; the
    [uuid4] of a new thread and the hash of an API key are arguments.  Prompt
    sizes are those of [Quota.estimate_prompt_tokens]. *)

From S2P Require Import Prelude Json Quota RagText.
Local Open Scope Z_scope.

Record ConversationThread := mkThread {
  th_id : pystr;
  th_owner_key_hash : pystr;
  th_title : pystr;
  th_created_at : option Z;
  th_updated_at : option Z
}.

Record ConversationMessage := mkMessage {
  cm_id : Z;
  cm_thread_id : pystr;
  cm_role : pystr;
  cm_content : pystr;
  cm_token_count : Z;
  cm_created_at : option Z
}.

(** [ChatMessage] and [OpenAIChatMessage] *)
Record ChatMessage := mkChatMessage { msg_role : pystr; msg_content : pystr }.
#[global] Instance ChatMessage_eq_dec : EqDecision ChatMessage.
Proof. solve_decision. Defined.

Record InMemoryConversationRepository := mkConversationRepo {
  _threads : list (pystr * ConversationThread);
  _messages : gmap pystr (list ConversationMessage);
  _next_message_id : Z
}.
Definition conversation_repo_init : InMemoryConversationRepository := mkConversationRepo [] ∅ 1.

(** [datetime.min] in UTC, in microseconds from the epoch *)
Definition datetime_min : Z := -62135596800 * 1000000.

Definition _message_order_key (m : ConversationMessage) : Z * Z := (default datetime_min (cm_created_at m), cm_id m).
Definition _thread_order_key (t : ConversationThread) : Z :=
  match th_updated_at t with
  | Some x => x
  | None => default datetime_min (th_created_at t)
  end.

(** The order of [(datetime, int)] pairs. *)
Definition message_leb (a b : ConversationMessage) : bool :=
  let '(ta, ia) := _message_order_key a in
  let '(tb, ib) := _message_order_key b in
  (ta <? tb) || (ta =? tb) && (ia <=? ib).

(** ** The repository *)

Definition repo_create_thread (t : ConversationThread) (r : InMemoryConversationRepository)
  : InMemoryConversationRepository :=
  mkConversationRepo (dict_set (th_id t) t (_threads r))
    (match _messages r !! th_id t with Some _ => _messages r | None => <[th_id t := []]> (_messages r) end)
    (_next_message_id r).

Definition repo_get_thread (thread_id owner : pystr) (r : InMemoryConversationRepository)
  : option ConversationThread :=
  match dict_get thread_id (_threads r) with
  | Some t => if decide (th_owner_key_hash t = owner) then Some t else None
  | None => None
  end.

(** [sorted(..., reverse=True)] keeps the order of equal keys. *)
Definition repo_list_threads (owner : pystr) (r : InMemoryConversationRepository) : list ConversationThread :=
  sort_by (fun a b => _thread_order_key b <=? _thread_order_key a)
    (filter (fun t => th_owner_key_hash t = owner) (_threads r).*2).

Definition repo_add_message (now : Z) (thread_id owner role content : pystr) (token_count : Z)
    (r : InMemoryConversationRepository) : option ConversationMessage * InMemoryConversationRepository :=
  match repo_get_thread thread_id owner r with
  | None => (None, r)
  | Some t =>
      let m := mkMessage (_next_message_id r) thread_id role content token_count (Some now) in
      (Some m, mkConversationRepo
                 (dict_set thread_id (mkThread (th_id t) (th_owner_key_hash t) (th_title t) (th_created_at t) (Some now))
                    (_threads r))
                 (<[thread_id := default [] (_messages r !! thread_id) ++ [m]]> (_messages r))
                 (_next_message_id r + 1))
  end.

Definition repo_list_messages (thread_id owner : pystr) (r : InMemoryConversationRepository)
  : list ConversationMessage :=
  match repo_get_thread thread_id owner r with
  | None => []
  | Some _ => sort_by message_leb (default [] (_messages r !! thread_id))
  end.

(** ** The service *)

Definition _VALID_ROLES : list pystr := [u "system"; u "user"; u "assistant"].
Definition _MAX_TITLE_LENGTH : Z := 255.
Definition _FALLBACK_TITLE : pystr := u "New conversation".
Definition _SUMMARY_HEADER : pystr := u "Earlier conversation summary".
Definition _SUMMARY_SEPARATOR : pystr := [10; 10]%N.
Definition _SUMMARY_SNIPPET_MAX_CHARS : Z := 160.

Inductive conversation_error :=
| OwnerHashInvalid
| ConversationValidation (message : pystr)
| ConversationNotFoundError
| ChatMessageInvalid.

Record ConversationService := mkConversationService {
  _context_limit : Z;
  _context_max_prompt_tokens : Z;
  _context_summary_max_chars : Z
}.

Definition ConversationService_init (context_limit context_max_prompt_tokens context_summary_max_chars : Z)
  : ConversationService :=
  mkConversationService (Z.max context_limit 0) (Z.max context_max_prompt_tokens 100)
    (Z.max context_summary_max_chars 100).

Record ConversationContext := mkContext {
  ctx_history : list ChatMessage;
  ctx_summary : option pystr
}.

Definition validate_owner (owner : pystr) : result conversation_error unit :=
  raise_if (negb (valid_owner_hash owner)) OwnerHashInvalid.

(** A call that may raise and returns the repository as it left it. *)
Abbreviation conversation_call A :=
  (InMemoryConversationRepository -> result conversation_error A * InMemoryConversationRepository).

Definition create_thread (now : Z) (new_id owner title : pystr) : conversation_call ConversationThread := fun r =>
  let normalized_title := strip title in
  match (_ ← validate_owner owner;
         _ ← raise_if (bool_decide (normalized_title = []))
               (ConversationValidation (u "title must not be empty"));
         raise_if (_MAX_TITLE_LENGTH <? slen normalized_title)
           (ConversationValidation (u "title must be at most 255 characters"))) with
  | Err e => (Err e, r)
  | Ok _ =>
      let t := mkThread new_id owner normalized_title (Some now) (Some now) in
      (Ok t, repo_create_thread t r)
  end.

Definition get_thread (owner thread_id : pystr) (r : InMemoryConversationRepository)
  : result conversation_error ConversationThread :=
  _ ← validate_owner owner;
  match repo_get_thread thread_id owner r with
  | None => Err ConversationNotFoundError
  | Some t => Ok t
  end.

Definition resolve_thread (now : Z) (new_id owner : pystr) (thread_id : option pystr) (title : pystr)
  : conversation_call ConversationThread := fun r =>
  match thread_id with
  | None =>
      let normalized_title :=
        match sprefix _MAX_TITLE_LENGTH (strip title) with [] => _FALLBACK_TITLE | t => t end in
      create_thread now new_id owner normalized_title r
  | Some i => (get_thread owner i r, r)
  end.

Definition list_threads (owner : pystr) (r : InMemoryConversationRepository)
  : result conversation_error (list ConversationThread) :=
  _ ← validate_owner owner;
  Ok (repo_list_threads owner r).

Definition append_message (now : Z) (owner thread_id role content : pystr) (token_count : Z)
  : conversation_call ConversationMessage := fun r =>
  match (_ ← validate_owner owner;
         _ ← raise_if (negb (bool_decide (role ∈ _VALID_ROLES)))
               (ConversationValidation (u "role must be one of ['assistant', 'system', 'user']"));
         _ ← raise_if (bool_decide (content = [])) (ConversationValidation (u "content must not be empty"));
         raise_if (token_count <? 0) (ConversationValidation (u "token_count must not be negative"))) with
  | Err e => (Err e, r)
  | Ok _ =>
      match repo_add_message now thread_id owner role content token_count r with
      | (None, r) => (Err ConversationNotFoundError, r)
      | (Some m, r) => (Ok m, r)
      end
  end.

(** The two messages of a turn are appended at [now] and [now']. *)
Definition persist_turn (now now' : Z) (owner thread_id user_content : pystr) (assistant_content : option pystr)
  : conversation_call (ConversationMessage * option ConversationMessage) := fun r =>
  match append_message now owner thread_id (u "user") user_content 0 r with
  | (Err e, r) => (Err e, r)
  | (Ok user_message, r) =>
      match assistant_content with
      | Some ((_ :: _) as c) =>
          match append_message now' owner thread_id (u "assistant") c 0 r with
          | (Err e, r) => (Err e, r)
          | (Ok m, r) => (Ok (user_message, Some m), r)
          end
      | _ => (Ok (user_message, None), r)
      end
  end.

Definition load_history (owner thread_id : pystr) (r : InMemoryConversationRepository)
  : result conversation_error (list ConversationMessage) :=
  _ ← get_thread owner thread_id r;
  Ok (repo_list_messages thread_id owner r).

(** *** Merging client and server history *)

Definition is_user (m : ChatMessage) : bool := bool_decide (msg_role m = u "user").

(** The loop of [_drop_retried_turn], [n] positions from the front still to see. *)
Fixpoint drop_retried_from (n : nat) (merged : list ChatMessage) (current_user_content : pystr)
  : list ChatMessage :=
  match n with
  | O => merged
  | S index =>
      match merged !! index with
      | None => merged
      | Some m =>
          if negb (is_user m) || negb (bool_decide (msg_content m = current_user_content))
          then drop_retried_from index merged current_user_content
          else if existsb is_user (drop (S index) merged) then merged
          else take index merged
      end
  end.
Definition _drop_retried_turn (merged : list ChatMessage) (current_user_content : pystr) : list ChatMessage :=
  drop_retried_from (length merged) merged current_user_content.

(** [ChatMessage(...)] refuses an empty content. *)
Definition chat_message_of (m : ConversationMessage) : result conversation_error ChatMessage :=
  _ ← raise_if (bool_decide (cm_content m = [])) ChatMessageInvalid;
  Ok (mkChatMessage (cm_role m) (cm_content m)).

Definition merge_history (server_history : list ConversationMessage) (client_history : list ChatMessage)
    (current_user_content : option pystr) : result conversation_error (list ChatMessage) :=
  server ← mapM chat_message_of (filter (fun m => cm_role m ∈ _VALID_ROLES) server_history);
  let merged := server ++ filter (fun m => m ∉ server) client_history in
  Ok (match current_user_content with
      | Some c => _drop_retried_turn merged c
      | None => merged
      end).

(** *** The short-term context *)

Definition rstrip (s : pystr) : pystr := rev (lstrip (rev s)).
Definition ellipsis : pystr := u "…".
Definition line_break : pystr := [10%N].

Definition _truncate_text (text : pystr) (limit : Z) : pystr :=
  if slen text <=? limit then text
  else if limit <=? 1 then sprefix limit text
  else rstrip (sprefix (limit - 1) text) ++ ellipsis.

Definition _summarize_message (content : pystr) : pystr :=
  let normalized := sjoin (u " ") (split_ws content) in
  if slen normalized <=? _SUMMARY_SNIPPET_MAX_CHARS then normalized
  else rstrip (sprefix (_SUMMARY_SNIPPET_MAX_CHARS - 1) normalized) ++ ellipsis.

(** [not system_prompt or not system_prompt.strip()] *)
Definition blank (system_prompt : option pystr) : bool :=
  match system_prompt with None => true | Some p => bool_decide (strip p = []) end.

Definition _merge_system_prompt (system_prompt summary : option pystr) : option pystr :=
  match summary with
  | None => system_prompt
  | Some s =>
      match system_prompt with
      | Some p => if blank system_prompt then Some s else Some (rstrip p ++ _SUMMARY_SEPARATOR ++ s)
      | None => Some s
      end
  end.

Section Context.
Context (self : ConversationService) (system_prompt : option pystr).

Definition _build_summary (dropped : list ChatMessage) : option pystr :=
  match dropped with
  | [] => None
  | _ =>
      let header := _SUMMARY_HEADER ++ u " (" ++ str_of_Z (Z.of_nat (length dropped)) ++ u " message"
                    ++ (if decide (length dropped = 1%nat) then [] else u "s") ++ u " omitted):" in
      let lines := (fun m => u "- " ++ msg_role m ++ u ": " ++ _summarize_message (msg_content m)) <$> dropped in
      Some (_truncate_text (sjoin line_break (header :: lines)) (_context_summary_max_chars self))
  end.

Definition context_messages (prompt : option pystr) (history : list ChatMessage) : list (pystr * pystr) :=
  (match prompt with Some ((_ :: _) as p) => [(u "system", p)] | _ => [] end)
    ++ ((fun m => (msg_role m, msg_content m)) <$> history).

Definition _context_fits (prompt : option pystr) (history : list ChatMessage) : bool :=
  estimate_prompt_tokens (context_messages prompt history) <=? _context_max_prompt_tokens self.

(** The binary search; every round shrinks [high - low + 1]. *)
Fixpoint search_summary (fuel : nat) (summary : pystr) (low high : Z) (best : pystr) : option pystr :=
  match fuel with
  | O => None
  | S f =>
      if low <=? high then
        let mid := (low + high) / 2 in
        let candidate := rstrip (sprefix mid summary) in
        if _context_fits (_merge_system_prompt system_prompt (Some candidate)) []
        then search_summary f summary (mid + 1) high candidate
        else search_summary f summary low (mid - 1) best
      else Some best
  end.

Definition _truncate_summary_to_budget (summary : pystr) : pystr :=
  default [] (search_summary (S (S (length summary))) summary 0 (slen summary) []).

(** The first loop: at most [_context_limit] messages are kept. *)
Fixpoint window (kept dropped : list ChatMessage) : list ChatMessage * list ChatMessage :=
  match kept with
  | m :: kept' =>
      if _context_limit self <? Z.of_nat (length kept) then window kept' (dropped ++ [m]) else (kept, dropped)
  | [] => ([], dropped)
  end.

(** The second loop: messages are dropped until the prompt fits. *)
Fixpoint fit_loop (kept dropped : list ChatMessage) (summary : option pystr) : ConversationContext :=
  if _context_fits (_merge_system_prompt system_prompt summary) kept then mkContext kept summary
  else
    match kept with
    | m :: kept' => fit_loop kept' (m :: dropped) (_build_summary (m :: dropped))
    | [] =>
        match summary with
        | None => mkContext [] None
        | Some s =>
            mkContext [] (match _truncate_summary_to_budget s with [] => None | t => Some t end)
        end
    end.

Definition build_short_term_context (history : list ChatMessage) : ConversationContext :=
  let '(kept, dropped) := window history [] in
  fit_loop kept dropped (_build_summary dropped).
End Context.

(** ** [memory.py] *)

Definition conversation_owner (hash_api_key : pystr -> pystr) (key : pystr) : pystr :=
  if valid_owner_hash key then key else hash_api_key key.

Definition prepare_thread (self : ConversationService) (now : Z) (new_id owner : pystr) (thread_id : option pystr)
    (title : pystr) (client_history : list ChatMessage) (user_content : pystr) (system_prompt : option pystr)
  : conversation_call (pystr * list ChatMessage * option pystr) := fun r =>
  match resolve_thread now new_id owner thread_id title r with
  | (Err e, r) => (Err e, r)
  | (Ok t, r) =>
      (server_history ← load_history owner (th_id t) r;
       merged ← merge_history server_history client_history (Some user_content);
       let context := build_short_term_context self system_prompt merged in
       Ok (th_id t, ctx_history context, ctx_summary context), r)
  end.

(** [memory.persist_turn] swallows every exception. *)
Definition persist_turn_safely (now now' : Z) (owner thread_id user_content : pystr)
    (assistant_content : option pystr) (r : InMemoryConversationRepository) : InMemoryConversationRepository :=
  (persist_turn now now' owner thread_id user_content assistant_content r).2.

Definition merge_system_prompt := _merge_system_prompt.

Fixpoint merge_into_system (messages : list ChatMessage) (summary : pystr) : option (list ChatMessage) :=
  match messages with
  | [] => None
  | m :: messages =>
      if decide (msg_role m = u "system") then
        Some (mkChatMessage (u "system")
                (match merge_system_prompt (Some (msg_content m)) (Some summary) with
                 | Some ((_ :: _) as p) => p
                 | _ => summary
                 end) :: messages)
      else (fun l => m :: l) <$> merge_into_system messages summary
  end.

Definition inject_openai_summary (messages : list ChatMessage) (summary : option pystr) : list ChatMessage :=
  match summary with
  | None => messages
  | Some s => default (mkChatMessage (u "system") s :: messages) (merge_into_system messages s)
  end.
