(* ===== verification/ConversationsProps.v ===== *)
(** * Conversation memory: theorems

    The short-term context of a chat is bounded in messages, characters and
    tokens; the history of a thread is exactly what its owner appended. *)

From S2P Require Import Prelude Json Quota RagText Conversations.
Local Open Scope Z_scope.

(** ** Text *)

Lemma lstrip_suffix s : lstrip s `suffix_of` s.
Proof. induction s as [|c s IH]; simpl; [done|]. destruct (is_space c); [by apply suffix_cons_r|done]. Qed.

Lemma lstrip_mono a b : a `suffix_of` b -> lstrip a `suffix_of` lstrip b.
Proof.
  induction b as [|c b IH]; intros H.
  - destruct a as [|x a]; [done|]. by apply suffix_cons_nil_inv in H.
  - destruct a as [|x a]; [apply suffix_nil|].
    apply suffix_cons_inv in H as [->|H]; [done|]. cbn [lstrip] in *. destruct (is_space c); [by apply IH|].
    apply suffix_cons_r. etrans; [|exact H]. apply (lstrip_suffix (x :: a)).
Qed.

Lemma rev_prefix (a b : pystr) : rev a `prefix_of` rev b <-> a `suffix_of` b.
Proof. rewrite suffix_prefix_reverse. unfold reverse. by rewrite <- !rev_alt. Qed.

Lemma rev_suffix (a b : pystr) : rev a `suffix_of` rev b <-> a `prefix_of` b.
Proof. rewrite <- rev_prefix. by rewrite !rev_involutive. Qed.

Lemma rstrip_prefix s : rstrip s `prefix_of` s.
Proof. unfold rstrip. apply rev_suffix. rewrite rev_involutive. apply lstrip_suffix. Qed.

Lemma rstrip_mono a b : a `prefix_of` b -> rstrip a `prefix_of` rstrip b.
Proof. intros H. unfold rstrip. by apply rev_prefix, lstrip_mono, rev_suffix. Qed.

Lemma rstrip_length s : slen (rstrip s) <= slen s.
Proof. unfold slen. pose proof (prefix_length _ _ (rstrip_prefix s)). lia. Qed.

Lemma sprefix_mono n m s : n <= m -> sprefix n s `prefix_of` sprefix m s.
Proof.
  intros H. unfold sprefix. replace (Z.to_nat n) with (Z.to_nat n `min` Z.to_nat m)%nat by lia.
  rewrite <- take_take. apply prefix_take.
Qed.

Lemma utf8_length_nonneg s : 0 <= utf8_length s.
Proof.
  unfold utf8_length. induction s as [|c s IH]; [done|]. rewrite fmap_cons. cbn [sumZ foldr] in *.
  unfold sumZ in IH. repeat case_match; lia.
Qed.

Lemma utf8_length_app a b : utf8_length (a ++ b) = utf8_length a + utf8_length b.
Proof. unfold utf8_length. by rewrite fmap_app, sumZ_app. Qed.

Lemma utf8_length_prefix a b : a `prefix_of` b -> utf8_length a <= utf8_length b.
Proof. intros [k ->]. rewrite utf8_length_app. pose proof (utf8_length_nonneg k). lia. Qed.

(** ** The summary *)

Section Summary.
Context (self : ConversationService) (system_prompt : option pystr).
Abbreviation fits s := (_context_fits self (_merge_system_prompt system_prompt (Some s)) []).
Abbreviation candidate n summary := (rstrip (sprefix n summary)).

Definition prompt_tokens (p : pystr) : Z := match p with [] => 2 | _ => 12 + utf8_length p end.

Lemma estimate_prompt p : estimate_prompt_tokens (context_messages (Some p) []) = prompt_tokens p.
Proof.
  destruct p as [|c p]; [done|]. unfold estimate_prompt_tokens, context_messages, prompt_tokens.
  rewrite app_nil_r. cbn [fmap list_fmap fst snd sumZ foldr].
  change (utf8_length (u "system")) with 6. lia.
Qed.

Lemma prompt_tokens_mono a b : a `prefix_of` b -> prompt_tokens a <= prompt_tokens b.
Proof.
  intros H. pose proof (utf8_length_prefix a b H). unfold prompt_tokens. destruct a as [|x a], b as [|y b]; try lia.
  - pose proof (utf8_length_nonneg (y :: b)). lia.
  - by apply prefix_nil_not in H.
Qed.

(** A shorter summary makes a shorter prompt. *)
Lemma fits_shorter a b : a `prefix_of` b -> fits b = true -> fits a = true.
Proof.
  unfold _context_fits, _merge_system_prompt. intros Hab.
  assert (H : forall pre, prompt_tokens (pre ++ a) <= prompt_tokens (pre ++ b))
    by (intros pre; by apply prompt_tokens_mono, prefix_app).
  destruct system_prompt as [p|].
  - destruct (blank (Some p)); rewrite !estimate_prompt, !Z.leb_le; [specialize (H []); cbn in H; lia|].
    specialize (H (rstrip p ++ _SUMMARY_SEPARATOR)). rewrite <- !app_assoc in H. lia.
  - rewrite !estimate_prompt, !Z.leb_le. specialize (H []). cbn in H. lia.
Qed.

(** What the binary search finds: the longest prefix that fits, if one does. *)
Definition longest_fit (summary best : pystr) : Prop :=
  (best = [] /\ forall m, 0 <= m <= slen summary -> fits (candidate m summary) = false) \/
  exists n, 0 <= n <= slen summary /\ best = candidate n summary /\ fits best = true /\
    forall m, n < m <= slen summary -> fits (candidate m summary) = false.

Lemma search_summary_spec summary fuel low high best :
  0 <= low <= high + 1 -> high <= slen summary -> high - low + 1 < Z.of_nat fuel ->
  (low = 0 -> best = []) -> (0 < low -> best = candidate (low - 1) summary /\ fits best = true) ->
  (forall m, high < m <= slen summary -> fits (candidate m summary) = false) ->
  exists best', search_summary self system_prompt fuel summary low high best = Some best' /\
    longest_fit summary best'.
Proof.
  revert low high best. induction fuel as [|f IH]; intros low high best Hlow Hhigh Hfuel H0 Hbest Hno; [lia|].
  cbn [search_summary]. destruct (low <=? high) eqn:Hle; bools.
  - assert (Hmid : low <= (low + high) / 2 <= high)
      by (split; [apply Z.div_le_lower_bound; lia|apply Z.div_le_upper_bound; lia]).
    set (mid := (low + high) / 2) in *. destruct (fits (candidate mid summary)) eqn:Hfit.
    + apply IH; [lia|lia|lia|lia| |done]. intros _. by replace (mid + 1 - 1) with mid by lia.
    + apply IH; [lia|lia|lia|done|done|]. intros m Hm. destruct (decide (high < m)) as [|Hgt]; [by apply Hno; lia|].
      apply not_true_iff_false. intros Ht. apply not_true_iff_false in Hfit. apply Hfit.
      eapply fits_shorter; [|exact Ht]. apply rstrip_mono, sprefix_mono. lia.
  - exists best. split; [done|]. destruct (decide (low = 0)) as [E|E].
    + left. split; [by apply H0|]. intros m Hm. apply Hno. lia.
    + right. destruct Hbest as [-> Hf]; [lia|]. exists (low - 1). split_and!; [lia|lia|done|done|].
      intros m Hm. apply Hno. lia.
Qed.

Lemma truncate_summary_spec summary :
  longest_fit summary (_truncate_summary_to_budget self system_prompt summary).
Proof.
  unfold _truncate_summary_to_budget.
  destruct (search_summary_spec summary (S (S (length summary))) 0 (slen summary) []) as (best & -> & H);
    [unfold slen; lia..|done|lia|lia|done].
Qed.

Lemma longest_fit_length summary best : longest_fit summary best -> slen best <= slen summary.
Proof.
  intros [[-> _]|(n & Hn & -> & _)]; [unfold slen; simpl; lia|].
  pose proof (rstrip_length (sprefix n summary)). pose proof (sprefix_length n summary). lia.
Qed.

Lemma longest_fit_fits summary best : longest_fit summary best -> best <> [] -> fits best = true.
Proof. intros [[-> _]|(n & _ & _ & H & _)]; done. Qed.

Lemma truncate_text_length text limit : 0 <= limit -> slen (_truncate_text text limit) <= limit.
Proof.
  intros Hl. unfold _truncate_text. destruct (slen text <=? limit) eqn:H1; bools; [done|].
  pose proof (sprefix_length limit text). destruct (limit <=? 1) eqn:H2; bools; [lia|].
  pose proof (rstrip_length (sprefix (limit - 1) text)). pose proof (sprefix_length (limit - 1) text).
  unfold slen in *. rewrite length_app. change (length ellipsis) with 1%nat. lia.
Qed.

Lemma truncate_text_nonempty text limit : text <> [] -> 1 <= limit -> _truncate_text text limit <> [].
Proof.
  intros Ht Hl. unfold _truncate_text. destruct (slen text <=? limit); [done|].
  destruct (limit <=? 1) eqn:H2.
  - unfold sprefix. replace (Z.to_nat limit) with 1%nat by (bools; lia). by destruct text.
  - intros [_ H]%app_nil. discriminate H.
Qed.

Lemma build_summary_spec dropped : 1 <= _context_summary_max_chars self ->
  match _build_summary self dropped with
  | None => dropped = []
  | Some s => s <> [] /\ slen s <= _context_summary_max_chars self
  end.
Proof.
  intros Hm. unfold _build_summary. destruct dropped as [|m dropped]; [done|].
  split; [apply truncate_text_nonempty; [|done]|apply truncate_text_length; lia].
  match goal with |- context [sjoin _ (?h :: ?l)] => assert (Hh : h <> []) by (intros [H _]%app_nil; discriminate H);
    generalize dependent h; generalize l end.
  intros l h Hh. destruct l; [done|]. cbn [sjoin]. by intros [? _]%app_nil.
Qed.
End Summary.

(** ** The short-term context *)

Section ShortTerm.
Context (self : ConversationService) (system_prompt : option pystr).
Hypothesis Hchars : 1 <= _context_summary_max_chars self.

Definition summary_ok (summary : option pystr) : Prop :=
  forall s, summary = Some s -> s <> [] /\ slen s <= _context_summary_max_chars self.

Lemma build_summary_ok dropped : summary_ok (_build_summary self dropped).
Proof. intros s Hs. pose proof (build_summary_spec self dropped Hchars) as H. by rewrite Hs in H. Qed.

Definition context_ok (c : ConversationContext) : Prop :=
  summary_ok (ctx_summary c) /\
  (_context_fits self (_merge_system_prompt system_prompt (ctx_summary c)) (ctx_history c) = true \/
   ctx_history c = [] /\ ctx_summary c = None).

Lemma fit_loop_spec kept dropped summary : summary_ok summary ->
  let c := fit_loop self system_prompt kept dropped summary in
  ctx_history c `suffix_of` kept /\ context_ok c.
Proof.
  revert dropped summary. induction kept as [|m kept IH]; intros dropped summary Hs; cbn [fit_loop].
  - destruct (_context_fits _ _ []) eqn:Hfit; [split; [done|split; [done|by left]]|].
    destruct summary as [s|]; [|split; [done|split; [done|by right]]].
    pose proof (truncate_summary_spec self system_prompt s) as Hl.
    generalize dependent (_truncate_summary_to_budget self system_prompt s). intros t Hl. split; [by destruct t|].
    destruct t as [|x t]; [split; [done|by right]|]. split.
    + intros s' [= <-]. split; [done|]. destruct (Hs s eq_refl) as [_ Hmax].
      apply longest_fit_length in Hl. lia.
    + left. by apply (longest_fit_fits self system_prompt s).
  - destruct (_context_fits _ _ (m :: kept)) eqn:Hfit; [split; [done|split; [done|by left]]|].
    destruct (IH (m :: dropped) (_build_summary self (m :: dropped))) as [Hsuf Hok]; [apply build_summary_ok|].
    split; [by apply suffix_cons_r|done].
Qed.

Lemma window_spec kept dropped : 0 <= _context_limit self ->
  let w := window self kept dropped in
  w.1 `suffix_of` kept /\ Z.of_nat (length w.1) <= _context_limit self /\
  (Z.of_nat (length kept) <= _context_limit self -> w = (kept, dropped)).
Proof.
  intros Hl. revert dropped. induction kept as [|m kept IH]; intros dropped; cbn [window]; [done|].
  destruct (_ <? _) eqn:Hlt; bools; [|done]. destruct (IH (dropped ++ [m])) as (H1 & H2 & _).
  split_and!; [by apply suffix_cons_r|done|lia].
Qed.

Lemma short_term_context_spec history : 0 <= _context_limit self ->
  let c := build_short_term_context self system_prompt history in
  ctx_history c `suffix_of` history /\ Z.of_nat (length (ctx_history c)) <= _context_limit self /\ context_ok c /\
  (Z.of_nat (length history) <= _context_limit self -> _context_fits self system_prompt history = true ->
   c = mkContext history None).
Proof.
  intros Hl. cbv zeta. unfold build_short_term_context.
  destruct (window_spec history [] Hl) as (Hsuf & Hlen & Hall). destruct (window self history []) as [kept dropped] eqn:E.
  cbn [fst] in *. destruct (fit_loop_spec kept dropped _ (build_summary_ok dropped)) as [Hk Hok].
  split_and!.
  - etrans; [exact Hk|exact Hsuf].
  - apply suffix_length in Hk. lia.
  - exact Hok.
  - intros Hshort Hfit. specialize (Hall Hshort). injection Hall as -> ->. destruct history; cbn [fit_loop];
      change (_merge_system_prompt system_prompt (_build_summary self [])) with system_prompt; by rewrite Hfit.
Qed.
End ShortTerm.

(** The short-term context is bounded: whatever the limits configured, it
    keeps the end of the history, at most [context_limit] messages of it, with a
    summary of at most [context_summary_max_chars] characters, and the prompt
    made of system prompt, summary and messages is within the token budget
    unless nothing at all is added to the system prompt.  A history within the
    limits is kept whole, without a summary. *)
Theorem short_term_context_bounded context_limit max_prompt_tokens summary_max_chars system_prompt history :
  let self := ConversationService_init context_limit max_prompt_tokens summary_max_chars in
  let c := build_short_term_context self system_prompt history in
  let size := estimate_prompt_tokens
                (context_messages (_merge_system_prompt system_prompt (ctx_summary c)) (ctx_history c)) in
  ctx_history c `suffix_of` history /\
  Z.of_nat (length (ctx_history c)) <= Z.max context_limit 0 /\
  (forall s, ctx_summary c = Some s -> s <> [] /\ slen s <= Z.max summary_max_chars 100) /\
  (size <= Z.max max_prompt_tokens 100 \/ ctx_history c = [] /\ ctx_summary c = None) /\
  (Z.of_nat (length history) <= context_limit ->
   estimate_prompt_tokens (context_messages system_prompt history) <= Z.max max_prompt_tokens 100 ->
   c = mkContext history None).
Proof.
  cbv zeta. set (self := ConversationService_init _ _ _).
  destruct (short_term_context_spec self system_prompt ltac:(cbn; lia) history ltac:(cbn; lia))
    as (Hsuf & Hlen & [Hsum Hfit] & Hall).
  split_and!; [done|done|exact Hsum| |].
  - destruct Hfit as [Hfit|?]; [left|by right]. by apply Z.leb_le in Hfit.
  - intros H1 H2. apply Hall; [cbn; lia|by apply Z.leb_le].
Qed.

(** ** Threads belong to their owners *)

Inductive conversation_event :=
| Created (t : ConversationThread)
| Appended (owner : pystr) (m : ConversationMessage).

(** The calls that change the repository; a new thread gets a fresh [uuid4]. *)
Inductive conversation_step (r : InMemoryConversationRepository)
  : conversation_event -> InMemoryConversationRepository -> Prop :=
| StepCreate now i owner title t r' :
    i ∉ (_threads r).*1 -> create_thread now i owner title r = (Ok t, r') -> conversation_step r (Created t) r'
| StepAppend now owner i role content tokens m r' :
    append_message now owner i role content tokens r = (Ok m, r') -> conversation_step r (Appended owner m) r'.

Inductive conversation_runs : list conversation_event -> InMemoryConversationRepository -> Prop :=
| ConversationNil : conversation_runs [] conversation_repo_init
| ConversationSnoc log r e r' :
    conversation_runs log r -> conversation_step r e r' -> conversation_runs (log ++ [e]) r'.

(** What was appended to a thread, in order. *)
Definition appended_to (i : pystr) (log : list conversation_event) : list ConversationMessage :=
  omap (fun e => match e with
                 | Appended _ m => if decide (cm_thread_id m = i) then Some m else None
                 | Created _ => None
                 end) log.

Definition thread_messages (i : pystr) (r : InMemoryConversationRepository) : list ConversationMessage :=
  default [] (_messages r !! i).

Record conversation_inv (log : list conversation_event) (r : InMemoryConversationRepository) : Prop := {
  ci_messages : forall i, thread_messages i r = appended_to i log;
  ci_owner : forall o m, Appended o m ∈ log ->
    exists t, dict_get (cm_thread_id m) (_threads r) = Some t /\ th_owner_key_hash t = o;
  ci_ids : StronglySorted (fun a b => cm_id a < cm_id b)
             (omap (fun e => match e with Appended _ m => Some m | Created _ => None end) log);
  ci_next : forall o m, Appended o m ∈ log -> cm_id m < _next_message_id r;
  ci_valid : forall o m, Appended o m ∈ log -> cm_content m <> [] /\ cm_role m ∈ _VALID_ROLES
}.

Lemma create_thread_inv now i owner title t r r' : create_thread now i owner title r = (Ok t, r') ->
  t = mkThread i owner (strip title) (Some now) (Some now) /\ r' = repo_create_thread t r.
Proof. unfold create_thread. destruct (_ ≫= _) as [[]|e]; [|done]. by intros [= <- <-]. Qed.

Lemma append_message_inv now owner i role content tokens m r r' :
  append_message now owner i role content tokens r = (Ok m, r') ->
  exists t, dict_get i (_threads r) = Some t /\ th_owner_key_hash t = owner /\
    role ∈ _VALID_ROLES /\ content <> [] /\
    m = mkMessage (_next_message_id r) i role content tokens (Some now) /\
    r' = mkConversationRepo
           (dict_set i (mkThread (th_id t) (th_owner_key_hash t) (th_title t) (th_created_at t) (Some now)) (_threads r))
           (<[i := thread_messages i r ++ [m]]> (_messages r)) (_next_message_id r + 1).
Proof.
  unfold append_message. destruct (_ ≫= _) as [[]|e] eqn:Hc; [|done].
  apply bind_ok in Hc as ([] & _ & Hc). apply bind_ok in Hc as ([] & Hrole%raise_if_ok & Hc).
  apply bind_ok in Hc as ([] & Hcontent%raise_if_ok & _). bools.
  unfold repo_add_message, repo_get_thread. destruct (dict_get i (_threads r)) as [t|]; [|done].
  destruct (decide (th_owner_key_hash t = owner)) as [Ho|]; [|done]. intros [= <- <-]. by exists t.
Qed.

Lemma appended_to_fresh i log r : conversation_inv log r -> i ∉ (_threads r).*1 -> appended_to i log = [].
Proof.
  intros Hinv Hi. unfold appended_to. apply elem_of_nil_inv. intros m ([o|o m'] & He & Hm)%list_elem_of_omap; [done|].
  case_decide as Ht; [|done]. injection Hm as ->. destruct (ci_owner _ _ Hinv _ _ He) as (t & Hget & _).
  apply Hi. rewrite <- Ht. apply dict_get_mem. by eexists.
Qed.

Lemma created_inv log r t : conversation_inv log r -> th_id t ∉ (_threads r).*1 ->
  conversation_inv (log ++ [Created t]) (repo_create_thread t r).
Proof.
  intros Hinv Hi. assert (Hin : forall o m, Appended o m ∈ log ++ [Created t] -> Appended o m ∈ log)
    by (intros o m [?|?%list_elem_of_singleton]%elem_of_app; done).
  split.
  - intros i. unfold appended_to. rewrite omap_app. simpl. rewrite app_nil_r.
    change (thread_messages i (repo_create_thread t r) = appended_to i log). rewrite <- (ci_messages _ _ Hinv).
    unfold repo_create_thread, thread_messages. simpl. destruct (_messages r !! th_id t) eqn:E; [done|].
    destruct (decide (th_id t = i)) as [<-|Hne]; [by rewrite lookup_insert, E, decide_True|by rewrite lookup_insert_ne].
  - intros o m Hm%Hin. destruct (ci_owner _ _ Hinv _ _ Hm) as (t' & Hget & Ho). exists t'. split; [|done].
    cbn [repo_create_thread _threads]. rewrite dict_get_set. case_decide as Heq; [|done].
    exfalso. apply Hi, dict_get_mem. rewrite <- Heq. by eexists.
  - rewrite omap_app. simpl. rewrite app_nil_r. apply (ci_ids _ _ Hinv).
  - intros o m Hm%Hin. apply (ci_next _ _ Hinv _ _ Hm).
  - intros o m Hm%Hin. apply (ci_valid _ _ Hinv _ _ Hm).
Qed.

Lemma appended_inv log r owner t m now : conversation_inv log r ->
  dict_get (cm_thread_id m) (_threads r) = Some t -> th_owner_key_hash t = owner ->
  cm_role m ∈ _VALID_ROLES -> cm_content m <> [] -> cm_id m = _next_message_id r ->
  conversation_inv (log ++ [Appended owner m])
    (mkConversationRepo
       (dict_set (cm_thread_id m)
          (mkThread (th_id t) (th_owner_key_hash t) (th_title t) (th_created_at t) (Some now)) (_threads r))
       (<[cm_thread_id m := thread_messages (cm_thread_id m) r ++ [m]]> (_messages r)) (_next_message_id r + 1)).
Proof.
  intros Hinv Hget Ho Hrole Hcontent Hid. split; cbn [_threads _next_message_id].
  - intros i. unfold appended_to. rewrite omap_app. change (omap _ log) with (appended_to i log).
    unfold thread_messages. cbn [_messages omap list_omap]. case_decide as Hi.
    + subst i. rewrite lookup_insert, decide_True by done. cbn. by rewrite <- (ci_messages _ _ Hinv).
    + rewrite lookup_insert_ne by done. rewrite app_nil_r. apply (ci_messages _ _ Hinv).
  - intros o m' [Hm|Hm%list_elem_of_singleton]%elem_of_app; rewrite dict_get_set.
    + destruct (ci_owner _ _ Hinv _ _ Hm) as (t' & Hget' & Ho'). case_decide as Heq; [|by exists t'].
      rewrite Heq, Hget in Hget'. injection Hget' as <-. by eexists.
    + injection Hm as -> ->. rewrite decide_True by done. by eexists.
  - rewrite omap_app. simpl. apply sorted_snoc; [apply (ci_ids _ _ Hinv)|]. apply Forall_forall.
    intros m' ([o|o m''] & He & Hm)%list_elem_of_omap; [done|]. injection Hm as ->. rewrite Hid.
    apply (ci_next _ _ Hinv _ _ He).
  - intros o m' [Hm|Hm%list_elem_of_singleton]%elem_of_app.
    + pose proof (ci_next _ _ Hinv _ _ Hm). lia.
    + injection Hm as -> ->. lia.
  - intros o m' [Hm|Hm%list_elem_of_singleton]%elem_of_app; [apply (ci_valid _ _ Hinv _ _ Hm)|].
    by injection Hm as -> ->.
Qed.

Lemma conversation_runs_inv log r : conversation_runs log r -> conversation_inv log r.
Proof.
  induction 1 as [|log r e r' Hr IH Hstep].
  - split; [done|intros ? ? H; by apply not_elem_of_nil in H|constructor|intros ? ? H; by apply not_elem_of_nil in H..].
  - destruct Hstep as [now i owner title t r' Hi H|now owner i role content tokens m r' H].
    + apply create_thread_inv in H as [-> ->]. by apply created_inv.
    + apply append_message_inv in H as (t & Hget & Ho & Hrole & Hcontent & -> & ->).
      by apply (appended_inv log r owner t (mkMessage (_next_message_id r) i role content tokens (Some now)) now).
Qed.

Lemma message_leb_total a b : message_leb a b = true \/ message_leb b a = true.
Proof.
  unfold message_leb, _message_order_key. rewrite !orb_true_iff, !andb_true_iff, !Z.ltb_lt, !Z.eqb_eq, !Z.leb_le. lia.
Qed.

Lemma message_leb_trans a b c : message_leb a b = true -> message_leb b c = true -> message_leb a c = true.
Proof.
  unfold message_leb, _message_order_key. rewrite !orb_true_iff, !andb_true_iff, !Z.ltb_lt, !Z.eqb_eq, !Z.leb_le. lia.
Qed.

Lemma load_history_inv log r owner i l : conversation_inv log r -> load_history owner i r = Ok l ->
  exists t, dict_get i (_threads r) = Some t /\ th_owner_key_hash t = owner /\
    l = sort_by message_leb (appended_to i log).
Proof.
  intros Hinv. unfold load_history, get_thread, repo_list_messages, repo_get_thread.
  intros (t & Hget & [= <-])%bind_ok. apply bind_ok in Hget as ([] & _ & Hget).
  destruct (dict_get i (_threads r)) as [t'|]; [|done]. destruct (decide _) as [Ho|]; [|done].
  exists t'. split_and!; [done|done|]. unfold thread_messages in *. by rewrite <- (ci_messages _ _ Hinv).
Qed.

Lemma appended_to_filter i log :
  appended_to i log = filter (fun m => cm_thread_id m = i)
    (omap (fun e => match e with Appended _ m => Some m | Created _ => None end) log).
Proof.
  unfold appended_to. induction log as [|[t|o m] log IH]; [done|exact IH|].
  cbn [omap list_omap] in *. rewrite filter_cons, <- IH. by case_decide.
Qed.

Definition created_before (a b : ConversationMessage) : Prop :=
  default datetime_min (cm_created_at a) <= default datetime_min (cm_created_at b).

Lemma in_order_sorted l : StronglySorted (fun a b => cm_id a < cm_id b) l -> StronglySorted created_before l ->
  StronglySorted (fun a b => message_leb a b = true) l.
Proof.
  intros H1 H2. induction H1 as [|x l Hl IH Hx]; [constructor|].
  apply StronglySorted_inv in H2 as [H2 Hx2]. constructor; [by apply IH|].
  apply Forall_forall. intros y Hy. rewrite Forall_forall in Hx, Hx2. specialize (Hx y Hy). specialize (Hx2 y Hy).
  unfold created_before in Hx2. unfold message_leb, _message_order_key. rewrite orb_true_iff, andb_true_iff, Z.ltb_lt, Z.eqb_eq, Z.leb_le. lia.
Qed.

(** C40. Conversations are private and complete: after any sequence of calls by
    any tenants, the history that a tenant loads from a thread consists of
    exactly the messages appended to it, all of them by that same tenant, sorted
    by time, and in the order they were appended if the clock did not go back;
    another tenant is told that the thread does not exist. *)
Theorem conversation_isolation log r owner i l :
  conversation_runs log r -> load_history owner i r = Ok l ->
  l ≡ₚ appended_to i log /\
  StronglySorted (fun a b => message_leb a b = true) l /\
  (forall o m, Appended o m ∈ log -> cm_thread_id m = i -> o = owner) /\
  (StronglySorted created_before (appended_to i log) -> l = appended_to i log) /\
  (forall other, valid_owner_hash other = true -> other <> owner ->
     load_history other i r = Err ConversationNotFoundError).
Proof.
  intros Hinv%conversation_runs_inv Hload.
  destruct (load_history_inv _ _ _ _ _ Hinv Hload) as (t & Hget & Ho & ->). split_and!.
  - apply sort_by_perm.
  - apply sort_by_sorted; [exact message_leb_total|exact message_leb_trans].
  - intros o m Hm <-. destruct (ci_owner _ _ Hinv _ _ Hm) as (t' & Hget' & <-). congruence.
  - intros Htime. apply sort_by_id, in_order_sorted; [|done]. rewrite appended_to_filter.
    apply sorted_filter, (ci_ids _ _ Hinv).
  - intros other Hval Hne. unfold load_history, get_thread, validate_owner, repo_get_thread.
    rewrite Hval, Hget. cbn [negb raise_if mbind result_bind]. by rewrite decide_False by congruence.
Qed.

(** Messages read back from the repository are accepted by [ChatMessage], so
    [merge_history] does not raise. *)
Lemma merge_history_accepts log r owner i l client current :
  conversation_runs log r -> load_history owner i r = Ok l ->
  exists merged, merge_history l client current = Ok merged.
Proof.
  intros Hinv%conversation_runs_inv Hload.
  destruct (load_history_inv _ _ _ _ _ Hinv Hload) as (t & _ & _ & ->).
  assert (Hall : Forall (fun m => cm_content m <> []) (sort_by message_leb (appended_to i log))).
  { rewrite sort_by_perm. apply Forall_forall. intros m ([o|o m'] & He & Hm)%list_elem_of_omap; [done|].
    case_decide; [|done]. injection Hm as ->. apply (ci_valid _ _ Hinv _ _ He). }
  unfold merge_history. generalize dependent (sort_by message_leb (appended_to i log)). intros h _ Hall.
  assert (Hs : exists s, mapM chat_message_of (filter (fun m => cm_role m ∈ _VALID_ROLES) h) = Ok s).
  { apply (Forall_filter (fun m => cm_content m <> []) (fun m => cm_role m ∈ _VALID_ROLES)) in Hall.
    induction Hall as [|m h' Hm _ [s IH]]; [by exists []|].
    assert (Hc : chat_message_of m = Ok (mkChatMessage (cm_role m) (cm_content m)))
      by (unfold chat_message_of; by rewrite bool_decide_false).
    exists (mkChatMessage (cm_role m) (cm_content m) :: s).
    change (mapM chat_message_of (m :: h')) with
      (y ← chat_message_of m; k ← mapM chat_message_of h'; Ok (y :: k)). by rewrite Hc, IH. }
  destruct Hs as [s ->]. by eexists.
Qed.

(** ** One thread of two tenants' repository *)

Definition alice : pystr := repeat 97%N 64.
Definition demo_thread : pystr := u "t1".

Definition run_call {A} (c : result conversation_error A * InMemoryConversationRepository) := c.2.
Definition demo_repo1 : InMemoryConversationRepository :=
  run_call (create_thread 5 demo_thread alice (u " Trip ") conversation_repo_init).
Definition demo_repo2 : InMemoryConversationRepository :=
  run_call (append_message 6 alice demo_thread (u "user") (u "hello") 0 demo_repo1).
Definition demo_message : ConversationMessage := mkMessage 1 demo_thread (u "user") (u "hello") 0 (Some 6).

Lemma demo_conversation :
  conversation_runs [Created (mkThread demo_thread alice (u "Trip") (Some 5) (Some 5)); Appended alice demo_message]
    demo_repo2.
Proof.
  apply (ConversationSnoc [Created (mkThread demo_thread alice (u "Trip") (Some 5) (Some 5))] demo_repo1).
  - apply (ConversationSnoc [] conversation_repo_init); [constructor|].
    apply (StepCreate _ 5 demo_thread alice (u " Trip ")); [apply not_elem_of_nil|vm_compute; reflexivity].
  - apply (StepAppend _ 6 alice demo_thread (u "user") (u "hello") 0). vm_compute. reflexivity.
Qed.

Lemma conversation_isolation_witness :
  let log := [Created (mkThread demo_thread alice (u "Trip") (Some 5) (Some 5)); Appended alice demo_message] in
  [demo_message] ≡ₚ appended_to demo_thread log /\
  StronglySorted (fun a b => message_leb a b = true) [demo_message] /\
  (forall o m, Appended o m ∈ log -> cm_thread_id m = demo_thread -> o = alice) /\
  (StronglySorted created_before (appended_to demo_thread log) -> [demo_message] = appended_to demo_thread log) /\
  (forall other, valid_owner_hash other = true -> other <> alice ->
     load_history other demo_thread demo_repo2 = Err ConversationNotFoundError).
Proof.
  refine (conversation_isolation _ demo_repo2 alice demo_thread [demo_message] demo_conversation _).
  vm_compute. reflexivity.
Defined.
