(* ===== verification/AuditLog.v ===== *)
(** * Audit log: [app/audit/service.py]

    Actors, events, the in-memory repository and the service that records an
    event without failing its caller.  Event payloads are JSON objects; instants
    are microseconds. *)

From S2P Require Import Prelude Json.
Local Open Scope Z_scope.

Record AuditActor := mkAuditActor {
  aa_workspace_id : option pystr;
  aa_api_key_hash : option pystr;
  aa_user_id : option pystr;
  aa_ip : option pystr
}.

Record AuditEvent := mkAuditEvent {
  ae_action : pystr;
  ae_resource_type : pystr;
  ae_resource_id : pystr;
  ae_workspace_id : option pystr;
  ae_api_key_hash : option pystr;
  ae_user_id : option pystr;
  ae_before : option (list (pystr * json));
  ae_after : option (list (pystr * json));
  ae_ip : option pystr;
  ae_id : Z;
  ae_created_at : option Z
}.

Record InMemoryAuditRepository := mkAuditRepo { _events : list AuditEvent; _id_seq : Z }.
Definition audit_repo_init : InMemoryAuditRepository := mkAuditRepo [] 0.

(** [InMemoryAuditRepository.record] *)
Definition repo_record (now : Z) (e : AuditEvent) (r : InMemoryAuditRepository)
  : AuditEvent * InMemoryAuditRepository :=
  let i := _id_seq r + 1 in
  let saved := mkAuditEvent (ae_action e) (ae_resource_type e) (ae_resource_id e) (ae_workspace_id e)
                 (ae_api_key_hash e) (ae_user_id e) (ae_before e) (ae_after e) (ae_ip e) i (Some now) in
  (saved, mkAuditRepo (_events r ++ [saved]) i).

(** [datetime.min], in microseconds from the epoch *)
Definition audit_time (e : AuditEvent) : Z := default (-62135596800 * 1000000) (ae_created_at e).

(** [l[:limit]], also for a negative [limit] *)
Definition pyslice {A} (limit : Z) (l : list A) : list A :=
  take (Z.to_nat (if limit <? 0 then Z.of_nat (length l) + limit else limit)) l.

Definition list_events (workspace_id action : option pystr) (limit : Z) (r : InMemoryAuditRepository)
  : list AuditEvent :=
  let keep e := (match workspace_id with Some w => bool_decide (ae_workspace_id e = Some w) | None => true end)
                && (match action with Some a => bool_decide (ae_action e = a) | None => true end) in
  pyslice limit (sort_by (fun a b => audit_time b <=? audit_time a) (filter (fun e => keep e = true) (_events r))).

(** [AuditService.record] over the in-memory repository, which does not fail. *)
Definition record (now : Z) (action resource_type resource_id : pystr) (actor : option AuditActor)
    (before after : option (list (pystr * json))) (r : InMemoryAuditRepository) : InMemoryAuditRepository :=
  (repo_record now
     (mkAuditEvent action resource_type resource_id (actor ≫= aa_workspace_id) (actor ≫= aa_api_key_hash)
        (actor ≫= aa_user_id) before after (actor ≫= aa_ip) 0 None) r).2.

(** The record of a service call: when there is an audit service and an actor *)
Definition if_audited (actor : option AuditActor)
    (f : AuditActor -> InMemoryAuditRepository -> InMemoryAuditRepository)
    (audit : option InMemoryAuditRepository) : option InMemoryAuditRepository :=
  match actor with Some a => f a <$> audit | None => audit end.

(** Events are only ever added. *)
Lemma record_events now action resource_type resource_id actor before after r :
  exists e, _events (record now action resource_type resource_id actor before after r) = _events r ++ [e] /\
    ae_action e = action /\ ae_resource_id e = resource_id /\ ae_user_id e = (actor ≫= aa_user_id).
Proof. eexists. split_and!; reflexivity. Qed.
