(* ===== verification/Workspaces.v ===== *)
(** * Workspaces: [app/auth/workspace_service.py] and [workspaces_repository.py]

    Workspaces and their members in the in-memory repository, and the service
    with its role checks.  The entitlement service is that of [Billing] over any
    billing repository; audit events go to [AuditLog].  The users are looked up by
    the argument [find_by_email]; [str.lower], the [uuid4] of a new workspace and
    the clock are arguments.  Calls do not interleave: the in-memory
    repositories never suspend. *)

From S2P Require Import Prelude Json Billing AuditLog.
Local Open Scope Z_scope.

Record WorkspaceRecord := mkWorkspace {
  ws_id : pystr;
  ws_name : pystr;
  ws_created_by_user_id : pystr;
  ws_created_at : option Z;
  ws_updated_at : option Z
}.

Record WorkspaceMemberRecord := mkMember {
  wm_id : Z;
  wm_workspace_id : pystr;
  wm_user_id : pystr;
  wm_role : pystr;
  wm_created_at : option Z
}.

Record InMemoryWorkspaceRepository := mkWorkspaceRepo {
  _workspaces : gmap pystr WorkspaceRecord;
  _members : list WorkspaceMemberRecord;
  _member_id_seq : Z
}.
Definition workspace_repo_init : InMemoryWorkspaceRepository := mkWorkspaceRepo ∅ [] 0.

(** ** The repository *)

(** The member record of a user in a workspace. *)
Definition is_member_of (workspace_id user_id : pystr) (m : WorkspaceMemberRecord) : Prop :=
  wm_workspace_id m = workspace_id /\ wm_user_id m = user_id.
#[global] Instance is_member_of_dec workspace_id user_id m : Decision (is_member_of workspace_id user_id m).
Proof. unfold is_member_of. apply _. Defined.

Definition repo_create_workspace (w : WorkspaceRecord) (r : InMemoryWorkspaceRepository)
  : WorkspaceRecord * InMemoryWorkspaceRepository :=
  (w, mkWorkspaceRepo (<[ws_id w := w]> (_workspaces r)) (_members r) (_member_id_seq r)).

Definition find_workspace_by_id (workspace_id : pystr) (r : InMemoryWorkspaceRepository) : option WorkspaceRecord :=
  _workspaces r !! workspace_id.

Definition update_workspace (now : Z) (workspace_id name : pystr) (r : InMemoryWorkspaceRepository)
  : option WorkspaceRecord * InMemoryWorkspaceRepository :=
  match _workspaces r !! workspace_id with
  | None => (None, r)
  | Some w =>
      let w' := mkWorkspace (ws_id w) name (ws_created_by_user_id w) (ws_created_at w) (Some now) in
      (Some w', mkWorkspaceRepo (<[workspace_id := w']> (_workspaces r)) (_members r) (_member_id_seq r))
  end.

Definition repo_list_workspaces_for_user (user_id : pystr) (r : InMemoryWorkspaceRepository)
  : list (WorkspaceRecord * pystr) :=
  omap (fun m => if decide (wm_user_id m = user_id)
                 then (fun w => (w, wm_role m)) <$> _workspaces r !! wm_workspace_id m
                 else None) (_members r).

Definition repo_get_member (workspace_id user_id : pystr) (r : InMemoryWorkspaceRepository)
  : option WorkspaceMemberRecord :=
  head (filter (is_member_of workspace_id user_id) (_members r)).

(** [None]: [ConflictError] *)
Definition repo_add_member (now : Z) (workspace_id user_id role : pystr) (r : InMemoryWorkspaceRepository)
  : option WorkspaceMemberRecord * InMemoryWorkspaceRepository :=
  match repo_get_member workspace_id user_id r with
  | Some _ => (None, r)
  | None =>
      let i := _member_id_seq r + 1 in
      let m := mkMember i workspace_id user_id role (Some now) in
      (Some m, mkWorkspaceRepo (_workspaces r) (_members r ++ [m]) i)
  end.

Definition repo_list_members (workspace_id : pystr) (r : InMemoryWorkspaceRepository)
  : list WorkspaceMemberRecord :=
  filter (fun m => wm_workspace_id m = workspace_id) (_members r).

Definition with_role (role : pystr) (m : WorkspaceMemberRecord) : WorkspaceMemberRecord :=
  mkMember (wm_id m) (wm_workspace_id m) (wm_user_id m) role (wm_created_at m).

(** The first matching record, changed or removed; whether there was one. *)
Fixpoint set_role (workspace_id user_id role : pystr) (l : list WorkspaceMemberRecord)
  : bool * list WorkspaceMemberRecord :=
  match l with
  | [] => (false, [])
  | m :: l =>
      if decide (is_member_of workspace_id user_id m) then (true, with_role role m :: l)
      else let '(b, l) := set_role workspace_id user_id role l in (b, m :: l)
  end.
Fixpoint pop_member (workspace_id user_id : pystr) (l : list WorkspaceMemberRecord)
  : bool * list WorkspaceMemberRecord :=
  match l with
  | [] => (false, [])
  | m :: l =>
      if decide (is_member_of workspace_id user_id m) then (true, l)
      else let '(b, l) := pop_member workspace_id user_id l in (b, m :: l)
  end.

Definition with_members (p : bool * list WorkspaceMemberRecord) (r : InMemoryWorkspaceRepository)
  : bool * InMemoryWorkspaceRepository :=
  (p.1, mkWorkspaceRepo (_workspaces r) p.2 (_member_id_seq r)).

Definition repo_update_member_role (workspace_id user_id role : pystr) (r : InMemoryWorkspaceRepository)
  : bool * InMemoryWorkspaceRepository :=
  with_members (set_role workspace_id user_id role (_members r)) r.
Definition repo_remove_member (workspace_id user_id : pystr) (r : InMemoryWorkspaceRepository)
  : bool * InMemoryWorkspaceRepository :=
  with_members (pop_member workspace_id user_id (_members r)) r.

(** ** The service *)

Definition OWNER : pystr := u "owner".
Definition _ROLES : list pystr := [OWNER; u "admin"; u "member"; u "viewer"].
Definition _MEMBER_MANAGEMENT_ROLES : list pystr := [OWNER; u "admin"].
Definition _RESOURCE_CREATION_ROLES : list pystr := [OWNER; u "admin"; u "member"].

Inductive workspace_error :=
| AuthorizationError (message : pystr)
| WorkspaceValidation (message : pystr)
| MemberConflict
| EntitlementError (e : limit_error).

Record workspace_world := mkWorkspaceWorld {
  ww_repo : InMemoryWorkspaceRepository;
  ww_audit : InMemoryAuditRepository
}.

Section Service.
Context {R : Type} {B : BillingRepository R}.
Context (lower : pystr -> pystr) (find_by_email : pystr -> option pystr).
(** [self._audit is not None]; [self._entitlement] with its repository *)
Context (has_audit : bool) (entitlement : option R).

Definition raise_with {A} (e : workspace_error) (s : workspace_world) : result workspace_error A * workspace_world :=
  (Err e, s).

(** A guard, then the rest of the method. *)
Definition check {A B} (m : result workspace_error A) (s : workspace_world)
    (k : A -> result workspace_error B * workspace_world) : result workspace_error B * workspace_world :=
  match m with Ok a => k a | Err e => (Err e, s) end.

Definition audited (now : Z) (action resource_type resource_id : pystr) (actor : option AuditActor)
    (before after : option (list (pystr * json))) (a : InMemoryAuditRepository) : InMemoryAuditRepository :=
  match actor with
  | Some _ => if has_audit then record now action resource_type resource_id actor before after a else a
  | None => a
  end.

Definition _require_member_role (workspace_id user_id : pystr) (allowed_roles : list pystr)
    (r : InMemoryWorkspaceRepository) : result workspace_error WorkspaceMemberRecord :=
  match repo_get_member workspace_id user_id r with
  | None => Err (AuthorizationError (u "You are not a member of this workspace."))
  | Some m =>
      if decide (wm_role m ∈ allowed_roles) then Ok m
      else Err (AuthorizationError (u "Role '" ++ wm_role m ++ u "' is not allowed for this operation."))
  end.

Definition create_workspace (now : Z) (new_id user_id name : pystr) (s : workspace_world)
  : result workspace_error (WorkspaceRecord * pystr) * workspace_world :=
  let name := strip name in
  if bool_decide (name = []) then raise_with (WorkspaceValidation (u "Workspace name is required.")) s
  else
    let '(saved, r) := repo_create_workspace (mkWorkspace new_id name user_id (Some now) None) (ww_repo s) in
    match repo_add_member now new_id user_id OWNER r with
    | (None, r) => raise_with MemberConflict (mkWorkspaceWorld r (ww_audit s))
    | (Some _, r) => (Ok (saved, OWNER), mkWorkspaceWorld r (ww_audit s))
    end.

Definition get_workspace (workspace_id : pystr) (s : workspace_world) : option WorkspaceRecord :=
  find_workspace_by_id workspace_id (ww_repo s).

Definition list_workspaces_for_user (user_id : pystr) (s : workspace_world) : list (WorkspaceRecord * pystr) :=
  repo_list_workspaces_for_user user_id (ww_repo s).

Definition name_entry (name : pystr) : option (list (pystr * json)) := Some [(u "name", JStr name)].
Definition role_entry (role : pystr) : option (list (pystr * json)) := Some [(u "role", JStr role)].

Definition rename_workspace (now : Z) (workspace_id actor_user_id name : pystr) (actor : option AuditActor)
    (s : workspace_world) : result workspace_error WorkspaceRecord * workspace_world :=
  let cleaned := strip name in
  check (_ ← raise_if (bool_decide (cleaned = [])) (WorkspaceValidation (u "Workspace name is required."));
         _ ← raise_if (128 <? slen cleaned) (WorkspaceValidation (u "Workspace name is too long."));
         _ ← _require_member_role workspace_id actor_user_id _MEMBER_MANAGEMENT_ROLES (ww_repo s);
         match find_workspace_by_id workspace_id (ww_repo s) with
         | None => Err (WorkspaceValidation (u "Workspace not found."))
         | Some current => Ok (ws_name current)
         end) s (fun previous_name =>
  match update_workspace now workspace_id cleaned (ww_repo s) with
  | (None, r) => raise_with (WorkspaceValidation (u "Workspace not found.")) (mkWorkspaceWorld r (ww_audit s))
  | (Some updated, r) =>
      (Ok updated, mkWorkspaceWorld r (audited now (u "workspace.rename") (u "workspace") workspace_id actor
                                         (name_entry previous_name) (name_entry cleaned) (ww_audit s)))
  end).

Definition invalid_role (role : pystr) : workspace_error :=
  WorkspaceValidation (u "Invalid role '" ++ role ++ u "'. Must be one of: admin, member, owner, viewer.").

(** The role a member may be given. *)
Definition assignable_role (role owner_message : pystr) : result workspace_error unit :=
  _ ← raise_if (negb (bool_decide (role ∈ _ROLES))) (invalid_role role);
  raise_if (bool_decide (role = OWNER)) (WorkspaceValidation owner_message).

Definition member_limit (workspace_id : pystr) (r : InMemoryWorkspaceRepository) : result workspace_error unit :=
  match entitlement with
  | None => Ok tt
  | Some b =>
      match require_limit workspace_id (u "member") (Z.of_nat (length (repo_list_members workspace_id r))) b with
      | Ok _ => Ok tt
      | Err e => Err (EntitlementError e)
      end
  end.

Definition add_member (now : Z) (workspace_id actor_user_id target_email role : pystr) (actor : option AuditActor)
    (s : workspace_world) : result workspace_error WorkspaceMemberRecord * workspace_world :=
  let lowered := lower role in
  check (_ ← _require_member_role workspace_id actor_user_id _MEMBER_MANAGEMENT_ROLES (ww_repo s);
         _ ← assignable_role lowered (u "Cannot assign the 'owner' role via member management.");
         target ← match find_by_email (lower (strip target_email)) with
                  | None => Err (WorkspaceValidation (u "User with email '" ++ target_email ++ u "' not found."))
                  | Some i => Ok i
                  end;
         _ ← member_limit workspace_id (ww_repo s);
         Ok target) s (fun target =>
  match repo_add_member now workspace_id target lowered (ww_repo s) with
  | (None, r) => raise_with MemberConflict (mkWorkspaceWorld r (ww_audit s))
  | (Some m, r) =>
      (Ok m, mkWorkspaceWorld r (audited now (u "member.invite") (u "member") target actor None
                                   (role_entry lowered) (ww_audit s)))
  end).

Definition list_members (workspace_id actor_user_id : pystr) (s : workspace_world)
  : result workspace_error (list WorkspaceMemberRecord) :=
  _ ← _require_member_role workspace_id actor_user_id _ROLES (ww_repo s);
  Ok (repo_list_members workspace_id (ww_repo s)).

(** The member that an update or a removal is about, who must not be the owner. *)
Definition target_member (workspace_id target_user_id owner_message : pystr) (r : InMemoryWorkspaceRepository)
  : result workspace_error WorkspaceMemberRecord :=
  match repo_get_member workspace_id target_user_id r with
  | None => Err (WorkspaceValidation (u "Target user is not a member of this workspace."))
  | Some target =>
      _ ← raise_if (bool_decide (wm_role target = OWNER)) (AuthorizationError owner_message);
      Ok target
  end.

Definition update_member_role (now : Z) (workspace_id actor_user_id target_user_id role : pystr)
    (actor : option AuditActor) (s : workspace_world) : result workspace_error unit * workspace_world :=
  let lowered := lower role in
  check (_ ← _require_member_role workspace_id actor_user_id _MEMBER_MANAGEMENT_ROLES (ww_repo s);
         _ ← assignable_role lowered (u "Cannot assign the 'owner' role via role update.");
         target_member workspace_id target_user_id (u "Cannot change the role of the workspace owner.") (ww_repo s))
    s (fun target =>
  match repo_update_member_role workspace_id target_user_id lowered (ww_repo s) with
  | (false, r) => raise_with (WorkspaceValidation (u "Failed to update member role.")) (mkWorkspaceWorld r (ww_audit s))
  | (true, r) =>
      (Ok tt, mkWorkspaceWorld r (audited now (u "member.role_change") (u "member") target_user_id actor
                                    (role_entry (wm_role target)) (role_entry lowered) (ww_audit s)))
  end).

Definition remove_member (now : Z) (workspace_id actor_user_id target_user_id : pystr) (actor : option AuditActor)
    (s : workspace_world) : result workspace_error unit * workspace_world :=
  check (_ ← _require_member_role workspace_id actor_user_id _MEMBER_MANAGEMENT_ROLES (ww_repo s);
         target_member workspace_id target_user_id (u "Cannot remove the workspace owner.") (ww_repo s))
    s (fun target =>
  match repo_remove_member workspace_id target_user_id (ww_repo s) with
  | (false, r) => raise_with (WorkspaceValidation (u "Failed to remove member.")) (mkWorkspaceWorld r (ww_audit s))
  | (true, r) =>
      (Ok tt, mkWorkspaceWorld r (audited now (u "member.remove") (u "member") target_user_id actor
                                    (role_entry (wm_role target)) None (ww_audit s)))
  end).
End Service.

(** * Theorems

    The owner of a workspace is its creator for ever; the members change only
    through its owner and admins, within the plan, and on the record. *)

(** ** The calls of the service *)

Inductive workspace_call :=
| CallCreate (user_id name : pystr)
| CallRename (workspace_id actor_user_id name : pystr) (actor : option AuditActor)
| CallAdd (workspace_id actor_user_id target_email role : pystr) (actor : option AuditActor)
| CallUpdate (workspace_id actor_user_id target_user_id role : pystr) (actor : option AuditActor)
| CallRemove (workspace_id actor_user_id target_user_id : pystr) (actor : option AuditActor).

Definition drop_value {A} (p : result workspace_error A * workspace_world) : result workspace_error unit * workspace_world :=
  (match p.1 with Ok _ => Ok tt | Err e => Err e end, p.2).

(** ** Lists of members *)

Lemma get_member_split i us r m : repo_get_member i us r = Some m ->
  exists l1 l2, _members r = l1 ++ m :: l2 /\ is_member_of i us m /\ Forall (fun x => ¬ is_member_of i us x) l1.
Proof.
  unfold repo_get_member. induction (_members r) as [|x l IH]; [done|]. rewrite filter_cons. case_decide as Hx.
  - intros [= ->]. by exists [], l.
  - intros H. destruct (IH H) as (l1 & l2 & -> & Hm & Hl). exists (x :: l1), l2. split_and!; [done|done|by constructor].
Qed.

Lemma get_member_none i us r : repo_get_member i us r = None ->
  Forall (fun x => ¬ is_member_of i us x) (_members r).
Proof.
  unfold repo_get_member. induction (_members r) as [|x l IH]; [by constructor|]. rewrite filter_cons.
  case_decide; [done|]. intros H'. constructor; [done|by apply IH].
Qed.

Lemma set_role_first i us role l1 m l2 : Forall (fun x => ¬ is_member_of i us x) l1 -> is_member_of i us m ->
  set_role i us role (l1 ++ m :: l2) = (true, l1 ++ with_role role m :: l2).
Proof.
  induction 1 as [|x l1 Hx _ IH]; intros Hm; simpl; [by rewrite decide_True|].
  by rewrite decide_False, IH.
Qed.

Lemma pop_member_first i us l1 m l2 : Forall (fun x => ¬ is_member_of i us x) l1 -> is_member_of i us m ->
  pop_member i us (l1 ++ m :: l2) = (true, l1 ++ l2).
Proof.
  induction 1 as [|x l1 Hx _ IH]; intros Hm; simpl; [by rewrite decide_True|].
  by rewrite decide_False, IH.
Qed.

Section Calls.
Context {R : Type} {B : BillingRepository R}.
Context (lower : pystr -> pystr) (find_by_email : pystr -> option pystr).
Context (has_audit : bool) (entitlement : option R).

Definition perform (now : Z) (new_id : pystr) (c : workspace_call) (s : workspace_world)
  : result workspace_error unit * workspace_world :=
  match c with
  | CallCreate user_id name => drop_value (create_workspace now new_id user_id name s)
  | CallRename i a name actor => drop_value (rename_workspace has_audit now i a name actor s)
  | CallAdd i a email role actor =>
      drop_value (add_member lower find_by_email has_audit entitlement now i a email role actor s)
  | CallUpdate i a target role actor => update_member_role lower has_audit now i a target role actor s
  | CallRemove i a target actor => remove_member has_audit now i a target actor s
  end.

(** [uuid4] does not repeat the id of a workspace. *)
Definition fresh_id (new_id : pystr) (s : workspace_world) : Prop :=
  _workspaces (ww_repo s) !! new_id = None.

Inductive reachable : workspace_world -> Prop :=
| ReachInit : reachable (mkWorkspaceWorld workspace_repo_init audit_repo_init)
| ReachCall now new_id c s res s' :
    reachable s -> fresh_id new_id s -> perform now new_id c s = (res, s') -> reachable s'.

(** ** What a call does to the repository *)

Definition manager (i us : pystr) (r : InMemoryWorkspaceRepository) : Prop :=
  exists m, repo_get_member i us r = Some m /\ wm_role m ∈ _MEMBER_MANAGEMENT_ROLES.

(** The audit trail of a change by [actor]. *)
Definition on_record (actor : option AuditActor) (a a' : InMemoryAuditRepository) : Prop :=
  if has_audit then
    match actor with
    | Some x => exists e, _events a' = _events a ++ [e] /\ ae_user_id e = aa_user_id x
    | None => a' = a
    end
  else a' = a.

(** The plan's ceiling for members, if there is one. *)
Definition member_ceiling (i : pystr) : option Z :=
  b ← entitlement; plan ← _plan_for_workspace i b; max_members plan.

Inductive change (r : InMemoryWorkspaceRepository) (new_id : pystr)
  : workspace_call -> option AuditActor -> InMemoryWorkspaceRepository -> Prop :=
| ChangeCreate us name w r' m :
    _workspaces r' = <[new_id := w]> (_workspaces r) -> _members r' = _members r ++ [m] ->
    ws_created_by_user_id w = us -> is_member_of new_id us m -> wm_role m = OWNER ->
    change r new_id (CallCreate us name) None r'
| ChangeRename i a name actor w w' r' :
    manager i a r -> _workspaces r !! i = Some w -> ws_created_by_user_id w' = ws_created_by_user_id w ->
    _workspaces r' = <[i := w']> (_workspaces r) -> _members r' = _members r ->
    change r new_id (CallRename i a name actor) actor r'
| ChangeAdd i a email role actor us m r' :
    manager i a r -> find_by_email (lower (strip email)) = Some us -> repo_get_member i us r = None ->
    is_member_of i us m -> wm_role m ∈ _ROLES -> wm_role m <> OWNER ->
    (forall n, member_ceiling i = Some n -> Z.of_nat (length (repo_list_members i r)) < n) ->
    _workspaces r' = _workspaces r -> _members r' = _members r ++ [m] ->
    change r new_id (CallAdd i a email role actor) actor r'
| ChangeUpdate i a us role actor role' l1 m l2 r' :
    manager i a r -> is_member_of i us m -> wm_role m <> OWNER -> role' ∈ _ROLES -> role' <> OWNER ->
    _members r = l1 ++ m :: l2 -> _workspaces r' = _workspaces r -> _members r' = l1 ++ with_role role' m :: l2 ->
    change r new_id (CallUpdate i a us role actor) actor r'
| ChangeRemove i a us actor l1 m l2 r' :
    manager i a r -> is_member_of i us m -> wm_role m <> OWNER ->
    _members r = l1 ++ m :: l2 -> _workspaces r' = _workspaces r -> _members r' = l1 ++ l2 ->
    change r new_id (CallRemove i a us actor) actor r'.

Lemma require_role_inv i a roles r m : _require_member_role i a roles r = Ok m ->
  repo_get_member i a r = Some m /\ wm_role m ∈ roles.
Proof.
  unfold _require_member_role. destruct (repo_get_member i a r) as [m'|]; [|done].
  destruct (decide _); [|done]. by intros [= ->].
Qed.

Lemma assignable_inv role msg : assignable_role role msg = Ok tt -> role ∈ _ROLES /\ role <> OWNER.
Proof. unfold assignable_role. intros ([] & H1%raise_if_ok & H2%raise_if_ok)%bind_ok. by bools. Qed.

Lemma target_inv i us msg r m : target_member i us msg r = Ok m ->
  repo_get_member i us r = Some m /\ wm_role m <> OWNER.
Proof.
  unfold target_member. destruct (repo_get_member i us r) as [m'|]; [|done].
  intros ([] & H%raise_if_ok & [= <-])%bind_ok. by bools.
Qed.

Lemma member_limit_inv i r : member_limit entitlement i r = Ok tt ->
  forall n, member_ceiling i = Some n -> Z.of_nat (length (repo_list_members i r)) < n.
Proof.
  unfold member_limit, member_ceiling. destruct entitlement as [b|]; [|done]. unfold require_limit. simpl.
  destruct (_plan_for_workspace i b) as [plan|]; [|done]. simpl. intros H n Hn. rewrite Hn in H.
  destruct (_ <? _) eqn:Hlt; [by bools|done].
Qed.

Lemma audited_on_record now action ty i actor before after a :
  on_record actor a (audited has_audit now action ty i actor before after a).
Proof. unfold on_record, audited. destruct actor, has_audit; try done. eexists. split; reflexivity. Qed.

(** A call fails and changes nothing, or makes its change on the record. *)
Definition fails_or_changes (new_id : pystr) (c : workspace_call) (s : workspace_world)
    (p : result workspace_error unit * workspace_world) : Prop :=
  (p.2 = s /\ exists e, p.1 = Err e) \/
  (p.1 = Ok tt /\ exists actor, change (ww_repo s) new_id c actor (ww_repo p.2) /\
     on_record actor (ww_audit s) (ww_audit p.2)).

(** The guards of a call failed. *)
Ltac refused := left; split; [reflexivity|eexists; reflexivity].
Ltac guards Hc := destruct (_ ≫= _) as [?x|?e] eqn:Hc; [|refused].
(** The change is made, and audited. *)
Ltac changes actor := right; split; [done|]; exists actor; split; [|apply audited_on_record].

Lemma create_spec now new_id us name s : fresh_id new_id s ->
  Forall (fun m => is_Some (_workspaces (ww_repo s) !! wm_workspace_id m)) (_members (ww_repo s)) ->
  fails_or_changes new_id (CallCreate us name) s (drop_value (create_workspace now new_id us name s)).
Proof.
  intros Hfresh Hall. destruct s as [r a]. unfold create_workspace, fresh_id in *. cbn [ww_repo ww_audit] in *.
  destruct (bool_decide _); [refused|]. unfold repo_create_workspace, repo_add_member. cbn [ww_repo ww_audit ws_id].
  assert (Hno : forall ws, repo_get_member new_id us (mkWorkspaceRepo ws (_members r) (_member_id_seq r)) = None).
  { intros ws. unfold repo_get_member. cbn [_members]. destruct (filter _ _) as [|m l] eqn:E; [done|]. exfalso.
    assert (Hm : m ∈ filter (is_member_of new_id us) (_members r)) by (rewrite E; left).
    apply list_elem_of_filter in Hm as [[Hi _] Hm]. rewrite Forall_forall in Hall.
    destruct (Hall m Hm) as [w Hw]. congruence. }
  rewrite Hno. right. split; [done|]. exists None. split.
  - eapply ChangeCreate; cbn; reflexivity || by split.
  - unfold on_record. cbn. by destruct has_audit.
Qed.

Lemma rename_spec now new_id i ac name actor s :
  fails_or_changes new_id (CallRename i ac name actor) s (drop_value (rename_workspace has_audit now i ac name actor s)).
Proof.
  destruct s as [r a]. unfold rename_workspace. cbn [ww_repo ww_audit]. guards Hc.
  apply bind_ok in Hc as ([] & _ & Hc). apply bind_ok in Hc as ([] & _ & Hc).
  apply bind_ok in Hc as (m & Hm%require_role_inv & Hc). unfold find_workspace_by_id in Hc.
  destruct (_workspaces r !! i) as [w|] eqn:Hw; [|done]. cbn [check]. unfold update_workspace. rewrite Hw.
  changes actor. eapply ChangeRename; [by exists m|exact Hw| |reflexivity|reflexivity]. done.
Qed.

Lemma add_spec now new_id i ac email role actor s :
  fails_or_changes new_id (CallAdd i ac email role actor) s
    (drop_value (add_member lower find_by_email has_audit entitlement now i ac email role actor s)).
Proof.
  destruct s as [r a]. unfold add_member. cbn [ww_repo ww_audit]. guards Hc.
  apply bind_ok in Hc as (m & Hm%require_role_inv & Hc). apply bind_ok in Hc as ([] & [Hr Hno]%assignable_inv & Hc).
  apply bind_ok in Hc as (us & Hus & Hc). apply bind_ok in Hc as ([] & Hlim & [= <-]).
  destruct (find_by_email _) as [us'|] eqn:Hf; [|done]. injection Hus as ->.
  cbn [check]. unfold repo_add_member. destruct (repo_get_member i us r) eqn:Hg; [refused|].
  changes actor. eapply ChangeAdd; [by exists m|exact Hf|exact Hg| | | |by apply member_limit_inv|reflexivity|reflexivity];
    done.
Qed.

Lemma update_spec now new_id i ac us role actor s :
  fails_or_changes new_id (CallUpdate i ac us role actor) s (update_member_role lower has_audit now i ac us role actor s).
Proof.
  destruct s as [r a]. unfold update_member_role. cbn [ww_repo ww_audit]. guards Hc.
  apply bind_ok in Hc as (m & Hm%require_role_inv & Hc). apply bind_ok in Hc as ([] & [Hr Hno]%assignable_inv & Hc).
  apply target_inv in Hc as [Hg Hto]. cbn [check]. unfold repo_update_member_role.
  destruct (get_member_split _ _ _ _ Hg) as (l1 & l2 & Hl & Hmem & Hfirst). rewrite Hl, set_role_first by done.
  changes actor. eapply ChangeUpdate; [by exists m|exact Hmem|exact Hto|exact Hr|exact Hno|exact Hl|reflexivity|reflexivity].
Qed.

Lemma remove_spec now new_id i ac us actor s :
  fails_or_changes new_id (CallRemove i ac us actor) s (remove_member has_audit now i ac us actor s).
Proof.
  destruct s as [r a]. unfold remove_member. cbn [ww_repo ww_audit]. guards Hc.
  apply bind_ok in Hc as (m & Hm%require_role_inv & Hc).
  apply target_inv in Hc as [Hg Hto]. cbn [check]. unfold repo_remove_member.
  destruct (get_member_split _ _ _ _ Hg) as (l1 & l2 & Hl & Hmem & Hfirst). rewrite Hl, pop_member_first by done.
  changes actor. eapply ChangeRemove; [by exists m|exact Hmem|exact Hto|exact Hl|reflexivity|reflexivity].
Qed.

(** ** The invariant *)

Record workspace_inv (r : InMemoryWorkspaceRepository) : Prop := {
  wi_unique : NoDup ((fun m => (wm_workspace_id m, wm_user_id m)) <$> _members r);
  wi_exists : Forall (fun m => is_Some (_workspaces r !! wm_workspace_id m)) (_members r);
  wi_roles : Forall (fun m => wm_role m ∈ _ROLES) (_members r);
  wi_owner : forall i w, _workspaces r !! i = Some w ->
    exists m, m ∈ _members r /\ is_member_of i (ws_created_by_user_id w) m /\ wm_role m = OWNER;
  wi_only : forall m w, m ∈ _members r -> wm_role m = OWNER -> _workspaces r !! wm_workspace_id m = Some w ->
    wm_user_id m = ws_created_by_user_id w
}.

Lemma perform_spec now new_id c s : fresh_id new_id s -> workspace_inv (ww_repo s) ->
  fails_or_changes new_id c s (perform now new_id c s).
Proof.
  intros Hf Hinv. destruct c; [apply create_spec; [done|apply Hinv]|apply rename_spec|apply add_spec|apply update_spec|
    apply remove_spec].
Qed.

Lemma perform_cases now new_id c s res s' : fresh_id new_id s -> workspace_inv (ww_repo s) ->
  perform now new_id c s = (res, s') ->
  s' = s \/ res = Ok tt /\ exists actor, change (ww_repo s) new_id c actor (ww_repo s') /\
    on_record actor (ww_audit s) (ww_audit s').
Proof.
  intros Hf Hinv Hp. pose proof (perform_spec now new_id c s Hf Hinv) as H. rewrite Hp in H.
  destruct H as [[? _]|?]; [by left|by right].
Qed.
Lemma manager_exists i a r : workspace_inv r -> manager i a r -> is_Some (_workspaces r !! i).
Proof.
  intros Hinv (m & Hm & _). destruct (get_member_split _ _ _ _ Hm) as (l1 & l2 & Hl & [<- _] & _).
  pose proof (wi_exists _ Hinv) as H. rewrite Hl, Forall_app, Forall_cons in H. apply H.
Qed.

Lemma other_than_owner l1 (m x : WorkspaceMemberRecord) l2 y : wm_role m <> OWNER -> wm_role x = OWNER ->
  x ∈ l1 ++ m :: l2 -> x ∈ l1 ++ y :: l2 /\ x ∈ l1 ++ l2.
Proof.
  intros Hm Hx [H|[->|H]%elem_of_cons]%elem_of_app; [|congruence|]; rewrite !elem_of_app, elem_of_cons; auto.
Qed.

Lemma create_inv r r' new_id us w m : workspace_inv r -> _workspaces r !! new_id = None ->
  _workspaces r' = <[new_id := w]> (_workspaces r) -> _members r' = _members r ++ [m] ->
  ws_created_by_user_id w = us -> is_member_of new_id us m -> wm_role m = OWNER -> workspace_inv r'.
Proof.
  intros Hinv Hfresh Hw Hm Hus [Hi Hu] Hrole.
  assert (Hold : forall x, x ∈ _members r -> wm_workspace_id x <> new_id).
  { intros x Hx Hn. pose proof (wi_exists _ Hinv) as He. rewrite Forall_forall in He.
    destruct (He x Hx) as [? ?]. congruence. }
  split; rewrite ?Hw, ?Hm.
  - rewrite fmap_app. apply NoDup_app. split_and!; [apply Hinv| |apply NoDup_singleton].
    intros q (x & -> & Hx)%list_elem_of_fmap Hs%list_elem_of_singleton. injection Hs as Hq _.
    apply (Hold x Hx). congruence.
  - apply Forall_app. split; [|constructor; [|constructor]; rewrite Hi, lookup_insert, decide_True by done; eauto].
    eapply Forall_impl; [exact (wi_exists _ Hinv)|]. intros x Hx. rewrite lookup_insert. case_decide; eauto.
  - apply Forall_app. split; [apply Hinv|]. constructor; [|constructor]. rewrite Hrole. left.
  - intros i w'. rewrite lookup_insert. case_decide as Hn.
    + intros [= <-]. subst i. exists m. split_and!; [set_solver|split; congruence|done].
    + intros Hl. destruct (wi_owner _ Hinv i w' Hl) as (x & Hx & Hxi & Hxr). exists x. set_solver.
  - intros x w' [Hx|Hx%list_elem_of_singleton]%elem_of_app Hr; rewrite lookup_insert.
    + rewrite decide_False by (intros Heq; by apply (Hold x Hx)). by apply (wi_only _ Hinv).
    + subst x. rewrite decide_True by done. intros [= <-]. congruence.
Qed.

Lemma members_inv r r' : workspace_inv r -> _workspaces r' = _workspaces r ->
  NoDup ((fun m => (wm_workspace_id m, wm_user_id m)) <$> _members r') ->
  Forall (fun m => is_Some (_workspaces r !! wm_workspace_id m) /\ wm_role m ∈ _ROLES) (_members r') ->
  (forall m, wm_role m = OWNER -> m ∈ _members r' <-> m ∈ _members r) -> workspace_inv r'.
Proof.
  intros Hinv Hw Hnd Hall Hown. apply Forall_and in Hall as [He Hr]. split; rewrite ?Hw; try done.
  - intros i w Hi. destruct (wi_owner _ Hinv i w Hi) as (m & Hm & Hmi & Hmr). exists m. by rewrite Hown.
  - intros m w Hm Hmr. apply (wi_only _ Hinv); [by apply Hown|done].
Qed.

Lemma inv_members r : workspace_inv r ->
  Forall (fun m => is_Some (_workspaces r !! wm_workspace_id m) /\ wm_role m ∈ _ROLES) (_members r).
Proof. intros Hinv. apply Forall_and. split; apply Hinv. Qed.

Lemma change_inv r new_id c actor r' : _workspaces r !! new_id = None -> workspace_inv r ->
  change r new_id c actor r' -> workspace_inv r'.
Proof.
  intros Hfresh Hinv Hch. pose proof (inv_members r Hinv) as Hall. destruct Hch as
    [us name w r' m Hw Hm Hus Hmem Hrole|i a name actor w w' r' Hman Hw Hus Hws Hm
    |i a email role actor us m r' Hman Hf Hg [Hi Hu] Hr Hno Hlim Hws Hm
    |i a us role actor role' l1 m l2 r' Hman Hmem Hno Hr Hno' Hl Hws Hm|i a us actor l1 m l2 r' Hman Hmem Hno Hl Hws Hm].
  - by eapply create_inv.
  - split; rewrite ?Hm, ?Hws; try apply Hinv.
    + eapply Forall_impl; [exact (wi_exists _ Hinv)|]. intros x Hx. rewrite lookup_insert. case_decide; eauto.
    + intros j wj. rewrite lookup_insert. case_decide as Hj; [|by apply (wi_owner _ Hinv)].
      intros [= <-]. subst j. rewrite Hus. by apply (wi_owner _ Hinv).
    + intros x wx Hx Hxr. rewrite lookup_insert. case_decide as Hj; [|by apply (wi_only _ Hinv)].
      intros [= <-]. rewrite Hus. apply (wi_only _ Hinv); [done|done|]. by rewrite <- Hj.
  - destruct (manager_exists _ _ _ Hinv Hman) as [w Hw]. apply (members_inv r); [done|done| | |]; rewrite Hm.
    + rewrite fmap_app. apply NoDup_app. split_and!; [apply Hinv| |apply NoDup_singleton].
      intros q (x & -> & Hx)%list_elem_of_fmap Hs%list_elem_of_singleton. injection Hs as Hq1 Hq2.
      apply get_member_none in Hg. rewrite Forall_forall in Hg. apply (Hg x Hx). split; congruence.
    + apply Forall_app. split; [done|]. constructor; [|constructor]. rewrite Hi. eauto.
    + intros x Hx. rewrite elem_of_app, list_elem_of_singleton. naive_solver.
  - rewrite Hl in Hall. apply Forall_app in Hall as [Hl1 [[Hme _] Hl2]%Forall_cons].
    apply (members_inv r); [done|done| | |]; rewrite Hm.
    + pose proof (wi_unique _ Hinv) as Hnd. rewrite Hl in Hnd. by rewrite fmap_app in *.
    + apply Forall_app. split; [done|]. by constructor.
    + intros x Hx. rewrite Hl. split; [intros H|intros H].
      * exact (proj1 (other_than_owner l1 (with_role role' m) x l2 m Hno' Hx H)).
      * exact (proj1 (other_than_owner l1 m x l2 (with_role role' m) Hno Hx H)).
  - rewrite Hl in Hall. apply Forall_app in Hall as [Hl1 [_ Hl2]%Forall_cons].
    apply (members_inv r); [done|done| | |]; rewrite Hm.
    + pose proof (wi_unique _ Hinv) as Hnd. rewrite Hl, fmap_app, fmap_cons in Hnd. rewrite fmap_app.
      apply NoDup_app in Hnd as (H1 & H2 & H3). apply NoDup_cons in H3 as [_ H3].
      apply NoDup_app. split_and!; [done| |done]. intros q Hq Hq2. apply (H2 q Hq). by right.
    + by apply Forall_app.
    + intros x Hx. rewrite Hl. split; [rewrite !elem_of_app, elem_of_cons; tauto|].
      intros H. exact (proj2 (other_than_owner l1 m x l2 m Hno Hx H)).
Qed.

Lemma reachable_inv s : reachable s -> workspace_inv (ww_repo s).
Proof.
  induction 1 as [|now new_id c s res s' _ IH Hfresh Hp].
  - split; cbn; [constructor|constructor|constructor| |]; [intros i w; by rewrite lookup_empty|].
    intros m w Hm. by apply not_elem_of_nil in Hm.
  - destruct (perform_cases _ _ _ _ _ _ Hfresh IH Hp) as [->|(_ & actor & Hch & _)]; [done|]. by eapply change_inv.
Qed.

(** ** Theorems *)

Definition owners_of (i : pystr) (r : InMemoryWorkspaceRepository) : list WorkspaceMemberRecord :=
  filter (fun m => wm_workspace_id m = i /\ wm_role m = OWNER) (_members r).

Lemma one_owner r i w : workspace_inv r -> _workspaces r !! i = Some w ->
  exists m, owners_of i r = [m] /\ wm_user_id m = ws_created_by_user_id w.
Proof.
  intros Hinv Hw. destruct (wi_owner _ Hinv i w Hw) as (m & Hm & [Hi Hu] & Hr).
  assert (Hall : forall x, x ∈ owners_of i r -> (wm_workspace_id x, wm_user_id x) = (i, ws_created_by_user_id w)).
  { intros x [[Hxi Hxr] Hx]%list_elem_of_filter. f_equal; [done|]. apply (wi_only _ Hinv x w Hx Hxr). by rewrite Hxi. }
  assert (Hnd : NoDup ((fun x => (wm_workspace_id x, wm_user_id x)) <$> owners_of i r)).
  { eapply sublist_NoDup; [exact (wi_unique _ Hinv)|]. apply fmap_sublist, sublist_filter. }
  assert (Hin : m ∈ owners_of i r) by by apply list_elem_of_filter.
  destruct (owners_of i r) as [|x [|y l]]; [by apply not_elem_of_nil in Hin| |].
  - apply list_elem_of_singleton in Hin as <-. by exists m.
  - exfalso. rewrite !fmap_cons in Hnd. apply NoDup_cons in Hnd as [Hnd _]. apply Hnd.
    rewrite (Hall x), (Hall y) by set_solver. left.
Qed.

Lemma change_owners r new_id c actor r' i : is_Some (_workspaces r !! i) -> _workspaces r !! new_id = None ->
  change r new_id c actor r' -> owners_of i r' = owners_of i r.
Proof.
  intros [w Hi] Hfresh Hch. unfold owners_of. destruct Hch as
    [us name w' r' m Hw Hm Hus [Hmi _] Hrole|i' a name actor w' w'' r' Hman Hw Hus Hws Hm
    |i' a email role actor us m r' Hman Hf Hg Hmem Hr Hno Hlim Hws Hm
    |i' a us role actor role' l1 m l2 r' Hman Hmem Hno Hr Hno' Hl Hws Hm|i' a us actor l1 m l2 r' Hman Hmem Hno Hl Hws Hm];
    rewrite Hm; [| done| | |].
  - rewrite filter_app, filter_cons_False, app_nil_r by (intros [? _]; congruence). done.
  - rewrite filter_app, filter_cons_False, app_nil_r by (intros [_ ?]; congruence). done.
  - by rewrite Hl, !filter_app, !filter_cons_False by (intros [_ ?]; simpl in *; congruence).
  - by rewrite Hl, !filter_app, filter_cons_False by (intros [_ ?]; congruence).
Qed.

Lemma change_workspace r new_id c actor r' i w : _workspaces r !! i = Some w -> _workspaces r !! new_id = None ->
  change r new_id c actor r' ->
  exists w', _workspaces r' !! i = Some w' /\ ws_created_by_user_id w' = ws_created_by_user_id w.
Proof.
  intros Hi Hfresh Hch. destruct Hch as
    [us name w' r' m Hw|i' a name actor w' w'' r' Hman Hw Hus Hws Hm|? ? ? ? ? ? ? ? ? ? ? ? ? ? ? Hws ?
    |? ? ? ? ? ? ? ? ? ? ? ? ? ? ? ? Hws ?|? ? ? ? ? ? ? ? ? ? ? ? Hws ?].
  - rewrite Hw, lookup_insert_ne by congruence. eauto.
  - rewrite Hws, lookup_insert. case_decide as Heq; [|eauto]. exists w''. split; [done|].
    rewrite <- Heq, Hw in Hi. by injection Hi as <-.
  - rewrite Hws. eauto.
  - rewrite Hws. eauto.
  - rewrite Hws. eauto.
Qed.

(** Ownership is permanent: in every reachable state a workspace has exactly
    one owner, its creator, and no call of the service, by anyone and whatever it
    returns, changes who owns it or removes the workspace. *)
Theorem workspace_owner_permanent now new_id c s res s' i w :
  reachable s -> fresh_id new_id s -> perform now new_id c s = (res, s') ->
  _workspaces (ww_repo s) !! i = Some w ->
  exists m w', owners_of i (ww_repo s) = [m] /\ owners_of i (ww_repo s') = [m] /\
    wm_user_id m = ws_created_by_user_id w /\
    _workspaces (ww_repo s') !! i = Some w' /\ ws_created_by_user_id w' = ws_created_by_user_id w.
Proof.
  intros Hinv%reachable_inv Hfresh Hp Hw. destruct (one_owner _ _ _ Hinv Hw) as (m & Hm & Hu).
  destruct (perform_cases _ _ _ _ _ _ Hfresh Hinv Hp) as [->|(_ & actor & Hch & _)]; [by exists m, w|].
  destruct (change_workspace _ _ _ _ _ i w Hw Hfresh Hch) as (w' & Hw' & Hc). exists m, w'.
  rewrite (change_owners _ _ _ _ _ i (ex_intro _ w Hw) Hfresh Hch). done.
Qed.

(** The workspace a call is about, who makes it, and the actor to be audited. *)
Definition call_by (c : workspace_call) : option (pystr * pystr * option AuditActor) :=
  match c with
  | CallCreate _ _ => None
  | CallRename i a _ actor | CallAdd i a _ _ actor | CallUpdate i a _ _ actor | CallRemove i a _ actor =>
      Some (i, a, actor)
  end.

Lemma change_members r new_id c actor r' i : is_Some (_workspaces r !! i) -> _workspaces r !! new_id = None ->
  change r new_id c actor r' -> repo_list_members i r' <> repo_list_members i r ->
  exists a, call_by c = Some (i, a, actor) /\ manager i a r /\
    forall n, member_ceiling i = Some n ->
      Z.of_nat (length (repo_list_members i r')) <= Z.max n (Z.of_nat (length (repo_list_members i r))).
Proof.
  intros [w Hi] Hfresh Hch. unfold repo_list_members. destruct Hch as
    [us name w' r' m Hw Hm Hus [Hmi _] Hrole|i' a name actor w' w'' r' Hman Hw Hus Hws Hm
    |i' a email role actor us m r' Hman Hf Hg Hmem Hr Hno Hlim Hws Hm
    |i' a us role actor role' l1 m l2 r' Hman Hmem Hno Hr Hno' Hl Hws Hm|i' a us actor l1 m l2 r' Hman Hmem Hno Hl Hws Hm];
    rewrite Hm; [|done| | |].
  - rewrite filter_app, filter_cons_False, app_nil_r by congruence. done.
  - destruct Hmem as [Hmi _]. destruct (decide (i = i')) as [->|Hne].
    + intros _. exists a. split_and!; [done|done|]. intros n Hn. specialize (Hlim n Hn).
      unfold repo_list_members in Hlim. rewrite filter_app, length_app, filter_cons_True by done.
      change (length [m]) with 1%nat. simpl. lia.
    + rewrite filter_app, filter_cons_False, app_nil_r by congruence. done.
  - destruct Hmem as [Hmi _]. rewrite Hl, !filter_app. destruct (decide (i = i')) as [->|Hne].
    + intros _. exists a. split_and!; [done|done|]. intros n _.
      rewrite !length_app, !filter_cons_True by done. simpl. lia.
    + rewrite !filter_cons_False by (simpl; congruence). done.
  - destruct Hmem as [Hmi _]. rewrite Hl, !filter_app. destruct (decide (i = i')) as [->|Hne].
    + intros _. exists a. split_and!; [done|done|]. intros n _.
      rewrite !length_app, filter_cons_True by done. simpl. lia.
    + rewrite filter_cons_False by congruence. done.
Qed.

(** Members change only through managers: if a call changes the members of an
    existing workspace, it succeeded, was made for that workspace by one of its
    members with the role owner or admin, was written to the audit log under the
    acting user when auditing is on, and did not raise the number of members
    above the ceiling of the workspace's plan. *)
Theorem members_changed_by_managers now new_id c s res s' i :
  reachable s -> fresh_id new_id s -> perform now new_id c s = (res, s') ->
  is_Some (_workspaces (ww_repo s) !! i) ->
  repo_list_members i (ww_repo s') <> repo_list_members i (ww_repo s) ->
  res = Ok tt /\ exists a actor, call_by c = Some (i, a, actor) /\ manager i a (ww_repo s) /\
    on_record actor (ww_audit s) (ww_audit s') /\
    forall n, member_ceiling i = Some n ->
      Z.of_nat (length (repo_list_members i (ww_repo s'))) <=
      Z.max n (Z.of_nat (length (repo_list_members i (ww_repo s)))).
Proof.
  intros Hinv%reachable_inv Hfresh Hp Hw Hne.
  destruct (perform_cases _ _ _ _ _ _ Hfresh Hinv Hp) as [->|(-> & actor & Hch & Haudit)]; [done|]. split; [done|].
  destruct (change_members _ _ _ _ _ i Hw Hfresh Hch Hne) as (a & Hby & Hman & Hlim). by exists a, actor.
Qed.
End Calls.

(** ** One workspace, for the witnesses: ann creates it and adds bob *)

Abbreviation demo_perform :=
  (perform (R := InMemoryBillingRepository) (fun s => s) (fun _ => Some (u "bob")) true
     (Some (InMemoryBillingRepository_init []))).
Abbreviation demo_reachable :=
  (reachable (R := InMemoryBillingRepository) (fun s => s) (fun _ => Some (u "bob")) true
     (Some (InMemoryBillingRepository_init []))).
Definition demo_workspace_id : pystr := u "w1".
Definition demo_actor : option AuditActor := Some (mkAuditActor None None (Some (u "ann")) None).
Definition demo_world0 : workspace_world := mkWorkspaceWorld workspace_repo_init audit_repo_init.
Definition demo_world1 : workspace_world :=
  (demo_perform 5 demo_workspace_id (CallCreate (u "ann") (u "Team")) demo_world0).2.
Definition demo_add : workspace_call := CallAdd demo_workspace_id (u "ann") (u "bob@x") (u "admin") demo_actor.
Definition demo_world2 : workspace_world := (demo_perform 6 (u "w2") demo_add demo_world1).2.
Definition demo_workspace : WorkspaceRecord := mkWorkspace demo_workspace_id (u "Team") (u "ann") (Some 5) None.

Lemma demo_world1_reachable : demo_reachable demo_world1.
Proof.
  apply (ReachCall _ _ _ _ 5 demo_workspace_id (CallCreate (u "ann") (u "Team")) demo_world0 (Ok tt));
    [constructor|vm_compute; reflexivity|vm_compute; reflexivity].
Qed.

Lemma workspace_owner_permanent_witness :
  exists m w', owners_of demo_workspace_id (ww_repo demo_world1) = [m] /\
    owners_of demo_workspace_id (ww_repo demo_world2) = [m] /\ wm_user_id m = u "ann" /\
    _workspaces (ww_repo demo_world2) !! demo_workspace_id = Some w' /\ ws_created_by_user_id w' = u "ann".
Proof.
  refine (workspace_owner_permanent (fun s => s) (fun _ => Some (u "bob")) true
    (Some (InMemoryBillingRepository_init [])) 6 (u "w2") demo_add demo_world1 (Ok tt) demo_world2 demo_workspace_id
    demo_workspace demo_world1_reachable _ _ _); vm_compute; reflexivity.
Defined.

Lemma members_changed_by_managers_witness :
  Ok (E := workspace_error) tt = Ok tt /\ exists a actor, call_by demo_add = Some (demo_workspace_id, a, actor) /\
    manager demo_workspace_id a (ww_repo demo_world1) /\
    on_record true actor (ww_audit demo_world1) (ww_audit demo_world2) /\
    forall n, member_ceiling (Some (InMemoryBillingRepository_init [])) demo_workspace_id = Some n ->
      Z.of_nat (length (repo_list_members demo_workspace_id (ww_repo demo_world2))) <=
      Z.max n (Z.of_nat (length (repo_list_members demo_workspace_id (ww_repo demo_world1)))).
Proof.
  refine (members_changed_by_managers (fun s => s) (fun _ => Some (u "bob")) true
    (Some (InMemoryBillingRepository_init [])) 6 (u "w2") demo_add demo_world1 (Ok tt) demo_world2 demo_workspace_id
    demo_world1_reachable _ _ _ _).
  - vm_compute. reflexivity.
  - vm_compute. reflexivity.
  - exists demo_workspace. vm_compute. reflexivity.
  - vm_compute. discriminate.
Defined.
