(* ===== verification/Auth.v ===== *)
(** * Authentication: [app/auth/]

    API keys ([models.py], [memory_repository.py], [service.py]), the request
    guards ([dependencies.py]), the tenant of an identity ([identity.py],
    [tenant.py]), and users ([users_repository.py], [user_service.py],
    [password.py]).  SHA-256, scrypt, [str.lower], fresh secrets, salts, ids and
    the clocks are arguments: the monotonic clock in nanoseconds, instants in
    microseconds. *)

From S2P Require Import Prelude RagText.
Local Open Scope Z_scope.

Record APIKey := mkAPIKey {
  ak_key : pystr;
  ak_name : pystr;
  ak_id : option pystr;
  ak_user_id : option pystr;
  ak_workspace_id : option pystr
}.

Record APIKeyRecord := mkAPIKeyRecord {
  kr_key_hash : pystr;
  kr_name : pystr;
  kr_status : pystr;
  kr_id : option pystr;
  kr_user_id : option pystr;
  kr_workspace_id : option pystr;
  kr_created_at : option Z;
  kr_last_used_at : option Z
}.

Record APIKeyMetadata := mkAPIKeyMetadata {
  km_id : option pystr;
  km_key_hash_prefix : pystr;
  km_name : pystr;
  km_status : pystr;
  km_created_at : option Z;
  km_last_used_at : option Z
}.

Definition ACTIVE : pystr := u "active".
Definition REVOKED : pystr := u "revoked".

(** ** [InMemoryAPIKeyRepository]: the records by hash *)

Abbreviation key_records := (list (pystr * APIKeyRecord)).

Definition find_by_key_hash (h : pystr) (r : key_records) : option APIKeyRecord := dict_get h r.

Definition find_by_key_hash_prefix (prefix : pystr) (r : key_records) : list APIKeyRecord :=
  filter (fun x => starts_with prefix (kr_key_hash x) = true) r.*2.

Definition find_by_key_hash_prefix_for_user (prefix user_id : pystr) (r : key_records) : list APIKeyRecord :=
  filter (fun x => kr_user_id x = Some user_id /\ starts_with prefix (kr_key_hash x) = true) r.*2.

Definition repo_list_keys_for_user (user_id : pystr) (r : key_records) : list APIKeyRecord :=
  filter (fun x => kr_user_id x = Some user_id) r.*2.

Definition repo_create_key (x : APIKeyRecord) (r : key_records) : key_records := dict_set (kr_key_hash x) x r.

Definition ensure_key (x : APIKeyRecord) (r : key_records) : bool * key_records :=
  if dict_has (kr_key_hash x) r then (false, r) else (true, dict_set (kr_key_hash x) x r).

Definition with_status (status : pystr) (x : APIKeyRecord) : APIKeyRecord :=
  mkAPIKeyRecord (kr_key_hash x) (kr_name x) status (kr_id x) (kr_user_id x) (kr_workspace_id x)
    (kr_created_at x) (kr_last_used_at x).
Definition with_last_used (now : Z) (x : APIKeyRecord) : APIKeyRecord :=
  mkAPIKeyRecord (kr_key_hash x) (kr_name x) (kr_status x) (kr_id x) (kr_user_id x) (kr_workspace_id x)
    (kr_created_at x) (Some now).

Definition update_status (h status : pystr) (r : key_records) : bool * key_records :=
  match dict_get h r with
  | None => (false, r)
  | Some x => (true, dict_set h (with_status status x) r)
  end.

Definition touch_last_used (now : Z) (h : pystr) (r : key_records) : key_records :=
  match dict_get h r with
  | None => r
  | Some x => dict_set h (with_last_used now x) r
  end.

(** [s.split(sep)] for one character, and [s.split(":", 1)] *)
Fixpoint split_on (sep : N) (acc s : pystr) : list pystr :=
  match s with
  | [] => [rev acc]
  | c :: s' => if (c =? sep)%N then rev acc :: split_on sep [] s' else split_on sep (c :: acc) s'
  end.
Fixpoint split_first (sep : N) (s : pystr) : pystr * option pystr :=
  match s with
  | [] => ([], None)
  | c :: s' => if (c =? sep)%N then ([], Some s') else let '(a, b) := split_first sep s' in (c :: a, b)
  end.

Inductive auth_error :=
| AuthenticationError (message : pystr)
| AuthorizationDenied (message : pystr)
| AuthValidation (message : pystr)
| AuthConflict (message : pystr).

Section Keys.
Context (hash_api_key : pystr -> pystr).

Definition configured_record (now : Z) (entry : pystr) : APIKeyRecord :=
  let '(key, name) := split_first 58 entry in
  mkAPIKeyRecord (hash_api_key key) (match name with Some n => n | None => sprefix 8 key end) ACTIVE
    None None None (Some now) None.

Definition create_in_memory_repository (now : Z) (raw_keys : pystr) : key_records :=
  foldl (fun r x => dict_set (kr_key_hash x) x r) []
    (configured_record now <$> filter (fun e => e <> []) (strip <$> split_on 44 [] raw_keys)).

(** ** [APIKeyService] *)

Record APIKeyService := mkAPIKeyService {
  ks_records : key_records;
  _touch_cache : gmap pystr Z
}.

(** 60 seconds *)
Definition _THROTTLE_NS : Z := 60 * 1000000000.

(** [touch_fails]: the repository raised *)
Definition _throttled_touch (monotonic now : Z) (touch_fails : bool) (h : pystr) (s : APIKeyService) : APIKeyService :=
  if monotonic - default 0 (_touch_cache s !! h) <? _THROTTLE_NS then s
  else if touch_fails then mkAPIKeyService (ks_records s) (delete h (_touch_cache s))
  else mkAPIKeyService (touch_last_used now h (ks_records s)) (<[h := monotonic]> (_touch_cache s)).

Definition validate (monotonic now : Z) (touch_fails : bool) (raw_key : pystr) (s : APIKeyService)
  : result auth_error APIKey * APIKeyService :=
  let h := hash_api_key raw_key in
  match find_by_key_hash h (ks_records s) with
  | None => (Err (AuthenticationError (u "Invalid API key.")), s)
  | Some x =>
      if decide (kr_status x = ACTIVE) then
        (Ok (mkAPIKey h (kr_name x) (kr_id x) (kr_user_id x) (kr_workspace_id x)),
         _throttled_touch monotonic now touch_fails h s)
      else (Err (AuthenticationError (u "API key is disabled.")), s)
  end.

Definition metadata_of (i : option pystr) (x : APIKeyRecord) : APIKeyMetadata :=
  mkAPIKeyMetadata i (sprefix 8 (kr_key_hash x)) (kr_name x) (kr_status x) (kr_created_at x) (kr_last_used_at x).

(** [secret] is [secrets.token_urlsafe(32)]. *)
Definition create_key (now : Z) (secret name : pystr) (user_id workspace_id : option pystr) (s : APIKeyService)
  : (APIKeyMetadata * pystr) * APIKeyService :=
  let raw_key := u "sk-" ++ secret in
  let x := mkAPIKeyRecord (hash_api_key raw_key) name ACTIVE None user_id workspace_id (Some now) None in
  ((metadata_of (kr_id x) x, raw_key), mkAPIKeyService (repo_create_key x (ks_records s)) (_touch_cache s)).

Definition revoke_key (h : pystr) (s : APIKeyService) : bool * APIKeyService :=
  let '(revoked, r) := update_status h REVOKED (ks_records s) in
  (revoked, mkAPIKeyService r (delete h (_touch_cache s))).

Definition list_keys (s : APIKeyService) : list APIKeyMetadata := metadata_of None <$> (ks_records s).*2.
Definition list_keys_for_user (user_id : pystr) (s : APIKeyService) : list APIKeyMetadata :=
  metadata_of None <$> repo_list_keys_for_user user_id (ks_records s).

(** Eight lowercase hexadecimal characters with at most one match. *)
Definition unique_hash (prefix : pystr) (matches : list APIKeyRecord) : result auth_error (option pystr) :=
  _ ← raise_if (negb (length prefix =? 8)%nat || negb (forallb is_hex prefix))
        (AuthValidation (u "key_hash_prefix must be exactly 8 lowercase hex characters."));
  match matches with
  | [] => Ok None
  | [x] => Ok (Some (kr_key_hash x))
  | _ => Err (AuthConflict (u "key_hash_prefix '" ++ prefix ++ u "' matches multiple keys."))
  end.

Definition find_hash_by_prefix (prefix : pystr) (s : APIKeyService) : result auth_error (option pystr) :=
  unique_hash prefix (find_by_key_hash_prefix prefix (ks_records s)).
Definition find_hash_by_prefix_for_user (prefix user_id : pystr) (s : APIKeyService)
  : result auth_error (option pystr) :=
  unique_hash prefix (find_by_key_hash_prefix_for_user prefix user_id (ks_records s)).

Definition revoke_key_for_user (h user_id : pystr) (s : APIKeyService) : bool * APIKeyService :=
  match find_by_key_hash h (ks_records s) with
  | Some x => if decide (kr_user_id x = Some user_id) then revoke_key h s else (false, s)
  | None => (false, s)
  end.

Definition ensure_initial_key (now : Z) (raw_key name : pystr) (s : APIKeyService) : bool * APIKeyService :=
  let x := mkAPIKeyRecord (hash_api_key raw_key) name ACTIVE None None None (Some now) None in
  let '(created, r) := ensure_key x (ks_records s) in
  (created, mkAPIKeyService r (_touch_cache s)).

(** ** Request guards *)

Definition _admin_key_hashes (admin_api_keys : pystr) : list pystr :=
  match admin_api_keys with
  | [] => []
  | raw => hash_api_key <$> filter (fun k => k <> []) (strip <$> split_on 44 [] raw)
  end.

Definition is_configured_admin_key_hash (admin_api_keys h : pystr) : bool :=
  bool_decide (h ∈ _admin_key_hashes admin_api_keys).
Definition is_configured_admin_key_prefix (admin_api_keys prefix : pystr) : bool :=
  existsb (starts_with prefix) (_admin_key_hashes admin_api_keys).

Definition DISABLED_KEY : APIKey := mkAPIKey (u "disabled") (u "authentication-disabled") None None None.

(** The key that a request is served under; the update of the request context
    is left out. *)
Definition require_api_key (auth_enabled : bool) (monotonic now : Z) (touch_fails : bool) (credentials : option pystr)
    (s : APIKeyService) : result auth_error APIKey * APIKeyService :=
  if negb auth_enabled then (Ok DISABLED_KEY, s)
  else
    match credentials with
    | None => (Err (AuthenticationError (u "Missing Authorization header.")), s)
    | Some raw => validate monotonic now touch_fails raw s
    end.

Definition require_admin_key (admin_api_keys : pystr) (monotonic now : Z) (touch_fails : bool)
    (credentials : option pystr) (s : APIKeyService) : result auth_error APIKey * APIKeyService :=
  match credentials with
  | None => (Err (AuthenticationError (u "Missing Authorization header.")), s)
  | Some raw =>
      match validate monotonic now touch_fails raw s with
      | (Err e, s) => (Err e, s)
      | (Ok k, s) =>
          let admin_hashes := _admin_key_hashes admin_api_keys in
          if bool_decide (admin_hashes = []) then (Err (AuthorizationDenied (u "Admin access not configured.")), s)
          else if negb (bool_decide (ak_key k ∈ admin_hashes))
          then (Err (AuthorizationDenied (u "Admin access required.")), s)
          else (Ok k, s)
      end
  end.

(** ** The tenant of an identity *)

Record IdentityContext := mkIdentity {
  ic_user_id : option pystr;
  ic_workspace_id : option pystr;
  ic_api_key_id : option pystr;
  ic_api_key_hash : pystr;
  ic_role : option pystr
}.

(** [sha256(...).hexdigest()], as in [hash_api_key] *)
Definition tenant_scope (i : IdentityContext) : pystr :=
  match ic_workspace_id i with
  | Some w => hash_api_key w
  | None => ic_api_key_hash i
  end.

(** [_OWNER_HASH_RE.match]: [$] also matches before a final line break. *)
Definition matches_owner_hash (s : pystr) : bool :=
  valid_owner_hash s || (bool_decide (last s = Some 10%N) && valid_owner_hash (take (length s - 1) s)).

(** [None]: [RuntimeError] *)
Definition resolve_tenant_scope (i : option IdentityContext) : option pystr :=
  i ← i;
  let scope := tenant_scope i in
  Some (if negb (matches_owner_hash scope) then hash_api_key scope else scope).
End Keys.

(** ** Users *)

Record UserRecord := mkUser {
  us_id : pystr;
  us_email : pystr;
  us_display_name : pystr;
  us_password_salt : pystr;
  us_password_hash : pystr;
  us_status : pystr;
  us_created_at : option Z;
  us_updated_at : option Z
}.

Record InMemoryUserRepository := mkUserRepo {
  _records : gmap pystr UserRecord;
  _by_email : gmap pystr pystr
}.
Definition user_repo_init : InMemoryUserRepository := mkUserRepo ∅ ∅.

Definition user_create (x : UserRecord) (r : InMemoryUserRepository) : InMemoryUserRepository :=
  mkUserRepo (<[us_id x := x]> (_records r)) (<[us_email x := us_id x]> (_by_email r)).
Definition find_by_id (user_id : pystr) (r : InMemoryUserRepository) : option UserRecord := _records r !! user_id.
Definition find_by_email (email : pystr) (r : InMemoryUserRepository) : option UserRecord :=
  user_id ← _by_email r !! email; _records r !! user_id.

Section Users.
(** [scrypt password salt], and [str.lower] *)
Context (scrypt : pystr -> pystr -> pystr) (lower : pystr -> pystr).

Definition hash_password (password salt : pystr) : pystr * pystr := (salt, scrypt password salt).
Definition verify_password (password salt password_hash : pystr) : bool :=
  bool_decide ((hash_password password salt).2 = password_hash).

Definition register (now : Z) (new_id new_salt email display_name password : pystr) (r : InMemoryUserRepository)
  : result auth_error UserRecord * InMemoryUserRepository :=
  let email := lower (strip email) in
  match (_ ← raise_if (bool_decide (email = []) || negb (existsb (N.eqb 64) email))
               (AuthValidation (u "Invalid email address."));
         _ ← raise_if (bool_decide (strip display_name = [])) (AuthValidation (u "display_name is required."));
         _ ← raise_if (slen password <? 6) (AuthValidation (u "Password must be at least 6 characters."));
         raise_if (match find_by_email email r with Some _ => true | None => false end)
           (AuthConflict (u "User with email '" ++ email ++ u "' already exists."))) with
  | Err e => (Err e, r)
  | Ok _ =>
      let '(salt, pw_hash) := hash_password password new_salt in
      let x := mkUser new_id email (strip display_name) salt pw_hash ACTIVE (Some now) None in
      (Ok x, user_create x r)
  end.

Definition login (email password : pystr) (r : InMemoryUserRepository) : result auth_error UserRecord :=
  match find_by_email (lower (strip email)) r with
  | None => Err (AuthenticationError (u "Invalid email or password."))
  | Some x =>
      _ ← raise_if (negb (bool_decide (us_status x = ACTIVE))) (AuthenticationError (u "Account is disabled."));
      _ ← raise_if (negb (verify_password password (us_password_salt x) (us_password_hash x)))
            (AuthenticationError (u "Invalid email or password."));
      Ok x
  end.

Definition get_user (user_id : pystr) (r : InMemoryUserRepository) : option UserRecord := find_by_id user_id r.
End Users.

(** * Theorems

    An API key is valid until it is revoked and never after; a user logs in
    with the password registered; every tenant hash passes the storage layer. *)

Section KeyRuns.
Context (hash_api_key : pystr -> pystr).

(** The calls that touch the service's state, with the hash of a key that the
    call revokes; the secret of a new key is fresh. *)
Inductive key_step (s : APIKeyService) : option pystr -> APIKeyService -> Prop :=
| StepValidate monotonic now fails raw :
    key_step s None (validate hash_api_key monotonic now fails raw s).2
| StepCreateKey now secret name us ws :
    dict_get (hash_api_key (u "sk-" ++ secret)) (ks_records s) = None ->
    key_step s None (create_key hash_api_key now secret name us ws s).2
| StepEnsure now raw name : key_step s None (ensure_initial_key hash_api_key now raw name s).2
| StepRevoke h : key_step s (Some h) (revoke_key h s).2
| StepRevokeForUser h us : key_step s (if (revoke_key_for_user h us s).1 then Some h else None)
    (revoke_key_for_user h us s).2.

Inductive key_runs (s : APIKeyService) : list pystr -> APIKeyService -> Prop :=
| KeyRunsNil : key_runs s [] s
| KeyRunsSnoc revoked s1 r s2 :
    key_runs s revoked s1 -> key_step s1 r s2 -> key_runs s (revoked ++ option_list r) s2.

(** What a record says about the holder of the key. *)
Definition holder (x : APIKeyRecord) : pystr * pystr * option pystr * option pystr * option pystr :=
  (kr_key_hash x, kr_name x, kr_id x, kr_user_id x, kr_workspace_id x).

Definition keeps (status : pystr -> pystr) (h : pystr) (r r' : key_records) : Prop :=
  forall x, dict_get h r = Some x ->
    exists x', dict_get h r' = Some x' /\ holder x' = holder x /\ kr_status x' = status (kr_status x).

Lemma keeps_refl h r : keeps (fun st => st) h r r.
Proof. intros x Hx. by exists x. Qed.

Lemma touch_keeps monotonic now fails k h s :
  keeps (fun st => st) h (ks_records s) (ks_records (_throttled_touch monotonic now fails k s)).
Proof.
  unfold _throttled_touch. destruct (_ <? _); [apply keeps_refl|]. destruct fails; [apply keeps_refl|].
  cbn [ks_records]. unfold touch_last_used. destruct (dict_get k (ks_records s)) as [y|] eqn:Hy; [|apply keeps_refl].
  intros x Hx. rewrite dict_get_set. case_decide; [|by exists x]. subst. rewrite Hy in Hx. injection Hx as ->.
  by eexists.
Qed.

Lemma revoke_keeps k h s :
  keeps (fun st => if decide (h = k) then REVOKED else st) h (ks_records s) (ks_records (revoke_key k s).2).
Proof.
  unfold revoke_key, update_status. intros x Hx. destruct (dict_get k (ks_records s)) as [y|] eqn:Hy; cbn [snd ks_records].
  - rewrite dict_get_set. case_decide; [|by exists x]. subst. rewrite Hy in Hx. injection Hx as ->. by eexists.
  - rewrite decide_False by congruence. by exists x.
Qed.

Lemma fresh_keeps h k y r : dict_get k r = None -> keeps (fun st => st) h r (dict_set k y r).
Proof. intros Hk x Hx. rewrite dict_get_set. rewrite decide_False by congruence. by exists x. Qed.

Lemma keeps_none h r r' : keeps (fun st => st) h r r' ->
  keeps (fun st => if decide (Some h = None) then REVOKED else st) h r r'.
Proof. intros H x Hx. destruct (H x Hx) as (x' & ? & ? & ?). exists x'. by rewrite decide_False. Qed.

Lemma step_keeps s r s' h : key_step s r s' ->
  keeps (fun st => if decide (Some h = r) then REVOKED else st) h (ks_records s) (ks_records s').
Proof.
  destruct 1 as [monotonic now fails raw|now secret name us ws Hf|now raw name|k|k us].
  - apply keeps_none. unfold validate. destruct (find_by_key_hash _ _) as [y|]; [|apply keeps_refl].
    destruct (decide _); [apply touch_keeps|apply keeps_refl].
  - apply keeps_none, fresh_keeps, Hf.
  - apply keeps_none. unfold ensure_initial_key, ensure_key, dict_has. cbn [kr_key_hash].
    destruct (dict_get _ _) eqn:Hg; [apply keeps_refl|by apply fresh_keeps].
  - intros x Hx. destruct (revoke_keeps k h s x Hx) as (x' & Hx' & Hh & Hst). exists x'. split_and!; [done|done|].
    rewrite Hst. repeat case_decide; congruence.
  - unfold revoke_key_for_user.
    destruct (find_by_key_hash k (ks_records s)) as [y|] eqn:Hy; [|apply keeps_none, keeps_refl].
    destruct (decide (kr_user_id y = Some us)); [|apply keeps_none, keeps_refl].
    assert (Hok : (revoke_key k s).1 = true)
      by (unfold revoke_key, update_status; unfold find_by_key_hash in Hy; by rewrite Hy).
    rewrite Hok. intros x Hx. destruct (revoke_keeps k h s x Hx) as (x' & Hx' & Hh & Hst). exists x'.
    split_and!; [done|done|]. rewrite Hst. repeat case_decide; congruence.
Qed.

Lemma runs_keep s revoked s' h : key_runs s revoked s' ->
  keeps (fun st => if decide (h ∈ revoked) then REVOKED else st) h (ks_records s) (ks_records s').
Proof.
  induction 1 as [|revoked s1 r s2 _ IH Hstep]; [apply keeps_refl|].
  intros x Hx. destruct (IH x Hx) as (x1 & Hx1 & Hh1 & Hst1).
  destruct (step_keeps _ _ _ h Hstep x1 Hx1) as (x2 & Hx2 & Hh2 & Hst2). exists x2.
  split_and!; [done|congruence|]. rewrite Hst2, Hst1.
  assert (Hr : h ∈ option_list r <-> Some h = r) by (destruct r; simpl; [rewrite list_elem_of_singleton|]; set_solver).
  destruct (decide (Some h = r)) as [Heq|Hne].
  - by rewrite decide_True by (apply elem_of_app; right; by apply Hr).
  - destruct (decide (h ∈ revoked)) as [Hin|Hnin]; [rewrite decide_True by (apply elem_of_app; by left); done|].
    rewrite decide_False; [done|]. rewrite elem_of_app, Hr. tauto.
Qed.

(** C39. A key is valid until it is revoked, and never after: from a state in
    which a key is active, after any calls on any keys, [validate] accepts it,
    for the same holder, as long as it has not been revoked; once it has, it is
    refused, by the admin guard as well, whatever keys are created or
    bootstrapped later. *)
Theorem key_valid_until_revoked s revoked s' raw x monotonic now fails admin_keys :
  key_runs s revoked s' -> dict_get (hash_api_key raw) (ks_records s) = Some x -> kr_status x = ACTIVE ->
  (hash_api_key raw ∉ revoked ->
   (validate hash_api_key monotonic now fails raw s').1 =
     Ok (mkAPIKey (hash_api_key raw) (kr_name x) (kr_id x) (kr_user_id x) (kr_workspace_id x))) /\
  (hash_api_key raw ∈ revoked ->
   (validate hash_api_key monotonic now fails raw s').1 = Err (AuthenticationError (u "API key is disabled.")) /\
   (require_admin_key hash_api_key admin_keys monotonic now fails (Some raw) s').1 =
     Err (AuthenticationError (u "API key is disabled."))).
Proof.
  intros Hr Hx Hst. destruct (runs_keep _ _ _ (hash_api_key raw) Hr x Hx) as (x' & Hx' & Hh & Hst').
  injection Hh as Hh1 Hh2 Hh3 Hh4 Hh5. rewrite Hst in Hst'. unfold require_admin_key, validate, find_by_key_hash.
  rewrite Hx'. split; intros Hin.
  - rewrite decide_False in Hst' by done. rewrite decide_True by done. cbn [fst]. congruence.
  - rewrite decide_True in Hst' by done. rewrite decide_False; [done|]. rewrite Hst'. by vm_compute.
Qed.
End KeyRuns.

(** A key of the configuration, used and then revoked by an administrator. *)
Definition demo_keys : APIKeyService :=
  mkAPIKeyService (create_in_memory_repository (fun s => s) 0 (u "key1:alice, key2")) ∅.
Definition demo_used : APIKeyService := (validate (fun s => s) 70000000000 1 false (u "key1") demo_keys).2.
Definition demo_revoked : APIKeyService := (revoke_key (u "key1") demo_used).2.
Definition demo_key_record : APIKeyRecord :=
  mkAPIKeyRecord (u "key1") (u "alice") ACTIVE None None None (Some 0) None.

Lemma demo_key_runs : key_runs (fun s => s) demo_keys [u "key1"] demo_revoked.
Proof.
  apply (KeyRunsSnoc (fun s => s) demo_keys [] demo_used (Some (u "key1"))).
  - apply (KeyRunsSnoc (fun s => s) demo_keys [] demo_keys None); [constructor|].
    apply (StepValidate (fun s => s) demo_keys 70000000000 1 false (u "key1")).
  - apply (StepRevoke (fun s => s) demo_used (u "key1")).
Qed.

Lemma key_valid_until_revoked_witness :
  (u "key1" ∉ [u "key1"] ->
   (validate (fun s => s) 80000000000 2 false (u "key1") demo_revoked).1 =
     Ok (mkAPIKey (u "key1") (u "alice") None None None)) /\
  (u "key1" ∈ [u "key1"] ->
   (validate (fun s => s) 80000000000 2 false (u "key1") demo_revoked).1 =
     Err (AuthenticationError (u "API key is disabled.")) /\
   (require_admin_key (fun s => s) (u "key1") 80000000000 2 false (Some (u "key1")) demo_revoked).1 =
     Err (AuthenticationError (u "API key is disabled."))).
Proof.
  refine (key_valid_until_revoked (fun s => s) demo_keys [u "key1"] demo_revoked (u "key1") demo_key_record
    80000000000 2 false (u "key1") demo_key_runs _ _); vm_compute; reflexivity.
Defined.

(** ** Users *)

Section UserRuns.
Context (scrypt : pystr -> pystr -> pystr) (lower : pystr -> pystr).

Inductive registrations : InMemoryUserRepository -> InMemoryUserRepository -> Prop :=
| RegistrationsNil r : registrations r r
| RegistrationsSnoc r r1 now i salt email name password res r2 :
    registrations r r1 -> _records r1 !! i = None ->
    register scrypt lower now i salt email name password r1 = (res, r2) -> registrations r r2.

Lemma register_inv now i salt email name password r res r' :
  register scrypt lower now i salt email name password r = (res, r') ->
  r' = r /\ (exists e, res = Err e) \/ exists x, res = Ok x /\ r' = user_create x r /\ us_id x = i /\ us_email x = lower (strip email) /\
    us_password_salt x = salt /\ us_password_hash x = scrypt password salt /\ us_status x = ACTIVE /\
    find_by_email (us_email x) r = None.
Proof.
  unfold register. destruct (_ ≫= _) as [[]|e] eqn:Hc; [|intros [= <- <-]; left; split; [done|by eexists]].
  apply bind_ok in Hc as ([] & _ & Hc). apply bind_ok in Hc as ([] & _ & Hc).
  apply bind_ok in Hc as ([] & _ & Hc%raise_if_ok). cbn [hash_password]. intros [= <- <-]. right.
  eexists. split_and!; try reflexivity. cbn [us_email]. by destruct (find_by_email _ _).
Qed.

Lemma create_finds x r : find_by_email (us_email x) (user_create x r) = Some x.
Proof. unfold find_by_email, user_create. cbn. rewrite lookup_insert, decide_True by done. cbn. by rewrite lookup_insert, decide_True. Qed.

Lemma registrations_keep r r' email x : registrations r r' -> find_by_email email r = Some x ->
  find_by_email email r' = Some x.
Proof.
  induction 1 as [|r r1 now i salt em name password res r2 _ IH Hi Hreg]; [done|]. intros Hx. specialize (IH Hx).
  apply register_inv in Hreg as [[-> _]|(y & _ & -> & Hid & _ & _ & _ & _ & Hno)]; [done|].
  unfold find_by_email, user_create in *. cbn in *.
  destruct (_by_email r1 !! email) as [k|] eqn:Hk; [|done]. cbn in IH.
  rewrite lookup_insert_ne by (intros Heq; rewrite Heq, Hk in Hno; cbn in Hno; congruence).
  rewrite Hk. cbn.
  by rewrite lookup_insert_ne by congruence.
Qed.

(** A registered user logs in with the registered password, under any spelling of
    the address that normalises alike, whoever registers later; whoever logs in
    under that address is this user and knows a password with the same hash. *)
Lemma register_then_login now i salt email name password r x r1 r2 email' password' :
  register scrypt lower now i salt email name password r = (Ok x, r1) ->
  registrations r1 r2 -> lower (strip email') = lower (strip email) ->
  login scrypt lower email' password r2 = Ok x /\
  (forall y, login scrypt lower email' password' r2 = Ok y -> y = x /\ scrypt password' salt = scrypt password salt).
Proof.
  intros Hreg Hr Hem. apply register_inv in Hreg as [[_ [e [=]]]|(y & [= <-] & -> & Hid & He & Hs & Hh & Hst & Hno)].
  pose proof (registrations_keep _ _ _ _ Hr (create_finds x r)) as Hf. unfold login. rewrite Hem, <- He, Hf.
  unfold verify_password, hash_password. cbn [snd]. rewrite Hs, Hh, (bool_decide_true (us_status x = ACTIVE)) by done.
  generalize (AuthenticationError (u "Invalid email or password.")) (AuthenticationError (u "Account is disabled.")).
  intros e1 e2. split.
  - by rewrite bool_decide_true.
  - intros y. destruct (bool_decide _) eqn:Hb; [|done]. intros [= <-]. by bools.
Qed.
End UserRuns.

(** ** Tenants *)

(** Whatever the identity, the tenant hash passes [validate_owner_key_hash],
    unless the hash of the presented key ends in a line break. *)
Lemma resolve_tenant_scope_valid hash_api_key i :
  (forall s, valid_owner_hash (hash_api_key s) = true) -> last (ic_api_key_hash i) <> Some 10%N ->
  exists scope, resolve_tenant_scope hash_api_key (Some i) = Some scope /\ valid_owner_hash scope = true.
Proof.
  intros Hh Hl. unfold resolve_tenant_scope. cbn [mbind option_bind]. eexists. split; [reflexivity|].
  unfold tenant_scope. destruct (ic_workspace_id i) as [w|].
  - unfold matches_owner_hash. rewrite Hh. apply Hh.
  - unfold matches_owner_hash. rewrite (bool_decide_false _ Hl), orb_false_r.
    destruct (valid_owner_hash (ic_api_key_hash i)) eqn:E; cbn [negb]; [exact E|apply Hh].
Qed.
