(* ===== verification/Memory.v ===== *)
(** * Long-term memory: [app/memory/]

    Items, the in-memory repository (items by id, in order of creation) and the
    service: validation, term overlap, selection for an agent.  [str.lower], the
    fresh [uuid4] and the clocks are arguments; instants are microseconds. *)

From Corelib Require Import SpecFloat.
From S2P Require Import Prelude Json AuditLog RagText.
Local Open Scope Z_scope.

Module MemorySource.
Inductive t := EXPLICIT | CONVERSATION | SYSTEM.
End MemorySource.
Module MemoryKind.
Inductive t := FACT | PREFERENCE | INSTRUCTION.
End MemoryKind.

Record MemoryItem := mkMemoryItem {
  mi_id : pystr;
  mi_owner_scope : pystr;
  mi_content : pystr;
  mi_source : MemorySource.t;
  mi_kind : MemoryKind.t;
  mi_confidence : float64;
  mi_metadata : list (pystr * json);
  mi_created_at : option Z;
  mi_updated_at : option Z;
  mi_last_used_at : option Z
}.

Inductive memory_error :=
| MemoryNotFoundError (message : pystr)
| MemoryValidation (message : pystr)
| OwnerScopeError (message : pystr).

(** [fullmatch]: 64 lower-case hexadecimal digits *)
Definition validate_owner_scope (owner_scope : pystr) : result memory_error pystr :=
  _ ← raise_if (negb (valid_owner_hash owner_scope))
        (OwnerScopeError (u "owner_scope must be a lowercase SHA-256 hex digest"));
  Ok owner_scope.

(** ** The repository *)

Abbreviation memory_items := (list (pystr * MemoryItem)).

Definition mem_create (item : MemoryItem) (r : memory_items) : memory_items := dict_set (mi_id item) item r.

Definition mem_get (memory_id owner_scope : pystr) (r : memory_items) : option MemoryItem :=
  match dict_get memory_id r with
  | Some item => if decide (mi_owner_scope item = owner_scope) then Some item else None
  | None => None
  end.

(** [datetime.min], in microseconds from the epoch *)
Definition _memory_order_key (item : MemoryItem) : Z :=
  match mi_last_used_at item, mi_updated_at item, mi_created_at item with
  | Some t, _, _ | None, Some t, _ | None, None, Some t => t
  | None, None, None => -62135596800 * 1000000
  end.

Definition mem_list (owner_scope : pystr) (limit : Z) (r : memory_items) : list MemoryItem :=
  pyslice limit (sort_by (fun a b => _memory_order_key b <=? _memory_order_key a)
    (filter (fun item => mi_owner_scope item = owner_scope) r.*2)).

Definition mem_update (item : MemoryItem) (r : memory_items) : option MemoryItem * memory_items :=
  match mem_get (mi_id item) (mi_owner_scope item) r with
  | None => (None, r)
  | Some c =>
      let updated := mkMemoryItem (mi_id c) (mi_owner_scope c) (mi_content item) (mi_source item) (mi_kind item)
                       (mi_confidence item) (mi_metadata item) (mi_created_at c) (mi_updated_at item)
                       (mi_last_used_at c) in
      (Some updated, dict_set (mi_id item) updated r)
  end.

Definition mem_delete (memory_id owner_scope : pystr) (r : memory_items) : bool * memory_items :=
  match mem_get memory_id owner_scope r with
  | None => (false, r)
  | Some _ => (true, dict_del memory_id r)
  end.

Definition mark_used (used_at : Z) (memory_id owner_scope : pystr) (r : memory_items)
  : option MemoryItem * memory_items :=
  match mem_get memory_id owner_scope r with
  | None => (None, r)
  | Some c =>
      let updated := mkMemoryItem (mi_id c) (mi_owner_scope c) (mi_content c) (mi_source c) (mi_kind c)
                       (mi_confidence c) (mi_metadata c) (mi_created_at c) (mi_updated_at c) (Some used_at) in
      (Some updated, dict_set (mi_id c) updated r)
  end.

(** ** Validation *)

Definition _MAX_CONTENT_LENGTH : Z := 10000.
Definition _MAX_METADATA_KEYS : Z := 32.
Definition _MAX_METADATA_KEY_LENGTH : Z := 64.
Definition _MAX_METADATA_VALUE_LENGTH : Z := 500.
Definition _MAX_LIST_LIMIT : Z := 100.
Definition _MAX_FETCH_FOR_SEARCH : Z := 200.

Definition _normalize_content (content : pystr) : result memory_error pystr :=
  let normalized := strip content in
  _ ← raise_if (bool_decide (normalized = [])) (MemoryValidation (u "content must not be empty"));
  _ ← raise_if (_MAX_CONTENT_LENGTH <? slen normalized)
        (MemoryValidation (u "content must be at most 10000 characters"));
  Ok normalized.

Definition float_one : float64 := round_ratio false 1 1.
Definition _validate_confidence (confidence : float64) : result memory_error unit :=
  raise_if (negb (SFleb (S754_zero false) confidence && SFleb confidence float_one))
    (MemoryValidation (u "confidence must be between 0 and 1")).

Definition is_scalar (v : json) : bool := match v with JArr _ | JObj _ => false | _ => true end.

Definition normalize_entry (normalized : list (pystr * json)) (kv : pystr * json)
  : result memory_error (list (pystr * json)) :=
  let '(key, value) := kv in
  _ ← raise_if (bool_decide (key = []) || (_MAX_METADATA_KEY_LENGTH <? slen key))
        (MemoryValidation (u "metadata key must be between 1 and 64 characters"));
  _ ← raise_if (negb (is_scalar value)) (MemoryValidation (u "metadata values must be JSON scalar values"));
  _ ← raise_if (match value with JStr s => _MAX_METADATA_VALUE_LENGTH <? slen s | _ => false end)
        (MemoryValidation (u "metadata string values must be at most 500 characters"));
  Ok (dict_set key value normalized).

Definition _normalize_metadata (metadata : list (pystr * json)) : result memory_error (list (pystr * json)) :=
  _ ← raise_if (_MAX_METADATA_KEYS <? Z.of_nat (length metadata))
        (MemoryValidation (u "metadata must have at most 32 keys"));
  foldE normalize_entry [] metadata.

(** ** Terms of a text *)

(** [re.findall] of a class of characters with [+]: its maximal runs *)
Fixpoint runs_go (p : N -> bool) (acc s : pystr) : list pystr :=
  match s with
  | [] => match acc with [] => [] | _ => [rev acc] end
  | c :: s' =>
      if p c then runs_go p (c :: acc) s'
      else match acc with [] => runs_go p [] s' | _ => rev acc :: runs_go p [] s' end
  end.
Definition runs_of (p : N -> bool) (s : pystr) : list pystr := runs_go p [] s.

Definition is_ascii_term (c : N) : bool := ((97 <=? c) && (c <=? 122) || (48 <=? c) && (c <=? 57))%N.
Definition is_cjk (c : N) : bool := ((19968 <=? c) && (c <=? 40959))%N.

(** One turn of the inner loop: [Err] is the early return. *)
Definition add_gram (run : pystr) (terms : gset pystr) (si : nat * nat) : result (gset pystr) (gset pystr) :=
  let terms := {[take si.1 (drop si.2 run)]} ∪ terms in
  if (256 <=? size terms)%nat then Err terms else Ok terms.

(** The sizes and places of the inner loops *)
Definition grams (run : pystr) : list (nat * nat) :=
  let window := (Nat.min (length run - 1) 2) in
  size ← seq 2 window; (fun index => (size, index)) <$> seq 0 (length run - size + 1).

Definition add_run (terms : gset pystr) (run : pystr) : result (gset pystr) (gset pystr) :=
  let terms := if (length run <=? 8)%nat then {[run]} ∪ terms else terms in
  foldE (add_gram run) terms (grams run).

Section Service.
Context (lower : pystr -> pystr).

Definition _text_terms (text : pystr) : gset pystr :=
  let lowered := lower text in
  let terms := list_to_set (filter (fun token => (2 <=? length token)%nat = true) (runs_of is_ascii_term lowered)) in
  match foldE add_run terms (runs_of is_cjk lowered) with
  | Ok terms | Err terms => terms
  end.

Definition _overlap_score (item : MemoryItem) (query_terms : gset pystr) : Z :=
  Z.of_nat (size (_text_terms (mi_content item) ∩ query_terms)).
Definition _recent_key : MemoryItem -> Z := _memory_order_key.

(** The tuple [(overlap, recency)] of [a] is at least that of [b]. *)
Definition more_relevant (query_terms : gset pystr) (a b : MemoryItem) : bool :=
  let x := _overlap_score a query_terms in
  let y := _overlap_score b query_terms in
  (y <? x) || ((x =? y) && (_recent_key b <=? _recent_key a)).

(** ** [MemoryService] *)

Definition create_memory (now : Z) (new_id owner_scope content : pystr) (source : MemorySource.t)
    (kind : MemoryKind.t) (confidence : float64) (metadata : list (pystr * json)) (r : memory_items)
  : result memory_error MemoryItem * memory_items :=
  match (owner ← validate_owner_scope owner_scope;
         normalized ← _normalize_content content;
         normalized_metadata ← _normalize_metadata metadata;
         _ ← _validate_confidence confidence;
         Ok (mkMemoryItem new_id owner normalized source kind confidence normalized_metadata (Some now) (Some now)
               None)) with
  | Err e => (Err e, r)
  | Ok item => (Ok item, mem_create item r)
  end.

Definition memory_not_found : memory_error := MemoryNotFoundError (u "Memory item not found.").

Definition get_memory (owner_scope memory_id : pystr) (r : memory_items) : result memory_error MemoryItem :=
  owner ← validate_owner_scope owner_scope;
  match mem_get memory_id owner r with
  | Some item => Ok item
  | None => Err memory_not_found
  end.

Definition list_memories (owner_scope : pystr) (limit : Z) (query : option pystr) (r : memory_items)
  : result memory_error (list MemoryItem) :=
  owner ← validate_owner_scope owner_scope;
  let normalized_limit := Z.max (Z.min limit _MAX_LIST_LIMIT) 1 in
  let query := match query with Some q => strip q | None => [] end in
  if bool_decide (query = []) then Ok (mem_list owner normalized_limit r)
  else
    let raw := mem_list owner _MAX_FETCH_FOR_SEARCH r in
    let query_terms := _text_terms query in
    if bool_decide (query_terms = ∅) then Ok (pyslice normalized_limit raw)
    else
      let ranked := sort_by (more_relevant query_terms) raw in
      Ok (pyslice normalized_limit (filter (fun item => 0 < _overlap_score item query_terms) ranked)).

Definition update_memory (now : Z) (owner_scope memory_id : pystr) (content : option pystr)
    (source : option MemorySource.t) (kind : option MemoryKind.t) (confidence : option float64)
    (metadata : option (list (pystr * json))) (r : memory_items) : result memory_error MemoryItem * memory_items :=
  match (owner ← validate_owner_scope owner_scope;
         current ← match mem_get memory_id owner r with Some c => Ok c | None => Err memory_not_found end;
         _ ← match content, source, kind, confidence, metadata with
             | None, None, None, None, None => Err (MemoryValidation (u "At least one memory field must be updated."))
             | _, _, _, _, _ => Ok tt
             end;
         updated_content ← match content with Some c => _normalize_content c | None => Ok (mi_content current) end;
         let updated_confidence := default (mi_confidence current) confidence in
         _ ← _validate_confidence updated_confidence;
         updated_metadata ← match metadata with Some m => _normalize_metadata m | None => Ok (mi_metadata current) end;
         Ok (mkMemoryItem (mi_id current) (mi_owner_scope current) updated_content
               (default (mi_source current) source) (default (mi_kind current) kind) updated_confidence
               updated_metadata (mi_created_at current) (Some now) (mi_last_used_at current))) with
  | Err e => (Err e, r)
  | Ok updated =>
      match mem_update updated r with
      | (None, r) => (Err memory_not_found, r)
      | (Some item, r) => (Ok item, r)
      end
  end.

Definition delete_memory (owner_scope memory_id : pystr) (r : memory_items) : result memory_error unit * memory_items :=
  match validate_owner_scope owner_scope with
  | Err e => (Err e, r)
  | Ok owner =>
      match mem_delete memory_id owner r with
      | (true, r) => (Ok tt, r)
      | (false, r) => (Err memory_not_found, r)
      end
  end.

(** The items taken while characters remain. *)
Fixpoint bounded_items (remaining : Z) (l : list MemoryItem) : list MemoryItem :=
  match l with
  | [] => []
  | item :: l =>
      if remaining <=? 0 then []
      else item :: bounded_items (remaining - (slen (sprefix remaining (mi_content item)) + 32)) l
  end.

(** [clock i] is the instant of the [i]-th [mark_used]. *)
Definition mark_all (clock : nat -> Z) (owner_scope : pystr) (l : list MemoryItem) (r : memory_items) : memory_items :=
  (foldl (fun ir item => (S ir.1, (mark_used (clock ir.1) (mi_id item) owner_scope ir.2).2)) (O, r) l).2.

Record MemoryConfig := mkMemoryConfig { _context_limit : Z; _context_max_chars : Z }.
Definition MemoryService_init (context_limit context_max_chars : Z) : MemoryConfig :=
  mkMemoryConfig (Z.max context_limit 0) (Z.max context_max_chars 100).

Definition retrieve_for_agent (cfg : MemoryConfig) (clock : nat -> Z) (owner_scope query : pystr)
    (limit max_chars : option Z) (r : memory_items) : result memory_error (list MemoryItem) * memory_items :=
  if _context_limit cfg <=? 0 then (Ok [], r)
  else
    match list_memories owner_scope (default (_context_limit cfg) limit) (Some query) r with
    | Err e => (Err e, r)
    | Ok [] => (Ok [], r)
    | Ok selected =>
        let bounded := bounded_items (default (_context_max_chars cfg) max_chars) selected in
        (Ok bounded, mark_all clock owner_scope bounded r)
    end.
End Service.

(** * Theorems

    Stored items are always valid; owners do not see or change each other's
    items; a search returns the most relevant matches. *)

(** ** Validity *)

Definition valid_entry (kv : pystr * json) : Prop :=
  kv.1 <> [] /\ slen kv.1 <= _MAX_METADATA_KEY_LENGTH /\ is_scalar kv.2 = true /\
  (forall s, kv.2 = JStr s -> slen s <= _MAX_METADATA_VALUE_LENGTH).
Definition valid_metadata (m : list (pystr * json)) : Prop :=
  Z.of_nat (length m) <= _MAX_METADATA_KEYS /\ NoDup m.*1 /\ Forall valid_entry m.
Record valid_item (item : MemoryItem) : Prop := {
  vi_owner : valid_owner_hash (mi_owner_scope item) = true;
  vi_content : mi_content item <> [] /\ slen (mi_content item) <= _MAX_CONTENT_LENGTH;
  vi_confidence : SFleb (S754_zero false) (mi_confidence item) = true /\ SFleb (mi_confidence item) float_one = true;
  vi_metadata : valid_metadata (mi_metadata item)
}.
Definition store_ok (r : memory_items) : Prop :=
  forall k item, dict_get k r = Some item -> mi_id item = k /\ valid_item item.

Lemma normalize_content_ok c c' :
  _normalize_content c = Ok c' -> c' = strip c /\ c' <> [] /\ slen c' <= _MAX_CONTENT_LENGTH.
Proof.
  unfold _normalize_content. intros ([] & H1%raise_if_ok & H)%bind_ok.
  apply bind_ok in H as ([] & H2%raise_if_ok & [= <-]). bools. split; [done|]. split; [done|lia].
Qed.

Lemma validate_confidence_ok c :
  _validate_confidence c = Ok tt -> SFleb (S754_zero false) c = true /\ SFleb c float_one = true.
Proof. unfold _validate_confidence. intros H%raise_if_ok%negb_false_iff. by apply andb_true_iff in H. Qed.

Lemma dict_set_length {V} k (v : V) d : (length (dict_set k v d) <= S (length d))%nat.
Proof. induction d as [|[k' v'] d IH]; simpl; [lia|]. case_decide; simpl; lia. Qed.

Lemma dict_set_Forall {V} (P : pystr * V -> Prop) k v d :
  (forall k', k = k' -> P (k', v)) -> Forall P d -> Forall P (dict_set k v d).
Proof.
  intros Hv. induction 1 as [|[k' v'] d Hd Hds IH]; simpl; [constructor; [by apply Hv|constructor]|].
  case_decide; constructor; auto.
Qed.

Lemma normalize_metadata_ok m m' : _normalize_metadata m = Ok m' -> valid_metadata m'.
Proof.
  unfold _normalize_metadata. intros ([] & H1%raise_if_ok & H)%bind_ok. bools.
  enough (Hinv : (length m' <= length m)%nat /\ NoDup m'.*1 /\ Forall valid_entry m')
    by (destruct Hinv as (? & ? & ?); split; [lia|done]).
  apply (foldE_inv (fun pre s => (length s <= length pre)%nat /\ NoDup s.*1 /\ Forall valid_entry s) _ _ _ _ H).
  { split; [done|]. split; constructor. }
  intros pre [key value] s s' (Hl & Hn & Hf). unfold normalize_entry.
  intros ([] & H2%raise_if_ok & Hs)%bind_ok. apply bind_ok in Hs as ([] & H3%raise_if_ok & Hs).
  apply bind_ok in Hs as ([] & H4%raise_if_ok & [= <-]). bools. split; [|split].
  - rewrite length_app. simpl. pose proof (dict_set_length key value s). lia.
  - by apply dict_set_NoDup.
  - apply dict_set_Forall; [|done]. intros k' <-. repeat split; simpl; [done|lia|done|].
    intros s0 ->. by bools.
Qed.

Lemma mem_get_some i owner r item :
  mem_get i owner r = Some item <-> dict_get i r = Some item /\ mi_owner_scope item = owner.
Proof.
  unfold mem_get. destruct (dict_get i r) as [x|]; [|naive_solver]. case_decide; [naive_solver|].
  split; [done|]. intros [[= <-] ?]. done.
Qed.

(** ** What a call does to the store *)

(** [update r r' owner]: the store is as it was, or one item of the owner was
    added under a fresh id, replaced or removed. *)
Inductive owned_change (owner : pystr) (r : memory_items) : memory_items -> Prop :=
| ChangeNone : owned_change owner r r
| ChangeAdd item : dict_get (mi_id item) r = None -> mi_owner_scope item = owner -> valid_item item ->
    owned_change owner r (dict_set (mi_id item) item r)
| ChangeSet old item : dict_get (mi_id item) r = Some old -> mi_owner_scope old = owner ->
    mi_owner_scope item = owner -> (valid_item old -> valid_item item) ->
    owned_change owner r (dict_set (mi_id item) item r)
| ChangeDel i old : dict_get i r = Some old -> mi_owner_scope old = owner ->
    owned_change owner r (dict_del i r).

Lemma owned_other owner r r' other i :
  NoDup r.*1 -> owned_change owner r r' -> other <> owner -> mem_get i other r' = mem_get i other r.
Proof.
  intros Hn H Ho. destruct H as [|item Hf Hi _|old item Hd H1 H2 _|k old Hd H1]; [done|..]; unfold mem_get.
  - rewrite dict_get_set. case_decide as E; [|done]. subst i. by rewrite Hf, decide_False by congruence.
  - rewrite dict_get_set. case_decide as E; [|done]. subst i. by rewrite Hd, !decide_False by congruence.
  - destruct (decide (i = k)) as [->|Hk]; [|by rewrite dict_get_del_ne].
    by rewrite Hd, dict_get_del, (decide_False (P := mi_owner_scope old = other)) by congruence.
Qed.

Lemma owned_others owner r r' other :
  owned_change owner r r' -> other <> owner ->
  others (fun item => mi_owner_scope item = other) r' = others (fun item => mi_owner_scope item = other) r.
Proof.
  intros H Ho. destruct H as [|item Hf Hi _|old item Hd H1 H2 _|k old Hd H1]; [done|..].
  - apply others_fresh; congruence.
  - eapply others_set; [exact Hd|congruence|congruence].
  - eapply others_del; [exact Hd|congruence].
Qed.

Lemma owned_ok owner r r' : owned_change owner r r' -> NoDup r.*1 /\ store_ok r -> NoDup r'.*1 /\ store_ok r'.
Proof.
  intros H [Hn Hs]. destruct H as [|item Hf Hi Hv|old item Hd H1 H2 Hv|k old Hd H1]; [done|..].
  - split; [by apply dict_set_NoDup|]. intros k x. rewrite dict_get_set. case_decide; [|by apply Hs].
    intros [= <-]. done.
  - split; [by apply dict_set_NoDup|]. intros k x. rewrite dict_get_set. case_decide; [|by apply Hs].
    intros [= <-]. split; [done|]. by apply Hv, (Hs _ _ Hd).
  - split; [by apply dict_del_NoDup|]. intros i x Hx. destruct (decide (i = k)) as [->|Hk].
    + by rewrite dict_get_del in Hx.
    + rewrite dict_get_del_ne in Hx by done. by apply Hs.
Qed.

Lemma change_set owner k old item r :
  dict_get k r = Some old -> mi_id item = k -> mi_owner_scope old = owner -> mi_owner_scope item = owner ->
  (valid_item old -> valid_item item) -> owned_change owner r (dict_set k item r).
Proof. intros Hk <- **. by eapply ChangeSet. Qed.

(** ** The calls *)

Section Calls.
Context (lower : pystr -> pystr).

(** The calls that change the store; the id of a new item is fresh. *)
Inductive mem_call (owner : pystr) (r : memory_items) : memory_items -> Prop :=
| CallCreate now i content source kind confidence metadata : dict_get i r = None ->
    mem_call owner r (create_memory now i owner content source kind confidence metadata r).2
| CallUpdate now i content source kind confidence metadata :
    mem_call owner r (update_memory now owner i content source kind confidence metadata r).2
| CallDelete i : mem_call owner r (delete_memory owner i r).2
| CallRetrieve cfg clock query limit max_chars :
    mem_call owner r (retrieve_for_agent lower cfg clock owner query limit max_chars r).2.

Inductive mem_reachable : memory_items -> Prop :=
| ReachNil : mem_reachable []
| ReachCall owner r r' : mem_reachable r -> mem_call owner r r' -> mem_reachable r'.

Lemma validate_owner_ok o o' : validate_owner_scope o = Ok o' -> o' = o /\ valid_owner_hash o = true.
Proof.
  unfold validate_owner_scope. intros ([] & H%raise_if_ok & [= <-])%bind_ok. by apply negb_false_iff in H.
Qed.

Lemma create_change now i owner content source kind confidence metadata r :
  dict_get i r = None ->
  owned_change owner r (create_memory now i owner content source kind confidence metadata r).2.
Proof.
  intros Hi. unfold create_memory. destruct (_ ≫= _) as [item|e] eqn:E; [|constructor].
  apply bind_ok in E as (o & [-> Ho]%validate_owner_ok & E).
  apply bind_ok in E as (c & (_ & Hc)%normalize_content_ok & E).
  apply bind_ok in E as (m & Hm%normalize_metadata_ok & E).
  apply bind_ok in E as ([] & Hf%validate_confidence_ok & [= <-]).
  unfold mem_create. by apply ChangeAdd.
Qed.

Lemma update_change now i owner content source kind confidence metadata r :
  store_ok r -> owned_change owner r (update_memory now owner i content source kind confidence metadata r).2.
Proof.
  intros Hok. unfold update_memory. destruct (_ ≫= _) as [item|e] eqn:E; [|constructor].
  apply bind_ok in E as (o & [-> Ho]%validate_owner_ok & E).
  apply bind_ok in E as (c & Hg & E). destruct (mem_get i owner r) as [c'|] eqn:Hc; [|done].
  injection Hg as ->. apply mem_get_some in Hc as [Hc Hco]. destruct (Hok _ _ Hc) as [Hid Hv].
  apply bind_ok in E as ([] & _ & E). apply bind_ok in E as (nc & Hnc & E).
  apply bind_ok in E as ([] & Hf%validate_confidence_ok & E). apply bind_ok in E as (nm & Hnm & [= <-]).
  unfold mem_update. cbn [mi_id mi_owner_scope]. rewrite Hid, Hco.
  rewrite (proj2 (mem_get_some i owner r c)) by done. cbn [snd].
  eapply change_set; [exact Hc|exact Hid|exact Hco|exact Hco|]. intros [H1 H2 H3 H4].
  split; cbn [mi_owner_scope mi_content mi_confidence mi_metadata]; [done| |done|].
  - destruct content; [by apply normalize_content_ok in Hnc as (_ & ?)|by injection Hnc as <-].
  - destruct metadata; [by apply normalize_metadata_ok in Hnm|by injection Hnm as <-].
Qed.

Lemma delete_change i owner r : owned_change owner r (delete_memory owner i r).2.
Proof.
  unfold delete_memory. destruct (validate_owner_scope owner) as [o|e] eqn:E; [|constructor].
  apply validate_owner_ok in E as [-> _]. unfold mem_delete.
  destruct (mem_get i owner r) as [item|] eqn:Hg; [|constructor].
  apply mem_get_some in Hg as [Hg Ho]. by eapply ChangeDel.
Qed.

Lemma mark_change t i owner r : store_ok r -> owned_change owner r (mark_used t i owner r).2.
Proof.
  intros Hok. unfold mark_used. destruct (mem_get i owner r) as [c|] eqn:Hg; [|constructor].
  apply mem_get_some in Hg as [Hg Ho]. destruct (Hok _ _ Hg) as [Hid _]. cbn [snd]. rewrite Hid.
  eapply change_set; [exact Hg|done|exact Ho|exact Ho|]. by intros [].
Qed.

(** Several changes by one owner. *)
Abbreviation owned_changes owner := (rtc (owned_change owner)).

Lemma changes_ok owner r r' : owned_changes owner r r' -> NoDup r.*1 /\ store_ok r -> NoDup r'.*1 /\ store_ok r'.
Proof. induction 1; [done|]. intros H'. eauto using owned_ok. Qed.

Lemma mark_all_changes clock owner l : forall n r, NoDup r.*1 /\ store_ok r ->
  owned_changes owner r
    (foldl (fun ir item => (S ir.1, (mark_used (clock ir.1) (mi_id item) owner ir.2).2)) (n, r) l).2.
Proof.
  induction l as [|item l IH]; intros n r Hr; [constructor|]. simpl.
  pose proof (mark_change (clock n) (mi_id item) owner r (proj2 Hr)) as Hc.
  eapply rtc_l; [exact Hc|]. apply IH. by eapply owned_ok.
Qed.

Lemma call_changes owner r r' : NoDup r.*1 /\ store_ok r -> mem_call owner r r' -> owned_changes owner r r'.
Proof.
  intros Hr H. destruct H as [now i c so k f m Hi|now i c so k f m|i|cfg clock q l mc].
  - by apply rtc_once, create_change.
  - apply rtc_once, update_change, Hr.
  - apply rtc_once, delete_change.
  - unfold retrieve_for_agent. destruct (_ <=? 0); [done|].
    destruct (list_memories _ _ _ _ _) as [[|x sel]|e]; [done| |done]. apply mark_all_changes, Hr.
Qed.

Lemma reachable_ok r : mem_reachable r -> NoDup r.*1 /\ store_ok r.
Proof.
  induction 1 as [|owner r r' _ IH Hc]; [split; [constructor|done]|].
  eapply changes_ok; [by apply call_changes|done].
Qed.

Lemma changes_other owner r r' other :
  NoDup r.*1 /\ store_ok r -> owned_changes owner r r' -> other <> owner ->
  (forall i, mem_get i other r' = mem_get i other r) /\
  others (fun item => mi_owner_scope item = other) r' = others (fun item => mi_owner_scope item = other) r.
Proof.
  intros Hr H Ho. induction H as [|r r1 r2 H1 _ IH]; [done|].
  destruct (IH (owned_ok _ _ _ H1 Hr)) as [IH1 IH2]. rewrite IH2. split.
  - intros i. rewrite IH1. eapply owned_other; [apply Hr|exact H1|done].
  - by eapply owned_others.
Qed.

(** Reading depends on the items of the owner only. *)
Lemma list_memories_others owner limit query r r' :
  others (fun item => mi_owner_scope item = owner) r' = others (fun item => mi_owner_scope item = owner) r ->
  list_memories lower owner limit query r' = list_memories lower owner limit query r.
Proof.
  intros H. unfold list_memories. destruct (validate_owner_scope owner) as [o|e] eqn:E; [|done].
  apply validate_owner_ok in E as [-> _]. cbn [mbind result_bind]. unfold mem_list. unfold others in H. by rewrite H.
Qed.

Lemma pyslice_take {A} n (l : list A) : 0 <= n -> pyslice n l = take (Z.to_nat n) l.
Proof. intros Hn. unfold pyslice. by rewrite (proj2 (Z.ltb_ge _ _) Hn). Qed.

Lemma pyslice_elem {A} n (l : list A) x : 0 <= n -> x ∈ pyslice n l -> x ∈ l.
Proof. intros Hn. rewrite pyslice_take by done. intros (i & Hi & _)%elem_of_take. by eapply list_elem_of_lookup_2. Qed.

Lemma pyslice_length {A} n (l : list A) : 0 <= n -> Z.of_nat (length (pyslice n l)) <= n.
Proof. intros Hn. rewrite pyslice_take by done. rewrite length_take. lia. Qed.

Lemma mem_list_items owner limit r item :
  0 <= limit -> item ∈ mem_list owner limit r -> item ∈ others (fun item => mi_owner_scope item = owner) r.
Proof. intros Hl H%pyslice_elem; [|done]. by rewrite sort_by_perm in H. Qed.

(** What a search returns. *)
Definition search_result (query_terms : gset pystr) (limit : Z) (raw : list MemoryItem) : list MemoryItem :=
  pyslice limit (filter (fun item => 0 < _overlap_score lower item query_terms)
    (sort_by (more_relevant lower query_terms) raw)).

Lemma list_memories_cases owner limit query r items :
  list_memories lower owner limit query r = Ok items ->
  let n := Z.max (Z.min limit _MAX_LIST_LIMIT) 1 in
  let raw := mem_list owner _MAX_FETCH_FOR_SEARCH r in
  items = mem_list owner n r \/ items = pyslice n raw \/ exists ts, items = search_result ts n raw.
Proof.
  unfold list_memories. intros (o & [-> _]%validate_owner_ok & H)%bind_ok.
  destruct (bool_decide (match query with Some q => strip q | None => [] end = [])); [injection H; auto|].
  destruct (bool_decide (_ = ∅)); injection H; [auto|]. intros <-. right. right. by eexists.
Qed.

Lemma listed_items owner limit query r items :
  list_memories lower owner limit query r = Ok items ->
  Z.of_nat (length items) <= _MAX_LIST_LIMIT /\
  forall item, item ∈ items -> item ∈ others (fun item => mi_owner_scope item = owner) r.
Proof.
  intros H%list_memories_cases. set (n := Z.max _ _) in H. assert (Hn : 0 <= n <= _MAX_LIST_LIMIT) by (unfold n, _MAX_LIST_LIMIT; lia).
  assert (H200 : 0 <= _MAX_FETCH_FOR_SEARCH) by (unfold _MAX_FETCH_FOR_SEARCH; lia).
  destruct H as [->|[->|[ts ->]]]; (split; [etrans; [apply pyslice_length|]; lia|]).
  - intros item. apply mem_list_items. lia.
  - intros item Hi%pyslice_elem; [|lia]. by eapply mem_list_items.
  - intros item Hi%pyslice_elem; [|lia]. apply list_elem_of_filter in Hi as [_ Hi].
    rewrite sort_by_perm in Hi. by eapply mem_list_items.
Qed.
End Calls.

(** Memory is private to its owner and always valid.  In every reachable
    store, whatever one owner calls, another owner reads and searches exactly as
    before; what an owner gets under an id is an item of that id, his own and
    valid (content not empty and at most 10,000 characters, confidence between 0
    and 1, bounded scalar metadata); and a list or search returns at most 100
    items, each of which he can also get. *)
Theorem memory_isolation lower r owner r' :
  mem_reachable lower r -> mem_call lower owner r r' ->
  (forall other, other <> owner ->
     (forall i, get_memory other i r' = get_memory other i r) /\
     (forall limit query, list_memories lower other limit query r' = list_memories lower other limit query r)) /\
  (forall who i item, get_memory who i r' = Ok item ->
     mi_id item = i /\ mi_owner_scope item = who /\ valid_item item) /\
  (forall who limit query items, list_memories lower who limit query r' = Ok items ->
     Z.of_nat (length items) <= _MAX_LIST_LIMIT /\
     Forall (fun item => get_memory who (mi_id item) r' = Ok item) items).
Proof.
  intros Hr Hc. pose proof (reachable_ok _ _ Hr) as Hok.
  pose proof (call_changes _ _ _ _ Hok Hc) as Hch. pose proof (changes_ok _ _ _ Hch Hok) as [Hn Hs].
  split; [|split].
  - intros other Ho. destruct (changes_other _ _ _ _ Hok Hch Ho) as [H1 H2]. split.
    + intros i. unfold get_memory. destruct (validate_owner_scope other) as [o|e] eqn:E; [|done].
      apply validate_owner_ok in E as [-> _]. cbn [mbind result_bind]. by rewrite H1.
    + intros limit query. by apply list_memories_others.
  - intros who i item. unfold get_memory. intros (o & [-> _]%validate_owner_ok & H)%bind_ok.
    destruct (mem_get i who r') as [x|] eqn:E; [|done]. injection H as ->.
    apply mem_get_some in E as [E <-]. destruct (Hs _ _ E). done.
  - intros who limit query items H. destruct (listed_items _ _ _ _ _ _ H) as [Hl Hi]. split; [done|].
    apply Forall_forall. intros item Hx%Hi. unfold get_memory.
    unfold list_memories in H. apply bind_ok in H as (o & Ho & _). rewrite Ho. cbn [mbind result_bind].
    apply validate_owner_ok in Ho as [-> _].
    apply list_elem_of_filter in Hx as [Hw ([k x] & -> & Hkx)%list_elem_of_fmap]. simpl in *.
    pose proof (dict_get_elem _ _ _ Hn Hkx) as Hg. destruct (Hs _ _ Hg) as [<- _].
    by rewrite (proj2 (mem_get_some (mi_id x) who r' x)).
Qed.

(** Two owners; the second deletes, the first still reads its item. *)
Definition ascii_lower (s : pystr) : pystr :=
  (fun c => if ((65 <=? c) && (c <=? 90))%N then (c + 32)%N else c) <$> s.
Definition owner_a : pystr := replicate 64 97%N.
Definition owner_b : pystr := replicate 64 98%N.
Definition demo_store : memory_items :=
  (create_memory 2 (u "m2") owner_b (u "abc of the refund policy") MemorySource.EXPLICIT MemoryKind.FACT float_one []
    (create_memory 1 (u "m1") owner_a (u " Refunds ABC ") MemorySource.EXPLICIT MemoryKind.FACT float_one
       [(u "k", JInt 1)] []).2).2.

Lemma demo_store_reachable : mem_reachable ascii_lower demo_store.
Proof.
  eapply ReachCall; [eapply ReachCall; [constructor|]|].
  - apply (CallCreate ascii_lower owner_a [] 1 (u "m1")). vm_compute. reflexivity.
  - apply (CallCreate ascii_lower owner_b _ 2 (u "m2")). vm_compute. reflexivity.
Qed.

Lemma memory_isolation_witness :
  list_memories ascii_lower owner_a 5 (Some (u "abc")) (delete_memory owner_b (u "m2") demo_store).2
    = list_memories ascii_lower owner_a 5 (Some (u "abc")) demo_store /\
  (exists item, list_memories ascii_lower owner_a 5 (Some (u "abc")) demo_store = Ok [item]).
Proof.
  split; [|eexists; vm_compute; reflexivity].
  refine (proj2 (proj1 (memory_isolation ascii_lower demo_store owner_b _ demo_store_reachable
    (CallDelete ascii_lower owner_b demo_store (u "m2"))) owner_a _) 5 (Some (u "abc"))).
  intros H. vm_compute in H. discriminate H.
Defined.

(** ** Search *)

Section Search.
Context (lower : pystr -> pystr).

Lemma more_relevant_total ts a b : more_relevant lower ts a b = true \/ more_relevant lower ts b a = true.
Proof.
  unfold more_relevant. rewrite !orb_true_iff, !andb_true_iff, !Z.ltb_lt, !Z.eqb_eq, !Z.leb_le. lia.
Qed.
Lemma more_relevant_trans ts a b c :
  more_relevant lower ts a b = true -> more_relevant lower ts b c = true -> more_relevant lower ts a c = true.
Proof.
  unfold more_relevant. rewrite !orb_true_iff, !andb_true_iff, !Z.ltb_lt, !Z.eqb_eq, !Z.leb_le. lia.
Qed.

Lemma sorted_split {A} (R : A -> A -> Prop) l1 l2 x y :
  StronglySorted R (l1 ++ l2) -> x ∈ l1 -> y ∈ l2 -> R x y.
Proof.
  induction l1 as [|a l1 IH]; [by intros _ ?%elem_of_nil|]. simpl. intros H Hx Hy. inversion_clear H as [|? ? Hs Ha].
  apply elem_of_cons in Hx as [->|Hx]; [|by apply IH]. rewrite Forall_forall in Ha. apply Ha, elem_of_app. by right.
Qed.

Lemma sorted_app_l {A} (R : A -> A -> Prop) l1 l2 : StronglySorted R (l1 ++ l2) -> StronglySorted R l1.
Proof.
  induction l1 as [|a l1 IH]; [constructor|]. simpl. intros H. inversion_clear H as [|? ? Hs Ha].
  constructor; [by apply IH|]. by apply Forall_app in Ha as [? _].
Qed.

(** A search for a text with terms returns matches only, at most [limit]
    (clamped to 1..100) of them, the most relevant first (more shared terms, then
    more recent); an item among the owner's 200 most recent that matches but is
    not returned was crowded out: the answer is full and everything in it is at
    least as relevant. *)
Theorem search_most_relevant owner limit query r items :
  list_memories lower owner limit (Some query) r = Ok items ->
  strip query <> [] -> _text_terms lower (strip query) <> ∅ ->
  let ts := _text_terms lower (strip query) in
  let n := Z.max (Z.min limit 100) 1 in
  Forall (fun item => 0 < _overlap_score lower item ts /\ mi_owner_scope item = owner) items /\
  StronglySorted (fun a b => more_relevant lower ts a b = true) items /\
  Z.of_nat (length items) <= n /\
  (forall item, item ∈ mem_list owner 200 r -> 0 < _overlap_score lower item ts -> item ∉ items ->
     Z.of_nat (length items) = n /\ Forall (fun other => more_relevant lower ts other item = true) items).
Proof.
  intros H Hq Ht. unfold list_memories in H. apply bind_ok in H as (o & [-> _]%validate_owner_ok & H).
  rewrite (bool_decide_false _ Hq), (bool_decide_false _ Ht) in H. injection H as <-. cbv zeta.
  set (ts := _text_terms lower (strip query)). set (raw := mem_list owner 200 r).
  change (mem_list owner _MAX_FETCH_FOR_SEARCH r) with raw. change _MAX_LIST_LIMIT with 100.
  set (n := Z.max (Z.min limit 100) 1). assert (Hn : 0 <= n) by lia. rewrite (pyslice_take n) by done.
  set (matching := filter (fun item => 0 < _overlap_score lower item ts) (sort_by (more_relevant lower ts) raw)).
  assert (Hm : forall x, x ∈ matching <-> 0 < _overlap_score lower x ts /\ x ∈ raw).
  { intros x. unfold matching. by rewrite list_elem_of_filter, sort_by_perm. }
  assert (Hs : StronglySorted (fun a b => more_relevant lower ts a b = true) matching).
  { apply sorted_filter, sort_by_sorted; [apply more_relevant_total|apply more_relevant_trans]. }
  pose proof (take_drop (Z.to_nat n) matching) as Htd. rewrite <- Htd in Hs.
  split; [|split; [by eapply sorted_app_l|split; [rewrite length_take; lia|]]].
  - apply Forall_forall. intros x Hx. assert (Hxm : x ∈ matching) by (rewrite <- Htd; apply elem_of_app; by left).
    apply Hm in Hxm as [Hp Hr]. split; [done|]. unfold raw in Hr. apply mem_list_items in Hr; [|done].
    by apply list_elem_of_filter in Hr as [? _].
  - intros x Hx Hp Hno. assert (Hxm : x ∈ matching) by (by apply Hm).
    rewrite <- Htd in Hxm. apply elem_of_app in Hxm as [?|Hxd]; [done|]. split.
    + rewrite length_take. assert (Hlen : (0 < length (drop (Z.to_nat n) matching))%nat)
        by (destruct (drop _ _); [by apply elem_of_nil in Hxd|simpl; lia]).
      rewrite length_drop in Hlen. lia.
    + apply Forall_forall. intros y Hy. exact (sorted_split _ _ _ _ _ Hs Hy Hxd).
Qed.
End Search.

Lemma search_most_relevant_witness :
  exists items, list_memories ascii_lower owner_b 5 (Some (u "refund ABC")) demo_store = Ok items /\
    length items = 1%nat /\ Forall (fun item => mi_owner_scope item = owner_b) items.
Proof.
  eexists. split; [vm_compute; reflexivity|]. split; [reflexivity|].
  refine (Forall_impl _ _ _ (proj1 (search_most_relevant ascii_lower owner_b 5 (u "refund ABC") demo_store _ _ _ _))
    (fun x H => proj2 H)).
  - vm_compute. reflexivity.
  - intros H. vm_compute in H. discriminate H.
  - intros H. vm_compute in H. discriminate H.
Defined.

(** The items returned are not cut: their contents exceed [context_max_chars]. *)
Lemma retrieve_exceeds_budget :
  let cfg := MemoryService_init 5 100 in
  let r := (create_memory 1 (u "m1") owner_a (u "abc " ++ replicate 300 97%N) MemorySource.EXPLICIT MemoryKind.FACT
              float_one [] []).2 in
  exists item r', retrieve_for_agent ascii_lower cfg (fun _ => 2) owner_a (u "abc") None None r = (Ok [item], r') /\
    _context_max_chars cfg < slen (mi_content item).
Proof. cbv zeta. do 2 eexists. split; [vm_compute; reflexivity|]. vm_compute. reflexivity. Qed.
