(* ===== verification/Prompts.v ===== *)
(** * Prompt registry: [app/prompts/]

    Versioned prompt templates of a workspace or of everybody (no workspace),
    the in-memory repository (a list in order of creation), and the service:
    seeds, new versions, activation, rendering and pinned references
    [name@version].  Audit events go to [AuditLog]; clocks are arguments. *)

From S2P Require Import Prelude Json AuditLog RagText.
Local Open Scope Z_scope.

Record PromptRecord := mkPrompt {
  pr_id : Z;
  pr_workspace_id : option pystr;
  pr_name : pystr;
  pr_version : Z;
  pr_content : pystr;
  pr_variables : list (list (pystr * json));
  pr_is_active : bool;
  pr_created_by : option pystr;
  pr_created_at : option Z
}.

Record PromptVersionSummary := mkPromptSummary {
  ps_name : pystr;
  ps_version : Z;
  ps_is_active : bool;
  ps_created_at : option Z
}.

(** ** [InMemoryPromptRepository] *)

Record InMemoryPromptRepository := mkPromptRepo { pr_records : list PromptRecord; _next_id : Z }.
Definition prompt_repo_init : InMemoryPromptRepository := mkPromptRepo [] 0.

Definition of_template (ws : option pystr) (name : pystr) (p : PromptRecord) : Prop :=
  pr_workspace_id p = ws /\ pr_name p = name.
#[global] Instance of_template_dec ws name p : Decision (of_template ws name p).
Proof. unfold of_template. apply _. Defined.

Definition repo_create_version (p : PromptRecord) (r : InMemoryPromptRepository)
  : PromptRecord * InMemoryPromptRepository :=
  let i := _next_id r + 1 in
  let saved := mkPrompt i (pr_workspace_id p) (pr_name p) (pr_version p) (pr_content p) (pr_variables p)
                 (pr_is_active p) (pr_created_by p) (pr_created_at p) in
  (saved, mkPromptRepo (pr_records r ++ [saved]) i).

Definition find_active (ws : option pystr) (name : pystr) (r : InMemoryPromptRepository) : option PromptRecord :=
  head (filter (fun p => of_template ws name p /\ pr_is_active p = true) (pr_records r)).

Definition find_by_name_and_version (ws : option pystr) (name : pystr) (version : Z)
    (r : InMemoryPromptRepository) : option PromptRecord :=
  head (filter (fun p => of_template ws name p /\ pr_version p = version) (pr_records r)).

Definition repo_list_versions (ws : option pystr) (name : pystr) (r : InMemoryPromptRepository)
  : list PromptRecord := filter (of_template ws name) (pr_records r).

Definition visible_to (ws : option pystr) (p : PromptRecord) : bool :=
  bool_decide (pr_workspace_id p = ws) || (bool_decide (is_Some ws) && bool_decide (pr_workspace_id p = None)).

Definition repo_list_names (ws : option pystr) (r : InMemoryPromptRepository) : list pystr :=
  sort_by str_leb (remove_dups (pr_name <$> filter (fun p => visible_to ws p = true) (pr_records r))).

Definition with_active (b : bool) (p : PromptRecord) : PromptRecord :=
  mkPrompt (pr_id p) (pr_workspace_id p) (pr_name p) (pr_version p) (pr_content p) (pr_variables p) b
    (pr_created_by p) (pr_created_at p).

(** The first record of the version is made active, after all of the template
    were made inactive. *)
Fixpoint activate_first (ws : option pystr) (name : pystr) (version : Z) (l : list PromptRecord)
  : list PromptRecord :=
  match l with
  | [] => []
  | p :: l =>
      if decide (of_template ws name p /\ pr_version p = version) then with_active true p :: l
      else p :: activate_first ws name version l
  end.
Definition deactivate (ws : option pystr) (name : pystr) (p : PromptRecord) : PromptRecord :=
  if decide (of_template ws name p) then with_active false p else p.

Definition set_active (ws : option pystr) (name : pystr) (version : Z) (r : InMemoryPromptRepository)
  : bool * InMemoryPromptRepository :=
  match find_by_name_and_version ws name version r with
  | None => (false, r)
  | Some _ =>
      (true, mkPromptRepo (activate_first ws name version (deactivate ws name <$> pr_records r)) (_next_id r))
  end.

Definition add_candidate (ws : option pystr) (by_name : list (pystr * PromptRecord)) (p : PromptRecord)
  : list (pystr * PromptRecord) :=
  match dict_get (pr_name p) by_name with
  | None => dict_set (pr_name p) p by_name
  | Some _ => if decide (pr_workspace_id p = ws) then dict_set (pr_name p) p by_name else by_name
  end.
Definition repo_list_active_templates (ws : option pystr) (r : InMemoryPromptRepository) : list PromptRecord :=
  (foldl (add_candidate ws) []
     (filter (fun p => pr_is_active p = true /\ (pr_workspace_id p = ws \/ pr_workspace_id p = None))
        (pr_records r))).*2.

Definition repo_seed (p : PromptRecord) (r : InMemoryPromptRepository) : PromptRecord * InMemoryPromptRepository :=
  match find_by_name_and_version (pr_workspace_id p) (pr_name p) (pr_version p) r with
  | Some existing => (existing, r)
  | None => repo_create_version p r
  end.

(** ** References *)

(** The zeros of the decimal digits of Unicode: each is followed by the digits
    one to nine.  [\d], and [int] of such digits *)
Definition DIGIT_ZEROS : list N :=
  [48; 1632; 1776; 1984; 2406; 2534; 2662; 2790; 2918; 3046; 3174; 3302; 3430; 3558; 3664; 3792; 3872; 4160;
   4240; 6112; 6160; 6470; 6608; 6784; 6800; 6992; 7088; 7232; 7248; 42528; 43216; 43264; 43472; 43504; 43600;
   44016; 65296; 66720; 68912; 69734; 69872; 69942; 70096; 70384; 70736; 70864; 71248; 71360; 71472; 71904;
   72016; 72784; 73040; 73120; 92768; 92864; 93008; 120782; 120792; 120802; 120812; 120822; 123200; 123632;
   125264; 130032]%N.
Definition digit_value (c : N) : option Z :=
  (fun z => Z.of_N (c - z)) <$> head (filter (fun z => ((z <=? c) && (c <? z + 10))%N = true) DIGIT_ZEROS).

Definition int_of_digits (s : pystr) : option Z :=
  match s with
  | [] => None
  | _ => foldl (fun acc c => n ← acc; d ← digit_value c; Some (10 * n + d)) (Some 0) s
  end.

(** The text before and after the last at sign *)
Fixpoint split_last (sep : N) (s : pystr) : option (pystr * pystr) :=
  match s with
  | [] => None
  | c :: s' =>
      match split_last sep s' with
      | Some (a, b) => Some (c :: a, b)
      | None => if (c =? sep)%N then Some ([], s') else None
      end
  end.

(** [_PROMPT_REF_PIN_RE.match]: the digits follow the last at sign; what precedes
    it is not empty and has no line break; [$] also matches before a final line
    break. *)
Definition split_prompt_ref (prompt_ref : pystr) : pystr * option Z :=
  match split_last 64 prompt_ref with
  | Some (name, digits) =>
      let digits := if decide (last digits = Some 10%N) then take (length digits - 1) digits else digits in
      match int_of_digits digits with
      | Some version =>
          if bool_decide (name = []) || existsb (N.eqb 10) name then (prompt_ref, None) else (name, Some version)
      | None => (prompt_ref, None)
      end
  | None => (prompt_ref, None)
  end.

(** ** [PromptRegistryService] *)

Record PromptRegistry := mkPromptRegistry {
  prg_repo : InMemoryPromptRepository;
  prg_audit : option InMemoryAuditRepository
}.

Definition seed (name content : pystr) (variables : list (list (pystr * json))) (ws : option pystr)
    (g : PromptRegistry) : PromptRecord * PromptRegistry :=
  let '(p, r) := repo_seed (mkPrompt 0 ws name 1 content variables true None None) (prg_repo g) in
  (p, mkPromptRegistry r (prg_audit g)).

(** The template of the workspace, or the global one *)
Definition resolved {A} (find : option pystr -> option A) (ws : option pystr) : option A :=
  match find ws with
  | Some a => Some a
  | None => match ws with Some _ => find None | None => None end
  end.

Definition replace_all (old new : pystr) (s : pystr) : pystr :=
  gsub [literal old new] s.

Definition fill (content : pystr) (variables : list (pystr * pystr)) : pystr :=
  foldl (fun content kv => replace_all (u "{" ++ kv.1 ++ u "}") kv.2 content) content variables.

Definition render (name : pystr) (variables : list (pystr * pystr)) (fallback : pystr) (ws : option pystr)
    (g : PromptRegistry) : pystr :=
  match resolved (fun w => find_active w name (prg_repo g)) ws with
  | None => fallback
  | Some template => fill (pr_content template) variables
  end.

Definition render_version (name : pystr) (version : Z) (variables : list (pystr * pystr)) (fallback : pystr)
    (ws : option pystr) (g : PromptRegistry) : pystr :=
  match resolved (fun w => find_by_name_and_version w name version (prg_repo g)) ws with
  | None => fallback
  | Some template => fill (pr_content template) variables
  end.

Definition resolve_version (name : pystr) (ws : option pystr) (g : PromptRegistry) : option Z :=
  pr_version <$> resolved (fun w => find_active w name (prg_repo g)) ws.

Definition next_version (versions : list PromptRecord) : Z :=
  match pr_version <$> versions with
  | [] => 1
  | v :: vs => foldl Z.max v vs + 1
  end.

Definition create_version (now : Z) (name content : pystr) (variables : list (list (pystr * json)))
    (ws created_by : option pystr) (actor : option AuditActor) (g : PromptRegistry)
  : PromptRecord * PromptRegistry :=
  let version := next_version (repo_list_versions ws name (prg_repo g)) in
  let '(saved, r) := repo_create_version
    (mkPrompt 0 ws name version content variables false created_by (Some now)) (prg_repo g) in
  (saved, mkPromptRegistry r
     (if_audited actor (fun a => record now (u "prompt.create_version") (u "prompt")
        (name ++ u "@" ++ str_of_Z version) (Some a) None
        (Some [(u "name", JStr name); (u "version", JInt version)])) (prg_audit g))).

Definition activate (now : Z) (name : pystr) (version : Z) (ws : option pystr) (actor : option AuditActor)
    (g : PromptRegistry) : bool * PromptRegistry :=
  let previous := resolve_version name ws g in
  let '(activated, r) := set_active ws name version (prg_repo g) in
  (activated, mkPromptRegistry r
     (if activated
      then if_audited actor (fun a => record now (u "prompt.activate") (u "prompt")
             (name ++ u "@" ++ str_of_Z version) (Some a)
             (Some [(u "name", JStr name);
                    (u "version", match previous with Some v => JInt v | None => JNull end)])
             (Some [(u "name", JStr name); (u "version", JInt version)])) (prg_audit g)
      else prg_audit g)).

Definition summary_of (p : PromptRecord) : PromptVersionSummary :=
  mkPromptSummary (pr_name p) (pr_version p) (pr_is_active p) (pr_created_at p).

Definition list_versions (name : pystr) (ws : option pystr) (g : PromptRegistry) : list PromptVersionSummary :=
  summary_of <$>
    match repo_list_versions ws name (prg_repo g), ws with
    | [], Some _ => repo_list_versions None name (prg_repo g)
    | records, _ => records
    end.

Definition list_names (ws : option pystr) (g : PromptRegistry) : list pystr := repo_list_names ws (prg_repo g).
Definition list_active_templates (ws : option pystr) (g : PromptRegistry) : list PromptRecord :=
  repo_list_active_templates ws (prg_repo g).

(** * Theorems

    Versions are numbered without gaps and never change; at most one version of
    a template is active, the one activated last. *)

(** ** The invariant *)

Definition versions_of (ws : option pystr) (name : pystr) (l : list PromptRecord) : list Z :=
  pr_version <$> filter (of_template ws name) l.
Definition actives_of (ws : option pystr) (name : pystr) (l : list PromptRecord) : list PromptRecord :=
  filter (fun p => pr_is_active p = true) (filter (of_template ws name) l).

Record template_ok (ws : option pystr) (name : pystr) (l : list PromptRecord) : Prop := {
  tk_versions : versions_of ws name l = Z.of_nat <$> seq 1 (length (versions_of ws name l));
  tk_active : (length (actives_of ws name l) <= 1)%nat
}.
Definition registry_ok (g : PromptRegistry) : Prop := forall ws name, template_ok ws name (pr_records (prg_repo g)).

Lemma foldl_max_seq a n : foldl Z.max (Z.of_nat a) (Z.of_nat <$> seq (S a) n) = Z.of_nat (a + n).
Proof.
  revert a. induction n as [|n IH]; intros a; simpl; [by rewrite Nat.add_0_r|].
  rewrite Z.max_r by lia. rewrite IH. lia.
Qed.

Lemma next_version_ok ws name l :
  template_ok ws name l -> next_version (filter (of_template ws name) l) = Z.of_nat (S (length (versions_of ws name l))).
Proof.
  intros [Hv _]. unfold next_version. fold (versions_of ws name l). rewrite Hv at 1.
  destruct (length (versions_of ws name l)) as [|n]; [done|]. cbn [seq fmap list_fmap].
  change 1%nat with (Z.to_nat 1). rewrite (foldl_max_seq 1). lia.
Qed.

Lemma filter_snoc_template ws name l p :
  filter (of_template ws name) (l ++ [p])
  = filter (of_template ws name) l ++ (if decide (of_template ws name p) then [p] else []).
Proof. rewrite filter_app, filter_cons, filter_nil. done. Qed.

(** A new record whose version is the next one. *)
Lemma snoc_ok ws name l p :
  template_ok ws name l ->
  (of_template ws name p -> pr_version p = Z.of_nat (S (length (versions_of ws name l))) /\
     (pr_is_active p = true -> actives_of ws name l = [])) ->
  template_ok ws name (l ++ [p]).
Proof.
  intros [Hv Ha] Hp. split; unfold versions_of, actives_of in *; rewrite filter_snoc_template.
  - rewrite fmap_app, length_app. destruct (decide (of_template ws name p)) as [E|_]; cbn [fmap list_fmap length].
    + destruct (Hp E) as [-> _]. rewrite Nat.add_1_r, seq_S, fmap_app, <- Hv. done.
    + by rewrite app_nil_r, Nat.add_0_r.
  - rewrite filter_app, length_app. destruct (decide (of_template ws name p)) as [E|_]; [|simpl; lia].
    rewrite filter_cons, filter_nil. destruct (decide (pr_is_active p = true)) as [Hact|]; [|simpl; lia].
    destruct (Hp E) as [_ Hnil]. rewrite Hnil by done. simpl. lia.
Qed.

(** ** Activation *)

(** What activation does to a record, when versions are distinct *)
Definition set_to (ws : option pystr) (name : pystr) (version : Z) (p : PromptRecord) : PromptRecord :=
  if decide (of_template ws name p) then with_active (bool_decide (pr_version p = version)) p else p.

Lemma set_to_template ws name v ws' name' p : of_template ws' name' (set_to ws name v p) <-> of_template ws' name' p.
Proof. unfold set_to. by case_decide. Qed.
Lemma set_to_version ws name v p : pr_version (set_to ws name v p) = pr_version p.
Proof. unfold set_to. by case_decide. Qed.
Lemma set_to_content ws name v p : pr_content (set_to ws name v p) = pr_content p.
Proof. unfold set_to. by case_decide. Qed.

Lemma no_version_set ws name v l :
  v ∉ versions_of ws name l -> deactivate ws name <$> l = set_to ws name v <$> l.
Proof.
  unfold versions_of. induction l as [|p l IH]; [done|]. rewrite filter_cons, !fmap_cons. unfold deactivate at 1, set_to at 1.
  destruct (decide (of_template ws name p)) as [E|E]; intros Hv.
  - rewrite fmap_cons, not_elem_of_cons in Hv. destruct Hv as [Hne Hv]. rewrite bool_decide_false by done.
    by rewrite IH.
  - by rewrite IH.
Qed.

Lemma activate_set ws name v l :
  NoDup (versions_of ws name l) ->
  activate_first ws name v (deactivate ws name <$> l)
  = if decide (v ∈ versions_of ws name l) then set_to ws name v <$> l else deactivate ws name <$> l.
Proof.
  unfold versions_of. induction l as [|p l IH]; intros Hn; [by case_decide|].
  rewrite fmap_cons. cbn [activate_first]. rewrite filter_cons in *.
  destruct (decide (of_template ws name p)) as [E|E].
  - rewrite fmap_cons in Hn. apply NoDup_cons in Hn as [Hp Hn]. specialize (IH Hn).
    assert (Ed : deactivate ws name p = with_active false p) by (unfold deactivate; by rewrite decide_True).
    assert (Es : set_to ws name v p = with_active (bool_decide (pr_version p = v)) p)
      by (unfold set_to; by rewrite decide_True).
    rewrite Ed. destruct (decide (pr_version p = v)) as [<-|Hv].
    + rewrite decide_True by done. rewrite decide_True by left.
      rewrite fmap_cons, Es, bool_decide_true by done. f_equal. by apply no_version_set.
    + rewrite decide_False by (by intros [_ ?]). rewrite IH.
      destruct (decide (v ∈ pr_version <$> filter (of_template ws name) l)) as [Hin|Hin].
      * rewrite decide_True by (by right). by rewrite fmap_cons, Es, bool_decide_false.
      * rewrite decide_False; [done|]. intros [Hx|Hx]%elem_of_cons; [by symmetry in Hx|by apply Hin].
  - assert (Ed : deactivate ws name p = p) by (unfold deactivate; by rewrite decide_False).
    assert (Es : set_to ws name v p = p) by (unfold set_to; by rewrite decide_False).
    rewrite Ed, decide_False by (by intros [? _]). rewrite (IH Hn). case_decide; [by rewrite fmap_cons, Es|done].
Qed.

Lemma filter_stable {A} (P : A -> Prop) `{forall x, Decision (P x)} (f : A -> A) (l : list A) :
  (forall x, P (f x) <-> P x) -> filter P (f <$> l) = f <$> filter P l.
Proof.
  intros Hf. induction l as [|x l IH]; [done|]. rewrite fmap_cons, !filter_cons.
  destruct (decide (P x)) as [E|E].
  - rewrite decide_True by (by apply Hf). by rewrite IH.
  - rewrite decide_False by (by rewrite Hf). done.
Qed.

Lemma find_version_elem ws name v r :
  is_Some (find_by_name_and_version ws name v r) <-> v ∈ versions_of ws name (pr_records r).
Proof.
  unfold find_by_name_and_version, versions_of. rewrite list_elem_of_fmap. split.
  - intros [p Hp]. exists p. apply head_Some_elem_of in Hp. apply list_elem_of_filter in Hp as [[Ht <-] Hp].
    split; [done|]. by apply list_elem_of_filter.
  - intros (p & -> & [Ht Hp]%list_elem_of_filter).
    destruct (filter (fun q => of_template ws name q /\ pr_version q = pr_version p) (pr_records r)) as [|q l] eqn:E; [|by eexists].
    assert (Hin : p ∈ filter (fun q => of_template ws name q /\ pr_version q = pr_version p) (pr_records r))
      by (by apply list_elem_of_filter).
    rewrite E in Hin. by apply elem_of_nil in Hin.
Qed.

Lemma versions_NoDup ws name l : template_ok ws name l -> NoDup (versions_of ws name l).
Proof. intros [-> _]. apply NoDup_fmap; [by intros ? ? ?%Nat2Z.inj|apply NoDup_seq]. Qed.

(** Other templates are left alone. *)
Lemma others_same ws name v ws' name' l :
  ~ (ws' = ws /\ name' = name) -> actives_of ws' name' (set_to ws name v <$> l) = actives_of ws' name' l.
Proof.
  intros Hne. unfold actives_of. rewrite filter_stable by (apply set_to_template).
  rewrite (list_fmap_ext _ id); [by rewrite list_fmap_id|]. intros i p Hp%list_elem_of_lookup_2.
  apply list_elem_of_filter in Hp as [[<- <-] _]. unfold set_to. rewrite decide_False; [done|].
  intros [? ?]. apply Hne. by split.
Qed.

Lemma none_left {A} (P : A -> Prop) `{forall x, Decision (P x)} (l : list A) :
  (forall x, x ∈ l -> ~ P x) -> filter P l = [].
Proof.
  induction l as [|x l IH]; [done|]. intros Hl. rewrite filter_cons, decide_False by (apply Hl; left).
  apply IH. intros y Hy. apply Hl. by right.
Qed.

(** The records after [set_active] *)
Lemma set_active_records ws name v r :
  template_ok ws name (pr_records r) ->
  set_active ws name v r
  = if decide (v ∈ versions_of ws name (pr_records r))
    then (true, mkPromptRepo (set_to ws name v <$> pr_records r) (_next_id r)) else (false, r).
Proof.
  intros Hok. unfold set_active. pose proof (find_version_elem ws name v r) as Hf.
  destruct (find_by_name_and_version ws name v r) as [p|].
  - rewrite decide_True by (apply Hf; eauto). rewrite activate_set by (by apply versions_NoDup).
    by rewrite decide_True by (apply Hf; eauto).
  - rewrite decide_False; [done|]. intros Hv. by apply Hf in Hv as [? ?].
Qed.

Lemma single_version v l :
  NoDup (pr_version <$> l) -> v ∈ pr_version <$> l -> exists p, filter (fun p => pr_version p = v) l = [p].
Proof.
  induction l as [|p l IH]; [by intros _ ?%elem_of_nil|]. rewrite fmap_cons. intros [Hp Hn]%NoDup_cons Hv.
  rewrite filter_cons. destruct (decide (pr_version p = v)) as [E|E].
  - exists p. f_equal. apply none_left. intros q Hq. intros Hqv. apply Hp, list_elem_of_fmap. exists q. by rewrite Hqv.
  - apply IH; [done|]. apply elem_of_cons in Hv as [?|?]; congruence.
Qed.

Lemma actives_set ws name v l :
  Forall (of_template ws name) l ->
  filter (fun p => pr_is_active p = true) (set_to ws name v <$> l)
  = with_active true <$> filter (fun p => pr_version p = v) l.
Proof.
  induction 1 as [|p l Ht _ IH]; [done|]. rewrite fmap_cons, !filter_cons, IH.
  assert (Es : set_to ws name v p = with_active (bool_decide (pr_version p = v)) p)
    by (unfold set_to; by rewrite decide_True).
  rewrite Es. cbn [with_active pr_is_active].
  destruct (decide (pr_version p = v)) as [E|E].
  - by rewrite bool_decide_true, decide_True.
  - by rewrite bool_decide_false, decide_False.
Qed.

(** The one record of a version, and the active record after its activation *)
Lemma activated_record ws name v r :
  template_ok ws name (pr_records r) -> v ∈ versions_of ws name (pr_records r) ->
  exists p, find_by_name_and_version ws name v r = Some p /\
    actives_of ws name (set_to ws name v <$> pr_records r) = [with_active true p] /\ pr_version p = v.
Proof.
  intros Hok Hv. destruct (single_version v (filter (of_template ws name) (pr_records r))) as [p Hp];
    [by apply versions_NoDup|done|]. exists p.
  assert (Hall : Forall (of_template ws name) (filter (of_template ws name) (pr_records r)))
    by (apply Forall_forall; by intros q [? _]%list_elem_of_filter).
  split; [|split].
  - unfold find_by_name_and_version. rewrite list_filter_filter in Hp.
    rewrite (list_filter_iff _ (fun q => pr_version q = v /\ of_template ws name q)) by tauto. by rewrite Hp.
  - unfold actives_of. rewrite filter_stable by (apply set_to_template). by rewrite actives_set, Hp.
  - assert (Hin : p ∈ filter (fun p => pr_version p = v) (filter (of_template ws name) (pr_records r)))
      by (rewrite Hp; left). by apply list_elem_of_filter in Hin as [? _].
Qed.

Lemma find_active_actives ws name r : find_active ws name r = head (actives_of ws name (pr_records r)).
Proof.
  unfold find_active, actives_of. rewrite list_filter_filter. f_equal. apply list_filter_iff. tauto.
Qed.

Lemma set_active_ok ws name v r :
  (forall ws name, template_ok ws name (pr_records r)) ->
  forall ws' name', template_ok ws' name' (pr_records (set_active ws name v r).2).
Proof.
  intros Hok ws' name'. rewrite set_active_records by done. case_decide as Hv; [|apply Hok]. cbn [snd pr_records].
  destruct (Hok ws' name') as [H1 H2]. split.
  - unfold versions_of in *. rewrite filter_stable by (apply set_to_template). rewrite <- list_fmap_compose.
    by rewrite (list_fmap_ext _ pr_version) by (intros; apply set_to_version).
  - destruct (decide (ws' = ws /\ name' = name)) as [[-> ->]|Hne].
    + destruct (activated_record ws name v r) as (p & _ & -> & _); [apply Hok|done|]. simpl. lia.
    + rewrite (others_same ws name) by done. done.
Qed.

(** ** The calls *)

Inductive prompt_step (g : PromptRegistry) : PromptRegistry -> Prop :=
| StepSeed name content variables ws : prompt_step g (seed name content variables ws g).2
| StepCreate now name content variables ws created_by actor :
    prompt_step g (create_version now name content variables ws created_by actor g).2
| StepActivate now name v ws actor : prompt_step g (activate now name v ws actor g).2.

Inductive prompt_reachable (audit : option InMemoryAuditRepository) : PromptRegistry -> Prop :=
| PromptInit : prompt_reachable audit (mkPromptRegistry prompt_repo_init audit)
| PromptCall g g' : prompt_reachable audit g -> prompt_step g g' -> prompt_reachable audit g'.

Lemma no_first_version ws name r :
  template_ok ws name (pr_records r) -> find_by_name_and_version ws name 1 r = None ->
  versions_of ws name (pr_records r) = [].
Proof.
  intros [Hv _] Hf. destruct (length (versions_of ws name (pr_records r))) as [|n] eqn:El;
    [by destruct (versions_of ws name (pr_records r))|].
  assert (is_Some (find_by_name_and_version ws name 1 r)) as [? ?]; [|congruence].
  apply find_version_elem. rewrite Hv, list_elem_of_fmap. exists 1%nat. split; [done|]. apply elem_of_seq. lia.
Qed.

Lemma no_versions ws name l : versions_of ws name l = [] -> filter (of_template ws name) l = [].
Proof. unfold versions_of. apply fmap_nil_inv. Qed.

Lemma seed_records name content variables ws g :
  registry_ok g ->
  prg_repo (seed name content variables ws g).2 = prg_repo g \/
  versions_of ws name (pr_records (prg_repo g)) = [] /\ exists p,
    pr_records (prg_repo (seed name content variables ws g).2) = pr_records (prg_repo g) ++ [p] /\
    of_template ws name p /\ pr_version p = 1 /\ pr_is_active p = true.
Proof.
  intros Hok. unfold seed, repo_seed. cbn [pr_workspace_id pr_name pr_version].
  destruct (find_by_name_and_version ws name 1 (prg_repo g)) eqn:Hf; [by left|]. right.
  split; [by apply no_first_version|]. eexists. by split_and!.
Qed.

Lemma create_records now name content variables ws created_by actor g :
  let g' := (create_version now name content variables ws created_by actor g).2 in
  exists p, pr_records (prg_repo g') = pr_records (prg_repo g) ++ [p] /\ of_template ws name p /\
    pr_version p = next_version (repo_list_versions ws name (prg_repo g)) /\ pr_is_active p = false.
Proof. eexists. by split_and!. Qed.

Lemma step_ok g g' : registry_ok g -> prompt_step g g' -> registry_ok g'.
Proof.
  intros Hok H ws' name'. destruct H as [name content vars ws|now name content vars ws by_ actor|now name v ws actor].
  - destruct (seed_records name content vars ws g Hok) as [->|(Hno & p & -> & Ht & Hv & _)]; [apply Hok|].
    apply snoc_ok; [apply Hok|]. intros [H1 H2]. destruct Ht as [H3 H4].
    assert (ws' = ws) as -> by congruence. assert (name' = name) as -> by congruence.
    rewrite Hno. split; [done|]. intros _. unfold actives_of. by rewrite (no_versions _ _ _ Hno).
  - destruct (create_records now name content vars ws by_ actor g) as (p & -> & Ht & Hv & Ha).
    apply snoc_ok; [apply Hok|]. intros [H1 H2]. destruct Ht as [H3 H4].
    assert (ws' = ws) as -> by congruence. assert (name' = name) as -> by congruence.
    split; [rewrite Hv; apply next_version_ok, Hok|congruence].
  - unfold activate. pose proof (set_active_ok ws name v (prg_repo g) Hok ws' name') as H.
    by destruct (set_active ws name v (prg_repo g)).
Qed.

Lemma prompt_reachable_ok audit g : prompt_reachable audit g -> registry_ok g.
Proof.
  induction 1 as [|g g' _ IH Hs]; [|by eapply step_ok]. intros ws name. split; [done|]. simpl. lia.
Qed.

(** A version stays what it is. *)
Lemma find_snoc ws name v r p n q :
  find_by_name_and_version ws name v r = Some p ->
  find_by_name_and_version ws name v (mkPromptRepo (pr_records r ++ [q]) n) = Some p.
Proof.
  unfold find_by_name_and_version. cbn [pr_records]. rewrite filter_app. by destruct (filter _ (pr_records r)).
Qed.

Lemma find_set ws name v ws' name' v' r n :
  find_by_name_and_version ws name v (mkPromptRepo (set_to ws' name' v' <$> pr_records r) n)
  = set_to ws' name' v' <$> find_by_name_and_version ws name v r.
Proof.
  unfold find_by_name_and_version. cbn [pr_records]. rewrite filter_stable; [by destruct (filter _ (pr_records r))|].
  intros x. by rewrite set_to_template, set_to_version.
Qed.

Lemma step_keeps_version g g' ws name v p :
  registry_ok g -> prompt_step g g' -> find_by_name_and_version ws name v (prg_repo g) = Some p ->
  exists p', find_by_name_and_version ws name v (prg_repo g') = Some p' /\ pr_content p' = pr_content p.
Proof.
  intros Hok H Hp. destruct H as [name' content vars ws'|now name' content vars ws' by_ actor|now name' v' ws' actor].
  - unfold seed, repo_seed. cbn [pr_workspace_id pr_name pr_version].
    destruct (find_by_name_and_version ws' name' 1 (prg_repo g)); [exists p; split; [exact Hp|done]|].
    exists p. split; [by apply find_snoc|done].
  - exists p. split; [|done]. by apply (find_snoc ws name v (prg_repo g)).
  - unfold activate. rewrite (surjective_pairing (set_active ws' name' v' (prg_repo g))), set_active_records by done.
    case_decide; cbn [fst snd prg_repo]; [|by exists p]. rewrite find_set, Hp. eexists. split; [reflexivity|].
    apply set_to_content.
Qed.

(** The registry of prompts.  In every reachable registry the versions of a
    template are numbered 1, 2, ..., n in order of creation and at most one is
    active; and whatever is called next, an existing version keeps its content,
    so that a pinned reference of the scope renders the same text. *)
Theorem prompt_versions_stable audit g g' :
  prompt_reachable audit g -> prompt_step g g' ->
  (forall ws name, let versions := repo_list_versions ws name (prg_repo g') in
     pr_version <$> versions = Z.of_nat <$> seq 1 (length versions) /\
     (length (filter (fun p => pr_is_active p = true) versions) <= 1)%nat) /\
  (forall ws name v p variables fallback,
     find_by_name_and_version ws name v (prg_repo g) = Some p ->
     render_version name v variables fallback ws g = fill (pr_content p) variables /\
     render_version name v variables fallback ws g' = fill (pr_content p) variables).
Proof.
  intros Hr Hs. pose proof (prompt_reachable_ok _ _ Hr) as Hok. pose proof (step_ok _ _ Hok Hs) as Hok'. split.
  - intros ws name. destruct (Hok' ws name) as [H1 H2]. unfold versions_of in H1. rewrite length_fmap in H1.
    by split.
  - intros ws name v p variables fallback Hp. destruct (step_keeps_version _ _ _ _ _ _ Hok Hs Hp) as (p' & Hp' & Hc).
    unfold render_version, resolved. rewrite Hp, Hp'. by rewrite Hc.
Qed.

(** Activation.  [activate] succeeds exactly for an existing version; then the
    template of the scope renders, and resolves to, that version, which is also
    how a rollback works; it stays so when versions are created or templates
    seeded, and other templates of any scope keep their active version. *)
Theorem activation_selects audit g now ws name v actor :
  prompt_reachable audit g ->
  let res := activate now name v ws actor g in
  (res.1 = true <-> is_Some (find_by_name_and_version ws name v (prg_repo g))) /\
  (forall p variables fallback g', find_by_name_and_version ws name v (prg_repo g) = Some p ->
     (g' = res.2 \/
      (exists name' content vars ws', g' = (seed name' content vars ws' res.2).2) \/
      (exists now' name' content vars ws' by_ actor',
         g' = (create_version now' name' content vars ws' by_ actor' res.2).2)) ->
     resolve_version name ws g' = Some v /\ render name variables fallback ws g' = fill (pr_content p) variables) /\
  (forall ws' name', ~ (ws' = ws /\ name' = name) ->
     find_active ws' name' (prg_repo res.2) = find_active ws' name' (prg_repo g)).
Proof.
  intros Hr. pose proof (prompt_reachable_ok _ _ Hr) as Hok. cbv zeta.
  assert (Hres : (activate now name v ws actor g).1 = (set_active ws name v (prg_repo g)).1 /\
    prg_repo (activate now name v ws actor g).2 = (set_active ws name v (prg_repo g)).2)
    by (unfold activate; by destruct (set_active ws name v (prg_repo g))).
  destruct Hres as [-> Hrepo]. rewrite (set_active_records _ _ _ _ (Hok ws name)) in *.
  rewrite find_version_elem. split; [by case_decide|]. split.
  - intros p variables fallback g' Hp Hg'.
    assert (Hv : v ∈ versions_of ws name (pr_records (prg_repo g))) by (apply find_version_elem; eauto).
    rewrite decide_True in Hrepo by done. cbn [snd] in Hrepo.
    destruct (activated_record _ _ _ _ (Hok ws name) Hv) as (q & Hq & Hact & Hqv). rewrite Hp in Hq. injection Hq as <-.
    assert (Hf : find_active ws name (prg_repo g') = Some (with_active true p)).
    { rewrite find_active_actives.
      assert (Hrec : pr_records (prg_repo (activate now name v ws actor g).2) = set_to ws name v <$> pr_records (prg_repo g))
        by (by rewrite Hrepo).
      assert (Happ : exists l, pr_records (prg_repo g') = (set_to ws name v <$> pr_records (prg_repo g)) ++ l).
      { destruct Hg' as [->|[(n' & c & vs & w & ->)|(t & n' & c & vs & w & b & a & ->)]].
        - exists []. by rewrite app_nil_r.
        - unfold seed, repo_seed. cbn [pr_workspace_id pr_name pr_version].
          destruct (find_by_name_and_version w n' 1 _); [exists []; rewrite app_nil_r|eexists]; cbn; by rewrite Hrec.
        - eexists. cbn. by rewrite Hrec. }
      destruct Happ as [l ->]. unfold actives_of in *. by rewrite !filter_app, Hact. }
    unfold resolve_version, render, resolved. rewrite Hf. cbn. by rewrite Hqv.
  - intros ws' name' Hne. rewrite !find_active_actives, Hrepo. case_decide; [|done]. cbn [snd pr_records].
    by rewrite others_same.
Qed.

(** A built-in template is seeded, a second version created and activated. *)
Definition demo_g1 : PromptRegistry :=
  (seed (u "agent") (u "Hello {x}") [] None (mkPromptRegistry prompt_repo_init None)).2.
Definition demo_g2 : PromptRegistry := (create_version 5 (u "agent") (u "Bye {x}") [] None None None demo_g1).2.

Lemma demo_g2_reachable : prompt_reachable None demo_g2.
Proof. do 2 (eapply PromptCall; [|constructor]). constructor. Qed.

Lemma prompt_versions_stable_witness :
  render_version (u "agent") 1 [(u "x", u "you")] [] None (activate 6 (u "agent") 2 None None demo_g2).2 = u "Hello you" /\
  (length (filter (fun p => pr_is_active p = true)
     (repo_list_versions None (u "agent") (prg_repo (activate 6 (u "agent") 2 None None demo_g2).2))) <= 1)%nat.
Proof.
  destruct (prompt_versions_stable None demo_g2 _ demo_g2_reachable (StepActivate demo_g2 6 (u "agent") 2 None None))
    as [H1 H2].
  split; [|exact (proj2 (H1 None (u "agent")))].
  etransitivity; [eapply (fun p H => proj2 (H2 None (u "agent") 1 p [(u "x", u "you")] [] H)); vm_compute; reflexivity|].
  vm_compute. reflexivity.
Defined.

Lemma activation_selects_witness :
  (activate 6 (u "agent") 2 None None demo_g2).1 = true /\
  (activate 6 (u "agent") 3 None None demo_g2).1 = false /\
  render (u "agent") [(u "x", u "you")] [] (Some (u "ws")) (activate 6 (u "agent") 2 None None demo_g2).2 = u "Bye you".
Proof.
  split; [|split].
  - apply (activation_selects None demo_g2 6 None (u "agent") 2 None demo_g2_reachable). vm_compute. by eexists.
  - vm_compute. reflexivity.
  - vm_compute. reflexivity.
Defined.
