(* ===== verification/AgentConfig.v ===== *)
(** * Agent definitions: [app/agent_config/]

    Agents of a workspace with the tools bound to them, the seeded tools and
    their enablement per workspace: the in-memory repository and the service.
    It uses the tool registry of [ToolExecutor], the prompt registry of
    [Prompts], the entitlements of [Billing] over any billing repository and
    [AuditLog].  The repository hands out the objects it stores: the service
    changes an agent in place before it validates it.  The fresh [uuid4] and the
    clock are arguments. *)

From S2P Require Import Prelude Json ToolModels ToolExecutor Billing AuditLog Prompts.
Local Open Scope Z_scope.

Record AgentRecord := mkAgentRecord {
  ag_id : pystr;
  ag_workspace_id : pystr;
  ag_name : pystr;
  ag_model : pystr;
  ag_prompt_ref : pystr;
  ag_temperature : float64;
  ag_max_steps : Z;
  ag_enabled : bool;
  ag_created_by : option pystr;
  ag_created_at : option Z
}.

Record AgentToolRecord := mkAgentTool { at_id : Z; at_agent_id : pystr; at_tool_name : pystr }.

Record ToolRecord := mkToolRecord {
  to_name : pystr;
  to_description : pystr;
  to_parameters_schema : JSONSchema;
  to_enabled_by_default : bool;
  to_owner : pystr
}.

Record WorkspaceToolRecord := mkWorkspaceTool { wt_workspace_id : pystr; wt_tool_name : pystr; wt_enabled : bool }.

(** ** [InMemoryAgentDefinitionRepository] *)

Record InMemoryAgentDefinitionRepository := mkAgentRepo {
  _agents : list (pystr * AgentRecord);
  _agent_tools : list AgentToolRecord;
  _tools : list (pystr * ToolRecord);
  _workspace_tools : list WorkspaceToolRecord;
  _tool_id_seq : Z
}.
Definition agent_repo_init : InMemoryAgentDefinitionRepository := mkAgentRepo [] [] [] [] 0.

Definition with_agents (agents : list (pystr * AgentRecord)) (r : InMemoryAgentDefinitionRepository)
  : InMemoryAgentDefinitionRepository :=
  mkAgentRepo agents (_agent_tools r) (_tools r) (_workspace_tools r) (_tool_id_seq r).

Definition repo_create_agent (a : AgentRecord) (r : InMemoryAgentDefinitionRepository)
  : InMemoryAgentDefinitionRepository := with_agents (dict_set (ag_id a) a (_agents r)) r.
Definition find_agent_by_id (agent_id : pystr) (r : InMemoryAgentDefinitionRepository) : option AgentRecord :=
  dict_get agent_id (_agents r).
Definition repo_list_agents (ws : pystr) (r : InMemoryAgentDefinitionRepository) : list AgentRecord :=
  filter (fun a => ag_workspace_id a = ws) (_agents r).*2.
Definition repo_update_agent (a : AgentRecord) (r : InMemoryAgentDefinitionRepository)
  : option AgentRecord * InMemoryAgentDefinitionRepository :=
  if dict_has (ag_id a) (_agents r) then (Some a, with_agents (dict_set (ag_id a) a (_agents r)) r) else (None, r).
Definition repo_delete_agent (agent_id : pystr) (r : InMemoryAgentDefinitionRepository)
  : bool * InMemoryAgentDefinitionRepository :=
  if dict_has agent_id (_agents r) then (true, with_agents (dict_del agent_id (_agents r)) r) else (false, r).

(** The new records, numbered from the sequence *)
Fixpoint number_tools (agent_id : pystr) (n : Z) (tool_names : list pystr) : list AgentToolRecord :=
  match tool_names with
  | [] => []
  | name :: l => mkAgentTool (n + 1) agent_id name :: number_tools agent_id (n + 1) l
  end.
Definition set_agent_tools (agent_id : pystr) (tool_names : list pystr) (r : InMemoryAgentDefinitionRepository)
  : InMemoryAgentDefinitionRepository :=
  mkAgentRepo (_agents r)
    (filter (fun t => at_agent_id t <> agent_id) (_agent_tools r) ++ number_tools agent_id (_tool_id_seq r) tool_names)
    (_tools r) (_workspace_tools r) (_tool_id_seq r + Z.of_nat (length tool_names)).
Definition repo_get_agent_tools (agent_id : pystr) (r : InMemoryAgentDefinitionRepository) : list AgentToolRecord :=
  filter (fun t => at_agent_id t = agent_id) (_agent_tools r).

Definition repo_seed_tool (t : ToolRecord) (r : InMemoryAgentDefinitionRepository)
  : ToolRecord * InMemoryAgentDefinitionRepository :=
  match dict_get (to_name t) (_tools r) with
  | Some existing => (existing, r)
  | None =>
      (t, mkAgentRepo (_agents r) (_agent_tools r) (dict_set (to_name t) t (_tools r)) (_workspace_tools r)
            (_tool_id_seq r))
  end.
Definition repo_list_tools (r : InMemoryAgentDefinitionRepository) : list ToolRecord := (_tools r).*2.

(** The records kept are those of other tools, in whatever workspace. *)
Definition set_workspace_tool (ws tool_name : pystr) (enabled : bool) (r : InMemoryAgentDefinitionRepository)
  : WorkspaceToolRecord * InMemoryAgentDefinitionRepository :=
  let t := mkWorkspaceTool ws tool_name enabled in
  (t, mkAgentRepo (_agents r) (_agent_tools r) (_tools r)
        (filter (fun t => wt_tool_name t <> tool_name) (_workspace_tools r) ++ [t]) (_tool_id_seq r)).
Definition list_workspace_tools (ws : pystr) (r : InMemoryAgentDefinitionRepository) : list WorkspaceToolRecord :=
  filter (fun t => wt_workspace_id t = ws) (_workspace_tools r).
Definition get_workspace_tool (ws tool_name : pystr) (r : InMemoryAgentDefinitionRepository)
  : option WorkspaceToolRecord :=
  head (filter (fun t => wt_workspace_id t = ws /\ wt_tool_name t = tool_name) (_workspace_tools r)).

(** ** [AgentDefinitionService] *)

Record agent_world := mkAgentWorld {
  aw_repo : InMemoryAgentDefinitionRepository;
  aw_audit : option InMemoryAuditRepository
}.

Inductive agent_error :=
| AgentValidation (message : pystr)
| AgentEntitlement (e : limit_error).

Section Service.
Context {R : Type} {B : BillingRepository R} {W : Type}.
Context (tool_registry : list (pystr * @Tool W)) (prompt_registry : option PromptRegistry).
Context (entitlement : option R).

Definition _agent_snapshot (a : AgentRecord) : list (pystr * json) :=
  [(u "name", JStr (ag_name a)); (u "model", JStr (ag_model a)); (u "prompt_ref", JStr (ag_prompt_ref a));
   (u "temperature", JFloat (ag_temperature a)); (u "max_steps", JInt (ag_max_steps a));
   (u "enabled", JBool (ag_enabled a))].

Definition is_tool_enabled (ws tool_name : pystr) (r : InMemoryAgentDefinitionRepository) : bool :=
  match get_workspace_tool ws tool_name r with
  | Some override => wt_enabled override
  | None =>
      match registry_get tool_registry tool_name with
      | None => false
      | Some _ =>
          match head (filter (fun t => to_name t = tool_name) (repo_list_tools r)) with
          | Some t => to_enabled_by_default t
          | None => true
          end
      end
  end.

Definition _validate_tool_names (names : list pystr) (ws : option pystr) (r : InMemoryAgentDefinitionRepository)
  : result agent_error (list pystr) :=
  foldE (fun valid name =>
    _ ← raise_if (negb (bool_decide (is_Some (registry_get tool_registry name))))
          (AgentValidation (u "Tool '" ++ name ++ u "' is not available in the tool registry."));
    _ ← raise_if (match ws with Some w => negb (is_tool_enabled w name r) | None => false end)
          (AgentValidation (u "Tool '" ++ name ++ u "' is disabled in this workspace."));
    Ok (valid ++ [name])) [] names.

Definition _validate_prompt_ref (prompt_ref : pystr) (ws : option pystr) : result agent_error unit :=
  match prompt_ref, prompt_registry with
  | [], _ | _, None => Ok tt
  | _, Some g =>
      let rendered :=
        match split_prompt_ref prompt_ref with
        | (_, None) => render prompt_ref [] [] ws g
        | (name, Some pinned) => render_version name pinned [] [] ws g
        end in
      raise_if (bool_decide (rendered = []))
        (AgentValidation (u "Prompt template '" ++ prompt_ref ++ u "' not found in the registry."))
  end.

Definition agent_limit (ws : pystr) (r : InMemoryAgentDefinitionRepository) : result agent_error unit :=
  match entitlement with
  | None => Ok tt
  | Some b =>
      match require_limit ws (u "agent") (Z.of_nat (length (repo_list_agents ws r))) b with
      | Ok _ => Ok tt
      | Err e => Err (AgentEntitlement e)
      end
  end.

Definition audit_agent (now : Z) (action agent_id : pystr) (actor : option AuditActor)
    (before after : option (list (pystr * json))) : option InMemoryAuditRepository -> option InMemoryAuditRepository :=
  if_audited actor (fun a => record now action (u "agent") agent_id (Some a) before after).

(** The agent is stored before its tools are validated. *)
Definition create_agent (now : Z) (new_id ws name model prompt_ref : pystr) (tool_names : list pystr)
    (temperature : float64) (max_steps : Z) (created_by : option pystr) (actor : option AuditActor)
    (s : agent_world) : result agent_error (AgentRecord * list pystr) * agent_world :=
  let name := strip name in
  let prompt_ref := strip prompt_ref in
  match (_ ← raise_if (bool_decide (name = [])) (AgentValidation (u "Agent name is required."));
         _ ← raise_if (bool_decide (strip model = [])) (AgentValidation (u "Model is required."));
         _ ← _validate_prompt_ref prompt_ref (Some ws);
         agent_limit ws (aw_repo s)) with
  | Err e => (Err e, s)
  | Ok _ =>
      let a := mkAgentRecord new_id ws name model prompt_ref temperature max_steps true created_by (Some now) in
      let r := repo_create_agent a (aw_repo s) in
      match (match tool_names with [] => Ok [] | _ => _validate_tool_names tool_names (Some ws) r end) with
      | Err e => (Err e, mkAgentWorld r (aw_audit s))
      | Ok bound =>
          let r := match tool_names with [] => r | _ => set_agent_tools new_id bound r end in
          (Ok (a, bound),
           mkAgentWorld r (audit_agent now (u "agent.create") new_id actor None (Some (_agent_snapshot a)) (aw_audit s)))
      end
  end.

(** An agent as a caller of a workspace may see it *)
Definition get_agent (agent_id : pystr) (ws : option pystr) (r : InMemoryAgentDefinitionRepository)
  : option AgentRecord :=
  a ← find_agent_by_id agent_id r;
  match ws with
  | Some w => if decide (ag_workspace_id a = w) then Some a else None
  | None => Some a
  end.

Definition list_agents (ws : pystr) (s : agent_world) : list AgentRecord := repo_list_agents ws (aw_repo s).

(** The fields of an update *)
Record agent_update := mkAgentUpdate {
  au_name : option pystr;
  au_model : option pystr;
  au_prompt_ref : option pystr;
  au_tool_names : option (list pystr);
  au_temperature : option float64;
  au_max_steps : option Z;
  au_enabled : option bool
}.

(** The assignments before the validation of the prompt, and those after it *)
Definition set_texts (f : agent_update) (a : AgentRecord) : AgentRecord :=
  mkAgentRecord (ag_id a) (ag_workspace_id a) (match au_name f with Some n => strip n | None => ag_name a end)
    (match au_model f with Some m => strip m | None => ag_model a end)
    (match au_prompt_ref f with Some p => strip p | None => ag_prompt_ref a end)
    (ag_temperature a) (ag_max_steps a) (ag_enabled a) (ag_created_by a) (ag_created_at a).
Definition set_numbers (f : agent_update) (a : AgentRecord) : AgentRecord :=
  mkAgentRecord (ag_id a) (ag_workspace_id a) (ag_name a) (ag_model a) (ag_prompt_ref a)
    (default (ag_temperature a) (au_temperature f)) (default (ag_max_steps a) (au_max_steps f))
    (default (ag_enabled a) (au_enabled f)) (ag_created_by a) (ag_created_at a).

(** [Ok None]: no such agent in the workspace *)
Definition update_agent (now : Z) (agent_id : pystr) (ws : option pystr) (f : agent_update)
    (actor : option AuditActor) (s : agent_world) : result agent_error (option AgentRecord) * agent_world :=
  match get_agent agent_id ws (aw_repo s) with
  | None => (Ok None, s)
  | Some existing =>
      let before := _agent_snapshot existing in
      let texts := set_texts f existing in
      let r := with_agents (dict_set agent_id texts (_agents (aw_repo s))) (aw_repo s) in
      match (match au_prompt_ref f with Some p => _validate_prompt_ref (strip p) ws | None => Ok tt end) with
      | Err e => (Err e, mkAgentWorld r (aw_audit s))
      | Ok _ =>
          let a := set_numbers f texts in
          let r := with_agents (dict_set agent_id a (_agents r)) r in
          let '(res, r) := repo_update_agent a r in
          match (match au_tool_names f with Some names => Some <$> _validate_tool_names names ws r | None => Ok None end) with
          | Err e => (Err e, mkAgentWorld r (aw_audit s))
          | Ok bound =>
              let r := match bound with Some b => set_agent_tools agent_id b r | None => r end in
              (Ok res, mkAgentWorld r
                 match res with
                 | Some a => audit_agent now (u "agent.update") agent_id actor (Some before) (Some (_agent_snapshot a))
                               (aw_audit s)
                 | None => aw_audit s
                 end)
          end
      end
  end.

Definition delete_agent (now : Z) (agent_id : pystr) (ws : option pystr) (actor : option AuditActor) (s : agent_world)
  : bool * agent_world :=
  match get_agent agent_id ws (aw_repo s) with
  | None => (false, s)
  | Some a =>
      let '(deleted, r) := repo_delete_agent agent_id (aw_repo s) in
      (deleted, mkAgentWorld r
         (if deleted
          then audit_agent now (u "agent.delete") agent_id actor (Some (_agent_snapshot a)) None (aw_audit s)
          else aw_audit s))
  end.

Definition get_agent_tools (agent_id : pystr) (s : agent_world) : list pystr :=
  at_tool_name <$> repo_get_agent_tools agent_id (aw_repo s).

(** ** Tools *)

Definition seed_tool (name description : pystr) (parameters_schema : JSONSchema) (enabled_by_default : bool)
    (owner : pystr) (s : agent_world) : ToolRecord * agent_world :=
  let '(t, r) := repo_seed_tool (mkToolRecord name description parameters_schema enabled_by_default owner) (aw_repo s) in
  (t, mkAgentWorld r (aw_audit s)).

Definition enabled_entry (tool_name : pystr) (enabled : bool) : option (list (pystr * json)) :=
  Some [(u "tool_name", JStr tool_name); (u "enabled", JBool enabled)].

Definition set_tool_enabled (now : Z) (ws tool_name : pystr) (enabled : bool) (actor : option AuditActor)
    (s : agent_world) : result agent_error WorkspaceToolRecord * agent_world :=
  match registry_get tool_registry tool_name with
  | None => (Err (AgentValidation (u "Tool '" ++ tool_name ++ u "' is not available in the tool registry.")), s)
  | Some _ =>
      let previous := is_tool_enabled ws tool_name (aw_repo s) in
      let '(override, r) := set_workspace_tool ws tool_name enabled (aw_repo s) in
      (Ok override, mkAgentWorld r
         (if_audited actor (fun a => record now (u "tool.enable") (u "tool") tool_name (Some a)
            (enabled_entry tool_name previous) (enabled_entry tool_name enabled)) (aw_audit s)))
  end.

Definition tool_state (name description : pystr) (schema : JSONSchema) (owner : pystr)
    (enabled_by_default enabled : bool) : list (pystr * json) :=
  [(u "name", JStr name); (u "description", JStr description); (u "parameters_schema", JObj schema);
   (u "owner", JStr owner); (u "enabled_by_default", JBool enabled_by_default); (u "enabled", JBool enabled)].

Definition list_tools_with_state (ws : option pystr) (s : agent_world) : list (list (pystr * json)) :=
  let records := repo_list_tools (aw_repo s) in
  let overrides :=
    match ws with
    | Some w => foldl (fun d t => dict_set (wt_tool_name t) (wt_enabled t) d) [] (list_workspace_tools w (aw_repo s))
    | None => []
    end in
  match records with
  | [] => (fun t => tool_state (tool_name t) (tool_description t) (tool_input_schema t) (u "builtin") true true)
            <$> ToolExecutor.list_tools tool_registry
  | _ =>
      let defaults := foldl (fun d t => dict_set (to_name t) (to_enabled_by_default t) d) [] records in
      (fun t => tool_state (to_name t) (to_description t) (to_parameters_schema t) (to_owner t)
                  (to_enabled_by_default t)
                  (match dict_get (to_name t) overrides with
                   | Some b => b
                   | None => default true (dict_get (to_name t) defaults)
                   end)) <$> records
  end.
End Service.
