(* ===== verification/AgentConfigProps.v ===== *)
(** * Agent definitions: theorems

    Workspaces do not reach each other's agents, the plan bounds their number,
    and a created agent has the tools and the prompt it names.  The workspace
    overrides of a tool are lost when another workspace sets its own. *)

From Corelib Require Import SpecFloat.
From S2P Require Import Prelude Json ToolModels ToolExecutor Billing AuditLog Prompts AgentConfig.
Local Open Scope Z_scope.

Section Agents.
Context {R : Type} {B : BillingRepository R} {W : Type}.
Context (tool_registry : list (pystr * @Tool W)) (prompt_registry : option PromptRegistry).
Context (entitlement : option R).

Definition agents_ok (r : InMemoryAgentDefinitionRepository) : Prop :=
  NoDup (_agents r).*1 /\ forall k a, dict_get k (_agents r) = Some a -> ag_id a = k.

(** ** What a call of a workspace does to the agents *)

Inductive agents_change (ws : pystr) (add : bool) (d : list (pystr * AgentRecord)) : list (pystr * AgentRecord) -> Prop :=
| AgentsSame : agents_change ws add d d
| AgentsAdd a : add = true -> dict_get (ag_id a) d = None -> ag_workspace_id a = ws ->
    agents_change ws add d (dict_set (ag_id a) a d)
| AgentsSet k old a : dict_get k d = Some old -> ag_workspace_id old = ws -> ag_workspace_id a = ws ->
    ag_id a = ag_id old -> agents_change ws add d (dict_set k a d)
| AgentsDel k old : dict_get k d = Some old -> ag_workspace_id old = ws -> agents_change ws add d (dict_del k d).

Definition call_change (ws : pystr) (add : bool) (s s' : agent_world) : Prop :=
  rtc (agents_change ws add) (_agents (aw_repo s)) (_agents (aw_repo s')).

Lemma change_others ws add d d' w :
  agents_change ws add d d' -> w <> ws ->
  others (fun a => ag_workspace_id a = w) d' = others (fun a => ag_workspace_id a = w) d.
Proof.
  intros H Hw. destruct H as [|a _ Hf Ha|k old a Hd Ho Ha _|k old Hd Ho]; [done|..].
  - apply others_fresh; congruence.
  - eapply others_set; [exact Hd|congruence|congruence].
  - eapply others_del; [exact Hd|congruence].
Qed.

Lemma change_get ws add d d' k a :
  NoDup d.*1 -> agents_change ws add d d' -> ag_workspace_id a <> ws ->
  dict_get k d = Some a <-> dict_get k d' = Some a.
Proof.
  intros Hn H Hw. destruct H as [|x _ Hf Hx|k' old x Hd Ho Hx _|k' old Hd Ho]; [done|..].
  - rewrite dict_get_set. case_decide; [subst k; rewrite Hf|done]. split; congruence.
  - rewrite dict_get_set. case_decide; [subst k; rewrite Hd|done]. split; congruence.
  - destruct (decide (k = k')) as [->|]; [|by rewrite dict_get_del_ne].
    rewrite dict_get_del, Hd by done. split; congruence.
Qed.

Lemma change_ok ws add d d' :
  (NoDup d.*1 /\ forall k a, dict_get k d = Some a -> ag_id a = k) -> agents_change ws add d d' ->
  NoDup d'.*1 /\ forall k a, dict_get k d' = Some a -> ag_id a = k.
Proof.
  intros [Hn Hk] H. destruct H as [|x _ Hf Hx|k' old x Hd Ho Hx Hi|k' old Hd Ho]; [done|..].
  - split; [by apply dict_set_NoDup|]. intros k a. rewrite dict_get_set. case_decide; [|by apply Hk].
    by intros [= <-].
  - split; [by apply dict_set_NoDup|]. intros k a. rewrite dict_get_set. case_decide; [|by apply Hk].
    intros [= <-]. subst k. rewrite Hi. by apply Hk.
  - split; [by apply dict_del_NoDup|]. intros k a. destruct (decide (k = k')) as [->|].
    + by rewrite dict_get_del.
    + rewrite dict_get_del_ne by done. apply Hk.
Qed.

Lemma get_agent_ws agent_id w r a :
  get_agent agent_id (Some w) r = Some a -> dict_get agent_id (_agents r) = Some a /\ ag_workspace_id a = w.
Proof.
  unfold get_agent, find_agent_by_id. destruct (dict_get agent_id (_agents r)) as [x|]; [|done]. cbn.
  case_decide; [|done]. by intros [= <-].
Qed.

Lemma validated_names names ws r bound :
  _validate_tool_names tool_registry names (Some ws) r = Ok bound ->
  bound = names /\ Forall (fun name => is_Some (registry_get tool_registry name) /\ is_tool_enabled tool_registry ws name r = true) names.
Proof.
  unfold _validate_tool_names. intros H.
  apply (foldE_inv (fun pre s => s = pre /\ Forall (fun name => is_Some (registry_get tool_registry name) /\
    is_tool_enabled tool_registry ws name r = true) pre) _ _ _ _ H); [done|].
  intros pre name s s' [-> Hf] E. apply bind_ok in E as ([] & H1%raise_if_ok & E).
  apply bind_ok in E as ([] & H2%raise_if_ok & [= <-]). bools. split; [done|].
  apply Forall_app. split; [done|]. by repeat constructor.
Qed.

Lemma create_call now i ws name model pref tools t m by_ actor s :
  dict_get i (_agents (aw_repo s)) = None ->
  call_change ws true s
    (create_agent tool_registry prompt_registry entitlement now i ws name model pref tools t m by_ actor s).2.
Proof.
  intros Hi. unfold create_agent, call_change. destruct (_ ≫= _) as [[]|e]; [|done].
  set (a := mkAgentRecord _ _ _ _ _ _ _ _ _ _).
  assert (Hadd : rtc (agents_change ws true) (_agents (aw_repo s)) (_agents (repo_create_agent a (aw_repo s)))).
  { apply rtc_once. by apply (AgentsAdd ws true _ a). }
  destruct tools as [|n ns]; [exact Hadd|]. by destruct (_validate_tool_names _ _ _ _).
Qed.

Lemma update_call now i ws f actor s :
  agents_ok (aw_repo s) ->
  call_change ws false s (update_agent tool_registry prompt_registry now i (Some ws) f actor s).2.
Proof.
  intros [Hn Hk]. unfold update_agent, call_change. destruct (get_agent i (Some ws) (aw_repo s)) as [a|] eqn:Hg; [|done].
  apply get_agent_ws in Hg as [Hg Hw]. set (a1 := set_texts f a).
  assert (H1 : agents_change ws false (_agents (aw_repo s)) (dict_set i a1 (_agents (aw_repo s)))) by (by eapply AgentsSet).
  destruct (match au_prompt_ref f with Some _ => _ | None => _ end) as [[]|e]; [|by apply rtc_once].
  set (a2 := set_numbers f a1). set (d1 := dict_set i a1 (_agents (aw_repo s))) in *.
  assert (Hid : ag_id a2 = i) by (by apply (Hk i a)).
  assert (H2 : agents_change ws false d1 (dict_set i a2 d1)).
  { eapply (AgentsSet ws false d1 i a1); [|exact Hw|exact Hw|done]. unfold d1. by rewrite dict_get_set, decide_True. }
  unfold repo_update_agent, dict_has. cbn [_agents with_agents]. rewrite Hid, dict_get_set, decide_True by done.
  assert (H3 : agents_change ws false (dict_set i a2 d1) (dict_set i a2 (dict_set i a2 d1))).
  { eapply (AgentsSet ws false _ i a2); [|exact Hw|exact Hw|done]. by rewrite dict_get_set, decide_True. }
  assert (Hall : rtc (agents_change ws false) (_agents (aw_repo s)) (dict_set i a2 (dict_set i a2 d1)))
    by (eapply rtc_l; [exact H1|]; eapply rtc_l; [exact H2|]; by apply rtc_once).
  destruct (au_tool_names f) as [names|]; [|exact Hall].
  by destruct (_validate_tool_names _ _ _ _).
Qed.

Lemma delete_call now i ws actor s : call_change ws false s (delete_agent now i (Some ws) actor s).2.
Proof.
  unfold delete_agent, call_change. destruct (get_agent i (Some ws) (aw_repo s)) as [a|] eqn:Hg; [|done].
  apply get_agent_ws in Hg as [Hg Hw]. unfold repo_delete_agent, dict_has. rewrite Hg. apply rtc_once.
  by eapply AgentsDel.
Qed.

(** The calls of a workspace; the id of a new agent is fresh. *)
Inductive agent_call (ws : pystr) (s : agent_world) : agent_world -> Prop :=
| CallCreateAgent now i name model pref tools t m by_ actor : dict_get i (_agents (aw_repo s)) = None ->
    agent_call ws s
      (create_agent tool_registry prompt_registry entitlement now i ws name model pref tools t m by_ actor s).2
| CallUpdateAgent now i f actor :
    agent_call ws s (update_agent tool_registry prompt_registry now i (Some ws) f actor s).2
| CallDeleteAgent now i actor : agent_call ws s (delete_agent now i (Some ws) actor s).2
| CallSetTool now name enabled actor :
    agent_call ws s (set_tool_enabled tool_registry now ws name enabled actor s).2.

Inductive agents_reachable (s0 : agent_world) : agent_world -> Prop :=
| AgentsInit : agents_reachable s0 s0
| AgentsCall ws s s' : agents_reachable s0 s -> agent_call ws s s' -> agents_reachable s0 s'.

Lemma agent_call_change ws s s' : agents_ok (aw_repo s) -> agent_call ws s s' -> exists add, call_change ws add s s'.
Proof.
  intros Hok H. destruct H as [now i name model pref tools t m by_ actor Hi|now i f actor|now i actor|now name enabled actor].
  - exists true. by apply create_call.
  - exists false. by apply update_call.
  - exists false. apply delete_call.
  - exists false. unfold call_change, set_tool_enabled. by destruct (registry_get tool_registry name).
Qed.

Lemma call_change_ok ws add s s' : agents_ok (aw_repo s) -> call_change ws add s s' -> agents_ok (aw_repo s').
Proof. unfold call_change, agents_ok. intros Hok H. induction H; [done|]. by eauto using change_ok. Qed.

Lemma agents_reachable_ok s0 s : agents_ok (aw_repo s0) -> agents_reachable s0 s -> agents_ok (aw_repo s).
Proof. intros H0. induction 1 as [|ws s s' _ IH Hc]; [done|].
  destruct (agent_call_change _ _ _ IH Hc) as [add Hch]. by eapply call_change_ok. Qed.

Lemma call_change_others ws add s s' w :
  call_change ws add s s' -> w <> ws -> repo_list_agents w (aw_repo s') = repo_list_agents w (aw_repo s).
Proof.
  unfold call_change. intros H Hw. change (others (fun a => ag_workspace_id a = w) (_agents (aw_repo s'))
    = others (fun a => ag_workspace_id a = w) (_agents (aw_repo s))).
  induction H as [|d1 d2 d3 H1 _ IH]; [done|]. rewrite IH. by eapply change_others.
Qed.

Lemma call_change_get ws add s s' w i :
  agents_ok (aw_repo s) -> call_change ws add s s' -> w <> ws ->
  get_agent i (Some w) (aw_repo s') = get_agent i (Some w) (aw_repo s).
Proof.
  intros Hok H Hw.
  assert (Hiff : forall a, ag_workspace_id a <> ws ->
    dict_get i (_agents (aw_repo s)) = Some a <-> dict_get i (_agents (aw_repo s')) = Some a).
  { intros a Ha. unfold call_change, agents_ok in *. revert Hok. induction H as [|d1 d2 d3 H1 _ IH]; [done|].
    intros Hok. rewrite (change_get _ _ _ _ i a (proj1 Hok) H1 Ha). apply IH. by eapply change_ok. }
  unfold get_agent, find_agent_by_id.
  destruct (dict_get i (_agents (aw_repo s))) as [a|] eqn:E1, (dict_get i (_agents (aw_repo s'))) as [a'|] eqn:E2;
    cbn; repeat case_decide; try done; subst.
  - assert (Some a' = Some a) as [= ->]; [|done]. symmetry. by apply Hiff.
  - pose proof (proj2 (Hiff a' Hw) eq_refl). congruence.
  - pose proof (proj1 (Hiff a Hw) eq_refl). congruence.
  - pose proof (proj1 (Hiff a Hw) eq_refl). congruence.
  - pose proof (proj2 (Hiff a' Hw) eq_refl). congruence.
Qed.

(** ** The plan's ceiling *)

Lemma set_length {V} (P : V -> Prop) `{forall v, Decision (P v)} k (x y : V) r :
  dict_get k r = Some x -> P x -> P y -> length (others P (dict_set k y r)) = length (others P r).
Proof.
  intros Hx Px Py. unfold others. induction r as [|[k' z] r IH]; [done|]. cbn [dict_get dict_set] in *.
  destruct (decide (k = k')) as [<-|Hk]; rewrite !fmap_cons, !filter_cons.
  - injection Hx as ->. by rewrite !decide_True by done.
  - case_decide; [simpl; f_equal|]; by apply IH.
Qed.

Lemma del_length {V} (P : V -> Prop) `{forall v, Decision (P v)} k (r : list (pystr * V)) :
  (length (others P (dict_del k r)) <= length (others P r))%nat.
Proof.
  unfold others. induction r as [|[k' z] r IH]; [done|]. cbn [dict_del].
  destruct (decide (k = k')); rewrite !fmap_cons, !filter_cons; repeat case_decide; simpl in *; lia.
Qed.

Lemma change_count ws d d' w :
  agents_change ws false d d' ->
  (length (others (fun a => ag_workspace_id a = w) d') <= length (others (fun a => ag_workspace_id a = w) d))%nat.
Proof.
  intros H. destruct (decide (w = ws)) as [->|Hw]; [|by rewrite (change_others _ _ _ _ _ H Hw)].
  destruct H as [|a [=]|k old a Hd Ho Ha _|k old Hd Ho]; [done|by rewrite (set_length _ k old)|apply del_length].
Qed.

Lemma call_count ws s s' w :
  call_change ws false s s' ->
  (length (repo_list_agents w (aw_repo s')) <= length (repo_list_agents w (aw_repo s)))%nat.
Proof.
  unfold call_change. intros H. change ((length (others (fun a => ag_workspace_id a = w) (_agents (aw_repo s'))) <=
    length (others (fun a => ag_workspace_id a = w) (_agents (aw_repo s))))%nat).
  induction H as [|d1 d2 d3 H1 _ IH]; [done|]. etrans; [exact IH|]. by eapply change_count.
Qed.

Lemma require_limit_ok b ws n p :
  _plan_for_workspace ws b = Some p -> max_agents p = Some n -> forall count,
  require_limit ws (u "agent") count b = Ok tt -> count < n.
Proof.
  intros Hp Hn count. unfold require_limit. rewrite Hp.
  change (_limit_for p (u "agent")) with (Ok (E := limit_error) (max_agents p)). rewrite Hn.
  change (Ok (Some n) ≫= ?k) with (k (Some n)). cbv beta iota.
  match goal with |- context [Err ?e] => generalize e end. intros e.
  destruct (count <? n) eqn:E; [intros _; by apply Z.ltb_lt|intros [=]].
Qed.

Lemma create_count now i ws name model pref tools t m by_ actor s b p n w :
  dict_get i (_agents (aw_repo s)) = None ->
  entitlement = Some b -> _plan_for_workspace w b = Some p -> max_agents p = Some n -> 0 <= n ->
  Z.of_nat (length (repo_list_agents w (aw_repo s))) <= n ->
  Z.of_nat (length (repo_list_agents w (aw_repo
    (create_agent tool_registry prompt_registry entitlement now i ws name model pref tools t m by_ actor s).2))) <= n.
Proof.
  intros Hi He Hp Hn H0 Hlen.
  pose proof (create_call now i ws name model pref tools t m by_ actor s Hi) as Hc.
  destruct (decide (w = ws)) as [->|Hw]; [|by rewrite (call_change_others _ _ _ _ _ Hc Hw)]. clear Hc.
  unfold create_agent. destruct (_ ≫= _) as [[]|e] eqn:E; [|done].
  apply bind_ok in E as ([] & _ & E). apply bind_ok in E as ([] & _ & E). apply bind_ok in E as ([] & _ & E).
  unfold agent_limit in E. rewrite He in E.
  destruct (require_limit ws (u "agent") _ b) as [[]|e] eqn:Er; [|done].
  pose proof (require_limit_ok _ _ _ _ Hp Hn _ Er) as Hlt.
  set (a := mkAgentRecord _ _ _ _ _ _ _ _ _ _).
  assert (Hadd : Z.of_nat (length (repo_list_agents ws (repo_create_agent a (aw_repo s)))) <= n).
  { unfold repo_list_agents, repo_create_agent in *. cbn [_agents with_agents]. rewrite dict_set_fresh by done.
    rewrite fmap_app, filter_app, length_app, fmap_cons, fmap_nil, filter_cons.
    case_decide; rewrite filter_nil; simpl; lia. }
  destruct tools as [|x xs]; [exact Hadd|]. by destruct (_validate_tool_names _ _ _ _).
Qed.

(** Agents of a workspace, over any billing repository: starting without
    agents, whatever calls the workspaces make, a call of one workspace does not
    change what another lists or gets; what a workspace gets under an id is its
    own agent of that id; and no workspace ever has more agents than the plan it is
    subscribed to allows, failed calls included. *)
Theorem agents_within_plan s0 s ws s' :
  _agents (aw_repo s0) = [] -> agents_reachable s0 s -> agent_call ws s s' ->
  (forall w, w <> ws ->
     repo_list_agents w (aw_repo s') = repo_list_agents w (aw_repo s) /\
     forall i, get_agent i (Some w) (aw_repo s') = get_agent i (Some w) (aw_repo s)) /\
  (forall w i a, get_agent i (Some w) (aw_repo s') = Some a ->
     ag_id a = i /\ ag_workspace_id a = w /\ a ∈ repo_list_agents w (aw_repo s')) /\
  (forall w b p n, entitlement = Some b -> _plan_for_workspace w b = Some p -> max_agents p = Some n -> 0 <= n ->
     Z.of_nat (length (repo_list_agents w (aw_repo s'))) <= n).
Proof.
  intros H0 Hr Hc. assert (Hok0 : agents_ok (aw_repo s0)) by (unfold agents_ok; rewrite H0; split; [constructor|done]).
  pose proof (agents_reachable_ok _ _ Hok0 Hr) as Hok. destruct (agent_call_change _ _ _ Hok Hc) as [add Hch].
  pose proof (call_change_ok _ _ _ _ Hok Hch) as [Hn' Hk']. split; [|split].
  - intros w Hw. split; [by eapply call_change_others|]. intros i. by eapply call_change_get.
  - intros w i a [Hg Hw]%get_agent_ws. split; [by apply Hk'|]. split; [done|].
    apply list_elem_of_filter. split; [done|]. apply list_elem_of_fmap. exists (i, a). split; [done|].
    by apply dict_get_Some.
  - intros w b p n He Hp Hn Hpos.
    assert (Hstep : forall v x x', agents_ok (aw_repo x) -> agent_call v x x' ->
      Z.of_nat (length (repo_list_agents w (aw_repo x))) <= n ->
      Z.of_nat (length (repo_list_agents w (aw_repo x'))) <= n).
    { intros v x x' Hx H Hlen. destruct H as [now i name model pref tools t m by_ actor Hi|now i f actor|now i actor|now name e actor].
      - by eapply create_count.
      - pose proof (call_count _ _ _ w (update_call now i v f actor x Hx)). lia.
      - pose proof (call_count _ _ _ w (delete_call now i v actor x)). lia.
      - unfold set_tool_enabled. by destruct (registry_get tool_registry name). }
    eapply Hstep; [exact Hok|exact Hc|]. clear Hc Hch Hn' Hk' Hok. induction Hr as [|v x x' Hr IH Hx].
    + unfold repo_list_agents. rewrite H0. simpl. lia.
    + eapply Hstep; [by eapply agents_reachable_ok|exact Hx|done].
Qed.

(** A call of [create_agent] that returns has stored an enabled agent of the
    workspace whose name and model are not blank, whose prompt reference, if any,
    resolves to a template that is not empty, and which is bound to exactly the
    tools asked for, all registered and enabled in the workspace. *)
Theorem created_agent_usable now i ws name model pref tools t m by_ actor s a bound s' :
  (forall x, x ∈ _agent_tools (aw_repo s) -> at_agent_id x <> i) ->
  create_agent tool_registry prompt_registry entitlement now i ws name model pref tools t m by_ actor s
    = (Ok (a, bound), s') ->
  get_agent i (Some ws) (aw_repo s') = Some a /\ ag_enabled a = true /\ ag_name a <> [] /\ strip (ag_model a) <> [] /\
  bound = tools /\ get_agent_tools i s' = tools /\
  Forall (fun n => is_Some (registry_get tool_registry n) /\ is_tool_enabled tool_registry ws n (aw_repo s') = true) tools /\
  (forall g, prompt_registry = Some g -> ag_prompt_ref a <> [] ->
     match split_prompt_ref (ag_prompt_ref a) with
     | (_, None) => render (ag_prompt_ref a) [] [] (Some ws) g <> []
     | (n, Some v) => render_version n v [] [] (Some ws) g <> []
     end).
Proof.
  intros Hfresh. unfold create_agent. destruct (_ ≫= _) as [[]|e] eqn:E; [|done].
  apply bind_ok in E as ([] & Hname%raise_if_ok & E). apply bind_ok in E as ([] & Hmodel%raise_if_ok & E).
  apply bind_ok in E as ([] & Hp & _). bools.
  set (x := mkAgentRecord _ _ _ _ _ _ _ _ _ _). set (r := repo_create_agent x (aw_repo s)).
  assert (Hprompt : forall g, prompt_registry = Some g -> ag_prompt_ref x <> [] ->
     match split_prompt_ref (ag_prompt_ref x) with
     | (_, None) => render (ag_prompt_ref x) [] [] (Some ws) g <> []
     | (n, Some v) => render_version n v [] [] (Some ws) g <> []
     end).
  { intros g Hg Hne. cbn [ag_prompt_ref x] in *. unfold _validate_prompt_ref in Hp. rewrite Hg in Hp.
    destruct (strip pref) as [|c cs] eqn:Epref; [done|].
    destruct (split_prompt_ref (c :: cs)) as [n [v|]]; apply raise_if_ok in Hp; by bools. }
  assert (Hget : forall tl ids, get_agent i (Some ws) (mkAgentRepo (_agents r) tl (_tools r) (_workspace_tools r) ids) = Some x).
  { intros tl ids. unfold get_agent, find_agent_by_id, r, repo_create_agent. cbn [_agents with_agents].
    change (ag_id x) with i. rewrite dict_get_set, decide_True by done. cbn. by rewrite decide_True. }
  assert (Hold : filter (fun y => at_agent_id y <> i) (_agent_tools r) = _agent_tools r /\
                 filter (fun y => at_agent_id y = i) (_agent_tools r) = []).
  { change (_agent_tools r) with (_agent_tools (aw_repo s)). induction (_agent_tools (aw_repo s)) as [|y l IH]; [done|].
    rewrite !filter_cons. rewrite decide_True, decide_False by (apply Hfresh; left).
    destruct IH as [-> ->]; [|done]. intros z Hz. apply Hfresh. by right. }
  destruct tools as [|n ns].
  - intros [= <- <- <-]. split_and!; try done.
    + exact (Hget (_agent_tools r) (_tool_id_seq r)).
    + unfold get_agent_tools, repo_get_agent_tools. cbn [aw_repo]. by rewrite (proj2 Hold).
  - destruct (_validate_tool_names tool_registry (n :: ns) (Some ws) r) as [b|e] eqn:Et; [|done].
    intros [= <- <- <-]. apply validated_names in Et as [-> Hall]. split_and!; try done.
    + apply Hget.
    + unfold get_agent_tools, repo_get_agent_tools, set_agent_tools. cbn [aw_repo _agent_tools].
      rewrite filter_app, (proj1 Hold), (proj2 Hold). cbn [app]. generalize (n :: ns) (_tool_id_seq r).
      intros l. induction l as [|y l IH]; intros z; [done|]. cbn [number_tools]. rewrite filter_cons, decide_True by done.
      by rewrite fmap_cons, IH.
Qed.

(** Enabling or disabling a tool in one workspace forgets what every other
    workspace had set: the tool falls back to its default there. *)
Theorem other_overrides_lost now ws name enabled actor s w :
  is_Some (registry_get tool_registry name) -> w <> ws ->
  let s' := (set_tool_enabled tool_registry now ws name enabled actor s).2 in
  get_workspace_tool w name (aw_repo s') = None /\
  is_tool_enabled tool_registry ws name (aw_repo s') = enabled.
Proof.
  intros [tool Ht] Hw. cbv zeta. unfold set_tool_enabled. rewrite Ht. cbn [set_workspace_tool snd aw_repo].
  unfold is_tool_enabled, get_workspace_tool. cbn [_workspace_tools].
  assert (Hnone : forall v, filter (fun t => wt_workspace_id t = v /\ wt_tool_name t = name)
    (filter (fun t => wt_tool_name t <> name) (_workspace_tools (aw_repo s))) = []).
  { intros v. induction (_workspace_tools (aw_repo s)) as [|t l IH]; [done|]. rewrite filter_cons.
    case_decide as E; [|done]. rewrite filter_cons, decide_False; [done|]. by intros [_ ?]. }
  rewrite !filter_app, !Hnone, !filter_cons, !filter_nil. cbn [app wt_workspace_id wt_tool_name].
  rewrite (decide_False (P := ws = w /\ name = name)) by (intros [-> _]; done).
  by rewrite decide_True.
Qed.
End Agents.

(** ** A workspace on the free plan (three agents), a prompt and a tool *)

Definition demo_tool : @Tool nat :=
  mkTool (u "calculator") (u "Evaluate.") [(u "type", JStr (u "object"))] None None []
    (fun _ _ _ n => (ToolReturned (JStr (u "42")), S n)).
Definition demo_tools : list (pystr * @Tool nat) := [(u "calculator", demo_tool)].
Definition demo_prompts : PromptRegistry :=
  (seed (u "agent") (u "Hello") [] None (mkPromptRegistry prompt_repo_init None)).2.
Definition demo_billing : InMemoryBillingRepository :=
  (assign_plan (u "ws") FREE_PLAN_ID SubscriptionStatus.TRIAL (u "s1") 5 seeded).2.
Definition empty_world : agent_world := mkAgentWorld agent_repo_init None.

Definition demo_create (i ws : pystr) (tools : list pystr) (s : agent_world) :=
  create_agent demo_tools (Some demo_prompts) (Some demo_billing) 1 i ws (u " Ann ") (u "gpt") (u "agent@1") tools
    (S754_zero false) 10 None None s.
Definition demo_one : agent_world := (demo_create (u "a1") (u "ws") [u "calculator"] empty_world).2.

Lemma demo_call i ws tools s :
  dict_get i (_agents (aw_repo s)) = None ->
  agent_call demo_tools (Some demo_prompts) (Some demo_billing) ws s (demo_create i ws tools s).2.
Proof.
  exact (CallCreateAgent demo_tools (Some demo_prompts) (Some demo_billing) ws s 1 i (u " Ann ") (u "gpt")
    (u "agent@1") tools (S754_zero false) 10 None None).
Qed.

Lemma agents_within_plan_witness :
  let s' := (demo_create (u "a2") (u "ws") [] demo_one).2 in
  length (repo_list_agents (u "ws") (aw_repo s')) = 2%nat /\
  Z.of_nat (length (repo_list_agents (u "ws") (aw_repo s'))) <= 3.
Proof.
  cbv zeta. split; [vm_compute; reflexivity|].
  refine (proj2 (proj2 (agents_within_plan demo_tools (Some demo_prompts) (Some demo_billing) empty_world demo_one
    (u "ws") _ eq_refl _ _)) (u "ws") demo_billing (mkPlan FREE_PLAN_ID (u "free") 1 None (Some 100000) (Some 3)
      (Some 5) None [(u "reranker", false); (u "benchmark", false)]) 3 eq_refl _ eq_refl _).
  - eapply AgentsCall; [apply AgentsInit|]. apply demo_call. reflexivity.
  - apply demo_call. vm_compute. reflexivity.
  - vm_compute. reflexivity.
  - lia.
Defined.

Lemma created_agent_usable_witness :
  get_agent_tools (u "a1") demo_one = [u "calculator"] /\
  exists a, get_agent (u "a1") (Some (u "ws")) (aw_repo demo_one) = Some a /\ ag_name a = u "Ann".
Proof.
  destruct (demo_create (u "a1") (u "ws") [u "calculator"] empty_world) as [[[a bound]|e] s'] eqn:E; [|discriminate E].
  destruct (created_agent_usable demo_tools (Some demo_prompts) (Some demo_billing) 1 (u "a1") (u "ws") (u " Ann ")
    (u "gpt") (u "agent@1") [u "calculator"] (S754_zero false) 10 None None empty_world a bound s')
    as (Hg & _ & _ & _ & _ & Ht & _); [intros x Hx; inversion Hx|exact E|].
  unfold demo_one. rewrite E. split; [exact Ht|]. exists a. split; [exact Hg|]. vm_compute in E. by injection E as <- _.
Defined.

Lemma other_overrides_lost_witness :
  let s := (set_tool_enabled demo_tools 1 (u "w1") (u "calculator") false None empty_world).2 in
  let s' := (set_tool_enabled demo_tools 2 (u "w2") (u "calculator") false None s).2 in
  is_tool_enabled demo_tools (u "w1") (u "calculator") (aw_repo s) = false /\
  get_workspace_tool (u "w1") (u "calculator") (aw_repo s') = None /\
  is_tool_enabled demo_tools (u "w1") (u "calculator") (aw_repo s') = true.
Proof.
  cbv zeta. split; [vm_compute; reflexivity|]. split; [|vm_compute; reflexivity].
  refine (proj1 (other_overrides_lost demo_tools 2 (u "w2") (u "calculator") false None
    (set_tool_enabled demo_tools 1 (u "w1") (u "calculator") false None empty_world).2 (u "w1") _ _)).
  - by eexists.
  - intros H. vm_compute in H. discriminate H.
Defined.

(** A call that fails because of its tools leaves the agent behind, without
    tools; a failed update has changed the texts of the agent. *)
Lemma failed_calls_persist :
  (let '(res, s) := demo_create (u "a1") (u "ws") [u "nope"] empty_world in
   (exists e, res = Err e) /\ exists a, get_agent (u "a1") (Some (u "ws")) (aw_repo s) = Some a) /\
  (let '(res, s) := update_agent demo_tools (Some demo_prompts) 2 (u "a1") (Some (u "ws"))
       (mkAgentUpdate (Some (u "Bob")) None (Some (u "missing")) None None None None) None demo_one in
   (exists e, res = Err e) /\
   exists a, get_agent (u "a1") (Some (u "ws")) (aw_repo s) = Some a /\ ag_name a = u "Bob" /\
     ag_prompt_ref a = u "missing").
Proof. vm_compute. split; (split; [by eexists|]); eexists; by repeat split. Qed.
