(* ===== verification/WorkflowBuilder.v ===== *)
(** * Workflow builder: [app/workflow_builder/]

    Workflows and their runs ([models.py]), the in-memory repositories
    ([repository.py]) and the service ([service.py]): creation and editing of
    drafts, publication, runs with a snapshot of the definition.  Definitions are
    parsed and validated by [Workflow], tools and agents come from [AgentConfig],
    runs are those of [WorkflowEngine.run], audit events go to [AuditLog].  The
    repository hands out the objects it stores: an update changes them in place.
    Other requests are served while a run executes, so [run_begin] and [run_end]
    are separate; [wb_executing] has the runs in between.  Node results are kept
    as records, not as their dictionaries; the identity that [run_workflow] puts
    into the context variable is part of the engine's environment. *)

From S2P Require Import Prelude Json ToolModels ToolExecutor AuditLog AgentConfig Workflow WorkflowEngine.
Local Open Scope Z_scope.

Definition STATUS_DRAFT : pystr := u "draft".
Definition STATUS_PUBLISHED : pystr := u "published".
Definition RUN_RUNNING : pystr := u "running".
Definition RUN_COMPLETED : pystr := u "completed".
Definition RUN_FAILED : pystr := u "failed".
Definition RUN_CANCELLED : pystr := u "cancelled".

Record WorkflowRecord := mkWorkflow {
  wf_id : pystr;
  wf_workspace_id : pystr;
  wf_name : pystr;
  wf_description : pystr;
  wf_status : pystr;
  wf_definition : list (pystr * json);
  wf_version : Z;
  wf_created_by : option pystr;
  wf_created_at : option Z;
  wf_updated_at : option Z
}.

Inductive builder_error :=
| BuilderValidation (message : pystr)
| BuilderConflict (message : pystr)
| BuilderRaised (e : workflow_error)
| BuilderRegistry (e : ToolRegistryError).

Section Builder.
Context {Obj : Type}.

Record WorkflowRunRecord := mkRun {
  run_id : pystr;
  run_workflow_id : pystr;
  run_workspace_id : pystr;
  run_status : pystr;
  run_inputs : list (pystr * Obj);
  run_definition : list (pystr * json);
  run_node_results : list NodeResult;
  run_error : option pystr;
  run_total_duration_ms : option Z;
  run_created_at : option Z;
  run_completed_at : option Z
}.

(** ** The repositories *)

Abbreviation workflows := (list (pystr * WorkflowRecord)).
Abbreviation runs := (list (pystr * WorkflowRunRecord)).

Definition in_workspace {A} (ws_of : A -> pystr) (ws : option pystr) (a : A) : bool :=
  match ws with Some w => bool_decide (ws_of a = w) | None => true end.

Definition repo_get_workflow (workflow_id : pystr) (ws : option pystr) (r : workflows) : option WorkflowRecord :=
  x ← dict_get workflow_id r; if in_workspace wf_workspace_id ws x then Some x else None.

(** [created_at or datetime.min] *)
Definition time_or_min (t : option Z) : Z := default (-62135596800 * 1000000) t.

Definition repo_list_workflows (ws : pystr) (r : workflows) : list WorkflowRecord :=
  sort_by (fun a b => time_or_min (wf_created_at b) <=? time_or_min (wf_created_at a))
    (filter (fun x => wf_workspace_id x = ws) r.*2).

Definition repo_update_workflow (x : WorkflowRecord) (r : workflows) : option WorkflowRecord * workflows :=
  match dict_get (wf_id x) r with
  | Some current =>
      if decide (wf_workspace_id current = wf_workspace_id x) then (Some x, dict_set (wf_id x) x r) else (None, r)
  | None => (None, r)
  end.
Definition repo_publish_workflow : WorkflowRecord -> workflows -> option WorkflowRecord * workflows :=
  repo_update_workflow.

Definition repo_delete_workflow (workflow_id ws : pystr) (r : workflows) : bool * workflows :=
  match dict_get workflow_id r with
  | Some current => if decide (wf_workspace_id current = ws) then (true, dict_del workflow_id r) else (false, r)
  | None => (false, r)
  end.

Definition repo_update_run (x : WorkflowRunRecord) (r : runs) : option WorkflowRunRecord * runs :=
  match dict_get (run_id x) r with
  | Some _ => (Some x, dict_set (run_id x) x r)
  | None => (None, r)
  end.
Definition repo_get_run (i : pystr) (ws : option pystr) (r : runs) : option WorkflowRunRecord :=
  x ← dict_get i r; if in_workspace run_workspace_id ws x then Some x else None.
Definition repo_list_runs (workflow_id : pystr) (limit : Z) (r : runs) : list WorkflowRunRecord :=
  pyslice limit (sort_by (fun a b => time_or_min (run_created_at b) <=? time_or_min (run_created_at a))
    (filter (fun x => run_workflow_id x = workflow_id) r.*2)).

(** ** [WorkflowBuilderService] *)

Record builder_world := mkBuilder {
  wb_workflows : workflows;
  wb_runs : runs;
  wb_audit : option InMemoryAuditRepository;
  wb_executing : list pystr
}.

Context {W : Type} (tool_registry : list (pystr * @Tool W)).
(** The built-ins of [Workflow] *)
Context (repr : json -> pystr) (py_int : json -> option Z) (py_dict : json -> option (list (pystr * json))).

Definition _parse_definition (raw : list (pystr * json)) : result builder_error WorkflowDefinition :=
  match definition_from_dict repr py_int py_dict raw with
  | Ok d => Ok d
  | Err e => Err (BuilderValidation (u "流程定义格式不合法：" ++ error_text e))
  end.

(** A text of the configuration that is not blank *)
Definition config_text (key : pystr) (n : WorkflowNode) : option pystr :=
  match dict_get key (config n) with
  | Some (JStr s) => if decide (strip s = []) then None else Some s
  | _ => None
  end.

Definition check_tool (ws tool_name missing disabled : pystr) (agents : InMemoryAgentDefinitionRepository)
  : result builder_error unit :=
  match get_descriptor tool_registry tool_name with
  | Err e => Err (BuilderRegistry e)
  | Ok None => Err (BuilderValidation missing)
  | Ok (Some _) => raise_if (negb (is_tool_enabled tool_registry ws tool_name agents)) (BuilderValidation disabled)
  end.

Definition check_node (ws : pystr) (agents : InMemoryAgentDefinitionRepository) (n : WorkflowNode)
  : result builder_error unit :=
  match node_type n with
  | NodeType.TOOL =>
      match config_text (u "tool") n with
      | None => Err (BuilderValidation (u "tool 节点 " ++ id n ++ u " 缺少 tool 配置"))
      | Some tool_name =>
          check_tool ws tool_name (u "tool 节点 " ++ id n ++ u " 引用了未注册的工具：" ++ tool_name)
            (u "tool 节点 " ++ id n ++ u " 引用的工具在当前工作空间未启用：" ++ tool_name) agents
      end
  | NodeType.CODE =>
      match config_text (u "code_template") n with
      | None => Err (BuilderValidation (u "code 节点 " ++ id n ++ u " 缺少 code_template 配置"))
      | Some _ =>
          check_tool ws (u "code_executor") (u "code 节点 " ++ id n ++ u " 依赖的工具未注册：code_executor")
            (u "code 节点 " ++ id n ++ u " 依赖的工具在当前工作空间未启用：code_executor") agents
      end
  | NodeType.AGENT =>
      match config_text (u "agent_id") n with
      | None => Err (BuilderValidation (u "agent 节点 " ++ id n ++ u " 缺少 agent_id 配置"))
      | Some agent_id =>
          match get_agent agent_id (Some ws) agents with
          | None => Err (BuilderValidation (u "agent 节点 " ++ id n ++ u " 引用的 Agent 不存在或不属于当前工作空间：" ++ agent_id))
          | Some a => raise_if (negb (ag_enabled a))
                        (BuilderValidation (u "agent 节点 " ++ id n ++ u " 引用的 Agent 已禁用：" ++ agent_id))
          end
      end
  | _ => Ok tt
  end.

Definition _validate_with_workspace (ws : pystr) (agents : InMemoryAgentDefinitionRepository) (d : WorkflowDefinition)
  : result builder_error unit :=
  _ ← match validate_definition repr d with
      | Ok _ => Ok tt
      | Err (WorkflowValidationError m) => Err (BuilderValidation m)
      | Err e => Err (BuilderRaised e)
      end;
  foldE (fun _ n => check_node ws agents n) tt (nodes d).

Definition parse_valid (ws : pystr) (agents : InMemoryAgentDefinitionRepository) (raw : list (pystr * json))
  : result builder_error WorkflowDefinition :=
  parsed ← _parse_definition raw;
  _ ← _validate_with_workspace ws agents parsed;
  Ok parsed.

Definition with_workflows (r : workflows) (s : builder_world) : builder_world :=
  mkBuilder r (wb_runs s) (wb_audit s) (wb_executing s).

Definition empty_name : builder_error := BuilderValidation (u "流程名称不能为空").

Definition create_workflow (now : Z) (new_id ws name description : pystr) (definition : list (pystr * json))
    (created_by : option pystr) (agents : InMemoryAgentDefinitionRepository) (s : builder_world)
  : result builder_error WorkflowRecord * builder_world :=
  match (_ ← raise_if (bool_decide (strip name = [])) empty_name; parse_valid ws agents definition) with
  | Err e => (Err e, s)
  | Ok parsed =>
      let x := mkWorkflow new_id ws (strip name) (strip description) STATUS_DRAFT (definition_to_dict parsed) 1
                 created_by (Some now) (Some now) in
      (Ok x, with_workflows (dict_set new_id x (wb_workflows s)) s)
  end.

Definition get_workflow (workflow_id ws : pystr) (s : builder_world) : option WorkflowRecord :=
  repo_get_workflow workflow_id (Some ws) (wb_workflows s).
Definition list_workflows (ws : pystr) (s : builder_world) : list WorkflowRecord :=
  repo_list_workflows ws (wb_workflows s).

Definition set_wf_name (name : pystr) (x : WorkflowRecord) : WorkflowRecord :=
  mkWorkflow (wf_id x) (wf_workspace_id x) name (wf_description x) (wf_status x) (wf_definition x) (wf_version x)
    (wf_created_by x) (wf_created_at x) (wf_updated_at x).
Definition set_wf_description (description : pystr) (x : WorkflowRecord) : WorkflowRecord :=
  mkWorkflow (wf_id x) (wf_workspace_id x) (wf_name x) description (wf_status x) (wf_definition x) (wf_version x)
    (wf_created_by x) (wf_created_at x) (wf_updated_at x).
Definition set_wf_definition (definition : list (pystr * json)) (x : WorkflowRecord) : WorkflowRecord :=
  mkWorkflow (wf_id x) (wf_workspace_id x) (wf_name x) (wf_description x) (wf_status x) definition (wf_version x)
    (wf_created_by x) (wf_created_at x) (wf_updated_at x).
Definition set_wf_status (status : pystr) (version now : Z) (x : WorkflowRecord) : WorkflowRecord :=
  mkWorkflow (wf_id x) (wf_workspace_id x) (wf_name x) (wf_description x) status (wf_definition x) version
    (wf_created_by x) (wf_created_at x) (Some now).

Definition stored (x : WorkflowRecord) (s : builder_world) : builder_world :=
  with_workflows (dict_set (wf_id x) x (wb_workflows s)) s.

(** The stored record is changed in place: a refused definition comes after the
    texts have been changed. *)
Definition update_workflow (now : Z) (workflow_id ws : pystr) (name description : option pystr)
    (definition : option (list (pystr * json))) (agents : InMemoryAgentDefinitionRepository) (s : builder_world)
  : result builder_error (option WorkflowRecord) * builder_world :=
  match get_workflow workflow_id ws s with
  | None => (Ok None, s)
  | Some x =>
      match (_ ← raise_if (bool_decide (wf_status x = STATUS_PUBLISHED))
                   (BuilderConflict (u "已发布的流程禁止直接修改，请先取消发布（unpublish）再编辑"));
             raise_if (match name with Some n => bool_decide (strip n = []) | None => false end) empty_name) with
      | Err e => (Err e, s)
      | Ok _ =>
          let x := match name with Some n => set_wf_name (strip n) x | None => x end in
          let x := match description with Some d => set_wf_description (strip d) x | None => x end in
          let s := stored x s in
          match (match definition with Some raw => Some <$> parse_valid ws agents raw | None => Ok None end) with
          | Err e => (Err e, s)
          | Ok parsed =>
              let x := match parsed with Some d => set_wf_definition (definition_to_dict d) x | None => x end in
              let x := set_wf_status (wf_status x) (wf_version x) now x in
              let '(res, r) := repo_update_workflow x (wb_workflows s) in
              (Ok res, with_workflows r s)
          end
      end
  end.

Definition audit_workflow (now : Z) (action workflow_id : pystr) (actor : option AuditActor)
    (after : list (pystr * json)) : option InMemoryAuditRepository -> option InMemoryAuditRepository :=
  if_audited actor (fun a => record now action (u "workflow") workflow_id (Some a) None (Some after)).

Definition publish_workflow (now : Z) (workflow_id ws : pystr) (actor : option AuditActor)
    (agents : InMemoryAgentDefinitionRepository) (s : builder_world)
  : result builder_error (option WorkflowRecord) * builder_world :=
  match get_workflow workflow_id ws s with
  | None => (Ok None, s)
  | Some x =>
      match parse_valid ws agents (wf_definition x) with
      | Err e => (Err e, s)
      | Ok parsed =>
          let x := set_wf_definition (definition_to_dict parsed)
                     (set_wf_status STATUS_PUBLISHED (wf_version x + 1) now x) in
          let '(saved, r) := repo_publish_workflow x (wb_workflows s) in
          (Ok saved, mkBuilder r (wb_runs s)
             (match saved with
              | Some y => audit_workflow now (u "workflow.publish") workflow_id actor
                            [(u "version", JInt (wf_version y)); (u "name", JStr (wf_name y))] (wb_audit s)
              | None => wb_audit s
              end) (wb_executing s))
      end
  end.

Definition unpublish_workflow (now : Z) (workflow_id ws : pystr) (s : builder_world)
  : option WorkflowRecord * builder_world :=
  match get_workflow workflow_id ws s with
  | None => (None, s)
  | Some x =>
      let '(res, r) := repo_update_workflow (set_wf_status STATUS_DRAFT (wf_version x) now x) (wb_workflows s) in
      (res, with_workflows r s)
  end.

Definition delete_workflow (workflow_id ws : pystr) (s : builder_world) : result builder_error bool * builder_world :=
  match get_workflow workflow_id ws s with
  | None => (Ok false, s)
  | Some x =>
      if decide (wf_status x = STATUS_PUBLISHED)
      then (Err (BuilderConflict (u "已发布的流程不能直接删除，请先取消发布（unpublish）")), s)
      else
        let '(deleted, r) := repo_delete_workflow workflow_id ws (wb_workflows s) in
        (Ok deleted, with_workflows r s)
  end.

(** ** Runs *)

(** [run_workflow] until the engine is called *)
Definition run_begin (now : Z) (new_id workflow_id ws : pystr) (inputs : list (pystr * Obj))
    (agents : InMemoryAgentDefinitionRepository) (s : builder_world)
  : result builder_error (option (pystr * WorkflowDefinition)) * builder_world :=
  match get_workflow workflow_id ws s with
  | None => (Ok None, s)
  | Some x =>
      match parse_valid ws agents (wf_definition x) with
      | Err e => (Err e, s)
      | Ok definition =>
          let run := mkRun new_id workflow_id ws RUN_RUNNING inputs (definition_to_dict definition) [] None None
                       (Some now) None in
          (Ok (Some (new_id, definition)),
           mkBuilder (wb_workflows s) (dict_set new_id run (wb_runs s)) (wb_audit s) (new_id :: wb_executing s))
      end
  end.

Definition _finalize_run (now duration_ms : Z) (i status : pystr) (node_results : list NodeResult)
    (error : option pystr) (r : runs) : runs :=
  match repo_get_run i None r with
  | None => r
  | Some x =>
      (repo_update_run
         (mkRun (run_id x) (run_workflow_id x) (run_workspace_id x) status (run_inputs x) (run_definition x)
            node_results error (Some duration_ms) (run_created_at x) (Some now)) r).2
  end.

(** The end of [run_workflow] *)
Inductive run_outcome :=
| RunSaved (run : option WorkflowRunRecord)
| RunCancelledError
| RunRaised (e : workflow_error).

(** [run_workflow] from the engine's answer on *)
Definition run_end (now duration_ms : Z) (i workflow_id ws : pystr) (actor : option AuditActor)
    (engine_end : WorkflowEngine.run_end (Obj := Obj)) (s : builder_world) : run_outcome * builder_world :=
  let executing := filter (fun j => j <> i) (wb_executing s) in
  let finalized status results error :=
    mkBuilder (wb_workflows s) (_finalize_run now duration_ms i status results error (wb_runs s)) (wb_audit s) executing in
  let save status results error :=
    let s := finalized status results error in
    let saved := repo_get_run i (Some ws) (wb_runs s) in
    (RunSaved saved,
     mkBuilder (wb_workflows s) (wb_runs s)
       (match saved with
        | Some x => audit_workflow now (u "workflow.run") workflow_id actor
                      [(u "workflow_id", JStr workflow_id); (u "run_id", JStr i); (u "status", JStr (run_status x))]
                      (wb_audit s)
        | None => wb_audit s
        end) (wb_executing s)) in
  match engine_end with
  | Cancelled => (RunCancelledError, finalized RUN_CANCELLED [] None)
  | RaisedError e => (RunRaised e, mkBuilder (wb_workflows s) (wb_runs s) (wb_audit s) executing)
  | Finished r =>
      match wr_status r with
      | WorkflowRunStatus.COMPLETED => save RUN_COMPLETED (wr_node_results r) None
      | WorkflowRunStatus.FAILED => save RUN_FAILED (wr_node_results r) (wr_error r)
      end
  end.

Definition get_run (i ws : pystr) (s : builder_world) : option WorkflowRunRecord := repo_get_run i (Some ws) (wb_runs s).
Definition list_runs (workflow_id ws : pystr) (limit : Z) (s : builder_world) : list WorkflowRunRecord :=
  match get_workflow workflow_id ws s with
  | None => []
  | Some _ => repo_list_runs workflow_id limit (wb_runs s)
  end.
End Builder.
Arguments WorkflowRunRecord : clear implicits.
Arguments builder_world : clear implicits.

(** [run_workflow] when no other request is served meanwhile; [times] gives the
    instant and the duration at the end. *)
Definition run_workflow {Obj EW W : Type} {PV : PyValue Obj} (tool_registry : list (pystr * @Tool W))
    (repr : json -> pystr) (py_int : json -> option Z) (py_dict : json -> option (list (pystr * json)))
    (env : engine_env Obj EW) (times : EW -> Z * Z) (now : Z) (new_id workflow_id ws : pystr)
    (inputs : list (pystr * Obj)) (actor : option AuditActor) (agents : InMemoryAgentDefinitionRepository)
    (w : EW) (s : builder_world Obj) : result builder_error (@run_outcome Obj) * builder_world Obj * EW :=
  match run_begin tool_registry repr py_int py_dict now new_id workflow_id ws inputs agents s with
  | (Err e, s) => (Err e, s, w)
  | (Ok None, s) => (Ok (RunSaved None), s, w)
  | (Ok (Some (i, definition)), s) =>
      let '(e, w) := WorkflowEngine.run repr env definition inputs w in
      let '(now', duration_ms) := times w in
      let '(o, s) := run_end now' duration_ms i workflow_id ws actor e s in
      (Ok o, s, w)
  end.
