(* ===== verification/WorkflowBuilderProps.v ===== *)
(** * Workflow builder: theorems

    A published workflow does not change until it is unpublished, a run keeps the
    definition it started with and ends once; a run of a stored workflow is left
    in a final state.  Node checks and workspaces are those of [AgentConfig]. *)

From stdpp Require Import relations.
From S2P Require Import Prelude Json ToolModels ToolExecutor AuditLog AgentConfig.
From S2P Require Import Workflow WorkflowFacts WorkflowEngine WorkflowGraph WorkflowProps WorkflowBuilder.
Local Open Scope Z_scope.

Lemma rtc_keeps {A} (R : A -> A -> Prop) (P : A -> Prop) x y :
  (forall x y, R x y -> P x -> P y) -> rtc R x y -> P x -> P y.
Proof. intros HR. induction 1; eauto. Qed.

Section BuilderProps.
Context {Obj : Type} {PV : PyValue Obj} {W : Type} (tool_registry : list (pystr * @Tool W)).
Context (repr : json -> pystr) (py_int : json -> option Z) (py_dict : json -> option (list (pystr * json))).
(** [int] and [dict] leave integers and dictionaries alone. *)
Context (Hint : forall z, py_int (JInt z) = Some z) (Hdict : forall m, py_dict (JObj m) = Some m).

Abbreviation parse_valid := (parse_valid tool_registry repr py_int py_dict).

(** ** The requests *)

Inductive builder_call :=
| CreateWorkflow (now : Z) (new_id ws name description : pystr) (definition : list (pystr * json))
    (created_by : option pystr)
| UpdateWorkflow (now : Z) (workflow_id ws : pystr) (name description : option pystr)
    (definition : option (list (pystr * json)))
| PublishWorkflow (now : Z) (workflow_id ws : pystr) (actor : option AuditActor)
| UnpublishWorkflow (now : Z) (workflow_id ws : pystr)
| DeleteWorkflow (workflow_id ws : pystr)
| BeginRun (now : Z) (new_id workflow_id ws : pystr) (inputs : list (pystr * Obj))
| EndRun (now duration_ms : Z) (i workflow_id ws : pystr) (actor : option AuditActor)
    (engine_end : WorkflowEngine.run_end (Obj := Obj)).

(** [agents] is the agent repository when the call is served. *)
Definition serve (agents : InMemoryAgentDefinitionRepository) (c : builder_call) (s : builder_world Obj)
  : builder_world Obj :=
  match c with
  | CreateWorkflow now i ws name description definition by_ =>
      (create_workflow tool_registry repr py_int py_dict now i ws name description definition by_ agents s).2
  | UpdateWorkflow now i ws name description definition =>
      (update_workflow tool_registry repr py_int py_dict now i ws name description definition agents s).2
  | PublishWorkflow now i ws actor => (publish_workflow tool_registry repr py_int py_dict now i ws actor agents s).2
  | UnpublishWorkflow now i ws => (unpublish_workflow now i ws s).2
  | DeleteWorkflow i ws => (delete_workflow i ws s).2
  | BeginRun now i workflow_id ws inputs =>
      (run_begin tool_registry repr py_int py_dict now i workflow_id ws inputs agents s).2
  | EndRun now duration_ms i workflow_id ws actor e => (run_end now duration_ms i workflow_id ws actor e s).2
  end.

(** What the engine can answer for the definition that a run recorded *)
Definition engine_answer (x : WorkflowRunRecord Obj) (e : WorkflowEngine.run_end (Obj := Obj)) : Prop :=
  exists (EW : Type) (env : engine_env Obj EW) d w w',
    run_definition x = definition_to_dict d /\ WorkflowEngine.run repr env d (run_inputs x) w = (e, w').

(** New identifiers are new; the engine answers for a run that executes. *)
Definition may_serve (c : builder_call) (s : builder_world Obj) : Prop :=
  match c with
  | CreateWorkflow _ i _ _ _ _ _ => dict_get i (wb_workflows s) = None
  | BeginRun _ i _ _ _ => dict_get i (wb_runs s) = None
  | EndRun _ _ i _ _ _ e => i ∈ wb_executing s /\ exists x, dict_get i (wb_runs s) = Some x /\ engine_answer x e
  | _ => True
  end.

Definition builder_step (P : builder_call -> Prop) (s s' : builder_world Obj) : Prop :=
  exists agents c, P c /\ may_serve c s /\ s' = serve agents c s.

(** ** The invariant *)

Definition normal (definition : list (pystr * json)) : Prop := exists d, definition = definition_to_dict d.

Definition workflows_ok (r : list (pystr * WorkflowRecord)) : Prop :=
  NoDup r.*1 /\ forall k x, dict_get k r = Some x -> wf_id x = k /\ normal (wf_definition x).

Definition valid_snapshot (definition : list (pystr * json)) : Prop :=
  exists d, definition = definition_to_dict d /\ validate_definition repr d = Ok tt.

Definition runs_ok (executing : list pystr) (r : list (pystr * WorkflowRunRecord Obj)) : Prop :=
  forall k, (k ∈ executing -> is_Some (dict_get k r)) /\
  forall x, dict_get k r = Some x ->
    run_id x = k /\ valid_snapshot (run_definition x) /\ (run_status x = RUN_RUNNING <-> k ∈ executing) /\
    (run_status x = RUN_RUNNING <-> run_completed_at x = None) /\
    run_status x ∈ [RUN_RUNNING; RUN_COMPLETED; RUN_FAILED; RUN_CANCELLED].

Definition builder_ok (s : builder_world Obj) : Prop :=
  workflows_ok (wb_workflows s) /\ runs_ok (wb_executing s) (wb_runs s).

Lemma parse_valid_ok ws agents raw d :
  parse_valid ws agents raw = Ok d -> definition_from_dict repr py_int py_dict raw = Ok d /\ validate_definition repr d = Ok tt.
Proof.
  intros (d' & Hp & (t0 & Hv & [= ->])%bind_ok)%bind_ok. unfold _parse_definition in Hp.
  destruct (definition_from_dict repr py_int py_dict raw) as [x|]; [|done]. injection Hp as ->. split; [done|].
  unfold _validate_with_workspace in Hv. apply bind_ok in Hv as ([] & Hv & _).
  by destruct (validate_definition repr d) as [[]|[]].
Qed.

(** Parsing a stored definition gives it back. *)
Lemma parse_normal ws agents x d :
  normal x -> parse_valid ws agents x = Ok d -> definition_to_dict d = x.
Proof. intros [d0 ->] [H _]%parse_valid_ok. rewrite definition_back in H by done. by injection H as ->. Qed.

(** ** What a call does to the workflows *)

Definition frozen_by (old x : WorkflowRecord) : Prop :=
  wf_status x = STATUS_PUBLISHED /\ wf_name x = wf_name old /\ wf_description x = wf_description old /\
  wf_definition x = wf_definition old.

(** [free] says which workflows may be unpublished. *)
Inductive wf_change (free : pystr -> Prop) (d : list (pystr * WorkflowRecord)) : list (pystr * WorkflowRecord) -> Prop :=
| WfAdd x : dict_get (wf_id x) d = None -> normal (wf_definition x) -> wf_change free d (dict_set (wf_id x) x d)
| WfSet old x : dict_get (wf_id x) d = Some old -> wf_workspace_id x = wf_workspace_id old ->
    wf_version old <= wf_version x -> normal (wf_definition x) ->
    (wf_status old = STATUS_PUBLISHED -> free (wf_id x) \/ frozen_by old x) ->
    wf_change free d (dict_set (wf_id x) x d)
| WfDel k old : dict_get k d = Some old -> wf_status old <> STATUS_PUBLISHED -> wf_change free d (dict_del k d).

Lemma wf_change_ok free d d' : workflows_ok d -> wf_change free d d' -> workflows_ok d'.
Proof.
  intros [Hn Hk] H. destruct H as [x Hf Hx|old x Ho _ _ Hx _|k old Ho _].
  1,2: split; [by apply dict_set_NoDup|]; intros k y; rewrite dict_get_set;
    case_decide; [by intros [= <-]|by apply Hk].
  split; [by apply dict_del_NoDup|]. intros k' y. destruct (decide (k' = k)) as [->|].
  - by rewrite dict_get_del.
  - rewrite dict_get_del_ne by done. apply Hk.
Qed.

(** What a published workflow may have become *)
Definition still_published (old : WorkflowRecord) (d : list (pystr * WorkflowRecord)) : Prop :=
  exists x, dict_get (wf_id old) d = Some x /\ frozen_by old x /\ wf_workspace_id x = wf_workspace_id old /\
    wf_version old <= wf_version x.

Lemma wf_change_published free d d' x :
  workflows_ok d -> wf_change free d d' -> still_published x d -> ~ free (wf_id x) -> still_published x d'.
Proof.
  intros [Hn Hk] H (y & Hy & (Hp & E1 & E2 & E3) & Hw & Hv) Hfree. destruct H as [z Hf Hz|old z Ho Hz Hvz _ Hold|k old Ho Hs].
  - exists y. rewrite dict_get_set, decide_False by congruence. done.
  - destruct (decide (wf_id x = wf_id z)) as [E|E].
    + rewrite E, Ho in Hy. injection Hy as ->. destruct (Hold Hp) as [?|(F & F1 & F2 & F3)]; [congruence|].
      exists z. rewrite dict_get_set, decide_True by done. unfold frozen_by. split_and!; [congruence..|lia].
    + exists y. rewrite dict_get_set, decide_False by done. done.
  - exists y. rewrite dict_get_del_ne by congruence. done.
Qed.

Lemma get_workflow_some i ws s x :
  workflows_ok (wb_workflows s) -> get_workflow (Obj := Obj) i ws s = Some x ->
  dict_get i (wb_workflows s) = Some x /\ wf_id x = i /\ wf_workspace_id x = ws /\ normal (wf_definition x).
Proof.
  intros [_ Hk]. unfold get_workflow, repo_get_workflow. destruct (dict_get i (wb_workflows s)) as [y|] eqn:Ey; [|done].
  cbn. case_bool_decide; [|done]. intros [= <-]. by destruct (Hk _ _ Ey).
Qed.

Lemma repo_update_stored x old r :
  dict_get (wf_id x) r = Some old -> wf_workspace_id old = wf_workspace_id x ->
  repo_update_workflow x r = (Some x, dict_set (wf_id x) x r).
Proof. unfold repo_update_workflow. intros -> ->. by rewrite decide_True. Qed.

Lemma set_stored free x old r :
  workflows_ok r -> dict_get (wf_id x) r = Some old -> wf_workspace_id x = wf_workspace_id old ->
  wf_version x = wf_version old -> normal (wf_definition x) -> wf_status old <> STATUS_PUBLISHED ->
  wf_change free r (dict_set (wf_id x) x r).
Proof. intros Hr Ho Hw Hv Hx Hs. eapply WfSet; [exact Ho|done|lia|done|done]. Qed.

Lemma create_wf_change free now i ws name description definition by_ agents (s : builder_world Obj) :
  dict_get i (wb_workflows s) = None ->
  rtc (wf_change free) (wb_workflows s)
    (wb_workflows (create_workflow tool_registry repr py_int py_dict now i ws name description definition by_ agents s).2).
Proof.
  intros Hf. unfold create_workflow.
  destruct (_ ← raise_if _ _; parse_valid ws agents definition) as [d|e]; [|done]. apply rtc_once.
  apply (WfAdd _ _ (mkWorkflow i ws _ _ _ _ _ _ _ _)); [done|by exists d].
Qed.

Lemma update_wf_change free now i ws name description definition agents (s : builder_world Obj) :
  workflows_ok (wb_workflows s) ->
  rtc (wf_change free) (wb_workflows s)
    (wb_workflows (update_workflow tool_registry repr py_int py_dict now i ws name description definition agents s).2).
Proof.
  intros Hs. unfold update_workflow. destruct (get_workflow i ws s) as [x|] eqn:Ex; [|done].
  apply get_workflow_some in Ex as (Hx & Hi & Hw & Hd); [|done].
  destruct (decide (wf_status x = STATUS_PUBLISHED)) as [Hp|Hp]; [rewrite bool_decide_true by done; done|].
  rewrite bool_decide_false by done.
  destruct (raise_if false _ ≫= _) as [[]|e]; [|done]. cbv zeta.
  set (x1 := match name with Some n => _ | None => x end).
  set (x2 := match description with Some d => _ | None => x1 end).
  assert (H2 : wf_id x2 = i /\ wf_workspace_id x2 = ws /\ wf_version x2 = wf_version x /\
    wf_definition x2 = wf_definition x /\ wf_status x2 = wf_status x)
    by (subst x2 x1; destruct name, description; done).
  clearbody x2. clear x1. destruct H2 as (I2 & W2 & V2 & D2 & S2).
  assert (Hc : wf_change free (wb_workflows s) (dict_set (wf_id x2) x2 (wb_workflows s))).
  { apply (set_stored _ _ x); [done|congruence..|by rewrite D2|done]. }
  pose proof (wf_change_ok _ _ _ Hs Hc) as Hok. set (r2 := dict_set (wf_id x2) x2 (wb_workflows s)) in *.
  assert (Hr2 : dict_get i r2 = Some x2) by (unfold r2; rewrite dict_get_set, decide_True; congruence).
  change (wb_workflows (stored x2 s)) with r2. apply rtc_l with r2; [done|].
  destruct (match definition with Some raw => _ | None => _ end) as [parsed|e] eqn:Ep; [|done].
  set (x3 := set_wf_status _ _ _ _).
  assert (H3 : wf_id x3 = i /\ wf_workspace_id x3 = ws /\ wf_version x3 = wf_version x2 /\ normal (wf_definition x3)).
  { subst x3. rewrite <- D2 in Hd. destruct parsed as [d|]; [|done].
    split_and!; [done..|]. by exists d. }
  clearbody x3. destruct H3 as (I3 & W3 & V3 & D3).
  rewrite (repo_update_stored x3 x2) by congruence. apply rtc_once.
  apply (set_stored _ _ x2); [done|congruence..|done|congruence].
Qed.

Lemma publish_change free now i ws actor agents (s : builder_world Obj) :
  workflows_ok (wb_workflows s) ->
  rtc (wf_change free) (wb_workflows s)
    (wb_workflows (publish_workflow tool_registry repr py_int py_dict now i ws actor agents s).2).
Proof.
  intros Hs. unfold publish_workflow. destruct (get_workflow i ws s) as [x|] eqn:Ex; [|done].
  apply get_workflow_some in Ex as (Hx & Hi & Hw & Hd); [|done].
  destruct (parse_valid ws agents (wf_definition x)) as [d|e] eqn:Ep; [|done]. cbv zeta.
  set (y := set_wf_definition _ _). rewrite (repo_update_stored y x) by (subst y; cbn; congruence).
  apply rtc_once. apply (WfSet _ _ x); subst y; cbn; [congruence|done|lia|by exists d|].
  right. unfold frozen_by. cbn. split_and!; try done. by eapply parse_normal.
Qed.

Lemma unpublish_change (free : pystr -> Prop) now i ws (s : builder_world Obj) :
  workflows_ok (wb_workflows s) -> free i ->
  rtc (wf_change free) (wb_workflows s) (wb_workflows (unpublish_workflow now i ws s).2).
Proof.
  intros Hs Hi. unfold unpublish_workflow. destruct (get_workflow i ws s) as [x|] eqn:Ex; [|done].
  apply get_workflow_some in Ex as (Hx & <- & Hw & Hd); [|done].
  rewrite (repo_update_stored _ x) by done. apply rtc_once.
  apply (WfSet _ _ x); cbn; [done|done|lia|done|by left].
Qed.

Lemma delete_wf_change free i ws (s : builder_world Obj) :
  workflows_ok (wb_workflows s) ->
  rtc (wf_change free) (wb_workflows s) (wb_workflows (delete_workflow i ws s).2).
Proof.
  intros Hs. unfold delete_workflow. destruct (get_workflow i ws s) as [x|] eqn:Ex; [|done].
  apply get_workflow_some in Ex as (Hx & Hi & Hw & Hd); [|done].
  destruct (decide (wf_status x = STATUS_PUBLISHED)) as [|Hp]; [done|].
  unfold repo_delete_workflow. rewrite Hx, decide_True by done. apply rtc_once. by apply (WfDel _ _ i x).
Qed.

Definition unpublishes (c : builder_call) (k : pystr) : Prop := exists now ws, c = UnpublishWorkflow now k ws.

Lemma run_end_workflows now t i workflow_id ws actor e (s : builder_world Obj) :
  wb_workflows (run_end now t i workflow_id ws actor e s).2 = wb_workflows s.
Proof. destruct e as [r|e|]; [|done..]. unfold run_end. by destruct (wr_status r). Qed.

Lemma serve_workflows agents c s :
  workflows_ok (wb_workflows s) -> may_serve c s ->
  rtc (wf_change (unpublishes c)) (wb_workflows s) (wb_workflows (serve agents c s)).
Proof.
  intros Hs Hc. destruct c; cbn [serve may_serve] in *.
  - by apply create_wf_change.
  - by apply update_wf_change.
  - by apply publish_change.
  - apply unpublish_change; [done|]. by eexists _, _.
  - by apply delete_wf_change.
  - unfold run_begin. destruct (get_workflow _ _ _); [|done]. by destruct (parse_valid _ _ _).
  - by rewrite run_end_workflows.
Qed.

(** ** Runs *)

Lemma to_dict_inj d1 d2 : definition_to_dict d1 = definition_to_dict d2 -> d1 = d2.
Proof.
  intros E. pose proof (definition_back repr py_int py_dict Hdict d1 Hint) as H1.
  pose proof (definition_back repr py_int py_dict Hdict d2 Hint) as H2. rewrite E in H1. congruence.
Qed.

(** The engine never raises on what a run recorded. *)
Lemma answer_returns x e : valid_snapshot (run_definition x) -> engine_answer x e ->
  e = Cancelled \/ exists r, e = Finished r.
Proof.
  intros (d & Ed & Hv) (EW & env & d' & w & w' & Ed' & Hr).
  rewrite Ed in Ed'. apply to_dict_inj in Ed' as <-.
  destruct (run_valid repr env d (run_inputs x) w Hv) as (o & w1 & _ & [H|(r & H & _)]);
    rewrite H in Hr; injection Hr as <- _; eauto.
Qed.

(** The same run, later; it changes only while it is running. *)
Definition same_run (x y : WorkflowRunRecord Obj) : Prop :=
  run_id y = run_id x /\ run_workflow_id y = run_workflow_id x /\ run_workspace_id y = run_workspace_id x /\
  run_inputs y = run_inputs x /\ run_definition y = run_definition x /\ run_created_at y = run_created_at x /\
  (run_status x <> RUN_RUNNING -> y = x).

Lemma same_run_trans x y z : same_run x y -> same_run y z -> same_run x z.
Proof.
  intros (A1 & A2 & A3 & A4 & A5 & A6 & A7) (B1 & B2 & B3 & B4 & B5 & B6 & B7). unfold same_run.
  split_and!; [congruence..|]. intros Hx. pose proof (A7 Hx) as ->. by apply B7.
Qed.

Definition final_status (status : pystr) : Prop := status ∈ [RUN_COMPLETED; RUN_FAILED; RUN_CANCELLED].

Lemma final_not_running status : final_status status -> status <> RUN_RUNNING.
Proof. unfold final_status. rewrite !elem_of_cons, elem_of_nil. intros [->|[->|[->|[]]]]; vm_compute; congruence. Qed.

Lemma finalize_run_spec now t i status results err (r : list (pystr * WorkflowRunRecord Obj)) x :
  dict_get i r = Some x -> run_id x = i ->
  _finalize_run now t i status results err r
  = dict_set i (mkRun i (run_workflow_id x) (run_workspace_id x) status (run_inputs x) (run_definition x) results err
                  (Some t) (run_created_at x) (Some now)) r.
Proof.
  intros Hx Hi. unfold _finalize_run, repo_get_run. rewrite Hx. cbn. unfold repo_update_run. cbn. by rewrite Hi, Hx.
Qed.

(** The status, results and error with which an answer of the engine is recorded *)
Definition recorded_end (e : WorkflowEngine.run_end (Obj := Obj)) : pystr * list NodeResult * option pystr :=
  match e with
  | Finished r =>
      match wr_status r with
      | WorkflowRunStatus.COMPLETED => (RUN_COMPLETED, wr_node_results r, None)
      | WorkflowRunStatus.FAILED => (RUN_FAILED, wr_node_results r, wr_error r)
      end
  | _ => (RUN_CANCELLED, [], None)
  end.

Lemma recorded_final e : final_status (recorded_end e).1.1.
Proof.
  unfold final_status. rewrite !elem_of_cons. destruct e as [r|e|]; [|by right; right; left..].
  unfold recorded_end. destruct (wr_status r); [by left|by right; left].
Qed.

(** The record of a run once the engine has answered *)
Definition ended (now t : Z) (e : WorkflowEngine.run_end (Obj := Obj)) (x : WorkflowRunRecord Obj) : WorkflowRunRecord Obj :=
  mkRun (run_id x) (run_workflow_id x) (run_workspace_id x) (recorded_end e).1.1 (run_inputs x) (run_definition x)
    (recorded_end e).1.2 (recorded_end e).2 (Some t) (run_created_at x) (Some now).

Lemma run_end_spec now t i workflow_id ws actor e (s : builder_world Obj) x :
  dict_get i (wb_runs s) = Some x -> run_id x = i -> e = Cancelled \/ (exists r, e = Finished r) ->
  let s' := (run_end now t i workflow_id ws actor e s).2 in
  wb_runs s' = dict_set i (ended now t e x) (wb_runs s) /\ wb_executing s' = filter (fun j => j <> i) (wb_executing s).
Proof.
  intros Hx Hi He. assert (Hf : forall status results err,
    _finalize_run now t i status results err (wb_runs s) = dict_set i (mkRun (run_id x) (run_workflow_id x)
      (run_workspace_id x) status (run_inputs x) (run_definition x) results err (Some t) (run_created_at x) (Some now))
      (wb_runs s)).
  { intros. rewrite (finalize_run_spec _ _ _ _ _ _ _ x) by done. by rewrite Hi. }
  destruct He as [->|[r ->]]; unfold run_end, ended, recorded_end; [by rewrite Hf|].
  destruct (wr_status r); cbn [fst snd wb_runs wb_executing]; by rewrite Hf.
Qed.

Lemma run_end_ok now t i workflow_id ws actor e s :
  runs_ok (wb_executing s) (wb_runs s) -> may_serve (EndRun now t i workflow_id ws actor e) s ->
  let s' := (run_end now t i workflow_id ws actor e s).2 in
  runs_ok (wb_executing s') (wb_runs s') /\
  forall k x, dict_get k (wb_runs s) = Some x -> exists y, dict_get k (wb_runs s') = Some y /\ same_run x y.
Proof.
  cbv zeta. intros Hr (Hi & x & Hx & Ha). destruct (Hr i) as [_ Hrx]. destruct (Hrx _ Hx) as (Hid & Hv & Hst & Hc & _).
  destruct (run_end_spec now t i workflow_id ws actor e s x Hx Hid (answer_returns _ _ Hv Ha)) as [-> ->].
  pose proof (recorded_final e) as Hfin. split.
  - intros k. destruct (Hr k) as [Hk1 Hk2]. split.
    + intros [Hne Hin]%list_elem_of_filter. rewrite dict_get_set. case_decide; [done|]. by apply Hk1.
    + intros y. rewrite dict_get_set, list_elem_of_filter. case_decide as E.
      * subst k. intros [= <-]. cbn [ended run_id run_definition run_status run_completed_at].
        pose proof (final_not_running _ Hfin) as Hnr. split; [done|]. split; [done|].
        split; [split; [intros []%Hnr|by intros [[] _]]|]. split; [split; [intros []%Hnr|done]|]. by right.
      * intros Hy. destruct (Hk2 _ Hy) as (A1 & A2 & A3 & A4). split; [done|]. split; [done|]. split; [|done].
        rewrite A3. tauto.
  - intros k y Hy. rewrite dict_get_set. case_decide as E; [|by exists y].
    subst k. rewrite Hx in Hy. injection Hy as <-. eexists. split; [done|].
    unfold same_run. split_and!; try done. intros []. by apply Hst.
Qed.

Lemma run_begin_ok now i workflow_id ws inputs agents s :
  runs_ok (wb_executing s) (wb_runs s) -> dict_get i (wb_runs s) = None ->
  let s' := (run_begin tool_registry repr py_int py_dict now i workflow_id ws inputs agents s).2 in
  runs_ok (wb_executing s') (wb_runs s') /\
  forall k x, dict_get k (wb_runs s) = Some x -> dict_get k (wb_runs s') = Some x.
Proof.
  intros Hr Hi. unfold run_begin. destruct (get_workflow workflow_id ws s) as [x|]; [|done].
  destruct (parse_valid ws agents (wf_definition x)) as [d|e] eqn:Ep; [|done]. apply parse_valid_ok in Ep as [_ Hv].
  cbn [snd wb_executing wb_runs]. split.
  - intros k. destruct (Hr k) as [Hk1 Hk2]. rewrite dict_get_set, elem_of_cons. case_decide as E.
    + subst k. split; [done|]. intros y [= <-].
      cbn [run_id run_definition run_status run_completed_at].
      split; [done|]. split; [by exists d|]. split; [by split; [left|]|]. by split; [|left].
    + split; [intros [?|?]; [done|by apply Hk1]|]. intros y Hy.
      destruct (Hk2 _ Hy) as (A1 & A2 & A3 & A4). split; [done|]. split; [done|]. split; [|done]. rewrite A3, elem_of_cons. tauto.
  - intros k y Hy. rewrite dict_get_set, decide_False by congruence. done.
Qed.

(** ** Histories *)

Lemma create_runs now i ws name description definition by_ agents (s : builder_world Obj) :
  let s' := (create_workflow tool_registry repr py_int py_dict now i ws name description definition by_ agents s).2 in
  wb_runs s' = wb_runs s /\ wb_executing s' = wb_executing s.
Proof. unfold create_workflow. by destruct (_ ← raise_if _ _; _). Qed.

Lemma update_runs now i ws name description definition agents (s : builder_world Obj) :
  let s' := (update_workflow tool_registry repr py_int py_dict now i ws name description definition agents s).2 in
  wb_runs s' = wb_runs s /\ wb_executing s' = wb_executing s.
Proof.
  unfold update_workflow. destruct (get_workflow i ws s); [|done].
  destruct (_ ← raise_if _ _; _) as [[]|]; [|done]. cbv zeta.
  destruct (match definition with Some raw => _ | None => _ end) as [parsed|e]; [|done].
  by destruct (repo_update_workflow _ _).
Qed.

Lemma publish_runs now i ws actor agents (s : builder_world Obj) :
  let s' := (publish_workflow tool_registry repr py_int py_dict now i ws actor agents s).2 in
  wb_runs s' = wb_runs s /\ wb_executing s' = wb_executing s.
Proof.
  unfold publish_workflow. destruct (get_workflow i ws s); [|done]. destruct (parse_valid _ _ _); [|done].
  cbv zeta. by destruct (repo_publish_workflow _ _).
Qed.

Lemma serve_ok agents c s :
  builder_ok s -> may_serve c s ->
  builder_ok (serve agents c s) /\
  forall k x, dict_get k (wb_runs s) = Some x -> exists y, dict_get k (wb_runs (serve agents c s)) = Some y /\ same_run x y.
Proof.
  intros [Hw Hr] Hc.
  assert (Hw' : workflows_ok (wb_workflows (serve agents c s))).
  { eapply rtc_keeps; [|by apply serve_workflows|done]. intros d1 d2 ??. by eapply wf_change_ok. }
  assert (Hsame : forall s', wb_runs s' = wb_runs s /\ wb_executing s' = wb_executing s ->
    runs_ok (wb_executing s') (wb_runs s') /\
    forall k x, dict_get k (wb_runs s) = Some x -> exists y, dict_get k (wb_runs s') = Some y /\ same_run x y).
  { intros s' [-> ->]. split; [done|]. intros k x Hx. by exists x. }
  enough (H : runs_ok (wb_executing (serve agents c s)) (wb_runs (serve agents c s)) /\
    forall k x, dict_get k (wb_runs s) = Some x -> exists y, dict_get k (wb_runs (serve agents c s)) = Some y /\ same_run x y)
    by (destruct H; by split; [split|]).
  destruct c as [| | |now i ws|i ws|now i workflow_id ws inputs|]; cbn [serve may_serve] in *.
  - apply Hsame, create_runs.
  - apply Hsame, update_runs.
  - apply Hsame, publish_runs.
  - apply Hsame. unfold unpublish_workflow. destruct (get_workflow i ws s); [|done].
    by destruct (repo_update_workflow _ _).
  - apply Hsame. unfold delete_workflow. destruct (get_workflow i ws s); [|done]. case_decide; [done|].
    by destruct (repo_delete_workflow _ _ _).
  - destruct (run_begin_ok now i workflow_id ws inputs agents s Hr Hc) as [H1 H2]. split; [done|].
    intros k x Hx. exists x. split; [by apply H2|done].
  - by apply run_end_ok.
Qed.

Definition builder_init (audit : option InMemoryAuditRepository) : builder_world Obj := mkBuilder [] [] audit [].

(** States that some requests lead to *)
Definition reachable (s : builder_world Obj) : Prop := exists audit, rtc (builder_step (fun _ => True)) (builder_init audit) s.

Lemma reachable_builder_ok s : reachable s -> builder_ok s.
Proof.
  intros (audit & H). eapply rtc_keeps; [|exact H|].
  - intros s1 s2 (agents & c & _ & Hc & ->) H1. by apply serve_ok.
  - split; [by split; [constructor|]|]. intros k. split; [by intros ?%elem_of_nil|done].
Qed.

(** Whatever is called between two states, from any workspace and however the
    calls interleave: a published workflow that is not unpublished is still
    there, published, with the same name, description, definition and workspace,
    and its version has not gone down; every run is still there with the
    workflow, workspace, inputs and definition it started with, and unchanged
    once it ended; and a run is in one of the four statuses, running exactly
    while the engine has it and exactly as long as it has no completion time. *)
Theorem workflow_history_stable (P : builder_call -> Prop) s s' :
  reachable s -> rtc (builder_step P) s s' ->
  (forall x, dict_get (wf_id x) (wb_workflows s) = Some x -> wf_status x = STATUS_PUBLISHED ->
     (forall c, P c -> ~ unpublishes c (wf_id x)) -> still_published x (wb_workflows s')) /\
  (forall k x, dict_get k (wb_runs s) = Some x -> exists y, dict_get k (wb_runs s') = Some y /\ same_run x y) /\
  runs_ok (wb_executing s') (wb_runs s').
Proof.
  intros Hs%reachable_builder_ok H.
  enough (builder_ok s' /\ (forall x, still_published x (wb_workflows s) ->
     (forall c, P c -> ~ unpublishes c (wf_id x)) -> still_published x (wb_workflows s')) /\
    (forall k x, dict_get k (wb_runs s) = Some x -> exists y, dict_get k (wb_runs s') = Some y /\ same_run x y))
    as (Hok & H1 & H2).
  { split; [|by split; [|apply Hok]]. intros x Hx Hp. apply H1. by exists x. }
  revert Hs. induction H as [s|s1 s2 s3 (agents & c & Pc & Hc & ->) H IH]; intros Hs.
  - split; [done|]. split; [done|]. intros k x Hx. by exists x.
  - destruct (serve_ok agents c s1 Hs Hc) as [Hs2 Hr2]. destruct (IH Hs2) as (Hok & H1 & H2).
    split; [done|]. split.
    + intros x Hx Hfree. apply H1; [|done]. pose proof (serve_workflows agents c s1 (proj1 Hs) Hc) as Hrtc.
      apply (rtc_keeps _ (fun d => workflows_ok d /\ still_published x d) _ _) in Hrtc as [_ ?]; [done| |].
      * intros d1 d2 Hd [Hd1 Hd2]. split; [by eapply wf_change_ok|]. eapply wf_change_published; eauto.
      * split; [apply Hs|done].
    + intros k x Hx. destruct (Hr2 _ _ Hx) as (y & Hy & Hxy). destruct (H2 _ _ Hy) as (z & Hz & Hyz).
      exists z. split; [done|]. by eapply same_run_trans.
Qed.

(** ** A whole run *)

Definition tool_usable (ws name : pystr) (agents : InMemoryAgentDefinitionRepository) : Prop :=
  (exists d, get_descriptor tool_registry name = Ok (Some d)) /\ is_tool_enabled tool_registry ws name agents = true.

(** What a node refers to exists in the workspace and may be used. *)
Definition node_usable (ws : pystr) (agents : InMemoryAgentDefinitionRepository) (n : WorkflowNode) : Prop :=
  match node_type n with
  | NodeType.TOOL => exists name, config_text (u "tool") n = Some name /\ tool_usable ws name agents
  | NodeType.CODE => is_Some (config_text (u "code_template") n) /\ tool_usable ws (u "code_executor") agents
  | NodeType.AGENT => exists i a, config_text (u "agent_id") n = Some i /\
      get_agent i (Some ws) agents = Some a /\ ag_enabled a = true
  | _ => True
  end.

Lemma check_tool_ok ws name missing disabled agents :
  check_tool tool_registry ws name missing disabled agents = Ok tt -> tool_usable ws name agents.
Proof.
  unfold check_tool, tool_usable. destruct (get_descriptor tool_registry name) as [[d|]|]; [|done..].
  intros H%raise_if_ok%negb_false_iff. split; [by exists d|done].
Qed.

Lemma check_node_ok ws agents n : check_node tool_registry ws agents n = Ok tt -> node_usable ws agents n.
Proof.
  unfold check_node, node_usable. destruct (node_type n); try done.
  - destruct (config_text (u "tool") n) as [t|]; [|done]. intros H%check_tool_ok. by exists t.
  - destruct (config_text (u "code_template") n) as [t|]; [|done]. intros H%check_tool_ok. split; [by eexists|done].
  - destruct (config_text (u "agent_id") n) as [i|]; [|done].
    destruct (get_agent i (Some ws) agents) as [a|] eqn:Ea; [|done]. intros H%raise_if_ok%negb_false_iff. by exists i, a.
Qed.

Lemma parse_valid_usable ws agents raw d : parse_valid ws agents raw = Ok d -> Forall (node_usable ws agents) (nodes d).
Proof.
  intros (d' & _ & ([] & Hv & [= ->])%bind_ok)%bind_ok. apply bind_ok in Hv as (t & _ & Hf).
  apply foldE_check in Hf. apply (Forall_impl _ _ _ Hf). intros n. apply check_node_ok.
Qed.

(** The end of a call of [run_workflow] that started a run *)
Definition run_result (final : WorkflowRunRecord Obj) (e : WorkflowEngine.run_end (Obj := Obj)) : run_outcome :=
  match e with Finished _ => RunSaved (Some final) | _ => RunCancelledError end.

Lemma run_end_answer now t i workflow_id ws actor e (s : builder_world Obj) x :
  dict_get i (wb_runs s) = Some x -> run_id x = i -> run_workspace_id x = ws ->
  e = Cancelled \/ (exists r, e = Finished r) ->
  (run_end now t i workflow_id ws actor e s).1 = run_result (ended now t e x) e.
Proof.
  intros Hx Hi Hws [->|[r ->]]; [done|]. unfold run_result, ended, recorded_end, run_end.
  destruct (wr_status r); cbn [fst snd wb_runs]; rewrite (finalize_run_spec _ _ _ _ _ _ _ x) by done;
    unfold repo_get_run; rewrite dict_get_set, decide_True by done; cbn [mbind option_bind in_workspace run_workspace_id];
    by rewrite Hws, bool_decide_true, <- Hi by done.
Qed.

(** A call of [run_workflow] ends in one of three ways.  The workflow is not
    one of the workspace: the answer is [None] and nothing changes.  Its
    definition is refused: the error is raised and nothing changes.  Or the run
    is stored with the definition that was validated, whose nodes use only
    tools enabled in the workspace and enabled agents of it; the engine answers,
    never with an exception; and the stored run has the final status of the
    answer with its node results and its error, which is what the caller gets,
    or a cancelled run before the cancellation is raised again.  No other run
    or workflow is touched. *)
Theorem run_workflow_final {EW : Type} (env : engine_env Obj EW) times now i workflow_id ws inputs actor agents
    (w : EW) s :
  reachable s -> dict_get i (wb_runs s) = None ->
  let '(o, s', w') := run_workflow tool_registry repr py_int py_dict env times now i workflow_id ws inputs actor agents w s in
  match get_workflow workflow_id ws s with
  | None => o = Ok (RunSaved None) /\ s' = s /\ w' = w
  | Some x =>
      match parse_valid ws agents (wf_definition x) with
      | Err e => o = Err e /\ s' = s /\ w' = w
      | Ok d =>
          Forall (node_usable ws agents) (nodes d) /\
          exists e w1 now' t, WorkflowEngine.run repr env d inputs w = (e, w1) /\
            (e = Cancelled \/ exists r, e = Finished r) /\
            let final := mkRun i workflow_id ws (recorded_end e).1.1 inputs (wf_definition x)
                           (recorded_end e).1.2 (recorded_end e).2 (Some t) (Some now) (Some now') in
            final_status (run_status final) /\
            o = Ok (run_result final e) /\
            wb_runs s' = wb_runs s ++ [(i, final)] /\ wb_workflows s' = wb_workflows s /\
            wb_executing s' = wb_executing s
      end
  end.
Proof.
  intros [Hw Hr]%reachable_builder_ok Hi. unfold run_workflow, run_begin.
  destruct (get_workflow workflow_id ws s) as [x|] eqn:Ex; [|done].
  apply get_workflow_some in Ex as (Hx & Hid & Hws & Hnorm); [|done].
  destruct (parse_valid ws agents (wf_definition x)) as [d|e] eqn:Ep; [|done].
  pose proof (parse_normal _ _ _ _ Hnorm Ep) as Hd. pose proof (parse_valid_usable _ _ _ _ Ep) as Hu.
  apply parse_valid_ok in Ep as [_ Hv]. rewrite Hd. set (s1 := mkBuilder _ _ _ _).
  destruct (WorkflowEngine.run repr env d inputs w) as [e w1] eqn:Er.
  assert (He : e = Cancelled \/ exists r, e = Finished r).
  { destruct (run_valid repr env d inputs w Hv) as (o & w2 & _ & [H|(r & H & _)]);
      rewrite H in Er; injection Er as <- _; eauto. }
  destruct (times w1) as [now' t]. set (x1 := mkRun i workflow_id ws RUN_RUNNING inputs (wf_definition x) [] None None (Some now) None).
  assert (Hx1 : dict_get i (wb_runs s1) = Some x1) by (subst s1; cbn; rewrite dict_get_set; by rewrite decide_True).
  destruct (run_end_spec now' t i workflow_id ws actor e s1 x1 Hx1 eq_refl He) as [Hruns Hexec].
  pose proof (run_end_workflows now' t i workflow_id ws actor e s1) as Hwf.
  pose proof (run_end_answer now' t i workflow_id ws actor e s1 x1 Hx1 eq_refl eq_refl He) as Ho.
  destruct (run_end now' t i workflow_id ws actor e s1) as [o s2]. cbn [fst snd] in *. split; [done|].
  exists e, w1, now', t. split; [done|]. split; [done|]. cbv zeta. split; [apply recorded_final|].
  split; [by rewrite Ho|]. split; [|split; [done|]].
  - rewrite Hruns. subst s1. cbn [wb_runs]. rewrite (dict_set_fresh i x1) by done. by apply dict_set_last.
  - rewrite Hexec. subst s1. cbn [wb_executing]. rewrite filter_cons_False by (by intros []).
    apply filter_others. intros Hj. destruct (Hr i) as [H _]. rewrite Hi in H. by destruct (H Hj).
Qed.
End BuilderProps.

(** ** Examples *)

#[local] Existing Instance text_value.

Definition demo_agents : InMemoryAgentDefinitionRepository := agent_repo_init.
Definition no_tools : list (pystr * @Tool unit) := [].
Abbreviation demo_serve := (serve no_tools dump_json demo_int demo_dict demo_agents (Obj := pystr)).

Definition demo_create : builder_call :=
  CreateWorkflow 1 (u "w1") (u "ws") (u " Demo ") [] (definition_to_dict demo_definition) None (Obj := pystr).
Definition demo_publish : builder_call := PublishWorkflow 2 (u "w1") (u "ws") None (Obj := pystr).
Definition demo_begin : builder_call := BeginRun 3 (u "r1") (u "w1") (u "ws") [] (Obj := pystr).

Definition demo_published : builder_world pystr := demo_serve demo_publish (demo_serve demo_create (builder_init None)).

Lemma demo_reachable : reachable no_tools dump_json demo_int demo_dict demo_published.
Proof.
  exists None. eapply rtc_l; [|apply rtc_once].
  - exists demo_agents, demo_create. split; [done|]. split; [|reflexivity]. reflexivity.
  - exists demo_agents, demo_publish. split; [done|]. split; [exact I|reflexivity].
Qed.

Definition demo_workflow : WorkflowRecord :=
  mkWorkflow (u "w1") (u "ws") (u "Demo") [] STATUS_PUBLISHED (definition_to_dict demo_definition) 2 None (Some 1) (Some 2).

Lemma workflow_history_stable_witness :
  still_published demo_workflow (wb_workflows (demo_serve demo_begin demo_published)).
Proof.
  refine (proj1 (workflow_history_stable no_tools dump_json demo_int demo_dict _ _ (fun c => c = demo_begin)
    demo_published _ demo_reachable _) demo_workflow _ _ _).
  - reflexivity.
  - reflexivity.
  - apply rtc_once. exists demo_agents, demo_begin. split; [reflexivity|]. split; [|reflexivity]. vm_compute. reflexivity.
  - vm_compute. reflexivity.
  - reflexivity.
  - intros c -> (now & ws & H). discriminate H.
Defined.

Lemma run_workflow_final_witness :
  exists o s' w', run_workflow no_tools dump_json demo_int demo_dict still_env (fun _ => (5, 1)) 4 (u "r1") (u "w1")
    (u "ws") [] None demo_agents tt demo_published = (o, s', w') /\
  exists e w1 now' t, WorkflowEngine.run dump_json still_env demo_definition [] tt = (e, w1) /\
    final_status (recorded_end e).1.1 /\
    wb_runs s' = [(u "r1", mkRun (u "r1") (u "w1") (u "ws") (recorded_end e).1.1 [] (definition_to_dict demo_definition)
                           (recorded_end e).1.2 (recorded_end e).2 (Some t) (Some 4) (Some now'))].
Proof.
  pose proof (run_workflow_final no_tools dump_json demo_int demo_dict (fun z => eq_refl) (fun m => eq_refl)
    still_env (fun _ => (5, 1)) 4 (u "r1") (u "w1") (u "ws") [] None demo_agents tt demo_published demo_reachable eq_refl) as H.
  assert (Eg : get_workflow (u "w1") (u "ws") demo_published = Some demo_workflow) by (vm_compute; reflexivity).
  assert (Ep : WorkflowBuilder.parse_valid no_tools dump_json demo_int demo_dict (u "ws") demo_agents
    (wf_definition demo_workflow) = Ok demo_definition) by (vm_compute; reflexivity).
  rewrite Eg in H. rewrite Ep in H. revert H.
  destruct (run_workflow _ _ _ _ _ _ _ _ _ _ _ _ _ _ _) as [[o s'] w'].
  intros (_ & e & w1 & now' & t & Hr & _ & Hf & _ & Hs & _).
  exists o, s', w'. split; [reflexivity|]. exists e, w1, now', t. split; [exact Hr|]. split; [exact Hf|exact Hs].
Defined.

(** [update_workflow] changes the stored record before it checks the new
    definition: the call is refused, but the new name has been stored. *)
Theorem refused_update_renames :
  let s := demo_serve demo_create (builder_init None) in
  let '(res, s') := update_workflow no_tools dump_json demo_int demo_dict 3 (u "w1") (u "ws") (Some (u "Other")) None
                      (Some [(u "nodes", JInt 1)]) demo_agents s in
  (exists e, res = Err e) /\ wf_name <$> get_workflow (u "w1") (u "ws") s' = Some (u "Other").
Proof. vm_compute. split; [by eexists|reflexivity]. Qed.
