(* ===== verification/BuiltinToolsProps.v ===== *)
(** * Built-in tools: theorems

    The calculator agrees with the arithmetic of integers within its limits and
    never escapes them; code runs only when every node of its tree was checked;
    the outputs of the tools satisfy the schemas they declare. *)

From Corelib Require Import SpecFloat.
From S2P Require Import Prelude Json ToolModels ToolExecutor RagText BuiltinTools.
Local Open Scope Z_scope.

#[local] Opaque _MAX_ABSOLUTE_VALUE.

(** ** The calculator *)

Fixpoint expr_nodes (e : expr) : Z :=
  match e with
  | UnaryOp _ e => 1 + expr_nodes e
  | BinOp l _ r => 1 + expr_nodes l + expr_nodes r
  | _ => 1
  end.
Fixpoint expr_height (e : expr) : Z :=
  match e with
  | UnaryOp _ e => 1 + expr_height e
  | BinOp l _ r => 1 + Z.max (expr_height l) (expr_height r)
  | _ => 0
  end.

(** The arithmetic of integers, undefined outside the limits *)
Definition int_operator (op : operator) (a b : Z) : option Z :=
  match op with
  | Add => Some (a + b)
  | Sub => Some (a - b)
  | Mult => Some (a * b)
  | Mod => if b =? 0 then None else Some (a mod b)
  | Pow => if (0 <=? b) && (b <=? 100) then Some (a ^ b) else None
  | _ => None
  end.
Definition within (z : Z) : option Z := if Z.abs z <=? _MAX_ABSOLUTE_VALUE then Some z else None.

Fixpoint int_value (e : expr) : option Z :=
  match e with
  | Constant (CInt z) => within z
  | UnaryOp UAdd e => int_value e ≫= within
  | UnaryOp USub e => a ← int_value e; within (- a)
  | BinOp l op r => a ← int_value l; b ← int_value r; c ← int_operator op a b; within c
  | _ => None
  end.

Definition checked (x : num) : Prop := _check_value x = Ok x.

Lemma check_value_ok x y : _check_value x = Ok y -> y = x /\ checked x.
Proof.
  unfold checked, _check_value. destruct (match x with NInt _ => _ | NFloat _ => _ end); [intros H; discriminate H|].
  destruct (abs_exceeds x _MAX_ABSOLUTE_VALUE); [intros H; discriminate H|]. by intros [= <-].
Qed.

Lemma check_int z : _check_value (NInt z) = match within z with Some z => Ok (NInt z) | None => Err OverflowError end.
Proof.
  unfold _check_value, within, abs_exceeds. cbn [num_value]. rewrite Z.mul_1_r.
  generalize _MAX_ABSOLUTE_VALUE as bound. intros bound.
  destruct (Z.ltb_spec bound (Z.abs z)), (Z.leb_spec (Z.abs z) bound); try lia; done.
Qed.

Lemma within_some z z' : within z = Some z' <-> z' = z /\ Z.abs z <= _MAX_ABSOLUTE_VALUE.
Proof.
  unfold within. generalize _MAX_ABSOLUTE_VALUE as bound. intros bound.
  destruct (Z.leb_spec (Z.abs z) bound) as [H|H]; split.
  - by intros [= ->].
  - by intros [-> _].
  - done.
  - lia.
Qed.

Section Calculate.
Context (libm_pow : float64 -> float64 -> float64).
Abbreviation eval := (_evaluate_node libm_pow).

(** What holds of every evaluation that returns *)
Definition eval_fact (e : expr) (depth counter : Z) (x : num) (n : Z) : Prop :=
  n = counter + expr_nodes e /\ n <= _MAX_AST_NODES /\ depth + expr_height e <= _MAX_AST_DEPTH /\ checked x.

Lemma leaf_fact e depth counter x y n :
  (_MAX_AST_NODES <? counter + 1) || (_MAX_AST_DEPTH <? depth) = false -> expr_nodes e = 1 -> expr_height e = 0 ->
  (z ← _check_value y; Ok (z, counter + 1)) = Ok (x, n) -> eval_fact e depth counter x n.
Proof.
  unfold eval_fact. intros Hc -> -> (z & Hz & H)%bind_ok. apply check_value_ok in Hz as [-> Hz]. injection H as <- <-.
  bools. split; [lia|]. split; [lia|]. split; [lia|]. exact Hz.
Qed.

Lemma unary_fact e op (f : num -> num) depth counter x n :
  (forall x n, eval e (depth + 1) (counter + 1) = Ok (x, n) -> eval_fact e (depth + 1) (counter + 1) x n) ->
  ('(x, counter) ← eval e (depth + 1) (counter + 1); x ← _check_value (f x); Ok (x, counter)) = Ok (x, n) ->
  eval_fact (UnaryOp op e) depth counter x n.
Proof.
  unfold eval_fact. intros IH ([y m] & He & (z & Hz & H)%bind_ok)%bind_ok. apply check_value_ok in Hz as [-> Hz].
  injection H as <- <-. apply IH in He as (-> & H1 & H2 & _). cbn [expr_nodes expr_height].
  split; [lia|]. split; [lia|]. split; [lia|]. exact Hz.
Qed.

Lemma eval_within e : forall depth counter x n,
  eval e depth counter = Ok (x, n) -> eval_fact e depth counter x n.
Proof.
  induction e as [[z|f|]|op e IH|l IHl op r IHr|]; intros depth counter x n; cbn [_evaluate_node];
    (destruct ((_MAX_AST_NODES <? counter + 1) || (_MAX_AST_DEPTH <? depth)) eqn:Ec; [intros H; discriminate H|]).
  - by apply leaf_fact.
  - destruct (is_finite f); [by apply leaf_fact|intros H; discriminate H].
  - intros H; discriminate H.
  - destruct op; [apply (unary_fact e UAdd (fun x => x))|apply (unary_fact e USub negate)|intros H; discriminate H];
      intros y m; apply IH.
  - intros ([a m] & Hl & ([b k] & Hr & (c & Hc & (d & Hd & H)%bind_ok)%bind_ok)%bind_ok)%bind_ok.
    apply check_value_ok in Hd as [-> Hd]. injection H as <- <-.
    apply IHl in Hl as (-> & H1 & H2 & _). apply IHr in Hr as (-> & H3 & H4 & _). unfold eval_fact.
    cbn [expr_nodes expr_height]. split; [lia|]. split; [lia|]. split; [lia|]. exact Hd.
  - intros H; discriminate H.
Qed.

Lemma float_pow_not_int x y z : float_pow libm_pow x y <> Ok (NInt z).
Proof. unfold float_pow. repeat (case_match; try (intros H'; discriminate H')). Qed.

Lemma apply_int op x y c :
  apply_operator libm_pow op x y = Ok (NInt c) <->
  exists a b, x = NInt a /\ y = NInt b /\ int_operator op a b = Some c.
Proof.
  split.
  - destruct op; cbn [apply_operator]; try (intros H; discriminate H).
    1-3: destruct x as [a|f], y as [b|g]; try (intros H; discriminate H); intros [= <-]; by exists a, b.
    + destruct (num_zero y); [intros H; discriminate H|]. unfold true_div.
      destruct x as [[]|f], y as [b|g]; intros H; discriminate H.
    + destruct (num_zero y) eqn:Ez; [intros H; discriminate H|].
      destruct x as [a|f], y as [b|g]; try (intros H; discriminate H). cbn in Ez. intros [= <-].
      exists a, b. split; [done|]. split; [done|]. cbn [int_operator]. by rewrite Ez.
    + destruct (abs_exceeds y _MAX_EXPONENT || _) eqn:Eb; [intros H; discriminate H|].
      destruct x as [a|f], y as [b|g]; cbn [power]; try (intros H; by apply float_pow_not_int in H).
      destruct (0 <=? b) eqn:E0; [|intros H; by apply float_pow_not_int in H]. intros [= <-].
      exists a, b. split; [done|]. split; [done|]. cbn [int_operator]. rewrite E0.
      apply orb_false_iff in Eb as [Eb _]. unfold abs_exceeds, _MAX_EXPONENT in Eb. cbn [num_value] in Eb. bools.
      by rewrite (proj2 (Z.leb_le b 100)) by lia.
  - intros (a & b & -> & -> & H). destruct op; cbn [int_operator apply_operator] in *; try discriminate H.
    1-3: injection H as <-; done.
    + cbn [num_zero]. destruct (b =? 0); [discriminate H|]. by injection H as <-.
    + destruct ((0 <=? b) && (b <=? 100)) eqn:Eb; [|discriminate H]. injection H as <-. bools.
      unfold abs_exceeds, _MAX_EXPONENT. cbn [num_value]. rewrite orb_false_r.
      rewrite (proj2 (Z.ltb_ge (100 * 1) (Z.abs b))) by lia. cbn [power].
      by rewrite (proj2 (Z.leb_le 0 b)) by lia.
Qed.

Lemma check_within z z' : _check_value (NInt z) = Ok (NInt z') <-> within z = Some z'.
Proof.
  rewrite check_int. destruct (within z); [|split; intros H; discriminate H]. split; [by intros [= ->]|by intros [= ->]].
Qed.

Lemma negate_int x z : negate x = NInt z <-> x = NInt (- z).
Proof.
  destruct x as [a|f]; cbn; [|split; intros H; discriminate H]. split; intros [= E]; f_equal; lia.
Qed.

Lemma checked_int x z : _check_value x = Ok (NInt z) -> x = NInt z /\ within z = Some z.
Proof. intros H. pose proof (check_value_ok _ _ H) as [<- _]. split; [done|]. by apply check_within. Qed.

(** An integer result is the value of the expression. *)
Lemma eval_int_sound e : forall depth counter z n,
  eval e depth counter = Ok (NInt z, n) -> int_value e = Some z.
Proof.
  induction e as [[a|f|]|op e IH|l IHl op r IHr|]; intros depth counter z n; cbn [_evaluate_node int_value];
    (destruct ((_MAX_AST_NODES <? counter + 1) || (_MAX_AST_DEPTH <? depth)); [intros H; discriminate H|]).
  - intros (y & Hy & H)%bind_ok. injection H as -> _. by apply check_within.
  - destruct (is_finite f); [|intros H; discriminate H]. intros (y & Hy & H)%bind_ok. injection H as -> _.
    by apply checked_int in Hy as [? _].
  - intros H; discriminate H.
  - destruct op; [..|intros H; discriminate H]; intros ([y m] & He & (x & Hx & H)%bind_ok)%bind_ok; injection H as -> _;
      apply checked_int in Hx as [Hx Hw].
    + subst y. apply IH in He as ->. exact Hw.
    + apply negate_int in Hx as ->. apply IH in He as ->. cbn. by rewrite Z.opp_involutive.
  - intros ([a m] & Hl & ([b k] & Hr & (c & Hc & (d & Hd & H)%bind_ok)%bind_ok)%bind_ok)%bind_ok. injection H as -> _.
    apply checked_int in Hd as [-> Hw]. apply apply_int in Hc as (a' & b' & -> & -> & Ho).
    apply IHl in Hl as ->. apply IHr in Hr as ->. cbn. by rewrite Ho.
  - intros H; discriminate H.
Qed.

(** Within the limits the value is computed. *)
Lemma expr_nodes_pos e : 0 < expr_nodes e.
Proof. induction e; cbn; lia. Qed.
Lemma expr_height_nonneg e : 0 <= expr_height e.
Proof. induction e; cbn; lia. Qed.

Lemma limits_open e depth counter :
  counter + expr_nodes e <= _MAX_AST_NODES -> depth + expr_height e <= _MAX_AST_DEPTH ->
  (_MAX_AST_NODES <? counter + 1) || (_MAX_AST_DEPTH <? depth) = false.
Proof.
  pose proof (expr_nodes_pos e). pose proof (expr_height_nonneg e). intros.
  apply orb_false_iff. split; apply Z.ltb_ge; lia.
Qed.

Lemma bind_some {A B} (m : option A) (f : A -> option B) b : m ≫= f = Some b -> exists a, m = Some a /\ f a = Some b.
Proof. apply bind_Some. Qed.

Lemma eval_int_complete e : forall depth counter z,
  int_value e = Some z -> counter + expr_nodes e <= _MAX_AST_NODES -> depth + expr_height e <= _MAX_AST_DEPTH ->
  eval e depth counter = Ok (NInt z, counter + expr_nodes e).
Proof.
  induction e as [[a|f|]|op e IH|l IHl op r IHr|]; intros depth counter z Hz Hn Hh;
    pose proof (limits_open _ _ _ Hn Hh) as Ho; cbn [_evaluate_node int_value expr_nodes expr_height] in *;
    rewrite Ho; try discriminate Hz.
  - apply check_within in Hz as ->. done.
  - assert (He : forall a, int_value e = Some a -> eval e (depth + 1) (counter + 1) = Ok (NInt a, counter + 1 + expr_nodes e))
      by (intros a Ha; apply IH; [done|lia|lia]).
    destruct op; [..|discriminate Hz]; apply bind_some in Hz as (a & Ha & Hw); rewrite (He a Ha); cbn [mbind result_bind];
      [|cbn [negate]]; rewrite (proj2 (check_within _ _) Hw); cbn [mbind result_bind]; by rewrite Z.add_assoc.
  - apply bind_some in Hz as (a & Ha & (b & Hb & (c & Hc & Hw)%bind_some)%bind_some).
    pose proof (expr_nodes_pos r). rewrite (IHl _ _ a Ha) by lia. cbn [mbind result_bind].
    rewrite (IHr _ _ b Hb) by lia. cbn [mbind result_bind].
    rewrite (proj2 (apply_int op (NInt a) (NInt b) c)) by (by exists a, b). cbn [mbind result_bind].
    rewrite (proj2 (check_within _ _) Hw). cbn [mbind result_bind]. by rewrite !Z.add_assoc.
Qed.

(** The exceptions of the evaluation itself are all caught. *)
Definition caught_exn (err : py_exn) : Prop := match err with OtherError _ => False | _ => True end.

Lemma check_value_errors x err : _check_value x = Err err -> caught_exn err.
Proof.
  unfold _check_value. destruct (match x with NInt _ => _ | NFloat _ => _ end); [by intros [= <-]|].
  destruct (abs_exceeds x _MAX_ABSOLUTE_VALUE); [by intros [= <-]|]. intros H; discriminate H.
Qed.

Lemma float_pow_errors x y err : float_pow libm_pow x y = Err err -> caught_exn err.
Proof. unfold float_pow. repeat case_match; intros H'; try discriminate H'; by injection H' as <-. Qed.

Lemma apply_errors op x y err : apply_operator libm_pow op x y = Err err -> caught_exn err.
Proof.
  destruct op; cbn [apply_operator]; try (intros H; discriminate H).
  - destruct (num_zero y); intros H; [by injection H as <-|discriminate H].
  - destruct (num_zero y); intros H; [by injection H as <-|discriminate H].
  - destruct (abs_exceeds y _MAX_EXPONENT || _); [by intros [= <-]|]. unfold power.
    destruct x as [a|f], y as [b|g]; try apply float_pow_errors. destruct (0 <=? b); [|apply float_pow_errors].
    intros H; discriminate H.
  - by intros [= <-].
Qed.

Lemma bind_err {E A B} (m : result E A) (k : A -> result E B) e :
  m ≫= k = Err e -> m = Err e \/ exists a, m = Ok a /\ k a = Err e.
Proof. destruct m as [a|e']; cbn; [eauto|]. intros [= ->]. by left. Qed.

Lemma check_then_errors {A} x err (f : num -> A) : (z ← _check_value x; Ok (f z)) = Err err -> caught_exn err.
Proof. intros [H|(z & _ & H)]%bind_err; [by eapply check_value_errors|discriminate H]. Qed.

Lemma eval_errors e : forall depth counter err, eval e depth counter = Err err -> caught_exn err.
Proof.
  induction e as [[a|f|]|op e IH|l IHl op r IHr|]; intros depth counter err; cbn [_evaluate_node];
    (destruct ((_MAX_AST_NODES <? counter + 1) || (_MAX_AST_DEPTH <? depth)); [by intros [= <-]|]).
  - by apply check_then_errors.
  - destruct (is_finite f); [by apply check_then_errors|by intros [= <-]].
  - by intros [= <-].
  - destruct op; [..|by intros [= <-]]; intros [H|([x m] & _ & H)]%bind_err; try (by eapply IH);
      revert H; by apply check_then_errors.
  - intros [H|([x m] & _ & [H|([y k] & _ & [H|(c & _ & H)]%bind_err)]%bind_err)]%bind_err;
      [by eapply IHl|by eapply IHr|by eapply apply_errors|]. revert H. by apply check_then_errors.
  - by intros [= <-].
Qed.

Lemma execute_answers (ast_parse : pystr -> result py_exn expr) arguments :
  match calculator_execute libm_pow ast_parse arguments with
  | Ok s => s = _INVALID_EXPRESSION_MESSAGE \/ s = _DIVISION_BY_ZERO_MESSAGE \/
      exists text e x n, dict_get (u "expression") arguments = Some (JStr text) /\ slen text <= 256 /\
        ast_parse text = Ok e /\ eval e 0 0 = Ok (x, n) /\ s = _format_number x
  | Err err => exists text name, ast_parse text = Err (OtherError name) /\ err = OtherError name
  end.
Proof.
  unfold calculator_execute. destruct (dict_get (u "expression") arguments) as [[| | | |text| |]|] eqn:Ed;
    try (left; reflexivity).
  unfold _evaluate_expression. destruct (bool_decide (strip text = []) || _) eqn:Eg; [left; reflexivity|].
  apply orb_false_iff in Eg as [_ Hlen]. unfold _MAX_EXPRESSION_LENGTH in Hlen. bools.
  destruct (ast_parse text) as [e|err] eqn:Ep; cbn [mbind result_bind].
  - destruct (eval e 0 0) as [[x n]|err] eqn:Ee.
    + right. right. exists text, e, x, n. by split_and!.
    + pose proof (eval_errors _ _ _ _ Ee) as Hc. destruct err; [right; left; reflexivity|left; reflexivity..|done].
  - destruct err as [| | | | |name]; [right; left; reflexivity|left; reflexivity..|]. by exists text, name.
Qed.

(** C20. Evaluating an expression gives an integer exactly when the arithmetic of
    integers gives it and the expression has at most 64 nodes, none deeper than
    16, with every intermediate value within [1e100] and every exponent between
    0 and 100.  Whatever the result, integer or float, it is within [1e100] and
    was computed by visiting each node once.  The tool answers with the text of
    the number or with one of its two messages: it raises only what the parser
    raises and no handler catches. *)
Theorem calculator_correct (ast_parse : pystr -> result py_exn expr) :
  (forall e z n, eval e 0 0 = Ok (NInt z, n) <->
     int_value e = Some z /\ n = expr_nodes e /\ expr_nodes e <= 64 /\ expr_height e <= 16) /\
  (forall e x n, eval e 0 0 = Ok (x, n) ->
     n = expr_nodes e /\ expr_nodes e <= 64 /\ expr_height e <= 16 /\ _check_value x = Ok x) /\
  (forall arguments,
     match calculator_execute libm_pow ast_parse arguments with
     | Ok s => s = _INVALID_EXPRESSION_MESSAGE \/ s = _DIVISION_BY_ZERO_MESSAGE \/
         exists text e x n, dict_get (u "expression") arguments = Some (JStr text) /\ slen text <= 256 /\
           ast_parse text = Ok e /\ eval e 0 0 = Ok (x, n) /\ s = _format_number x
     | Err err => exists text name, ast_parse text = Err (OtherError name) /\ err = OtherError name
     end).
Proof.
  assert (Hfact : forall e x n, eval e 0 0 = Ok (x, n) ->
     n = expr_nodes e /\ expr_nodes e <= 64 /\ expr_height e <= 16 /\ _check_value x = Ok x).
  { intros e x n (H1 & H2 & H3 & H4)%eval_within. unfold _MAX_AST_NODES, _MAX_AST_DEPTH in *.
    split; [lia|]. split; [lia|]. split; [lia|]. exact H4. }
  split; [|split; [exact Hfact|]].
  - intros e z n. split.
    + intros H. split; [by eapply eval_int_sound|]. apply Hfact in H as (H1 & H2 & H3 & _). by split_and!.
    + intros (Hz & -> & Hn & Hh). rewrite <- (Z.add_0_l (expr_nodes e)).
      apply eval_int_complete; unfold _MAX_AST_NODES, _MAX_AST_DEPTH; [done|lia|lia].
  - intros arguments. apply execute_answers.
Qed.
End Calculate.

Definition eval_text (e : expr) : result py_exn pystr :=
  match _evaluate_node (fun _ _ => S754_nan) e 0 0 with Ok (x, _) => Ok (_format_number x) | Err err => Err err end.

Example calculator_example :
  eval_text (BinOp (BinOp (Constant (CInt 2)) Pow (Constant (CInt 10))) Sub
    (BinOp (UnaryOp USub (Constant (CInt 7))) Mod (Constant (CInt 4)))) = Ok (u "1023") /\
  eval_text (BinOp (Constant (CInt 1)) Div (Constant (CInt 3))) = Ok (u "0.3333333333333333") /\
  eval_text (BinOp (Constant (CInt 1)) Mod (Constant (CFloat (S754_zero true)))) = Err ZeroDivisionError /\
  eval_text (BinOp (Constant (CFloat (round_ratio true 15 2))) Mod (Constant (CInt 2))) = Ok (u "0.5") /\
  eval_text (BinOp (Constant (CInt 10)) Pow (Constant (CInt 101))) = Err ValueError /\
  eval_text (BinOp (Constant (CInt 0)) Pow (Constant (CInt (-1)))) = Err ZeroDivisionError.
Proof. vm_compute. by repeat split. Qed.

(** ** The code executor *)

Fixpoint tree_nodes (n : pynode) : list pynode := let 'PyNode c i l := n in PyNode c i l :: mjoin (tree_nodes <$> l).

Lemma tree_size_pos n : (0 < tree_size n)%nat.
Proof. destruct n; cbn; lia. Qed.

Lemma tree_nodes_unfold n : tree_nodes n = n :: mjoin (tree_nodes <$> children n).
Proof. by destruct n. Qed.

Lemma tree_size_unfold n : tree_size n = S (list_sum (tree_size <$> children n)).
Proof. by destruct n. Qed.

Lemma walk_go_nodes fuel : forall todo, (list_sum (tree_size <$> todo) <= fuel)%nat ->
  walk_go fuel todo ≡ₚ mjoin (tree_nodes <$> todo).
Proof.
  induction fuel as [|fuel IH]; intros [|n todo] H; cbn [walk_go fmap list_fmap list_sum foldr] in *; [done| |done|].
  - pose proof (tree_size_pos n). cbn in H. lia.
  - rewrite tree_size_unfold in H. rewrite IH.
    + rewrite fmap_app, join_app. cbn [mjoin list_join]. change (list_fmap _ _ tree_nodes todo) with (tree_nodes <$> todo).
      rewrite (tree_nodes_unfold n). cbn [app]. by rewrite (Permutation_app_comm (mjoin (tree_nodes <$> todo))).
    + rewrite fmap_app, list_sum_app. unfold list_sum in *. cbn in H. unfold fmap in *. lia.
Qed.

(** Walking a tree meets every node once. *)
Lemma walk_nodes tree : walk tree ≡ₚ tree_nodes tree.
Proof.
  unfold walk. rewrite walk_go_nodes; [|cbn; lia]. cbn. by rewrite app_nil_r.
Qed.

(** What the executor accepts for execution *)
Record accepted_code (parse_module : pystr -> result pystr pynode) (arguments : list (pystr * json)) (code : pystr)
    (tree : pynode) : Prop := {
  ac_code : dict_get (u "code") arguments = Some (JStr code);
  ac_length : slen code <= 1000;
  ac_parsed : parse_module code = Ok tree;
  ac_nodes : Forall (fun n => cls n ∉ _DISALLOWED_NODES /\ (cls n = u "Name" -> starts_with (u "__") (node_id n) = false))
               (tree_nodes tree);
  ac_size : Z.of_nat (length (tree_nodes tree)) <= 200
}.

Lemma check_code_node_ok n : check_code_node n = Ok tt <->
  cls n ∉ _DISALLOWED_NODES /\ (cls n = u "Name" -> starts_with (u "__") (node_id n) = false).
Proof.
  unfold check_code_node. destruct (decide (cls n ∈ _DISALLOWED_NODES)) as [H|H]; [split; [intros E; discriminate E|tauto]|].
  destruct (bool_decide (cls n = u "Name")) eqn:En; bools; cbn [andb].
  - destruct (starts_with (u "__") (node_id n)) eqn:Es.
    + split; [intros E; discriminate E|]. intros [_ Hs]. by specialize (Hs En).
    + split; [intros _; split; [done|intros _; done]|done].
  - split; [intros _; split; [done|intros E; by destruct En]|done].
Qed.

Lemma validate_ast_ok tree : _validate_ast tree = Ok tt <->
  Forall (fun n => cls n ∉ _DISALLOWED_NODES /\ (cls n = u "Name" -> starts_with (u "__") (node_id n) = false))
    (tree_nodes tree) /\ Z.of_nat (length (tree_nodes tree)) <= 200.
Proof.
  rewrite <- (walk_nodes tree). unfold _validate_ast, _MAX_CODE_NODES.
  rewrite <- (Forall_iff _ _ _ check_code_node_ok), <- foldE_check.
  destruct (foldE (fun _ n => check_code_node n) tt (walk tree)) as [[]|e]; cbn [mbind result_bind];
    [|split; [intros E; discriminate E|intros [E _]; discriminate E]].
  rewrite raise_if_ok, Z.ltb_ge. tauto.
Qed.

Lemma combine_output_length output r : slen (combine_output output r) <= 2000.
Proof.
  unfold combine_output, _MAX_OUTPUT_LENGTH.
  destruct output, r; [vm_compute; intros H; discriminate H|etrans; [apply sprefix_length|done]..].
Qed.

(** Code reaches the interpreter only if it has at most 1000 characters,
    parses, and its tree has at most 200 nodes, none of a disallowed class and
    no name that starts with two underscores; what it returns is then at most
    2000 characters long, or the text of an exception.  Any other argument gives
    an error that does not depend on what the interpreter would do. *)
Theorem code_runs_checked parse_module arguments :
  (forall code tree, accepted_code parse_module arguments code tree ->
     forall exec_statements eval_last timed_out,
       code_execute parse_module exec_statements eval_last timed_out arguments
       = (if timed_out code then executor_error (u "execution timed out after 5 seconds.")
          else _execute_in_thread exec_statements eval_last tree) /\
       (slen (_execute_in_thread exec_statements eval_last tree) <= 2000 \/
        exists e, _execute_in_thread exec_statements eval_last tree = executor_error e)) /\
  ((forall code tree, ~ accepted_code parse_module arguments code tree) ->
   exists message, forall exec_statements eval_last timed_out,
     code_execute parse_module exec_statements eval_last timed_out arguments = executor_error message).
Proof.
  split.
  - intros code tree [Hc Hl Hp Hn Hs] exec ev late. unfold code_execute, _run_safely, _MAX_CODE_LENGTH.
    rewrite Hc, (proj2 (Z.ltb_ge 1000 (slen code)) Hl), Hp, (proj2 (validate_ast_ok tree) (conj Hn Hs)). split; [done|].
    unfold _execute_in_thread. destruct (take_last_expr (children tree)) as [st la].
    destruct (output ← _; _) as [s|e] eqn:E; [|right; by exists e]. left.
    apply bind_ok in E as (out & _ & (r & _ & [= <-])%bind_ok). apply combine_output_length.
  - intros Hno. unfold code_execute.
    destruct (dict_get (u "code") arguments) as [[| | | |code| |]|] eqn:Ed; try (eexists; reflexivity).
    unfold _run_safely, _MAX_CODE_LENGTH. destruct (Z.ltb_spec 1000 (slen code)) as [?|Hl]; [eexists; reflexivity|].
    destruct (parse_module code) as [tree|msg] eqn:Ep; [|eexists; reflexivity].
    destruct (_validate_ast tree) as [[]|e] eqn:Ev; [|by exists e].
    destruct (Hno code tree). apply validate_ast_ok in Ev as [Hn Hs]. by split.
Qed.

(** ** The declared output schemas *)

Lemma text_output_valid s : _validate_schema (JStr s) string_schema = true.
Proof. vm_compute. reflexivity. Qed.

Lemma search_success_valid {Opt} query (prepared : @PreparedRAGRequest float64 Opt) :
  _validate_schema (_success_result query prepared) search_output_schema = true.
Proof. unfold _success_result. generalize (_serialize_reference <$> pr_references prepared). intros l. vm_compute. reflexivity. Qed.

Lemma search_error_valid query code message :
  _validate_schema (_error_result query code message) search_output_schema = true.
Proof. vm_compute. reflexivity. Qed.

(** C28. Whatever the arguments, the context and the services do, a value that one
    of the built-in tools returns satisfies the output schema of the tool, so the
    executor never turns it down as malformed; and the only exceptions of the
    knowledge search are those of the services that it does not know. *)
Theorem builtin_outputs_valid {W Opt : Type} libm_pow ast_parse parse_module exec_statements eval_last timed_out
    (prepare : W -> pystr -> pystr -> result search_failure (@PreparedRAGRequest float64 Opt))
    arguments context timeout (w : W) :
  (forall tool, tool ∈ [calculator_tool libm_pow ast_parse; search_tool prepare;
                        code_tool parse_module exec_statements eval_last timed_out] ->
     match tool_execute tool arguments context timeout w with
     | (ToolReturned v, w') => w' = w /\
         exists schema, tool_output_schema tool = Some schema /\ _validate_schema v schema = true
     | (o, _) => o = ToolException
     end) /\
  (forall e, search_execute (prepare w) arguments (ctx_metadata context) = Err e -> exists name, e = OtherFailure name).
Proof.
  assert (Hs : forall v, search_execute (prepare w) arguments (ctx_metadata context) = Ok v ->
    _validate_schema v search_output_schema = true).
  { intros v. unfold search_execute.
    destruct (dict_get _ (ctx_metadata context)) as [[| | | |owner| |]|]; try (intros [= <-]; apply search_error_valid).
    destruct (dict_get _ arguments) as [[| | | |query| |]|]; try (intros [= <-]; apply search_error_valid).
    destruct (bool_decide (strip query = [])); [intros [= <-]; apply search_error_valid|].
    destruct (_MAX_QUERY_LENGTH <? slen query); [intros [= <-]; apply search_error_valid|]. cbv zeta.
    destruct (prepare w (strip query) owner) as [p|e]; [intros [= <-]; apply search_success_valid|].
    destruct (failure_report e) as [[code message]|]; [intros [= <-]; apply search_error_valid|intros H; discriminate H]. }
  split.
  - intros tool. rewrite !elem_of_cons, elem_of_nil. intros [->|[->|[->|[]]]]; cbn [tool_execute tool_output_schema calculator_tool search_tool code_tool].
    + destruct (calculator_execute libm_pow ast_parse arguments); [|done]. split; [done|]. eexists. split; [done|]. apply text_output_valid.
    + destruct (search_execute _ _ _) as [v|e] eqn:E; [|done]. split; [done|]. eexists. split; [done|]. by apply Hs.
    + split; [done|]. eexists. split; [done|]. apply text_output_valid.
  - intros e. unfold search_execute.
    destruct (dict_get _ (ctx_metadata context)) as [[| | | |owner| |]|]; try (intros H; discriminate H).
    destruct (dict_get _ arguments) as [[| | | |query| |]|]; try (intros H; discriminate H).
    destruct (bool_decide (strip query = [])); [intros H; discriminate H|].
    destruct (_MAX_QUERY_LENGTH <? slen query); [intros H; discriminate H|]. cbv zeta.
    destruct (prepare w (strip query) owner) as [p|e']; [intros H; discriminate H|].
    destruct e' as [| | | | | |name]; cbn [failure_report]; intros H; try discriminate H. injection H as <-. by exists name.
Qed.

(** [abs(-1)] is accepted; an attribute such as [().__class__] is no [Name], and
    is accepted too. *)
Definition demo_tree (attribute : bool) : pynode :=
  PyNode (u "Module") [] [PyNode (u "Expr") []
    [if attribute then PyNode (u "Attribute") [] [PyNode (u "Tuple") [] [PyNode (u "Load") [] []]; PyNode (u "Load") [] []]
     else PyNode (u "Call") [] [PyNode (u "Name") (u "abs") [PyNode (u "Load") [] []];
                                PyNode (u "UnaryOp") [] [PyNode (u "USub") [] []; PyNode (u "Constant") [] []]]]].

Example demo_accepted_code : _validate_ast (demo_tree false) = Ok tt /\ _validate_ast (demo_tree true) = Ok tt /\
  _validate_ast (PyNode (u "Module") [] [PyNode (u "Expr") [] [PyNode (u "Name") (u "__import__") []]])
  = Err (u "disallowed name: __import__") /\
  take_last_expr [PyNode (u "Expr") [] [PyNode (u "Constant") [] []]] = ([], Some (PyNode (u "Constant") [] [])).
Proof. vm_compute. by repeat split. Qed.
