(* ===== verification/ChatService.v ===== *)
(** * Chat: [app/services/chat_service.py], [model_service.py], [openai_service.py]

    Requests and responses ([schemas/chat.py], [schemas/openai.py]), the chat
    service over a provider, the choice of the provider ([providers/router.py]),
    the usage collector ([usage/collector.py]) and the OpenAI compatible service
    with its adapter ([adapters/openai_adapter.py]) inside a reservation
    ([Lifecycle]).  A provider is an argument: a default model, the answer of
    [chat] and the items of [chat_stream].  Tracing and metrics are left out. *)

From S2P Require Import Prelude Json Usage Lifecycle.
Local Open Scope Z_scope.

(** ** Requests, responses and provider results *)

Record ChatMessage := mkChatMessage { cm_role : pystr; cm_content : pystr }.

Record ChatRequest := mkChatRequest {
  req_message : pystr;
  req_thread_id : option pystr;
  req_model : option pystr;
  req_system_prompt : option pystr;
  req_history : list ChatMessage;
  req_temperature : option float64;
  req_max_tokens : option Z
}.

Record ChatResponse := mkChatResponse {
  resp_model : pystr;
  resp_thread_id : option pystr;
  resp_created_at : option pystr;
  resp_message : ChatMessage;
  resp_done : bool;
  resp_done_reason : option pystr;
  resp_prompt_tokens : option Z;
  resp_completion_tokens : option Z
}.

Record ProviderChatResult := mkResult {
  pcr_model : pystr;
  pcr_created_at : option pystr;
  pcr_role : pystr;
  pcr_content : pystr;
  pcr_done : bool;
  pcr_done_reason : option pystr;
  pcr_prompt_tokens : option Z;
  pcr_completion_tokens : option Z
}.

(** What a call may raise: an error of the provider, the service's own error, or
    the [ValidationError] of pydantic for a message without content, or that of
    looking up a list or a dictionary in a set. *)
Inductive chat_error := ProviderRaised (name : pystr) | OllamaServiceError (message : pystr) | InvalidMessage
| TypeError.

(** How a stream of items ends *)
Inductive stream_end := StreamStopped | StreamRaised (e : chat_error).

Record LLMProvider (W : Type) := mkProvider {
  default_model : pystr;
  provider_chat : list (pystr * json) -> W -> result chat_error (list (pystr * json)) * W;
  provider_stream : list (pystr * json) -> W -> list (list (pystr * json)) * stream_end * W;
  provider_models : W -> result chat_error (list (pystr * json)) * W
}.
Arguments mkProvider {W}.
Arguments default_model {W}.
Arguments provider_chat {W}.
Arguments provider_stream {W}.
Arguments provider_models {W}.

(** ** [ChatService] *)

Definition _VALID_ROLES : list pystr := [u "system"; u "user"; u "assistant"].

(** [ChatMessage(role=..., content=...)]: the content has at least one character. *)
Definition make_message (role content : pystr) : result chat_error ChatMessage :=
  match content with [] => Err InvalidMessage | _ => Ok (mkChatMessage role content) end.

Definition message_json (role content : pystr) : json :=
  JObj [(u "role", JStr role); (u "content", JStr content)].

(** The truth value of an optional text *)
Definition text_given (s : option pystr) : option pystr := match s with Some (_ :: _) => s | _ => None end.

Definition _build_messages (r : ChatRequest) : list json :=
  (match text_given (req_system_prompt r) with Some p => [message_json (u "system") p] | None => [] end)
  ++ ((fun m => message_json (cm_role m) (cm_content m)) <$> req_history r)
  ++ [message_json (u "user") (req_message r)].

Definition _build_options (r : ChatRequest) : list (pystr * json) :=
  (match req_temperature r with Some t => [(u "temperature", JFloat t)] | None => [] end)
  ++ (match req_max_tokens r with Some n => [(u "num_predict", JInt n)] | None => [] end).

(** [request.model or default] *)
Definition model_or (default : pystr) (model : option pystr) : pystr :=
  match text_given model with Some m => m | None => default end.

Definition chat_payload (default : pystr) (stream_flag : list (pystr * json)) (r : ChatRequest) : list (pystr * json) :=
  [(u "model", JStr (model_or default (req_model r))); (u "messages", JArr (_build_messages r))] ++ stream_flag
  ++ (match _build_options r with [] => [] | o => [(u "options", JObj o)] end).

(** [data.get(key)], where an absent key is [None] *)
Definition field (key : pystr) (data : list (pystr * json)) : json := default JNull (dict_get key data).

Definition _extract_int (data : list (pystr * json)) (key : pystr) : option Z :=
  match field key data with JInt z => Some z | _ => None end.

Definition optional_text (message : pystr) (v : json) : result chat_error (option pystr) :=
  match v with JNull => Ok None | JStr s => Ok (Some s) | _ => Err (OllamaServiceError message) end.

Definition _parse_chat_response (data : list (pystr * json)) : result chat_error ProviderChatResult :=
  match field (u "model") data with
  | JStr model =>
      match field (u "done") data with
      | JBool done =>
          match field (u "message") data with
          | JObj message =>
              match field (u "role") message, field (u "content") message with
              | JArr _, _ | JObj _, _ => Err TypeError
              | JStr role, JStr content =>
                  if decide (role ∈ _VALID_ROLES) then
                    created_at ← optional_text (u "Ollama returned an invalid created_at value.") (field (u "created_at") data);
                    done_reason ← optional_text (u "Ollama returned an invalid done_reason value.") (field (u "done_reason") data);
                    Ok (mkResult model created_at role content done done_reason
                          (_extract_int data (u "prompt_eval_count")) (_extract_int data (u "eval_count")))
                  else Err (OllamaServiceError (u "Ollama returned an invalid assistant message."))
              | _, _ => Err (OllamaServiceError (u "Ollama returned an invalid assistant message."))
              end
          | _ => Err (OllamaServiceError (u "Ollama response did not include a valid message."))
          end
      | _ => Err (OllamaServiceError (u "Ollama response did not include a valid done flag."))
      end
  | _ => Err (OllamaServiceError (u "Ollama response did not include a valid model."))
  end.

Definition text_of (v : json) : option pystr := match v with JStr s => Some s | _ => None end.

(** [None] for a chunk that is skipped *)
Definition _parse_stream_chunk (data : list (pystr * json)) : option ProviderChatResult :=
  match field (u "model") data, field (u "done") data, field (u "message") data with
  | JStr model, JBool done, JObj message =>
      match field (u "role") message, field (u "content") message with
      | JStr role, JStr content =>
          Some (mkResult model (text_of (field (u "created_at") data))
                  (if decide (role ∈ _VALID_ROLES) then role else u "assistant") content done
                  (text_of (field (u "done_reason") data))
                  (_extract_int data (u "prompt_eval_count")) (_extract_int data (u "eval_count")))
      | _, _ => None
      end
  | _, _, _ => None
  end.

Section Service.
Context {W : Type} (provider : LLMProvider W).

Definition chat (r : ChatRequest) (w : W) : result chat_error ChatResponse * W :=
  let '(data, w) := provider_chat provider (chat_payload (default_model provider) [(u "stream", JBool false)] r) w in
  (result ← data ≫= _parse_chat_response;
   message ← make_message (pcr_role result) (pcr_content result);
   Ok (mkChatResponse (pcr_model result) (req_thread_id r) (pcr_created_at result) message (pcr_done result)
         (pcr_done_reason result) (pcr_prompt_tokens result) (pcr_completion_tokens result)), w).

(** The items that [chat_stream] yields when all are asked for, and its end *)
Definition chat_stream (r : ChatRequest) (w : W) : list ProviderChatResult * stream_end * W :=
  let '(chunks, e, w) := provider_stream provider (chat_payload (default_model provider) [] r) w in
  (omap _parse_stream_chunk chunks, e, w).

(** ** [ModelService] *)

Definition entry_name (item : json) : option pystr :=
  match item with JObj entry => text_of (field (u "name") entry) | _ => None end.

Definition _parse_models_response (data : list (pystr * json)) : result chat_error (list pystr) :=
  match field (u "models") data with
  | JArr raw_models => Ok (omap entry_name raw_models)
  | _ => Err (OllamaServiceError (u "Ollama response did not include a valid models list."))
  end.

(** The [id] of each model *)
Definition list_models (w : W) : result chat_error (list pystr) * W :=
  let '(data, w) := provider_models provider w in (data ≫= _parse_models_response, w).
End Service.

(** ** [ProviderRouter] *)

Section Router.
Context {W : Type} (default_provider openai_provider : LLMProvider W).

Definition route_provider (model : pystr) : LLMProvider W :=
  if decide (model = default_model default_provider) then default_provider
  else if starts_with (u "gpt-") model then openai_provider
  else default_provider.

Definition _provider_for_payload (payload : list (pystr * json)) : LLMProvider W :=
  route_provider (match field (u "model") payload with JStr m => m | _ => default_model default_provider end).

(** The router is a provider. *)
Definition router : LLMProvider W :=
  mkProvider (default_model default_provider)
    (fun payload => provider_chat (_provider_for_payload payload) payload)
    (fun payload => provider_stream (_provider_for_payload payload) payload)
    (provider_models default_provider).
End Router.

(** [close] of one provider: cancelled from outside or from within, or raising *)
Inductive close_end := Closed | ExternalCancel | InternalCancel (text : pystr) | CloseRaised (error : pystr).
Inductive router_close := CloseReturned | RaiseCancelled | RaiseError (error : pystr) | RaiseGroup (errors : list pystr).

(** [close] over what closing each provider came to: one provider when both are
    the same object. *)
Definition close_errors (ends : list close_end) : list pystr :=
  omap (fun e => match e with
                 | InternalCancel text => Some (u "Provider close cancelled: " ++ text)
                 | CloseRaised error => Some error
                 | _ => None
                 end) ends.
Definition close_router (same_provider : bool) (default_end openai_end : close_end) : router_close :=
  let ends := if same_provider then [default_end] else [default_end; openai_end] in
  if existsb (fun e => match e with ExternalCancel => true | _ => false end) ends then RaiseCancelled
  else match close_errors ends with
       | [] => CloseReturned
       | [e] => RaiseError e
       | errors => RaiseGroup errors
       end.

(** ** [UsageCollector] *)

Record RequestContext := mkContext {
  ctx_request_id : pystr;
  ctx_api_key : option pystr;
  ctx_workspace_id : option pystr
}.

Definition or_zero (n : option Z) : Z := default 0 n.

Definition usage_record (context : RequestContext) (model : pystr) (prompt completion : option Z) : UsageRecord :=
  mkUsageRecord (ctx_request_id context) model (or_zero prompt) (or_zero completion)
    (or_zero prompt + or_zero completion) (ctx_api_key context) (ctx_workspace_id context) None.

Definition record_chat (now : Z) (context : RequestContext) (response : ChatResponse) (s : InMemoryUsageRepository)
  : InMemoryUsageRepository :=
  service_record now
    (usage_record context (resp_model response) (resp_prompt_tokens response) (resp_completion_tokens response)) s.

(** What [record_stream] has seen of a stream: the model and the token counts *)
Record stream_usage := mkStreamUsage { su_model : pystr; su_prompt : option Z; su_completion : option Z }.

Definition see_result (s : stream_usage) (r : ProviderChatResult) : stream_usage :=
  mkStreamUsage (match pcr_model r with [] => su_model s | m => m end)
    (match pcr_prompt_tokens r with Some n => Some n | None => su_prompt s end)
    (match pcr_completion_tokens r with Some n => Some n | None => su_completion s end).

(** The end of [record_stream], once the results [seen] were handed out *)
Definition record_stream (now : Z) (context : RequestContext) (model : pystr) (seen : list ProviderChatResult)
    (s : InMemoryUsageRepository) : InMemoryUsageRepository :=
  let x := foldl see_result (mkStreamUsage model None None) seen in
  service_record now (usage_record context (su_model x) (su_prompt x) (su_completion x)) s.

(** ** [OpenAIAdapter] *)

Record OpenAIChatRequest := mkOpenAIRequest {
  oa_model : option pystr;
  oa_thread_id : option pystr;
  oa_messages : list ChatMessage;
  oa_temperature : option float64;
  oa_max_tokens : option Z
}.

(** The loop of [to_chat_request] over all messages but the last *)
Definition split_system (acc : option pystr * list ChatMessage) (m : ChatMessage)
  : result chat_error (option pystr * list ChatMessage) :=
  match acc with
  | (None, history) =>
      if decide (cm_role m = u "system") then Ok (Some (cm_content m), history)
      else m ← make_message (cm_role m) (cm_content m); Ok (None, history ++ [m])
  | (Some p, history) => m ← make_message (cm_role m) (cm_content m); Ok (Some p, history ++ [m])
  end.

(** [IndexError] is excluded by the schema: there is a message. *)
Definition to_chat_request (r : OpenAIChatRequest) : result chat_error ChatRequest :=
  match last (oa_messages r) with
  | None => Err InvalidMessage
  | Some last_message =>
      '(system_prompt, history) ← foldE split_system (None, []) (take (length (oa_messages r) - 1) (oa_messages r));
      message ← make_message (cm_role last_message) (cm_content last_message);
      Ok (mkChatRequest (cm_content message) (oa_thread_id r) (oa_model r) system_prompt history
            (oa_temperature r) (oa_max_tokens r))
  end.

Record OpenAIUsage := mkOpenAIUsage { ou_prompt_tokens : Z; ou_completion_tokens : Z; ou_total_tokens : Z }.
Record OpenAIChatResponse := mkOpenAIResponse {
  or_id : pystr;
  or_thread_id : option pystr;
  or_created : Z;
  or_model : pystr;
  or_message : ChatMessage;
  or_finish_reason : pystr;
  or_usage : option OpenAIUsage
}.

Section OpenAI.
(** [int(datetime.fromisoformat(s).timestamp())] with UTC as the default zone,
    where it does not raise *)
Context (timestamp_of : pystr -> option Z).

Definition _parse_created_at (created_at : option pystr) (fallback : Z) : Z :=
  default fallback (created_at ≫= timestamp_of).

Definition to_chat_response (completion_id : pystr) (fallback_created : Z) (r : ChatResponse) : OpenAIChatResponse :=
  mkOpenAIResponse completion_id (resp_thread_id r) (_parse_created_at (resp_created_at r) fallback_created)
    (resp_model r) (resp_message r) (match text_given (resp_done_reason r) with Some t => t | None => u "stop" end)
    (match resp_prompt_tokens r, resp_completion_tokens r with
     | None, None => None
     | p, c => Some (mkOpenAIUsage (or_zero p) (or_zero c) (or_zero p + or_zero c))
     end).

(** ** [OpenAIService] *)

(** What awaiting a step within [lifecycle.run] can raise *)
Inductive service_error := ChatFailed (e : chat_error) | LifecycleFailed (e : run_error) | QuotaServiceFailed.

(** What the end of the body does with the reservation: [__aexit__], where [ok]
    says whether the quota service answers *)
Definition leave {A} (ok : bool) (r : result service_error A) (lc : ReservationLifecycle)
  : result service_error A * ReservationLifecycle :=
  match aexit ok lc with
  | (Ok _, lc) => (r, lc)
  | (Err _, lc) => (Err QuotaServiceFailed, lc)
  end.

(** [chat_completions] once [lifecycle.run] has given [answer]; [lc] is the
    lifecycle at that moment. *)
Definition chat_completions (now : Z) (context : RequestContext) (completion_id : pystr) (fallback_created : Z)
    (settle_ok exit_ok : bool) (answer : result service_error ChatResponse) (lc : ReservationLifecycle)
    (usage : InMemoryUsageRepository)
  : result service_error OpenAIChatResponse * ReservationLifecycle * InMemoryUsageRepository :=
  match answer with
  | Err e => let '(r, lc) := leave exit_ok (Err e) lc in (r, lc, usage)
  | Ok response =>
      let usage := record_chat now context response usage in
      let '(s, lc) := settle settle_ok lc in
      let '(r, lc) := leave exit_ok
        (match s with
         | Ok _ => Ok (to_chat_response completion_id fallback_created response)
         | Err _ => Err QuotaServiceFailed
         end) lc in
      (r, lc, usage)
  end.

(** [chat_completions] over a provider, when no renewal fails meanwhile: [lc] is
    the lifecycle once entered. *)
Definition serve_completion {W} (provider : LLMProvider W) (now : Z) (context : RequestContext) (completion_id : pystr)
    (fallback_created : Z) (settle_ok exit_ok : bool) (request : OpenAIChatRequest) (lc : ReservationLifecycle)
    (usage : InMemoryUsageRepository) (w : W)
  : result service_error OpenAIChatResponse * ReservationLifecycle * InMemoryUsageRepository * W :=
  match to_chat_request request with
  | Err e => (Err (ChatFailed e), lc, usage, w)
  | Ok r =>
      let '(a, w) := chat provider r w in
      let answer := match a with Ok response => Ok response | Err e => Err (ChatFailed e) end in
      (chat_completions now context completion_id fallback_created settle_ok exit_ok answer lc usage, w)
  end.

Record OpenAIStreamChunk := mkStreamChunk {
  sc_id : pystr;
  sc_thread_id : option pystr;
  sc_created : Z;
  sc_model : pystr;
  sc_role : option pystr;
  sc_content : option pystr;
  sc_finish_reason : option pystr
}.

(** A [data:] line: a chunk or [[DONE]] *)
Inductive sse_item := SseChunk (c : OpenAIStreamChunk) | SseDone.

(** What [lifecycle.run(anext(tracked_stream))] gave, call after call: results,
    then the end of the stream or an exception *)
Inductive pull_end := PullStopped | PullRaised (e : service_error).

Section Stream.
Context (completion_id : pystr) (thread_id : option pystr) (created : Z) (model : pystr).

Definition role_chunk (r : ProviderChatResult) : OpenAIStreamChunk :=
  mkStreamChunk completion_id thread_id created (pcr_model r) (Some (u "assistant")) None None.
Definition content_chunk (r : ProviderChatResult) : OpenAIStreamChunk :=
  mkStreamChunk completion_id thread_id created (pcr_model r) None (Some (pcr_content r))
    (if pcr_done r then pcr_done_reason r else None).
Definition fallback_chunk : OpenAIStreamChunk :=
  mkStreamChunk completion_id thread_id created model (Some (u "assistant")) None (Some (u "stop")).

(** The loop: the lines, the results that were pulled, and the end *)
Fixpoint stream_loop (first_chunk_sent : bool) (pulls : list ProviderChatResult) (e : pull_end)
  : list sse_item * list ProviderChatResult * pull_end :=
  match pulls with
  | [] => ([], [], e)
  | r :: pulls =>
      let lines := (if first_chunk_sent then [] else [SseChunk (role_chunk r)]) ++ [SseChunk (content_chunk r)] in
      if pcr_done r then (lines, [r], PullStopped)
      else let '(l, seen, e) := stream_loop true pulls e in (lines ++ l, r :: seen, e)
  end.

(** [chat_completions_stream] to its end: the lines, and how it ends.  [lc] is
    the lifecycle after the last pull. *)
Definition chat_completions_stream (now : Z) (context : RequestContext) (settle_ok exit_ok : bool)
    (pulls : list ProviderChatResult) (e : pull_end) (lc : ReservationLifecycle) (usage : InMemoryUsageRepository)
  : list sse_item * result service_error unit * ReservationLifecycle * InMemoryUsageRepository :=
  let '(lines, seen, e) := stream_loop false pulls e in
  let usage := record_stream now context model seen usage in
  match e with
  | PullRaised err => let '(r, lc) := leave exit_ok (Err err) lc in (lines, r, lc, usage)
  | PullStopped =>
      let '(s, lc) := settle settle_ok lc in
      let '(r, lc) := leave exit_ok (match s with Ok _ => Ok tt | Err _ => Err QuotaServiceFailed end) lc in
      match r with
      | Err err => (lines, Err err, lc, usage)
      | Ok _ =>
          (lines ++ (match seen with [] => [SseChunk fallback_chunk] | _ => [] end) ++ [SseDone], Ok tt, lc, usage)
      end
  end.
End Stream.

(** [chat_completions_stream] over a provider, when no renewal fails meanwhile *)
Definition serve_stream {W} (provider : LLMProvider W) (now : Z) (context : RequestContext) (completion_id : pystr)
    (created : Z) (settle_ok exit_ok : bool) (request : OpenAIChatRequest) (lc : ReservationLifecycle)
    (usage : InMemoryUsageRepository) (w : W)
  : list sse_item * result service_error unit * ReservationLifecycle * InMemoryUsageRepository * W :=
  match to_chat_request request with
  | Err e => ([], Err (ChatFailed e), lc, usage, w)
  | Ok r =>
      let '(pulls, e, w) := chat_stream provider r w in
      (chat_completions_stream completion_id (req_thread_id r) created (model_or (default_model provider) (req_model r))
         now context settle_ok exit_ok pulls
         (match e with StreamStopped => PullStopped | StreamRaised err => PullRaised (ChatFailed err) end) lc usage, w)
  end.
End OpenAI.
