(* ===== verification/ChatServiceProps.v ===== *)
(** * Chat: theorems

    The two parsers of a provider's answer agree; the OpenAI service sends the
    conversation it was given, and its stream is a well formed sequence of
    chunks that is accounted for once. *)

From S2P Require Import Prelude Json Usage Lifecycle ChatService.
Local Open Scope Z_scope.

(** ** Parsing the answers of a provider *)

Definition dump_text (t : option pystr) : json := match t with Some s => JStr s | None => JNull end.
Definition dump_count (n : option Z) : json := match n with Some z => JInt z | None => JNull end.

(** The answer that carries a result *)
Definition result_payload (r : ProviderChatResult) : list (pystr * json) :=
  [(u "model", JStr (pcr_model r)); (u "created_at", dump_text (pcr_created_at r));
   (u "message", message_json (pcr_role r) (pcr_content r)); (u "done", JBool (pcr_done r));
   (u "done_reason", dump_text (pcr_done_reason r)); (u "prompt_eval_count", dump_count (pcr_prompt_tokens r));
   (u "eval_count", dump_count (pcr_completion_tokens r))].

Lemma optional_text_of message v t : optional_text message v = Ok t -> text_of v = t.
Proof. destruct v; intros [= <-]; done. Qed.

(** Both parsers read a result back from the answer that carries it, when its
    role is one of the three; and on any answer that [chat] accepts the parser of
    the streams gives the same result. *)
Theorem chat_parsers_agree :
  (forall r, pcr_role r ∈ _VALID_ROLES ->
     _parse_chat_response (result_payload r) = Ok r /\ _parse_stream_chunk (result_payload r) = Some r) /\
  (forall data r, _parse_chat_response data = Ok r -> _parse_stream_chunk data = Some r /\ pcr_role r ∈ _VALID_ROLES) /\
  (forall data r, _parse_stream_chunk data = Some r -> pcr_role r ∈ _VALID_ROLES).
Proof.
  assert (Hsecond : forall data r, _parse_chat_response data = Ok r ->
    _parse_stream_chunk data = Some r /\ pcr_role r ∈ _VALID_ROLES).
  { intros data r. unfold _parse_chat_response, _parse_stream_chunk.
    destruct (field (u "model") data) as [| | | |model| |]; try (intros H; discriminate H).
    destruct (field (u "done") data) as [|done| | | | |]; try (intros H; discriminate H).
    destruct (field (u "message") data) as [| | | | | |message]; try (intros H; discriminate H).
    destruct (field (u "role") message) as [| | | |role| |]; try (intros H; discriminate H).
    destruct (field (u "content") message) as [| | | |content| |]; try (intros H; discriminate H).
    destruct (decide (role ∈ _VALID_ROLES)) as [Hr|]; [|intros H; discriminate H].
    intros (c & Hc%optional_text_of & (d & Hd%optional_text_of & H)%bind_ok)%bind_ok. injection H as <-.
    by rewrite Hc, Hd. }
  split; [|split; [exact Hsecond|]].
  - intros r Hr. enough (H : _parse_chat_response (result_payload r) = Ok r) by (split; [exact H|by apply Hsecond]).
    destruct r as [m c ro co d dr p e]. unfold _parse_chat_response.
    change (field (u "model") _) with (JStr m). change (field (u "done") _) with (JBool d).
    change (field (u "message") _) with (message_json ro co). unfold message_json.
    change (field (u "role") _) with (JStr ro). change (field (u "content") _) with (JStr co).
    cbv beta iota. rewrite decide_True by exact Hr.
    change (field (u "created_at") _) with (dump_text c). change (field (u "done_reason") _) with (dump_text dr).
    unfold _extract_int. change (field (u "prompt_eval_count") _) with (dump_count p).
    change (field (u "eval_count") _) with (dump_count e). by destruct c, dr, p, e.
  - intros data r. unfold _parse_stream_chunk.
    destruct (field (u "model") data) as [| | | |model| |]; try (intros H; discriminate H).
    destruct (field (u "done") data) as [|done| | | | |]; try (intros H; discriminate H).
    destruct (field (u "message") data) as [| | | | | |message]; try (intros H; discriminate H).
    destruct (field (u "role") message) as [| | | |role| |]; try (intros H; discriminate H).
    destruct (field (u "content") message) as [| | | |content| |]; try (intros H; discriminate H).
    intros [= <-]. cbn [pcr_role]. destruct (decide (role ∈ _VALID_ROLES)); [done|].
    apply (bool_decide_unpack _). vm_compute. exact I.
Qed.

(** ** The conversation that is sent *)

(** The first system message among those before the last becomes the system
    prompt. *)
Definition is_system (m : ChatMessage) : bool := bool_decide (cm_role m = u "system").

Fixpoint take_system (l : list ChatMessage) : option pystr * list ChatMessage :=
  match l with
  | [] => (None, [])
  | m :: l => if is_system m then (Some (cm_content m), l) else let '(p, h) := take_system l in (p, m :: h)
  end.

Lemma make_message_ok role content m : make_message role content = Ok m -> m = mkChatMessage role content /\ content <> [].
Proof. destruct content; [intros H; discriminate H|]. intros [= <-]. done. Qed.

Lemma make_message_same m m' : make_message (cm_role m) (cm_content m) = Ok m' -> m' = m.
Proof. intros [-> _]%make_message_ok. by destruct m. Qed.

Lemma split_system_some p history l acc :
  foldE split_system (Some p, history) l = Ok acc -> acc = (Some p, history ++ l).
Proof.
  revert history. induction l as [|m l IH]; intros history; cbn [foldE]; [intros [= <-]; by rewrite app_nil_r|].
  cbn [split_system]. destruct (make_message (cm_role m) (cm_content m)) as [m'|e] eqn:E; [|intros H; discriminate H].
  apply make_message_same in E as ->. cbn [mbind result_bind]. intros H%IH. by rewrite <- app_assoc in H.
Qed.

Lemma split_system_none history l acc :
  foldE split_system (None, history) l = Ok acc -> acc = ((take_system l).1, history ++ (take_system l).2).
Proof.
  revert history. induction l as [|m l IH]; intros history; cbn [foldE take_system]; [intros [= <-]; by rewrite app_nil_r|].
  cbn [split_system]. unfold is_system. destruct (decide (cm_role m = u "system")) as [Hs|Hs].
  - rewrite bool_decide_true by done. intros H%split_system_some. done.
  - rewrite bool_decide_false by done. destruct (make_message (cm_role m) (cm_content m)) as [m'|e] eqn:E; [|intros H; discriminate H].
    apply make_message_same in E as ->. cbn [mbind result_bind]. intros H%IH.
    destruct (take_system l) as [p h]. cbn in *. by rewrite <- app_assoc in H.
Qed.

Lemma make_message_given m : cm_content m <> [] -> make_message (cm_role m) (cm_content m) = Ok m.
Proof. destruct m as [r [|c s]]; done. Qed.

Lemma fold_nonempty history l acc :
  foldE split_system (None, history) l = Ok acc -> Forall (fun m => cm_content m <> []) (take_system l).2.
Proof.
  assert (Hsome : forall p history l acc, foldE split_system (Some p, history) l = Ok acc ->
    Forall (fun m => cm_content m <> []) l).
  { clear. intros p history l. revert history. induction l as [|m l IH]; intros history acc; [constructor|].
    cbn [foldE split_system]. destruct (make_message (cm_role m) (cm_content m)) as [m'|e] eqn:E; [|intros H; discriminate H].
    apply make_message_ok in E as [_ E]. cbn [mbind result_bind]. intros H. constructor; [done|by eapply IH]. }
  revert history. induction l as [|m l IH]; intros history; cbn [foldE take_system]; [constructor|].
  cbn [split_system]. unfold is_system. destruct (decide (cm_role m = u "system")) as [Hs|Hs].
  - rewrite bool_decide_true by done. apply Hsome.
  - rewrite bool_decide_false by done. destruct (make_message (cm_role m) (cm_content m)) as [m'|e] eqn:E; [|intros H; discriminate H].
    apply make_message_ok in E as [_ E]. cbn [mbind result_bind]. intros H%IH.
    destruct (take_system l) as [p h]. by constructor.
Qed.

Lemma fold_accepts history l :
  Forall (fun m => cm_content m <> []) (take_system l).2 -> exists acc, foldE split_system (None, history) l = Ok acc.
Proof.
  assert (Hsome : forall p history l, Forall (fun m => cm_content m <> []) l ->
    exists acc, foldE split_system (Some p, history) l = Ok acc).
  { clear. intros p history l H. revert history. induction H as [|m l Hm _ IH]; intros history; [by eexists|].
    cbn [foldE split_system]. rewrite make_message_given by done. cbn [mbind result_bind]. apply IH. }
  revert history. induction l as [|m l IH]; intros history H; cbn [foldE take_system] in *; [by eexists|].
  cbn [split_system]. unfold is_system in H. destruct (decide (cm_role m = u "system")) as [Hs|Hs].
  - rewrite bool_decide_true in H by done. by apply Hsome.
  - rewrite bool_decide_false in H by done. destruct (take_system l) as [p h]. apply Forall_cons in H as [Hm H].
    rewrite make_message_given by done. cbn [mbind result_bind]. by apply IH.
Qed.

Definition sent (m : ChatMessage) : json := message_json (cm_role m) (cm_content m).

(** An accepted OpenAI request reaches the provider as the same conversation:
    the first system message before the last message comes first (unless it is
    empty, when it is dropped), the other messages follow in their order, and
    the last one is sent as the user's, whatever its role.  It is refused only
    when there is no message or one that is sent has no content. *)
Theorem openai_conversation_sent r before lastm :
  oa_messages r = before ++ [lastm] ->
  (forall req, to_chat_request r = Ok req ->
     _build_messages req
     = (match text_given (take_system before).1 with Some p => [message_json (u "system") p] | None => [] end)
       ++ (sent <$> (take_system before).2) ++ [message_json (u "user") (cm_content lastm)]) /\
  ((exists req, to_chat_request r = Ok req) <->
     cm_content lastm <> [] /\ Forall (fun m => cm_content m <> []) (take_system before).2).
Proof.
  intros Hm. assert (Hlast : last (oa_messages r) = Some lastm) by (rewrite Hm; apply last_snoc).
  assert (Htake : take (length (oa_messages r) - 1) (oa_messages r) = before).
  { rewrite Hm, length_app. cbn. replace (length before + 1 - 1)%nat with (length before) by lia. by rewrite take_app_length. }
  unfold to_chat_request. rewrite Hlast, Htake. split.
  - intros req ([p h] & Hf & (m & Hl & H)%bind_ok)%bind_ok. injection H as <-. apply make_message_same in Hl as ->.
    apply split_system_none in Hf. injection Hf as -> ->. done.
  - split.
    + intros (req & ([p h] & Hf & (m & Hl & _)%bind_ok)%bind_ok). split; [by apply make_message_ok in Hl as [_ ?]|].
      by eapply fold_nonempty.
    + intros [Hl Hh]. destruct (fold_accepts [] before Hh) as [acc ->]. cbn [mbind result_bind]. destruct acc as [p h].
      destruct (cm_content lastm) as [|c s]; [done|]. cbn. eauto.
Qed.

(** ** The stream of chunks *)

(** The results that are delivered: up to the first one that is done *)
Fixpoint until_done (l : list ProviderChatResult) : list ProviderChatResult :=
  match l with
  | [] => []
  | r :: l => if pcr_done r then [r] else r :: until_done l
  end.
Definition finished (l : list ProviderChatResult) : bool := existsb pcr_done l.

(** Chunks of one completion: the role is announced once, first; only the last
    chunk may carry a finish reason. *)
Record well_formed (id : pystr) (created : Z) (chunks : list OpenAIStreamChunk) : Prop := {
  wf_same : Forall (fun c => sc_id c = id /\ sc_created c = created) chunks;
  wf_role : forall c l, chunks = c :: l -> sc_role c = Some (u "assistant") /\ Forall (fun c => sc_role c = None) l;
  wf_finish : forall l c, chunks = l ++ [c] -> Forall (fun c => sc_finish_reason c = None) l
}.

Section Stream.
Context (id : pystr) (thread_id : option pystr) (created : Z) (model : pystr).
Abbreviation loop := (stream_loop id thread_id created).
Abbreviation content := (content_chunk id thread_id created).

Lemma loop_spec sent_first pulls e :
  loop sent_first pulls e
  = ((match until_done pulls with [] => [] | r :: _ => if sent_first then [] else [SseChunk (role_chunk id thread_id created r)] end)
     ++ ((fun r => SseChunk (content r)) <$> until_done pulls),
     until_done pulls, if finished pulls then PullStopped else e).
Proof.
  revert sent_first. induction pulls as [|r pulls IH]; intros sent_first; [done|].
  cbn [stream_loop until_done finished existsb]. destruct (pcr_done r); [by destruct sent_first|].
  rewrite IH. fold (finished pulls). cbn [orb]. destruct (until_done pulls); destruct sent_first; done.
Qed.

Definition delivered (pulls : list ProviderChatResult) : list OpenAIStreamChunk :=
  match until_done pulls with
  | [] => []
  | r :: _ => role_chunk id thread_id created r :: (content <$> until_done pulls)
  end.

Lemma loop_lines pulls e : (loop false pulls e).1.1 = SseChunk <$> delivered pulls.
Proof.
  rewrite loop_spec. unfold delivered. cbn [fst]. destruct (until_done pulls) as [|r l]; [done|].
  cbn [fmap list_fmap app]. do 2 f_equal. by rewrite <- list_fmap_compose.
Qed.

Lemma until_done_finish pulls l r : until_done pulls = l ++ [r] -> Forall (fun r => pcr_done r = false) l.
Proof.
  revert l. induction pulls as [|x pulls IH]; intros l; cbn [until_done]; [by destruct l|].
  destruct (pcr_done x) eqn:Ex.
  - destruct l as [|y l]; [constructor|]. intros [= <- H]. by destruct l.
  - destruct l as [|y l]; [constructor|]. intros [= <- H]. constructor; [done|by apply IH].
Qed.

Lemma delivered_well_formed pulls : well_formed id created (delivered pulls).
Proof.
  unfold delivered. destruct (until_done pulls) as [|r l] eqn:E; [split; [constructor|done|by intros [|? ?]]|].
  split.
  - constructor; [done|]. apply Forall_fmap, Forall_forall. by intros.
  - intros c l' [= <- <-]. split; [done|]. constructor; [done|]. apply Forall_fmap, Forall_forall. by intros.
  - intros l' c H. destruct l' as [|c' l']; [constructor|]. injection H as <- H. constructor; [done|].
    apply (fmap_app_inv content (r :: l) l' [c]) in H as (a & b & -> & Hb & Hab). rewrite Hab in E.
    apply eq_sym, fmap_cons_inv in Hb as (x & b' & _ & Hb' & ->). apply eq_sym, fmap_nil_inv in Hb' as ->.
    apply until_done_finish in E. apply Forall_fmap. apply (Forall_impl _ _ _ E). intros y Hy. cbn. by rewrite Hy.
Qed.
End Stream.

(** ** Settlement *)

(** A lifecycle that was entered with a reservation and has not ended it *)
Definition entered (i : pystr) (lc : ReservationLifecycle) : Prop :=
  managed lc = Some i /\ _finalized lc = false /\ final_calls lc = [].

Lemma managed_stop lc : managed (_stop_renewal lc) = managed lc.
Proof. done. Qed.

Lemma finalize_entered call ok i lc : (is_final (call i) = true) -> entered i lc ->
  finalize call ok lc
  = if ok then (Ok tt, mkLifecycle (_reservation lc) (_has_service lc) NoSignal false true (calls lc ++ [call i]))
    else (Err tt, _stop_renewal lc).
Proof. intros Hc (Hm & Hf & _). unfold finalize. rewrite managed_stop, Hm. cbn [_finalized _stop_renewal]. rewrite Hf. by destruct ok. Qed.

Lemma final_calls_snoc r h s b f cs c : is_final c = true ->
  final_calls (mkLifecycle r h s b f (cs ++ [c])) = filter (fun c => is_final c) cs ++ [c].
Proof.
  intros Hc. unfold final_calls. cbn. rewrite filter_app, filter_cons, filter_nil. rewrite decide_True; [done|by rewrite Hc].
Qed.

(** Leaving a body that did not settle releases the reservation. *)
Lemma leave_entered {A} ok (r : result service_error A) i lc : entered i lc ->
  let '(r', lc') := leave ok r lc in
  r' = (if ok then r else Err QuotaServiceFailed) /\ final_calls lc' = (if ok then [CallRelease i] else []).
Proof.
  intros He. unfold leave, aexit. assert (He' : entered i (_stop_renewal lc)) by exact He.
  destruct He as (Hm & Hf & Hc). cbn [_finalized _stop_renewal]. rewrite Hf. cbn [negb].
  change (mkLifecycle _ _ _ _ _ _) with (_stop_renewal lc). unfold release.
  rewrite (finalize_entered _ _ i) by done. destruct ok; [|by split]. split; [done|].
  rewrite final_calls_snoc by done. unfold final_calls in Hc. cbn. by rewrite Hc.
Qed.

Lemma settle_then_leave {A} settle_ok exit_ok (a : A) i lc : entered i lc ->
  let '(s, lc1) := settle settle_ok lc in
  let '(r, lc2) := leave exit_ok (match s with Ok _ => Ok a | Err _ => Err QuotaServiceFailed end) lc1 in
  r = (if settle_ok then Ok a else Err QuotaServiceFailed) /\
  final_calls lc2 = (if settle_ok then [CallSettle i] else if exit_ok then [CallRelease i] else []).
Proof.
  intros He. unfold settle. rewrite (finalize_entered _ _ i) by done. destruct settle_ok.
  - unfold leave, aexit. cbn. split; [done|]. destruct He as (_ & _ & Hc). unfold final_calls in Hc.
    change (filter _ (calls lc ++ [CallSettle i]))
      with (final_calls (mkLifecycle (_reservation lc) (_has_service lc) NoSignal false true (calls lc ++ [CallSettle i]))).
    rewrite final_calls_snoc by done. by rewrite Hc.
  - pose proof (leave_entered exit_ok (Err (A := A) QuotaServiceFailed) i (_stop_renewal lc) He) as H.
    destruct (leave exit_ok _ (_stop_renewal lc)) as [r lc2]. destruct H as [-> ->]. by destruct exit_ok.
Qed.

Definition stopped (e : pull_end) : bool := match e with PullStopped => true | PullRaised _ => false end.

Lemma delivered_content id thread_id created pulls :
  mjoin (omap sc_content (delivered id thread_id created pulls)) = mjoin (pcr_content <$> until_done pulls).
Proof.
  unfold delivered. destruct (until_done pulls) as [|r l]; [done|]. cbn [omap list_omap sc_content role_chunk].
  generalize (r :: l). clear. intros k. induction k as [|x k IH]; [done|]. rewrite !fmap_cons.
  change (pcr_content x ++ mjoin (omap sc_content (content_chunk id thread_id created <$> k)) = pcr_content x ++ mjoin (pcr_content <$> k)).
  by rewrite IH.
Qed.

Lemma fallback_well_formed id thread_id created model : well_formed id created [fallback_chunk id thread_id created model].
Proof.
  split; [by repeat constructor|by intros c l [= <- <-]|].
  intros [|c' l] c H; [constructor|]. injection H as _ H. by destruct l.
Qed.

(** The lines of a completed stream are a well formed sequence of chunks, at
    least one, whose contents are those of the results up to the first one that
    is done, followed by the only [[DONE]]; a stream that fails has no [[DONE]]
    and its lines are such chunks as well.  It completes exactly when a result
    was done or the provider stopped, and the quota service settled.  Usage is
    recorded once, with the last model and counts reported by the results that
    were pulled, on success and on failure.  The reservation is settled when the
    stream completes and released when the provider failed, once. *)
Theorem openai_stream_protocol completion_id thread_id created model now context settle_ok exit_ok pulls e i lc usage :
  entered i lc ->
  let '(lines, r, lc', usage') :=
    chat_completions_stream completion_id thread_id created model now context settle_ok exit_ok pulls e lc usage in
  let completes := finished pulls || stopped e in
  (exists chunks, well_formed completion_id created chunks /\
     mjoin (omap sc_content chunks) = mjoin (pcr_content <$> until_done pulls) /\
     ((r = Ok tt /\ chunks <> [] /\ lines = (SseChunk <$> chunks) ++ [SseDone]) \/
      ((exists err, r = Err err) /\ lines = SseChunk <$> chunks))) /\
  (r = Ok tt <-> completes = true /\ settle_ok = true) /\
  usage' = record_stream now context model (until_done pulls) usage /\
  final_calls lc' = (if completes && settle_ok then [CallSettle i] else if exit_ok then [CallRelease i] else []).
Proof.
  intros He. unfold chat_completions_stream.
  destruct (stream_loop completion_id thread_id created false pulls e) as [[lines seen] e'] eqn:El.
  pose proof (loop_lines completion_id thread_id created pulls e) as Hl. rewrite El in Hl. cbn in Hl. subst lines.
  rewrite loop_spec in El. injection El as _ <- <-.
  pose proof (delivered_well_formed completion_id thread_id created pulls) as Hw.
  pose proof (delivered_content completion_id thread_id created pulls) as Hc.
  assert (Hcomp : finished pulls || stopped e = stopped (if finished pulls then PullStopped else e))
    by (by destruct (finished pulls)).
  rewrite Hcomp. destruct (if finished pulls then PullStopped else e) as [|err]; cbn [stopped andb].
  - pose proof (settle_then_leave settle_ok exit_ok tt i lc He) as Hs. destruct (settle settle_ok lc) as [s lc1].
    destruct (leave exit_ok _ lc1) as [r lc2]. destruct Hs as [-> Hcalls]. destruct settle_ok.
    + split; [|by split]. exists (delivered completion_id thread_id created pulls ++
        (match until_done pulls with [] => [fallback_chunk completion_id thread_id created model] | _ => [] end)).
      unfold delivered in *. destruct (until_done pulls) as [|x l].
      * split; [apply fallback_well_formed|]. split; [done|]. left. done.
      * rewrite app_nil_r. split; [exact Hw|]. split; [exact Hc|]. left. split; [done|]. split; [done|]. by rewrite app_nil_l.
    + split; [|split; [split; [intros H; discriminate H|by intros [_ ?]]|by split]].
      exists (delivered completion_id thread_id created pulls). split; [exact Hw|]. split; [exact Hc|]. right. split; [by eexists|done].
  - pose proof (leave_entered exit_ok (Err (A := unit) err) i lc He) as Hs.
    destruct (leave exit_ok _ lc) as [r lc2]. destruct Hs as [-> Hcalls].
    split; [|split; [split; [intros H; by destruct exit_ok|by intros [? _]]|by split]].
    exists (delivered completion_id thread_id created pulls). split; [exact Hw|]. split; [exact Hc|]. right.
    split; [|done]. destruct exit_ok; by eexists.
Qed.

Definition demo_result (content : string) (done_ : bool) (tokens : option Z) : ProviderChatResult :=
  mkResult (u "m") None (u "assistant") (u content) done_ (if done_ then Some (u "stop") else None) tokens tokens.
Definition demo_lifecycle : ReservationLifecycle := aenter (lifecycle_init (Some (u "r")) true).
Definition demo_context : RequestContext := mkContext (u "req") (Some (u "key")) None.

Lemma openai_stream_protocol_witness :
  let '(lines, r, lc, _) := chat_completions_stream (u "c") None 0 (u "m") 0 demo_context true true
    [demo_result "Hel" false None; demo_result "lo" true (Some 3); demo_result "late" false None] PullStopped
    demo_lifecycle (mkUsageRepo [] []) in
  r = Ok tt /\ final_calls lc = [CallSettle (u "r")] /\ length lines = 4%nat.
Proof.
  pose proof (openai_stream_protocol (u "c") None 0 (u "m") 0 demo_context true true
    [demo_result "Hel" false None; demo_result "lo" true (Some 3); demo_result "late" false None] PullStopped (u "r")
    demo_lifecycle (mkUsageRepo [] []) ltac:(by vm_compute)) as H.
  destruct (chat_completions_stream _ _ _ _ _ _ _ _ _ _ _ _) as [[[lines r] lc] us] eqn:E.
  cbv zeta in H. destruct H as (_ & [_ Hr] & _ & Hc). split; [apply Hr; by vm_compute|].
  split; [rewrite Hc; by vm_compute|]. vm_compute in E. by injection E as <- _ _ _.
Defined.

Lemma openai_conversation_sent_witness :
  let r := mkOpenAIRequest None None [mkChatMessage (u "user") (u "hi"); mkChatMessage (u "system") (u "be brief");
    mkChatMessage (u "assistant") (u "yes?")] None None in
  exists req, to_chat_request r = Ok req /\
    _build_messages req = [message_json (u "system") (u "be brief"); message_json (u "user") (u "hi");
                           message_json (u "user") (u "yes?")].
Proof.
  cbv zeta. eexists. split; [vm_compute; reflexivity|].
  refine (proj1 (openai_conversation_sent (mkOpenAIRequest None None [mkChatMessage (u "user") (u "hi");
    mkChatMessage (u "system") (u "be brief"); mkChatMessage (u "assistant") (u "yes?")] None None)
    [mkChatMessage (u "user") (u "hi"); mkChatMessage (u "system") (u "be brief")]
    (mkChatMessage (u "assistant") (u "yes?")) eq_refl) _ _). vm_compute. reflexivity.
Defined.
