(* ===== verification/AgentRuntimeWorld.v ===== *)
(** * What a run does to the world around it

    Two facts about [AgentRuntime.run] over any environment, for the clients that
    implement one ([AgentModel]): an invariant of the outside world that every
    call of the environment keeps is kept by the whole run ([run_keeps_world]);
    and a property of states that the model guarantees before it answers, and
    that tool results establish, holds of every completed run ([run_completes_in]). *)

From S2P Require Import Prelude Json ToolModels AgentRuntime AgentRuntimeFacts.
Local Open Scope Z_scope.

Section World.
Context {W : Type} (env : runtime_env W) (rt : AgentRuntime) (ra : run_args) (I : W -> Prop).

(** The calls of the environment keep [I]. *)
Record env_keeps : Prop := {
  ek_utc_now w : I w -> I (env_utc_now env w).2;
  ek_loop_time w : I w -> I (env_loop_time env w).2;
  ek_cancel w : I w -> I (env_cancel_is_set env w).2;
  ek_decide t st w : I w -> I (env_decide env t st w).2;
  ek_stream st w : I w -> I (env_stream env st w).2;
  ek_chunk t w : I w -> I (env_next_chunk env t w).2;
  ek_end t w : I w -> I (env_stream_end env t w).2;
  ek_close w : I w -> I (env_stream_close env w).2;
  ek_execute t r c x w : I w -> I (env_execute env t r c x w).2;
  ek_plain t c x w : I w -> I (env_run_plain env t c x w).2
}.
Context (K : env_keeps).

Definition keeps {A} (m : M A) : Prop := forall s : RunS, I (rs_world s) -> I (rs_world (m s).2).

Lemma wk_ret {A} (a : A) : keeps (ret a).
Proof. intros s Hs. exact Hs. Qed.
Lemma wk_raise {A} e : keeps (raise (A:=A) e).
Proof. intros s Hs. exact Hs. Qed.
Lemma wk_return {A} r : keeps (return_result (A:=A) r).
Proof. intros s Hs. exact Hs. Qed.
Lemma wk_get_state : keeps get_state.
Proof. intros s Hs. exact Hs. Qed.
Lemma wk_get_events : keeps get_events.
Proof. intros s Hs. exact Hs. Qed.
Lemma wk_mod_state f : keeps (mod_state f).
Proof. intros s Hs. exact Hs. Qed.
Lemma wk_push b e : keeps (push_event rt b e).
Proof. intros s Hs. exact Hs. Qed.
Lemma wk_notify r : keeps (notify_finish rt r).
Proof. intros s Hs. exact Hs. Qed.
Lemma wk_lift {A} (r : result exn A) : keeps (lift_result r).
Proof. destruct r; intros s Hs; exact Hs. Qed.

Lemma wk_bind {A B} (m : M A) (k : A -> M B) : keeps m -> (forall a, keeps (k a)) -> keeps (bind m k).
Proof.
  intros Hm Hk s Hs. unfold bind. specialize (Hm s Hs). destruct (m s) as [[a|r|e] s'] eqn:E; [|exact Hm|exact Hm].
  by apply Hk.
Qed.
Lemma wk_try {A} (m : M A) h : keeps m -> (forall e, keeps (h e)) -> keeps (try_except m h).
Proof.
  intros Hm Hh s Hs. unfold try_except. specialize (Hm s Hs).
  destruct (m s) as [[a|r|e] s'] eqn:E; [exact Hm|exact Hm|]. by apply Hh.
Qed.
Lemma wk_world {A} (f : W -> A * W) : (forall w, I w -> I (f w).2) -> keeps (world f).
Proof. intros Hf s Hs. unfold world. specialize (Hf _ Hs). by destruct (f (rs_world s)). Qed.

Hint Resolve wk_ret wk_raise wk_return wk_get_state wk_get_events wk_mod_state wk_push
  wk_notify wk_lift : keeps.
Hint Resolve ek_utc_now ek_loop_time ek_cancel ek_decide ek_stream ek_chunk ek_end ek_close ek_execute ek_plain : keeps.

(** Goes through the structure of a program. *)
Ltac keep :=
  repeat first
    [ progress intros
    | solve [eauto with keeps]
    | apply wk_bind
    | apply wk_try
    | apply wk_world
    | match goal with |- keeps (match ?x with _ => _ end) => destruct x end
    | match goal with |- keeps (if ?x then _ else _) => destruct x end
    | match goal with |- keeps (let '(_, _) := ?x in _) => destruct x end ].

Lemma wk_append b k fs : keeps (_append_event env rt b k fs).
Proof. unfold _append_event. keep. Qed.
Hint Resolve wk_append : keeps.
Lemma wk_complete_each l : keeps (complete_each env rt l).
Proof. induction l; simpl; keep. Qed.
Hint Resolve wk_complete_each : keeps.
Lemma wk_finish {A} status reason ans err : keeps (_finish (A:=A) env rt status reason ans err).
Proof. unfold _finish, _complete_open_steps. keep. Qed.
Hint Resolve wk_finish : keeps.
Lemma wk_remaining d : keeps (_remaining env d).
Proof. unfold _remaining. keep. Qed.
Hint Resolve wk_remaining : keeps.
Lemma wk_check_stop d : keeps (_check_stop env ra d).
Proof. unfold _check_stop. keep. Qed.
Hint Resolve wk_check_stop : keeps.
Lemma wk_await {A} d (op : option Z -> W -> waited A * W) :
  (forall t w, I w -> I (op t w).2) -> keeps (_await_controlled env ra d op).
Proof. intros H. unfold _await_controlled. keep. Qed.
Hint Resolve wk_await : keeps.
Lemma wk_call_error {A} e : keeps (finish_call_error (A:=A) env rt e).
Proof. unfold finish_call_error. keep. Qed.
Hint Resolve wk_call_error : keeps.
Lemma wk_tool_error {A} e : keeps (finish_tool_error (A:=A) env rt e).
Proof. unfold finish_tool_error. keep. Qed.
Lemma wk_run_error {A} e : keeps (finish_run_error (A:=A) env rt e).
Proof. unfold finish_run_error. keep. Qed.
Hint Resolve wk_tool_error wk_run_error : keeps.

Lemma wk_chunks d i n parts : keeps (consume_chunks env rt ra d i n parts).
Proof.
  revert parts. induction n as [|n IH]; intros parts; simpl; keep.
Qed.
Hint Resolve wk_chunks : keeps.
Lemma wk_finally {A} (m : M A) : keeps m -> keeps (finally_close env m).
Proof.
  intros Hm s Hs. unfold finally_close. specialize (Hm s Hs). destruct (m s) as [c s1]. simpl in Hm.
  pose proof (wk_world (env_stream_close env) (ek_close K) s1 Hm) as Hw.
  destruct (world (env_stream_close env) s1) as [[[e|]|r|e] s2]; exact Hw.
Qed.
Hint Resolve wk_finally : keeps.
Lemma wk_consume d i : keeps (_consume_answer_stream env rt ra d i).
Proof. unfold _consume_answer_stream. keep. Qed.
Hint Resolve wk_consume : keeps.
Lemma wk_execute_tool call i d : keeps (_execute_tool env rt ra call i d).
Proof. unfold _execute_tool. keep. Qed.
Hint Resolve wk_execute_tool : keeps.
Lemma wk_tool_call i d call : keeps (run_tool_call env rt ra i d call).
Proof. unfold run_tool_call. keep. Qed.
Hint Resolve wk_tool_call : keeps.
Lemma wk_tool_calls i d calls res re : keeps (run_tool_calls env rt ra i d calls res re).
Proof. revert res re. induction calls; intros; simpl; keep. Qed.
Hint Resolve wk_tool_calls : keeps.
Lemma wk_after d i dec : keeps (after_decision env rt ra d i dec).
Proof. unfold after_decision, answer_branch, tools_branch. keep. Qed.
Hint Resolve wk_after : keeps.
Lemma wk_step d : keeps (run_step env rt ra d).
Proof. unfold run_step. keep. Qed.
Hint Resolve wk_step : keeps.
Lemma wk_steps n d : keeps (run_steps env rt ra n d).
Proof. induction n; simpl; keep. Qed.
Hint Resolve wk_steps : keeps.

Lemma run_keeps_world fresh_id w : I w -> I (rs_world (AgentRuntime.run env rt ra fresh_id w).2).
Proof.
  intros Hw. unfold AgentRuntime.run.
  assert (H : keeps (bind (lift_result (check_arguments ra)) (fun _ => run_body env rt ra))).
  { unfold run_body, run_loop, after_steps. keep. }
  by apply H.
Qed.
End World.

(** ** What holds of a completed run *)

Section Completes.
Context {W : Type} (env : runtime_env W) (rt : AgentRuntime) (ra : run_args) (G : AgentState -> Prop).
Context (G_message : forall m st, G st -> G (add_message m st)) (G_step : forall x st, G st -> G (add_step x st))
  (G_usage : forall n st, G st -> G (add_usage n st)).

(** A decision in state [st]: [G] holds already, or the decision calls tools
    whose results establish it. *)
Definition leads_to_G (st : AgentState) (d : AgentDecision) : Prop :=
  G st \/ (answer d = None /\
           forall i results st', res_name <$> results = call_name <$> tool_calls d -> G (add_step (mkAgentStep i d results) st')).
Context (Hdecide : forall t st w d c w', env_decide env t st w = (WaitReturned (Some (Ok d)) c, w') -> leads_to_G st d).

Definition R : AgentRunResult -> @RunS W -> Prop := fun r _ => rr_status r = RunStatus.COMPLETED -> G (rr_state r).
Definition X : exn -> @RunS W -> Prop := fun _ _ => True.

(** [G], or no step yet *)
Definition ready (s : @RunS W) : Prop := G (rs_state s) \/ st_steps (rs_state s) = [].

(** Parts of a run that leave the state as it is *)
Definition still {A} (m : M A) : Prop :=
  forall s (Q : A -> @RunS W -> Prop), (forall a s', rs_state s' = rs_state s -> Q a s') -> wp R X m Q s.

Lemma still_world {A} (f : W -> A * W) : still (world f).
Proof. intros s Q H. apply wp_world. intros a s' (E & _). by apply H. Qed.
Lemma still_remaining d : still (_remaining env d).
Proof. intros s Q H. apply wp_remaining. intros a s' (E & _). by apply H. Qed.
Lemma still_check_stop d : still (_check_stop env ra d).
Proof. intros s Q H. apply wp_check_stop. intros a s' (E & _) _. by apply H. Qed.
Lemma still_await {A} d (op : option Z -> W -> waited A * W) : still (_await_controlled env ra d op).
Proof. intros s Q H. apply wp_await; [|done]. intros a s' (E & _). by apply H. Qed.
Lemma still_append b k fs : still (_append_event env rt b k fs).
Proof.
  intros s Q H. apply wp_append. intros s' Ha. apply H. unfold appended in Ha. naive_solver.
Qed.
Lemma still_complete_each l : still (complete_each env rt l).
Proof.
  induction l as [|i l IH]; intros s Q H; simpl; [by apply wp_ret, H|].
  apply wp_bind, still_append. intros [] s' E. apply IH. intros [] s'' E'. apply H. congruence.
Qed.

Lemma cp_completes {A} status reason ans err (Q : A -> _ -> Prop) s :
  (status = RunStatus.COMPLETED -> G (rs_state s)) -> wp R X (_finish env rt status reason ans err) Q s.
Proof.
  intros HG. unfold _finish, _complete_open_steps. apply wp_bind, wp_bind, wp_get_events, still_complete_each.
  intros [] s1 E1. apply wp_bind, wp_get_events, wp_bind.
  assert (Hnext : forall s2, rs_state s2 = rs_state s ->
    wp R X (bind get_state (fun st => bind (_append_event env rt true AgentEventKind.RUN_STOPPED
      [FStatus status; FStopReason reason; FMessage err; FCumulative (st_token_usage st)])
      (fun _ => bind get_events (fun final => bind (notify_finish rt (build_result status reason ans err st final))
         (fun _ => return_result (build_result status reason ans err st final)))))) Q s2).
  { intros s2 E2. apply wp_bind, wp_get_state, wp_bind, still_append. intros [] s3 E3.
    apply wp_bind, wp_get_events, wp_bind. unfold wp, notify_finish, return_result, R. simpl.
    intros Hs. rewrite E2. auto. }
  destruct ans as [a|]; [|by apply wp_ret, Hnext].
  destruct (_ && _); [|by apply wp_ret, Hnext]. apply still_append. intros [] s2 E2. apply Hnext. congruence.
Qed.

Lemma cp_stops {A} r ans err (Q : A -> _ -> Prop) s :
  stop_ok r -> wp R X (_finish env rt (_status_for r) r ans err) Q s.
Proof. intros Hr. apply cp_completes. by destruct Hr as [->| ->]. Qed.

Lemma cp_call_error {A} e (Q : A -> _ -> Prop) s : wp R X (finish_call_error env rt e) Q s.
Proof.
  destruct e as [r|[|]| |m]; simpl; try (apply cp_completes; discriminate).
  apply cp_completes. by destruct r.
Qed.
Lemma cp_tool_error {A} e (Q : A -> _ -> Prop) s : wp R X (finish_tool_error env rt e) Q s.
Proof. destruct e; unfold finish_tool_error; first [apply cp_call_error|exact I]. Qed.
Lemma cp_run_error {A} e (Q : A -> _ -> Prop) s : wp R X (finish_run_error env rt e) Q s.
Proof. destruct e; unfold finish_run_error; first [apply cp_call_error|exact I]. Qed.

Lemma still_chunks d i n parts : still (consume_chunks env rt ra d i n parts).
Proof.
  revert parts. induction n as [|n IH]; intros parts s Q H; simpl.
  - apply wp_bind, still_await. intros [] s' E. by apply wp_ret, H.
  - apply wp_bind, still_await. intros [content|] s' E; [|done].
    case_bool_decide; [apply IH; intros; apply H; congruence|].
    apply wp_bind, still_append. intros [] s2 E2. apply IH. intros. apply H. congruence.
Qed.

Lemma still_consume d i : still (_consume_answer_stream env rt ra d i).
Proof.
  intros s Q H. unfold _consume_answer_stream. apply wp_bind, wp_get_state, wp_bind, still_world.
  intros [| |n] s1 E1; [done|done|]. apply wp_bind.
  assert (Hf : wp R X (finally_close env (consume_chunks env rt ra d i n []))
    (fun parts s' => rs_state s' = rs_state s) s1).
  { pose proof (still_chunks d i n [] s1 (fun _ s' => rs_state s' = rs_state s1) (fun _ _ E => E)) as Hc.
    unfold wp, finally_close in *. destruct (consume_chunks env rt ra d i n [] s1) as [c s2].
    destruct (world (env_stream_close env) s2) as [c' s3] eqn:E3. unfold world in E3.
    destruct (env_stream_close env (rs_world s2)) as [x w]. simplify_eq.
    destruct x as [e|]; [done|]. destruct c; simpl in *; [congruence|exact Hc|done]. }
  eapply wp_mono; [exact Hf| |done]. intros parts s' E. case_bool_decide; [done|]. by apply wp_ret, H.
Qed.

(** A tool call: one message more, and the result of the call's name unless it
    came from the steps before *)
Definition grown (s s' : @RunS W) : Prop :=
  st_steps (rs_state s') = st_steps (rs_state s) /\ (G (rs_state s) -> G (rs_state s')).

Lemma grown_refl s s' : rs_state s' = rs_state s -> grown s s'.
Proof. intros E. unfold grown. by rewrite E. Qed.
Lemma grown_trans a b c : grown a b -> grown b c -> grown a c.
Proof. intros [E1 H1] [E2 H2]. split; [congruence|auto]. Qed.

Lemma cp_execute_tool call i d (Q : ToolResult -> @RunS W -> Prop) s :
  (forall r s', rs_state s' = rs_state s -> res_name r = call_name call -> Q r s') ->
  wp R X (_execute_tool env rt ra call i d) Q s.
Proof.
  intros H. unfold _execute_tool. apply wp_bind, wp_get_state. destruct (rt_uses_executor rt).
  - apply wp_bind, still_remaining. intros t s1 E1. apply wp_bind, still_await. intros x s2 E2.
    apply wp_ret, H; [congruence|done].
  - destruct (negb _); [by apply wp_ret, H|]. apply wp_try, wp_bind.
    apply wp_await.
    + intros c s1 (E1 & _). apply wp_ret, H; [done|]. unfold tool_success. by destruct (_truncate_tool_output _ c).
    + intros e s1 _ (E1 & _). destruct e; first [exact I|by apply wp_ret, H].
Qed.

Lemma cp_tool_call i d call (Q : ToolResult * bool -> @RunS W -> Prop) s :
  (forall rc s', grown s s' -> (st_steps (rs_state s) = [] -> res_name rc.1 = call_name call) -> Q rc s') ->
  wp R X (run_tool_call env rt ra i d call) Q s.
Proof.
  intros H. unfold run_tool_call. apply wp_bind.
  apply wp_check_stop. intros stop s1 (E1 & _) Hstop. apply wp_bind.
  assert (Hnext : wp R X (bind (_append_event env rt true AgentEventKind.TOOL_STARTED [FStep i; FToolCall call])
    (fun _ => bind get_state (fun st =>
       bind (match _find_cached_tool_result st call with
             | Some c => ret (as_cached call c, true)
             | None => bind (try_except (_execute_tool env rt ra call i d) (finish_tool_error env rt)) (fun r => ret (r, false))
             end) (fun rc => bind (mod_state (add_message (tool_message rc.1))) (fun _ =>
               bind (_append_event env rt true
                 (if res_succeeded rc.1 then AgentEventKind.TOOL_COMPLETED else AgentEventKind.TOOL_FAILED)
                 [FStep i; FToolCall call; FToolResult rc.1; FMessage (res_error rc.1)]) (fun _ => ret rc)))))) Q s1).
  { apply wp_bind, still_append. intros [] s2 E2. apply wp_bind, wp_get_state, wp_bind.
    assert (Hend : forall rc s3, rs_state s3 = rs_state s2 ->
      (st_steps (rs_state s) = [] -> res_name rc.1 = call_name call) ->
      wp R X (bind (mod_state (add_message (tool_message rc.1))) (fun _ =>
               bind (_append_event env rt true
                 (if res_succeeded rc.1 then AgentEventKind.TOOL_COMPLETED else AgentEventKind.TOOL_FAILED)
                 [FStep i; FToolCall call; FToolResult rc.1; FMessage (res_error rc.1)]) (fun _ => ret rc))) Q s3).
    { intros rc s3 E3 Hn. apply wp_bind. unfold wp at 1, mod_state. cbv beta iota.
      apply wp_bind, still_append. intros [] s4 E4. apply wp_ret, H; [|done]. unfold grown. rewrite E4. simpl.
      rewrite E3, E2, E1. split; [done|apply G_message]. }
    destruct (_find_cached_tool_result (rs_state s2) call) as [c|] eqn:Ec.
    - apply wp_ret, Hend; [done|]. intros Hs. unfold _find_cached_tool_result in Ec.
      rewrite E2, E1, Hs in Ec. discriminate Ec.
    - apply wp_bind, wp_try. eapply wp_mono; [apply (cp_execute_tool call i d
        (fun r s' => rs_state s' = rs_state s2 /\ res_name r = call_name call)); auto| |intros; apply cp_tool_error].
      intros r s3 [E3 Hr]. by apply wp_ret, Hend. }
  destruct stop as [r|]; [|by apply wp_ret].
  apply cp_stops. by apply Hstop.
Qed.

Lemma cp_tool_calls i d calls results reused (Q : list ToolResult * option ToolResult -> @RunS W -> Prop) s :
  (forall out s', grown s s' ->
     (st_steps (rs_state s) = [] -> res_name <$> out.1 = (res_name <$> results) ++ (call_name <$> calls)) -> Q out s') ->
  wp R X (run_tool_calls env rt ra i d calls results reused) Q s.
Proof.
  revert results reused s. induction calls as [|call calls IH]; intros results reused s H; simpl.
  - apply wp_ret, H; [by apply grown_refl|]. intros _. by rewrite app_nil_r.
  - apply wp_bind, cp_tool_call. intros rc s1 Hg Hn. apply IH. intros out s2 Hg2 Ho. apply H; [by eapply grown_trans|].
    intros Hs. destruct Hg as [E _]. rewrite Ho by congruence. rewrite fmap_app, <- app_assoc. simpl. by rewrite Hn.
Qed.

Lemma remaining_next d s : exists t s', _remaining env d s = (Next t, s') /\ rs_state s' = rs_state s.
Proof.
  unfold _remaining. destruct d as [d|]; [|by eexists _, _].
  unfold bind, world. destruct (env_loop_time env (rs_world s)) as [n w]. by eexists _, _.
Qed.

Lemma cp_answer_branch d i dec a (Q : unit -> @RunS W -> Prop) s :
  G (rs_state s) -> wp R X (answer_branch env rt ra d i dec a) Q s.
Proof.
  intros HG. unfold answer_branch. apply wp_bind.
  assert (Hnext : forall final s1, rs_state s1 = rs_state s ->
    wp R X (bind (mod_state (add_message (mkAgentMessage RoleAssistant final None None))) (fun _ =>
      bind (if ra_stream_answer ra then ret tt
            else _append_event env rt true AgentEventKind.ANSWER [FStep i; FMessage (Some final)]) (fun _ =>
      bind (mod_state (add_step (mkAgentStep i dec []))) (fun _ =>
      bind (_append_event env rt false AgentEventKind.STEP_COMPLETED [FStep i]) (fun _ =>
      _finish env rt RunStatus.COMPLETED StopReason.DIRECT_ANSWER (Some final) None))))) Q s1).
  { intros final s1 E1. apply wp_bind. unfold wp at 1, mod_state. cbv beta iota. apply wp_bind.
    assert (Htail : forall s2, G (rs_state s2) ->
      wp R X (bind (mod_state (add_step (mkAgentStep i dec []))) (fun _ =>
        bind (_append_event env rt false AgentEventKind.STEP_COMPLETED [FStep i]) (fun _ =>
        _finish env rt RunStatus.COMPLETED StopReason.DIRECT_ANSWER (Some final) None))) Q s2).
    { intros s2 H2. apply wp_bind. unfold wp at 1, mod_state. cbv beta iota. apply wp_bind, still_append.
      intros [] s3 E3. apply cp_completes. intros _. rewrite E3. by apply G_step. }
    destruct (ra_stream_answer ra); [apply wp_ret, Htail; simpl; rewrite E1; by apply G_message|].
    apply still_append. intros [] s2 E2. apply Htail. rewrite E2. simpl. rewrite E1. by apply G_message. }
  destruct (ra_stream_answer ra); [|by apply wp_ret, Hnext].
  apply wp_try. pose proof (still_consume d i s (fun final s' => wp R X _ Q s') (fun final s' E => Hnext final s' E)) as Hc.
  eapply wp_mono; [exact Hc|done|]. intros e s' _. apply cp_call_error.
Qed.

Lemma cp_tools_branch d i dec (Q : unit -> @RunS W -> Prop) s st :
  ready s -> leads_to_G st dec -> (G st -> G (rs_state s)) -> answer dec = None ->
  (forall s', ready s' -> Q tt s') -> wp R X (tools_branch env rt ra d i dec) Q s.
Proof.
  intros Hr Hl Hst Ha HQ. unfold tools_branch. apply wp_bind.
  assert (Hnext : wp R X (bind (run_tool_calls env rt ra i d (tool_calls dec) [] None) (fun out =>
    bind (mod_state (add_step (mkAgentStep i dec out.1))) (fun _ =>
    bind (_append_event env rt false AgentEventKind.STEP_COMPLETED [FStep i]) (fun _ =>
    match out.2 with
    | Some r => if forallb is_calculator (tool_calls dec) && res_succeeded r
                then _finish env rt RunStatus.COMPLETED StopReason.DIRECT_ANSWER (Some (res_content r)) None else ret tt
    | None => ret tt
    end)))) Q s).
  { apply wp_bind, cp_tool_calls. intros out s1 [E1 Hg1] Ho. apply wp_bind. unfold wp at 1, mod_state. cbv beta iota.
    apply wp_bind, still_append. intros [] s2 E2. simpl in E2.
    assert (HG2 : G (rs_state s2)).
    { rewrite E2. destruct Hl as [Hl|[_ Hl]]; [by apply G_step, Hg1, Hst|].
      destruct Hr as [Hr|Hr]; [by apply G_step, Hg1|]. apply Hl. by rewrite Ho. }
    destruct out.2 as [r|]; [|by apply wp_ret, HQ; left].
    destruct (_ && _); [|by apply wp_ret, HQ; left]. by apply cp_completes. }
  destruct (_ && _ && _); [|by apply wp_ret].
  apply wp_bind. unfold wp at 1, mod_state. cbv beta iota. apply cp_completes. discriminate.
Qed.

Lemma cp_step d (Q : unit -> @RunS W -> Prop) s :
  ready s -> (forall s', ready s' -> Q tt s') -> wp R X (run_step env rt ra d) Q s.
Proof.
  intros Hr HQ. unfold run_step. apply wp_bind, wp_check_stop. intros stop s1 (E1 & _) Hstop. apply wp_bind.
  destruct stop as [r|]; [by apply cp_stops, Hstop|]. apply wp_ret, wp_bind, wp_get_state, wp_bind.
  destruct (over_budget_before _ _); [apply cp_completes; discriminate|]. apply wp_ret. cbv zeta.
  apply wp_bind, still_append. intros [] s2 E2. apply wp_bind, wp_try.
  eapply (wp_mono _ (fun _ s' => rs_state s' = rs_state s) _ _
    (fun dec s' => rs_state s' = rs_state s /\ leads_to_G (rs_state s1) dec)); [| |intros; apply cp_call_error].
  { destruct (remaining_next d s2) as (t & s3 & Ht & E3).
    unfold wp, _await_controlled, bind. rewrite Ht. unfold world.
    destruct (env_decide env t (rs_state s1) (rs_world s3)) as [wt w'] eqn:Ed. cbv beta iota.
    destruct (controlled (ra_has_cancel ra) wt) as [dec|e] eqn:Ec; simpl; [|congruence].
    split; [congruence|]. unfold controlled in Ec. destruct wt as [q|[[dec'|e']|] c]; try discriminate Ec.
    - destruct (ra_has_cancel ra && c); simpl in Ec; [discriminate Ec|]. simplify_eq. by eapply Hdecide.
    - exfalso. destruct (ra_has_cancel ra && c); simpl in Ec; discriminate Ec.
    - exfalso. destruct (ra_has_cancel ra && c); simpl in Ec; discriminate Ec. }
  intros dec s3 [E3 Hl]. unfold after_decision. apply wp_bind, wp_get_state, wp_bind, still_append. intros [] s4 E4.
  apply wp_bind. destruct (_validate_decision dec); [apply cp_completes; discriminate|]. apply wp_ret, wp_bind.
  assert (Hnext : forall s5, st_steps (rs_state s5) = st_steps (rs_state s) -> (G (rs_state s) -> G (rs_state s5)) ->
    wp R X (bind get_state (fun st' =>
      bind (if over_budget_after ra st'
            then bind (mod_state (add_step (mkAgentStep (Z.of_nat (length (st_steps (rs_state s1))) + 1) dec []))) (fun _ =>
                   bind (_append_event env rt false AgentEventKind.STEP_COMPLETED
                     [FStep (Z.of_nat (length (st_steps (rs_state s1))) + 1)]) (fun _ =>
                   _finish env rt RunStatus.STOPPED StopReason.TOKEN_BUDGET_EXCEEDED None None))
            else ret tt) (fun _ =>
      match answer dec with
      | Some a => answer_branch env rt ra d (Z.of_nat (length (st_steps (rs_state s1))) + 1) dec a
      | None => tools_branch env rt ra d (Z.of_nat (length (st_steps (rs_state s1))) + 1) dec
      end))) Q s5).
  { intros s5 E5 HG5. apply wp_bind, wp_get_state, wp_bind. destruct (over_budget_after _ _).
    { apply wp_bind. unfold wp at 1, mod_state. cbv beta iota. apply wp_bind, still_append. intros [] s6 _.
      apply cp_completes. discriminate. }
    apply wp_ret. rewrite E1 in Hl. destruct (answer dec) as [a|] eqn:Ea.
    - apply cp_answer_branch. destruct Hl as [Hl|[Hl _]]; [by apply HG5|congruence].
    - eapply cp_tools_branch; eauto. destruct Hr as [Hr|Hr]; [left; auto|right; congruence]. }
  assert (E34 : rs_state s4 = rs_state s) by congruence.
  destruct (token_usage dec) as [n|].
  - unfold wp at 1, mod_state. cbv beta iota. apply Hnext; simpl; rewrite E34; [done|apply G_usage].
  - apply wp_ret, Hnext; by rewrite E34.
Qed.

Lemma cp_steps n d (Q : unit -> @RunS W -> Prop) s :
  ready s -> (forall s', ready s' -> Q tt s') -> wp R X (run_steps env rt ra n d) Q s.
Proof.
  revert s. induction n as [|n IH]; intros s Hr HQ; simpl; [by apply wp_ret, HQ|].
  apply wp_bind, cp_step; [done|]. intros s' Hr'. by apply IH.
Qed.

(** A result that reports [COMPLETED] comes with a state in which [G] holds. *)
Lemma run_completes_in fresh_id w r s :
  AgentRuntime.run env rt ra fresh_id w = (Return r, s) -> rr_status r = RunStatus.COMPLETED -> G (rr_state r).
Proof.
  intros Hrun. assert (H : wp R X (bind (lift_result (check_arguments ra)) (fun _ => run_body env rt ra)) (fun _ _ => True)
    (mkRunS (initial_state ra fresh_id) [] [] [] None w)).
  { apply wp_bind. destruct (check_arguments ra) as [[]|e]; simpl; [|exact I]. apply wp_ret.
    unfold run_body. apply wp_bind, wp_get_state, wp_bind, still_append. intros [] s1 E1.
    apply wp_bind, still_world. intros now s2 E2. unfold run_loop. apply wp_try, wp_bind.
    assert (Hs : wp R X (run_steps env rt ra (Z.to_nat (ra_max_steps ra)) (_resolve_deadline now (ra_timeout ra) (ra_deadline ra)))
      (fun _ s' => ready s') s2).
    { apply cp_steps; [|done]. right. rewrite E2, E1. done. }
    eapply wp_mono; [exact Hs| |intros; apply cp_run_error]. intros [] s3 Hr.
    eapply (wp_mono _ X _ _ (fun _ _ => True)); [|done|intros; apply cp_run_error].
    unfold after_steps. apply wp_bind, wp_get_state. destruct (_last_calculator_result (rs_state s3)) as [a|] eqn:El.
    - apply cp_completes. intros _. destruct Hr as [Hr|Hr]; [done|]. unfold _last_calculator_result in El.
      rewrite Hr in El. discriminate El.
    - apply cp_completes. discriminate. }
  unfold wp in H. unfold AgentRuntime.run in Hrun. rewrite Hrun in H. exact H.
Qed.
End Completes.
