(* ===== verification/AgentModel.v ===== *)
(** * The model of an agent run: [_ChatServiceAgentModel] of [app/services/agent_service.py]

    The adapter between the agent runtime and the chat service: the prompts it
    builds, the budget of each provider call, the reservation guard called before
    it, the token counts it keeps, the parsing of a decision, the
    [knowledge_search] it forces under the RAG preset, and the generator
    [stream_answer] with the ways it can be left.

    Its world is a record: the state of the adapter, the reserved prompt tokens
    of the closure [ensure_prompt_reservation], the generator, and an outer world
    [W] in which the provider, the tools and the quota service act ([Platform]).
    [rw_log] keeps what was sent and what was reported, for the theorems only. *)

From Corelib Require Import SpecFloat.
From S2P Require Import Prelude Json JsonLoads ToolModels ToolExecutor Quota AuditLog Memory AgentRuntime ChatService.
Local Open Scope Z_scope.

(** ** The request: [schemas/agent.py] *)

Definition DEFAULT_AGENT_MAX_STEPS : Z := 4.
Definition MAX_AGENT_MAX_STEPS : Z := 20.
Definition DEFAULT_AGENT_TOKEN_BUDGET : Z := 8192.
Definition MAX_AGENT_TOKEN_BUDGET : Z := 16384.

(** The timeout is in ticks of the deadline clock, [max_timeout] its bound in
    ticks; the last two fields are [model_fields_set]. *)
Record AgentRunRequest := mkAgentRequest {
  ar_message : pystr;
  ar_agent_id : option pystr;
  ar_model : option pystr;
  ar_system_prompt : option pystr;
  ar_history : list ChatMessage;
  ar_max_steps : Z;
  ar_timeout_seconds : Z;
  ar_token_budget : Z;
  ar_rag_preset : bool;
  ar_model_set : bool;
  ar_max_steps_set : bool
}.

(** What pydantic checks *)
Definition valid_agent_request (max_timeout : Z) (r : AgentRunRequest) : bool :=
  negb (bool_decide (ar_message r = []))
  && match ar_agent_id r with Some i => slen i <=? 128 | None => true end
  && match ar_model r with Some m => negb (bool_decide (m = [])) | None => true end
  && forallb (fun m => bool_decide (cm_role m ∈ _VALID_ROLES) && negb (bool_decide (cm_content m = []))) (ar_history r)
  && (1 <=? ar_max_steps r) && (ar_max_steps r <=? MAX_AGENT_MAX_STEPS)
  && (0 <? ar_timeout_seconds r) && (ar_timeout_seconds r <=? max_timeout)
  && (0 <? ar_token_budget r) && (ar_token_budget r <=? MAX_AGENT_TOKEN_BUDGET).

(** ** Texts *)

Definition newline : pystr := [10%N].

(** The built-in prompts ([prompts/builtins.py]); a back quote stands for a
    double quote. *)
Definition with_quotes (s : pystr) : pystr := (fun c => if (c =? 96)%N then 34%N else c) <$> s.

Definition BUILTIN_AGENT_PROTOCOL_PROMPT : pystr :=
  with_quotes (u "You are the decision model for a bounded agent runtime. Return JSON only.
Use exactly one of these shapes:
{`type`:`final_answer`,`answer`:`non-empty answer`}
{`type`:`tool_call`,`call_id`:`unique-id`,`name`:`tool-name`,`arguments`:{}}
Do not use Markdown fences or add explanatory text outside the JSON object.
Only call a tool that appears in the available tools list, and use a JSON object
that matches its parameters schema.").

Definition BUILTIN_RAG_PRESET_PROMPT : pystr :=
  u "You are answering from an indexed knowledge base. Before producing any final
answer you MUST call the knowledge_search tool with the user's question as the
query. Base your final answer only on the retrieved sources. If knowledge_search
returns no relevant sources, an empty knowledge base, or an error, your final
answer must explicitly state that the knowledge base has no relevant content for
the question. Do not answer from unretrieved general knowledge and do not invent
sources, distances, document names, or citations.".

(** [f`{x:.1f}`]: tenths, the exact value rounded half to even *)
Definition format_1f (x : float64) : pystr :=
  let sign (s : bool) := if s then u "-" else [] in
  match x with
  | S754_zero s => sign s ++ u "0.0"
  | S754_infinity s => sign s ++ u "inf"
  | S754_nan => u "nan"
  | S754_finite s m e =>
      let n := 10 * float_num m e in
      let d := float_den e in
      let q := n / d in
      let r := n mod d in
      let t := if (d <? 2 * r) || ((2 * r =? d) && Z.odd q) then q + 1 else q in
      sign s ++ str_of_Z (t / 10) ++ u "." ++ str_of_Z (t mod 10)
  end.

Definition memory_kind_value (k : MemoryKind.t) : pystr :=
  match k with MemoryKind.FACT => u "fact" | MemoryKind.PREFERENCE => u "preference" | MemoryKind.INSTRUCTION => u "instruction" end.

Definition memory_line (item : MemoryItem) : pystr :=
  u "- [" ++ memory_kind_value (mi_kind item) ++ u "] confidence=" ++ format_1f (mi_confidence item) ++ u ": "
  ++ sprefix 512 (mi_content item).

Definition _build_memory_block (items : list MemoryItem) : pystr :=
  match items with
  | [] => []
  | _ => newline ++ newline ++ u "Long-term memory (trusted, explicitly stored user context):" ++ newline
         ++ sjoin newline (memory_line <$> items)
  end.

Definition role_value (r : AgentMessageRole) : pystr :=
  match r with RoleUser => u "user" | RoleAssistant => u "assistant" | RoleTool => u "tool" end.

Definition _build_transcript (r : AgentRunRequest) (st : AgentState) : pystr :=
  let history := sjoin newline ((fun m => cm_role m ++ u ": " ++ cm_content m) <$> ar_history r) in
  let current := sjoin newline ((fun m => role_value (msg_role m) ++ u ": " ++ msg_content m) <$> st_messages st) in
  sjoin newline
    [u "Conversation history:"; (match history with [] => u "(none)" | _ => history end); u "Agent state:"; current].

(** ** The adapter *)

(** What [__init__] fixes *)
Record model_config := mkModelConfig {
  mc_request : AgentRunRequest;
  mc_tool_schemas : list json;
  mc_base_prompt : pystr;
  mc_memory_items : list MemoryItem
}.

Definition _default_base_prompt (rag : bool) : pystr :=
  sjoin (newline ++ newline)
    (if rag then [BUILTIN_RAG_PRESET_PROMPT; BUILTIN_AGENT_PROTOCOL_PROMPT] else [BUILTIN_AGENT_PROTOCOL_PROMPT]).

(** [base_prompt or self._default_base_prompt()] *)
Definition model_config_init (r : AgentRunRequest) (schemas : list json) (base_prompt : option pystr)
    (items : list MemoryItem) : model_config :=
  mkModelConfig r schemas (match text_given base_prompt with Some p => p | None => _default_base_prompt (ar_rag_preset r) end)
    items.

Definition _build_system_prompt (cfg : model_config) : pystr :=
  let tools_prompt := newline ++ newline ++ u "Available tools:" ++ newline
                      ++ dump_json_plain (sort_keys_rec (JArr (mc_tool_schemas cfg))) in
  let base_prompt := mc_base_prompt cfg ++ tools_prompt ++ _build_memory_block (mc_memory_items cfg) in
  match text_given (ar_system_prompt (mc_request cfg)) with
  | Some p => p ++ newline ++ newline ++ base_prompt
  | None => base_prompt
  end.

Definition prompt_messages (cfg : model_config) (user : pystr) : list (pystr * pystr) :=
  [(u "system", _build_system_prompt cfg); (u "user", user)].

Definition estimate_prompt_tokens_for_state (cfg : model_config) (st : AgentState) : Z :=
  estimate_prompt_tokens (prompt_messages cfg (_build_transcript (mc_request cfg) st)).

(** The mutable fields *)
Record agent_model := mkAgentModel {
  am_prompt_tokens : option Z;
  am_completion_tokens : option Z;
  am_actual_model : pystr;
  am_model_call_count : Z;
  am_usage_complete : bool;
  am_answer_stream_usage_recorded : bool
}.

Definition agent_model_init (default_model : pystr) (r : AgentRunRequest) : agent_model :=
  mkAgentModel (Some 0) (Some 0) (model_or default_model (ar_model r)) 0 true false.

Definition has_model_call (m : agent_model) : bool := 0 <? am_model_call_count m.

(** One count more: unknown once a count is missing *)
Definition add_tokens (reported total : option Z) : option Z :=
  match reported, total with Some n, Some t => Some (t + n) | _, _ => None end.

Definition both_known (p c : option Z) : bool := is_some p && is_some c.

(** [decide], from the response to the counts *)
Definition see_response (resp : ChatResponse) (m : agent_model) : agent_model :=
  let p := resp_prompt_tokens resp in
  let c := resp_completion_tokens resp in
  mkAgentModel (add_tokens p (am_prompt_tokens m)) (add_tokens c (am_completion_tokens m)) (resp_model resp)
    (am_model_call_count m + 1) (am_usage_complete m && both_known p c) (am_answer_stream_usage_recorded m).

Definition _record_chunk_usage (chunk : ProviderChatResult) (m : agent_model) : agent_model :=
  if negb (pcr_done chunk) || am_answer_stream_usage_recorded m then m
  else
    let p := pcr_prompt_tokens chunk in
    let c := pcr_completion_tokens chunk in
    mkAgentModel (add_tokens p (am_prompt_tokens m)) (add_tokens c (am_completion_tokens m)) (am_actual_model m)
      (am_model_call_count m) (am_usage_complete m && both_known p c) true.

Definition _mark_answer_stream_usage_incomplete (m : agent_model) : agent_model :=
  mkAgentModel (if bool_decide (am_prompt_tokens m = Some 0) then None else am_prompt_tokens m) None (am_actual_model m)
    (am_model_call_count m) false (am_answer_stream_usage_recorded m).

Definition count_call (m : agent_model) : agent_model :=
  mkAgentModel (am_prompt_tokens m) (am_completion_tokens m) (am_actual_model m) (am_model_call_count m + 1)
    (am_usage_complete m) (am_answer_stream_usage_recorded m).
Definition set_actual_model (name : pystr) (m : agent_model) : agent_model :=
  mkAgentModel (am_prompt_tokens m) (am_completion_tokens m) name (am_model_call_count m)
    (am_usage_complete m) (am_answer_stream_usage_recorded m).

Definition observed_tokens (m : agent_model) : Z := or_zero (am_prompt_tokens m) + or_zero (am_completion_tokens m).

Definition _remaining_max_tokens (r : AgentRunRequest) (m : agent_model) : Z :=
  Z.max (ar_token_budget r - observed_tokens m) 1.

(** ** Decisions *)

Definition text_field (key : pystr) (d : list (pystr * json)) : option pystr :=
  match field key d with JStr s => if bool_decide (strip s = []) then None else Some s | _ => None end.

(** [None]: not a string or blank; [Err] carries the text of the [ValueError]. *)
Definition _parse_decision (content : pystr) : result pystr AgentDecision :=
  match loads content with
  | None => Err (u "model decision was not valid JSON")
  | Some (JObj d) =>
      if bool_decide (field (u "type") d = JStr (u "final_answer")) then
        match text_field (u "answer") d with
        | Some a => Ok (mkAgentDecision (Some a) [] None true)
        | None => Err (u "final_answer decision requires a non-empty answer")
        end
      else if bool_decide (field (u "type") d = JStr (u "tool_call")) then
        match text_field (u "call_id") d with
        | None => Err (u "tool_call decision requires a call_id")
        | Some call_id =>
            match text_field (u "name") d with
            | None => Err (u "tool_call decision requires a tool name")
            | Some name =>
                match default (JObj []) (dict_get (u "arguments") d) with
                | JObj arguments => Ok (mkAgentDecision None [mkToolCall call_id name arguments] None true)
                | _ => Err (u "tool_call arguments must be a JSON object")
                end
            end
        end
      else Err (u "model decision contains an unknown type")
  | Some _ => Err (u "model decision must be a JSON object")
  end.

Definition knowledge_search : pystr := u "knowledge_search".

Definition _has_executed_knowledge_search (st : AgentState) : bool :=
  existsb (fun x => existsb (fun r => bool_decide (res_name r = knowledge_search)) (step_tool_results x)) (st_steps st).

Definition forced_search (st : AgentState) : ToolCall :=
  mkToolCall (u "knowledge-" ++ str_of_Z (Z.of_nat (length (st_steps st)) + 1)) knowledge_search
    [(u "query", JStr (st_user_input st))].

(** [decide], from the parsed decision to its value *)
Definition finish_decision (rag : bool) (st : AgentState) (d : AgentDecision) (token_usage : option Z)
    (usage_complete : bool) : AgentDecision :=
  if rag && negb (_has_executed_knowledge_search st)
     && negb (existsb (fun call => bool_decide (call_name call = knowledge_search)) (tool_calls d))
  then mkAgentDecision None [forced_search st] token_usage usage_complete
  else mkAgentDecision (answer d) (tool_calls d) token_usage usage_complete.

Definition FINAL_ANSWER_INSTRUCTION : pystr :=
  u "Write the final answer to the user. Return answer text only; do not return JSON or discuss this instruction.".

Definition answer_message (r : AgentRunRequest) (st : AgentState) : pystr :=
  _build_transcript r st ++ newline ++ newline ++ FINAL_ANSWER_INSTRUCTION.

(** ** The world of a run *)

(** How awaiting a call next to the cancellation waiter goes: to the end of the
    call, or cut at one of its suspension points, which leaves the outer world
    as given. *)
Inductive cut_point := BeforeStart | InGuard | InCall.
Inductive cut_cause := ByDeadline | ByCancelEvent | ByCancellation (quota : bool).
Inductive wait_plan (W : Type) := RunsToEnd (cancel_done : bool) | CutAt (p : cut_point) (cause : cut_cause) (after : W).
Arguments RunsToEnd {W}.
Arguments CutAt {W}.

(** What the service asks of the rest of the platform: the provider behind the
    chat service, the quota service and the usage collector. *)
Class Platform (W : Type) := {
  pf_provider : LLMProvider W;
  pf_reserve : pystr -> option Z -> Z -> option pystr -> W -> result quota_error (option QuotaReservation) * W;
  pf_extend : pystr -> Z -> option pystr -> W -> result quota_error unit * W;
  (** whether the call returned *)
  pf_settle : pystr -> W -> bool * W;
  pf_release : pystr -> W -> bool * W;
  (** [usage_collector.record_chat] *)
  pf_record_chat : RequestContext -> ChatResponse -> W -> W
}.

(** The generator of [stream_answer] *)
Inductive generator :=
| NoStream
| NotStarted (st : AgentState)
| Running (rest : list ProviderChatResult) (e : stream_end) (saw_terminal : bool)
| Ended.

(** What was reserved on top, what was sent, and what was reported *)
Inductive call_event :=
| PromptExtended (additional : Z)
| CallSent (request : ChatRequest)
| CallReported (prompt completion : option Z)
| StreamBroken.

Record run_world (W : Type) := mkRunWorld {
  rw_model : agent_model;
  rw_reserved : Z;
  rw_stream : generator;
  rw_log : list call_event;
  rw_tick : nat;
  rw_outer : W
}.
Arguments mkRunWorld {W}.
Arguments rw_model {W}.
Arguments rw_reserved {W}.
Arguments rw_stream {W}.
Arguments rw_log {W}.
Arguments rw_tick {W}.
Arguments rw_outer {W}.

Section World.
Context {W : Type}.
Implicit Types w : run_world W.

Definition with_model (f : agent_model -> agent_model) w : run_world W :=
  mkRunWorld (f (rw_model w)) (rw_reserved w) (rw_stream w) (rw_log w) (rw_tick w) (rw_outer w).
Definition with_reserved (n : Z) w : run_world W :=
  mkRunWorld (rw_model w) n (rw_stream w) (rw_log w) (rw_tick w) (rw_outer w).
Definition with_stream (g : generator) w : run_world W :=
  mkRunWorld (rw_model w) (rw_reserved w) g (rw_log w) (rw_tick w) (rw_outer w).
Definition log_call (e : call_event) w : run_world W :=
  mkRunWorld (rw_model w) (rw_reserved w) (rw_stream w) (rw_log w ++ [e]) (rw_tick w) (rw_outer w).
Definition with_outer (o : W) w : run_world W :=
  mkRunWorld (rw_model w) (rw_reserved w) (rw_stream w) (rw_log w) (rw_tick w) o.
Definition tick w : run_world W :=
  mkRunWorld (rw_model w) (rw_reserved w) (rw_stream w) (rw_log w) (S (rw_tick w)) (rw_outer w).
End World.

(** The readings of the clocks, of the cancellation event and of the waits, in
    the order in which the run makes them *)
Record schedule (W : Type) := mkSchedule {
  sch_utc_now : nat -> Z;
  sch_loop_time : nat -> Z;
  sch_cancel_is_set : nat -> bool;
  sch_wait : nat -> wait_plan W;
  (** ticks as the seconds of a tool's timeout *)
  sch_seconds : Z -> float64
}.
Arguments sch_utc_now {W}.
Arguments sch_loop_time {W}.
Arguments sch_cancel_is_set {W}.
Arguments sch_wait {W}.
Arguments sch_seconds {W}.
Arguments mkSchedule {W}.

Section Model.
Context {W : Type} {P : Platform W} (sch : schedule W).
(** [str(exc)] of what a chat call raised *)
Context (chat_error_text : chat_error -> pystr).
Context (cfg : model_config) (reservation : option pystr) (workspace_id : option pystr).

Definition quota_op_error (e : quota_error) : op_error :=
  match e with
  | Quota.QuotaExceededError _ _ => OpQuotaExceeded
  | AssertionError => OpError []
  | RuntimeError => OpError []
  end.

(** [ensure_prompt_reservation] *)
Definition ensure_prompt_reservation (prompt_tokens : Z) (w : run_world W) : result op_error unit * run_world W :=
  let additional_tokens := prompt_tokens - rw_reserved w in
  match reservation with
  | None => (Ok tt, w)
  | Some i =>
      if additional_tokens <=? 0 then (Ok tt, w)
      else match pf_extend i additional_tokens workspace_id (rw_outer w) with
           | (Ok _, o) => (Ok tt, log_call (PromptExtended additional_tokens) (with_reserved prompt_tokens (with_outer o w)))
           | (Err e, o) => (Err (quota_op_error e), with_outer o w)
           end
  end.

Definition chat_request (message : pystr) (m : agent_model) : ChatRequest :=
  mkChatRequest message None (ar_model (mc_request cfg)) (Some (_build_system_prompt cfg)) [] None
    (Some (_remaining_max_tokens (mc_request cfg) m)).

(** [decide] *)
Definition decide (st : AgentState) (w : run_world W) : result op_error AgentDecision * run_world W :=
  let transcript := _build_transcript (mc_request cfg) st in
  match ensure_prompt_reservation (estimate_prompt_tokens (prompt_messages cfg transcript)) w with
  | (Err e, w) => (Err e, w)
  | (Ok _, w) =>
      let request := chat_request transcript (rw_model w) in
      let w := log_call (CallSent request) w in
      match chat pf_provider request (rw_outer w) with
      | (Err e, o) => (Err (OpError (chat_error_text e)), with_outer o w)
      | (Ok resp, o) =>
          let w := log_call (CallReported (resp_prompt_tokens resp) (resp_completion_tokens resp))
                     (with_model (see_response resp) (with_outer o w)) in
          match _parse_decision (cm_content (resp_message resp)) with
          | Err m => (Err (OpError m), w)
          | Ok d =>
              (Ok (finish_decision (ar_rag_preset (mc_request cfg)) st d
                     (add_tokens (resp_completion_tokens resp) (resp_prompt_tokens resp))
                     (am_usage_complete (rw_model w))), w)
          end
      end
  end.

(** [stream_answer]: from its start to the loop over the chunks *)
Definition begin_answer (st : AgentState) (w : run_world W) : result op_error unit * run_world W :=
  let message := answer_message (mc_request cfg) st in
  match ensure_prompt_reservation (estimate_prompt_tokens (prompt_messages cfg message)) w with
  | (Err e, w) => (Err e, with_stream Ended w)
  | (Ok _, w) =>
      let request := chat_request message (rw_model w) in
      let w := with_model count_call (log_call (CallSent request) w) in
      let '(chunks, e, o) := chat_stream pf_provider request (rw_outer w) in
      (Ok tt, with_stream (Running chunks e false) (with_outer o w))
  end.

(** The generator is left by an exception, or without a terminal chunk. *)
Definition break_stream (w : run_world W) : run_world W :=
  log_call StreamBroken (with_stream Ended (with_model _mark_answer_stream_usage_incomplete w)).

Definition see_chunk (c : ProviderChatResult) (w : run_world W) : run_world W :=
  let w' := with_model (_record_chunk_usage c) w in
  let w' := if pcr_done c && negb (am_answer_stream_usage_recorded (rw_model w))
            then log_call (CallReported (pcr_prompt_tokens c) (pcr_completion_tokens c)) w' else w' in
  match pcr_model c with [] => w' | name => with_model (set_actual_model name) w' end.

(** One [anext] within the loop: a chunk, the end ([None]), or an exception *)
Definition pull (w : run_world W) : result op_error (option answer_chunk) * run_world W :=
  match rw_stream w with
  | Running (c :: rest) e saw =>
      (Ok (Some (Chunk (pcr_content c))), with_stream (Running rest e (saw || pcr_done c)) (see_chunk c w))
  | Running [] StreamStopped saw => (Ok None, if saw then with_stream Ended w else break_stream w)
  | Running [] (StreamRaised e) _ => (Err (OpError (chat_error_text e)), break_stream w)
  | NoStream | NotStarted _ | Ended => (Ok None, w)
  end.

Definition anext (w : run_world W) : result op_error (option answer_chunk) * run_world W :=
  match rw_stream w with
  | NotStarted st =>
      match begin_answer st w with
      | (Err e, w) => (Err e, w)
      | (Ok _, w) => pull w
      end
  | _ => pull w
  end.

(** [aclose]: [GeneratorExit] at the [yield] of a running generator *)
Definition aclose (w : run_world W) : run_world W :=
  match rw_stream w with
  | Running _ _ _ => break_stream w
  | NotStarted _ => with_stream Ended w
  | _ => w
  end.

(** How many times [anext] goes on before the end of the stream: an exception
    counts as one. *)
Definition stream_length (st : AgentState) (w : run_world W) : nat :=
  match begin_answer st w with
  | (Err _, _) => 1
  | (Ok _, w) =>
      match rw_stream w with
      | Running l e _ => length l + (match e with StreamRaised _ => 1 | StreamStopped => 0 end)
      | _ => 0
      end
  end%nat.

(** ** Waiting *)

Definition cut_wait {A} (cause : cut_cause) : waited A :=
  match cause with
  | ByDeadline => WaitReturned None false
  | ByCancelEvent => WaitReturned None true
  | ByCancellation quota => WaitInterrupted quota
  end.

(** The call has failed before the point where it was to be cut. *)
Definition failed_wait {A} (cause : cut_cause) (e : op_error) : waited A :=
  match cause with
  | ByDeadline => WaitReturned (Some (Err e)) false
  | ByCancelEvent => WaitReturned (Some (Err e)) true
  | ByCancellation quota => WaitInterrupted quota
  end.

Definition env_decide (_ : option Z) (st : AgentState) (w : run_world W) : waited AgentDecision * run_world W :=
  let plan := sch_wait sch (rw_tick w) in
  let w := tick w in
  match plan with
  | RunsToEnd cancel_done => let '(r, w) := decide st w in (WaitReturned (Some r) cancel_done, w)
  | CutAt InCall cause after =>
      let transcript := _build_transcript (mc_request cfg) st in
      match ensure_prompt_reservation (estimate_prompt_tokens (prompt_messages cfg transcript)) w with
      | (Err e, w) => (failed_wait cause e, w)
      | (Ok _, w) =>
          (cut_wait cause,
           with_outer after (log_call (CallSent (chat_request transcript (rw_model w))) w))
      end
  | CutAt _ cause after => (cut_wait cause, with_outer after w)
  end.

Definition env_stream (st : AgentState) (w : run_world W) : answer_stream * run_world W :=
  (StreamOf (stream_length st w), with_stream (NotStarted st) w).

(** [anext] cut at a suspension point *)
Definition cut_anext {A} (p : cut_point) (cause : cut_cause) (after : W) (w : run_world W)
  : waited A * run_world W :=
  match p, rw_stream w with
  | BeforeStart, _ => (cut_wait cause, with_outer after w)
  | InGuard, NotStarted _ => (cut_wait cause, with_outer after (with_stream Ended w))
  | InCall, NotStarted st =>
      match begin_answer st w with
      | (Err e, w) => (failed_wait cause e, w)
      | (Ok _, w) => (cut_wait cause, with_outer after (break_stream w))
      end
  | _, Running _ _ _ => (cut_wait cause, with_outer after (break_stream w))
  | _, _ => (cut_wait cause, with_outer after w)
  end.

Definition env_anext {A} (value : option answer_chunk -> result op_error A) (w : run_world W)
  : waited A * run_world W :=
  let plan := sch_wait sch (rw_tick w) in
  let w := tick w in
  match plan with
  | RunsToEnd cancel_done =>
      let '(r, w) := anext w in
      (WaitReturned (Some (match r with Ok c => value c | Err e => Err e end)) cancel_done, w)
  | CutAt p cause after => cut_anext p cause after w
  end.

(** The runtime is told the number of chunks, so [anext] gives a chunk where one
    is due and ends where the end is due ([stream_length_exact]). *)
Definition unexpected {A} : result op_error A := Err (OpError (u "unexpected end of the answer stream")).
Definition env_next_chunk (_ : option Z) (w : run_world W) : waited answer_chunk * run_world W :=
  env_anext (fun c => match c with Some x => Ok x | None => unexpected end) w.
Definition env_stream_end (_ : option Z) (w : run_world W) : waited unit * run_world W :=
  env_anext (fun c => match c with None => Ok tt | Some _ => unexpected end) w.
Definition env_stream_close (w : run_world W) : option op_error * run_world W := (None, aclose w).

(** A tool call through the executor *)
Definition execute_op_error (e : execute_error) : op_error :=
  match e with
  | ExecuteValueError m => OpError m
  | RegistryRaised (InvalidTool m) | RegistryRaised (DuplicateToolError m) | RegistryRaised (ToolNotFoundError m) => OpError m
  | ToolExecutor.CancelledError => OpCancelled false
  | BaseException => OpError []
  end.

Definition env_execute (ex : ToolExecutor W) (timeout remaining : option Z) (call : ToolCall) (context : ToolContext)
    (w : run_world W) : waited ToolExecutionResult * run_world W :=
  let plan := sch_wait sch (rw_tick w) in
  let w := tick w in
  match plan with
  | RunsToEnd cancel_done =>
      let '(r, _, o) := ToolExecutor.execute ex (call_name call) (JObj (call_arguments call)) context
                          (sch_seconds sch <$> timeout) (rw_outer w) in
      (WaitReturned (Some (match r with Ok x => Ok x | Err e => Err (execute_op_error e) end)) cancel_done,
       with_outer o w)
  | CutAt _ cause after => (cut_wait cause, with_outer after w)
  end.

(** The world as the runtime sees it; there is no plain mapping of tools. *)
Definition model_env (ex : ToolExecutor W) : runtime_env (run_world W) :=
  mkEnv (fun w => (sch_utc_now sch (rw_tick w), tick w)) (fun w => (sch_loop_time sch (rw_tick w), tick w))
    (fun w => (sch_cancel_is_set sch (rw_tick w), tick w)) env_decide env_stream env_next_chunk env_stream_end
    env_stream_close (env_execute ex) (fun _ => false) (fun _ _ _ w => (WaitReturned None false, w)).
End Model.
