(* ===== verification/AgentService.v ===== *)
(** * The agent service: [app/services/agent_service.py]

    [AgentService._run]: resolving the agent definition of the caller's workspace
    ([AgentConfig]), its tools and prompts ([ToolExecutor], [Prompts]), long-term
    memory ([Memory]), the reservation ([Quota] behind [Platform], [Lifecycle]),
    the runtime over the model adapter ([AgentRuntime], [AgentModel]), usage
    and the mapping of failures.  Tracing spans are left out.  The repositories
    of definitions, prompts and memories are in memory; the provider, the tools,
    the quota service and the usage collector act on an outer world, of which
    [memory_platform] is the one made of this development's components. *)

From S2P Require Import Prelude Json ToolModels ToolExecutor Billing Usage Quota Lifecycle AuditLog AgentRuntime Auth Memory Prompts AgentConfig ChatService AgentModel.
Local Open Scope Z_scope.

(** The exceptions of [run] *)
Inductive service_exn :=
| ValidationError (message : pystr)
| RAGUnavailableError (message : pystr)
| RegistryFailed (e : ToolRegistryError)
| TenantUnresolved
| MemoryFailed (e : memory_error)
| QuotaFailed (e : quota_error)
| RuntimeRaised (e : AgentRuntime.exn)
| RenewalFailed (e : QuotaReservationError)
| OperationCancelled
| FinalizeFailed
| ProviderError (message : pystr).

Record RequestContext := mkAgentContext {
  sx_request_id : pystr;
  sx_api_key : option pystr;
  sx_identity : option IdentityContext
}.

Definition identity_workspace (c : RequestContext) : option pystr := sx_identity c ≫= ic_workspace_id.

(** What the usage collector reads of the context *)
Definition usage_context (c : RequestContext) : ChatService.RequestContext :=
  mkContext (sx_request_id c) (sx_api_key c) (identity_workspace c).

Record AgentRunOutcome := mkOutcome {
  ao_result : AgentRunResult;
  ao_model : pystr;
  ao_prompt_tokens : option Z;
  ao_completion_tokens : option Z;
  ao_estimated_usage : bool
}.

(** [_total_tokens] *)
Definition _total_tokens (o : AgentRunOutcome) : option Z :=
  add_tokens (ao_completion_tokens o) (ao_prompt_tokens o).

(** [resolve_memory_owner_scope] ([memory/tenant.py]) *)
Definition resolve_memory_owner_scope (sha256 : pystr -> pystr) (identity : option IdentityContext) : option pystr :=
  match identity with
  | None => Some (sha256 (u "disabled"))
  | Some i =>
      match ic_workspace_id i, ic_user_id i with
      | Some w, Some user => Some (sha256 (w ++ u ":" ++ user))
      | _, _ => resolve_tenant_scope sha256 identity
      end
  end.

Section Prompts.
Context (prompts : option PromptRegistry).

(** [_render_prompt_ref] *)
Definition _render_prompt_ref (prompt_ref : pystr) (ws : option pystr) : result service_exn pystr :=
  match prompts with
  | None => Err (ValidationError (u "Prompt template '" ++ prompt_ref ++ u "' cannot be resolved (prompt registry unavailable)."))
  | Some g =>
      let rendered := match split_prompt_ref prompt_ref with
                      | (_, None) => render prompt_ref [] [] ws g
                      | (name, Some pinned) => render_version name pinned [] [] ws g
                      end in
      match rendered with
      | [] => Err (ValidationError (u "Prompt template '" ++ prompt_ref ++ u "' not found."))
      | _ => Ok rendered
      end
  end.

Definition render_layer (name builtin : pystr) (ws : option pystr) : pystr :=
  match prompts with None => builtin | Some g => render name [] builtin ws g end.

(** [_render_agent_base_prompt] of a definition *)
Definition _render_agent_base_prompt (a : AgentRecord) (rag : bool) (ws : option pystr) : result service_exn pystr :=
  let protocol := render_layer (u "agent_protocol") BUILTIN_AGENT_PROTOCOL_PROMPT ws in
  let rag_layer := if rag then [render_layer (u "rag_preset") BUILTIN_RAG_PRESET_PROMPT ws] else [] in
  custom ← (match ag_prompt_ref a with
            | [] => Ok []
            | prompt_ref => (fun x => [x]) <$> _render_prompt_ref prompt_ref ws
            end);
  Ok (sjoin (newline ++ newline) (custom ++ rag_layer ++ [protocol])).
End Prompts.

(** What [__init__] is given ([None] for a service that is not wired), the
    registry of the definition service, and the defaults of the executor that it
    builds *)
Record AgentService (W : Type) := mkAgentService {
  _tool_registry : list (pystr * Tool W);
  _granted_permissions : list pystr;
  _prompt_registry : option PromptRegistry;
  _agent_definition_service : option InMemoryAgentDefinitionRepository;
  _definition_registry : list (pystr * Tool W);
  _memory_service : option MemoryConfig;
  _has_recorder_factory : bool;
  _default_timeout_seconds : float64;
  _output_max_chars : Z
}.
Arguments mkAgentService {W}.
Arguments _tool_registry {W}.
Arguments _granted_permissions {W}.
Arguments _prompt_registry {W}.
Arguments _agent_definition_service {W}.
Arguments _definition_registry {W}.
Arguments _memory_service {W}.
Arguments _has_recorder_factory {W}.
Arguments _default_timeout_seconds {W}.
Arguments _output_max_chars {W}.

(** [sha256], [str.lower], the text of an exception, the clock of the memory
    service *)
Record primitives := mkPrimitives {
  sha256 : pystr -> pystr;
  lower : pystr -> pystr;
  chat_error_text : chat_error -> pystr;
  memory_clock : nat -> Z
}.

Section Service.
Context {W : Type} {P : Platform W} (svc : AgentService W) (prims : primitives).

Definition executor_of (registry : list (pystr * Tool W)) : ToolExecutor W :=
  mkToolExecutor registry (_default_timeout_seconds svc) (_output_max_chars svc) RiskLevel.LOW (_granted_permissions svc).

(** ** Resolving the definition *)

Record resolved_run := mkResolved {
  rr_model : option pystr;
  rr_max_steps : Z;
  rr_registry : list (pystr * Tool W);
  rr_base_prompt : option pystr
}.

(** The tools that are bound to the agent and not turned off in the workspace *)
Definition available_tools (repo : InMemoryAgentDefinitionRepository) (ws : pystr) (bound : list pystr)
  : list (pystr * Tool W) :=
  foldl (fun available tool =>
    if bool_decide (tool_name tool ∈ bound) && is_tool_enabled (_definition_registry svc) ws (tool_name tool) repo
    then dict_set (tool_name tool) tool available else available) [] (list_tools (_tool_registry svc)).

Definition not_accessible (agent_id : pystr) : service_exn :=
  ValidationError (u "Agent '" ++ agent_id ++ u "' not found or not accessible.").

Definition run_registry (repo : InMemoryAgentDefinitionRepository) (ws : pystr) (bound : list pystr)
  : result service_exn (list (pystr * Tool W)) :=
  match bound with
  | [] => Ok (_tool_registry svc)
  | _ => match ToolRegistry_init (list_tools (available_tools repo ws bound)) with
         | Ok registry => Ok registry
         | Err e => Err (RegistryFailed e)
         end
  end.

Definition resolve_definition (request : AgentRunRequest) (context : RequestContext) : result service_exn resolved_run :=
  match text_given (ar_agent_id request), _agent_definition_service svc with
  | Some agent_id, Some repo =>
      match identity_workspace context with
      | None => Err (not_accessible agent_id)
      | Some ws =>
          match get_agent agent_id (Some ws) repo with
          | None => Err (not_accessible agent_id)
          | Some a =>
              if negb (ag_enabled a) then Err (ValidationError (u "Agent '" ++ agent_id ++ u "' is disabled."))
              else
                registry ← run_registry repo ws (at_tool_name <$> repo_get_agent_tools (ag_id a) repo);
                base_prompt ← _render_agent_base_prompt (_prompt_registry svc) a (ar_rag_preset request) (Some ws);
                Ok (mkResolved (if ar_model_set request then ar_model request else Some (ag_model a))
                      (if ar_max_steps_set request then ar_max_steps request else ag_max_steps a)
                      registry (Some base_prompt))
          end
      end
  | _, _ => Ok (mkResolved (ar_model request) (ar_max_steps request) (_tool_registry svc) None)
  end.

(** [request.model_copy(update={"model": ...})] *)
Definition with_request_model (m : option pystr) (r : AgentRunRequest) : AgentRunRequest :=
  mkAgentRequest (ar_message r) (ar_agent_id r) m (ar_system_prompt r) (ar_history r) (ar_max_steps r)
    (ar_timeout_seconds r) (ar_token_budget r) (ar_rag_preset r) (ar_model_set r) (ar_max_steps_set r).

(** ** The state around a run *)

Record service_world := mkServiceWorld {
  sw_memory : memory_items;
  sw_outer : W
}.

(** Everything that comes before the reservation *)
Record prepared_run := mkPrepared { pr_config : model_config; pr_run_max_steps : Z; pr_executor : ToolExecutor W }.

Definition retrieve_memories (context : RequestContext) (request : AgentRunRequest) (s : service_world)
  : result service_exn (list MemoryItem) * service_world :=
  match _memory_service svc with
  | None => (Ok [], s)
  | Some cfg =>
      match resolve_memory_owner_scope (sha256 prims) (sx_identity context) with
      | None => (Err TenantUnresolved, s)
      | Some owner =>
          let '(r, items) := retrieve_for_agent (lower prims) cfg (memory_clock prims) owner (ar_message request) None None (sw_memory s) in
          (match r with Ok l => Ok l | Err e => Err (MemoryFailed e) end, mkServiceWorld items (sw_outer s))
      end
  end.

Definition rag_unavailable : service_exn :=
  RAGUnavailableError (u "The RAG preset requires RAG to be enabled and the knowledge_search tool to be available.").

Definition prepare (request : AgentRunRequest) (context : RequestContext) (s : service_world)
  : result service_exn prepared_run * service_world :=
  match resolve_definition request context with
  | Err e => (Err e, s)
  | Ok x =>
      if ar_rag_preset request && negb (bool_decide (is_Some (registry_get (rr_registry x) knowledge_search)))
      then (Err rag_unavailable, s)
      else
        match retrieve_memories context request s with
        | (Err e, s) => (Err e, s)
        | (Ok items, s) =>
            match export_schemas (rr_registry x) with
            | Err e => (Err (RegistryFailed e), s)
            | Ok schemas =>
                (Ok (mkPrepared (model_config_init (with_request_model (rr_model x) request) schemas (rr_base_prompt x) items)
                       (rr_max_steps x) (executor_of (rr_registry x))), s)
            end
        end
  end.

(** The state for the first estimate *)
Definition estimate_state (request : AgentRunRequest) : AgentState :=
  mkAgentState (u "quota-estimate") (ar_message request) [mkAgentMessage RoleUser (ar_message request) None None] [] 0 None.

(** ** The run within the reservation *)

(** How the runtime's coroutine ends *)
Definition runtime_end (c : ctl unit) : result AgentRuntime.exn AgentRunResult :=
  match c with
  | Return r => Ok r
  | Raise e => Err e
  | Next _ => Err (PyError (u "run ended without a result"))
  end.

(** [_record_usage] *)
Definition _record_usage (context : RequestContext) (m : agent_model) (answer : option pystr) (stop_reason : pystr)
    (o : W) : W :=
  let content := match text_given answer with
                 | Some a => a
                 | None => u "Agent run stopped before producing a final answer."
                 end in
  pf_record_chat (usage_context context)
    (mkChatResponse (am_actual_model m) None None (mkChatMessage (u "assistant") content) true (Some stop_reason)
       (am_prompt_tokens m) (am_completion_tokens m)) o.

(** [_map_runtime_failure] *)
Definition _map_runtime_failure (r : AgentRunResult) : service_exn :=
  if bool_decide (rr_stop_reason r = StopReason.INVALID_DECISION)
  then ProviderError (u "Agent model returned an invalid decision.")
  else ProviderError (u "Agent model failed to complete the run.").

(** [lifecycle.settle()] and [lifecycle.release()]: the call on the service, when
    one is due, and the lifecycle's own state *)
Definition finalize_with (call : pystr -> W -> bool * W) (f : bool -> ReservationLifecycle -> result unit unit * ReservationLifecycle)
    (lc : ReservationLifecycle) (o : W) : result unit unit * ReservationLifecycle * W :=
  match managed lc with
  | Some i =>
      if _finalized lc then (f true lc, o)
      else let '(ok, o) := call i o in (f ok lc, o)
  | None => (f true lc, o)
  end.

(** [__aexit__]: releases unless the reservation is final *)
Definition leave_with (lc : ReservationLifecycle) (o : W) : result unit unit * ReservationLifecycle * W :=
  if _finalized lc then (aexit true lc, o) else finalize_with pf_release aexit lc o.

(** What the body of the [async with] comes to: the outcome, or the exception *)
Definition finish_run (context : RequestContext) (observer streaming : bool)
    (ended : result run_error (result AgentRuntime.exn AgentRunResult)) (m : agent_model) (lc : ReservationLifecycle) (o : W)
  : result service_exn AgentRunOutcome * ReservationLifecycle * W :=
  let fail e lc o :=
    let '(x, lc, o) := leave_with lc o in
    (Err (match x with Ok _ => e | Err _ => FinalizeFailed end), lc, o) in
  match ended with
  | Err (RenewalError e) => fail (RenewalFailed e) lc o
  | Err _ => fail OperationCancelled lc o
  | Ok (Err e) =>
      let o := match e with
               | AgentRuntime.QuotaExceededError =>
                   if has_model_call m then _record_usage context m None (u "quota_exceeded") o else o
               | _ => o
               end in
      fail (RuntimeRaised e) lc o
  | Ok (Ok r) =>
      let quota_failure := bool_decide (rr_error r = Some AGENT_QUOTA_FAILURE) in
      let o := _record_usage context m (rr_answer r)
                 (if quota_failure then u "quota_exceeded" else stop_reason_value (rr_stop_reason r)) o in
      let '(x, lc, o) := if quota_failure then finalize_with pf_release Lifecycle.release lc o
                         else finalize_with pf_settle Lifecycle.settle lc o in
      match x with
      | Err _ => fail FinalizeFailed lc o
      | Ok _ =>
          let '(x, lc, o) := leave_with lc o in
          (match x with
           | Err _ => Err FinalizeFailed
           | Ok _ =>
               if bool_decide (rr_status r = RunStatus.FAILED) && negb quota_failure then Err (_map_runtime_failure r)
               else if quota_failure && negb observer && negb streaming
               then Err (QuotaFailed (Quota.QuotaExceededError (u "Quota exceeded.") None))
               else Ok (mkOutcome r (am_actual_model m) (am_prompt_tokens m) (am_completion_tokens m)
                          (negb (both_known (am_prompt_tokens m) (am_completion_tokens m))))
           end, lc, o)
      end
  end.

(** The arguments of [run] *)
Record run_call := mkRunCall {
  rc_request : AgentRunRequest;
  rc_context : RequestContext;
  rc_api_key : pystr;
  rc_observer : bool;
  rc_has_cancel : bool;
  rc_streaming : bool
}.

(** The arguments of [runtime.run] *)
Definition runtime_args (call : run_call) (max_steps : Z) : run_args :=
  let request := rc_request call in
  mkRunArgs (ar_message request) max_steps (Some (ar_timeout_seconds request)) None (rc_has_cancel call)
    (Some (ar_token_budget request)) None (Some (sx_request_id (rc_context call))) (rc_streaming call)
    [(u "owner_key_hash", JStr (rc_api_key call))].

Definition runtime_of (observer : bool) : AgentRuntime := mkAgentRuntime true 8192 observer (_has_recorder_factory svc).

(** Everything a call of [_run] leaves behind *)
Record run_report := mkReport {
  rp_outcome : result service_exn AgentRunOutcome;
  rp_world : service_world;
  (** the run itself, when the runtime was called, and the lifecycle *)
  rp_run : option (@RunS (run_world W));
  rp_lifecycle : option ReservationLifecycle
}.

(** [_run].  [renewals] are the wake-ups of the renewal task while the runtime
    runs, [fresh_id] the id of the run, [cancelled_outside] whether the task of
    the service is cancelled while it awaits the run: a lifecycle with a
    reservation then raises, whatever the runtime made of the cancellation. *)
Definition _run (sch : schedule W) (renewals : list (option bool)) (fresh_id : pystr) (cancelled_outside : bool)
    (call : run_call) (s : service_world) : run_report :=
  let request := rc_request call in
  match prepare request (rc_context call) s with
  | (Err e, s) => mkReport (Err e) s None None
  | (Ok p, s) =>
      let cfg := pr_config p in
      let reserved_prompt_tokens := estimate_prompt_tokens_for_state cfg (estimate_state request) in
      let ws := identity_workspace (rc_context call) in
      match pf_reserve (rc_api_key call) (Some (ar_token_budget request)) reserved_prompt_tokens ws (sw_outer s) with
      | (Err e, o) => mkReport (Err (QuotaFailed e)) (mkServiceWorld (sw_memory s) o) None None
      | (Ok reservation, o) =>
          let reservation_id := qr_reservation_id <$> reservation in
          let model := agent_model_init (default_model pf_provider) (mc_request cfg) in
          let '(c, rs) := AgentRuntime.run (model_env sch (chat_error_text prims) cfg reservation_id ws (pr_executor p))
                            (runtime_of (rc_observer call)) (runtime_args call (pr_run_max_steps p)) fresh_id
                            (mkRunWorld model reserved_prompt_tokens NoStream [] 0 o) in
          let w := rs_world rs in
          let lc := foldl (fun lc r => renewal_tick r lc) (aenter (lifecycle_init reservation_id true)) renewals in
          let ended :=
            if cancelled_outside && is_some (managed lc) then Err Lifecycle.OperationCancelled
            else default (Ok (runtime_end c))
                   (Lifecycle.run true (Some (OpReturned (runtime_end c))) (OpReturned (runtime_end c)) lc) in
          let '(out, lc, o) := finish_run (rc_context call) (rc_observer call) (rc_streaming call) ended (rw_model w) lc
                                 (rw_outer w) in
          mkReport out (mkServiceWorld (sw_memory s) o) (Some rs) (Some lc)
      end
  end.
End Service.

(** ** The platform in memory *)

(** The repositories that the quota service and the usage collector share, how
    many calls they have served (the clock and the [uuid4] of each call are
    given), and the world of the provider *)
Record platform_world (V : Type) := mkPlatformWorld {
  pw_usage : InMemoryUsageRepository;
  pw_quota : InMemoryQuotaRepository;
  pw_calls : nat;
  pw_rest : V
}.
Arguments mkPlatformWorld {V}.
Arguments pw_usage {V}.
Arguments pw_quota {V}.
Arguments pw_calls {V}.
Arguments pw_rest {V}.

Section MemoryPlatform.
Context {V R : Type} {B : BillingRepository R}.
Context (config : QuotaConfig) (billing : option R) (provider : LLMProvider V) (clock : nat -> Z) (uuid4 : nat -> pystr).

Definition on_rest {A} (f : V -> A * V) (w : platform_world V) : A * platform_world V :=
  let '(a, v) := f (pw_rest w) in (a, mkPlatformWorld (pw_usage w) (pw_quota w) (pw_calls w) v).

Definition platform_provider : LLMProvider (platform_world V) :=
  mkProvider (default_model provider)
    (fun payload => on_rest (provider_chat provider payload))
    (fun payload w =>
       let '(chunks, e, v) := provider_stream provider payload (pw_rest w) in
       (chunks, e, mkPlatformWorld (pw_usage w) (pw_quota w) (pw_calls w) v))
    (on_rest (provider_models provider)).

Definition on_quota {A} (f : Z -> pystr -> InMemoryUsageRepository -> InMemoryQuotaRepository -> A * InMemoryQuotaRepository)
    (w : platform_world V) : A * platform_world V :=
  let '(a, q) := f (clock (pw_calls w)) (uuid4 (pw_calls w)) (pw_usage w) (pw_quota w) in
  (a, mkPlatformWorld (pw_usage w) q (S (pw_calls w)) (pw_rest w)).

Definition memory_platform : Platform (platform_world V) := {|
  pf_provider := platform_provider;
  pf_reserve := fun h max_tokens prompt_tokens ws =>
    on_quota (fun now fresh usage q => reserve config billing usage now fresh h max_tokens prompt_tokens ws q);
  pf_extend := fun i n ws => on_quota (fun now _ usage q => extend config billing usage now i n ws q);
  pf_settle := fun i => on_quota (fun _ _ _ q => (true, Quota.settle config i q));
  pf_release := fun i => on_quota (fun _ _ _ q => (true, Quota.release config i q));
  pf_record_chat := fun context response w =>
    mkPlatformWorld (record_chat (clock (pw_calls w)) context response (pw_usage w)) (pw_quota w) (S (pw_calls w)) (pw_rest w)
|}.
End MemoryPlatform.
