(* ===== verification/AgentServiceProps.v ===== *)
(** * Properties of the agent service ([AgentModel], [AgentService])

    The log of a run is consistent with the counters of the adapter and with the
    reservation; the RAG preset searches before it answers; the agent and the
    tools come from the caller's workspace; the reservation ends as the run
    did. *)

From S2P Require Import Prelude Json JsonLoads ToolModels ToolExecutor ToolExecutorProps Billing Usage Quota Lifecycle AuditLog AgentRuntime AgentRuntimeWorld Auth Memory Prompts AgentConfig ChatService AgentModel AgentService.
Local Open Scope Z_scope.

(** ** The log and the counters *)

Definition replay_step (t : option Z * option Z) (e : call_event) : option Z * option Z :=
  match e with
  | CallReported p c => (add_tokens p t.1, add_tokens c t.2)
  | StreamBroken => (if bool_decide (t.1 = Some 0) then None else t.1, None)
  | _ => t
  end.
Definition counted (l : list call_event) : option Z * option Z := foldl replay_step (Some 0, Some 0) l.

Definition extension (e : call_event) : Z := match e with PromptExtended n => n | _ => 0 end.
Definition extended (l : list call_event) : Z := sumZ (extension <$> l).

Lemma counted_app l e : counted (l ++ [e]) = replay_step (counted l) e.
Proof. unfold counted. by rewrite foldl_app. Qed.
Lemma extended_app l e : extended (l ++ [e]) = extended l + extension e.
Proof. unfold extended. rewrite fmap_app, sumZ_app. simpl. lia. Qed.

(** The messages of a request, as they are estimated *)
Definition request_messages (r : ChatRequest) : list (pystr * pystr) :=
  [(u "system", default [] (req_system_prompt r)); (u "user", req_message r)].

(** A request sent after [before]: at most what the budget leaves, at least one
    token, and a prompt that the reservation covers *)
Definition sent_ok (budget : Z) (reservation : option pystr) (reserved : Z) (before : list call_event) (r : ChatRequest) : Prop :=
  req_max_tokens r = Some (Z.max (budget - (or_zero (counted before).1 + or_zero (counted before).2)) 1) /\
  (is_Some reservation -> estimate_prompt_tokens (request_messages r) <= reserved + extended before).

Definition log_ok (budget : Z) (reservation : option pystr) (reserved : Z) (l : list call_event) : Prop :=
  forall before r after, l = before ++ CallSent r :: after -> sent_ok budget reservation reserved before r.

Lemma log_ok_snoc b i n l e :
  log_ok b i n l -> (forall r, e = CallSent r -> sent_ok b i n l r) -> log_ok b i n (l ++ [e]).
Proof.
  intros Hl He before r after H. destruct after as [|x after _] using rev_ind.
  - apply app_inj_tail in H as [<- ->]. by apply He.
  - rewrite app_comm_cons, app_assoc in H. apply app_inj_tail in H as [-> _]. by eapply Hl.
Qed.

Section Log.
Context {W : Type} {P : Platform W} (sch : schedule W) (chat_error_text : chat_error -> pystr).
Context (cfg : model_config) (reservation ws : option pystr) (reserved : Z).

Notation budget := (ar_token_budget (mc_request cfg)).

Record log_inv (w : run_world W) : Prop := {
  li_counted : (am_prompt_tokens (rw_model w), am_completion_tokens (rw_model w)) = counted (rw_log w);
  li_reserved : rw_reserved w = reserved + extended (rw_log w);
  li_sent : log_ok budget reservation reserved (rw_log w)
}.

Lemma inv_outer o w : log_inv w -> log_inv (with_outer o w).
Proof. by intros []. Qed.
Lemma inv_stream g w : log_inv w -> log_inv (with_stream g w).
Proof. by intros []. Qed.
Lemma inv_tick w : log_inv w -> log_inv (tick w).
Proof. by intros []. Qed.
Lemma inv_model f w :
  am_prompt_tokens (f (rw_model w)) = am_prompt_tokens (rw_model w) ->
  am_completion_tokens (f (rw_model w)) = am_completion_tokens (rw_model w) -> log_inv w -> log_inv (with_model f w).
Proof. intros H1 H2 []. split; simpl; [by rewrite H1, H2|done|done]. Qed.

(** An event and the change of the counters that it records *)
Lemma inv_event e f w :
  (forall r, e <> CallSent r) -> extension e = 0 ->
  (am_prompt_tokens (f (rw_model w)), am_completion_tokens (f (rw_model w)))
    = replay_step (am_prompt_tokens (rw_model w), am_completion_tokens (rw_model w)) e ->
  log_inv w -> log_inv (log_call e (with_model f w)).
Proof.
  intros He Hx Hf [H1 H2 H3]. split; simpl.
  - by rewrite counted_app, <- H1.
  - rewrite extended_app, Hx. lia.
  - apply log_ok_snoc; [done|]. intros r ->. by destruct (He r).
Qed.

(** The reservation covers [n] prompt tokens. *)
Definition covers (n : Z) (w : run_world W) : Prop := is_Some reservation -> n <= rw_reserved w.

Lemma inv_ensure n w r w' :
  log_inv w -> ensure_prompt_reservation reservation ws n w = (r, w') ->
  log_inv w' /\ (r = Ok tt -> covers n w') /\ rw_stream w' = rw_stream w /\ rw_tick w' = rw_tick w.
Proof.
  intros Hw. unfold ensure_prompt_reservation, covers. destruct reservation as [i|] eqn:Ei.
  2: { intros. simplify_eq. split; [done|]. split; [|done]. by intros _ [? ?]. }
  destruct (n - rw_reserved w <=? 0) eqn:E.
  { intros. simplify_eq. split; [done|]. split; [|done]. intros _ _. apply Z.leb_le in E. lia. }
  destruct (pf_extend i _ ws (rw_outer w)) as [[[]|e] o]; intros; simplify_eq.
  - split; [|split; [|done]]; [|intros _ _; simpl; lia]. destruct Hw as [H1 H2 H3]. split; simpl.
    + by rewrite counted_app.
    + rewrite extended_app. simpl. lia.
    + rewrite Ei in *. apply log_ok_snoc; [done|]. discriminate.
  - split; [by apply inv_outer|]. split; [discriminate|done].
Qed.

Lemma inv_sent message w :
  log_inv w -> covers (estimate_prompt_tokens (prompt_messages cfg message)) w ->
  log_inv (log_call (CallSent (chat_request cfg message (rw_model w))) w).
Proof.
  intros [H1 H2 H3] Hc. split; simpl.
  - by rewrite counted_app.
  - rewrite extended_app. simpl. lia.
  - apply log_ok_snoc; [done|]. intros r [= <-]. split; simpl.
    + rewrite <- H1. reflexivity.
    + intros Hi. specialize (Hc Hi). rewrite <- H2. exact Hc.
Qed.

Lemma inv_decide st w : log_inv w -> log_inv (decide chat_error_text cfg reservation ws st w).2.
Proof.
  intros Hw. unfold decide. destruct (ensure_prompt_reservation _ _ _ w) as [g w1] eqn:E.
  apply inv_ensure in E as (H1 & Hc & _); [|done]. destruct g as [[]|e]; [|done].
  pose proof (inv_sent _ _ H1 (Hc eq_refl)) as H2.
  cbv zeta. set (w2 := log_call _ w1) in *. destruct (chat pf_provider _ (rw_outer w2)) as [[resp|e] o]; [|by apply inv_outer].
  assert (H3 : log_inv (log_call (CallReported (resp_prompt_tokens resp) (resp_completion_tokens resp))
    (with_model (see_response resp) (with_outer o w2)))) by (apply inv_event; [done|done|done|by apply inv_outer]).
  by destruct (_parse_decision _).
Qed.

Lemma inv_begin st w : log_inv w -> log_inv (begin_answer cfg reservation ws st w).2.
Proof.
  intros Hw. unfold begin_answer. destruct (ensure_prompt_reservation _ _ _ w) as [g w1] eqn:E.
  apply inv_ensure in E as (H1 & Hc & _); [|done]. destruct g as [[]|e]; [|by apply inv_stream].
  pose proof (inv_sent _ _ H1 (Hc eq_refl)) as H2. cbv zeta.
  destruct (chat_stream pf_provider _ _) as [[chunks e] o]. by apply inv_stream, inv_outer, inv_model.
Qed.

Lemma inv_break w : log_inv w -> log_inv (break_stream w).
Proof.
  intros Hw. unfold break_stream. change (with_stream Ended (with_model ?f w)) with (with_model f (with_stream Ended w)).
  apply inv_event; [done|done|done|by apply inv_stream].
Qed.

Lemma inv_see_chunk c w : log_inv w -> log_inv (see_chunk c w).
Proof.
  intros Hw. unfold see_chunk. cbv zeta.
  assert (H : log_inv (if pcr_done c && negb (am_answer_stream_usage_recorded (rw_model w))
    then log_call (CallReported (pcr_prompt_tokens c) (pcr_completion_tokens c)) (with_model (_record_chunk_usage c) w)
    else with_model (_record_chunk_usage c) w)).
  { destruct (pcr_done c) eqn:Ed, (am_answer_stream_usage_recorded (rw_model w)) eqn:Er; simpl;
      try (apply inv_model; unfold _record_chunk_usage; rewrite ?Ed, ?Er; done).
    apply inv_event; [done|done| |done]. unfold _record_chunk_usage. by rewrite Ed, Er. }
  destruct (pcr_model c); [done|]. by apply inv_model.
Qed.

Lemma inv_pull w : log_inv w -> log_inv (pull chat_error_text w).2.
Proof.
  intros Hw. unfold pull. destruct (rw_stream w) as [|st|[|c rest] e saw|]; try done.
  - destruct e; simpl; [destruct saw; [by apply inv_stream|]|]; by apply inv_break.
  - by apply inv_stream, inv_see_chunk.
Qed.

Lemma inv_anext w : log_inv w -> log_inv (anext chat_error_text cfg reservation ws w).2.
Proof.
  intros Hw. unfold anext. destruct (rw_stream w) as [|st| |]; try by apply inv_pull.
  pose proof (inv_begin st w Hw) as Hb. destruct (begin_answer cfg reservation ws st w) as [[[]|e] w']; [by apply inv_pull|done].
Qed.

Lemma inv_cut {A} p cause after w : log_inv w -> log_inv (cut_anext (A:=A) cfg reservation ws p cause after w).2.
Proof.
  intros Hw. unfold cut_anext. destruct p, (rw_stream w) as [|st| |]; try (by apply inv_outer);
    try (by apply inv_outer, inv_stream); try (by apply inv_outer, inv_break).
  pose proof (inv_begin st w Hw) as Hb. destruct (begin_answer cfg reservation ws st w) as [[[]|e] w']; [|done].
  by apply inv_outer, inv_break.
Qed.

Lemma inv_env_anext {A} (value : option answer_chunk -> result op_error A) w :
  log_inv w -> log_inv (env_anext sch chat_error_text cfg reservation ws value w).2.
Proof.
  intros Hw. unfold env_anext. destruct (sch_wait sch (rw_tick w)) as [c|p cause after]; [|by apply inv_cut, inv_tick].
  pose proof (inv_anext (tick w) (inv_tick _ Hw)) as Ha. by destruct (anext _ _ _ _ (tick w)).
Qed.

Lemma model_env_keeps ex : env_keeps (model_env sch chat_error_text cfg reservation ws ex) log_inv.
Proof.
  split; simpl; intros; try (by apply inv_tick); try (by apply inv_env_anext); try (by apply inv_stream); try done.
  - unfold env_decide. destruct (sch_wait sch (rw_tick w)) as [c|p cause after].
    + pose proof (inv_decide st (tick w) (inv_tick _ H)) as Hd. by destruct (decide _ _ _ _ st (tick w)).
    + destruct p; try (by apply inv_outer, inv_tick).
      destruct (ensure_prompt_reservation _ _ _ (tick w)) as [g w1] eqn:E.
      apply inv_ensure in E as (H1 & Hc & _); [|by apply inv_tick]. destruct g as [[]|e]; [|done].
      by apply inv_outer, inv_sent, Hc.
  - unfold aclose. destruct (rw_stream w); try done; [by apply inv_stream|by apply inv_break].
  - unfold env_execute. destruct (sch_wait sch (rw_tick w)) as [cd|p cause after]; [|by apply inv_outer, inv_tick].
    destruct (ToolExecutor.execute _ _ _ _ _ _) as [[res m] o]. by apply inv_outer, inv_tick.
Qed.
End Log.

(** ** What the counts of the log say *)

Definition report_of (e : call_event) : option (option Z * option Z) :=
  match e with CallReported p c => Some (p, c) | _ => None end.
Definition reports (l : list call_event) : list (option Z * option Z) := omap report_of l.

(** All the counts are known, and what they add up to *)
Definition all_known (l : list (option Z)) (total : Z) : Prop :=
  Forall is_Some l /\ total = sumZ (or_zero <$> l).

Lemma all_known_app l x n : all_known l n -> all_known (l ++ [Some x]) (n + x).
Proof.
  intros [H ->]. split; [apply Forall_app; split; [done|repeat constructor; eauto]|].
  rewrite fmap_app, sumZ_app. simpl. lia.
Qed.
Lemma reports_app l e : reports (l ++ [e]) = reports l ++ option_list (report_of e).
Proof. unfold reports. rewrite omap_app. simpl. by destruct (report_of e). Qed.

Lemma counted_prompt l n : (counted l).1 = Some n -> all_known (reports l).*1 n.
Proof.
  revert n. induction l as [|e l IH] using rev_ind; intros n; [by intros [= <-]|].
  rewrite counted_app, reports_app, fmap_app. destruct e as [| |p c|]; simpl; rewrite ?app_nil_r; auto.
  - destruct p as [x|]; [|done]. destruct (counted l).1 as [t|]; [|done]. intros [= <-]. by apply all_known_app, IH.
  - case_bool_decide; [done|]. apply IH.
Qed.

Lemma counted_completion l n :
  (counted l).2 = Some n -> all_known (reports l).*2 n /\ StreamBroken ∉ l.
Proof.
  revert n. induction l as [|e l IH] using rev_ind; intros n; [intros [= <-]; split; [done|apply not_elem_of_nil]|].
  rewrite counted_app, reports_app, fmap_app.
  assert (Hmem : e <> StreamBroken -> StreamBroken ∉ l -> StreamBroken ∉ l ++ [e]).
  { intros H1 H2 H. apply elem_of_app in H as [H|H]; [done|]. apply list_elem_of_singleton in H. congruence. }
  destruct e as [| |p c|]; simpl; rewrite ?app_nil_r; [| | |done].
  - intros H. apply IH in H as [H1 H2]. split; [done|by apply Hmem].
  - intros H. apply IH in H as [H1 H2]. split; [done|by apply Hmem].
  - destruct c as [x|]; [|done]. destruct (counted l).2 as [t|]; [|done]. intros [= <-].
    destruct (IH t eq_refl) as [H1 H2]. split; [by apply all_known_app|by apply Hmem].
Qed.

Lemma counted_all l :
  Forall (fun r => is_Some r.1 /\ is_Some r.2) (reports l) -> StreamBroken ∉ l ->
  is_Some (counted l).1 /\ is_Some (counted l).2.
Proof.
  induction l as [|e l IH] using rev_ind; [by eauto|]. rewrite reports_app, counted_app.
  intros Hf Hn. apply Forall_app in Hf as [Hf He].
  assert (Hl : StreamBroken ∉ l) by (intros H; apply Hn, elem_of_app; by left).
  destruct (IH Hf Hl) as [[a Ha] [b Hb]]. destruct e as [| |p c|]; simpl; [by rewrite Ha, Hb; eauto..| |].
  - apply Forall_singleton in He as [[x Hx] [y Hy]]. simpl in *. subst. rewrite Ha, Hb. simpl. eauto.
  - exfalso. apply Hn, elem_of_app. right. by apply list_elem_of_singleton.
Qed.

(** Counts that are not negative *)
Definition not_negative (l : list call_event) : Prop :=
  Forall (fun r => 0 <= or_zero r.1 /\ 0 <= or_zero r.2) (reports l).

Lemma counted_not_negative l :
  not_negative l -> 0 <= or_zero (counted l).1 + or_zero (counted l).2.
Proof.
  intros H.
  assert (Hsum : forall k : list (option Z), Forall (fun x => 0 <= or_zero x) k -> 0 <= sumZ (or_zero <$> k)).
  { intros k Hk. induction Hk as [|x k Hx _ IH]; [done|]. change (sumZ (or_zero <$> x :: k)) with (or_zero x + sumZ (or_zero <$> k)). lia. }
  assert (H1 : 0 <= or_zero (counted l).1).
  { destruct (counted l).1 as [n|] eqn:E; [|done]. apply counted_prompt in E as [_ ->]. simpl.
    apply Hsum, Forall_fmap. eapply Forall_impl; [exact H|]. intros x Hx. apply Hx. }
  assert (H2 : 0 <= or_zero (counted l).2).
  { destruct (counted l).2 as [n|] eqn:E; [|done]. apply counted_completion in E as [[_ ->] _]. simpl.
    apply Hsum, Forall_fmap. eapply Forall_impl; [exact H|]. intros x Hx. apply Hx. }
  lia.
Qed.

(** ** The RAG preset *)

Lemma parse_tools content d : _parse_decision content = Ok d -> tool_calls d <> [] -> answer d = None.
Proof.
  unfold _parse_decision. destruct (loads content) as [[| | | | | |o]|]; try done.
  destruct (bool_decide _); [by destruct (text_field _ o); intros; simplify_eq|].
  destruct (bool_decide _); [|done]. destruct (text_field _ o) as [i|]; [|done].
  destruct (text_field _ o) as [n|]; [|done]. destruct (default _ _); intros; by simplify_eq.
Qed.

Lemma searched_step i d results st :
  knowledge_search ∈ (res_name <$> results) -> _has_executed_knowledge_search (add_step (mkAgentStep i d results) st) = true.
Proof.
  intros H. unfold _has_executed_knowledge_search. simpl. rewrite existsb_app. apply orb_true_intro. right. simpl.
  rewrite orb_false_r. apply existsb_exists. apply list_elem_of_fmap in H as (r & Hr & Hin). exists r.
  split; [by apply list_elem_of_In|]. by apply bool_decide_eq_true.
Qed.

(** What the adapter decides: an answer only after a search *)
Lemma finish_decision_searches content st d usage complete :
  _parse_decision content = Ok d ->
  leads_to_G (fun st => _has_executed_knowledge_search st = true) st (finish_decision true st d usage complete).
Proof.
  intros Hd. unfold leads_to_G, finish_decision. destruct (_has_executed_knowledge_search st) eqn:E; [by left|right]. simpl.
  destruct (existsb _ (tool_calls d)) eqn:Ex; simpl.
  - apply existsb_exists in Ex as (k & Hk & Hn). apply bool_decide_eq_true in Hn. split.
    + eapply parse_tools; [exact Hd|]. intros Hnil. by rewrite Hnil in Hk.
    + intros i results st' Hres. apply searched_step. rewrite Hres. apply list_elem_of_fmap. exists k.
      split; [done|by apply list_elem_of_In].
  - split; [done|]. intros i results st' Hres. apply searched_step. rewrite Hres. simpl. by left.
Qed.

Lemma decide_searches {W} {P : Platform W} sch text cfg reservation ws t st w d c w' :
  ar_rag_preset (mc_request cfg) = true ->
  env_decide sch text cfg reservation ws t st w = (WaitReturned (Some (Ok d)) c, w') ->
  leads_to_G (fun st => _has_executed_knowledge_search st = true) st d.
Proof.
  intros Hrag. unfold env_decide. destruct (sch_wait sch (rw_tick w)) as [cd|p cause after].
  - unfold decide. destruct (ensure_prompt_reservation _ _ _ (tick w)) as [[[]|e] w1]; [|by intros; simplify_eq].
    cbv zeta. destruct (chat pf_provider _ _) as [[resp|e] o]; [|by intros; simplify_eq].
    destruct (_parse_decision _) as [d0|m] eqn:Ep; [|by intros; simplify_eq].
    intros; simplify_eq. rewrite Hrag. by eapply finish_decision_searches.
  - destruct p, cause; try (by intros; simplify_eq);
      destruct (ensure_prompt_reservation _ _ _ (tick w)) as [[[]|e] w1]; by intros; simplify_eq.
Qed.

(** ** The end of a reservation *)

(** Entered and not final yet *)
Definition open_lifecycle (i : option pystr) (lc : ReservationLifecycle) : Prop :=
  managed lc = i /\ _finalized lc = false /\ final_calls lc = [].

Lemma renewals_open i renewals :
  open_lifecycle i (foldl (fun lc r => renewal_tick r lc) (aenter (lifecycle_init i true)) renewals).
Proof.
  assert (H : open_lifecycle i (aenter (lifecycle_init i true))) by (by destruct i).
  revert H. generalize (aenter (lifecycle_init i true)). induction renewals as [|r renewals IH]; intros lc H; [done|].
  simpl. apply IH. destruct H as (H1 & H2 & H3). unfold renewal_tick.
  destruct (_renewal_running lc); [|done]. destruct (_reservation lc) eqn:E; [|done].
  unfold open_lifecycle, final_calls, managed, _set_renewal_failure in *.
  destruct r as [[|]|]; [|destruct (_renewal_failure lc)..]; simpl; rewrite ?E in *; try done.
  split; [done|]. split; [done|]. by rewrite filter_app, H3.
Qed.

Section Finish.
Context {W : Type} {P : Platform W}.
Context (Hs : forall i (o : W), (pf_settle i o).1 = true) (Hr : forall i (o : W), (pf_release i o).1 = true).

Definition closed_with (call : pystr -> service_call) (i : option pystr) (lc : ReservationLifecycle) : Prop :=
  final_calls lc = match i with Some i => [call i] | None => [] end /\ managed lc = i /\ (is_Some i -> _finalized lc = true).

Lemma finalize_open call f i lc o :
  (forall j (o : W), (f j o).1 = true) -> (forall j, is_final (call j) = true) -> open_lifecycle i lc ->
  exists lc' o', finalize_with f (finalize call) lc o = (Ok tt, lc', o') /\ closed_with call i lc'.
Proof.
  intros Hf Hc (H1 & H2 & H3). unfold finalize_with. rewrite H1. destruct i as [i|].
  - rewrite H2. destruct (f i o) as [ok o'] eqn:E. pose proof (Hf i o) as Hok. rewrite E in Hok. simpl in Hok. subst ok.
    unfold finalize. change (managed (_stop_renewal lc)) with (managed lc). rewrite H1. simpl. rewrite H2.
    eexists _, _. split; [done|]. split; [|split; [exact H1|done]]. unfold final_calls in *. simpl.
    rewrite filter_app, H3. simpl. rewrite filter_cons, decide_True by (by rewrite Hc). done.
  - unfold finalize. change (managed (_stop_renewal lc)) with (managed lc). rewrite H1. simpl.
    eexists _, _. split; [done|]. split; [exact H3|split; [exact H1|by intros [? ?]]].
Qed.

Lemma leave_open i lc (o : W) :
  open_lifecycle i lc -> exists lc' o', leave_with lc o = (Ok tt, lc', o') /\ closed_with CallRelease i lc'.
Proof.
  intros Ho. pose proof Ho as (H1 & H2 & H3). unfold leave_with. rewrite H2.
  destruct (finalize_open CallRelease pf_release i (_stop_renewal lc) o Hr) as (lc' & o' & E & Hc); [done|done|].
  assert (Heq : finalize_with pf_release aexit lc o = finalize_with pf_release (finalize CallRelease) (_stop_renewal lc) o).
  { unfold finalize_with, aexit. change (managed (_stop_renewal lc)) with (managed lc).
    change (_finalized (_stop_renewal lc)) with (_finalized lc). rewrite H2. done. }
  rewrite Heq, E. eauto.
Qed.

Lemma leave_closed call i lc (o : W) :
  closed_with call i lc -> exists lc' o', leave_with lc o = (Ok tt, lc', o') /\ final_calls lc' = final_calls lc.
Proof.
  intros (H1 & H2 & H3). unfold leave_with. destruct i as [i|].
  - rewrite H3 by eauto. unfold aexit. change (_finalized (_stop_renewal lc)) with (_finalized lc). rewrite H3 by eauto.
    simpl. eauto.
  - destruct (_finalized lc) eqn:E.
    + unfold aexit. change (_finalized (_stop_renewal lc)) with (_finalized lc). rewrite E. simpl. eauto.
    + unfold finalize_with. rewrite H2. unfold aexit. change (_finalized (_stop_renewal lc)) with (_finalized lc).
      rewrite E. unfold Lifecycle.release, finalize. simpl.
      change (managed (_stop_renewal (_stop_renewal lc))) with (managed lc). rewrite H2. eauto.
Qed.

Lemma finish_run_final context observer streaming ended m lc0 o out lc o' i :
  open_lifecycle i lc0 -> finish_run context observer streaming ended m lc0 o = (out, lc, o') ->
  final_calls lc =
    match i with
    | None => []
    | Some i => [match out with
                 | Ok out => if bool_decide (rr_error (ao_result out) = Some AGENT_QUOTA_FAILURE) then CallRelease else CallSettle
                 | Err (ProviderError _) => CallSettle
                 | Err _ => CallRelease
                 end i]
    end.
Proof.
  intros Ho. unfold finish_run. destruct ended as [[r|e]|e].
  - destruct (bool_decide (rr_error r = Some AGENT_QUOTA_FAILURE)) eqn:Eq.
    + match goal with |- context [finalize_with pf_release Lifecycle.release lc0 ?x] =>
        destruct (finalize_open CallRelease pf_release i lc0 x Hr) as (lc1 & o1 & E & Hc); [done|done|] end.
      unfold Lifecycle.release. rewrite E. cbv beta iota zeta.
      destruct (leave_closed _ _ _ o1 Hc) as (lc2 & o2 & E2 & Hfc). rewrite E2. rewrite andb_false_r.
      destruct (true && _ && _); intros; simplify_eq; rewrite Hfc; destruct Hc as [-> _]; cbn [ao_result]; rewrite ?Eq; done.
    + match goal with |- context [finalize_with pf_settle Lifecycle.settle lc0 ?x] =>
        destruct (finalize_open CallSettle pf_settle i lc0 x Hs) as (lc1 & o1 & E & Hc); [done|done|] end.
      unfold Lifecycle.settle. rewrite E. cbv beta iota zeta.
      destruct (leave_closed _ _ _ o1 Hc) as (lc2 & o2 & E2 & Hfc). rewrite E2. rewrite andb_true_r. simpl.
      unfold _map_runtime_failure.
      destruct (bool_decide (rr_status r = _)); [destruct (bool_decide (rr_stop_reason r = _))|]; intros; simplify_eq; rewrite Hfc;
        destruct Hc as [-> _]; cbn [ao_result]; rewrite ?Eq; done.
  - destruct (leave_open i lc0 (match e with
      | AgentRuntime.QuotaExceededError => if has_model_call m then _record_usage context m None (u "quota_exceeded") o else o
      | _ => o end) Ho) as (lc1 & o1 & E & [Hc _]). cbv zeta. rewrite E. intros; simplify_eq. exact Hc.
  - destruct (leave_open i lc0 o Ho) as (lc1 & o1 & E & [Hc _]). destruct e; rewrite E; intros; simplify_eq; exact Hc.
Qed.
End Finish.

(** ** A call of the service *)

Section Run.
Context {W : Type} {P : Platform W} (svc : AgentService W) (prims : primitives).
Context (sch : schedule W) (renewals : list (option bool)) (fresh_id : pystr) (cancelled_outside : bool).
Context (call : run_call) (s : @service_world W).

Notation report := (_run svc prims sch renewals fresh_id cancelled_outside call s).
Notation ws := (identity_workspace (rc_context call)).

(** The run over a prepared configuration and a reservation *)
Definition agent_run (p : @prepared_run W) (reservation : option QuotaReservation) (o : W) :=
  AgentRuntime.run
    (model_env sch (chat_error_text prims) (pr_config p) (qr_reservation_id <$> reservation) ws (pr_executor p))
    (runtime_of svc (rc_observer call)) (runtime_args call (pr_run_max_steps p)) fresh_id
    (mkRunWorld (agent_model_init (default_model pf_provider) (mc_request (pr_config p)))
       (estimate_prompt_tokens_for_state (pr_config p) (estimate_state (rc_request call))) NoStream [] 0 o).

Definition first_estimate (p : @prepared_run W) : Z :=
  estimate_prompt_tokens_for_state (pr_config p) (estimate_state (rc_request call)).

(** Where a run that has begun comes from *)
Record begun (rs : @RunS (run_world W)) (p : @prepared_run W) (reservation : option QuotaReservation) (s1 : @service_world W) (o : W)
  (c : ctl unit) : Prop := {
  bg_prepared : prepare svc prims (rc_request call) (rc_context call) s = (Ok p, s1);
  bg_reserved : pf_reserve (rc_api_key call) (Some (ar_token_budget (rc_request call))) (first_estimate p) ws (sw_outer s1)
                = (Ok reservation, o);
  bg_run : agent_run p reservation o = (c, rs);
  bg_finish : exists ended lc0 lc,
    finish_run (rc_context call) (rc_observer call) (rc_streaming call) ended (rw_model (rs_world rs)) lc0 (rw_outer (rs_world rs))
      = (rp_outcome report, lc, sw_outer (rp_world report)) /\
    rp_lifecycle report = Some lc /\
    lc0 = foldl (fun lc r => renewal_tick r lc) (aenter (lifecycle_init (qr_reservation_id <$> reservation) true)) renewals /\
    (ended = Ok (runtime_end c) \/ exists e, ended = Err e)
}.

Lemma run_begun rs : rp_run report = Some rs -> exists p reservation s1 o c, begun rs p reservation s1 o c.
Proof.
  intros H.
  destruct (prepare svc prims (rc_request call) (rc_context call) s) as [[p|e] s1] eqn:Ep.
  2: { exfalso. revert H. unfold _run. rewrite Ep. discriminate. }
  destruct (pf_reserve (rc_api_key call) (Some (ar_token_budget (rc_request call))) (first_estimate p) ws (sw_outer s1))
    as [[reservation|e] o] eqn:Er.
  2: { exfalso. revert H. unfold _run. rewrite Ep. cbv zeta. unfold first_estimate in Er. rewrite Er. discriminate. }
  destruct (agent_run p reservation o) as [c rs'] eqn:Ea. exists p, reservation, s1, o, c.
  assert (Hrs : rs' = rs).
  { revert H. unfold _run. rewrite Ep. cbv zeta. unfold first_estimate in Er. rewrite Er.
    unfold agent_run in Ea. rewrite Ea. cbv zeta.
    destruct (finish_run _ _ _ _ _ _ _) as [[out lc] o']. simpl. congruence. }
  subst rs'. split; [done|done|done|]. revert H. unfold _run. rewrite Ep. cbv zeta.
  unfold first_estimate in Er. rewrite Er. unfold agent_run in Ea. rewrite Ea. cbv zeta.
  set (lc0 := foldl _ _ renewals). match goal with |- context [finish_run _ _ _ ?x] => set (ended := x) end.
  destruct (finish_run (rc_context call) (rc_observer call) (rc_streaming call) ended (rw_model (rs_world rs)) lc0
    (rw_outer (rs_world rs))) as [[out lc] o'] eqn:Ef.
  intros _. exists ended, lc0, lc. split; [done|]. split; [done|]. split; [done|].
  unfold ended. destruct (cancelled_outside && _); [right; eauto|].
  unfold Lifecycle.run. destruct (_renewal_failure lc0); simpl; eauto.
Qed.

Lemma prepare_spec p s1 :
  prepare svc prims (rc_request call) (rc_context call) s = (Ok p, s1) ->
  exists x, resolve_definition svc (rc_request call) (rc_context call) = Ok x /\
    mc_request (pr_config p) = with_request_model (rr_model x) (rc_request call) /\
    pr_run_max_steps p = rr_max_steps x /\ pr_executor p = executor_of svc (rr_registry x) /\
    (ar_rag_preset (rc_request call) = true -> is_Some (registry_get (rr_registry x) knowledge_search)).
Proof.
  unfold prepare. destruct (resolve_definition _ _ _) as [x|e]; [|done].
  destruct (ar_rag_preset (rc_request call)) eqn:Er; simpl.
  - destruct (bool_decide _) eqn:Eb; simpl; [|done]. apply bool_decide_eq_true in Eb.
    destruct (retrieve_memories _ _ _ _ s) as [[items|e] s2]; [|done].
    destruct (export_schemas _) as [schemas|e]; [|done]. intros [= <- <-]. by exists x.
  - destruct (retrieve_memories _ _ _ _ s) as [[items|e] s2]; [|done].
    destruct (export_schemas _) as [schemas|e]; [|done]. intros [= <- <-]. by exists x.
Qed.

Lemma prepared_budget p s1 :
  prepare svc prims (rc_request call) (rc_context call) s = (Ok p, s1) ->
  ar_token_budget (mc_request (pr_config p)) = ar_token_budget (rc_request call).
Proof. intros H. apply prepare_spec in H as (x & _ & -> & _). done. Qed.

Lemma runtime_end_return c r : runtime_end c = Ok r -> c = Return r.
Proof. destruct c; simpl; congruence. Qed.

(** An outcome is that of a result of the runtime. *)
Lemma outcome_result rs p reservation s1 o c out :
  begun rs p reservation s1 o c -> rp_outcome report = Ok out ->
  c = Return (ao_result out) /\
  ao_model out = am_actual_model (rw_model (rs_world rs)) /\
  ao_prompt_tokens out = am_prompt_tokens (rw_model (rs_world rs)) /\
  ao_completion_tokens out = am_completion_tokens (rw_model (rs_world rs)) /\
  ao_estimated_usage out = negb (both_known (ao_prompt_tokens out) (ao_completion_tokens out)).
Proof.
  intros [_ _ _ (ended & lc0 & lc & Hf & _ & _ & He)] Hout. rewrite Hout in Hf. unfold finish_run in Hf.
  destruct He as [->|[e ->]].
  2: { exfalso. destruct e; destruct (leave_with lc0 (rw_outer (rs_world rs))) as [[x y] z]; simplify_eq. }
  destruct (runtime_end c) as [r|e] eqn:Er.
  2: { exfalso. destruct (leave_with lc0 _) as [[x y] z]. simplify_eq. }
  apply runtime_end_return in Er as ->.
  destruct (if bool_decide (rr_error r = Some AGENT_QUOTA_FAILURE) then _ else _) as [[x lc1] o1]. destruct x as [[]|[]].
  2: { exfalso. destruct (leave_with lc1 o1) as [[x y] z]. simplify_eq. }
  destruct (leave_with lc1 o1) as [[x lc2] o2]. destruct x as [[]|[]]; [|exfalso; simplify_eq].
  destruct (_ && _); [exfalso; simplify_eq|]. destruct (_ && _); [exfalso; simplify_eq|]. by simplify_eq.
Qed.

Lemma no_run_no_outcome : rp_run report = None -> forall out, rp_outcome report <> Ok out.
Proof.
  intros H out. revert H. unfold _run. destruct (prepare _ _ _ _ s) as [[p|e] s1]; [|done]. cbv zeta.
  destruct (pf_reserve _ _ _ _ _) as [[reservation|e] o]; [|done].
  destruct (AgentRuntime.run _ _ _ _ _) as [c rs]. destruct (finish_run _ _ _ _ _ _ _) as [[x lc] o']. done.
Qed.

Lemma run_log_inv rs p reservation s1 o c :
  begun rs p reservation s1 o c ->
  log_inv (pr_config p) (qr_reservation_id <$> reservation) (first_estimate p) (rs_world rs).
Proof.
  intros [_ _ Hr _]. unfold agent_run in Hr.
  pose proof (run_keeps_world _ (runtime_of svc (rc_observer call)) (runtime_args call (pr_run_max_steps p))
    (log_inv (pr_config p) (qr_reservation_id <$> reservation) (first_estimate p))
    (model_env_keeps sch (chat_error_text prims) (pr_config p) (qr_reservation_id <$> reservation) ws (first_estimate p)
       (pr_executor p)) fresh_id
    (mkRunWorld (agent_model_init (default_model pf_provider) (mc_request (pr_config p))) (first_estimate p) NoStream [] 0 o)) as H.
  unfold first_estimate in *. rewrite Hr in H. apply H. split; simpl; [done|unfold extended; simpl; lia|].
  intros before r after Hl. by destruct before.
Qed.

(** C4. Every provider call that a run of the service makes, whatever the
    provider, the tools and the schedule do, asks for at least one token and for
    no more than the run's token budget less what the provider has reported so
    far, hence never more than the budget when the reported counts are not
    negative; and under a reservation its whole prompt, system prompt included,
    is covered by the tokens reserved at the start and by the extensions that the
    quota service has granted before the call. *)
Theorem agent_calls_within_budget rs :
  rp_run report = Some rs ->
  exists p reservation s1 o,
    prepare svc prims (rc_request call) (rc_context call) s = (Ok p, s1) /\
    pf_reserve (rc_api_key call) (Some (ar_token_budget (rc_request call))) (first_estimate p) ws (sw_outer s1)
      = (Ok reservation, o) /\
    forall before r after, rw_log (rs_world rs) = before ++ CallSent r :: after ->
      exists n, req_max_tokens r = Some n /\ 1 <= n /\
        n <= Z.max 1 (ar_token_budget (rc_request call) - (or_zero (counted before).1 + or_zero (counted before).2)) /\
        (not_negative before -> 1 <= ar_token_budget (rc_request call) -> n <= ar_token_budget (rc_request call)) /\
        (is_Some reservation -> estimate_prompt_tokens (request_messages r) <= first_estimate p + extended before).
Proof.
  intros H. apply run_begun in H as (p & reservation & s1 & o & c & Hb). exists p, reservation, s1, o.
  pose proof (run_log_inv _ _ _ _ _ _ Hb) as [_ _ Hl]. destruct Hb as [Hp Hr _ _]. do 2 (split; [done|]).
  intros before r after Hlog. destruct (Hl before r after Hlog) as [Hm Hc].
  rewrite (prepared_budget _ _ Hp) in Hm. eexists. split; [exact Hm|]. split; [lia|]. split; [lia|]. split.
  - intros Hn Hb. apply counted_not_negative in Hn. lia.
  - intros Hi. apply Hc. by rewrite fmap_is_Some.
Qed.

(** The usage of an outcome is what the provider reported: it is marked as
    estimated exactly when some call came back without one of its counts or the
    answer stream was cut; a known number of prompt tokens is the sum of the
    reported ones, none missing, and likewise for the completion tokens. *)
Theorem agent_usage_is_reported rs out :
  rp_run report = Some rs -> rp_outcome report = Ok out ->
  (ao_estimated_usage out = false <->
     Forall (fun r => is_Some r.1 /\ is_Some r.2) (reports (rw_log (rs_world rs))) /\ StreamBroken ∉ rw_log (rs_world rs)) /\
  (forall n, ao_prompt_tokens out = Some n -> all_known (reports (rw_log (rs_world rs))).*1 n) /\
  (forall n, ao_completion_tokens out = Some n -> all_known (reports (rw_log (rs_world rs))).*2 n).
Proof.
  intros H Hout. apply run_begun in H as (p & reservation & s1 & o & c & Hb).
  pose proof (run_log_inv _ _ _ _ _ _ Hb) as [Hc _ _].
  destruct (outcome_result _ _ _ _ _ _ _ Hb Hout) as (_ & _ & Hp & Hcm & He).
  assert (Hp' : ao_prompt_tokens out = (counted (rw_log (rs_world rs))).1) by (rewrite Hp; by apply (f_equal fst) in Hc).
  assert (Hc' : ao_completion_tokens out = (counted (rw_log (rs_world rs))).2) by (rewrite Hcm; by apply (f_equal snd) in Hc).
  rewrite He, Hp', Hc'. clear He Hp Hcm Hp' Hc' Hc Hout Hb. generalize (rw_log (rs_world rs)). intros l.
  split; [|split; [apply counted_prompt|intros n Hn; by apply counted_completion]].
  split.
  - unfold both_known. destruct (counted l).1 as [a|] eqn:E1; [|done]. destruct (counted l).2 as [b|] eqn:E2; [|done].
    intros _. apply counted_prompt in E1 as [E1 _]. apply counted_completion in E2 as [[E2 _] E3]. split; [|done].
    rewrite Forall_fmap in E1, E2. apply Forall_and. by split.
  - intros [Hf Hn]. destruct (counted_all l Hf Hn) as [[a ->] [b ->]]. done.
Qed.

(** Under the RAG preset an agent never answers from itself: the run was
    only started with [knowledge_search] among its tools, and a result that is
    [COMPLETED] has a step in which [knowledge_search] was executed, whatever the
    model replied (a calculator result included). *)
Theorem rag_run_searches out :
  ar_rag_preset (rc_request call) = true -> rp_outcome report = Ok out ->
  (exists x, resolve_definition svc (rc_request call) (rc_context call) = Ok x /\
             is_Some (registry_get (rr_registry x) knowledge_search)) /\
  (rr_status (ao_result out) = RunStatus.COMPLETED -> _has_executed_knowledge_search (rr_state (ao_result out)) = true).
Proof.
  intros Hrag Hout. destruct (rp_run report) as [rs|] eqn:Hrs; [|by destruct (no_run_no_outcome Hrs out)].
  apply run_begun in Hrs as (p & reservation & s1 & o & c & Hb).
  destruct (outcome_result _ _ _ _ _ _ _ Hb Hout) as (-> & _). destruct Hb as [Hp _ Hr _].
  apply prepare_spec in Hp as (x & Hx & Hreq & _ & _ & Hk). split; [eauto|].
  assert (Hpreset : ar_rag_preset (mc_request (pr_config p)) = true) by (by rewrite Hreq).
  unfold agent_run in Hr. revert Hr. apply (run_completes_in _ _ _ (fun st => _has_executed_knowledge_search st = true)).
  - done.
  - intros y st. unfold _has_executed_knowledge_search. simpl. rewrite existsb_app. by intros ->.
  - done.
  - intros t st w d cd w' Hd. eapply decide_searches; [exact Hpreset|exact Hd].
Qed.

(** C13. The reservation of a run ends as the run did, once: settled when the
    runtime gave a result that is not a quota failure (even when the service
    then reports a provider error), released in every other case: a quota
    failure, an exception of the runtime, a renewal that failed, a request
    cancelled from outside. *)
Theorem run_reservation_outcome rs :
  (forall i o, (pf_settle i o).1 = true) -> (forall i o, (pf_release i o).1 = true) ->
  rp_run report = Some rs ->
  exists p reservation s1 o lc,
    pf_reserve (rc_api_key call) (Some (ar_token_budget (rc_request call))) (first_estimate p) ws (sw_outer s1)
      = (Ok reservation, o) /\
    rp_lifecycle report = Some lc /\
    final_calls lc =
      match reservation with
      | None => []
      | Some q =>
          [match rp_outcome report with
           | Ok out => if bool_decide (rr_error (ao_result out) = Some AGENT_QUOTA_FAILURE) then CallRelease else CallSettle
           | Err (ProviderError _) => CallSettle
           | Err _ => CallRelease
           end (qr_reservation_id q)]
      end.
Proof.
  intros Hs Hr H. apply run_begun in H as (p & reservation & s1 & o & c & Hb).
  destruct Hb as [_ Hres _ (ended & lc0 & lc & Hf & Hlc & Hlc0 & _)]. exists p, reservation, s1, o, lc.
  do 2 (split; [done|]). assert (Ho : open_lifecycle (qr_reservation_id <$> reservation) lc0).
  { rewrite Hlc0. apply renewals_open. }
  rewrite (finish_run_final Hs Hr _ _ _ _ _ _ _ _ _ _ _ Ho Hf). by destruct reservation.
Qed.
End Run.

(** ** The tenant boundary *)

Section Tenant.
Context {W : Type} (svc : AgentService W).

(** Bound to the agent, and not turned off in the workspace *)
Definition may_use (repo : InMemoryAgentDefinitionRepository) (ws : pystr) (bound : list pystr) (tool : Tool W) : Prop :=
  tool ∈ list_tools (_tool_registry svc) /\ tool_name tool ∈ bound /\
  is_tool_enabled (_definition_registry svc) ws (tool_name tool) repo = true.

Lemma dict_set_values {V} (Q : V -> Prop) k v (d : list (pystr * V)) :
  Q v -> Forall Q d.*2 -> Forall Q (dict_set k v d).*2.
Proof.
  intros Hv Hd. induction d as [|[k' v'] d IH]; simpl in *; [by constructor|].
  inversion Hd; subst. case_decide; simpl; constructor; auto.
Qed.

Lemma available_may_use repo ws bound : Forall (may_use repo ws bound) (list_tools (available_tools svc repo ws bound)).
Proof.
  unfold available_tools, list_tools.
  assert (H : forall tools acc, (forall t, t ∈ tools -> t ∈ (_tool_registry svc).*2) -> Forall (may_use repo ws bound) acc.*2 ->
    Forall (may_use repo ws bound) (foldl (fun available tool =>
      if bool_decide (tool_name tool ∈ bound) && is_tool_enabled (_definition_registry svc) ws (tool_name tool) repo
      then dict_set (tool_name tool) tool available else available) acc tools).*2).
  { induction tools as [|t tools IH]; intros acc Hin Hacc; [done|]. simpl. apply IH; [intros; apply Hin; by right|].
    destruct (bool_decide _) eqn:Eb; [|done]. apply bool_decide_eq_true in Eb.
    destruct (is_tool_enabled _ ws (tool_name t) repo) eqn:Ee; [|done]. simpl.
    apply dict_set_values; [|done]. split; [apply Hin; by left|done]. }
  apply H; [done|constructor].
Qed.

(** An agent definition is only used by its own workspace: a request with an
    [agent_id] goes on only when its identity has a workspace, the agent belongs
    to it and is enabled; the tools of the run are then registered tools that are
    bound to the agent and enabled in that workspace, each under its own name,
    unless no tool is bound, in which case they are all the registered ones. *)
Theorem agent_from_own_workspace request context agent_id repo x :
  text_given (ar_agent_id request) = Some agent_id -> _agent_definition_service svc = Some repo ->
  resolve_definition svc request context = Ok x ->
  exists ws a,
    identity_workspace context = Some ws /\ find_agent_by_id agent_id repo = Some a /\
    ag_workspace_id a = ws /\ ag_enabled a = true /\
    rr_model x = (if ar_model_set request then ar_model request else Some (ag_model a)) /\
    rr_max_steps x = (if ar_max_steps_set request then ar_max_steps request else ag_max_steps a) /\
    match at_tool_name <$> repo_get_agent_tools (ag_id a) repo with
    | [] => rr_registry x = _tool_registry svc
    | bound => forall name tool, registry_get (rr_registry x) name = Some tool -> name = tool_name tool /\ may_use repo ws bound tool
    end.
Proof.
  intros Hid Hrepo. unfold resolve_definition. rewrite Hid, Hrepo.
  destruct (identity_workspace context) as [ws|]; [|done].
  destruct (get_agent agent_id (Some ws) repo) as [a|] eqn:Ea; [|done].
  destruct (ag_enabled a) eqn:Een; [|done]. cbn [negb].
  destruct (run_registry svc repo ws _) as [registry|e] eqn:Er; [|done]. cbn [mbind result_bind].
  destruct (_render_agent_base_prompt _ a _ _) as [b|e]; [|done]. cbn [mbind result_bind]. intros [= <-].
  exists ws, a. split; [done|]. unfold get_agent in Ea. destruct (find_agent_by_id agent_id repo) as [a'|]; [|done].
  simpl in Ea. destruct (base.decide (ag_workspace_id a' = ws)) as [Hw|]; [|done]. simplify_eq.
  do 4 (split; [done|]). split; [done|]. simpl. unfold run_registry in Er.
  destruct (at_tool_name <$> repo_get_agent_tools (ag_id a) repo) as [|n0 bound]; [by simplify_eq|].
  destruct (ToolRegistry_init _) as [reg|e] eqn:Ei; [|done]. simplify_eq. intros name tool Hg.
  destruct (register_all _ [] registry ltac:(by repeat constructor) Ei) as [-> _]. simpl in Hg.
  apply dict_get_Some, list_elem_of_fmap in Hg as (t & [= -> ->] & Ht). split; [done|].
  pose proof (available_may_use repo (ag_workspace_id a) (n0 :: bound)) as Hall. rewrite Forall_forall in Hall. auto.
Qed.
End Tenant.

(** ** The answer stream *)

(** The chunk count given to the runtime is exact: from a generator that has just
    been created, [anext] gives that many chunks or ends with an exception at the
    last one, and then ends. *)
Fixpoint pull_all {W} {P : Platform W} text cfg reservation ws (n : nat) (w : run_world W)
  : list (result op_error (option answer_chunk)) * run_world W :=
  match n with
  | O => ([], w)
  | S n => let '(r, w) := anext text cfg reservation ws w in
           let '(l, w) := pull_all text cfg reservation ws n w in (r :: l, w)
  end.

Definition is_chunk (r : result op_error (option answer_chunk)) : Prop :=
  match r with Ok (Some _) => True | _ => False end.

Lemma pull_running {W} {P : Platform W} text cfg reservation ws chunks e saw (w : run_world W) :
  rw_stream w = Running chunks e saw ->
  let n := (length chunks + match e with StreamRaised _ => 1 | StreamStopped => 0 end)%nat in
  let '(l, w') := pull_all text cfg reservation ws n w in
  Forall is_chunk (take (length chunks) l) /\
  match e with
  | StreamStopped => (anext text cfg reservation ws w').1 = Ok None
  | StreamRaised e => last l = Some (Err (OpError (text e)))
  end.
Proof.
  revert saw w. induction chunks as [|c chunks IH]; intros saw w Hw.
  - destruct e as [|e]; simpl; unfold anext, pull; rewrite Hw; simpl; done.
  - cbv zeta. cbn [length Nat.add pull_all].
    assert (Ha : anext text cfg reservation ws w
      = (Ok (Some (Chunk (pcr_content c))), with_stream (Running chunks e (saw || pcr_done c)) (see_chunk c w))).
    { unfold anext, pull. by rewrite Hw. }
    rewrite Ha. specialize (IH (saw || pcr_done c) (with_stream (Running chunks e (saw || pcr_done c)) (see_chunk c w)) eq_refl).
    cbv zeta in IH. destruct (pull_all _ _ _ _ _ (with_stream _ _)) as [l w'] eqn:El. destruct IH as [IH1 IH2].
    split; [simpl; by constructor|]. destruct e as [|e]; [done|].
    destruct l as [|r l]; [done|]. exact IH2.
Qed.

Lemma stream_length_exact {W} {P : Platform W} text cfg reservation ws st (w : run_world W) w0 :
  begin_answer cfg reservation ws st w = (Ok tt, w0) ->
  exists chunks e,
    rw_stream w0 = Running chunks e false /\
    stream_length cfg reservation ws st w = (length chunks + match e with StreamRaised _ => 1 | StreamStopped => 0 end)%nat /\
    (anext text cfg reservation ws (with_stream (NotStarted st) w)).1 = (pull text w0).1.
Proof.
  intros Hb. assert (Hbs : begin_answer cfg reservation ws st (with_stream (NotStarted st) w) = (Ok tt, w0)).
  { revert Hb. unfold begin_answer, ensure_prompt_reservation. simpl.
    destruct reservation as [i|]; [destruct (_ <=? 0); [|destruct (pf_extend _ _ _ _) as [[]?]]|]; simpl; try done;
      destruct (chat_stream _ _ _) as [[? ?] ?]; intros; by simplify_eq. }
  unfold stream_length. rewrite Hb. unfold anext. simpl. rewrite Hbs.
  unfold begin_answer in Hb. destruct (ensure_prompt_reservation _ _ _ w) as [[[]|e] w1]; [|done]. cbv zeta in Hb.
  destruct (chat_stream pf_provider _ _) as [[chunks e] o]. simplify_eq. simpl. by exists chunks, e.
Qed.

(** ** A run in memory *)

Definition demo_reply (content : pystr) (prompt completion : Z) : list (pystr * json) :=
  [(u "model", JStr (u "m")); (u "done", JBool true);
   (u "message", JObj [(u "role", JStr (u "assistant")); (u "content", JStr content)]);
   (u "prompt_eval_count", JInt prompt); (u "eval_count", JInt completion)].

(** A provider that has its replies ready *)
Definition demo_provider : LLMProvider (list (list (pystr * json))) :=
  mkProvider (u "m")
    (fun _ replies => match replies with r :: rest => (Ok r, rest) | [] => (Err (ProviderRaised (u "no reply")), []) end)
    (fun _ replies => ([], StreamStopped, replies)) (fun replies => (Ok [], replies)).

Definition demo_config : QuotaConfig := mkQuotaConfig (Some 1000000) None 100 600 60 KeyScope.
Definition demo_clock (n : nat) : Z := 1700000000000000 + Z.of_nat n.

#[local] Instance demo_platform : Platform (platform_world (list (list (pystr * json)))) :=
  memory_platform (R := InMemoryBillingRepository) demo_config None demo_provider demo_clock (fun n => u "r" ++ str_of_Z (Z.of_nat n)).

Definition demo_tool : Tool (platform_world (list (list (pystr * json)))) :=
  mkTool knowledge_search (u "Search the knowledge base.") [(u "type", JStr (u "object"))] None None []
    (fun _ _ _ w => (ToolReturned (JStr (u "a source")), w)).

Definition demo_agents : InMemoryAgentDefinitionRepository :=
  set_agent_tools (u "a1") [knowledge_search]
    (repo_create_agent (mkAgentRecord (u "a1") (u "w1") (u "agent") (u "m") [] (round_ratio false 7 10) 3 true None None)
       agent_repo_init).

Definition demo_service : AgentService (platform_world (list (list (pystr * json)))) :=
  mkAgentService [(knowledge_search, demo_tool)] [] None (Some demo_agents) [(knowledge_search, demo_tool)] None false
    (round_ratio false 30 1) 4000.

Definition demo_prims : primitives := mkPrimitives id id (fun _ => u "provider failure") (fun _ => 0).
Definition demo_schedule : schedule (platform_world (list (list (pystr * json)))) :=
  mkSchedule (fun n => Z.of_nat n) (fun _ => 0) (fun _ => false) (fun _ => RunsToEnd false) (fun _ => round_ratio false 1 1).

Definition demo_request : AgentRunRequest :=
  mkAgentRequest (u "What is it?") (Some (u "a1")) None None [] 4 60 8192 true false false.
Definition demo_context : AgentService.RequestContext :=
  mkAgentContext (u "req") (Some (u "k1")) (Some (mkIdentity (Some (u "u1")) (Some (u "w1")) None (u "k1") None)).
Definition demo_call : run_call := mkRunCall demo_request demo_context (u "k1") false false false.

(** The model answers at once, is made to search, and answers again. *)
Definition demo_answer : pystr := with_quotes (u "{`type`: `final_answer`, `answer`: `42`}").
Definition demo_world : @service_world (platform_world (list (list (pystr * json)))) :=
  mkServiceWorld [] (mkPlatformWorld (mkUsageRepo [] []) (mkQuotaRepo ∅ ∅) 0 [demo_reply demo_answer 10 5; demo_reply demo_answer 20 7]).
Definition demo_report := _run demo_service demo_prims demo_schedule [] (u "run") false demo_call demo_world.

Lemma agent_calls_within_budget_witness :
  match rp_run demo_report with
  | Some rs =>
      exists p reservation s1 o,
        prepare demo_service demo_prims demo_request demo_context demo_world = (Ok p, s1) /\
        pf_reserve (u "k1") (Some 8192) (first_estimate demo_call p) (Some (u "w1")) (sw_outer s1) = (Ok reservation, o) /\
        forall before r after, rw_log (rs_world rs) = before ++ CallSent r :: after ->
          exists n, req_max_tokens r = Some n /\ 1 <= n /\
            n <= Z.max 1 (8192 - (or_zero (counted before).1 + or_zero (counted before).2)) /\
            (not_negative before -> 1 <= 8192 -> n <= 8192) /\
            (is_Some reservation -> estimate_prompt_tokens (request_messages r) <= first_estimate demo_call p + extended before)
  | None => False
  end.
Proof.
  destruct (rp_run demo_report) as [rs|] eqn:E; [|vm_compute in E; discriminate E].
  exact (agent_calls_within_budget demo_service demo_prims demo_schedule [] (u "run") false demo_call demo_world rs E).
Defined.

Lemma agent_usage_is_reported_witness :
  match rp_run demo_report, rp_outcome demo_report with
  | Some rs, Ok out =>
      (ao_estimated_usage out = false <->
         Forall (fun r => is_Some r.1 /\ is_Some r.2) (reports (rw_log (rs_world rs))) /\ StreamBroken ∉ rw_log (rs_world rs)) /\
      (forall n, ao_prompt_tokens out = Some n -> all_known (reports (rw_log (rs_world rs))).*1 n) /\
      (forall n, ao_completion_tokens out = Some n -> all_known (reports (rw_log (rs_world rs))).*2 n)
  | _, _ => False
  end.
Proof.
  destruct (rp_run demo_report) as [rs|] eqn:E; [|vm_compute in E; discriminate E].
  destruct (rp_outcome demo_report) as [out|e] eqn:Eo; [|vm_compute in Eo; discriminate Eo].
  exact (agent_usage_is_reported demo_service demo_prims demo_schedule [] (u "run") false demo_call demo_world rs out E Eo).
Defined.

Lemma rag_run_searches_witness :
  match rp_outcome demo_report with
  | Ok out =>
      rr_status (ao_result out) = RunStatus.COMPLETED /\
      (exists x, resolve_definition demo_service demo_request demo_context = Ok x /\
                 is_Some (registry_get (rr_registry x) knowledge_search)) /\
      (rr_status (ao_result out) = RunStatus.COMPLETED -> _has_executed_knowledge_search (rr_state (ao_result out)) = true)
  | Err _ => False
  end.
Proof.
  destruct (rp_outcome demo_report) as [out|e] eqn:Eo; [|vm_compute in Eo; discriminate Eo]. split.
  - assert (H : match rp_outcome demo_report with Ok o => rr_status (ao_result o) = RunStatus.COMPLETED | Err _ => False end)
      by (vm_compute; reflexivity). rewrite Eo in H. exact H.
  - exact (rag_run_searches demo_service demo_prims demo_schedule [] (u "run") false demo_call demo_world out eq_refl Eo).
Defined.

Lemma run_reservation_outcome_witness :
  match rp_run demo_report with
  | Some rs =>
      exists (p : @prepared_run (platform_world (list (list (pystr * json))))) reservation s1 o lc,
        pf_reserve (u "k1") (Some 8192) (first_estimate demo_call p) (Some (u "w1")) (sw_outer s1) = (Ok reservation, o) /\
        rp_lifecycle demo_report = Some lc /\
        final_calls lc =
          match reservation with
          | None => []
          | Some q =>
              [match rp_outcome demo_report with
               | Ok out => if bool_decide (rr_error (ao_result out) = Some AGENT_QUOTA_FAILURE) then CallRelease else CallSettle
               | Err (ProviderError _) => CallSettle
               | Err _ => CallRelease
               end (qr_reservation_id q)]
          end
  | None => False
  end.
Proof.
  destruct (rp_run demo_report) as [rs|] eqn:E; [|vm_compute in E; discriminate E].
  refine (run_reservation_outcome demo_service demo_prims demo_schedule [] (u "run") false demo_call demo_world rs _ _ E);
    intros i o; reflexivity.
Defined.

Lemma agent_from_own_workspace_witness :
  match resolve_definition demo_service demo_request demo_context with
  | Ok x =>
      exists ws a,
        identity_workspace demo_context = Some ws /\ find_agent_by_id (u "a1") demo_agents = Some a /\
        ag_workspace_id a = ws /\ ag_enabled a = true /\ rr_model x = Some (ag_model a) /\ rr_max_steps x = ag_max_steps a /\
        match at_tool_name <$> repo_get_agent_tools (ag_id a) demo_agents with
        | [] => rr_registry x = _tool_registry demo_service
        | bound => forall name tool, registry_get (rr_registry x) name = Some tool ->
                     name = tool_name tool /\ may_use demo_service demo_agents ws bound tool
        end
  | Err _ => False
  end.
Proof.
  destruct (resolve_definition demo_service demo_request demo_context) as [x|e] eqn:E; [|vm_compute in E; discriminate E].
  exact (agent_from_own_workspace demo_service demo_request demo_context (u "a1") demo_agents x eq_refl eq_refl E).
Defined.
