(* ===== verification/MultiAgentEvents.v ===== *)
(** * Multi-agent events: [app/multi_agent/events.py] and who emits and keeps them

    The event of a multi-agent run and its public form, the observers it passes
    ([BestEffortObserver], [ComposedObserver], [SequencedObserver]), the forwarding
    of an agent's own events ([_SubtaskRuntimeEventObserver]), the events of one
    subtask ([_execute_single_task] of [orchestrator.py]) and the recorder with
    its caps ([MultiAgentEventRecorder]).  [is_alnum] is [str.isalnum] and
    [isoformat] the text of an instant. *)

From S2P Require Import Prelude Json AgentRuntime Redaction MultiAgent.
Local Open Scope Z_scope.

(** ** The events *)

Definition PUBLIC_ERROR_CODES : list pystr :=
  [u "supervisor_failed"; u "subtask_failed"; u "dependency_deadlock"; u "timeout"; u "cancelled";
   u "budget_exceeded"; u "internal_error"; u "stream_setup_failed"].

Definition _MAX_SUMMARY_CHARS : Z := 256.
Definition _MAX_RESULT_CHARS : Z := 8192.

Module MultiAgentEventKind.
Inductive t := RUN_STARTED | SUBTASKS_PLANNED | SUBTASK_STARTED | SUBTASK_COMPLETED | SUBTASK_FAILED
  | SUBTASK_SKIPPED | SUBTASK_STEP_STARTED | SUBTASK_STEP_COMPLETED | SUBTASK_TOOL_STARTED
  | SUBTASK_TOOL_COMPLETED | SUBTASK_TOOL_FAILED | SUBTASK_ANSWER_DELTA | RUN_COMPLETED | RUN_FAILED
  | RUN_TIMED_OUT | RUN_CANCELLED | RUN_BUDGET_EXCEEDED.
#[global] Instance eq_dec : EqDecision t.
Proof. solve_decision. Defined.
Definition value (k : t) : pystr :=
  match k with
  | RUN_STARTED => u "run_started"
  | SUBTASKS_PLANNED => u "subtasks_planned"
  | SUBTASK_STARTED => u "subtask_started"
  | SUBTASK_COMPLETED => u "subtask_completed"
  | SUBTASK_FAILED => u "subtask_failed"
  | SUBTASK_SKIPPED => u "subtask_skipped"
  | SUBTASK_STEP_STARTED => u "subtask_step_started"
  | SUBTASK_STEP_COMPLETED => u "subtask_step_completed"
  | SUBTASK_TOOL_STARTED => u "subtask_tool_started"
  | SUBTASK_TOOL_COMPLETED => u "subtask_tool_completed"
  | SUBTASK_TOOL_FAILED => u "subtask_tool_failed"
  | SUBTASK_ANSWER_DELTA => u "subtask_answer_delta"
  | RUN_COMPLETED => u "run_completed"
  | RUN_FAILED => u "run_failed"
  | RUN_TIMED_OUT => u "run_timed_out"
  | RUN_CANCELLED => u "run_cancelled"
  | RUN_BUDGET_EXCEEDED => u "run_budget_exceeded"
  end.
End MultiAgentEventKind.
Abbreviation event_kind := MultiAgentEventKind.t.

Definition _TERMINAL_EVENT_KINDS : list event_kind :=
  [MultiAgentEventKind.RUN_COMPLETED; MultiAgentEventKind.RUN_FAILED; MultiAgentEventKind.RUN_TIMED_OUT;
   MultiAgentEventKind.RUN_CANCELLED; MultiAgentEventKind.RUN_BUDGET_EXCEEDED].

(** The value of a [TaskStatus] *)
Definition task_status_value (s : TaskStatus.t) : pystr :=
  match s with
  | TaskStatus.PENDING => u "pending"
  | TaskStatus.RUNNING => u "running"
  | TaskStatus.COMPLETED => u "completed"
  | TaskStatus.FAILED => u "failed"
  | TaskStatus.CANCELLED => u "cancelled"
  | TaskStatus.SKIPPED => u "skipped"
  end.

Record SubtaskSummary := mkSubtaskSummary {
  ss_id : pystr;
  ss_agent_role : pystr;
  ss_agent_id : option pystr;
  ss_description : pystr;
  ss_depends_on : list pystr
}.

Record SubtaskResultSummary := mkSubtaskResultSummary {
  rs_task_id : pystr;
  rs_status : pystr;
  rs_agent_role : pystr;
  rs_output : pystr;
  rs_error_code : option pystr;
  rs_token_usage : Z;
  rs_duration_ms : option Z
}.

Definition opt_str (o : option pystr) : json := match o with Some s => JStr s | None => JNull end.
Definition opt_int (o : option Z) : json := match o with Some z => JInt z | None => JNull end.

(** [to_dict] of the two summaries *)
Definition summary_to_dict (s : SubtaskSummary) : json :=
  JObj [(u "id", JStr (ss_id s)); (u "agent_role", JStr (ss_agent_role s)); (u "agent_id", opt_str (ss_agent_id s));
        (u "description", JStr (ss_description s)); (u "depends_on", JArr (JStr <$> ss_depends_on s))].
Definition result_to_dict (r : SubtaskResultSummary) : json :=
  JObj [(u "task_id", JStr (rs_task_id r)); (u "status", JStr (rs_status r));
        (u "agent_role", JStr (rs_agent_role r)); (u "output", JStr (rs_output r));
        (u "error_code", opt_str (rs_error_code r)); (u "token_usage", JInt (rs_token_usage r));
        (u "duration_ms", opt_int (rs_duration_ms r))].

Record MultiAgentEvent := mkMultiAgentEvent {
  me_run_id : pystr;
  me_kind : event_kind;
  me_sequence : Z;
  me_run_source : pystr;
  me_occurred_at : Z;
  me_task_id : option pystr;
  me_agent_role : option pystr;
  me_duration_ms : option Z;
  me_token_usage : option Z;
  me_output_summary : option pystr;
  me_error_code : option pystr;
  me_subtasks : list SubtaskSummary;
  me_reasoning : option pystr;
  me_final_output : option pystr;
  me_total_token_usage : option Z;
  me_subtask_results : list SubtaskResultSummary;
  me_agent_event_kind : option pystr;
  me_step_index : option Z;
  me_tool_name : option pystr;
  me_call_id : option pystr
}.

Definition me_is_terminal (e : MultiAgentEvent) : bool := bool_decide (me_kind e ∈ _TERMINAL_EVENT_KINDS).

Definition to_public_dict (isoformat : Z -> pystr) (e : MultiAgentEvent) : list (pystr * json) :=
  [(u "run_id", JStr (me_run_id e)); (u "kind", JStr (MultiAgentEventKind.value (me_kind e)));
   (u "sequence", JInt (me_sequence e)); (u "run_source", JStr (me_run_source e));
   (u "occurred_at", JStr (isoformat (me_occurred_at e))); (u "task_id", opt_str (me_task_id e));
   (u "agent_role", opt_str (me_agent_role e)); (u "duration_ms", opt_int (me_duration_ms e));
   (u "token_usage", opt_int (me_token_usage e)); (u "output_summary", opt_str (me_output_summary e));
   (u "error_code", opt_str (me_error_code e)); (u "subtasks", JArr (summary_to_dict <$> me_subtasks e));
   (u "reasoning", opt_str (me_reasoning e)); (u "final_output", opt_str (me_final_output e));
   (u "total_token_usage", opt_int (me_total_token_usage e));
   (u "subtask_results", JArr (result_to_dict <$> me_subtask_results e));
   (u "agent_event_kind", opt_str (me_agent_event_kind e)); (u "step_index", opt_int (me_step_index e));
   (u "tool_name", opt_str (me_tool_name e)); (u "call_id", opt_str (me_call_id e))].

Definition public_error_code (error : option pystr) : option pystr :=
  match error with
  | None => None
  | Some e => Some (if bool_decide (e ∈ PUBLIC_ERROR_CODES) then e else u "internal_error")
  end.

(** An event of a run with the fields that every kind sets; the others are [None]. *)
Definition plain_event (run_id run_source : pystr) (kind : event_kind) (now : Z) : MultiAgentEvent :=
  mkMultiAgentEvent run_id kind 0 run_source now None None None None None None [] None None None [] None None None None.

(** A lifecycle event of one subtask. *)
Definition subtask_event (run_id run_source : pystr) (kind : event_kind) (now : Z) (task : Subtask)
    (duration_ms token_usage : option Z) (output_summary error_code : option pystr) : MultiAgentEvent :=
  mkMultiAgentEvent run_id kind 0 run_source now (Some (task_id task)) (Some (AgentRole.value (agent_role task)))
    duration_ms token_usage output_summary error_code [] None None None [] None None None None.

Section Bounded.
Context (is_alnum : N -> bool).

(** [.replace(newline, space)] for the two line ends *)
Definition flat (c : N) : N := if (c =? 13)%N || (c =? 10)%N then 32%N else c.
Definition one_line (s : pystr) : pystr := flat <$> s.

Definition _bounded_summary (value : pystr) : pystr :=
  let sanitized := one_line (sanitize_public_text is_alnum value) in
  if _MAX_SUMMARY_CHARS <? slen sanitized then sprefix _MAX_SUMMARY_CHARS sanitized else sanitized.

Definition _bounded_result (value : pystr) : pystr :=
  let sanitized := sanitize_public_text is_alnum value in
  if _MAX_RESULT_CHARS <? slen sanitized then sprefix _MAX_RESULT_CHARS sanitized else sanitized.

(** [_bounded_summary(text) if text else None] *)
Definition summary_if (text : pystr) : option pystr :=
  match text with [] => None | _ => Some (_bounded_summary text) end.

(** ** The events of one subtask *)

Definition _AGENT_TO_MULTI_EVENT (k : AgentEventKind.t) : option event_kind :=
  match k with
  | AgentEventKind.STEP_STARTED => Some MultiAgentEventKind.SUBTASK_STEP_STARTED
  | AgentEventKind.STEP_COMPLETED => Some MultiAgentEventKind.SUBTASK_STEP_COMPLETED
  | AgentEventKind.TOOL_STARTED => Some MultiAgentEventKind.SUBTASK_TOOL_STARTED
  | AgentEventKind.TOOL_COMPLETED => Some MultiAgentEventKind.SUBTASK_TOOL_COMPLETED
  | AgentEventKind.TOOL_FAILED => Some MultiAgentEventKind.SUBTASK_TOOL_FAILED
  | AgentEventKind.ANSWER_DELTA => Some MultiAgentEventKind.SUBTASK_ANSWER_DELTA
  | _ => None
  end.

(** The event that [_SubtaskRuntimeEventObserver.observe] schedules, if any. *)
Definition observe (run_id run_source : pystr) (task : Subtask) (now : Z) (event : AgentEvent)
  : option MultiAgentEvent :=
  match _AGENT_TO_MULTI_EVENT (ev_kind event) with
  | None => None
  | Some kind =>
      let origin :=
        match ev_tool_call event, ev_tool_result event with
        | Some c, _ => Some (call_name c, call_id c)
        | None, Some r => Some (res_name r, res_call_id r)
        | None, None => None
        end in
      Some (mkMultiAgentEvent run_id kind 0 run_source now (Some (task_id task))
              (Some (AgentRole.value (agent_role task))) None None
              (match ev_message event with Some m => summary_if m | None => None end)
              None [] None None None [] (Some (kind_value (ev_kind event))) (ev_step_index event)
              (fst <$> origin) (snd <$> origin))
  end.

(** What the world adds to the events of a task: the instant of each event, the
    duration in each of them, and the events of the agent's run, in the order in
    which they were observed ([drain] waits for all of them). *)
Record task_clock := mkTaskClock {
  tc_now : nat -> Z;
  tc_duration : Z;
  tc_agent_events : list AgentEvent
}.

Section SingleTaskEvents.
Context (format : pystr -> pystr -> result format_error pystr) (empty_message_error : pystr).
Context (run_id run_source : pystr).

(** [run_source] of the events that the code builds without one *)
Definition default_source : pystr := u "supervisor".

(** The events of [_execute_single_task], with an observer that does not raise. *)
Definition task_events (b : backend) (config : OrchestrationConfig) (ctx : SharedContext) (task : Subtask)
    (w : task_world) (c : task_clock) : list MultiAgentEvent :=
  let failed source n :=
    subtask_event run_id source MultiAgentEventKind.SUBTASK_FAILED (tc_now c n) task
      (Some (tc_duration c)) None None (Some (u "subtask_failed")) in
  match agent_config_for config (agent_role task) with
  | None => [failed default_source 0%nat]
  | Some ac =>
      match task_input format ctx task with
      | Err _ => []
      | Ok input =>
          if tw_cancelled w then [failed default_source 0%nat] else
          let started :=
            subtask_event run_id run_source MultiAgentEventKind.SUBTASK_STARTED (tc_now c 0) task None None None None in
          let ended (r : SubtaskResult) n :=
            match sr_status r with
            | TaskStatus.COMPLETED =>
                subtask_event run_id run_source MultiAgentEventKind.SUBTASK_COMPLETED (tc_now c n) task
                  (Some (tc_duration c)) (Some (sr_token_usage r)) (Some (_bounded_summary (sr_output r))) None
            | _ => failed run_source n
            end in
          match b with
          | AgentBackend =>
              match task_request empty_message_error task ac input with
              | Err _ => [started; failed default_source 1%nat]
              | Ok request =>
                  let inner := omap (fun p => observe run_id run_source task (tc_now c p.1) p.2)
                                 (imap (fun i e => (S i, e)) (tc_agent_events c)) in
                  let n := S (length (tc_agent_events c)) in
                  match tw_agent w request with
                  | Ok o => started :: inner ++ [ended (agent_task_result task o) n]
                  | Err _ => started :: inner ++ [failed default_source n]
                  end
              end
          | ChatBackend =>
              match chat_request empty_message_error ac input with
              | Err _ => [started; failed default_source 1%nat]
              | Ok request =>
                  match tw_chat w request with
                  | Ok o => [started; ended (chat_task_result task o) 1%nat]
                  | Err _ => [started; failed default_source 1%nat]
                  end
              end
          | NoBackend => [started; ended (placeholder_task_result task) 1%nat]
          end
      end
  end.

(** The event of a task that is skipped by the scheduling loop *)
Definition skipped_event (now : Z) (i : pystr) : MultiAgentEvent :=
  mkMultiAgentEvent run_id MultiAgentEventKind.SUBTASK_SKIPPED 0 run_source now (Some i) None None None None None
    [] None None None [] None None None None.
End SingleTaskEvents.
End Bounded.

(** ** Observers *)

(** An observer returns or raises; its waits are no cancellation points here
    ([env_wait] of [MultiAgent] says when the run itself is cancelled). *)
Inductive observer_error := ObserverException.
Definition observer (W : Type) : Type := MultiAgentEvent -> W -> result observer_error unit * W.

Section Observers.
Context {W : Type}.

(** [BestEffortObserver.on_event] never raises. *)
Definition best_effort (inner : observer W) : observer W := fun e w => (Ok tt, snd (inner e w)).

(** [ComposedObserver]: built from at least one observer; an exception of one
    keeps the event from the later ones. *)
Fixpoint composed_on_event (observers : list (observer W)) : observer W := fun e w =>
  match observers with
  | [] => (Ok tt, w)
  | o :: os =>
      match o e w with
      | (Ok _, w) => composed_on_event os e w
      | r => r
      end
  end.
Definition ComposedObserver (observers : list (observer W)) : option (observer W) :=
  match observers with [] => None | _ => Some (composed_on_event observers) end.

(** [event.sequence = n] *)
Definition with_sequence (n : Z) (e : MultiAgentEvent) : MultiAgentEvent :=
  mkMultiAgentEvent (me_run_id e) (me_kind e) n (me_run_source e) (me_occurred_at e) (me_task_id e)
    (me_agent_role e) (me_duration_ms e) (me_token_usage e) (me_output_summary e) (me_error_code e)
    (me_subtasks e) (me_reasoning e) (me_final_output e) (me_total_token_usage e) (me_subtask_results e)
    (me_agent_event_kind e) (me_step_index e) (me_tool_name e) (me_call_id e).

(** [SequencedObserver.on_event]; its state is the next number. *)
Definition sequenced (inner : observer W) : MultiAgentEvent -> Z * W -> result observer_error unit * (Z * W) :=
  fun e '(n, w) => let '(r, w) := inner (with_sequence n e) w in (r, (n + 1, w)).
End Observers.

(** ** The recorder of [services/multi_agent_run_record_service.py] *)

Definition MAX_MULTI_AGENT_EVENTS_PER_RUN : Z := 1000.
Definition MAX_MULTI_AGENT_EVENT_PAYLOAD_BYTES : Z := 2 * 1024 * 1024.

Record MultiAgentEventRecorder := mkMultiAgentEventRecorder { rec_count : Z; rec_bytes : Z }.

(** [len(json.dumps(event.to_public_dict(), ensure_ascii=False))] *)
Definition payload_size (isoformat : Z -> pystr) (e : MultiAgentEvent) : Z :=
  slen (dump_json_plain (JObj (to_public_dict isoformat e))).

(** [MultiAgentEventRecorder.on_event] in front of [save_event]. *)
Definition recorder_on_event {W} (isoformat : Z -> pystr) (save_event : observer W)
  : observer (MultiAgentEventRecorder * W) := fun e '(r, w) =>
  if MAX_MULTI_AGENT_EVENTS_PER_RUN <=? rec_count r then (Ok tt, (r, w)) else
  let payload_bytes := payload_size isoformat e in
  if MAX_MULTI_AGENT_EVENT_PAYLOAD_BYTES <? rec_bytes r + payload_bytes then (Ok tt, (r, w)) else
  match save_event e w with
  | (Ok _, w) => (Ok tt, (mkMultiAgentEventRecorder (rec_count r + 1) (rec_bytes r + payload_bytes), w))
  | (Err ObserverException, w) => (Ok tt, (r, w))
  end.
