(* ===== verification/MultiAgentService.v ===== *)
(** * Multi-agent runs: [app/multi_agent/supervisor.py] and [service.py]

    The supervisor's reading of a model's reply ([_parse_decision]) and the whole
    run: decompose the task (or load a canvas), execute the subtasks with
    [MultiAgent.execute], and emit the events of the run through the observers of
    [MultiAgentEvents].  The subtasks run concurrently, so the order in which
    their events arrive is the argument [emitted] of the run. *)

From S2P Require Import Prelude Json JsonLoads AgentRuntime Redaction MultiAgent MultiAgentEvents.
Local Open Scope Z_scope.

(** ** The supervisor *)

Record SupervisorDecision := mkSupervisorDecision {
  sd_subtasks : list Subtask;
  sd_reasoning : pystr;
  sd_total_estimated_tokens : json
}.

(** [s.split(sep)] up to its first separator: the text before and after it. *)
Fixpoint cut (sep s : pystr) : option (pystr * pystr) :=
  if starts_with sep s then Some ([], drop (length sep) s) else
  match s with
  | [] => None
  | c :: s' => (fun p => (c :: p.1, p.2)) <$> cut sep s'
  end.
(** [s.split(sep)[0]] and [s.split(sep)[1]] *)
Definition piece0 (sep s : pystr) : pystr := match cut sep s with Some p => p.1 | None => s end.
Definition piece1 (sep s : pystr) : option pystr := (fun p => piece0 sep p.2) <$> cut sep s.

(** What reading the reply ends with.  [IllTyped]: Python goes on with values
    that the annotations of [Subtask] and [SupervisorDecision] exclude. *)
Inductive parse_error := AttributeError | TypeError | IllTyped.

Definition ticks : pystr := u "```".
Definition json_ticks : pystr := u "```json".

(** The text between the code fences, if there are any. *)
Definition json_text (content : pystr) : pystr :=
  match piece1 json_ticks content with
  | Some p => piece0 ticks p
  | None =>
      match piece1 ticks content with
      | Some p => piece0 ticks p
      | None => content
      end
  end.

(** [value.get(key, default)] *)
Definition get_or (d : list (pystr * json)) (key : pystr) (dflt : json) : json := default dflt (dict_get key d).
Definition as_text (v : json) : result parse_error pystr :=
  match v with JStr s => Ok s | _ => Err IllTyped end.

(** [l[:n]] *)
Definition slice_to {A} (n : Z) (l : list A) : list A :=
  if 0 <=? n then take (Z.to_nat n) l else take (Z.to_nat (Z.of_nat (length l) + n)) l.

(** The items that [for item in value[:n]] goes through. *)
Definition sliced_items (n : Z) (v : json) : result parse_error (list json) :=
  match v with
  | JArr l => Ok (slice_to n l)
  | JStr s => Ok ((fun c => JStr [c]) <$> slice_to n s)
  | _ => Err TypeError
  end.

(** [tuple(value)], whose members must be texts. *)
Definition tuple_of (v : json) : result parse_error (list pystr) :=
  match v with
  | JArr l => foldE (fun acc x => (fun s => acc ++ [s]) <$> as_text x) [] l
  | JStr s => Ok ((fun c => [c]) <$> s)
  | JObj d => Ok d.*1
  | _ => Err TypeError
  end.

(** One item of the reply; [n] subtasks have been read before it. *)
Definition parse_subtask (n : nat) (item : json) : result parse_error Subtask :=
  match item with
  | JObj d =>
      let role :=
        match get_or d (u "agent_role") (JStr (u "writer")) with
        | JStr s => default AgentRole.CUSTOM (AgentRole.of_str s)
        | _ => AgentRole.CUSTOM
        end in
      deps ← tuple_of (get_or d (u "depends_on") (JArr []));
      i ← as_text (get_or d (u "id") (JStr (u "task_" ++ str_of_Z (Z.of_nat n + 1))));
      description ← as_text (get_or d (u "description") (JStr []));
      template ← as_text (get_or d (u "input_template") (JStr []));
      priority ← match get_or d (u "priority") (JInt 0) with JInt z => Ok z | _ => Err IllTyped end;
      Ok (mkSubtask i description role
            (match dict_get (u "agent_id") d with Some (JStr a) => Some a | _ => None end)
            deps template priority)
  | _ => Err AttributeError
  end.

(** [_parse_decision]; [decode_error] is the text of [json]'s exception. *)
Definition _parse_decision (decode_error : pystr -> pystr) (content : pystr) (max_subtasks : Z)
  : result parse_error SupervisorDecision :=
  let text := strip (json_text content) in
  match loads text with
  | None =>
      Ok (mkSupervisorDecision
            [mkSubtask (u "task_1") (sprefix 200 content) AgentRole.WRITER None [] [] 0]
            (u "Failed to parse supervisor response: " ++ decode_error text) JNull)
  | Some (JObj data) =>
      items ← sliced_items max_subtasks (get_or data (u "subtasks") (JArr []));
      subtasks ← foldE (fun acc item => (fun t => acc ++ [t]) <$> parse_subtask (length acc) item) [] items;
      reasoning ← as_text (get_or data (u "reasoning") (JStr []));
      Ok (mkSupervisorDecision subtasks reasoning (get_or data (u "total_estimated_tokens") JNull))
  | Some _ => Err AttributeError
  end.

(** ** The run *)

(** Why a run raises: the supervisor's model call failed, its reply could not be
    read, or [asyncio.Semaphore] refused the limit. *)
Inductive run_error :=
| DecomposeFailed
| ReplyUnreadable (e : parse_error)
| ExecuteFailed (e : execute_error).

Definition terminal_kind (s : OrchestrationStatus.t) : option event_kind :=
  match s with
  | OrchestrationStatus.COMPLETED => Some MultiAgentEventKind.RUN_COMPLETED
  | OrchestrationStatus.FAILED => Some MultiAgentEventKind.RUN_FAILED
  | OrchestrationStatus.CANCELLED => Some MultiAgentEventKind.RUN_CANCELLED
  | OrchestrationStatus.TIMED_OUT => Some MultiAgentEventKind.RUN_TIMED_OUT
  | OrchestrationStatus.BUDGET_EXCEEDED => Some MultiAgentEventKind.RUN_BUDGET_EXCEEDED
  | OrchestrationStatus.RUNNING => None
  end.

Section Service.
Context (is_alnum : N -> bool).

Definition planned_event (run_id run_source : pystr) (now : Z) (d : SupervisorDecision) : MultiAgentEvent :=
  mkMultiAgentEvent run_id MultiAgentEventKind.SUBTASKS_PLANNED 0 run_source now None None None None None None
    ((fun t => mkSubtaskSummary (task_id t) (AgentRole.value (agent_role t)) (agent_id t)
                 (_bounded_summary is_alnum (description t)) (depends_on t)) <$> sd_subtasks d)
    (summary_if is_alnum (sd_reasoning d)) None None [] None None None None.

(** The durations of the subtasks come from the clock. *)
Definition terminal_event (run_id run_source : pystr) (now : Z) (kind : event_kind) (duration_ms : Z)
    (task_ms : pystr -> option Z) (r : OrchestrationResult) : MultiAgentEvent :=
  mkMultiAgentEvent run_id kind 0 run_source now None None (Some duration_ms) None None (or_error_code r) [] None
    (match or_final_output r with [] => None | o => Some (_bounded_result is_alnum o) end)
    (Some (or_total_token_usage r))
    ((fun s => mkSubtaskResultSummary (sr_task_id s) (task_status_value (sr_status s))
                 (AgentRole.value (sr_agent_role s))
                 (match sr_output s with [] => [] | o => _bounded_summary is_alnum o end)
                 (if decide (sr_status s = TaskStatus.FAILED) then Some (u "subtask_failed") else None)
                 (sr_token_usage s) (task_ms (sr_task_id s))) <$> or_subtask_results r)
    None None None None.

(** [_decompose_via_supervisor] and [Supervisor.decompose] *)
Definition supervisor_request (user_input : pystr) (model : option pystr) (system_prompt : pystr) : ChatRequest :=
  mkChatRequest (u "Decompose this task into subtasks:" ++ newline ++ newline ++ user_input) model
    (Some system_prompt).

Section Run.
(** [W]: the services; [S]: what the observers keep. *)
Context {W S : Type} (env : dag_env W) (b : backend).
Context (format : pystr -> pystr -> result format_error pystr) (empty_message_error : pystr)
  (show_seconds : Z -> pystr) (decode_error : pystr -> pystr) (repr : json -> pystr)
  (_SUPERVISOR_SYSTEM_PROMPT : pystr).
(** [ChatService.chat] and [MultiAgentConfigService.get_config] with the owner's
    scope ([None]: there is no such service, or no such canvas). *)
Context (chat : ChatRequest -> W -> option ChatResponse * W) (get_dag : pystr -> W -> option json * W).
(** The sinks: the observer and the recorder, where they are given. *)
Context (sinks : list (observer S)).
(** The events of the subtasks, in the order in which they reach the observer,
    for the state in which [execute] ends, and the readings of the clocks. *)
Context (emitted : dag_state -> W -> list MultiAgentEvent) (now : Z -> Z) (duration_ms : W -> Z)
  (task_ms : W -> pystr -> option Z).

(** [emit]: nothing without sinks; the state is the next number and the sinks'. *)
Definition emit (e : MultiAgentEvent) (s : Z * S) : Z * S :=
  match ComposedObserver sinks with
  | None => s
  | Some o => snd (sequenced (best_effort o) e s)
  end.
Definition emit_all (es : list MultiAgentEvent) (s : Z * S) : Z * S := foldl (fun s e => emit e s) s es.

(** [supervisor_model or config.supervisor_model] *)
Definition model_of (supervisor_model config_model : option pystr) : option pystr :=
  match supervisor_model with Some (_ :: _) => supervisor_model | _ => config_model end.

Definition decompose (user_input : pystr) (model : option pystr) (max_subtasks : Z) (w : W)
  : result run_error SupervisorDecision * W :=
  match chat (supervisor_request user_input model _SUPERVISOR_SYSTEM_PROMPT) w with
  | (None, w) => (Err DecomposeFailed, w)
  | (Some r, w) =>
      (match _parse_decision decode_error (ch_content r) max_subtasks with
       | Ok d => Ok d
       | Err e => Err (ReplyUnreadable e)
       end, w)
  end.

Definition _load_decision_from_config (config_id : pystr) (w : W) : option SupervisorDecision * W :=
  match get_dag config_id w with
  | (None, w) => (None, w)
  | (Some dag, w) =>
      (match from_dag repr dag with
       | Ok tasks => Some (mkSupervisorDecision tasks [] JNull)
       | Err _ => None
       end, w)
  end.

(** What a run that returns reports; [execute]'s final state is kept beside it. *)
Record run_report := mkRunReport { rp_result : OrchestrationResult; rp_dag : option dag_state }.

Definition config_not_found (config_id : pystr) : OrchestrationResult :=
  mkOrchestrationResult OrchestrationStatus.FAILED [] [] 0
    (Some (u "Config " ++ config_id ++ u " not found or invalid")) (Some (u "config_not_found")).

(** What follows the decomposition. *)
Definition orchestrate (run_id run_source user_input : pystr) (config : OrchestrationConfig)
    (d : SupervisorDecision) (w : W) (s : Z * S) : option (result run_error run_report) * W * (Z * S) :=
  let s := emit (planned_event run_id run_source (now 1) d) s in
  match execute env b format empty_message_error show_seconds config user_input (sd_subtasks d) w with
  | (None, w) => (None, w, s)
  | (Some (Err e), w) => (Some (Err (ExecuteFailed e)), w, s)
  | (Some (Ok (r, dag)), w) =>
      let s := emit_all (emitted dag w) s in
      let s := match terminal_kind (or_status r) with
               | None => s
               | Some kind => emit (terminal_event run_id run_source (now 2) kind (duration_ms w) (task_ms w) r) s
               end in
      (Some (Ok (mkRunReport r (Some dag))), w, s)
  end.

(** [MultiAgentService.run] *)
Definition run (run_id user_input : pystr) (config : OrchestrationConfig)
    (supervisor_model config_model config_id : option pystr) (max_subtasks : Z) (w : W) (s : S)
  : option (result run_error run_report) * W * (Z * S) :=
  let run_source := match config_id with Some (_ :: _) => u "config" | _ => u "supervisor" end in
  let s := emit (plain_event run_id run_source MultiAgentEventKind.RUN_STARTED (now 0)) (0, s) in
  match config_id with
  | Some i =>
      match _load_decision_from_config i w with
      | (None, w) => (Some (Ok (mkRunReport (config_not_found i) None)), w, s)
      | (Some d, w) => orchestrate run_id run_source user_input config d w s
      end
  | None =>
      match decompose user_input (model_of supervisor_model config_model) max_subtasks w with
      | (Err e, w) => (Some (Err e), w, s)
      | (Ok d, w) => orchestrate run_id run_source user_input config d w s
      end
  end.
End Run.
End Service.
