(* ===== verification/MultiAgentServiceProps.v ===== *)
(** * Properties of multi-agent runs and their events

    What a client and the history are told about a run ([MultiAgentService.run]):
    the order and numbering of the events, the texts that they may carry, the
    error codes, and what the recorder keeps. *)

From S2P Require Import Prelude Json JsonLoads AgentRuntime Regex Redaction MultiAgent.
From S2P Require Import MultiAgentFacts MultiAgentProps MultiAgentEvents MultiAgentService.
Local Open Scope Z_scope.

(** ** Error codes of the orchestrator *)

Definition code_ok (c : option pystr) : Prop := match c with Some c => c ∈ PUBLIC_ERROR_CODES | None => True end.
Definition state_ok (s : dag_state) : Prop := code_ok (os_error_code (ds_state s)).

Lemma stop_ok st err code s : code ∈ PUBLIC_ERROR_CODES -> state_ok (stop_with st err code s).
Proof. done. Qed.

(** [state_ok] of a state whose code is a literal. *)
Ltac public_code := apply stop_ok; apply (bool_decide_unpack _); vm_compute; exact I.

Section Codes.
Context {W : Type} (env : dag_env W) (config : OrchestrationConfig) (b : backend).
Context (format : pystr -> pystr -> result format_error pystr) (empty_message_error : pystr).
Context (show_seconds : Z -> pystr) (task_map : gmap pystr Subtask) (concurrency : Z).

Lemma scan_ready_code ids ready s : state_ok s ->
  state_ok (scan_ready config task_map ids ready s).2.
Proof.
  revert ready s. induction ids as [|i ids IH]; intros ready s Hs; simpl; [done|].
  repeat (case_match; try by apply IH).
Qed.

Lemma start_ready_code ready s : state_ok s -> state_ok (start_ready format concurrency ready s).
Proof. revert s. induction ready as [|t ready IH]; intros s Hs; simpl; [done|]. case_match; [done|]. by apply IH. Qed.

Definition exit_ok (e : dag_exit) : Prop := state_ok (caught e).

Lemma raised_ok e s : state_ok s -> exit_ok (Raised e s).
Proof. intros Hs. destruct e; public_code. Qed.

Lemma handle_done_code done s : state_ok s ->
  match handle_done config b format empty_message_error task_map done s with
  | inl e => exit_ok e | inr s => state_ok s
  end.
Proof.
  revert s. induction done as [|[i tw] done IH]; intros s Hs; simpl; [done|].
  destruct (task_result _ _ _ _ _ _ _ _) as [r|e]; [|by apply raised_ok].
  destruct (sr_status r); try (by apply IH); [|public_code].
  destruct (decide _); [public_code|by apply IH].
Qed.

Lemma after_loop_code s : state_ok s -> state_ok (after_loop config s).
Proof. intros Hs. unfold after_loop. case_match; [exact Hs|]. case_match; [exact Hs|]. public_code. Qed.

Lemma head_checks_code s w s' : (head_checks env config show_seconds s w).1 = Some s' -> state_ok s'.
Proof.
  unfold head_checks. repeat case_match; intros [= <-]; public_code.
Qed.

Lemma iterate_code s w : state_ok s ->
  match (iterate env config b format empty_message_error show_seconds task_map concurrency s w).1 with
  | inl e => exit_ok e | inr s => state_ok s
  end.
Proof.
  intros Hs. unfold iterate. destruct (head_checks _ _ _ s w) as [[s1|] w1] eqn:Eh.
  { apply (head_checks_code s w). by rewrite Eh. }
  pose proof (scan_ready_code (env_order env w1 (ds_pending s)) [] s Hs) as Hscan.
  destruct (scan_ready _ _ _ _ s) as [ready s1]. apply (start_ready_code ready) in Hscan.
  set (s2 := start_ready _ _ _ _) in *. clearbody s2. cbn zeta.
  destruct (bool_decide (ds_in_progress s2 = [])); [destruct (bool_decide (ds_pending s2 = []))|]; cbn [fst].
  - by apply after_loop_code.
  - public_code.
  - destruct (env_wait _ _ _) as [[d|] w2]; simpl; [by apply handle_done_code|by apply raised_ok].
Qed.

Lemma execute_dag_code fuel s w e w' : state_ok s ->
  _execute_dag env config b format empty_message_error show_seconds task_map concurrency fuel s w = (Some e, w') ->
  exit_ok e.
Proof.
  revert s w. induction fuel as [|f IH]; intros s w Hs; simpl; [done|]. case_match.
  - intros [= <- _]. by apply after_loop_code.
  - pose proof (iterate_code s w Hs) as Hi.
    destruct (iterate _ _ _ _ _ _ _ _ s w) as [[e1|s1] w1]; [by intros [= <- _]|]. by apply IH.
Qed.
End Codes.

Lemma execute_code {W} (env : dag_env W) b format eme show config input tasks w r s w' :
  execute env b format eme show config input tasks w = (Some (Ok (r, s)), w') -> code_ok (or_error_code r).
Proof.
  unfold execute. case_match; [done|]. destruct (_execute_dag _ _ _ _ _ _ _ _ _ _ _) as [[e|] w1] eqn:E; [|done].
  apply execute_dag_code in E; [|done]. by intros [= <- _ _].
Qed.

(** ** The stream of a run *)

(** The events as the sinks receive them. *)
Fixpoint numbered (n : Z) (es : list MultiAgentEvent) : list MultiAgentEvent :=
  match es with [] => [] | e :: es => with_sequence n e :: numbered (n + 1) es end.

(** What the sinks become when they receive these events, one after the other. *)
Definition deliver {S} (sinks : list (observer S)) (es : list MultiAgentEvent) (s : S) : S :=
  foldl (fun s e => snd (composed_on_event sinks e s)) s es.

Lemma numbered_app n es es' : numbered n (es ++ es') = numbered n es ++ numbered (n + Z.of_nat (length es)) es'.
Proof.
  revert n. induction es as [|e es IH]; intros n; simpl; [by rewrite Z.add_0_r|].
  rewrite IH. do 3 f_equal. lia.
Qed.

Lemma deliver_app {S} (sinks : list (observer S)) es es' s :
  deliver sinks (es ++ es') s = deliver sinks es' (deliver sinks es s).
Proof. apply foldl_app. Qed.

Lemma numbered_sequence es i e : numbered 0 es !! i = Some e -> me_sequence e = Z.of_nat i.
Proof.
  enough (H : forall n, numbered n es !! i = Some e -> me_sequence e = n + Z.of_nat i) by (intros ?%H; lia).
  revert i. induction es as [|x es IH]; intros i n; simpl; [done|].
  destruct i as [|i]; simpl; [intros [= <-]; simpl; lia|]. intros ->%IH. lia.
Qed.

(** The state after [es] was sent. *)
Definition sent {S} (sinks : list (observer S)) (s0 : S) (es : list MultiAgentEvent) : Z * S :=
  (Z.of_nat (length es), deliver sinks (numbered 0 es) s0).

Section Stream.
Context (is_alnum : N -> bool) {W S : Type} (env : dag_env W) (b : backend).
Context (format : pystr -> pystr -> result format_error pystr) (empty_message_error : pystr)
  (show_seconds : Z -> pystr) (decode_error : pystr -> pystr) (repr : json -> pystr) (prompt : pystr).
Context (chat : ChatRequest -> W -> option ChatResponse * W) (get_dag : pystr -> W -> option json * W).
Context (sinks : list (observer S)).
Context (emitted : dag_state -> W -> list MultiAgentEvent) (now : Z -> Z) (duration_ms : W -> Z)
  (task_ms : W -> pystr -> option Z).
Abbreviation the_run := (run is_alnum env b format empty_message_error show_seconds decode_error repr prompt chat
  get_dag sinks emitted now duration_ms task_ms).
Abbreviation emits := (emit sinks).

Lemma emit_sent s0 es e : sinks <> [] -> emits e (sent sinks s0 es) = sent sinks s0 (es ++ [e]).
Proof.
  intros Hs. unfold emit, ComposedObserver. destruct sinks as [|o os]; [done|].
  unfold sent. rewrite numbered_app, deliver_app, length_app. cbn [sequenced best_effort snd fst].
  unfold sequenced, best_effort. cbn [numbered deliver foldl length]. rewrite Z.add_0_l. f_equal. lia.
Qed.

Lemma emit_all_sent s0 es es' : sinks <> [] -> emit_all sinks es' (sent sinks s0 es) = sent sinks s0 (es ++ es').
Proof.
  intros Hs. revert es. induction es' as [|e es' IH]; intros es; simpl; [by rewrite app_nil_r|].
  rewrite emit_sent by done. rewrite IH. by rewrite <- app_assoc.
Qed.

Definition source_of (config_id : option pystr) : pystr :=
  match config_id with Some (_ :: _) => u "config" | _ => u "supervisor" end.
Definition started_event run_id config_id : MultiAgentEvent :=
  plain_event run_id (source_of config_id) MultiAgentEventKind.RUN_STARTED (now 0).

(** The events of a run by its outcome. *)
Definition run_events run_id config_id (out : result run_error run_report) (w' : W) (es : list MultiAgentEvent) : Prop :=
  let source := source_of config_id in
  match out with
  | Ok rep =>
      match rp_dag rep with
      | None => es = [started_event run_id config_id] /\ or_error_code (rp_result rep) = Some (u "config_not_found")
      | Some dag =>
          exists d kind, terminal_kind (or_status (rp_result rep)) = Some kind /\
            code_ok (or_error_code (rp_result rep)) /\
            es = started_event run_id config_id :: planned_event is_alnum run_id source (now 1) d :: emitted dag w' ++
                 [terminal_event is_alnum run_id source (now 2) kind (duration_ms w') (task_ms w') (rp_result rep)]
      end
  | Err (ExecuteFailed _) =>
      exists d, es = [started_event run_id config_id; planned_event is_alnum run_id source (now 1) d]
  | Err _ => es = [started_event run_id config_id]
  end.

Lemma terminal_some st : st <> OrchestrationStatus.RUNNING -> exists k, terminal_kind st = Some k.
Proof. destruct st; simpl; eauto; done. Qed.

Lemma orchestrate_events run_id config_id input config d w s0 out w' s' :
  env_laws env -> sinks <> [] ->
  orchestrate is_alnum env b format empty_message_error show_seconds sinks emitted now duration_ms task_ms run_id
    (source_of config_id) input config d w (sent sinks s0 [started_event run_id config_id]) = (out, w', s') ->
  exists o es, out = Some o /\ s' = sent sinks s0 es /\ run_events run_id config_id o w' es.
Proof.
  intros Henv Hs. unfold orchestrate. rewrite emit_sent by done. cbv zeta.
  pose proof (execute_ends env b format empty_message_error show_seconds config input (sd_subtasks d) w Henv) as Hend.
  destruct (execute _ _ _ _ _ _ _ _ w) as [[[[r dag]|e]|] w1] eqn:Ex; [| |done].
  - destruct Hend as [_ Hst]. apply terminal_some in Hst as [k Hk]. rewrite Hk, emit_all_sent, emit_sent by done.
    intros [= <- <- <-]. do 2 eexists. split; [done|]. split; [done|]. simpl. exists d, k. split; [done|].
    split; [by eapply execute_code|]. done.
  - intros [= <- <- <-]. do 2 eexists. split; [done|]. split; [done|]. simpl. by exists d.
Qed.

Lemma run_stream_spec run_id input config sm cm config_id max_subtasks w s0 out w' s' :
  env_laws env -> sinks <> [] ->
  the_run run_id input config sm cm config_id max_subtasks w s0 = (out, w', s') ->
  exists o es, out = Some o /\ s' = sent sinks s0 es /\ run_events run_id config_id o w' es.
Proof.
  intros Henv Hs. unfold run. fold (source_of config_id).
  change (plain_event run_id (source_of config_id) MultiAgentEventKind.RUN_STARTED (now 0))
    with (started_event run_id config_id).
  change (0, s0) with (sent sinks s0 []). rewrite emit_sent by done. rewrite app_nil_l.
  destruct config_id as [i|].
  - destruct (_load_decision_from_config _ _ i w) as [[d|] w1]; [by apply orchestrate_events|].
    intros [= <- <- <-]. do 2 eexists. by split_and!.
  - destruct (decompose _ _ _ _ _ _ w) as [[d|e] w1] eqn:Ed; [by apply orchestrate_events|].
    intros [= <- <- <-]. do 2 eexists. split_and!; [done..|]. revert Ed. unfold decompose.
    repeat case_match; intros [= <- _]; done.
Qed.

(** The events come from the subtasks of the run. *)
Definition from_subtasks (run_id run_source : pystr) (e : MultiAgentEvent) : Prop :=
  (exists config ctx task tw c, e ∈ task_events is_alnum format empty_message_error run_id run_source b config ctx task tw c) \/
  (exists t i, e = skipped_event run_id run_source t i).

Definition subtask_kinds (k : event_kind) : Prop :=
  k <> MultiAgentEventKind.RUN_STARTED /\ k <> MultiAgentEventKind.SUBTASKS_PLANNED /\ k ∉ _TERMINAL_EVENT_KINDS.

#[local] Instance subtask_kinds_dec k : Decision (subtask_kinds k).
Proof. unfold subtask_kinds. apply _. Defined.
Ltac kind_fact := apply (bool_decide_unpack _); vm_compute; exact I.

(** What holds of every event of a subtask holds of each way to build one. *)
Lemma task_events_inv (P : MultiAgentEvent -> Prop) run_id run_source config ctx task tw c :
  (forall source t, P (subtask_event run_id source MultiAgentEventKind.SUBTASK_FAILED t task (Some (tc_duration c))
      None None (Some (u "subtask_failed")))) ->
  (forall t, P (subtask_event run_id run_source MultiAgentEventKind.SUBTASK_STARTED t task None None None None)) ->
  (forall t (r : SubtaskResult), P (subtask_event run_id run_source MultiAgentEventKind.SUBTASK_COMPLETED t task
      (Some (tc_duration c)) (Some (sr_token_usage r)) (Some (_bounded_summary is_alnum (sr_output r))) None)) ->
  (forall t e x, observe is_alnum run_id run_source task t e = Some x -> P x) ->
  Forall P (task_events is_alnum format empty_message_error run_id run_source b config ctx task tw c).
Proof.
  intros Hfail Hstart Hdone Hobs. unfold task_events.
  assert (Hend : forall r n, P (match sr_status r with
      | TaskStatus.COMPLETED =>
          subtask_event run_id run_source MultiAgentEventKind.SUBTASK_COMPLETED (tc_now c n) task
            (Some (tc_duration c)) (Some (sr_token_usage r)) (Some (_bounded_summary is_alnum (sr_output r))) None
      | _ => subtask_event run_id run_source MultiAgentEventKind.SUBTASK_FAILED (tc_now c n) task
               (Some (tc_duration c)) None None (Some (u "subtask_failed"))
      end)) by (intros r n; destruct (sr_status r); auto).
  assert (Hinner : forall l, Forall P (omap (fun p : nat * AgentEvent =>
      observe is_alnum run_id run_source task (tc_now c p.1) p.2) l)).
  { intros l. apply Forall_forall. intros x (p & _ & Hp)%list_elem_of_omap. by eapply Hobs. }
  destruct (agent_config_for _ _) as [ac|]; [|by repeat constructor].
  destruct (task_input _ _ _) as [input|]; [|constructor].
  destruct (tw_cancelled tw); [by repeat constructor|]. cbv zeta.
  destruct b.
  - destruct (task_request _ _ _ _); [|by repeat constructor].
    destruct (tw_agent tw _); (constructor; [done|]); apply Forall_app; split; try apply Hinner; by repeat constructor.
  - destruct (chat_request _ _ _); [|by repeat constructor].
    destruct (tw_chat tw _); by repeat constructor.
  - by repeat constructor.
Qed.

Lemma observe_kind run_id run_source task t e x : observe is_alnum run_id run_source task t e = Some x ->
  subtask_kinds (me_kind x).
Proof.
  unfold observe. destruct (ev_kind e); simpl; intros [= <-]; cbn [me_kind]; kind_fact.
Qed.

Lemma from_subtasks_kind run_id run_source e : from_subtasks run_id run_source e -> subtask_kinds (me_kind e).
Proof.
  intros [(config & ctx & task & tw & c & He)|(t & i & ->)]; [|cbn [me_kind skipped_event]; kind_fact].
  revert e He. apply Forall_forall. apply task_events_inv; cbn [me_kind subtask_event]; intros; try kind_fact.
  by eapply observe_kind.
Qed.

Lemma run_events_head run_id config_id o w' es : run_events run_id config_id o w' es ->
  exists es', es = started_event run_id config_id :: es'.
Proof.
  unfold run_events. destruct o as [rep|e].
  - destruct (rp_dag rep).
    + intros (d' & k & _ & _ & ->). by eexists.
    + intros [-> _]. by eexists.
  - destruct e; [intros ->|intros ->|intros (d & ->)]; by eexists.
Qed.


(** ** What the texts of the events may hold *)

Abbreviation PATH := (INTERNAL_PATH_RE is_alnum).
Definition no_path (s : pystr) : Prop :=
  forall pre w post, s = pre ++ w ++ post -> ~ matches PATH (rev pre) w post.

(** A short text: bounded, on one line, without an internal path. *)
Definition public_text (s : pystr) : Prop :=
  slen s <= _MAX_SUMMARY_CHARS /\ Forall (fun c => c <> 10%N /\ c <> 13%N) s /\ no_path s.

Definition texts (e : MultiAgentEvent) : list pystr :=
  option_list (me_output_summary e) ++ option_list (me_reasoning e) ++ (ss_description <$> me_subtasks e) ++
  (rs_output <$> me_subtask_results e).

Definition public_event (e : MultiAgentEvent) : Prop :=
  Forall public_text (texts e) /\
  (forall o, me_final_output e = Some o -> slen o <= MAX_RAG_CONTENT_CHARS /\ no_path o) /\
  code_ok (me_error_code e) /\ Forall (fun r => code_ok (rs_error_code r)) (me_subtask_results e).

Context (Hspace : forall c, is_space c = true -> is_alnum c = false).

Lemma flat_test (p : N -> bool) c : p 10%N = p 32%N -> p 13%N = p 32%N -> p (flat c) = p c.
Proof.
  intros H10 H13. unfold flat. destruct (c =? 13)%N eqn:E13; [by apply N.eqb_eq in E13 as ->|].
  destruct (c =? 10)%N eqn:E10; [by apply N.eqb_eq in E10 as ->|done].
Qed.

Lemma one_line_head p s : p 10%N = p 32%N -> p 13%N = p 32%N -> first_is p (one_line s) = first_is p s.
Proof. intros H10 H13. destruct s as [|c s]; [done|]. by apply flat_test. Qed.

Lemma one_line_starts l s : forallb (fun c => negb (is_space c)) l = true ->
  starts_with l (one_line s) = starts_with l s.
Proof.
  revert s. induction l as [|c l IH]; intros s Hl; [done|]. destruct s as [|d s]; [done|].
  apply andb_true_iff in Hl as [Hc%negb_true_iff Hl].
  change ((c =? flat d)%N && starts_with l (one_line s) = (c =? d)%N && starts_with l s).
  rewrite (IH s Hl). f_equal. apply (flat_test (fun d => c =? d)%N).
  1-2: destruct (c =? 32)%N eqn:E; [apply N.eqb_eq in E as ->; done|]; apply N.eqb_neq; intros ->; done.
Qed.

Lemma one_line_path rb s : path_here is_alnum (one_line rb) (one_line s) = path_here is_alnum rb s.
Proof.
  assert (Hpc : forall s, first_is path_char (one_line s) = first_is path_char s) by (intros; by apply one_line_head).
  assert (Hd : forall n s, drop n (one_line s) = one_line (drop n s)) by (intros; symmetry; apply fmap_drop).
  unfold path_here. rewrite one_line_head.
  2-3: unfold is_word; rewrite !Hspace by done; done.
  f_equal. f_equal.
  - unfold root_here. assert (Hplain : forallb (forallb (fun c => negb (is_space c))) path_roots = true) by (by vm_compute).
    revert Hplain. generalize path_roots. intros roots Hplain. induction roots as [|r rs IH]; [done|]. cbn [existsb forallb] in *. apply andb_true_iff in Hplain as [Hr Hrs].
    rewrite IH by done. f_equal. by rewrite one_line_starts, Hd, Hpc by done.
  - destruct s as [|c s]; [done|].
    change (is_letter (flat c) && (starts_with [58; 92]%N (one_line s) && first_is path_char (drop 2 (one_line s))) =
            is_letter c && (starts_with [58; 92]%N s && first_is path_char (drop 2 s))).
    rewrite Hd, Hpc, one_line_starts by done. f_equal. by apply flat_test.
Qed.

Lemma one_line_pathless s : forall rb, pathless is_alnum rb s -> pathless is_alnum (one_line rb) (one_line s).
Proof.
  induction s as [|c s IH]; [done|]. intros rb [Hc Hs]. split; [|exact (IH (c :: rb) Hs)].
  change (path_here is_alnum (one_line rb) (one_line (c :: s)) = false). by rewrite one_line_path.
Qed.

Lemma no_path_pathless s : pathless is_alnum [] s -> no_path s.
Proof. intros Hs pre w post Heq. rewrite <- (app_nil_r (rev pre)). by eapply pathless_spec. Qed.

Lemma sanitize_pathless s : pathless is_alnum [] (sanitize_public_text is_alnum s).
Proof.
  rewrite sanitize_is_prefix. unfold sprefix.
  apply (pathless_prefix is_alnum (drop (Z.to_nat MAX_RAG_CONTENT_CHARS) (redact is_alnum s))).
  rewrite take_drop. apply redact_pathless.
Qed.

Lemma cut_take n s : (if n <? slen s then sprefix n s else s) = sprefix n s.
Proof.
  destruct (n <? slen s) eqn:E; [done|]. apply Z.ltb_ge in E. unfold slen, sprefix in *. symmetry. apply take_ge. lia.
Qed.

Lemma bounded_summary_public s : public_text (_bounded_summary is_alnum s).
Proof.
  unfold _bounded_summary. cbv zeta. rewrite cut_take. split; [|split].
  - etransitivity; [apply sprefix_length|]. done.
  - unfold sprefix. apply Forall_take, Forall_fmap, Forall_true. intros c. simpl. unfold flat.
    destruct (c =? 13)%N eqn:E13, (c =? 10)%N eqn:E10; cbn [orb]; bools; done.
  - apply no_path_pathless. unfold sprefix. eapply pathless_prefix. rewrite take_drop.
    apply (one_line_pathless _ []), sanitize_pathless.
Qed.

Lemma bounded_result_public s : slen (_bounded_result is_alnum s) <= MAX_RAG_CONTENT_CHARS /\
  no_path (_bounded_result is_alnum s).
Proof.
  unfold _bounded_result. cbv zeta. rewrite cut_take. pose proof (sanitize_length is_alnum s) as Hl. split.
  - unfold slen, sprefix in *. rewrite length_take. lia.
  - apply no_path_pathless. unfold sprefix. eapply pathless_prefix. rewrite take_drop. apply sanitize_pathless.
Qed.

Lemma summary_if_public s x : summary_if is_alnum s = Some x -> public_text x.
Proof. destruct s; [done|]. intros [= <-]. apply bounded_summary_public. Qed.

Lemma public_failed : u "subtask_failed" ∈ PUBLIC_ERROR_CODES.
Proof. apply (bool_decide_unpack _). by vm_compute. Qed.

(** An event that has a summary at most. *)
Lemma simple_public e : me_reasoning e = None -> me_subtasks e = [] -> me_subtask_results e = [] ->
  me_final_output e = None -> (forall s, me_output_summary e = Some s -> public_text s) -> code_ok (me_error_code e) ->
  public_event e.
Proof.
  intros Hr Hs Hres Hf Ho Hc. unfold public_event, texts. rewrite Hr, Hs, Hres, Hf. cbn [option_list fmap list_fmap app].
  split; [|by split; [|split]]. destruct (me_output_summary e) as [s|]; [|constructor]. cbn. constructor; [by apply Ho|constructor].
Qed.

Lemma from_subtasks_public run_id run_source e : from_subtasks run_id run_source e -> public_event e.
Proof.
  intros [(config & ctx & task & tw & c & He)|(t & i & ->)]; [|by apply simple_public].
  revert e He. apply Forall_forall. apply task_events_inv; intros.
  - apply simple_public; try done. apply public_failed.
  - by apply simple_public.
  - apply simple_public; try done. intros s [= <-]. apply bounded_summary_public.
  - revert H. unfold observe. destruct (_AGENT_TO_MULTI_EVENT _); [|done]. intros [= <-]. apply simple_public; try done.
    cbn [me_output_summary]. destruct (ev_message e); [apply summary_if_public|done].
Qed.

Lemma planned_public run_id run_source t d : public_event (planned_event is_alnum run_id run_source t d).
Proof.
  unfold public_event, texts, planned_event. cbn [me_output_summary me_reasoning me_subtasks me_subtask_results
    me_final_output me_error_code option_list app fmap list_fmap].
  split; [|by split; [|split]]. rewrite !Forall_app. split_and!; [constructor| | |constructor].
  - destruct (summary_if is_alnum (sd_reasoning d)) eqn:E; [|constructor].
    apply summary_if_public in E. by constructor; [|constructor].
  - apply Forall_fmap, Forall_fmap, Forall_true. intros x. apply bounded_summary_public.
Qed.

Lemma terminal_public run_id run_source t kind ms tms r : code_ok (or_error_code r) ->
  public_event (terminal_event is_alnum run_id run_source t kind ms tms r).
Proof.
  intros Hc. unfold public_event, texts, terminal_event. cbn [me_output_summary me_reasoning me_subtasks
    me_subtask_results me_final_output me_error_code option_list app]. split; [|split; [|split]].
  - rewrite !Forall_app. split_and!; [constructor..|]. apply Forall_fmap, Forall_fmap, Forall_true. intros x. cbn. destruct (sr_output x); [|apply bounded_summary_public].
    split; [done|]. split; [constructor|]. by apply no_path_pathless.
  - destruct (or_final_output r); intros o [= <-]. apply bounded_result_public.
  - done.
  - apply Forall_fmap, Forall_true. intros x. cbn [rs_error_code compose].
    destruct (decide _); [apply public_failed|done].
Qed.

Lemma numbered_Forall es n : Forall public_event es -> Forall public_event (numbered n es).
Proof.
  intros H. revert n. induction H as [|e es He _ IH]; intros n; cbn; constructor; [exact He|apply IH].
Qed.

End Stream.

(** ** The recorder *)

Section Recorder.
Context (isoformat : Z -> pystr) (stores : MultiAgentEvent -> bool).

(** A history that keeps the events it accepts. *)
Definition history : observer (list MultiAgentEvent) := fun e w =>
  if stores e then (Ok tt, w ++ [e]) else (Err ObserverException, w).

Definition record_all (es : list MultiAgentEvent) : MultiAgentEventRecorder * list MultiAgentEvent :=
  foldl (fun s e => snd (recorder_on_event isoformat history e s)) (mkMultiAgentEventRecorder 0 0, []) es.

Lemma recorder_step e s : recorder_on_event isoformat history e s =
  (Ok tt,
   if (MAX_MULTI_AGENT_EVENTS_PER_RUN <=? rec_count s.1)
      || (MAX_MULTI_AGENT_EVENT_PAYLOAD_BYTES <? rec_bytes s.1 + payload_size isoformat e) || negb (stores e)
   then s
   else (mkMultiAgentEventRecorder (rec_count s.1 + 1) (rec_bytes s.1 + payload_size isoformat e), s.2 ++ [e])).
Proof.
  destruct s as [r w]. unfold recorder_on_event, history. cbn [fst snd].
  destruct (_ <=? _); [done|]. destruct (_ <? _); [done|]. by destruct (stores e).
Qed.

(** The recorder never disturbs a run and respects its caps: it raises
    nothing; what it keeps is a subsequence of the events, at most 1000 of them
    and at most 2 MiB of text, which are the numbers it has counted; and while
    all events fit and the history accepts them, all are kept. *)
Theorem recorder_respects_caps es :
  (forall e s, fst (recorder_on_event isoformat history e s) = Ok tt) /\
  let '(r, kept) := record_all es in
  sublist kept es /\ rec_count r = Z.of_nat (length kept) /\ rec_count r <= MAX_MULTI_AGENT_EVENTS_PER_RUN /\
  rec_bytes r = sumZ (payload_size isoformat <$> kept) /\ rec_bytes r <= MAX_MULTI_AGENT_EVENT_PAYLOAD_BYTES /\
  (Forall (fun e => stores e = true) es -> Z.of_nat (length es) <= MAX_MULTI_AGENT_EVENTS_PER_RUN ->
   sumZ (payload_size isoformat <$> es) <= MAX_MULTI_AGENT_EVENT_PAYLOAD_BYTES -> kept = es).
Proof.
  split; [intros; by rewrite recorder_step|].
  induction es as [|e es IH] using rev_ind; [by cbn; split_and!|].
  unfold record_all in *. rewrite foldl_snoc, recorder_step.
  destruct (foldl _ _ es) as [r kept]. destruct IH as (Hsub & Hcount & Hcap & Hbytes & Hmax & Hall). cbn [fst snd].
  assert (Hsize : forall e, 0 <= payload_size isoformat e) by (intros; unfold payload_size, slen; lia).
  assert (Hall' : Forall (fun e => stores e = true) (es ++ [e]) ->
     Z.of_nat (length (es ++ [e])) <= MAX_MULTI_AGENT_EVENTS_PER_RUN ->
     sumZ (payload_size isoformat <$> es ++ [e]) <= MAX_MULTI_AGENT_EVENT_PAYLOAD_BYTES ->
     kept = es /\ stores e = true /\ Z.of_nat (length es) < MAX_MULTI_AGENT_EVENTS_PER_RUN /\
     sumZ (payload_size isoformat <$> es) + payload_size isoformat e <= MAX_MULTI_AGENT_EVENT_PAYLOAD_BYTES).
  { rewrite Forall_app, length_app, fmap_app, sumZ_app, Forall_singleton. cbn. intros [Hst He] Hn Hb.
    pose proof (Hsize e). split; [apply Hall; [done|lia|lia]|]. split; [done|]. lia. }
  destruct (_ || _) eqn:E; cbn beta iota.
  - split; [by apply sublist_inserts_r|]. do 4 (split; [done|]). intros Hst Hn Hb.
    destruct (Hall' Hst Hn Hb) as (-> & He & Hlt & Hle). rewrite He in E. bools. exfalso. clear Hall Hall'.
    destruct E as [E|E]; bools; [|done]. destruct E as [E|E]; bools; lia.
  - bools. rewrite length_app, fmap_app, sumZ_app. cbn. split; [by apply sublist_app|].
    split; [lia|]. split; [lia|]. split; [lia|]. split; [lia|]. intros Hst Hn Hb. by destruct (Hall' Hst Hn Hb) as [-> _].
Qed.
End Recorder.

(** ** The supervisor's reading of a plan *)

Definition task_json (t : Subtask) : json :=
  JObj ([(u "id", JStr (task_id t)); (u "description", JStr (description t));
         (u "agent_role", JStr (AgentRole.value (agent_role t)));
         (u "depends_on", JArr (JStr <$> depends_on t)); (u "input_template", JStr (input_template t));
         (u "priority", JInt (priority t))] ++
        match agent_id t with Some a => [(u "agent_id", JStr a)] | None => [] end).
Definition plan_json (d : SupervisorDecision) : json :=
  JObj [(u "reasoning", JStr (sd_reasoning d)); (u "subtasks", JArr (task_json <$> sd_subtasks d))].

Lemma task_json_wf t : json_wf (task_json t) /\ float_free (task_json t) = true.
Proof.
  assert (Hdeps : Forall json_wf (JStr <$> depends_on t)) by (apply Forall_fmap, Forall_true; constructor).
  assert (Hfree : forallb float_free (JStr <$> depends_on t) = true).
  { apply forallb_forall. intros x (y & -> & _)%list_elem_of_In%list_elem_of_fmap. done. }
  unfold task_json. destruct (agent_id t); split.
  1,3: constructor; [apply (bool_decide_unpack _); by vm_compute|repeat constructor; done].
  all: cbn [float_free app forallb snd]; by rewrite Hfree.
Qed.

Lemma plan_json_wf d : json_wf (plan_json d) /\ float_free (plan_json d) = true.
Proof.
  assert (Hwf : Forall json_wf (task_json <$> sd_subtasks d)).
  { apply Forall_fmap, Forall_true. intros t. apply task_json_wf. }
  assert (Hfree : forallb float_free (task_json <$> sd_subtasks d) = true).
  { apply forallb_forall. intros x (y & -> & _)%list_elem_of_In%list_elem_of_fmap. apply task_json_wf. }
  unfold plan_json. split; [constructor; [apply (bool_decide_unpack _); by vm_compute|repeat constructor; done]|].
  cbn [float_free forallb snd]. by rewrite Hfree.
Qed.

Lemma role_of_value r : AgentRole.of_str (AgentRole.value r) = Some r.
Proof. by destruct r; vm_compute. Qed.

Lemma tuple_of_texts l : tuple_of (JArr (JStr <$> l)) = Ok l.
Proof.
  unfold tuple_of. enough (H : forall acc, foldE (fun acc x => (fun s => acc ++ [s]) <$> as_text x) acc (JStr <$> l)
    = Ok (acc ++ l)) by apply (H []).
  induction l as [|s l IH]; intros acc; cbn; [by rewrite app_nil_r|].
  rewrite IH. by rewrite <- app_assoc.
Qed.

Lemma parse_task_json n t : parse_subtask n (task_json t) = Ok t.
Proof.
  destruct t as [i descr role agent deps template prio]. unfold task_json, parse_subtask.
  cbn [task_id description agent_role agent_id depends_on input_template priority].
  set (d := _ ++ _).
  assert (Hget : forall k v, dict_get k d = Some v -> forall dflt, get_or d k dflt = v)
    by (intros k v Hk dflt; unfold get_or; by rewrite Hk).
  assert (Hd : dict_get (u "id") d = Some (JStr i) /\ dict_get (u "description") d = Some (JStr descr) /\
    dict_get (u "agent_role") d = Some (JStr (AgentRole.value role)) /\
    dict_get (u "depends_on") d = Some (JArr (JStr <$> deps)) /\
    dict_get (u "input_template") d = Some (JStr template) /\ dict_get (u "priority") d = Some (JInt prio) /\
    dict_get (u "agent_id") d = (JStr <$> agent)).
  { subst d. destruct agent; split_and!; reflexivity. }
  clearbody d. destruct Hd as (H1 & H2 & H3 & H4 & H5 & H6 & H7).
  rewrite (Hget _ _ H1), (Hget _ _ H2), (Hget _ _ H3), (Hget _ _ H4), (Hget _ _ H5), (Hget _ _ H6), H7.
  rewrite tuple_of_texts, role_of_value. by destruct agent.
Qed.

Lemma parse_tasks_json tasks : foldE (fun acc item => (fun t => acc ++ [t]) <$> parse_subtask (length acc) item) []
  (task_json <$> tasks) = Ok tasks.
Proof.
  enough (H : forall acc, foldE (fun acc item => (fun t => acc ++ [t]) <$> parse_subtask (length acc) item) acc
    (task_json <$> tasks) = Ok (acc ++ tasks)) by apply (H []).
  induction tasks as [|t tasks IH]; intros acc; [by rewrite app_nil_r|].
  cbn [fmap list_fmap foldE]. rewrite parse_task_json. cbn [fmap result_fmap]. rewrite IH. by rewrite <- app_assoc.
Qed.

(** A text without the separator, followed by a line end that the separator does
    not contain. *)
Lemma starts_with_line sep a t : 10%N ∉ sep -> starts_with sep (a ++ 10%N :: t) = starts_with sep a.
Proof.
  revert a. induction sep as [|c sep IH]; intros a Hn; [by destruct a|].
  apply not_elem_of_cons in Hn as [Hc Hn]. destruct a as [|d a]; cbn [app starts_with].
  - replace (c =? 10)%N with false by (symmetry; apply N.eqb_neq; congruence). done.
  - by rewrite IH.
Qed.

Lemma cut_line sep a t : 10%N ∉ sep -> cut sep a = None ->
  cut sep (a ++ 10%N :: t) = (fun p => (a ++ 10%N :: p.1, p.2)) <$> cut sep t.
Proof.
  intros Hn. induction a as [|c a IH]; intros Ha.
  - cbn [cut] in Ha. destruct (starts_with sep []) eqn:Es; [done|].
    cbn [app cut]. rewrite <- (starts_with_line sep [] t Hn) in Es. cbn [app] in Es. by rewrite Es.
  - cbn [cut] in Ha. destruct (starts_with sep (c :: a)) eqn:Es; [done|].
    destruct (cut sep a); [done|]. cbn [app cut]. rewrite <- (starts_with_line sep _ t Hn) in Es.
    cbn [app] in Es. rewrite Es, IH by done. by destruct (cut sep t).
Qed.

Lemma no_line_ticks : 10%N ∉ ticks /\ 10%N ∉ json_ticks.
Proof. split; apply (bool_decide_unpack _); by vm_compute. Qed.

Lemma cut_none_longer a : cut ticks a = None -> cut json_ticks a = None.
Proof.
  assert (Hp : forall s, starts_with json_ticks s = true -> starts_with ticks s = true).
  { intros s (t & ->)%starts_with_true. change json_ticks with (ticks ++ u "json").
    rewrite <- app_assoc. apply starts_with_app. }
  induction a as [|c a IH]; intros Ha; cbn [cut] in *.
  - done.
  - destruct (starts_with ticks (c :: a)) eqn:Es; [done|].
    destruct (starts_with json_ticks (c :: a)) eqn:Ej; [apply Hp in Ej; congruence|].
    destruct (cut ticks a); [done|]. by rewrite IH.
Qed.

Lemma cut_here sep s : sep <> [] -> cut sep (sep ++ s) = Some ([], s).
Proof.
  intros Hs. destruct sep as [|c sep]; [done|]. set (sp := c :: sep).
  change ((if starts_with sp (sp ++ s) then Some ([], drop (length sp) (sp ++ s))
           else (fun p => (c :: p.1, p.2)) <$> cut sp (sep ++ s)) = Some ([], s)).
  by rewrite starts_with_app, drop_app_length.
Qed.

Lemma strip_braces a b t : is_space a = false -> is_space b = false ->
  strip (10%N :: (a :: t ++ [b]) ++ [10%N]) = a :: t ++ [b] /\ strip (a :: t ++ [b]) = a :: t ++ [b].
Proof.
  intros Ha Hb. unfold strip. cbn [lstrip app]. change (is_space 10) with true. cbv iota. rewrite Ha.
  change (a :: (t ++ [b]) ++ [10%N]) with ((a :: t ++ [b]) ++ [10%N]). rewrite rev_app_distr.
  change (a :: t ++ [b]) with ((a :: t) ++ [b]). rewrite rev_app_distr. cbn [rev app lstrip].
  change (is_space 10) with true. cbv iota. rewrite Hb.
  change (b :: rev t ++ [a]) with ([b] ++ rev (a :: t)). by rewrite rev_app_distr, rev_involutive.
Qed.

Lemma plan_text d : exists t, dump_json_plain (plan_json d) = 123%N :: t ++ [125%N].
Proof.
  unfold plan_json. cbn [dump_json_plain]. change (u "{") with [123%N]. change (u "}") with [125%N]. by eexists.
Qed.


(** ** A run of two tasks *)

Definition demo_plan : SupervisorDecision :=
  mkSupervisorDecision
    [mkSubtask (u "t1") (u "find facts") AgentRole.RESEARCH None [] [] 0;
     mkSubtask (u "t2") (u "write it") AgentRole.WRITER (Some (u "agent-7")) [u "t1"] [] 1]
    (u "first look, then write") JNull.
Definition demo_reply : pystr := dump_json_plain (plan_json demo_plan).


(** A canvas is not an error of the reply: text that is no JSON becomes one task. *)
Example supervisor_fallback :
  _parse_decision id (u "just do it") 5 =
  Ok (mkSupervisorDecision [mkSubtask (u "task_1") (u "just do it") AgentRole.WRITER None [] [] 0]
        (u "Failed to parse supervisor response: just do it") JNull).
Proof. vm_compute. reflexivity. Qed.

Definition demo_chat (r : ChatRequest) (w : unit) : option ChatResponse * unit :=
  (Some (mkChatResponse demo_reply None None), w).
Definition demo_clock : task_clock := mkTaskClock (fun _ => 7) 3 [].
Definition demo_emitted (_ : dag_state) (_ : unit) : list MultiAgentEvent :=
  sd_subtasks demo_plan ≫= fun t =>
    task_events ascii_alnum demo_format [] (u "run-1") (u "supervisor") ChatBackend demo_config
      (mkSharedContext (u "hi") []) t demo_world demo_clock.
Definition keep : observer (list MultiAgentEvent) := fun e w => (Ok tt, w ++ [e]).
Definition demo_service_run :=
  run ascii_alnum demo_env ChatBackend demo_format [] str_of_Z id no_repr (u "prompt") demo_chat (fun _ w => (None, w))
    [keep] demo_emitted id (fun _ => 9) (fun _ _ => Some 3) (u "run-1") (u "hi") demo_config None None None 5 tt [].
Definition demo_answer := Eval vm_compute in demo_service_run.
Lemma demo_answers : demo_service_run = demo_answer.
Proof. vm_compute. reflexivity. Qed.

Lemma demo_emitted_ok dag w :
  Forall (from_subtasks ascii_alnum ChatBackend demo_format [] (u "run-1") (source_of None)) (demo_emitted dag w).
Proof.
  apply Forall_forall. intros e (t & He & Ht)%list_elem_of_bind. left. by repeat eexists.
Qed.

Lemma ascii_space c : is_space c = true -> ascii_alnum c = false.
Proof.
  unfold is_space, ascii_alnum, is_letter, is_upper, is_lower, is_digit. intros H.
  repeat (apply orb_false_iff; split); apply andb_false_iff; rewrite !N.leb_gt;
  repeat (apply orb_true_iff in H as [H|H]); try (apply andb_true_iff in H as [H1%N.leb_le H2%N.leb_le]);
  try apply N.eqb_eq in H; lia.
Qed.


