(* ===== verification/AgentApiProps.v ===== *)
(** * Properties of the public form of agent runs

    Nothing of a tool's arguments or output reaches the stream except what is
    meant to; every reference shown is bounded and sanitised; and when an event
    cannot be shown at all. *)

From Corelib Require Import SpecFloat.
From S2P Require Import Prelude Json JsonLoads AgentRuntime Redaction MultiAgentEvents Runs AgentService AgentApi.
Local Open Scope Z_scope.
#[local] Opaque u.

Section Props.
Context (is_alnum : N -> bool).
Abbreviation stream_event := (_to_stream_event is_alnum).

(** ** Retrieved references *)

Lemma build_ok {A} (valid : A -> bool) a b : build valid a = Ok b <-> b = a /\ valid a = true.
Proof. unfold build. destruct (valid a); naive_solver. Qed.

Lemma some_build {A} (valid : A -> bool) a b : Some <$> build valid a = Ok (Some b) -> b = a /\ valid a = true.
Proof. unfold build. destruct (valid a); cbn; [by intros [= <-]|discriminate]. Qed.

Lemma identifier_bounded d k s : _bounded_identifier d k = Some (Some s) ->
  s <> [] /\ slen s <= _MAX_RAG_IDENTIFIER_CHARS.
Proof.
  unfold _bounded_identifier. destruct (dict_get k d) as [[]|]; try done.
  destruct (_ || _) eqn:E; [done|]. intros [= <-]. bools. by split.
Qed.

Lemma chunk_index_bounded d z : _bounded_chunk_index d = Some (Some z) -> 0 <= z <= _MAX_CHUNK_INDEX.
Proof.
  unfold _bounded_chunk_index. destruct (dict_get _ d) as [[]|]; try done.
  destruct (_ || _) eqn:E; [done|]. intros [= <-]. bools. lia.
Qed.

Lemma distance_bounded d x : _bounded_distance d = Ok (Some (Some x)) ->
  isfinite x = true /\ num_lt (JFloat x) (JInt 0) = false /\ num_lt (JInt _MAX_DISTANCE) (JFloat x) = false.
Proof.
  unfold _bounded_distance. destruct (dict_get _ d) as [[]|]; try done; intros (y & _ & Hy)%bind_ok;
  destruct (_ || _) eqn:E; try done; injection Hy as <-; by bools.
Qed.

(** A reference that may be shown. *)
Record safe_reference (r : AgentRAGReferenceSummary) : Prop := {
  sf_identified : rf_document_id r <> None \/ rf_chunk_id r <> None;
  sf_ids : forall s, rf_document_id r = Some s \/ rf_chunk_id r = Some s -> s <> [] /\ slen s <= 256;
  sf_index : forall z, rf_chunk_index r = Some z -> 0 <= z <= 1000000;
  sf_distance : forall x, rf_distance r = Some x ->
    isfinite x = true /\ num_lt (JFloat x) (JInt 0) = false /\ num_lt (JInt 2) (JFloat x) = false;
  sf_content : forall s, rf_content r = Some s -> exists raw,
    s = sanitize_public_text is_alnum raw /\ slen s <= 1200 /\ (rf_truncated r = false -> s = raw)
}.

Lemma field_some {A} (o : option (option A)) a : field o = Some a -> o = Some (Some a).
Proof. by destruct o as [[]|]; simpl; intros; simplify_eq. Qed.

Lemma at_most_some n o : (forall s, o = Some s -> slen s <= n) -> at_most n o = true.
Proof. destruct o; cbn; [|done]. intros H. apply Z.leb_le. by apply H. Qed.

(** The schema of a reference is met by what the projection builds. *)
Lemma reference_built d dist (content : option (pystr * bool)) (flag : bool) :
  _bounded_distance d = Ok dist ->
  let document_id := field (_bounded_identifier d (u "document_id")) in
  let chunk_id := field (_bounded_identifier d (u "chunk_id")) in
  bool_decide (document_id = None) && bool_decide (chunk_id = None) = false ->
  (forall s, fst <$> content = Some s -> exists raw, s = sanitize_public_text is_alnum raw /\
     (match content with Some (_, changed) => changed | None => false end || flag = false -> s = raw)) ->
  exists r, Some <$> build valid_reference
      (mkReference document_id chunk_id (field (_bounded_chunk_index d)) (fst <$> content) (field dist)
         (match content with Some (_, changed) => changed | None => false end || flag)) = Ok (Some r) /\
    safe_reference r.
Proof.
  intros Hdist document_id chunk_id Hid Hc.
  assert (Hids : forall s, document_id = Some s \/ chunk_id = Some s -> s <> [] /\ slen s <= 256).
  { intros s [H|H]; apply field_some in H; by apply identifier_bounded in H. }
  assert (Hindex : forall z, field (_bounded_chunk_index d) = Some z -> 0 <= z <= 1000000).
  { intros z H. apply field_some in H. by apply chunk_index_bounded in H. }
  assert (Hd : forall x, field dist = Some x ->
    isfinite x = true /\ num_lt (JFloat x) (JInt 0) = false /\ num_lt (JInt 2) (JFloat x) = false).
  { intros x H. apply field_some in H as ->. by apply distance_bounded in Hdist. }
  assert (Hcontent : forall s, fst <$> content = Some s -> slen s <= 1200).
  { intros s Hs. destruct (Hc s Hs) as (raw & -> & _). apply sanitize_length. }
  set (r := mkReference _ _ _ _ _ _). exists r. split.
  - assert (Hv : valid_reference r = true); [|unfold build; by rewrite Hv].
    unfold valid_reference. subst r. cbn [rf_document_id rf_chunk_id rf_chunk_index rf_distance rf_content].
    rewrite !andb_true_iff. split_and!.
    + apply at_most_some. naive_solver.
    + apply at_most_some. naive_solver.
    + destruct (field (_bounded_chunk_index d)) as [z|]; cbn; [|done]. rewrite andb_true_iff, !Z.leb_le. naive_solver.
    + by apply at_most_some.
    + destruct (field dist) as [x|]; cbn [float_in]; [|done]. destruct (Hd x eq_refl) as (Hf & -> & ->). by destruct x.
  - constructor; subst r; cbn [rf_document_id rf_chunk_id rf_chunk_index rf_distance rf_content rf_truncated]; try done.
    + apply andb_false_iff in Hid as [H|H]; apply bool_decide_eq_false in H; auto.
    + intros s Hs. destruct (Hc s Hs) as (raw & -> & Heq). exists raw. split; [done|]. split; [apply sanitize_length|done].
Qed.

Lemma float_value_error v e : float_value v = Err e -> e = OverflowError.
Proof. destruct v; cbn; try done. by destruct (match z with Z0 => _ | _ => _ end); intros [= <-]. Qed.

Definition good_reference (x : result api_error (option AgentRAGReferenceSummary)) : Prop :=
  match x with Ok (Some r) => safe_reference r | Ok None => True | Err e => e = OverflowError end.

Lemma reference_good d : good_reference (_to_rag_reference_summary is_alnum d).
Proof.
  unfold _to_rag_reference_summary. cbv zeta. destruct (refused _); [done|]. destruct (refused _); [done|].
  destruct (refused _); [done|]. destruct (_bounded_distance d) as [dist|e] eqn:Hdist; cbn [mbind result_bind].
  2:{ unfold _bounded_distance in Hdist. destruct (dict_get _ d) as [[]|]; try done;
      destruct (float_value _) as [x|e'] eqn:Ef; try done; injection Hdist as <-; by apply float_value_error in Ef. }
  destruct (refused dist); [done|].
  pose proof (fun content flag => reference_built d dist content flag Hdist) as Hbody. cbv zeta in Hbody.
  destruct (match dict_get (u "content") d with Some JNull => None | v => v end) as [c|] eqn:Ec;
  destruct (match dict_get (u "truncated") d with Some JNull => None | v => v end) as [t|] eqn:Et.
  1,2: destruct c as [| | | |s| |]; try done.
  1,3: destruct t; try done.
  all: destruct (bool_decide (field (_bounded_identifier d (u "document_id")) = None) &&
      bool_decide (field (_bounded_identifier d (u "chunk_id")) = None)) eqn:Hid; [done|].
  all: match goal with |- good_reference ?g => match g with context [mkReference _ _ _ _ _ (_ || ?flag)] =>
      first
        [ destruct (Hbody None flag eq_refl ltac:(intros x Hx; discriminate Hx)) as (r & Hr & Hs);
          change (g = Ok (Some r)) in Hr; rewrite Hr; exact Hs
        | edestruct (Hbody (Some (sanitize_public_rag_content is_alnum s)) flag eq_refl) as (r & Hr & Hs);
          [intros x [= <-]; exists s; (split; [done|]); intros [Hch _]%orb_false_iff; apply unchanged_flag;
           by destruct (sanitize_public_rag_content is_alnum s)
          |change (g = Ok (Some r)) in Hr; rewrite Hr; exact Hs]]
      end end.
Qed.

Lemma summaries_good l : match reference_summaries is_alnum l with
  | Ok rs => Forall safe_reference rs /\ (length rs <= length l)%nat | Err e => e = OverflowError end.
Proof.
  induction l as [|v l IH]; cbn [reference_summaries]; [split; [constructor|done]|].
  destruct v as [| | | | | |d]; try (destruct (reference_summaries is_alnum l); [cbn; split; [apply IH|destruct IH; lia]|done]).
  pose proof (reference_good d) as Hd. destruct (_to_rag_reference_summary is_alnum d) as [r|e]; cbn [mbind result_bind]; [|done].
  destruct (reference_summaries is_alnum l) as [rs|e]; cbn [mbind result_bind]; [|done]. destruct IH as [IH Hlen].
  destruct r as [r|]; cbn; split; try lia; [by constructor|done].
Qed.

(** What [knowledge_search] returned reaches a client only as safe
    references: whatever the text, its summary carries the warning, every
    reference in it names its source with 1 to 256 characters, has a finite
    distance between 0 and 2 and an index up to a million, and its content is the
    redacted text of at most 1200 characters, the flag saying whether it was
    changed; there are references exactly when the status says so; and the
    summary is always built (only the [float] of a huge integer can overflow). *)
Theorem rag_summary_is_safe content truncated :
  match _to_rag_summary is_alnum content truncated with
  | Ok s => Forall safe_reference (rg_references s) /\ rg_warning s = Some _PUBLIC_RAG_WARNING /\
            (rg_status s = success_with_sources <-> rg_references s <> []) /\
            (truncated = true -> rg_references s = [])
  | Err e => e = OverflowError /\ truncated = false
  end.
Proof.
  assert (Hnone : forall status code, status <> success_with_sources ->
    Forall safe_reference (rg_references (rag_summary status code [])) /\
    rg_warning (rag_summary status code []) = Some _PUBLIC_RAG_WARNING /\
    (rg_status (rag_summary status code []) = success_with_sources <-> rg_references (rag_summary status code []) <> []) /\
    (truncated = true -> rg_references (rag_summary status code []) = [])).
  { intros status code Hs. unfold rag_summary. cbn [rg_references rg_warning rg_status].
    split; [constructor|]. split; [reflexivity|]. split; [|auto]. split; [intros H; destruct (Hs H)|intros H; destruct (H eq_refl)]. }
  unfold _to_rag_summary. destruct truncated; [by apply Hnone|].
  destruct (loads content) as [[| | | | | |payload]|]; try by apply Hnone.
  destruct (bool_decide _); [by apply Hnone|].
  destruct (dict_get (u "ok") payload) as [[|ok| | | | |]|]; try by apply Hnone.
  destruct (dict_get (u "results") payload) as [[| | | | |refs|]|]; try by apply Hnone.
  destruct (negb ok).
  { unfold _to_rag_error_summary. destruct (dict_get _ payload) as [[| | | |c| |]|]; try by apply Hnone.
    destruct (_RAG_ERROR_CODE_MAP c) as [code|]; apply Hnone; [by destruct code|done]. }
  pose proof (summaries_good refs) as Hr.
  destruct (dict_get (u "error_code") payload) as [[]|]; try by apply Hnone.
  all: destruct (reference_summaries is_alnum refs) as [rs|e]; cbn [mbind result_bind]; [|by split].
  all: split; [apply Hr|]; split; [done|]; split; [|done]; by destruct rs.
Qed.

(** ** The stream does not reveal the payload of a tool *)

(** A tool whose arguments and output have no summary of their own. *)
Definition opaque_tool (name : pystr) : Prop :=
  _public_tool_name name <> calculator /\ _public_tool_name name <> knowledge_search /\ name <> knowledge_search.

(** Two calls of the same tool with as many arguments; the arguments may differ
    unless the tool is the calculator. *)
Definition same_call (c c' : ToolCall) : Prop :=
  call_id c = call_id c' /\ call_name c = call_name c' /\
  length (call_arguments c) = length (call_arguments c') /\
  (_public_tool_name (call_name c) = calculator -> call_arguments c = call_arguments c').

(** Two results that differ in their text and in the message of an unknown error. *)
Definition same_result (name : option pystr) (r r' : ToolResult) : Prop :=
  res_succeeded r = res_succeeded r' /\ res_cached r = res_cached r' /\
  public_result_chars r = public_result_chars r' /\
  _public_tool_error_code (res_error r) = _public_tool_error_code (res_error r') /\
  match name with
  | Some n => opaque_tool n \/ res_content r = res_content r' /\ res_truncated r = res_truncated r'
  | None => True
  end.

Definition same_opt {A} (R : A -> A -> Prop) (o o' : option A) : Prop :=
  match o, o' with Some a, Some b => R a b | None, None => True | _, _ => False end.

(** Two events that a client must not tell apart: the message counts only for
    answers, and of a decision only whether it answers and the tools it names. *)
Record same_public (e e' : AgentEvent) : Prop := {
  se_kind : ev_kind e = ev_kind e';
  se_run : ev_run_id e = ev_run_id e' /\ ev_sequence e = ev_sequence e' /\ ev_occurred_at e = ev_occurred_at e' /\
    ev_step_index e = ev_step_index e' /\ ev_status e = ev_status e' /\ ev_stop_reason e = ev_stop_reason e' /\
    ev_cumulative_token_usage e = ev_cumulative_token_usage e';
  se_message : ev_kind e = AgentEventKind.ANSWER \/ ev_kind e = AgentEventKind.ANSWER_DELTA -> ev_message e = ev_message e';
  se_decision : same_opt (fun d d' => (answer d = None <-> answer d' = None) /\
    (call_name <$> tool_calls d) = (call_name <$> tool_calls d')) (ev_decision e) (ev_decision e');
  se_call : same_opt same_call (ev_tool_call e) (ev_tool_call e');
  se_result : same_opt (same_result (call_name <$> ev_tool_call e)) (ev_tool_result e) (ev_tool_result e')
}.

Lemma same_input c c' : same_call c c' -> _public_tool_input_summary is_alnum c = _public_tool_input_summary is_alnum c'.
Proof.
  intros (_ & Hn & Hlen & Hargs). unfold _public_tool_input_summary. rewrite <- Hn, <- Hlen. cbv zeta.
  destruct (decide (_public_tool_name (call_name c) = calculator)) as [E|]; [by rewrite (Hargs E)|done].
Qed.

Lemma same_output c c' r r' rag : same_call c c' -> same_result (Some (call_name c)) r r' ->
  _public_tool_output_summary is_alnum c r rag = _public_tool_output_summary is_alnum c' r' rag.
Proof.
  intros (_ & Hn & _) (Hs & _ & _ & _ & Hr). unfold _public_tool_output_summary. rewrite <- Hn, <- Hs. cbv zeta.
  destruct (negb _); [done|]. destruct (decide _) as [E|]; [|done].
  destruct Hr as [(Ho & _)|[-> _]]; [done|done].
Qed.

Lemma same_details d d' : same_opt (fun d d' => (answer d = None <-> answer d' = None) /\
    (call_name <$> tool_calls d) = (call_name <$> tool_calls d')) d d' ->
  _public_decision_details d = _public_decision_details d'.
Proof.
  destruct d as [d|], d' as [d'|]; try done. cbn [same_opt]. intros [Ha Hc]. unfold _public_decision_details.
  assert (Hnames : (fun c => _public_tool_name (call_name c)) <$> tool_calls d =
                   (fun c => _public_tool_name (call_name c)) <$> tool_calls d').
  { pose proof (f_equal (fmap _public_tool_name) Hc) as H. rewrite <- !list_fmap_compose in H. exact H. }
  destruct (answer d), (answer d'); try done; try naive_solver.
  destruct (tool_calls d) as [|c cs], (tool_calls d') as [|c' cs']; try done. cbv zeta. by rewrite Hnames.
Qed.

(** The stream hides what tools are given and what they return: two events
    that differ in the query of a knowledge search, in the arguments (not their
    number) of any tool but the calculator, in the output (not its bounded
    length) of any tool but the calculator and the knowledge search, in the
    provider's error texts or in the model's private messages, are shown as the
    same event. *)
Theorem stream_hides_payloads e e' request_id thread_id : same_public e e' ->
  stream_event e request_id thread_id = stream_event e' request_id thread_id.
Proof.
  intros [Hk (Hr & Hs & Ho & Hst & Hstat & Hreason & Husage) Hm Hd Hc Hres].
  assert (Hname : call_name <$> ev_tool_call e = call_name <$> ev_tool_call e').
  { destruct (ev_tool_call e), (ev_tool_call e'); cbn in Hc; try done. cbn. by destruct Hc as (_ & -> & _). }
  assert (Hsearch : is_search (ev_tool_call e) = is_search (ev_tool_call e')).
  { destruct (ev_tool_call e), (ev_tool_call e'); cbn in Hname; try done.
    injection Hname as Hn. cbn [is_search]. by rewrite Hn. }
  assert (Hsaid : forall k, k = AgentEventKind.ANSWER \/ k = AgentEventKind.ANSWER_DELTA ->
    (if is_kind k (ev_kind e) then sanitize_public_text is_alnum <$> ev_message e else None) =
    (if is_kind k (ev_kind e') then sanitize_public_text is_alnum <$> ev_message e' else None)).
  { intros k Hk'. rewrite <- Hk. unfold is_kind. case_bool_decide; [|done]. rewrite Hm; [done|]. naive_solver. }
  unfold _to_stream_event, stream_name. cbv zeta.
  rewrite <- Hsearch, <- Hk, <- Hr, <- Hs, <- Ho, <- Hst, <- Hstat, <- Hreason, <- Husage, (same_details _ _ Hd).
  rewrite !Hk, <- !Hsaid by auto. rewrite <- !Hk.
  assert (Hrag : forall r r', ev_tool_result e = Some r -> ev_tool_result e' = Some r' -> is_search (ev_tool_call e) = true ->
    _to_rag_summary is_alnum (res_content r) (res_truncated r) = _to_rag_summary is_alnum (res_content r') (res_truncated r')).
  { intros r r' E E' Hse. rewrite E, E' in Hres. destruct (ev_tool_call e) as [c|]; [|done]. cbn in Hse, Hres.
    apply bool_decide_eq_true in Hse. destruct Hres as (_ & _ & _ & _ & [(_ & _ & Hn)|[-> ->]]); [destruct (Hn Hse)|reflexivity]. }
  destruct (ev_tool_result e) as [r|] eqn:Er, (ev_tool_result e') as [r'|] eqn:Er'; cbn [same_opt] in Hres; try done.
  - pose proof Hres as (Hsucc & Hcache & Hchars & Herr & _). cbn [fmap option_fmap option_map].
    rewrite <- Hsucc, <- Hcache, <- Hchars, <- Herr.
    destruct (ev_tool_call e) as [c|] eqn:Ec, (ev_tool_call e') as [c'|] eqn:Ec'; cbn [same_opt] in Hc; try done.
    pose proof (same_input c c' Hc) as Hin. pose proof (fun rag => same_output c c' r r' rag Hc Hres) as Hout.
    destruct Hc as (Hid & Hcn & Hlen & _).
    destruct (is_search (Some c)) eqn:Ese; [rewrite <- (Hrag r r' eq_refl eq_refl eq_refl)|];
      cbn [fmap option_fmap option_map]; rewrite <- Hid, <- Hcn, <- Hlen, <- Hin.
    all: match goal with |- ?x ≫= _ = _ => destruct x as [rag|err]; cbn [mbind result_bind]; [|reflexivity] end;
    by rewrite Hout.
  - cbn [fmap option_fmap option_map].
    destruct (ev_tool_call e) as [c|] eqn:Ec, (ev_tool_call e') as [c'|] eqn:Ec'; cbn [same_opt] in Hc; try done.
    pose proof (same_input c c' Hc) as Hin. destruct Hc as (Hid & Hcn & Hlen & _).
    cbn [fmap option_fmap option_map]. by rewrite <- Hid, <- Hcn, <- Hlen, <- Hin.
Qed.

(** ** When an event cannot be shown *)

Lemma slen_app_N a b : slen (a ++ b) = slen a + slen b.
Proof. unfold slen. rewrite length_app. lia. Qed.

Lemma digits_go_length fuel n acc : (length (digits_go fuel n acc) <= fuel + length acc)%nat.
Proof.
  revert n acc. induction fuel as [|f IH]; intros n acc; cbn [digits_go]; [done|].
  cbv zeta. destruct (_ <? _)%N; [cbn; lia|]. etransitivity; [apply IH|]. cbn. lia.
Qed.

Lemma str_of_nat_length (n : nat) (k : Z) : 0 <= k -> Z.of_nat n < 2 ^ k -> slen (str_of_Z (Z.of_nat n)) <= k + 1.
Proof.
  intros Hk Hn. unfold str_of_Z. destruct (_ <? 0) eqn:E; bools; [lia|]. rewrite <- nat_N_Z, N2Z.id. unfold str_of_N, slen.
  pose proof (digits_go_length (S (N.to_nat (N.log2 (N.of_nat n)))) (N.of_nat n) []) as H. cbn [length] in H.
  assert (Hlog : (N.log2 (N.of_nat n) <= Z.to_N k)%N); [|lia].
  destruct (decide (n = 0%nat)) as [->|Hne]; [change (N.log2 (N.of_nat 0)) with 0%N; lia|].
  apply N.lt_le_incl, N.log2_lt_pow2; [lia|]. apply N2Z.inj_lt.
  rewrite N2Z.inj_pow, Z2N.id, nat_N_Z by done. exact Hn.
Qed.

Lemma public_name_length n : slen (_public_tool_name n) <= 128.
Proof.
  unfold _public_tool_name. pose proof (sprefix_length 128 (name_char <$> strip n)) as H.
  destruct (sprefix _ _); [by vm_compute|]. lia.
Qed.

Lemma trace_summary_length v prefix : slen prefix <= 200 -> slen (_bounded_trace_summary is_alnum v prefix) <= 256.
Proof.
  intros Hp. unfold _bounded_trace_summary, _MAX_TRACE_SUMMARY_CHARS. cbv zeta. rewrite slen_app_N.
  set (s := one_line _). assert (Hmax : Z.max (256 - slen prefix) 1 = 256 - slen prefix) by lia. rewrite Hmax.
  destruct (_ <? slen s) eqn:E; bools; [|lia]. rewrite slen_app_N.
  assert (Hm : slen (u "...[truncated]") = 14) by by vm_compute. rewrite Hm.
  pose proof (sprefix_length (Z.max (256 - slen prefix - 14) 1) s). lia.
Qed.

Lemma expression_summary_length c : slen (match dict_get (u "expression") (call_arguments c) with
    | Some (JStr e) => if bool_decide (strip e = []) then u "expression: invalid or missing"
                       else _bounded_trace_summary is_alnum e (u "expression: ")
    | _ => u "expression: invalid or missing"
    end) <= 256.
Proof.
  assert (Hbad : slen (u "expression: invalid or missing") <= 256) by by vm_compute.
  destruct (dict_get _ _) as [[| | | |s| |]|]; try done. destruct (bool_decide _); [done|].
  apply trace_summary_length. by vm_compute.
Qed.
Lemma parameters_summary_length c : (length (call_arguments c) <= 128)%nat ->
  slen (u "parameters: " ++ str_of_Z (Z.of_nat (length (call_arguments c)))) <= 256.
Proof.
  intros Hn. rewrite slen_app_N. assert (Hm : slen (u "parameters: ") = 12) by by vm_compute. rewrite Hm.
  pose proof (str_of_nat_length (length (call_arguments c)) 8 ltac:(lia) ltac:(lia)). lia.
Qed.

Lemma input_summary_length c : (length (call_arguments c) <= 128)%nat ->
  slen (_public_tool_input_summary is_alnum c) <= 256.
Proof.
  intros Hn. unfold _public_tool_input_summary. cbv zeta. generalize (_public_tool_name (call_name c)). intros name.
  destruct (decide (name = calculator)) as [_|_]; [apply expression_summary_length|].
  destruct (decide (name = knowledge_search)) as [_|_]; [by vm_compute|by apply parameters_summary_length].
Qed.

Lemma output_summary_length c r rag : (forall s, rag = Some s -> Z.of_nat (length (rg_references s)) < 2 ^ 200) ->
  at_most 256 (_public_tool_output_summary is_alnum c r rag) = true.
Proof.
  intros Hrefs. apply at_most_some. intros s. unfold _public_tool_output_summary. destruct (negb _); [done|]. cbv zeta.
  destruct (decide _); [intros [= <-]; apply trace_summary_length; by vm_compute|].
  destruct (decide _); [|done]. destruct rag as [g|]; [|intros [= <-]; by vm_compute].
  destruct (rg_status g); intros [= <-]; try by vm_compute.
  specialize (Hrefs g eq_refl). rewrite !slen_app_N.
  assert (H1 : slen (u "retrieved ") = 10) by by vm_compute.
  assert (H2 : slen (u " safe reference(s)") = 18) by by vm_compute. rewrite H1, H2.
  pose proof (str_of_nat_length (length (rg_references g)) 200 ltac:(lia) Hrefs). lia.
Qed.

Lemma details_bounded d : (length (tool_calls d) <= 1)%nat ->
  let '(_, names, count, summary) := _public_decision_details (Some d) in
  Z.of_nat (length names) <= 32 /\ 0 <= count <= 32 /\ slen summary <= 256.
Proof.
  intros Hn. unfold _public_decision_details. destruct (answer d); [split; [done|]; split; [done|]; by vm_compute|].
  destruct (tool_calls d) as [|c [|]]; cbn [length] in Hn; try lia; [split; [done|]; split; [done|]; by vm_compute|].
  cbn [fmap list_fmap length]. split; [done|]. split; [lia|]. cbn [sjoin]. rewrite !slen_app_N.
  assert (H1 : slen (u "Planned ") + (slen (str_of_Z (Z.of_nat 1)) + (slen (u " tool call(s): ") + slen (u "."))) = 25)
    by by vm_compute. pose proof (public_name_length (call_name c)). lia.
Qed.

End Props.

(** ** Witnesses *)

Definition demo_event (kind : AgentEventKind.t) (c : option ToolCall) (r : option ToolResult) (m : option pystr) : AgentEvent :=
  mkAgentEvent kind (u "run-1") 3 1700000000000000 (Some 1) m None c r None None None.

Definition search_for (q : string) : ToolCall := mkToolCall (u "c1") (u "knowledge_search") [(u "query", JStr (u q))].

Lemma stream_hides_payloads_witness :
  _to_stream_event ascii_alnum (demo_event AgentEventKind.TOOL_STARTED (Some (search_for "my salary")) None (Some (u "one")))
    (u "r") None =
  _to_stream_event ascii_alnum (demo_event AgentEventKind.TOOL_STARTED (Some (search_for "the weather")) None (Some (u "two")))
    (u "r") None.
Proof.
  apply (stream_hides_payloads ascii_alnum). constructor; [reflexivity|split_and!; reflexivity| |exact I| |exact I].
  - intros [H|H]; discriminate H.
  - split_and!; [reflexivity..|]. intros H. exfalso. revert H. vm_compute. discriminate.
Defined.

(** A reply that the service accepts as a decision, with a call id of 129 characters. *)
Definition long_id : pystr := repeat 97%N 129.
Definition long_reply : pystr :=
  dump_json_plain (JObj [(u "type", JStr (u "tool_call")); (u "call_id", JStr long_id); (u "name", JStr (u "clock"))]).
Definition long_call : ToolCall := mkToolCall long_id (u "clock") [].
Definition long_event : AgentEvent := demo_event AgentEventKind.TOOL_STARTED (Some long_call) None None.

