(* ===== verification/RunRecords.v ===== *)
(** * Run history: [app/services/agent_run_record_service.py],
    [multi_agent_run_record_service.py] and [multi_agent_config_service.py]

    The stored rows of agent runs, multi-agent runs, their events and canvas
    configurations, the queries that are scoped to a tenant, and the projections
    that a user sees.  A table is the list of its rows in the order of insertion;
    [ORDER BY ... DESC] puts [NULL] first, as PostgreSQL does, and leaves rows that
    compare equal in the order of insertion.  Instants are microseconds. *)

From Corelib Require Import SpecFloat.
From S2P Require Import Prelude Json AgentRuntime MultiAgent MultiAgentEvents.
Local Open Scope Z_scope.

(** ** Queries shared by the two run tables *)

(** Larger instants and [NULL] come first. *)
Definition later (a b : option Z) : bool :=
  match a, b with
  | None, _ => true
  | Some _, None => false
  | Some x, Some y => y <=? x
  end.

Section Runs.
Context {Row : Type} (run_id : Row -> pystr) (workspace_id : Row -> option pystr) (api_key_hash : Row -> pystr)
  (started_at created_at : Row -> option Z).

(** The [WHERE] of a tenant, and the test of [get_run]. *)
Definition owned_by (scope : pystr) (r : Row) : bool :=
  bool_decide (workspace_id r = Some scope) ||
  (bool_decide (workspace_id r = None) && bool_decide (api_key_hash r = scope)).

Definition newest_first (a b : Row) : bool :=
  if bool_decide (started_at a = started_at b) then later (created_at a) (created_at b)
  else later (started_at a) (started_at b).

(** [session.merge]: the row with this key is replaced. *)
Fixpoint merge (r : Row) (table : list Row) : list Row :=
  match table with
  | [] => [r]
  | x :: table => if decide (run_id x = run_id r) then r :: table else x :: merge r table
  end.

Definition get_row (i : pystr) (table : list Row) : option Row := head (filter (fun r => run_id r = i) table).

(** [stmt.limit(limit)]; a negative limit is an error of the database. *)
Definition limited {A} (limit : Z) (l : list A) : list A := take (Z.to_nat limit) l.

Definition select_runs (limit : Z) (owner_scope : option pystr) (also : Row -> bool) (table : list Row) : list Row :=
  limited limit
    (sort_by newest_first
       (filter (fun r => (match owner_scope with Some s => owned_by s r | None => true end && also r) = true) table)).

Definition get_run (i : pystr) (owner_scope : option pystr) (table : list Row) : option Row :=
  r ← get_row i table;
  match owner_scope with
  | None => Some r
  | Some scope => if owned_by scope r then Some r else None
  end.
End Runs.

(** Looking into stored JSON *)
Definition get (key : pystr) (v : json) : option json :=
  match v with JObj d => dict_get key d | _ => None end.
Definition items_of (v : option json) : list json := match v with Some (JArr l) => l | _ => [] end.
Definition is_dict (v : json) : bool := match v with JObj _ => true | _ => false end.
(** [{key: value for key, value in d.items() if key in allowed}] *)
Definition only (allowed : list pystr) (d : list (pystr * json)) : list (pystr * json) :=
  filter (fun kv => kv.1 ∈ allowed) d.

(** ** Agent runs *)

Module AgentRecords.
Record AgentRunRecordTable := mkRow {
  run_id : pystr;
  request_id : pystr;
  api_key_hash : pystr;
  api_key_name : pystr;
  workspace_id : option pystr;
  model : pystr;
  status : pystr;
  stop_reason : pystr;
  started_at : option Z;
  completed_at : option Z;
  duration_ms : option float64;
  total_tokens : option Z;
  payload : json;
  created_at : option Z
}.

(** The parts of an [AgentRunResponse] that a row repeats, and its JSON form. *)
Record public_response := mkPublicResponse {
  pr_run_id : pystr;
  pr_status : pystr;
  pr_stop_reason : pystr;
  pr_started_at : option Z;
  pr_completed_at : option Z;
  pr_duration_ms : option float64;
  pr_total_tokens : option Z;
  pr_dump : list (pystr * json)
}.

(** [model or request.model or default] *)
Definition model_name (model request_model : option pystr) : pystr :=
  match model with
  | Some ((_ :: _) as m) => m
  | _ => match request_model with Some ((_ :: _) as m) => m | _ => u "default" end
  end.

Definition of_option (o : option pystr) : json := match o with Some s => JStr s | None => JNull end.

Definition save (now : Z) (response : public_response) (request_id : pystr) (workspace_id : option pystr)
    (api_key api_key_name : pystr) (model request_model agent_id prompt_ref : option pystr)
    (prompt_version : option Z) (table : list AgentRunRecordTable) : list AgentRunRecordTable :=
  let payload :=
    dict_set (u "prompt_version") (match prompt_version with Some z => JInt z | None => JNull end)
      (dict_set (u "prompt_ref") (of_option prompt_ref) (dict_set (u "agent_id") (of_option agent_id) (pr_dump response))) in
  let created := match get_row run_id (pr_run_id response) table with Some r => created_at r | None => Some now end in
  merge run_id
    (mkRow (pr_run_id response) request_id api_key api_key_name workspace_id (model_name model request_model)
       (pr_status response) (pr_stop_reason response) (pr_started_at response) (pr_completed_at response)
       (pr_duration_ms response) (pr_total_tokens response) (JObj payload) created) table.

Definition list_runs (limit : Z) (only_status owner_scope agent_id : option pystr) (table : list AgentRunRecordTable)
  : list AgentRunRecordTable :=
  select_runs workspace_id api_key_hash started_at created_at limit owner_scope
    (fun r => match only_status with Some s => bool_decide (status r = s) | None => true end
              && match agent_id with
                 | Some a => bool_decide (get (u "agent_id") (payload r) = Some (JStr a))
                 | None => true
                 end) table.

Definition get_run (i : pystr) (owner_scope : option pystr) (table : list AgentRunRecordTable) :=
  RunRecords.get_run run_id workspace_id api_key_hash i owner_scope table.

(** [public_run_payload]; its keys are always the same, so it is a record. *)
Record run_payload := mkPayload {
  pp_run_id : pystr;
  pp_request_id : pystr;
  pp_api_key_prefix : pystr;
  pp_api_key_name : pystr;
  pp_model : pystr;
  pp_status : pystr;
  pp_stop_reason : pystr;
  pp_started_at : option Z;
  pp_completed_at : option Z;
  pp_duration_ms : option float64;
  pp_total_tokens : option Z;
  pp_response : json
}.
Definition public_run_payload (r : AgentRunRecordTable) : run_payload :=
  mkPayload (run_id r) (request_id r) (sprefix 8 (api_key_hash r)) (api_key_name r) (model r) (status r)
    (stop_reason r) (started_at r) (completed_at r) (duration_ms r) (total_tokens r) (payload r).

(** [value or []] *)
Definition or_list (v : option json) : json :=
  match v with
  | None | Some JNull | Some (JBool false) | Some (JInt 0) | Some (JFloat (S754_zero _)) | Some (JStr [])
  | Some (JArr []) | Some (JObj []) => JArr []
  | Some v => v
  end.
(** [len(value)] and [for x in value]; [None]: [TypeError] *)
Definition py_len (v : json) : option Z :=
  match v with
  | JArr l => Some (Z.of_nat (length l))
  | JObj d => Some (Z.of_nat (length d))
  | JStr s => Some (slen s)
  | _ => None
  end.
Definition py_iter (v : json) : option (list json) :=
  match v with
  | JArr l => Some l
  | JObj d => Some ((fun kv => JStr kv.1) <$> d)
  | JStr s => Some ((fun c => JStr [c]) <$> s)
  | _ => None
  end.
Fixpoint sum_over (f : json -> option Z) (l : list json) : option Z :=
  match l with
  | [] => Some 0
  | x :: l => n ← f x; m ← sum_over f l; Some (n + m)
  end.

(** References in one tool call *)
Definition reference_count (tool : json) : Z :=
  match get (u "rag") tool with
  | Some (JObj rag) =>
      match default (JArr []) (dict_get (u "references") rag) with JArr l => Z.of_nat (length l) | _ => 0 end
  | _ => 0
  end.

Record run_summary := mkRunSummary { sm_payload : run_payload; sm_tool_count : Z; sm_rag_reference_count : Z }.

(** [public_run_summary]; [None]: [TypeError], the stored payload is no run. *)
Definition public_run_summary (p : run_payload) : option run_summary :=
  let response := if is_dict (pp_response p) then pp_response p else JObj [] in
  steps ← py_iter (default (JArr []) (get (u "steps") response));
  let calls step := or_list (get (u "tool_calls") step) in
  tool_count ← sum_over (fun step => if is_dict step then py_len (calls step) else Some 0) steps;
  rag_count ← sum_over (fun step =>
      if is_dict step then tools ← py_iter (calls step); Some (sumZ (reference_count <$> tools)) else Some 0) steps;
  Some (mkRunSummary p tool_count rag_count).

Definition _RESPONSE_ALLOWED_KEYS : list pystr :=
  [u "run_id"; u "thread_id"; u "status"; u "answer"; u "stop_reason"; u "started_at"; u "completed_at";
   u "duration_ms"; u "steps"; u "events"; u "usage"].
Definition _STEP_ALLOWED_KEYS : list pystr :=
  [u "index"; u "decision_kind"; u "tool_names"; u "tool_count"; u "summary"; u "started_at"; u "completed_at";
   u "duration_ms"; u "tool_succeeded"; u "tool_calls"].
Definition _TOOL_ALLOWED_KEYS : list pystr :=
  [u "call_id"; u "name"; u "succeeded"; u "truncated"; u "cached"; u "started_at"; u "completed_at";
   u "duration_ms"; u "argument_count"; u "input_summary"; u "output_summary"; u "result_chars"; u "error_code";
   u "error_message"; u "rag"].

Definition dicts (l : list json) : list (list (pystr * json)) :=
  omap (fun v => match v with JObj d => Some d | _ => None end) l.

Definition _project_step (step : list (pystr * json)) : list (pystr * json) :=
  let projected := only _STEP_ALLOWED_KEYS step in
  match dict_get (u "tool_calls") step with
  | Some (JArr calls) => dict_set (u "tool_calls") (JArr ((fun d => JObj (only _TOOL_ALLOWED_KEYS d)) <$> dicts calls)) projected
  | _ => projected
  end.

(** The [response] of [project_run_response]; its other fields are the payload's. *)
Definition project_run_response (p : run_payload) : list (pystr * json) :=
  match pp_response p with
  | JObj response =>
      let projected := only _RESPONSE_ALLOWED_KEYS response in
      match dict_get (u "steps") response with
      | Some (JArr steps) => dict_set (u "steps") (JArr ((fun d => JObj (_project_step d)) <$> dicts steps)) projected
      | _ => projected
      end
  | _ => []
  end.
End AgentRecords.

(** ** Multi-agent runs *)

Module MultiRecords.
Record MultiAgentRunRecordTable := mkRow {
  run_id : pystr;
  request_id : pystr;
  api_key_hash : pystr;
  api_key_name : pystr;
  workspace_id : option pystr;
  status : pystr;
  stop_reason : pystr;
  started_at : option Z;
  completed_at : option Z;
  duration_ms : option Z;
  total_tokens : option Z;
  payload : json;
  created_at : option Z
}.

Definition status_value (s : OrchestrationStatus.t) : pystr :=
  match s with
  | OrchestrationStatus.RUNNING => u "running"
  | OrchestrationStatus.COMPLETED => u "completed"
  | OrchestrationStatus.FAILED => u "failed"
  | OrchestrationStatus.CANCELLED => u "cancelled"
  | OrchestrationStatus.TIMED_OUT => u "timed_out"
  | OrchestrationStatus.BUDGET_EXCEEDED => u "budget_exceeded"
  end.

Definition _stop_reason (s : OrchestrationStatus.t) : pystr :=
  match s with
  | OrchestrationStatus.COMPLETED => u "completed"
  | OrchestrationStatus.FAILED => u "failed"
  | OrchestrationStatus.CANCELLED => u "cancelled"
  | OrchestrationStatus.TIMED_OUT => u "timed_out"
  | OrchestrationStatus.BUDGET_EXCEEDED => u "budget_exceeded"
  | OrchestrationStatus.RUNNING => u "unknown"
  end.

(** [_project_payload]; durations come from the clock. *)
Definition _project_payload (result : OrchestrationResult) (duration : Z) (task_ms : pystr -> option Z)
    (final_output : pystr) (error_code : option pystr) : json :=
  JObj [(u "status", JStr (status_value (or_status result))); (u "final_output", JStr final_output);
        (u "error_code", opt_str error_code); (u "total_token_usage", JInt (or_total_token_usage result));
        (u "duration_ms", JInt duration);
        (u "subtask_results", JArr ((fun r =>
           JObj [(u "task_id", JStr (sr_task_id r)); (u "status", JStr (task_status_value (sr_status r)));
                 (u "agent_role", JStr (AgentRole.value (sr_agent_role r))); (u "output", JStr (sr_output r));
                 (u "error_code", if decide (sr_status r = TaskStatus.FAILED) then JStr (u "subtask_failed") else JNull);
                 (u "token_usage", JInt (sr_token_usage r)); (u "duration_ms", opt_int (task_ms (sr_task_id r)))])
           <$> or_subtask_results result))].

Definition save (now : Z) (the_run : pystr) (result : OrchestrationResult) (workspace_id : option pystr)
    (api_key api_key_name request_id : pystr) (status : OrchestrationStatus.t) (final_output : pystr)
    (error_code : option pystr) (started completed : option Z) (duration : Z) (task_ms : pystr -> option Z)
    (table : list MultiAgentRunRecordTable) : list MultiAgentRunRecordTable :=
  let created := match get_row run_id the_run table with Some r => created_at r | None => Some now end in
  merge run_id
    (mkRow the_run request_id api_key api_key_name workspace_id (status_value status) (_stop_reason status)
       started completed (Some duration) (Some (or_total_token_usage result))
       (_project_payload result duration task_ms final_output error_code) created) table.

Definition list_runs (limit : Z) (owner_scope : option pystr) (table : list MultiAgentRunRecordTable) :=
  select_runs workspace_id api_key_hash started_at created_at limit owner_scope (fun _ => true) table.
Definition get_run (i : pystr) (owner_scope : option pystr) (table : list MultiAgentRunRecordTable) :=
  RunRecords.get_run run_id workspace_id api_key_hash i owner_scope table.

(** A row of the event table: the columns are those of the event, so the event
    is kept beside its public form. *)
Record MultiAgentRunEventTable := mkEventRow { er_event : MultiAgentEvent; er_payload : list (pystr * json) }.
Definition save_event (isoformat : Z -> pystr) (e : MultiAgentEvent) (rows : list MultiAgentRunEventTable)
  : list MultiAgentRunEventTable := rows ++ [mkEventRow e (to_public_dict isoformat e)].

Definition by_sequence (a b : MultiAgentRunEventTable) : bool :=
  me_sequence (er_event a) <=? me_sequence (er_event b).
Definition list_events (the_run : pystr) (limit : Z) (rows : list MultiAgentRunEventTable)
  : list MultiAgentRunEventTable :=
  limited (Z.min (Z.max limit 1) MAX_MULTI_AGENT_EVENTS_PER_RUN)
    (sort_by by_sequence (filter (fun r => me_run_id (er_event r) = the_run) rows)).

Record run_payload := mkPayload {
  pp_run_id : pystr;
  pp_request_id : pystr;
  pp_api_key_prefix : pystr;
  pp_api_key_name : pystr;
  pp_status : pystr;
  pp_stop_reason : pystr;
  pp_started_at : option Z;
  pp_completed_at : option Z;
  pp_duration_ms : option Z;
  pp_total_tokens : option Z;
  pp_response : json
}.
Definition public_run_payload (r : MultiAgentRunRecordTable) : run_payload :=
  mkPayload (run_id r) (request_id r) (sprefix 8 (api_key_hash r)) (api_key_name r) (status r)
    (stop_reason r) (started_at r) (completed_at r) (duration_ms r) (total_tokens r) (payload r).

Definition _as_list (v : option json) : list (list (pystr * json)) := AgentRecords.dicts (items_of v).

(** [public_run_summary]: the payload without its response, and the count. *)
Definition public_run_summary (p : run_payload) : run_payload * Z :=
  (p, Z.of_nat (length (_as_list (get (u "subtask_results") (pp_response p))))).

Definition _RESPONSE_ALLOWED_KEYS : list pystr :=
  [u "status"; u "final_output"; u "error_code"; u "total_token_usage"; u "duration_ms"].
Definition _SUBTASK_ALLOWED_KEYS : list pystr :=
  [u "task_id"; u "status"; u "agent_role"; u "output"; u "error_code"; u "token_usage"; u "duration_ms"].

Definition project_run_response (p : run_payload) : list (pystr * json) :=
  let response := match pp_response p with JObj d => d | _ => [] end in
  dict_set (u "subtask_results")
    (JArr ((fun d => JObj (only _SUBTASK_ALLOWED_KEYS d)) <$> _as_list (dict_get (u "subtask_results") response)))
    (only _RESPONSE_ALLOWED_KEYS response).
End MultiRecords.

(** ** Canvas configurations *)

Module Configs.
Record MultiAgentConfigTable := mkConfig {
  cfg_id : pystr;
  cfg_workspace_id : option pystr;
  cfg_name : pystr;
  cfg_description : option pystr;
  cfg_version : Z;
  cfg_dag_json : json;
  cfg_orchestration_config : json;
  cfg_created_at : Z;
  cfg_updated_at : Z;
  cfg_created_by : option pystr
}.

(** [_owner_filter] *)
Definition _owner_filter (owner_scope : option pystr) (c : MultiAgentConfigTable) : bool :=
  match owner_scope with
  | None => bool_decide (cfg_workspace_id c = None)
  | Some s => bool_decide (cfg_workspace_id c = Some s) || bool_decide (cfg_workspace_id c = None)
  end.

(** The unique constraint on workspace and name; rows without a workspace are
    never equal for it. *)
Definition same_name (a b : MultiAgentConfigTable) : bool :=
  bool_decide (is_Some (cfg_workspace_id a)) && bool_decide (cfg_workspace_id b = cfg_workspace_id a)
  && bool_decide (cfg_name b = cfg_name a).

(** [None]: the unique constraint is violated. *)
Definition create (fresh : pystr) (now : Z) (name : pystr) (dag_json orchestration_config : json)
    (description workspace_id user_id : option pystr) (table : list MultiAgentConfigTable)
  : option (MultiAgentConfigTable * list MultiAgentConfigTable) :=
  let row := mkConfig fresh workspace_id name description 1 dag_json orchestration_config now now user_id in
  if existsb (same_name row) table then None else Some (row, table ++ [row]).

Definition list_configs (owner_scope : option pystr) (limit : Z) (table : list MultiAgentConfigTable)
  : list MultiAgentConfigTable :=
  limited limit (sort_by (fun a b => cfg_updated_at b <=? cfg_updated_at a)
    (filter (fun c => _owner_filter owner_scope c = true) table)).

Definition get_config (i : pystr) (owner_scope : option pystr) (table : list MultiAgentConfigTable)
  : option MultiAgentConfigTable :=
  head (filter (fun c => cfg_id c = i /\ _owner_filter owner_scope c = true) table).

(** [row.version or 1] *)
Definition next_version (v : Z) : Z := (if v =? 0 then 1 else v) + 1.

(** [None]: the unique constraint is violated and nothing changes. *)
Definition update_config (now : Z) (i : pystr) (name description : option pystr)
    (dag_json orchestration_config : option json) (owner_scope : option pystr) (table : list MultiAgentConfigTable)
  : option (option MultiAgentConfigTable * list MultiAgentConfigTable) :=
  match get_config i owner_scope table with
  | None => Some (None, table)
  | Some c =>
      let c' := mkConfig (cfg_id c) (cfg_workspace_id c) (default (cfg_name c) name)
                  (match description with Some d => Some d | None => cfg_description c end) (next_version (cfg_version c))
                  (default (cfg_dag_json c) dag_json) (default (cfg_orchestration_config c) orchestration_config)
                  (cfg_created_at c) now (cfg_created_by c) in
      if existsb (fun x => bool_decide (cfg_id x <> i) && same_name c' x) table then None
      else Some (Some c', (fun x => if decide (cfg_id x = i) then c' else x) <$> table)
  end.

Definition delete_config (i : pystr) (owner_scope : option pystr) (table : list MultiAgentConfigTable)
  : bool * list MultiAgentConfigTable :=
  match get_config i owner_scope table with
  | None => (false, table)
  | Some _ => (true, filter (fun c => cfg_id c <> i) table)
  end.
End Configs.
