(* ===== verification/RunRecordsProps.v ===== *)
(** * Properties of the run history and of canvas configurations

    A tenant reads its own runs only, a stored run is shown through the
    allowlists, and which configurations a tenant can change. *)

From Corelib Require Import SpecFloat.
From S2P Require Import Prelude Json AgentRuntime MultiAgent MultiAgentEvents RunRecords.
Local Open Scope Z_scope.
#[local] Opaque u.

(** ** Queries *)

Section Runs.
Context {Row : Type} (run_id : Row -> pystr) (workspace_id : Row -> option pystr) (api_key_hash : Row -> pystr)
  (started_at created_at : Row -> option Z).
Abbreviation owned := (owned_by workspace_id api_key_hash).
Abbreviation select := (select_runs workspace_id api_key_hash started_at created_at).
Abbreviation get := (RunRecords.get_run run_id workspace_id api_key_hash).

Lemma get_row_spec (table : list Row) r : NoDup (run_id <$> table) -> r ∈ table -> get_row run_id (run_id r) table = Some r.
Proof.
  intros Hnd Hr. unfold get_row. induction table as [|x table IH]; [by apply not_elem_of_nil in Hr|].
  apply NoDup_cons in Hnd as [Hx Hnd]. rewrite filter_cons. destruct (decide (run_id x = run_id r)) as [E|E].
  - apply elem_of_cons in Hr as [->|Hr]; [done|]. destruct Hx. rewrite E. by apply list_elem_of_fmap_2.
  - apply elem_of_cons in Hr as [->|Hr]; [done|]. by apply IH.
Qed.

(** The tenant's rows, newest first. *)
Lemma select_spec limit scope also (table : list Row) r :
  r ∈ select limit (Some scope) also table -> r ∈ table /\ owned scope r = true /\ also r = true.
Proof.
  unfold select_runs, limited. intros Hr. apply elem_of_take in Hr as (i & Hr & _).
  apply list_elem_of_lookup_2 in Hr. rewrite (sort_by_perm _ _) in Hr. apply list_elem_of_filter in Hr as [Hr Hin].
  apply andb_true_iff in Hr as [Ho Ha]. done.
Qed.

Lemma select_length limit scope also (table : list Row) : 0 <= limit ->
  Z.of_nat (length (select limit scope also table)) <= limit.
Proof. intros Hl. unfold select_runs, limited. rewrite length_take. lia. Qed.

Lemma select_complete limit scope also (table : list Row) :
  Z.of_nat (length (filter (fun r => owned scope r && also r = true) table)) <= limit ->
  select limit (Some scope) also table ≡ₚ filter (fun r => owned scope r && also r = true) table.
Proof.
  intros Hl. unfold select_runs, limited. rewrite take_ge; [apply sort_by_perm|].
  rewrite (Permutation_length (sort_by_perm _ _)). lia.
Qed.

Lemma get_spec i scope (table : list Row) r : get i (Some scope) table = Some r ->
  r ∈ table /\ run_id r = i /\ owned scope r = true.
Proof.
  unfold RunRecords.get_run, get_row. destruct (head _) as [x|] eqn:Eh; cbn; [|done].
  destruct (owned scope x) eqn:Eo; [|done]. intros [= ->].
  destruct (filter _ table) as [|y l] eqn:Ef; [done|]. injection Eh as ->.
  assert (Hin : r ∈ filter (fun r => run_id r = i) table) by (rewrite Ef; left).
  apply list_elem_of_filter in Hin as [? ?]. done.
Qed.

Lemma get_listed limit scope also (table : list Row) r : NoDup (run_id <$> table) ->
  r ∈ select limit (Some scope) also table -> get (run_id r) (Some scope) table = Some r.
Proof.
  intros Hnd Hr. apply select_spec in Hr as (Hin & Ho & _). unfold RunRecords.get_run.
  rewrite (get_row_spec _ _ Hnd Hin). cbn. by rewrite Ho.
Qed.

(** A row of another tenant is not visible. *)
Lemma owned_one_scope s s' r : owned s r = true -> owned s' r = true -> s = s'.
Proof.
  unfold owned_by. intros [H|[H1 H2]%andb_true_iff]%orb_true_iff [H'|[H1' H2']%andb_true_iff]%orb_true_iff; bools; congruence.
Qed.

(** [merge] keeps the keys distinct. *)
Lemma merge_keys r (table : list Row) x : x ∈ run_id <$> merge run_id r table <-> x = run_id r \/ x ∈ run_id <$> table.
Proof.
  induction table as [|y table IH]; simpl; [set_solver|]. destruct (decide (run_id y = run_id r)) as [E|E]; simpl; [|set_solver].
  rewrite !elem_of_cons. rewrite E. naive_solver.
Qed.
Lemma merge_NoDup r (table : list Row) : NoDup (run_id <$> table) -> NoDup (run_id <$> merge run_id r table).
Proof.
  induction table as [|y table IH]; simpl; intros Hnd; [repeat constructor; by apply not_elem_of_nil|].
  apply NoDup_cons in Hnd as [Hy Hnd]. destruct (decide (run_id y = run_id r)) as [E|E]; simpl.
  - constructor; [by rewrite <- E|done].
  - constructor; [|by apply IH]. rewrite merge_keys. naive_solver.
Qed.
End Runs.

(** ** The history of a tenant *)

Section History.
Context (agent_runs : list AgentRecords.AgentRunRecordTable) (multi_runs : list MultiRecords.MultiAgentRunRecordTable).
Context (Hagent : NoDup (AgentRecords.run_id <$> agent_runs)) (Hmulti : NoDup (MultiRecords.run_id <$> multi_runs)).

(** C12. A tenant's history is its own: every listed run of agents or of several
    agents belongs to the scope and can be opened with it, an opened run belongs
    to the scope, no run can be opened from two scopes, and at most [limit] runs
    are listed. *)
Theorem history_is_private limit scope :
  (forall only_status agent_id r, r ∈ AgentRecords.list_runs limit only_status (Some scope) agent_id agent_runs ->
     owned_by AgentRecords.workspace_id AgentRecords.api_key_hash scope r = true /\
     AgentRecords.get_run (AgentRecords.run_id r) (Some scope) agent_runs = Some r) /\
  (forall r, r ∈ MultiRecords.list_runs limit (Some scope) multi_runs ->
     owned_by MultiRecords.workspace_id MultiRecords.api_key_hash scope r = true /\
     MultiRecords.get_run (MultiRecords.run_id r) (Some scope) multi_runs = Some r) /\
  (forall i scope' r r', AgentRecords.get_run i (Some scope) agent_runs = Some r ->
     AgentRecords.get_run i (Some scope') agent_runs = Some r' -> scope = scope') /\
  (forall i scope' r r', MultiRecords.get_run i (Some scope) multi_runs = Some r ->
     MultiRecords.get_run i (Some scope') multi_runs = Some r' -> scope = scope') /\
  (0 <= limit -> forall only_status agent_id,
     Z.of_nat (length (AgentRecords.list_runs limit only_status (Some scope) agent_id agent_runs)) <= limit /\
     Z.of_nat (length (MultiRecords.list_runs limit (Some scope) multi_runs)) <= limit).
Proof.
  split; [|split; [|split; [|split]]].
  - intros st ag r Hr. split; [by apply select_spec in Hr as (_ & ? & _)|]. by eapply get_listed.
  - intros r Hr. split; [by apply select_spec in Hr as (_ & ? & _)|]. by eapply get_listed.
  - intros i scope' r r' (H1 & H2 & H3)%get_spec (H1' & H2' & H3')%get_spec.
    assert (r = r') as ->; [|by eapply owned_one_scope].
    pose proof (get_row_spec _ _ _ Hagent H1) as E. pose proof (get_row_spec _ _ _ Hagent H1') as E'. congruence.
  - intros i scope' r r' (H1 & H2 & H3)%get_spec (H1' & H2' & H3')%get_spec.
    assert (r = r') as ->; [|by eapply owned_one_scope].
    pose proof (get_row_spec _ _ _ Hmulti H1) as E. pose proof (get_row_spec _ _ _ Hmulti H1') as E'. congruence.
  - intros Hl st ag. split; by apply select_length.
Qed.
End History.

Definition demo_row (i ws : pystr) : AgentRecords.AgentRunRecordTable :=
  AgentRecords.mkRow i (u "req") (u "hash") (u "name") (Some ws) (u "default") (u "completed") (u "completed")
    (Some 5) (Some 6) None (Some 3) JNull (Some 6).
Definition demo_multi (i : pystr) : MultiRecords.MultiAgentRunRecordTable :=
  MultiRecords.mkRow i (u "req") (u "ws1") (u "name") None (u "completed") (u "completed") (Some 5) (Some 6)
    (Some 1) (Some 3) JNull (Some 6).
Definition demo_agent_runs := [demo_row (u "r1") (u "ws1"); demo_row (u "r2") (u "ws2")].
Definition demo_multi_runs := [demo_multi (u "m1"); demo_multi (u "m2")].

Lemma history_is_private_witness :
  length (AgentRecords.list_runs 5 None (Some (u "ws1")) None demo_agent_runs) = 1%nat /\
  Z.of_nat (length (MultiRecords.list_runs 1 (Some (u "ws1")) demo_multi_runs)) <= 1.
Proof.
  assert (H1 : NoDup (AgentRecords.run_id <$> demo_agent_runs)) by (apply (bool_decide_unpack _); vm_compute; exact I).
  assert (H2 : NoDup (MultiRecords.run_id <$> demo_multi_runs)) by (apply (bool_decide_unpack _); vm_compute; exact I).
  split; [vm_compute; reflexivity|].
  destruct (history_is_private _ _ H1 H2 1 (u "ws1")) as (_ & _ & _ & _ & H).
  apply (H ltac:(lia) None None).
Defined.

(** ** What a stored run shows *)

Definition keys_in (allowed : list pystr) (d : list (pystr * json)) : Prop := Forall (fun kv => kv.1 ∈ allowed) d.

Lemma only_keys allowed d : keys_in allowed (only allowed d).
Proof. apply Forall_forall. intros kv [H _]%list_elem_of_filter. exact H. Qed.

Lemma set_keys allowed k v d : k ∈ allowed -> keys_in allowed d -> keys_in allowed (dict_set k v d).
Proof.
  intros Hk. induction d as [|[k' v'] d IH]; intros Hd; simpl; [by repeat constructor|].
  apply Forall_cons in Hd as [H Hd]. destruct (decide _); (constructor; [exact H|by try apply IH]).
Qed.

Lemma get_only k allowed d : k ∈ allowed -> dict_get k (only allowed d) = dict_get k d.
Proof.
  intros Hk. unfold only. induction d as [|[k' v] d IH]; simpl; [done|]. rewrite filter_cons.
  destruct (decide (k = k')) as [<-|Hne].
  - rewrite decide_True by done. cbn. by rewrite decide_True.
  - destruct (decide _); cbn; [by rewrite decide_False|done].
Qed.

(** An object with keys of [allowed] only *)
Definition object_of (allowed : list pystr) (v : json) : Prop := exists d, v = JObj d /\ keys_in allowed d.
(** The list under [key] has only members that satisfy [P]. *)
Definition listed (key : pystr) (P : json -> Prop) (d : list (pystr * json)) : Prop :=
  forall l, dict_get key d = Some (JArr l) -> Forall P l.
Definition public_step (v : json) : Prop :=
  exists d, v = JObj d /\ keys_in AgentRecords._STEP_ALLOWED_KEYS d /\
    listed (u "tool_calls") (object_of AgentRecords._TOOL_ALLOWED_KEYS) d.

Lemma objects_listed allowed (l : list (list (pystr * json))) :
  Forall (object_of allowed) ((fun d => JObj (only allowed d)) <$> l).
Proof. apply Forall_fmap, Forall_true. intros d. eexists. split; [done|]. apply only_keys. Qed.

Lemma listed_set key P d l : Forall P l -> listed key P (dict_set key (JArr l) d).
Proof. intros Hl l'. rewrite dict_get_set, decide_True by done. by intros [= <-]. Qed.

(** A projection that filters the keys and maps the objects of one list. *)
Lemma projected_keys allowed key f P d : key ∈ allowed -> (forall x, P (JObj (f x))) ->
  let shown := match dict_get key d with
               | Some (JArr l) => dict_set key (JArr ((fun x => JObj (f x)) <$> AgentRecords.dicts l)) (only allowed d)
               | _ => only allowed d
               end in
  keys_in allowed shown /\ listed key P shown /\
  (forall k, k ∈ allowed -> k <> key -> dict_get k shown = dict_get k d).
Proof.
  intros Hkey Hf. cbv zeta.
  destruct (dict_get key d) as [v|] eqn:E; [destruct v|];
    try (split; [apply only_keys|split; [intros l'; rewrite get_only, E by done; discriminate|]];
         intros; by apply get_only).
  split; [by apply set_keys, only_keys|]. split.
  - apply listed_set, Forall_fmap, Forall_true. exact Hf.
  - intros k Hk Hne. rewrite dict_get_set, decide_False by congruence. by apply get_only.
Qed.

Lemma project_step_public d : public_step (JObj (AgentRecords._project_step d)).
Proof.
  destruct (projected_keys AgentRecords._STEP_ALLOWED_KEYS (u "tool_calls") (only AgentRecords._TOOL_ALLOWED_KEYS)
    (object_of AgentRecords._TOOL_ALLOWED_KEYS) d) as (H1 & H2 & _).
  - apply (bool_decide_unpack _); vm_compute; exact I.
  - intros x. eexists. split; [done|]. apply only_keys.
  - by eexists.
Qed.

(** What a tenant is shown of a stored run is on the allowlists at every
    depth: the response, the steps and their tool calls, the subtask results; and
    an allowed field of the response other than these lists is shown as it was
    stored. *)
Theorem stored_run_shows_allowlist p q :
  (keys_in AgentRecords._RESPONSE_ALLOWED_KEYS (AgentRecords.project_run_response p) /\
   listed (u "steps") public_step (AgentRecords.project_run_response p) /\
   (forall k, k ∈ AgentRecords._RESPONSE_ALLOWED_KEYS -> k <> u "steps" ->
      dict_get k (AgentRecords.project_run_response p) = get k (AgentRecords.pp_response p))) /\
  (keys_in (MultiRecords._RESPONSE_ALLOWED_KEYS ++ [u "subtask_results"]) (MultiRecords.project_run_response q) /\
   (exists l, dict_get (u "subtask_results") (MultiRecords.project_run_response q) = Some (JArr l) /\
      Forall (object_of MultiRecords._SUBTASK_ALLOWED_KEYS) l) /\
   (forall k, k ∈ MultiRecords._RESPONSE_ALLOWED_KEYS ->
      dict_get k (MultiRecords.project_run_response q) = get k (MultiRecords.pp_response q))).
Proof.
  split.
  - unfold AgentRecords.project_run_response, get. destruct (AgentRecords.pp_response p) as [| | | | | |d];
      try (split; [constructor|split; [by intros l|done]]).
    apply projected_keys; [apply (bool_decide_unpack _); vm_compute; exact I|apply project_step_public].
  - unfold MultiRecords.project_run_response, get. split; [|split].
    + apply set_keys; [apply elem_of_app; right; by left|].
      eapply Forall_impl; [apply only_keys|]. intros kv H. apply elem_of_app. by left.
    + eexists. split; [by rewrite dict_get_set, decide_True|]. apply objects_listed.
    + intros k Hk. rewrite dict_get_set, decide_False.
      * rewrite get_only by done. by destruct (MultiRecords.pp_response q).
      * intros ->. revert Hk. apply (bool_decide_unpack _). vm_compute. exact I.
Qed.

(** ** Canvas configurations *)

Section Configurations.
Import Configs.

Lemma get_config_spec i owner (table : list MultiAgentConfigTable) c :
  get_config i owner table = Some c -> c ∈ table /\ cfg_id c = i /\ _owner_filter owner c = true.
Proof.
  unfold get_config. destruct (filter _ table) as [|y l] eqn:Ef; [done|]. intros [= ->].
  assert (Hin : c ∈ filter (fun c => cfg_id c = i /\ _owner_filter owner c = true) table) by (rewrite Ef; left).
  apply list_elem_of_filter in Hin as [[? ?] ?]. done.
Qed.

Lemma same_id (table : list MultiAgentConfigTable) a b : NoDup (cfg_id <$> table) -> a ∈ table -> b ∈ table ->
  cfg_id a = cfg_id b -> a = b.
Proof.
  intros Hnd Ha Hb E. induction table as [|x table IH]; [by apply not_elem_of_nil in Ha|].
  cbn in Hnd. apply NoDup_cons in Hnd as [Hx Hnd].
  apply elem_of_cons in Ha as [->|Ha], Hb as [->|Hb]; [done|..|by apply IH].
  - destruct Hx. rewrite E. by apply list_elem_of_fmap_2.
  - destruct Hx. rewrite <- E. by apply list_elem_of_fmap_2.
Qed.

(** A row of a workspace is out of the reach of every other scope. *)
Lemma foreign_filter w scope c : cfg_workspace_id c = Some w -> scope <> Some w -> _owner_filter scope c = false.
Proof.
  intros Hc Hs. unfold _owner_filter. destruct scope as [s|]; rewrite Hc, ?orb_false_iff; repeat split; apply bool_decide_false; congruence.
Qed.

Lemma config_found i owner (table : list MultiAgentConfigTable) c : NoDup (cfg_id <$> table) -> c ∈ table ->
  cfg_id c = i -> _owner_filter owner c = true -> get_config i owner table = Some c.
Proof.
  intros Hnd Hc <- Ho. destruct (get_config (cfg_id c) owner table) as [c'|] eqn:E.
  - apply get_config_spec in E as (Hc' & Hi & _). f_equal. by eapply same_id.
  - exfalso. unfold get_config in E. destruct (filter _ table) as [|y l] eqn:Ef; [|done].
    assert (Hin : c ∈ filter (fun x => cfg_id x = cfg_id c /\ _owner_filter owner x = true) table)
      by (by apply list_elem_of_filter).
    rewrite Ef in Hin. by apply not_elem_of_nil in Hin.
Qed.

(** Canvas configurations belong to workspaces: a configuration of a workspace
    is neither read, listed, changed nor removed with another scope; a change keeps
    its identity, its workspace and its author and raises the version, and ids stay
    unique.  A configuration without a workspace, though, is removed for everyone
    by any workspace that knows its id. *)
Theorem configurations_of_workspaces scope (table : list MultiAgentConfigTable) : NoDup (cfg_id <$> table) ->
  (forall c w, c ∈ table -> cfg_workspace_id c = Some w -> scope <> Some w ->
     get_config (cfg_id c) scope table = None /\
     (forall limit, c ∉ list_configs scope limit table) /\
     (forall i, c ∈ (delete_config i scope table).2) /\
     (forall now i name descr dag conf r table', update_config now i name descr dag conf scope table = Some (r, table') ->
        c ∈ table')) /\
  (forall now i name descr dag conf c' table', update_config now i name descr dag conf scope table = Some (Some c', table') ->
     (cfg_id <$> table') = (cfg_id <$> table) /\
     exists c, c ∈ table /\ cfg_id c = i /\ cfg_id c' = i /\ cfg_workspace_id c' = cfg_workspace_id c /\
       cfg_created_by c' = cfg_created_by c /\ cfg_created_at c' = cfg_created_at c /\
       (0 <= cfg_version c -> cfg_version c < cfg_version c') /\ get_config i scope table' = Some c') /\
  (forall c w, c ∈ table -> cfg_workspace_id c = None ->
     delete_config (cfg_id c) (Some w) table = (true, filter (fun x => cfg_id x <> cfg_id c) table)).
Proof.
  intros Hnd. split; [|split].
  - intros c w Hc Hw Hs. pose proof (foreign_filter w scope c Hw Hs) as Hf.
    assert (Hne : forall i x, get_config i scope table = Some x -> cfg_id c <> i).
    { intros i x (Hx & <- & Hox)%get_config_spec E. rewrite (same_id _ _ _ Hnd Hc Hx E) in Hf. congruence. }
    split; [|split; [|split]].
    + destruct (get_config _ _ _) eqn:E; [by apply Hne in E|done].
    + intros limit (i & Hi & _)%elem_of_take. apply list_elem_of_lookup_2 in Hi.
      rewrite (sort_by_perm _ _) in Hi. apply list_elem_of_filter in Hi as [? _]. congruence.
    + intros i. unfold delete_config. destruct (get_config i scope table) eqn:E; [|done].
      apply list_elem_of_filter. split; [by eapply Hne|done].
    + intros now i name descr dag conf r table'. unfold update_config.
      destruct (get_config i scope table) as [x|] eqn:E; [|by intros [= <- <-]].
      destruct (existsb _ table); [discriminate|]. intros [= <- <-].
      apply list_elem_of_fmap. exists c. split; [|done]. rewrite decide_False; [done|]. by eapply Hne.
  - intros now i name descr dag conf c' table' Hup. unfold update_config in Hup.
    destruct (get_config i scope table) as [c|] eqn:E; [|discriminate].
    pose proof (get_config_spec _ _ _ _ E) as (Hc & Hi & Ho).
    destruct (existsb _ table); [discriminate|]. injection Hup as <- <-. set (c' := mkConfig _ _ _ _ _ _ _ _ _ _).
    assert (Hids : cfg_id <$> ((fun x => if decide (cfg_id x = i) then c' else x) <$> table) = cfg_id <$> table).
    { rewrite <- list_fmap_compose. apply list_fmap_ext. intros k x Hx. cbn. destruct (decide _) as [<-|]; [|done]. exact Hi. }
    split; [exact Hids|]. exists c. split; [done|]. split; [done|]. split; [exact Hi|]. do 3 (split; [done|]).
    split; [cbn; unfold next_version; intros; case_match; lia|].
    apply config_found; [by rewrite Hids| |exact Hi|exact Ho].
    apply list_elem_of_fmap. exists c. by rewrite decide_True.
  - intros c w Hc Hw. unfold delete_config. rewrite (config_found (cfg_id c) (Some w) table c Hnd Hc eq_refl); [done|].
    unfold _owner_filter. rewrite Hw. by apply orb_true_iff; right; apply bool_decide_true.
Qed.

Definition demo_config (i : pystr) (ws : option pystr) : MultiAgentConfigTable :=
  mkConfig i ws (u "plan") None 1 JNull JNull 5 5 None.
Definition demo_configs := [demo_config (u "c1") (Some (u "ws1")); demo_config (u "c2") None].

Lemma configurations_of_workspaces_witness :
  get_config (u "c1") (Some (u "ws2")) demo_configs = None /\
  fst (delete_config (u "c2") (Some (u "ws2")) demo_configs) = true.
Proof.
  assert (H : NoDup (cfg_id <$> demo_configs)) by (apply (bool_decide_unpack _); vm_compute; exact I).
  destruct (configurations_of_workspaces (Some (u "ws2")) demo_configs H) as (H1 & _ & H3). split.
  - refine (proj1 (H1 (demo_config (u "c1") (Some (u "ws1"))) (u "ws1") _ eq_refl _)); [left|].
    apply (bool_decide_unpack _). vm_compute. exact I.
  - exact (f_equal fst (H3 (demo_config (u "c2") None) (u "ws2") (list_elem_of_further _ _ _ (list_elem_of_here _ _)) eq_refl)).
Defined.
End Configurations.
