(* ===== verification/MultiAgentApi.v ===== *)
(** * Multi-agent endpoints: [app/api/multi_agent.py] and [app/schemas/multi_agent.py]

    The bridge from a run to one client ([MultiAgentEventStream], the producer and
    the consumer [_stream_events], which [app/api/agent.py] has as well), the
    public form of events and results, and the replay of a stored run. *)

From S2P Require Import Prelude Json AgentRuntime MultiAgent Redaction MultiAgentEvents MultiAgentService RunRecords.
Local Open Scope Z_scope.

(** ** Safe texts *)

Definition _SAFE_ERROR_MESSAGES : list (pystr * pystr) :=
  [(u "supervisor_failed", u "Supervisor decomposition failed.");
   (u "dependency_deadlock", u "Dependency deadlock detected.");
   (u "timeout", u "Multi-agent run timed out.");
   (u "cancelled", u "Multi-agent run was cancelled.");
   (u "budget_exceeded", u "Token budget exceeded.");
   (u "subtask_failed", u "Subtask failed.");
   (u "internal_error", u "Multi-agent run failed.");
   (u "stream_setup_failed", u "Stream setup failed.")].

Definition _public_error_text (error_code : option pystr) : option pystr :=
  match error_code with
  | None => None
  | Some c =>
      Some (match dict_get c _SAFE_ERROR_MESSAGES with
            | Some m => m
            | None => u "Multi-agent run failed."
            end)
  end.

Definition _subtask_public_error (r : SubtaskResult) : option pystr :=
  if decide (sr_status r = TaskStatus.FAILED) then Some (u "Subtask failed.") else None.

(** [_owner_scope] of an identity with a workspace, or the hash of its key. *)
Definition _owner_scope (workspace_id : option pystr) (api_key_hash : pystr) : pystr :=
  default api_key_hash workspace_id.

(** ** The response of a synchronous run *)

Record SubtaskResultResponse := mkSubtaskResponse {
  sx_task_id : pystr;
  sx_status : pystr;
  sx_output : pystr;
  sx_error : option pystr;
  sx_error_code : option pystr;
  sx_agent_role : pystr;
  sx_token_usage : Z;
  sx_steps_taken : Z;
  sx_duration_ms : option Z
}.

Record MultiAgentRunResponse := mkRunResponse {
  mr_run_id : pystr;
  mr_status : pystr;
  mr_final_output : pystr;
  mr_subtask_results : list SubtaskResultResponse;
  mr_total_token_usage : Z;
  mr_error : option pystr;
  mr_error_code : option pystr;
  mr_duration_ms : Z
}.

Definition public_response (is_alnum : N -> bool) (run_id : pystr) (duration_ms : Z) (task_ms : pystr -> option Z)
    (result : OrchestrationResult) : MultiAgentRunResponse :=
  mkRunResponse run_id (MultiRecords.status_value (or_status result))
    (match or_final_output result with [] => [] | o => _bounded_result is_alnum o end)
    ((fun r => mkSubtaskResponse (sr_task_id r) (task_status_value (sr_status r)) (sr_output r)
                 (_subtask_public_error r)
                 (if decide (sr_status r = TaskStatus.FAILED) then Some (u "subtask_failed") else None)
                 (AgentRole.value (sr_agent_role r)) (sr_token_usage r) (sr_steps_taken r) (task_ms (sr_task_id r)))
     <$> or_subtask_results result)
    (or_total_token_usage result) (_public_error_text (or_error_code result)) (or_error_code result) duration_ms.

(** ** The stream of a run *)

Inductive stream_item := StreamEvent (e : MultiAgentEvent) | MultiAgentStreamClosed | MultiAgentStreamSetupError.

Record MultiAgentEventStream := mkStream {
  ms_queue : list stream_item;
  ms_terminal_observed : bool;
  ms_run_id : option pystr;
  ms_last_sequence : option Z
}.
Definition stream_init : MultiAgentEventStream := mkStream [] false None None.

Definition stream_on_event (e : MultiAgentEvent) (s : MultiAgentEventStream) : MultiAgentEventStream :=
  mkStream (ms_queue s ++ [StreamEvent e]) (me_is_terminal e || ms_terminal_observed s)
    (match ms_run_id s with None => Some (me_run_id e) | i => i end)
    (Some (match ms_last_sequence s with None => me_sequence e | Some n => Z.max n (me_sequence e) end)).

Definition put (x : stream_item) (s : MultiAgentEventStream) : MultiAgentEventStream :=
  mkStream (ms_queue s ++ [x]) (ms_terminal_observed s) (ms_run_id s) (ms_last_sequence s).
Definition close : MultiAgentEventStream -> MultiAgentEventStream := put MultiAgentStreamClosed.

Definition fail_setup (s : MultiAgentEventStream) : MultiAgentEventStream :=
  close (if ms_terminal_observed s then s else put MultiAgentStreamSetupError s).

Definition fail_unexpected (now : Z) (s : MultiAgentEventStream) : MultiAgentEventStream :=
  if ms_terminal_observed s then close s else
  match ms_run_id s with
  | None => fail_setup s
  | Some run_id =>
      let sequence := match ms_last_sequence s with None => 1 | Some n => n + 1 end in
      let e := mkMultiAgentEvent run_id MultiAgentEventKind.RUN_FAILED sequence (u "supervisor") now None None None None
                 None (Some (u "internal_error")) [] None None None [] None None None None in
      close (mkStream (ms_queue s ++ [StreamEvent e]) true (ms_run_id s) (ms_last_sequence s))
  end.

(** The end of [produce]: [failed] when the run or what follows it raised. *)
Definition produce_end (now : Z) (failed : bool) (s : MultiAgentEventStream) : MultiAgentEventStream :=
  let s := if failed then fail_unexpected now s else s in
  if ms_terminal_observed s then s else close s.

(** ** The consumer

    Every round waits for an item, the client's disconnection or a tenth of a
    second, whichever comes first. *)

Section Consumer.
Context {Item Frame : Type}.

(** What an item does: it ends the stream, possibly after a last frame, or it is
    a frame and the stream goes on; [None]: building the frame raises. *)
Inductive reaction := Stop | Last (f : Frame) | Go (f : Frame).
Context (react : Item -> option reaction).

(** One round: the client has gone, or an item has arrived, or neither. *)
Record round := mkRound { rd_disconnected : bool; rd_item : option Item }.

(** What the generator has yielded when it ends, whether the client left, and
    whether it raised; [None] while it waits. *)
Record consumed := mkConsumed { cs_frames : list Frame; cs_disconnected : bool; cs_raised : bool }.
Definition add_frame (f : Frame) (c : consumed) : consumed :=
  mkConsumed (f :: cs_frames c) (cs_disconnected c) (cs_raised c).

Fixpoint _stream_events (rounds : list round) : option consumed :=
  match rounds with
  | [] => None
  | r :: rounds =>
      if rd_disconnected r then Some (mkConsumed [] true false) else
      match rd_item r with
      | None => _stream_events rounds
      | Some item =>
          match react item with
          | None => Some (mkConsumed [] false true)
          | Some Stop => Some (mkConsumed [] false false)
          | Some (Last f) => Some (mkConsumed [f] false false)
          | Some (Go f) => add_frame f <$> _stream_events rounds
          end
      end
  end.

(** [finally]: the run is cancelled if the producer has not ended. *)
Definition cancel_run (c : consumed) (producer_done : bool) : bool := cs_disconnected c || negb producer_done.
End Consumer.
Arguments reaction : clear implicits.
Arguments round : clear implicits.
Arguments consumed : clear implicits.

(** ** The public event *)

Record SubtaskSummarySchema := mkSummarySchema {
  su_id : pystr;
  su_agent_role : pystr;
  su_description : pystr;
  su_depends_on : list pystr
}.

Record MultiAgentStreamEvent := mkStreamEvent {
  sq_event : pystr;
  sq_run_id : option pystr;
  sq_request_id : option pystr;
  sq_sequence : option Z;
  sq_occurred_at : option Z;
  sq_task_id : option pystr;
  sq_agent_role : option pystr;
  sq_duration_ms : option Z;
  sq_token_usage : option Z;
  sq_output_summary : option pystr;
  sq_error_code : option pystr;
  sq_subtasks : list SubtaskSummarySchema;
  sq_reasoning : option pystr;
  sq_final_output : option pystr;
  sq_total_token_usage : option Z;
  sq_subtask_results : list SubtaskResultSummary;
  sq_agent_event_kind : option pystr;
  sq_step_index : option Z;
  sq_tool_name : option pystr;
  sq_call_id : option pystr
}.

Definition at_most (n : Z) (o : option pystr) : bool := match o with Some s => slen s <=? n | None => true end.
Definition at_least_0 (o : option Z) : bool := match o with Some z => 0 <=? z | None => true end.

(** The bounds of the schema *)
Definition valid_stream_event (e : MultiAgentStreamEvent) : bool :=
  at_most 64 (Some (sq_event e)) && at_most 64 (sq_run_id e) && at_most 128 (sq_request_id e)
  && at_least_0 (sq_sequence e) && at_most 128 (sq_task_id e) && at_most 64 (sq_agent_role e)
  && at_least_0 (sq_duration_ms e) && at_least_0 (sq_token_usage e) && at_most 256 (sq_output_summary e)
  && at_most 64 (sq_error_code e) && at_most 256 (sq_reasoning e) && at_most 8192 (sq_final_output e)
  && at_least_0 (sq_total_token_usage e) && at_most 64 (sq_agent_event_kind e) && at_least_0 (sq_step_index e)
  && at_most 128 (sq_tool_name e) && at_most 128 (sq_call_id e).

(** [None]: [ValidationError] *)
Definition _to_stream_event (event : MultiAgentEvent) (request_id : pystr) : option MultiAgentStreamEvent :=
  let e := mkStreamEvent (MultiAgentEventKind.value (me_kind event)) (Some (me_run_id event)) (Some request_id)
    (Some (me_sequence event)) (Some (me_occurred_at event)) (me_task_id event) (me_agent_role event)
    (me_duration_ms event) (me_token_usage event) (me_output_summary event) (me_error_code event)
    ((fun s => mkSummarySchema (ss_id s) (ss_agent_role s) (ss_description s) (ss_depends_on s)) <$> me_subtasks event)
    (me_reasoning event) (me_final_output event) (me_total_token_usage event) (me_subtask_results event)
    (me_agent_event_kind event) (me_step_index event) (me_tool_name event) (me_call_id event) in
  if valid_stream_event e then Some e else None.

(** A frame of the stream: an event, or the error of a run that could not start. *)
Inductive frame := EventFrame (e : MultiAgentStreamEvent) | SetupErrorFrame (request_id : pystr).

Definition react (request_id : pystr) (x : stream_item) : option (reaction frame) :=
  match x with
  | MultiAgentStreamClosed => Some Stop
  | MultiAgentStreamSetupError => Some (Last (SetupErrorFrame request_id))
  | StreamEvent e =>
      f ← _to_stream_event e request_id;
      Some (if me_is_terminal e then Last (EventFrame f) else Go (EventFrame f))
  end.

(** ** Replay *)

Definition str_field (key : pystr) (d : list (pystr * json)) : option pystr :=
  match dict_get key d with Some (JStr s) => Some s | _ => None end.
Definition int_field (key : pystr) (d : list (pystr * json)) : option Z :=
  match dict_get key d with Some (JInt z) => Some z | _ => None end.
Definition texts_of (v : option json) : list pystr :=
  omap (fun x => match x with JStr s => Some s | _ => None end) (items_of v).

(** [SubtaskSummary] and [SubtaskResultSummary] from the keys of a stored item *)
Definition summary_from (v : json) : option SubtaskSummary :=
  match v with
  | JObj d =>
      i ← str_field (u "id") d;
      role ← str_field (u "agent_role") d;
      Some (mkSubtaskSummary i role (str_field (u "agent_id") d) (default [] (str_field (u "description") d))
              (texts_of (dict_get (u "depends_on") d)))
  | _ => None
  end.
Definition result_from (v : json) : option SubtaskResultSummary :=
  match v with
  | JObj d =>
      i ← str_field (u "task_id") d;
      status ← str_field (u "status") d;
      Some (mkSubtaskResultSummary i status (default (u "custom") (str_field (u "agent_role") d))
              (default [] (str_field (u "output") d)) (str_field (u "error_code") d)
              (default 0 (int_field (u "token_usage") d)) (int_field (u "duration_ms") d))
  | _ => None
  end.

(** [_event_from_row]; the source of the run is not a column and is not read. *)
Definition _event_from_row (r : MultiRecords.MultiAgentRunEventTable) : MultiAgentEvent :=
  let e := MultiRecords.er_event r in
  let payload := MultiRecords.er_payload r in
  mkMultiAgentEvent (me_run_id e) (me_kind e) (me_sequence e) (u "supervisor") (me_occurred_at e) (me_task_id e)
    (me_agent_role e) (me_duration_ms e) (me_token_usage e) (me_output_summary e) (me_error_code e)
    (omap summary_from (items_of (dict_get (u "subtasks") payload)))
    (me_reasoning e) (me_final_output e) (me_total_token_usage e)
    (omap result_from (items_of (dict_get (u "subtask_results") payload)))
    (me_agent_event_kind e) (me_step_index e) (me_tool_name e) (me_call_id e).

(** [GET /runs], [/runs/{id}], [/runs/{id}/events]: [None] is 404. *)
Definition list_multi_agent_runs (limit : Z) (scope : pystr) (table : list MultiRecords.MultiAgentRunRecordTable) :=
  (fun r => MultiRecords.public_run_summary (MultiRecords.public_run_payload r))
  <$> MultiRecords.list_runs (Z.min (Z.max limit 1) 200) (Some scope) table.
Definition get_multi_agent_run (i scope : pystr) (table : list MultiRecords.MultiAgentRunRecordTable) :=
  r ← MultiRecords.get_run i (Some scope) table;
  Some (MultiRecords.public_run_payload r, MultiRecords.project_run_response (MultiRecords.public_run_payload r)).
Definition get_multi_agent_run_events (i scope request_id : pystr) (limit : Z)
    (table : list MultiRecords.MultiAgentRunRecordTable) (rows : list MultiRecords.MultiAgentRunEventTable)
  : option (list (option MultiAgentStreamEvent)) :=
  _ ← MultiRecords.get_run i (Some scope) table;
  Some ((fun r => _to_stream_event (_event_from_row r) request_id)
        <$> MultiRecords.list_events i (Z.min (Z.max limit 1) 1000) rows).
