(* ===== verification/MultiAgentApiProps.v ===== *)
(** * Properties of the multi-agent endpoints

    What one client sees of a run: every event, in order, and exactly one end; and
    that a replayed run is the run that was streamed. *)

From S2P Require Import Prelude Json AgentRuntime MultiAgent Redaction MultiAgentEvents MultiAgentService.
From S2P Require Import RunRecords MultiAgentApi.
Local Open Scope Z_scope.
#[local] Opaque u.

(** ** The consumer *)

Section Consumer.
Context {Item Frame : Type} (react : Item -> option (reaction Frame)).

(** What a client that stays sees of the items. *)
Fixpoint consume (items : list Item) : option (consumed Frame) :=
  match items with
  | [] => None
  | x :: items =>
      match react x with
      | None => Some (mkConsumed [] false true)
      | Some Stop => Some (mkConsumed [] false false)
      | Some (Last f) => Some (mkConsumed [f] false false)
      | Some (Go f) => add_frame f <$> consume items
      end
  end.

(** Waiting changes nothing. *)
Lemma stay_consumes (rounds : list (round Item)) : Forall (fun r => rd_disconnected r = false) rounds ->
  _stream_events react rounds = consume (omap rd_item rounds).
Proof.
  induction rounds as [|[d i] rounds IH]; intros Hq; [done|]. apply Forall_cons in Hq as [Hd Hq]. cbn in Hd. subst d.
  cbn. destruct i as [x|]; cbn; [|by apply IH]. destruct (react x) as [[]|]; try done. by rewrite IH.
Qed.

(** A client that leaves has seen the first of the frames. *)
Lemma leave_prefix (rounds : list (round Item)) items c c' :
  omap rd_item rounds `prefix_of` items -> consume items = Some c' -> _stream_events react rounds = Some c ->
  cs_frames c `prefix_of` cs_frames c'.
Proof.
  revert items c c'. induction rounds as [|[d i] rounds IH]; intros items c c' Hp Hc Hs; [done|].
  cbn in Hs. destruct d; [injection Hs as <-; apply prefix_nil|].
  destruct i as [x|]; cbn in Hp; [|by eapply IH]. destruct Hp as [rest ->]. cbn in Hc.
  destruct (react x) as [[| |f]|]; try (simplify_eq; done).
  destruct (consume _) as [c1|] eqn:E1; [|discriminate]. destruct (_stream_events _ _) as [c2|] eqn:E2; [|discriminate].
  injection Hs as <-. injection Hc as <-. cbn. apply prefix_cons. eapply IH; [|exact E1|done]. by eexists.
Qed.

Lemma consume_go items rest fs : Forall2 (fun x f => react x = Some (Go f)) items fs ->
  consume (items ++ rest) = (fun c => foldr add_frame c fs) <$> consume rest.
Proof.
  induction 1 as [|x f items fs Hx _ IH]; cbn; [by destruct (consume rest)|].
  rewrite Hx, IH. by destruct (consume rest).
Qed.

Lemma add_frames (c : consumed Frame) fs :
  foldr add_frame c fs = mkConsumed (fs ++ cs_frames c) (cs_disconnected c) (cs_raised c).
Proof. induction fs as [|f fs IH]; cbn; [by destruct c|]. by rewrite IH. Qed.
End Consumer.

(** ** One client and one run *)

Definition observed (es : list MultiAgentEvent) : MultiAgentEventStream :=
  foldl (fun s e => stream_on_event e s) stream_init es.

Lemma observed_snoc es e : observed (es ++ [e]) = stream_on_event e (observed es).
Proof. unfold observed. by rewrite foldl_app. Qed.

(** What the stream knows after some events: the run of the first one and the
    largest number. *)
Lemma observed_spec es :
  ms_queue (observed es) = StreamEvent <$> es /\
  ms_terminal_observed (observed es) = existsb me_is_terminal es /\
  ms_run_id (observed es) = me_run_id <$> head es /\
  (es = [] -> ms_last_sequence (observed es) = None) /\
  (es <> [] -> exists n, ms_last_sequence (observed es) = Some n /\ Forall (fun e => me_sequence e <= n) es /\
     Exists (fun e => me_sequence e = n) es).
Proof.
  induction es as [|e es IH] using rev_ind; [done|]. rewrite observed_snoc. destruct IH as (Hq & Ht & Hr & Hn & Hs).
  split; [cbn; by rewrite Hq, fmap_app|]. split; [cbn; by rewrite Ht, existsb_app, orb_comm; cbn; rewrite orb_false_r|].
  split; [cbn; rewrite Hr; by destruct es|]. split; [by destruct es|]. intros _. cbn. eexists. split; [done|].
  destruct es as [|e0 es].
  - rewrite Hn by done. split; [by repeat constructor|by left].
  - destruct Hs as (n & -> & Hle & Hex); [done|]. split.
    + apply Forall_app. split; [eapply Forall_impl; [exact Hle|]; cbn; lia|repeat constructor; lia].
    + apply Exists_app. destruct (Z.max_spec n (me_sequence e)) as [[? ->]|[? ->]]; [right; by left|by left].
Qed.

Lemma opaque_terminal e : me_kind e = MultiAgentEventKind.RUN_FAILED -> me_is_terminal e = true.
Proof. intros H. unfold me_is_terminal. rewrite H. by apply bool_decide_true, (bool_decide_unpack _). Qed.

Section Client.
Context (request_id : pystr).
Abbreviation shows := (fun e f => _to_stream_event e request_id = Some f).

(** Only the last event may end the run. *)
Definition ends_last (es : list MultiAgentEvent) : Prop :=
  forall pre e post, es = pre ++ e :: post -> me_is_terminal e = true -> post = [].

Lemma shown_events es fs : Forall2 shows es fs -> existsb me_is_terminal es = false ->
  Forall2 (fun x f => react request_id x = Some (Go f)) (StreamEvent <$> es) (EventFrame <$> fs).
Proof.
  induction 1 as [|e f es fs He _ IH]; cbn [existsb fmap list_fmap]; intros Ht; [constructor|].
  apply orb_false_iff in Ht as [He' Ht]. constructor; [|by apply IH]. cbn [react]. by rewrite He; cbn; rewrite He'.
Qed.

(** The last event that [fail_unexpected] makes up *)
Definition is_failure_after (es : list MultiAgentEvent) (f : MultiAgentStreamEvent) : Prop :=
  sq_event f = u "run_failed" /\ sq_error_code f = Some (u "internal_error") /\
  sq_run_id f = me_run_id <$> head es /\ sq_request_id f = Some request_id /\
  exists n, sq_sequence f = Some n /\ Forall (fun e => me_sequence e < n) es.

(** The frames after the events, when the stream has closed. *)
Definition closing (failed : bool) (es : list MultiAgentEvent) (tail : list frame) : Prop :=
  if existsb me_is_terminal es || negb failed then tail = [] else
  match es with
  | [] => tail = [SetupErrorFrame request_id]
  | _ => exists f, tail = [EventFrame f] /\ is_failure_after es f
  end.

Lemma shown_bounds e f : _to_stream_event e request_id = Some f ->
  at_most 64 (Some (me_run_id e)) = true /\ at_most 128 (Some request_id) = true /\ 0 <= me_sequence e.
Proof.
  unfold _to_stream_event. set (f' := mkStreamEvent _ _ _ _ _ _ _ _ _ _ _ _ _ _ _ _ _ _ _ _).
  destruct (valid_stream_event f') eqn:E; [|discriminate]. intros _. unfold valid_stream_event in E.
  repeat (apply andb_true_iff in E as [E ?]). split; [done|]. split; [done|]. by apply Z.leb_le.
Qed.

Lemma failure_shows run_id n now : at_most 64 (Some run_id) = true -> at_most 128 (Some request_id) = true -> 0 <= n ->
  exists f, _to_stream_event (mkMultiAgentEvent run_id MultiAgentEventKind.RUN_FAILED n (u "supervisor") now None None
      None None None (Some (u "internal_error")) [] None None None [] None None None None) request_id = Some f /\
    sq_event f = u "run_failed" /\ sq_error_code f = Some (u "internal_error") /\ sq_run_id f = Some run_id /\
    sq_request_id f = Some request_id /\ sq_sequence f = Some n.
Proof.
  intros H1 H2 Hn. unfold _to_stream_event. cbn [me_run_id me_kind me_sequence me_occurred_at me_task_id me_agent_role
    me_duration_ms me_token_usage me_output_summary me_error_code me_subtasks me_reasoning me_final_output
    me_total_token_usage me_subtask_results me_agent_event_kind me_step_index me_tool_name me_call_id fmap list_fmap].
  set (f := mkStreamEvent _ _ _ _ _ _ _ _ _ _ _ _ _ _ _ _ _ _ _ _).
  assert (E : valid_stream_event f = true).
  { unfold valid_stream_event. subst f. cbn [sq_event sq_run_id sq_request_id sq_sequence sq_occurred_at sq_task_id
      sq_agent_role sq_duration_ms sq_token_usage sq_output_summary sq_error_code sq_reasoning sq_final_output
      sq_total_token_usage sq_agent_event_kind sq_step_index sq_tool_name sq_call_id].
    rewrite H1, H2. cbn [at_least_0]. rewrite (proj2 (Z.leb_le 0 n) Hn). vm_compute. reflexivity. }
  rewrite E. by exists f.
Qed.

Lemma terminal_last es : ends_last es -> existsb me_is_terminal es = true ->
  exists pre e, es = pre ++ [e] /\ existsb me_is_terminal pre = false /\ me_is_terminal e = true.
Proof.
  intros Hl Ht. apply existsb_exists in Ht as (e & Hin & He). apply list_elem_of_In, list_elem_of_split in Hin as (pre & post & ->).
  pose proof (Hl pre e post eq_refl He) as ->. exists pre, e. split; [done|]. split; [|done].
  destruct (existsb me_is_terminal pre) eqn:Ep; [|done]. exfalso.
  apply existsb_exists in Ep as (e' & Hin & He'). apply list_elem_of_In, list_elem_of_split in Hin as (p & q & ->).
  assert (Hq : q ++ [e] = []) by (apply (Hl p e' (q ++ [e])); [by rewrite <- app_assoc|exact He']).
  by destruct q.
Qed.

(** What the items of the stream show, without their timing. *)
Lemma stream_shows now failed es fs : Forall2 (fun e f => _to_stream_event e request_id = Some f) es fs -> ends_last es ->
  exists tail, closing failed es tail /\
    consume (react request_id) (ms_queue (produce_end now failed (observed es))) =
      Some (mkConsumed ((EventFrame <$> fs) ++ tail) false false).
Proof.
  intros Hfs Hl. destruct (observed_spec es) as (Hq & Ht & Hr & Hnone & Hsome).
  unfold closing, produce_end, fail_unexpected, fail_setup, close, put.
  destruct (existsb me_is_terminal es) eqn:E.
  - exists []. split; [done|]. destruct (terminal_last es Hl E) as (pre & e & -> & Hpre & He).
    apply Forall2_app_inv_l in Hfs as (fpre & flast & Hfpre & Hflast & ->).
    apply Forall2_cons_inv_l in Hflast as (f & fl & Hf & Hfl & ->). apply Forall2_nil_inv_l in Hfl as ->.
    assert (Hc : forall rest, consume (react request_id) ((StreamEvent <$> pre ++ [e]) ++ rest) =
      Some (mkConsumed ((EventFrame <$> fpre ++ [f]) ++ []) false false)).
    { intros rest. rewrite !fmap_app, <- app_assoc. rewrite (consume_go _ _ _ _ (shown_events _ _ Hfpre Hpre)).
      cbn [fmap list_fmap app consume react]. rewrite Hf. cbn [mbind option_bind]. rewrite He. cbn.
      by rewrite add_frames, app_nil_r. }
    destruct failed; [|rewrite Ht; rewrite Hq, <- (app_nil_r (StreamEvent <$> _)); apply Hc].
    rewrite Ht. cbn [ms_terminal_observed ms_queue]. rewrite Hq. apply Hc.
  - pose proof (fun rest => consume_go (react request_id) _ rest _ (shown_events _ _ Hfs E)) as Hgo.
    destruct failed; cbn [orb negb]; rewrite Ht.
    2:{ exists []. split; [done|]. cbn [ms_queue]. rewrite Hq, Hgo. cbn. by rewrite add_frames. }
    rewrite Hr. destruct es as [|e0 es].
    + exists [SetupErrorFrame request_id]. split; [done|]. apply Forall2_nil_inv_l in Hfs as ->. done.
    + destruct Hsome as (n & Hn & Hle & Hex); [done|]. rewrite Hn.
      assert (Hb : at_most 64 (Some (me_run_id e0)) = true /\ at_most 128 (Some request_id) = true).
      { apply Forall2_cons_inv_l in Hfs as (f0 & ? & Hf0 & _ & _). apply shown_bounds in Hf0 as (? & ? & _). done. }
      assert (Hpos : 0 <= n).
      { apply Exists_exists in Hex as (x & Hx & <-). apply list_elem_of_lookup in Hx as [i Hx].
        destruct (Forall2_lookup_l _ _ _ _ _ Hfs Hx) as (fx & _ & Hfx). by apply shown_bounds in Hfx as (_ & _ & ?). }
      destruct (failure_shows (me_run_id e0) (n + 1) now (proj1 Hb) (proj2 Hb) ltac:(lia))
        as (f & Hf & H1 & H2 & H3 & H4 & H5).
      exists [EventFrame f]. split.
      { exists f. split; [done|]. split; [done|]. split; [done|]. split; [done|]. split; [done|].
        exists (n + 1). split; [done|]. eapply Forall_impl; [exact Hle|]. cbn; intros; lia. }
      cbn [fmap option_fmap option_map head ms_terminal_observed ms_queue].
      rewrite Hq, <- app_assoc, Hgo. cbn [app consume react]. rewrite Hf. cbn [mbind option_bind].
      rewrite opaque_terminal by done. cbn. by rewrite add_frames.
Qed.

End Client.

Definition demo_event (k : event_kind) (n : Z) : MultiAgentEvent := with_sequence n (plain_event (u "run-1") (u "supervisor") k 7).
Definition demo_events := [demo_event MultiAgentEventKind.RUN_STARTED 1; demo_event MultiAgentEventKind.SUBTASKS_PLANNED 2].
Definition demo_rounds : list (round stream_item) :=
  mkRound false None :: ((fun x => mkRound false (Some x)) <$> ms_queue (produce_end 9 true (observed demo_events))).
Definition demo_shown : list MultiAgentStreamEvent := omap (fun e => _to_stream_event e (u "req")) demo_events.


(** ** Replay *)

Lemma dict_opt_str k d (o : option pystr) : dict_get k d = Some (opt_str o) -> str_field k d = o.
Proof. intros H. unfold str_field. rewrite H. by destruct o. Qed.
Lemma dict_opt_int k d (o : option Z) : dict_get k d = Some (opt_int o) -> int_field k d = o.
Proof. intros H. unfold int_field. rewrite H. by destruct o. Qed.

Lemma texts_of_texts l : texts_of (Some (JArr (JStr <$> l))) = l.
Proof. unfold texts_of. cbn [items_of]. induction l as [|s l IH]; [done|]. cbn in *. by rewrite IH. Qed.

Lemma summary_back s : summary_from (summary_to_dict s) = Some s.
Proof.
  destruct s as [i role agent descr deps]. unfold summary_from, summary_to_dict.
  cbn [ss_id ss_agent_role ss_agent_id ss_description ss_depends_on].
  rewrite (dict_opt_str (u "id") _ (Some i)), (dict_opt_str (u "agent_role") _ (Some role)),
    (dict_opt_str (u "agent_id") _ agent), (dict_opt_str (u "description") _ (Some descr)) by reflexivity.
  cbn [mbind option_bind default from_option id]. do 2 f_equal. exact (texts_of_texts deps).
Qed.

Lemma result_back r : result_from (result_to_dict r) = Some r.
Proof.
  destruct r as [i status role out code tokens ms]. unfold result_from, result_to_dict.
  cbn [rs_task_id rs_status rs_agent_role rs_output rs_error_code rs_token_usage rs_duration_ms].
  by rewrite (dict_opt_str (u "task_id") _ (Some i)), (dict_opt_str (u "status") _ (Some status)),
    (dict_opt_str (u "agent_role") _ (Some role)), (dict_opt_str (u "output") _ (Some out)),
    (dict_opt_str (u "error_code") _ code), (dict_opt_int (u "token_usage") _ (Some tokens)),
    (dict_opt_int (u "duration_ms") _ ms) by reflexivity.
Qed.

Lemma omap_back {A} (to : A -> json) (from : json -> option A) (l : list A) : (forall a, from (to a) = Some a) ->
  omap from (to <$> l) = l.
Proof. intros H. induction l as [|a l IH]; [done|]. cbn. by rewrite H, IH. Qed.

(** A stored event is read back as it was, except for the source of its run. *)
Lemma stored_event_back isoformat e :
  _event_from_row (MultiRecords.mkEventRow e (to_public_dict isoformat e)) =
  mkMultiAgentEvent (me_run_id e) (me_kind e) (me_sequence e) (u "supervisor") (me_occurred_at e) (me_task_id e)
    (me_agent_role e) (me_duration_ms e) (me_token_usage e) (me_output_summary e) (me_error_code e) (me_subtasks e)
    (me_reasoning e) (me_final_output e) (me_total_token_usage e) (me_subtask_results e) (me_agent_event_kind e)
    (me_step_index e) (me_tool_name e) (me_call_id e).
Proof.
  unfold _event_from_row. cbn [MultiRecords.er_event MultiRecords.er_payload]. cbv zeta.
  assert (H : dict_get (u "subtasks") (to_public_dict isoformat e) = Some (JArr (summary_to_dict <$> me_subtasks e)) /\
    dict_get (u "subtask_results") (to_public_dict isoformat e) = Some (JArr (result_to_dict <$> me_subtask_results e)))
    by (split; reflexivity).
  destruct H as [-> ->]. cbn [items_of].
  by rewrite (omap_back _ _ _ summary_back), (omap_back _ _ _ result_back).
Qed.

Lemma saved_rows isoformat es rows :
  foldl (fun rows e => MultiRecords.save_event isoformat e rows) rows es =
  rows ++ ((fun e => MultiRecords.mkEventRow e (to_public_dict isoformat e)) <$> es).
Proof.
  revert rows. induction es as [|e es IH]; intros rows; [by rewrite app_nil_r|]. cbn [foldl]. rewrite IH.
  unfold MultiRecords.save_event. by rewrite <- app_assoc.
Qed.


Definition demo_table : list MultiRecords.MultiAgentRunRecordTable :=
  [MultiRecords.mkRow (u "run-1") (u "req") (u "hash") (u "name") (Some (u "ws1")) (u "completed") (u "completed") (Some 5)
     (Some 6) (Some 1) (Some 3) JNull (Some 6)].

