(* ===== verification/Providers.v ===== *)
(** * Providers: [app/providers/openai.py], [ollama.py] and [mock.py]

    The three implementations of [LLMProvider] that [ChatService] runs over.  The
    HTTP client is an argument: what a request or a stream comes to, for each
    state of the network.  [refuses] says for which status
    [response.raise_for_status] raises, [instant] is the text of a timestamp in
    seconds ([None] where [datetime.fromtimestamp] raises) and [str_of] is [str]
    of a value that is no text. *)

From S2P Require Import Prelude Json JsonLoads ChatService.
Local Open Scope Z_scope.

Abbreviation dict := (list (pystr * json)).

(** ** HTTP *)

(** A response whose body is read: its status and its JSON, if it is JSON. *)
Record http_response := mkResponse { rs_status : Z; rs_json : option json }.

(** A streamed response: its lines, and whether reading on raises. *)
Record http_stream := mkStream { hs_response : http_response; hs_lines : list pystr; hs_broken : bool }.

Record http_client (W : Type) := mkClient {
  http_request : pystr -> pystr -> option dict -> W -> option http_response * W;
  http_open : pystr -> pystr -> dict -> W -> option http_stream * W
}.
Arguments mkClient {W}.
Arguments http_request {W}.
Arguments http_open {W}.

Definition is_number (v : json) : bool := match v with JInt _ | JFloat _ => true | _ => false end.
Definition not_empty {A} (l : list A) : bool := match l with [] => false | _ => true end.
(** [set(data).issubset(allowed)] *)
Definition keys_within (allowed : list pystr) (data : dict) : bool := forallb (fun k => bool_decide (k ∈ allowed)) data.*1.

(** ** [OpenAIProvider] *)

Module OpenAI.
Inductive error :=
| OpenAIProviderError (message : pystr)
| OpenAIUnavailableError
| OpenAIModelNotFoundError
| OpenAIRequestError (status : Z).

Definition message_of (e : error) : pystr :=
  match e with
  | OpenAIProviderError m => m
  | OpenAIUnavailableError => u "Unable to reach the OpenAI API."
  | OpenAIModelNotFoundError => u "OpenAI model was not found (status 404)."
  | OpenAIRequestError n => u "OpenAI request failed with status " ++ str_of_Z n ++ u "."
  end.

Inductive operation := Chat | Models.

Definition bad_payload := OpenAIProviderError (u "OpenAI received an invalid chat payload.").
Definition bad_chat := OpenAIProviderError (u "OpenAI returned an unexpected chat response shape.").
Definition bad_stream := OpenAIProviderError (u "OpenAI returned an unexpected streaming response shape.").
Definition bad_finish := OpenAIProviderError (u "OpenAI returned an invalid streaming finish_reason.").
Definition bad_text := OpenAIProviderError (u "OpenAI response did not contain supported text content or refusal.").
Definition empty_text := OpenAIProviderError (u "OpenAI response contained empty text.").
Definition bad_usage := OpenAIProviderError (u "OpenAI returned invalid usage.").
Definition bad_stream_usage := OpenAIProviderError (u "OpenAI returned invalid streaming usage.").
Definition after_terminal := OpenAIProviderError (u "OpenAI stream returned an event after terminal chunk.").
Definition no_terminal := OpenAIProviderError (u "OpenAI stream ended without a terminal chunk.").

Definition _build_chat_payload (default_model : pystr) (payload : dict) (stream : bool) : result error dict :=
  match default (JStr default_model) (dict_get (u "model") payload), field (u "messages") payload with
  | JStr model, JArr messages =>
      Ok ([(u "model", JStr model); (u "messages", JArr messages); (u "stream", JBool stream)]
          ++ (if stream then [(u "stream_options", JObj [(u "include_usage", JBool true)])] else [])
          ++ match field (u "options") payload with
             | JObj options =>
                 (if is_number (field (u "temperature") options)
                  then [(u "temperature", field (u "temperature") options)] else [])
                 ++ match field (u "num_predict") options with
                    | JInt n => [(u "max_completion_tokens", JInt n)]
                    | _ => []
                    end
             | _ => []
             end)
  | _, _ => Err bad_payload
  end.

(** *** Texts and usage *)

Definition _extract_text (data : dict) (allow_empty : bool) : result error pystr :=
  let accept s := if negb allow_empty && negb (not_empty s) then Err empty_text else Ok s in
  match dict_get (u "content") data with
  | None =>
      if bool_decide (is_Some (dict_get (u "refusal") data))
      then Err (OpenAIProviderError (u "OpenAI response omitted content before refusal."))
      else if allow_empty && keys_within [u "role"] data then Ok [] else Err bad_text
  | Some JNull =>
      match field (u "refusal") data with
      | JNull => if allow_empty && keys_within [u "role"; u "content"; u "refusal"] data then Ok [] else Err bad_text
      | JStr s => accept s
      | _ => Err (OpenAIProviderError (u "OpenAI response contained an invalid refusal type."))
      end
  | Some (JStr s) => accept s
  | Some _ => Err (OpenAIProviderError (u "OpenAI response contained an invalid content type."))
  end.

(** One of the token counts of [_validate_usage] *)
Definition usage_count (e : error) (require_all : bool) (usage : dict) (key : pystr) : result error (option Z) :=
  match dict_get key usage with
  | None => if require_all then Err e else Ok None
  | Some (JInt z) => if z <? 0 then Err e else Ok (Some z)
  | Some _ => Err e
  end.

(** [_validate_usage]; no caller reads the total. *)
Definition _validate_usage (e : error) (require_all : bool) (usage : json) : result error (option Z * option Z) :=
  match usage with
  | JObj d =>
      p ← usage_count e require_all d (u "prompt_tokens");
      c ← usage_count e require_all d (u "completion_tokens");
      _ ← usage_count e require_all d (u "total_tokens");
      Ok (p, c)
  | _ => Err e
  end.

Definition _extract_usage (data : dict) : result error (option Z * option Z) :=
  match field (u "usage") data with
  | JNull => Ok (None, None)
  | v => _validate_usage bad_usage false v
  end.

(** [None]: the event is no event of usage only. *)
Definition _extract_usage_only_event (data : dict) : result error (option (option Z * option Z)) :=
  match dict_get (u "choices") data with
  | Some (JArr []) => Some <$> _validate_usage bad_stream_usage true (field (u "usage") data)
  | _ => Ok None
  end.

Section OpenAI.
Context (refuses : Z -> bool) (instant : Z -> option pystr).

Definition _format_created_at (created : Z) : result error pystr :=
  match instant created with
  | Some t => Ok t
  | None => Err (OpenAIProviderError (u "OpenAI returned an invalid created timestamp."))
  end.

(** *** Errors of a response *)

Definition _extract_error_code (r : http_response) : option pystr :=
  match rs_json r with
  | Some (JObj data) => match field (u "error") data with JObj e => text_of (field (u "code") e) | _ => None end
  | _ => None
  end.

Definition _raise_for_status (r : http_response) (op : operation) : result error unit :=
  if refuses (rs_status r) then
    match op with
    | Chat => if (rs_status r =? 404) && bool_decide (_extract_error_code r = Some (u "model_not_found"))
              then Err OpenAIModelNotFoundError else Err (OpenAIRequestError (rs_status r))
    | Models => Err (OpenAIRequestError (rs_status r))
    end
  else Ok tt.

(** *** Responses *)

Definition message_json (role content : pystr) : json := JObj [(u "role", JStr role); (u "content", JStr content)].
Definition count_entry (key : pystr) (n : option Z) : dict := match n with Some z => [(key, JInt z)] | None => [] end.

Definition _translate_chat_response (data : dict) : result error dict :=
  match field (u "model") data, field (u "created") data, field (u "choices") data with
  | JStr model, JInt created, JArr (JObj choice :: _) =>
      match field (u "message") choice with
      | JObj message =>
          match field (u "role") message, field (u "finish_reason") choice with
          | JStr role, ((JNull | JStr _) as finish_reason) =>
              content ← _extract_text message false;
              '(prompt, completion) ← _extract_usage data;
              created_at ← _format_created_at created;
              Ok ([(u "model", JStr model); (u "created_at", JStr created_at); (u "message", message_json role content);
                   (u "done", JBool true); (u "done_reason", finish_reason)]
                  ++ count_entry (u "prompt_eval_count") prompt ++ count_entry (u "eval_count") completion)
          | _, _ => Err bad_chat
          end
      | _ => Err bad_chat
      end
  | _, _, _ => Err bad_chat
  end.

(** A chunk, and whether it is terminal *)
Definition _translate_stream_event (data : dict) : result error (dict * bool) :=
  match field (u "model") data, field (u "created") data, field (u "choices") data with
  | JStr model, JInt created, JArr (JObj choice :: _) =>
      match field (u "delta") choice with
      | JObj delta =>
          finish ← match field (u "finish_reason") choice with
                   | JNull => Ok None
                   | JStr ((_ :: _) as s) => Ok (Some s)
                   | _ => Err bad_finish
                   end;
          role ← match field (u "role") delta with
                 | JNull => Ok (u "assistant")
                 | JStr r => Ok r
                 | _ => Err bad_stream
                 end;
          content ← _extract_text delta true;
          created_at ← _format_created_at created;
          let chunk := [(u "model", JStr model); (u "created_at", JStr created_at);
                        (u "message", message_json role content)] in
          Ok match finish with
             | None => (chunk ++ [(u "done", JBool false)], false)
             | Some s => (chunk ++ [(u "done", JBool true); (u "done_reason", JStr s)], true)
             end
      | _ => Err bad_stream
      end
  | _, _, _ => Err bad_stream
  end.

(** *** The stream *)

Record stream_state := mkState { ss_usage : option Z * option Z; ss_terminal : option dict }.
Definition state0 : stream_state := mkState (None, None) None.

(** What a line comes to: it is skipped, ends the stream, or goes on, with a
    chunk or without. *)
Inductive line_result := LineSkipped | LineDone | LineGoes (chunk : option dict) (s : stream_state).

Definition merge_count (new old : option Z) : option Z := match new with Some n => Some n | None => old end.

(** An event that is JSON *)
Definition read_event (s : stream_state) (event : json) : result error line_result :=
  match event with
  | JObj data =>
      usage_only ← _extract_usage_only_event data;
      match usage_only, ss_terminal s with
      | Some usage, Some t => Ok (LineGoes None (mkState usage (Some t)))
      | Some _, None => Err (OpenAIProviderError (u "OpenAI stream returned usage before terminal chunk."))
      | None, Some _ => Err after_terminal
      | None, None =>
          usage ← _extract_usage data;
          '(chunk, done) ← _translate_stream_event data;
          let usage := (merge_count (fst usage) (fst (ss_usage s)), merge_count (snd usage) (snd (ss_usage s))) in
          Ok (if (done : bool) then LineGoes None (mkState usage (Some chunk)) else LineGoes (Some chunk) (mkState usage None))
      end
  | _ => Err bad_stream
  end.

Definition data_prefix : pystr := u "data:".

Definition read_line (s : stream_state) (line : pystr) : result error line_result :=
  let stripped := strip line in
  if negb (not_empty stripped) || starts_with (u ":") stripped || starts_with (u "event:") stripped then Ok LineSkipped
  else if negb (starts_with data_prefix stripped) then Ok LineSkipped
  else
    let event_data := strip (drop (length data_prefix) stripped) in
    if decide (event_data = u "[DONE]") then Ok LineDone else
    match loads event_data with
    | Some event => read_event s event
    | None => match ss_terminal s with Some _ => Err after_terminal | None => Ok LineSkipped end
    end.

(** The end of the lines: the terminal chunk with the token counts. *)
Definition end_of_stream (s : stream_state) : result error dict :=
  match ss_terminal s with
  | None => Err no_terminal
  | Some t => Ok (t ++ count_entry (u "prompt_eval_count") (fst (ss_usage s)) ++ count_entry (u "eval_count") (snd (ss_usage s)))
  end.

(** The chunks that are yielded, and the error that ends the stream, if any. *)
Fixpoint stream_lines (broken : bool) (lines : list pystr) (s : stream_state) : list dict * option error :=
  let finish := match end_of_stream s with Ok t => ([t], None) | Err e => ([], Some e) end in
  match lines with
  | [] => if broken then ([], Some OpenAIUnavailableError) else finish
  | line :: lines =>
      match read_line s line with
      | Err e => ([], Some e)
      | Ok LineDone => finish
      | Ok LineSkipped => stream_lines broken lines s
      | Ok (LineGoes None s) => stream_lines broken lines s
      | Ok (LineGoes (Some c) s) => let '(cs, e) := stream_lines broken lines s in (c :: cs, e)
      end
  end.

(** *** Operations *)

Section Client.
Context {W : Type} (client : http_client W) (default_model : pystr).

Definition _request_json (method path : pystr) (payload : option dict) (op : operation) (w : W) : result error dict * W :=
  match http_request client method path payload w with
  | (None, w) => (Err OpenAIUnavailableError, w)
  | (Some r, w) =>
      (_ ← _raise_for_status r op;
       match rs_json r with
       | Some (JObj data) => Ok data
       | Some _ => Err (OpenAIProviderError (u "OpenAI returned an unexpected response shape."))
       | None => Err (OpenAIProviderError (u "OpenAI returned invalid JSON."))
       end, w)
  end.

Definition chat (payload : dict) (w : W) : result error dict * W :=
  match _build_chat_payload default_model payload false with
  | Err e => (Err e, w)
  | Ok request =>
      let '(data, w) := _request_json (u "POST") (u "chat/completions") (Some request) Chat w in
      (data ≫= _translate_chat_response, w)
  end.

Definition chat_stream (payload : dict) (w : W) : list dict * option error * W :=
  match _build_chat_payload default_model payload true with
  | Err e => ([], Some e, w)
  | Ok request =>
      match http_open client (u "POST") (u "chat/completions") request w with
      | (None, w) => ([], Some OpenAIUnavailableError, w)
      | (Some h, w) =>
          match _raise_for_status (hs_response h) Chat with
          | Err e => ([], Some e, w)
          | Ok _ => (stream_lines (hs_broken h) (hs_lines h) state0, w)
          end
      end
  end.

Definition model_entry (v : json) : option json :=
  match v with
  | JObj entry => match field (u "id") entry with JStr i => Some (JObj [(u "name", JStr i)]) | _ => None end
  | _ => None
  end.
Definition list_models (w : W) : result error dict * W :=
  let '(data, w) := _request_json (u "GET") (u "models") None Models w in
  (data ← data;
   match field (u "data") data with
   | JArr entries => Ok [(u "models", JArr (omap model_entry entries))]
   | _ => Err (OpenAIProviderError (u "OpenAI returned an unexpected models response shape."))
   end, w).

Definition raised {A} (r : result error A) : result chat_error A :=
  match r with Ok a => Ok a | Err e => Err (ProviderRaised (message_of e)) end.

(** [OpenAIProvider] as an [LLMProvider] *)
Definition OpenAIProvider : LLMProvider W :=
  mkProvider default_model
    (fun payload w => let '(r, w) := chat payload w in (raised r, w))
    (fun payload w =>
       let '(chunks, e, w) := chat_stream payload w in
       (chunks, match e with None => StreamStopped | Some e => StreamRaised (ProviderRaised (message_of e)) end, w))
    (fun w => let '(r, w) := list_models w in (raised r, w)).
End Client.
End OpenAI.
End OpenAI.

(** ** [OllamaProvider] *)

Module Ollama.
Inductive error := OllamaServiceError (message : pystr) | OllamaModelNotFoundError (message : pystr).
Definition message_of (e : error) : pystr :=
  match e with OllamaServiceError m => m | OllamaModelNotFoundError m => m end.

Section Ollama.
Context (refuses : Z -> bool) (base_url : pystr).

Definition unreachable : error :=
  OllamaServiceError (u "Unable to reach Ollama at " ++ base_url ++ u ". Check that the Ollama service is running.").

(** What [_request] makes of a response *)
Definition read_response (r : http_response) : result error dict :=
  match rs_json r with
  | None => Err (OllamaServiceError (u "Ollama returned invalid JSON."))
  | Some (JObj data) =>
      if rs_status r =? 404 then
        Err (OllamaModelNotFoundError
               (default (u "Requested Ollama model was not found.") (text_of (field (u "error") data))))
      else if refuses (rs_status r) then
        Err (OllamaServiceError
               (default (u "Ollama request failed with status " ++ str_of_Z (rs_status r) ++ u ".")
                  (text_of (field (u "error") data))))
      else Ok data
  | Some _ => Err (OllamaServiceError (u "Ollama returned an unexpected response shape."))
  end.

Section Client.
Context {W : Type} (client : http_client W) (default_model : pystr).

Definition _request (method path : pystr) (payload : option dict) (w : W) : result error dict * W :=
  match http_request client method path payload w with
  | (None, w) => (Err unreachable, w)
  | (Some r, w) => (read_response r, w)
  end.

Definition chat (payload : dict) : W -> result error dict * W := _request (u "POST") (u "/api/chat") (Some payload).
Definition list_models : W -> result error dict * W := _request (u "GET") (u "/api/tags") None.

(** The objects among the lines; blank lines, other JSON and other text are skipped. *)
Definition line_object (line : pystr) : option dict :=
  if negb (not_empty (strip line)) then None
  else match loads line with Some (JObj data) => Some data | _ => None end.

Definition chat_stream (payload : dict) (w : W) : list dict * option error * W :=
  match http_open client (u "POST") (u "/api/chat") (dict_set (u "stream") (JBool true) payload) w with
  | (None, w) => ([], Some unreachable, w)
  | (Some h, w) =>
      let status := rs_status (hs_response h) in
      if refuses status
      then ([], Some (OllamaServiceError (u "Ollama streaming request failed with status " ++ str_of_Z status ++ u ".")), w)
      else (omap line_object (hs_lines h), if hs_broken h then Some unreachable else None, w)
  end.

Definition raised {A} (r : result error A) : result chat_error A :=
  match r with Ok a => Ok a | Err e => Err (ProviderRaised (message_of e)) end.

Definition OllamaProvider : LLMProvider W :=
  mkProvider default_model
    (fun payload w => let '(r, w) := chat payload w in (raised r, w))
    (fun payload w =>
       let '(chunks, e, w) := chat_stream payload w in
       (chunks, match e with None => StreamStopped | Some e => StreamRaised (ProviderRaised (message_of e)) end, w))
    (fun w => let '(r, w) := list_models w in (raised r, w)).
End Client.
End Ollama.
End Ollama.

(** ** [MockProvider] *)

Module Mock.
Definition _AGENT_PROTOCOL_MARKER : pystr := u "decision model".
Definition _MOCK_FINAL_ANSWER : pystr := u "这是 Mock Provider 的最终回答。".
Definition _MOCK_CHAT_TEXT : pystr := u "Hello from Mock Provider".
Definition mock_time : pystr := u "2026-08-02T00:00:00Z".

(** [marker in text] *)
Fixpoint contains (marker text : pystr) : bool :=
  starts_with marker text || match text with [] => false | _ :: text => contains marker text end.

Section Mock.
Context (str_of : json -> pystr) (default_model : pystr).

Definition content_text (v : json) : pystr := match v with JStr s => s | v => str_of v end.

Definition is_protocol_message (v : json) : bool :=
  match v with
  | JObj message =>
      bool_decide (field (u "role") message = JStr (u "system"))
      && contains _AGENT_PROTOCOL_MARKER (content_text (default (JStr []) (dict_get (u "content") message)))
  | _ => false
  end.

Definition _is_agent_decision (payload : dict) : bool :=
  match dict_get (u "messages") payload with
  | Some (JArr messages) => existsb is_protocol_message messages
  | _ => false
  end.

Definition model_of (payload : dict) : json := default (JStr default_model) (dict_get (u "model") payload).
Definition mock_counts : dict := [(u "prompt_eval_count", JInt 10); (u "eval_count", JInt 5)].
Definition mock_message (content : pystr) : json :=
  JObj [(u "role", JStr (u "assistant")); (u "content", JStr content)].

Definition quote : pystr := [34]%N.
Definition final_answer_json : pystr :=
  u "{" ++ quote ++ u "type" ++ quote ++ u ":" ++ quote ++ u "final_answer" ++ quote ++ u "," ++ quote ++ u "answer"
  ++ quote ++ u ":" ++ quote ++ _MOCK_FINAL_ANSWER ++ quote ++ u "}".

Definition chat (payload : dict) : dict :=
  let content := if _is_agent_decision payload then final_answer_json else _MOCK_CHAT_TEXT in
  [(u "model", model_of payload); (u "created_at", JStr mock_time); (u "message", mock_message content);
   (u "done", JBool true); (u "done_reason", JStr (u "stop"))] ++ mock_counts.

Definition chat_stream (payload : dict) : list dict :=
  let tokens := if _is_agent_decision payload then [_MOCK_FINAL_ANSWER]
                else [u "Hello "; u "from "; u "Mock "; u "Provider"] in
  let chunk token done := [(u "model", model_of payload); (u "created_at", JStr mock_time);
                           (u "message", mock_message token); (u "done", JBool done)] in
  ((fun token => chunk token false) <$> tokens)
  ++ [chunk [] true ++ [(u "done_reason", JStr (u "stop"))] ++ mock_counts].

Definition list_models : dict :=
  [(u "models", JArr [JObj [(u "name", JStr default_model); (u "model", JStr default_model);
                            (u "modified_at", JStr mock_time); (u "size", JInt 0); (u "digest", JStr (u "mock"));
                            (u "details", JObj [(u "parameter_size", JStr (u "0B"))])]])].

Definition MockProvider {W} : LLMProvider W :=
  mkProvider default_model (fun payload w => (Ok (chat payload), w))
    (fun payload w => (chat_stream payload, StreamStopped, w)) (fun w => (Ok list_models, w)).
End Mock.
End Mock.
