(* ===== verification/ProvidersProps.v ===== *)
(** * Properties of the providers

    Whatever the network does, a stream of the OpenAI provider keeps the protocol
    that the chat service relies on; a stream of events is delivered text by text;
    an answer is one that the chat service accepts; and the mock provider answers
    in the protocol of the agents. *)

From S2P Require Import Prelude Json JsonLoads AgentRuntime AgentModel ChatService Providers.
From stdpp Require Import base list.
Local Open Scope Z_scope.
#[local] Opaque u.

Section OpenAIProps.
Import OpenAI.
Context (refuses : Z -> bool) (instant : Z -> option pystr).
Abbreviation lines_of := (stream_lines instant).

Lemma opened {A B E} (r : result E A) (f : A -> result E B) b : r ≫= f = Ok b -> exists a, r = Ok a /\ f a = Ok b.
Proof. destruct r; [|discriminate]. by eexists. Qed.

(** ** The shape of a chunk *)

Definition chunk_head (model at_ role content : pystr) : dict :=
  [(u "model", JStr model); (u "created_at", JStr at_); (u "message", OpenAI.message_json role content)].

Lemma translated_shape data c done : _translate_stream_event instant data = Ok (c, done) ->
  exists model at_ role content, 
    (done = false /\ c = chunk_head model at_ role content ++ [(u "done", JBool false)]) \/
    (done = true /\ exists s, s <> [] /\
       c = chunk_head model at_ role content ++ [(u "done", JBool true); (u "done_reason", JStr s)]).
Proof.
  unfold _translate_stream_event.
  destruct (field (u "model") data) as [| | | |model| |]; try discriminate.
  destruct (field (u "created") data) as [| |created| | | |]; try discriminate.
  destruct (field (u "choices") data) as [| | | | |[|[| | | | | |choice] rest]|]; try discriminate.
  destruct (field (u "delta") choice) as [| | | | | |delta]; try discriminate.
  intros (finish & Hf & (role & Hr & (content & Hc & (at_ & Ha & Hx)%opened)%opened)%opened)%opened.
  exists model, at_, role, content. destruct finish as [s|]; injection Hx as <- <-; [right|by left].
  split; [done|]. exists s. split; [|done].
  destruct (field (u "finish_reason") choice) as [| | | |[]| |]; try discriminate. by injection Hf as <-.
Qed.

(** What the chat service reads of a chunk *)
Lemma parse_open_chunk model at_ role content :
  _parse_stream_chunk (chunk_head model at_ role content ++ [(u "done", JBool false)]) =
  Some (mkResult model (Some at_) (if decide (role ∈ _VALID_ROLES) then role else u "assistant") content false None None None).
Proof. reflexivity. Qed.

Lemma parse_last_chunk model at_ role content s p c :
  _parse_stream_chunk ((chunk_head model at_ role content ++ [(u "done", JBool true); (u "done_reason", JStr s)])
    ++ count_entry (u "prompt_eval_count") p ++ count_entry (u "eval_count") c) =
  Some (mkResult model (Some at_) (if decide (role ∈ _VALID_ROLES) then role else u "assistant") content true (Some s) p c).
Proof. destruct p, c; reflexivity. Qed.

(** ** Token counts *)

Definition count_ok (n : option Z) : Prop := forall z, n = Some z -> 0 <= z.
Definition counts_ok (n : option Z * option Z) : Prop := count_ok (fst n) /\ count_ok (snd n).

Lemma usage_count_ok e all usage key n : usage_count e all usage key = Ok n -> count_ok n.
Proof.
  unfold usage_count. destruct (dict_get key usage) as [[]|]; try discriminate.
  - destruct (_ <? _) eqn:E; [discriminate|]. intros [= <-] y [= <-]. by apply Z.ltb_ge.
  - destruct all; [discriminate|]. by intros [= <-].
Qed.

Lemma validate_usage_ok e all usage n : _validate_usage e all usage = Ok n -> counts_ok n.
Proof.
  unfold _validate_usage. destruct usage; try discriminate.
  intros (p & Hp & (c & Hc & (t & _ & [= <-])%opened)%opened)%opened. split; by eapply usage_count_ok.
Qed.

Lemma extract_usage_ok data n : _extract_usage data = Ok n -> counts_ok n.
Proof.
  unfold _extract_usage. destruct (field (u "usage") data); try (by intros ?%validate_usage_ok). by intros [= <-].
Qed.

(** ** The stream *)

(** A stream state in which reading goes on *)
Definition state_ok (s : stream_state) : Prop :=
  counts_ok (ss_usage s) /\
  forall t, ss_terminal s = Some t -> exists model at_ role content why, why <> [] /\
    t = chunk_head model at_ role content ++ [(u "done", JBool true); (u "done_reason", JStr why)].

(** A chunk that is not the last one, and the last one *)
Definition open_chunk (c : dict) : Prop :=
  exists r, _parse_stream_chunk c = Some r /\ pcr_done r = false /\ pcr_prompt_tokens r = None /\ pcr_completion_tokens r = None.
Definition last_chunk (c : dict) : Prop :=
  exists r why, _parse_stream_chunk c = Some r /\ pcr_done r = true /\ pcr_done_reason r = Some why /\ why <> [] /\
    count_ok (pcr_prompt_tokens r) /\ count_ok (pcr_completion_tokens r).

Lemma merge_ok new old : count_ok new -> count_ok old -> count_ok (merge_count new old).
Proof. by destruct new. Qed.

Definition line_ok (x : line_result) : Prop :=
  match x with
  | LineGoes None s => state_ok s
  | LineGoes (Some c) s => state_ok s /\ open_chunk c
  | _ => True
  end.

Lemma read_event_ok s event x : state_ok s -> read_event instant s event = Ok x -> line_ok x.
Proof.
  intros [Hu Ht]. unfold read_event. destruct event as [| | | | | |data]; try discriminate.
  intros (only & Honly & Hx)%opened. destruct only as [usage|].
  - destruct (ss_terminal s) as [t|]; [|discriminate]. injection Hx as <-. split; [|exact Ht].
    unfold _extract_usage_only_event in Honly. destruct (dict_get _ data) as [[| | | | |[]|]|]; try discriminate.
    destruct (_validate_usage _ _ _) as [n|] eqn:En; [|discriminate]. injection Honly as <-. by apply validate_usage_ok in En.
  - destruct (ss_terminal s) as [t|]; [discriminate|].
    apply opened in Hx as (usage & Hus & Hx). apply opened in Hx as ([c done] & Hc & [= <-]).
    apply extract_usage_ok in Hus.
    assert (Hm : counts_ok (merge_count usage.1 (ss_usage s).1, merge_count usage.2 (ss_usage s).2))
      by (split; apply merge_ok; firstorder).
    apply translated_shape in Hc as (model & at_ & role & content & [[-> ->]|[-> (why & Hwhy & ->)]]).
    + split; [by split|]. eexists. split; [apply parse_open_chunk|done].
    + split; [exact Hm|]. intros t [= <-]. by exists model, at_, role, content, why.
Qed.

Lemma read_line_ok s line x : state_ok s -> read_line instant s line = Ok x -> line_ok x.
Proof.
  intros Hs. unfold read_line. destruct (_ || _ || _); [by intros [= <-]|]. destruct (negb _); [by intros [= <-]|].
  destruct (decide _); [by intros [= <-]|]. destruct (loads _) as [event|]; [by apply read_event_ok|].
  destruct (ss_terminal s); [discriminate|by intros [= <-]].
Qed.

Lemma end_ok s t : state_ok s -> end_of_stream s = Ok t -> last_chunk t.
Proof.
  intros [[Hp Hc] Ht]. unfold end_of_stream. destruct (ss_terminal s) as [c|]; [|discriminate].
  destruct (Ht c eq_refl) as (model & at_ & role & content & why & Hwhy & ->). intros [= <-].
  do 2 eexists. split; [apply parse_last_chunk|done].
Qed.

(** The chunks of a stream: open ones, and exactly when nothing is raised one
    that is the last. *)
Definition protocol (chunks : list dict) (e : option error) : Prop :=
  match e with
  | Some _ => Forall open_chunk chunks
  | None => exists cs t, chunks = cs ++ [t] /\ Forall open_chunk cs /\ last_chunk t
  end.

Lemma protocol_cons c cs e : open_chunk c -> protocol cs e -> protocol (c :: cs) e.
Proof.
  intros Hc. unfold protocol. destruct e; [by constructor|]. intros (cs' & t & -> & Hcs & Ht).
  exists (c :: cs'), t. by repeat constructor.
Qed.

Lemma finish_protocol s : state_ok s ->
  let '(cs, e) := match end_of_stream s with Ok t => ([t], None) | Err e => ([], Some e) end in protocol cs e.
Proof.
  intros Hs. destruct (end_of_stream s) as [t|e] eqn:E; [|constructor]. exists [], t. split; [done|].
  split; [constructor|]. by eapply end_ok.
Qed.

Lemma lines_protocol broken lines s : state_ok s -> let '(cs, e) := lines_of broken lines s in protocol cs e.
Proof.
  revert s. induction lines as [|line lines IH]; intros s Hs; cbn [stream_lines].
  - destruct broken; [constructor|by apply finish_protocol].
  - destruct (read_line instant s line) as [x|e] eqn:E; [|constructor]. apply read_line_ok in E; [|done].
    destruct x as [| |[c|] s']; [by apply IH|by apply finish_protocol| |by apply IH].
    destruct E as [Hs' Hc]. specialize (IH s' Hs'). destruct (lines_of broken lines s') as [cs e].
    by apply protocol_cons.
Qed.

Lemma state0_ok : state_ok state0.
Proof. split; [by split|]. discriminate. Qed.

(** C21. Whatever OpenAI answers and however the connection breaks, the stream of
    the provider keeps the protocol of the chat service: every chunk is one that
    the service reads (none is skipped), no chunk but the last says that it is
    done or carries token counts, the last one does say so, with a reason and
    counts that are not negative, and it is yielded exactly when the stream ends
    without raising. *)
Theorem openai_stream_keeps_protocol {W} (client : http_client W) default_model payload w :
  let '(chunks, e, _) := chat_stream refuses instant client default_model payload w in
  match e with
  | Some _ => Forall open_chunk chunks
  | None => exists cs t, chunks = cs ++ [t] /\ Forall open_chunk cs /\ last_chunk t
  end.
Proof.
  unfold chat_stream. destruct (_build_chat_payload _ _ _) as [request|]; [|constructor].
  destruct (http_open _ _ _ _ _) as [[h|] w']; [|constructor].
  destruct (_raise_for_status _ _ _); [|constructor].
  pose proof (lines_protocol (hs_broken h) (hs_lines h) state0 state0_ok) as H.
  destruct (stream_lines _ _ _ _) as [cs e]. exact H.
Qed.

(** ** Answers *)

Lemma text_not_empty data s : _extract_text data false = Ok s -> s <> [].
Proof.
  unfold _extract_text. cbn [negb andb].
  assert (H : forall s', (if negb (not_empty s') then Err empty_text else Ok s') = Ok s -> s <> [])
    by (intros [|x l]; cbn; [discriminate|by intros [= <-]]).
  destruct (dict_get (u "content") data) as [[]|]; try discriminate; try apply H.
  - destruct (field (u "refusal") data); try discriminate. apply H.
  - destruct (bool_decide _); discriminate.
Qed.

Lemma translated_answer data answer : _translate_chat_response instant data = Ok answer ->
  exists model at_ role content why p c, content <> [] /\ counts_ok (p, c) /\ (why = JNull \/ exists s, why = JStr s) /\
    answer = chunk_head model at_ role content ++ [(u "done", JBool true); (u "done_reason", why)]
             ++ count_entry (u "prompt_eval_count") p ++ count_entry (u "eval_count") c.
Proof.
  unfold _translate_chat_response.
  destruct (field (u "model") data) as [| | | |model| |]; try discriminate.
  destruct (field (u "created") data) as [| |created| | | |]; try discriminate.
  destruct (field (u "choices") data) as [| | | | |[|[| | | | | |choice] rest]|]; try discriminate.
  destruct (field (u "message") choice) as [| | | | | |message]; try discriminate.
  destruct (field (u "role") message) as [| | | |role| |]; try discriminate.
  destruct (field (u "finish_reason") choice) as [| | | |why| |]; try discriminate;
  intros (content & Hc & ([p c] & Hu & (at_ & _ & [= <-])%opened)%opened)%opened;
  apply text_not_empty in Hc; apply extract_usage_ok in Hu.
  - exists model, at_, role, content, JNull, p, c. do 2 (split; [done|]). split; [by left|done].
  - exists model, at_, role, content, (JStr why), p, c. do 2 (split; [done|]). split; [right; by eexists|done].
Qed.

Lemma parse_answer model at_ role content why p c : why = JNull \/ (exists s, why = JStr s) ->
  _parse_chat_response (chunk_head model at_ role content ++ [(u "done", JBool true); (u "done_reason", why)]
    ++ count_entry (u "prompt_eval_count") p ++ count_entry (u "eval_count") c) =
  if decide (role ∈ _VALID_ROLES) then Ok (mkResult model (Some at_) role content true (text_of why) p c)
  else Err (OllamaServiceError (u "Ollama returned an invalid assistant message.")).
Proof. intros [->|[s ->]]; destruct p, c; reflexivity. Qed.

(** The chat service over OpenAI answers with a message that is never empty,
    says that it is done and has no negative counts; otherwise it raises an error
    of the provider, or refuses the role of the message: neither pydantic's
    [ValidationError] nor any other complaint about the provider's dictionary can
    arise. *)
Theorem openai_chat_answers {W} (client : http_client W) default_model r w :
  match fst (ChatService.chat (OpenAIProvider refuses instant client default_model) r w) with
  | Ok a => cm_content (resp_message a) <> [] /\ cm_role (resp_message a) ∈ _VALID_ROLES /\ resp_done a = true /\
            counts_ok (resp_prompt_tokens a, resp_completion_tokens a) /\ resp_thread_id a = req_thread_id r
  | Err (ProviderRaised _) => True
  | Err (OllamaServiceError m) => m = u "Ollama returned an invalid assistant message."
  | Err _ => False
  end.
Proof.
  unfold ChatService.chat. cbn [provider_chat ChatService.default_model OpenAIProvider]. set (payload := chat_payload _ _ _).
  destruct (chat refuses instant client default_model payload w) as [answer w'] eqn:E.
  destruct answer as [data|e]; [|done]. cbn [raised mbind result_bind fst].
  assert (Ht : exists d, _translate_chat_response instant d = Ok data).
  { unfold chat in E. destruct (_build_chat_payload _ _ _); [|discriminate].
    destruct (_request_json _ _ _ _ _ _ _) as [[d|] ?]; [|discriminate]. injection E as Ed _. by exists d. }
  destruct Ht as [d Hd].
  apply translated_answer in Hd as (model & at_ & role & content & why & p & c & Hne & Hcounts & Hwhy & ->).
  rewrite (parse_answer _ _ _ _ _ _ _ Hwhy). destruct (decide _) as [Hrole|]; [|reflexivity].
  cbn [mbind result_bind]. cbn [pcr_role pcr_content]. destruct content as [|x content]; [done|].
  cbn [make_message mbind result_bind resp_message cm_content cm_role resp_done resp_prompt_tokens resp_completion_tokens
       resp_thread_id pcr_done pcr_prompt_tokens pcr_completion_tokens]. done.
Qed.

(** ** A well-formed stream is delivered *)

(** What a line holds: nothing, the end mark, or an event. *)
Inductive sse := SseDone | SseEvent (v : json).

Definition noise (line : pystr) : Prop :=
  let s := strip line in s = [] \/ starts_with (u ":") s = true \/ starts_with (u "event:") s = true \/
    starts_with data_prefix s = false.
Definition holds (line : pystr) (x : sse) : Prop :=
  exists rest, strip line = data_prefix ++ rest /\
    match x with
    | SseDone => strip rest = u "[DONE]"
    | SseEvent v => strip rest <> u "[DONE]" /\ loads (strip rest) = Some v
    end.

(** The lines hold these, with any noise in between. *)
Inductive carries : list pystr -> list sse -> Prop :=
| carries_end rest : carries rest []
| carries_noise line lines xs : noise line -> carries lines xs -> carries (line :: lines) xs
| carries_line line lines x xs : holds line x -> carries lines xs -> carries (line :: lines) (x :: xs).

(** An event with the next piece of text, the event with the finish reason, and
    the event with the usage. *)
Definition has_delta (d delta : dict) (why : json) : Prop :=
  (exists model created choice rest, field (u "model") d = JStr model /\ field (u "created") d = JInt created /\
     is_Some (instant created) /\ field (u "choices") d = JArr (JObj choice :: rest) /\
     field (u "delta") choice = JObj delta /\ field (u "finish_reason") choice = why) /\
  field (u "usage") d = JNull.
Definition text_event (x : sse) (text : pystr) : Prop :=
  exists d delta, x = SseEvent (JObj d) /\ has_delta d delta JNull /\ dict_get (u "content") delta = Some (JStr text) /\
    (field (u "role") delta = JNull \/ field (u "role") delta = JStr (u "assistant")).
Definition finish_event (x : sse) (why : pystr) : Prop :=
  exists d, x = SseEvent (JObj d) /\ has_delta d [] (JStr why) /\ why <> [].
Definition usage_event (x : sse) (p c : Z) : Prop :=
  exists d usage, x = SseEvent (JObj d) /\ dict_get (u "choices") d = Some (JArr []) /\ field (u "usage") d = JObj usage /\
    dict_get (u "prompt_tokens") usage = Some (JInt p) /\ dict_get (u "completion_tokens") usage = Some (JInt c) /\
    dict_get (u "total_tokens") usage = Some (JInt (p + c)) /\ 0 <= p /\ 0 <= c.

Lemma read_noise s line : noise line -> read_line instant s line = Ok LineSkipped.
Proof.
  unfold noise, read_line. cbv zeta. generalize (strip line). intros t.
  destruct (negb (not_empty t) || starts_with (u ":") t || starts_with (u "event:") t) eqn:E; [done|].
  apply orb_false_iff in E as [E1 E3]. apply orb_false_iff in E1 as [E1 E2].
  intros [->|[H|[H|H]]]; [done|congruence|congruence|]. by rewrite H.
Qed.

Lemma read_held s line x : holds line x ->
  read_line instant s line = match x with SseDone => Ok LineDone | SseEvent v => read_event instant s v end.
Proof.
  intros (rest & Hs & Hx). unfold read_line. rewrite Hs.
  replace (negb (not_empty (data_prefix ++ rest)) || starts_with (u ":") (data_prefix ++ rest)
    || starts_with (u "event:") (data_prefix ++ rest)) with false by (vm_compute; done).
  rewrite starts_with_app. cbn [negb]. rewrite drop_app_length. destruct x as [|v].
  - by rewrite decide_True.
  - destruct Hx as [Hne ->]. by rewrite decide_False.
Qed.

Lemma field_some_key key d v : field key d = v -> v <> JNull -> dict_get key d = Some v.
Proof. unfold field. destruct (dict_get key d); cbn; congruence. Qed.

Lemma translated_delta d delta why : has_delta d delta why ->
  _extract_usage_only_event d = Ok None /\ _extract_usage d = Ok (None, None) /\
  exists model at_, forall text role finish, _extract_text delta true = Ok text ->
    (field (u "role") delta = JNull /\ role = u "assistant" \/ field (u "role") delta = JStr role) ->
    (why = JNull /\ finish = None \/ exists s, s <> [] /\ why = JStr s /\ finish = Some s) ->
    _translate_stream_event instant d = Ok
      match finish with
      | None => (chunk_head model at_ role text ++ [(u "done", JBool false)], false)
      | Some s => (chunk_head model at_ role text ++ [(u "done", JBool true); (u "done_reason", JStr s)], true)
      end.
Proof.
  intros [(model & created & choice & rest & Hm & Hc & [at_ Hat] & Hch & Hd & Hw) Hu]. split; [|split].
  - unfold _extract_usage_only_event. by rewrite (field_some_key _ _ _ Hch).
  - unfold _extract_usage. by rewrite Hu.
  - exists model, at_. intros text role finish Ht Hrole Hwhy. unfold _translate_stream_event.
    rewrite Hm, Hc, Hch, Hd, Hw, Ht. unfold _format_created_at. rewrite Hat.
    destruct Hwhy as [[-> ->]|(s & Hs & -> & ->)]; [|destruct s as [|x s]; [done|]];
    cbn [mbind result_bind]; destruct Hrole as [[-> ->]| ->]; reflexivity.
Qed.

Lemma read_text usage x text : text_event x text ->
  exists v c, x = SseEvent v /\ read_event instant (mkState usage None) v = Ok (LineGoes (Some c) (mkState usage None)) /\
    pcr_content <$> _parse_stream_chunk c = Some text.
Proof.
  intros (d & delta & -> & Hd & Hc & Hr). destruct (translated_delta _ _ _ Hd) as (H1 & H2 & model & at_ & H3).
  exists (JObj d), (chunk_head model at_ (u "assistant") text ++ [(u "done", JBool false)]). split; [done|].
  split; [|reflexivity]. unfold read_event. rewrite H1. cbn [mbind result_bind ss_terminal]. rewrite H2. cbn [mbind result_bind].
  rewrite (H3 text (u "assistant") None).
  - cbn [mbind result_bind ss_usage merge_count fst snd]. by destruct usage.
  - unfold _extract_text. by rewrite Hc.
  - destruct Hr as [->| ->]; auto.
  - by left.
Qed.

Lemma read_finish usage x why : finish_event x why ->
  exists v c, x = SseEvent v /\ read_event instant (mkState usage None) v = Ok (LineGoes None (mkState usage (Some c))) /\
    forall p n, _parse_stream_chunk (c ++ count_entry (u "prompt_eval_count") p ++ count_entry (u "eval_count") n) <> None /\
      forall r, _parse_stream_chunk (c ++ count_entry (u "prompt_eval_count") p ++ count_entry (u "eval_count") n) = Some r ->
        pcr_content r = [] /\ pcr_done r = true /\ pcr_done_reason r = Some why /\ pcr_prompt_tokens r = p /\
        pcr_completion_tokens r = n.
Proof.
  intros (d & -> & Hd & Hwhy). destruct (translated_delta _ _ _ Hd) as (H1 & H2 & model & at_ & H3).
  exists (JObj d), (chunk_head model at_ (u "assistant") [] ++ [(u "done", JBool true); (u "done_reason", JStr why)]).
  split; [done|]. split.
  - unfold read_event. rewrite H1. cbn [mbind result_bind ss_terminal]. rewrite H2. cbn [mbind result_bind].
    rewrite (H3 [] (u "assistant") (Some why)); [cbn; by destruct usage|reflexivity|by left|right; by exists why].
  - intros p n. rewrite parse_last_chunk. split; [done|]. by intros r [= <-].
Qed.

Lemma read_usage usage x p n t : usage_event x p n ->
  exists v, x = SseEvent v /\ read_event instant (mkState usage (Some t)) v =
    Ok (LineGoes None (mkState (Some p, Some n) (Some t))).
Proof.
  intros (d & us & -> & Hch & Hu & Hp & Hn & Ht & H0 & H1). eexists. split; [done|]. unfold read_event, _extract_usage_only_event.
  rewrite Hch, Hu. unfold _validate_usage, usage_count. rewrite Hp, Hn, Ht.
  rewrite !(proj2 (Z.ltb_ge _ _)) by lia. reflexivity.
Qed.

(** The next line that holds something *)
Lemma carries_next broken lines x xs s : carries lines (x :: xs) -> exists line rest, holds line x /\ carries rest xs /\
  lines_of broken lines s = lines_of broken (line :: rest) s.
Proof.
  remember (x :: xs) as ys eqn:Ey. intros Hl. revert Ey. induction Hl as [|line lines ys Hn Hl IH|line lines y ys Hh Hl IH];
    intros Ey; [done| |].
  - destruct (IH Ey) as (l & rest & Hh & Hr & He). exists l, rest. split; [done|]. split; [done|].
    rewrite <- He. cbn [stream_lines]. by rewrite (read_noise _ _ Hn).
  - injection Ey as -> ->. by exists line, lines.
Qed.

Lemma read_tail usage lines f us why p n broken : finish_event f why -> usage_event us p n ->
  carries lines [f; us; SseDone] ->
  exists c r, lines_of broken lines (mkState usage None) = ([c], None) /\ _parse_stream_chunk c = Some r /\
    pcr_content r = [] /\ pcr_done r = true /\ pcr_done_reason r = Some why /\ pcr_prompt_tokens r = Some p /\
    pcr_completion_tokens r = Some n.
Proof.
  intros Hf Hus Hl. destruct (read_finish usage f why Hf) as (v & c & -> & Hv & Hc).
  destruct (read_usage usage us p n c Hus) as (v' & -> & Hv').
  destruct (Hc (Some p) (Some n)) as [Hsome Hr].
  destruct (_parse_stream_chunk _) as [r|] eqn:Er; [|done]. specialize (Hr r eq_refl).
  eexists. exists r. split; [|split; [exact Er|exact Hr]].
  destruct (carries_next broken _ _ _ (mkState usage None) Hl) as (l1 & r1 & Hh1 & Hl1 & ->).
  cbn [stream_lines]. rewrite (read_held _ _ _ Hh1), Hv.
  destruct (carries_next broken _ _ _ (mkState usage (Some c)) Hl1) as (l2 & r2 & Hh2 & Hl2 & ->).
  cbn [stream_lines]. rewrite (read_held _ _ _ Hh2), Hv'.
  destruct (carries_next broken _ _ _ (mkState (Some p, Some n) (Some c)) Hl2) as (l3 & r3 & Hh3 & _ & ->).
  cbn [stream_lines]. by rewrite (read_held _ _ _ Hh3).
Qed.

(** A well-formed stream is delivered: when the lines hold, with any blank
    lines, comments and event names in between, an event for each text, the
    finish reason, the usage and the end mark, then what the chat service reads
    is exactly these texts in order and a last result with the reason and the
    counts, and nothing is raised, whatever follows the end mark. *)
Theorem openai_stream_delivers lines events texts finish why usage p n broken : Forall2 text_event events texts ->
  finish_event finish why -> usage_event usage p n -> carries lines (events ++ [finish; usage; SseDone]) ->
  let '(chunks, e) := lines_of broken lines state0 in
  e = None /\ exists results last, omap _parse_stream_chunk chunks = results ++ [last] /\
    pcr_content <$> results = texts /\ pcr_content last = [] /\ pcr_done last = true /\
    pcr_done_reason last = Some why /\ pcr_prompt_tokens last = Some p /\ pcr_completion_tokens last = Some n.
Proof.
  intros Hev Hf Hus Hl. unfold state0. revert lines Hl. induction Hev as [|x text events texts Hx Hev IH]; intros lines Hl.
  - destruct (read_tail (None, None) lines finish usage why p n broken Hf Hus Hl) as (c & r & -> & Hr & Hfacts).
    split; [done|]. exists [], r. cbn [omap list_omap]. rewrite Hr. done.
  - cbn [app] in Hl. destruct (carries_next broken _ _ _ (mkState (None, None) None) Hl) as (line & rest & Hh & Hr & ->).
    destruct (read_text (None, None) x text Hx) as (v & c & -> & Hv & Hc).
    cbn [stream_lines]. rewrite (read_held _ _ _ Hh), Hv. specialize (IH rest Hr).
    destruct (stream_lines _ _ _ _) as [cs e]. destruct IH as [-> (results & last & Hres & Ht & Hfacts)]. split; [done|].
    destruct (_parse_stream_chunk c) as [r|] eqn:Er; [|discriminate]. injection Hc as Hc.
    exists (r :: results), last. cbn [omap list_omap]. rewrite Er, Hres. split; [done|]. cbn [fmap list_fmap]. by rewrite Hc, Ht.
Qed.
End OpenAIProps.

(** ** A stream of two texts *)

Definition demo_event (delta : dict) (why : json) : json :=
  JObj [(u "model", JStr (u "gpt")); (u "created", JInt 1); 
        (u "choices", JArr [JObj [(u "delta", JObj delta); (u "finish_reason", why)]])].
Definition demo_usage : json :=
  JObj [(u "choices", JArr []);
        (u "usage", JObj [(u "prompt_tokens", JInt 4); (u "completion_tokens", JInt 2); (u "total_tokens", JInt 6)])].
Definition demo_line (v : json) : pystr := u "data: " ++ dump_json_plain v.
Definition demo_texts : list json :=
  [demo_event [(u "role", JStr (u "assistant")); (u "content", JStr (u "Hel"))] JNull;
   demo_event [(u "content", JStr (u "lo"))] JNull].
Definition demo_finish : json := demo_event [] (JStr (u "stop")).
Definition demo_lines : list pystr :=
  (u ": ping" :: (demo_line <$> demo_texts)) ++ [[]; demo_line demo_finish; demo_line demo_usage; u "data: [DONE]"; u "data: late"].

Definition demo_instant (_ : Z) : option pystr := Some (u "1970").

Lemma openai_stream_delivers_witness :
  let '(chunks, e) := OpenAI.stream_lines demo_instant true demo_lines OpenAI.state0 in
  e = None /\ exists results last, omap _parse_stream_chunk chunks = results ++ [last] /\
    pcr_content <$> results = [u "Hel"; u "lo"] /\ pcr_content last = [] /\ pcr_done last = true /\
    pcr_done_reason last = Some (u "stop") /\ pcr_prompt_tokens last = Some 4 /\ pcr_completion_tokens last = Some 2.
Proof.
  refine (openai_stream_delivers demo_instant demo_lines (SseEvent <$> demo_texts) [u "Hel"; u "lo"] (SseEvent demo_finish)
    (u "stop") (SseEvent demo_usage) 4 2 true _ _ _ _).
  - assert (Hd : forall delta, exists d, demo_event delta JNull = JObj d /\ has_delta demo_instant d delta JNull).
    { intros delta. eexists. split; [reflexivity|]. split; [|reflexivity].
      exists (u "gpt"), 1. do 2 eexists. by repeat split. }
    cbn [fmap list_fmap demo_texts].
    constructor; [|constructor; [|constructor]]; (edestruct Hd as (d & -> & H); exists d; eexists; split; [reflexivity|];
      split; [exact H|]; split; [reflexivity|]); [by right|by left].
  - eexists. split; [reflexivity|]. split; [|vm_compute; discriminate]. split; [|reflexivity].
    exists (u "gpt"), 1. do 2 eexists. by repeat split.
  - eexists. eexists. split; [reflexivity|]. by repeat split.
  - assert (Hh : forall v, loads (strip (drop 5 (strip (demo_line v)))) = Some v -> starts_with OpenAI.data_prefix (strip (demo_line v)) = true ->
      bool_decide (strip (drop 5 (strip (demo_line v))) = u "[DONE]") = false -> holds (demo_line v) (SseEvent v)).
    { intros v H1 H2 H3. apply starts_with_true in H2 as [rest Hr]. exists rest. split; [exact Hr|].
      rewrite Hr in H1, H3. change 5%nat with (length OpenAI.data_prefix) in H1, H3. rewrite drop_app_length in H1, H3.
      split; [by apply bool_decide_eq_false in H3|done]. }
    apply carries_noise; [right; left; vm_compute; reflexivity|].
    apply carries_line; [apply Hh; vm_compute; reflexivity|]. apply carries_line; [apply Hh; vm_compute; reflexivity|].
    apply carries_noise; [left; vm_compute; reflexivity|].
    apply carries_line; [apply Hh; vm_compute; reflexivity|]. apply carries_line; [apply Hh; vm_compute; reflexivity|].
    apply carries_line; [|constructor]. exists (u " [DONE]"). split; vm_compute; reflexivity.
Defined.

(** ** The mock provider *)

(** The mock provider stands in for a model: the chat service accepts its
    answers and its streams with the fixed counts, an agent's decision request is
    answered with a final answer that the agent model reads, other requests with
    the fixed text, and a stream's texts put together are that answer or text. *)
Theorem mock_speaks_protocol str_of default_model payload :
  let agent := Mock._is_agent_decision str_of payload in
  (forall model, field (u "model") payload = JStr model ->
     exists r, _parse_chat_response (Mock.chat str_of default_model payload) = Ok r /\ pcr_model r = model /\
       pcr_done r = true /\ pcr_prompt_tokens r = Some 10 /\ pcr_completion_tokens r = Some 5 /\
       (if agent then AgentModel._parse_decision (pcr_content r) =
                      Ok (AgentRuntime.mkAgentDecision (Some Mock._MOCK_FINAL_ANSWER) [] None true)
        else pcr_content r = Mock._MOCK_CHAT_TEXT)) /\
  (forall model, field (u "model") payload = JStr model ->
     let results := omap _parse_stream_chunk (Mock.chat_stream str_of default_model payload) in
     length results = length (Mock.chat_stream str_of default_model payload) /\
     concat (pcr_content <$> results) = (if agent then Mock._MOCK_FINAL_ANSWER else Mock._MOCK_CHAT_TEXT) /\
     (exists r, last results = Some r /\ pcr_done r = true /\ pcr_prompt_tokens r = Some 10 /\ pcr_completion_tokens r = Some 5) /\
     Forall (fun r => pcr_done r = false) (take (length results - 1) results)).
Proof.
  cbv zeta. unfold Mock.chat, Mock.chat_stream. destruct (Mock._is_agent_decision str_of payload);
  (split; intros model Hm; (apply field_some_key in Hm; [|discriminate]); unfold Mock.model_of; rewrite Hm; cbn [default from_option id]).
  all: try (eexists; split; [reflexivity|]; repeat (split; [reflexivity|]); vm_compute; reflexivity).
  all: split; [reflexivity|]; split; [vm_compute; reflexivity|]; split; [eexists; split; [reflexivity|]; done|].
  all: vm_compute; repeat constructor.
Qed.
