(* ===== verification/WorkflowExecutors.v ===== *)
(** * Node executors: [app/workflow_builder/executors.py] and [execution_context.py]

    The executors that a workflow of the builder runs with: they render the
    templates of a node, call one service of the platform and wrap its answer.
    Services are arguments that act on a world [W]; the context of the run is what
    [get_workflow_execution_context] returns. *)

From Corelib Require Import SpecFloat.
From S2P Require Import Prelude Json Workflow WorkflowEngine ToolModels ToolExecutor ChatService AgentConfig Auth.
Local Open Scope Z_scope.

(** [set_workflow_execution_context] installs it for one run. *)
Record WorkflowExecutionContext := mkExecutionContext {
  ec_workspace_id : pystr;
  ec_api_key_hash : pystr;
  ec_owner_key_hash : pystr;
  ec_run_id : pystr;
  ec_request_id : option pystr;
  ec_api_key : option APIKey;
  ec_request_context : option (pystr * IdentityContext)
}.

(** [_fallback_request_context] and [_fallback_api_key]; a request context is its
    request id and its identity. *)
Definition _fallback_request_context (ctx : WorkflowExecutionContext) : pystr * IdentityContext :=
  (default [] (ec_request_id ctx), mkIdentity None (Some (ec_workspace_id ctx)) None (ec_api_key_hash ctx) None).
Definition _fallback_api_key (ctx : WorkflowExecutionContext) : APIKey :=
  mkAPIKey (ec_api_key_hash ctx) (u "workflow-builder") None None None.

Definition agent_context (ctx : WorkflowExecutionContext) : pystr * IdentityContext :=
  match ec_request_context ctx with Some c => c | None => _fallback_request_context ctx end.
Definition agent_key (ctx : WorkflowExecutionContext) : APIKey :=
  match ec_api_key ctx with Some k => k | None => _fallback_api_key ctx end.

(** An exception of the RAG service: a known one ends the node with its text. *)
Inductive rag_error := KnownRAGError (text : pystr) | OtherRAGError (text : pystr).

Section Executors.
Context {Obj W : Type} {PV : PyValue Obj}.
Abbreviation vars := (list (pystr * Obj)).
Abbreviation executor := (WorkflowNode -> vars -> W -> node_end (Obj := Obj) * W).

(** [str] of a value that is no text, and the text of pydantic's error. *)
Context (str_of : json -> pystr) (validation_text : pystr).

(** The services; an error is the text of the exception. *)
Record services := mkServices {
  sv_chat : ChatRequest -> W -> result pystr pystr * W;
  sv_rag : option (pystr -> pystr -> W -> result rag_error pystr * W);
  sv_tools : ToolExecutor W;
  sv_tool_error : execute_error -> pystr;
  sv_code_runner : pystr -> W -> result pystr pystr * W;
  sv_agents : W -> InMemoryAgentDefinitionRepository;
  sv_agent_run : pystr -> pystr -> pystr * IdentityContext -> APIKey -> W -> result pystr (option pystr) * W
}.
Context (sv : services) (current : option WorkflowExecutionContext).

Definition truncate_summary (text : pystr) : pystr := Workflow.truncate_summary text _SUMMARY_MAX_CHARS.
Definition failed (message : pystr) : node_end (Obj := Obj) := NodeReturned (mkNodeOutput obj_none (Some message) None None).
Definition answered (input answer : pystr) : node_end (Obj := Obj) :=
  NodeReturned (mkNodeOutput (obj_of_str answer) None (Some (truncate_summary input)) (Some (truncate_summary answer))).
Definition blank (s : pystr) : bool := bool_decide (strip s = []).

(** [render_template], whose error leaves the executor *)
Definition rendered (template : pystr) (variables : vars) (k : pystr -> node_end (Obj := Obj) * W) (w : W)
  : node_end (Obj := Obj) * W :=
  match render_template template variables with
  | Ok s => k s
  | Err e => (NodeRaised (error_text e), w)
  end.

Definition missing_context : pystr := u "工作流执行上下文缺失（workspace_id/api_key 未注入）".
(** [_require_execution_context] *)
Definition require_context (k : WorkflowExecutionContext -> node_end (Obj := Obj) * W) (w : W) : node_end (Obj := Obj) * W :=
  match current with Some ctx => k ctx | None => (NodeRaised missing_context, w) end.

(** [LlmNodeExecutor] *)
Definition llm_execute : executor := fun node variables w =>
  match field (u "prompt_template") (config node) with
  | JStr template =>
      if blank template then (failed (u "llm 节点 " ++ id node ++ u " 缺少 prompt_template 配置"), w) else
      rendered template variables (fun prompt =>
        if blank prompt then (failed (u "llm 节点 " ++ id node ++ u " 的 prompt_template 渲染结果为空"), w) else
        match field (u "model") (config node), field (u "system_prompt") (config node) with
        | ((JNull | JStr _) as model), ((JNull | JStr _) as system_prompt) =>
            match sv_chat sv (mkChatRequest prompt None (text_of model) (text_of system_prompt) [] None None) w with
            | (Ok content, w) => (answered prompt content, w)
            | (Err text, w) => (NodeRaised text, w)
            end
        | (JNull | JStr _), _ => (failed (u "llm 节点 " ++ id node ++ u " 的 system_prompt 配置必须是字符串"), w)
        | _, _ => (failed (u "llm 节点 " ++ id node ++ u " 的 model 配置必须是字符串或 null"), w)
        end) w
  | _ => (failed (u "llm 节点 " ++ id node ++ u " 缺少 prompt_template 配置"), w)
  end.

(** [KnowledgeNodeExecutor] *)
Definition knowledge_execute : executor := fun node variables w =>
  match sv_rag sv with
  | None => (failed (u "知识库服务未启用（RAG_ENABLED=false），无法执行 knowledge 节点"), w)
  | Some rag =>
      let missing := failed (u "knowledge 节点 " ++ id node ++ u " 缺少 query_template 配置") in
      match field (u "query_template") (config node) with
      | JStr template =>
          if blank template then (missing, w) else
          rendered template variables (fun query =>
            if blank query then (failed (u "knowledge 节点 " ++ id node ++ u " 的 query_template 渲染结果为空"), w) else
            require_context (fun ctx =>
              match rag query (ec_owner_key_hash ctx) w with
              | (Ok content, w) => (answered query content, w)
              | (Err (KnownRAGError text), w) => (failed (u "知识库检索失败：" ++ text), w)
              | (Err (OtherRAGError text), w) => (NodeRaised text, w)
              end) w) w
      | _ => (missing, w)
      end
  end.

(** [_render_value] *)
Fixpoint _render_value (variables : vars) (value : json) : result workflow_error json :=
  match value with
  | JStr s => JStr <$> render_template s variables
  | JObj d => JObj <$> (fix go (d : list (pystr * json)) :=
                          match d with
                          | [] => Ok []
                          | (k, v) :: d => v ← _render_value variables v; d ← go d; Ok ((k, v) :: d)
                          end) d
  | JArr l => JArr <$> (fix go (l : list json) :=
                          match l with
                          | [] => Ok []
                          | v :: l => v ← _render_value variables v; l ← go l; Ok (v :: l)
                          end) l
  | v => Ok v
  end.

Definition tool_context (ctx : WorkflowExecutionContext) : ToolContext :=
  mkToolContext (ec_run_id ctx) 0 (ec_request_id ctx)
    [(u "owner_key_hash", JStr (ec_owner_key_hash ctx)); (u "workspace_id", JStr (ec_workspace_id ctx))].

(** [result.error_message or result.error_code or "未知错误"] *)
Definition error_detail (r : ToolExecutionResult) : pystr :=
  match text_given (tr_error_message r) with
  | Some m => m
  | None => match text_given (tr_error_code r) with Some c => c | None => u "未知错误" end
  end.

(** [ToolNodeExecutor] *)
Definition tool_execute : executor := fun node variables w =>
  let missing := failed (u "tool 节点 " ++ id node ++ u " 缺少 tool 配置") in
  match field (u "tool") (config node) with
  | JStr tool_name =>
      if blank tool_name then (missing, w) else
      match (match field (u "arguments_template") (config node) with
             | JNull => Ok (JObj [])
             | template => _render_value variables template
             end) with
      | Err e => (NodeRaised (error_text e), w)
      | Ok arguments =>
          require_context (fun ctx =>
            match ToolExecutor.execute (sv_tools sv) tool_name arguments (tool_context ctx) None w with
            | (Err e, _, w) => (NodeRaised (sv_tool_error sv e), w)
            | (Ok r, _, w) =>
                let input := truncate_summary (match arguments with JStr s => s | v => str_of v end) in
                (if succeeded r
                 then NodeReturned (mkNodeOutput (obj_of_str (tr_output r)) None (Some input)
                                      (Some (truncate_summary (tr_output r))))
                 else NodeReturned (mkNodeOutput obj_none
                                      (Some (u "工具 " ++ tool_name ++ u " 执行失败：" ++ error_detail r)) (Some input) None),
                 w)
            end) w
      end
  | _ => (missing, w)
  end.

Definition code_error_prefix : pystr := u "Code executor error:".

(** [CodeNodeExecutor] *)
Definition code_execute : executor := fun node variables w =>
  let missing := failed (u "code 节点 " ++ id node ++ u " 缺少 code_template 配置") in
  match field (u "code_template") (config node) with
  | JStr template =>
      if blank template then (missing, w) else
      rendered template variables (fun code =>
        if blank code then (failed (u "code 节点 " ++ id node ++ u " 的 code_template 渲染结果为空"), w) else
        match sv_code_runner sv code w with
        | (Err text, w) => (NodeRaised text, w)
        | (Ok result, w) =>
            (if starts_with code_error_prefix result
             then NodeReturned (mkNodeOutput obj_none (Some (u "代码执行失败：" ++ result)) (Some (truncate_summary code)) (Some []))
             else answered code result, w)
        end) w
  | _ => (missing, w)
  end.

(** [AgentNodeExecutor] *)
Definition agent_execute : executor := fun node variables w =>
  let missing := failed (u "agent 节点 " ++ id node ++ u " 缺少 agent_id 配置") in
  match field (u "agent_id") (config node) with
  | JStr agent_id =>
      if blank agent_id then (missing, w) else
      require_context (fun ctx =>
        match get_agent agent_id (Some (ec_workspace_id ctx)) (sv_agents sv w) with
        | None => (failed (u "Agent " ++ agent_id ++ u " 不存在或不属于当前工作空间"), w)
        | Some definition =>
            if negb (ag_enabled definition) then (failed (u "Agent " ++ agent_id ++ u " 已禁用"), w) else
            let with_message (message : pystr) :=
              let message :=
                if blank message then
                  match dict_get (u "input.text") variables with
                  | Some v => if obj_is_none v then [] else obj_str v
                  | None => []
                  end
                else message in
              if blank message then
                (failed (u "agent 节点 " ++ id node ++ u " 缺少可用的输入消息（配置 prompt 或提供 input.text）"), w)
              else if 128 <? slen agent_id then (NodeRaised validation_text, w)
              else
                match sv_agent_run sv message agent_id (agent_context ctx) (agent_key ctx) w with
                | (Err text, w) => (NodeRaised text, w)
                | (Ok answer, w) => (answered message (default [] answer), w)
                end in
            match field (u "prompt") (config node) with
            | JNull => with_message []
            | JStr template => rendered template variables with_message w
            | _ => (failed (u "agent 节点 " ++ id node ++ u " 的 prompt 配置必须是字符串"), w)
            end
        end) w
  | _ => (missing, w)
  end.

(** The executors that the container registers *)
Definition builder_executors (t : NodeType.t) : option executor :=
  match t with
  | NodeType.LLM => Some llm_execute
  | NodeType.KNOWLEDGE => Some knowledge_execute
  | NodeType.TOOL => Some tool_execute
  | NodeType.CODE => Some code_execute
  | NodeType.AGENT => Some agent_execute
  | _ => None
  end.
End Executors.
