(* ===== verification/WorkflowExecutorsProps.v ===== *)
(** * Properties of a workflow's effects

    What running a workflow does to the services of the platform: whatever the
    definition and the inputs, only calls that the context of the run allows. *)

From S2P Require Import Prelude Json Workflow WorkflowEngine ToolModels ToolExecutor ToolExecutorProps ChatService AgentConfig.
From S2P Require Import Auth WorkflowExecutors.
Local Open Scope Z_scope.
#[local] Opaque u.

Section Props.
Context {Obj W : Type} {PV : PyValue Obj} (str_of : json -> pystr) (validation_text : pystr).
Context (sv : services (W := W)) (current : option WorkflowExecutionContext).
Abbreviation executors := (builder_executors (Obj := Obj) str_of validation_text sv current).

(** One call of a service that the run may make *)
Inductive effect (w : W) : W -> Prop :=
| effect_chat r : blank (req_message r) = false -> effect w (snd (sv_chat sv r w))
| effect_rag ctx rag query : current = Some ctx -> sv_rag sv = Some rag -> blank query = false ->
    effect w (snd (rag query (ec_owner_key_hash ctx) w))
| effect_tool ctx name a t tool : current = Some ctx -> gates_open (sv_tools sv) name a None tool t ->
    effect w (snd (ToolExecutor.tool_execute tool a (tool_context ctx) t w))
| effect_code code : blank code = false -> effect w (snd (sv_code_runner sv code w))
| effect_agent ctx agent_id definition message : current = Some ctx ->
    get_agent agent_id (Some (ec_workspace_id ctx)) (sv_agents sv w) = Some definition ->
    ag_workspace_id definition = ec_workspace_id ctx -> ag_enabled definition = true ->
    blank message = false ->
    effect w (snd (sv_agent_run sv message agent_id (agent_context ctx) (agent_key ctx) w)).

Definition quiet_or_effect (w w' : W) : Prop := w' = w \/ effect w w'.

Lemma rendered_effect (template : pystr) (variables : list (pystr * Obj)) k w :
  (forall s, quiet_or_effect w (snd (k s))) -> quiet_or_effect w (snd (rendered template variables k w)).
Proof. intros H. unfold rendered. destruct (render_template _ _); [apply H|by left]. Qed.

Lemma context_effect (k : WorkflowExecutionContext -> node_end (Obj := Obj) * W) w :
  (forall ctx, current = Some ctx -> quiet_or_effect w (snd (k ctx))) -> quiet_or_effect w (snd (require_context current k w)).
Proof. intros H. unfold require_context. destruct current; [by apply H|by left]. Qed.

Lemma llm_effect n vars w : quiet_or_effect w (snd (llm_execute (Obj := Obj) sv n vars w)).
Proof.
  unfold llm_execute. destruct (ChatService.field _ _) as [| | | |template| |]; try by left. destruct (blank template); [by left|].
  apply rendered_effect. intros prompt. destruct (blank prompt) eqn:Eb; [by left|].
  destruct (ChatService.field (u "model") (config n)) as [| | | |m| |],
    (ChatService.field (u "system_prompt") (config n)) as [| | | |p| |]; try (by left);
  match goal with |- context [sv_chat sv ?r w] =>
         pose proof (effect_chat w r Eb) as He; destruct (sv_chat sv r w) as [[] ?]; by right end.
Qed.

Lemma knowledge_effect n vars w : quiet_or_effect w (snd (knowledge_execute (Obj := Obj) sv current n vars w)).
Proof.
  unfold knowledge_execute. destruct (sv_rag sv) as [rag|] eqn:Er; [|by left].
  destruct (ChatService.field _ _) as [| | | |template| |]; try by left. destruct (blank template); [by left|].
  apply rendered_effect. intros query. destruct (blank query) eqn:Eb; [by left|].
  apply context_effect. intros ctx Hc. pose proof (effect_rag w ctx rag query Hc Er Eb) as He.
  destruct (rag _ _ w) as [[|[]] ?]; by right.
Qed.

Lemma execute_effect ctx name args w : current = Some ctx ->
  quiet_or_effect w (snd (ToolExecutor.execute (sv_tools sv) name args (tool_context ctx) None w)).
Proof.
  intros Hc. unfold execute. destruct (get_descriptor _ _); [|by left].
  pose proof (_execute_cases (sv_tools sv) name args (tool_context ctx) None w) as H.
  destruct (_execute _ _ _ _ _ w) as [r w']. cbn [fst snd] in *.
  destruct H as [[_ ->]|(tool & t & arguments & -> & Hg & -> & _)]; [by left|]. right. by eapply effect_tool.
Qed.

Lemma tool_effect n vars w : quiet_or_effect w (snd (tool_execute str_of (Obj := Obj) sv current n vars w)).
Proof.
  unfold tool_execute. destruct (ChatService.field (u "tool") _) as [| | | |name| |]; try by left. destruct (blank name); [by left|].
  match goal with |- context [match ?x with Ok _ => _ | Err _ => _ end] => destruct x as [args|] end; [|by left].
  apply context_effect. intros ctx Hc. pose proof (execute_effect ctx name args w Hc) as He.
  destruct (ToolExecutor.execute _ _ _ _ _ w) as [[[r|] ms] w']; exact He.
Qed.

Lemma code_effect n vars w : quiet_or_effect w (snd (code_execute (Obj := Obj) sv n vars w)).
Proof.
  unfold code_execute. destruct (ChatService.field _ _) as [| | | |template| |]; try by left. destruct (blank template); [by left|].
  apply rendered_effect. intros code. destruct (blank code) eqn:Eb; [by left|].
  pose proof (effect_code w code Eb) as He. destruct (sv_code_runner sv code w) as [[] ?]; by right.
Qed.

Lemma agent_effect n vars w : quiet_or_effect w (snd (agent_execute validation_text (Obj := Obj) sv current n vars w)).
Proof.
  unfold agent_execute. destruct (ChatService.field (u "agent_id") _) as [| | | |i| |]; try by left.
  destruct (blank i); [by left|]. apply context_effect. intros ctx Hc.
  destruct (get_agent i _ _) as [d|] eqn:Ed; [|by left]. destruct (ag_enabled d) eqn:Een; [|by left]. cbn [negb].
  assert (Hws : ag_workspace_id d = ec_workspace_id ctx).
  { unfold get_agent in Ed. destruct (find_agent_by_id i _) as [a|]; cbn in Ed; [|discriminate].
    destruct (decide _); [|discriminate]. by injection Ed as <-. }
  match goal with |- context [rendered _ _ ?k w] => set (go := k) end.
  assert (Hgo : forall m, quiet_or_effect w (snd (go m))).
  { intros m. subst go. cbv beta zeta. match goal with |- context [blank ?x] => generalize x end. intros message.
    match goal with |- context [blank ?x] => generalize x end. clear message. intros message.
    destruct (blank message) eqn:Eb; [by left|]. destruct (128 <? slen i); [by left|].
    pose proof (effect_agent w ctx i d message Hc Ed Hws Een Eb) as He.
    destruct (sv_agent_run sv message i _ _ w) as [[] ?]; by right. }
  destruct (ChatService.field (u "prompt") _); try (by left); [apply Hgo|by apply rendered_effect].
Qed.

Lemma executor_effect t e n vars w : executors t = Some e -> quiet_or_effect w (snd (e n vars w)).
Proof.
  destruct t; intros [= <-];
  [apply llm_effect|apply knowledge_effect|apply tool_effect|apply code_effect|apply agent_effect].
Qed.

(** ** The whole run *)

Context (repr : json -> pystr) (now clock : W -> Z * W).
Definition builder_env : engine_env Obj W := mkEngineEnv executors now clock.

(** What happens to the world during a run: calls that are allowed, and readings
    of the two clocks. *)
Inductive happens (w : W) : W -> Prop :=
| happens_effect w' : effect w w' -> happens w w'
| happens_now : happens w (snd (now w))
| happens_clock : happens w (snd (clock w)).

Lemma quiet_happens w w' : quiet_or_effect w w' -> rtc happens w w'.
Proof. intros [->|H]; [reflexivity|by apply rtc_once, happens_effect]. Qed.

Lemma executed_happens n vars w : rtc happens w (snd (_execute_node repr builder_env n vars w)).
Proof.
  unfold _execute_node. destruct (node_type n) eqn:Et; try reflexivity;
  cbn [node_executors builder_env builder_executors]; apply quiet_happens.
  - apply llm_effect. - apply knowledge_effect. - apply tool_effect. - apply code_effect. - apply agent_effect.
Qed.

Lemma built_happens n a b st out err i o w : rtc happens w (snd (_build_result builder_env n a b st out err i o w)).
Proof.
  unfold _build_result. cbn [monotonic builder_env]. pose proof (happens_clock w) as H.
  destruct (clock w) as [t w']. by apply rtc_once.
Qed.

Lemma node_happens d adjacency inputs n st w : rtc happens w (snd (run_node repr builder_env d adjacency inputs n st w)).
Proof.
  unfold run_node. cbn [utc_now monotonic builder_env].
  pose proof (happens_now w) as H1. destruct (now w) as [started w1]. cbn [snd] in H1.
  pose proof (happens_clock w1) as H2. destruct (clock w1) as [start w2]. cbn [snd] in H2.
  pose proof (executed_happens n (rs_variables st) w2) as H3.
  destruct (_execute_node _ _ _ _ w2) as [[o|text|] w3]; cbn [snd] in H3.
  - assert (H : rtc happens w w3) by (etransitivity; [by apply rtc_once|etransitivity; [by apply rtc_once|done]]).
    destruct (error o) as [text|].
    + match goal with |- context [_build_result ?e ?n ?a ?b ?s ?x ?err ?i ?out w3] =>
        pose proof (built_happens n a b s x err i out w3) as H4; destruct (_build_result e n a b s x err i out w3) as [nr w4] end.
      by etransitivity.
    + match goal with |- context [_build_result ?e ?n ?a ?b ?s ?x ?err ?i ?out w3] =>
        pose proof (built_happens n a b s x err i out w3) as H4; destruct (_build_result e n a b s x err i out w3) as [nr w4] end.
      destruct (after_node _ _ _ _ _ _); by etransitivity.
  - match goal with |- context [_build_result ?e ?n ?a ?b ?s ?x ?err ?i ?out w3] =>
      pose proof (built_happens n a b s x err i out w3) as H4; destruct (_build_result e n a b s x err i out w3) as [nr w4] end.
    do 2 (etransitivity; [by apply rtc_once|]). by etransitivity.
  - do 2 (etransitivity; [by apply rtc_once|]). done.
Qed.

Lemma loop_happens d adjacency inputs order st w :
  rtc happens w (snd (run_loop repr builder_env d adjacency inputs order st w)).
Proof.
  revert st w. induction order as [|k order IH]; intros st w; cbn [run_loop]; [reflexivity|].
  destruct (bool_decide _); [apply IH|]. destruct (find_node d k) as [n|]; [|reflexivity].
  pose proof (node_happens d adjacency inputs n st w) as H. destruct (run_node _ _ _ _ _ _ _ w) as [[e|st'] w']; [done|].
  etransitivity; [exact H|apply IH].
Qed.

(** C22. Whatever definition is run with whatever inputs, its effects on the
    platform are calls that the context of the run allows, one after the other:
    chat calls with a message, searches in the documents of the run's owner,
    tools whose gates are open, with the run's tenant in their context, code, and
    agents that are enabled and belong to the workspace of the run, called with
    the identity of the run.  Without a context there is no search, no tool and
    no agent. *)
Theorem workflow_effects_allowed d inputs w :
  rtc happens w (snd (run repr builder_env d inputs w)) /\
  (current = None -> forall w1 w2, effect w1 w2 ->
     (exists r, w2 = snd (sv_chat sv r w1)) \/ exists code, w2 = snd (sv_code_runner sv code w1)).
Proof.
  split.
  - unfold run. destruct (_ ≫= _) as [[order adjacency]|e]; [apply loop_happens|reflexivity].
  - intros Hc w1 w2 [r _|? ? ? Hn|? ? ? ? ? Hn|code _|? ? ? ? Hn]; [left|congruence|congruence|right|congruence]; by eexists.
Qed.
End Props.
