(* ===== verification/RagRetrieval.v ===== *)
(** * Retrieval: [app/rag/hybrid.py], [tokenize.py] and [reranker.py]

    The fusion of the semantic and the keyword ranking (reciprocal ranks in double
    precision), the reranker with its fallback, [HybridRetriever.search] over a
    vector store, and the keywords of a text.  The vector store, the answer of the
    reranking API and jieba are arguments. *)

From Corelib Require Import SpecFloat.
From S2P Require Import Prelude Json Regex ChatService RagText.
Local Open Scope Z_scope.

(** ** Fusion *)

Abbreviation SearchResult := (RagText.SearchResult (Dist := float64)).

Record KeywordSearchResult := mkKeywordResult {
  kr_document_id : pystr;
  kr_chunk_id : pystr;
  kr_chunk_index : Z;
  kr_content : pystr;
  kr_rank : float64
}.

Record _RankedChunk := mkRankedChunk {
  rc_document_id : pystr;
  rc_chunk_id : pystr;
  rc_chunk_index : Z;
  rc_content : pystr
}.
Definition ranked_semantic (r : SearchResult) : _RankedChunk :=
  mkRankedChunk (sr_document_id r) (sr_chunk_id r) (sr_chunk_index r) (sr_content r).
Definition ranked_keyword (r : KeywordSearchResult) : _RankedChunk :=
  mkRankedChunk (kr_document_id r) (kr_chunk_id r) (kr_chunk_index r) (kr_content r).

Record _FusedEntry := mkFusedEntry { fe_score : float64; fe_chunk : _RankedChunk }.

Definition float_one : float64 := round_ratio false 1 1.
Definition zero : float64 := S754_zero false.
(** [n / d] of two positive integers, as [float(n) / d] for small [d]; dividing by
    zero or less is excluded by the settings. *)
Definition quotient (n d : Z) : float64 := round_ratio false (Z.to_pos n) (Z.to_pos d).
Definition float_add : float64 -> float64 -> float64 := SFadd 53 1024.
Definition float_sub : float64 -> float64 -> float64 := SFsub 53 1024.
Definition float_div : float64 -> float64 -> float64 := SFdiv 53 1024.

(** [l[:n]] *)
Definition first_k {A} (n : Z) (l : list A) : list A :=
  if 0 <=? n then take (Z.to_nat n) l else take (Z.to_nat (Z.of_nat (length l) + n)) l.

Abbreviation entries := (list (pystr * _FusedEntry)).

Fixpoint add_semantic (rrf_k rank : Z) (semantic : list SearchResult) (scores : entries) : entries :=
  match semantic with
  | [] => scores
  | r :: semantic =>
      add_semantic rrf_k (rank + 1) semantic
        (dict_set (sr_chunk_id r) (mkFusedEntry (quotient 1 (rrf_k + rank)) (ranked_semantic r)) scores)
  end.

Fixpoint add_keyword (rrf_k rank : Z) (keyword : list KeywordSearchResult) (scores : entries) : entries :=
  match keyword with
  | [] => scores
  | r :: keyword =>
      let entry := default (mkFusedEntry zero (ranked_keyword r)) (dict_get (kr_chunk_id r) scores) in
      add_keyword rrf_k (rank + 1) keyword
        (dict_set (kr_chunk_id r)
           (mkFusedEntry (float_add (fe_score entry) (quotient 1 (rrf_k + rank))) (fe_chunk entry)) scores)
  end.

Definition fused_scores (rrf_k : Z) (semantic : list SearchResult) (keyword : list KeywordSearchResult) : entries :=
  add_keyword rrf_k 1 keyword (add_semantic rrf_k 1 semantic []).

(** [sorted(..., key=score, reverse=True)]: equal scores keep their order. *)
Definition by_score (a b : _FusedEntry) : bool := negb (SFltb (fe_score a) (fe_score b)).

Definition best_score (rrf_k : Z) (semantic : list SearchResult) (keyword : list KeywordSearchResult) : float64 :=
  match semantic, keyword with
  | _ :: _, _ :: _ => quotient 2 (rrf_k + 1)
  | _, _ => quotient 1 (rrf_k + 1)
  end.

Definition to_result (best : float64) (e : _FusedEntry) : SearchResult :=
  let c := fe_chunk e in
  mkSearchResult (rc_document_id c) (rc_chunk_id c) (rc_chunk_index c) (rc_content c)
    (float_sub float_one (float_div (fe_score e) best)).

Definition _fuse (semantic : list SearchResult) (keyword : list KeywordSearchResult) (top_k rrf_k : Z) : list SearchResult :=
  to_result (best_score rrf_k semantic keyword) <$>
    first_k top_k (sort_by by_score (fused_scores rrf_k semantic keyword).*2).

(** ** Reranking *)

Definition float_of_score (v : json) : option float64 :=
  match v with
  | JFloat x => Some x
  | JInt 0 => Some zero
  | JInt (Zpos p) => Some (round_ratio false p 1)
  | JInt (Zneg p) => Some (round_ratio true p 1)
  | JBool b => Some (if b then float_one else zero)
  | _ => None
  end.
Definition index_of (v : json) : option Z :=
  match v with JInt z => Some z | JBool b => Some (if b then 1 else 0) | _ => None end.

(** [scores]; the latest item for an index wins. *)
Definition item_score (item : json) : option (Z * float64) :=
  match item with
  | JObj d => i ← index_of (field (u "index") d); x ← float_of_score (field (u "relevance_score") d); Some (i, x)
  | _ => None
  end.
Definition score_at (scores : list (Z * float64)) (i : Z) : option float64 :=
  snd <$> last (filter (fun p => p.1 = i) scores).

(** [max(0.0, min(score, 1.0))] *)
Definition clamp (x : float64) : float64 :=
  let y := if SFltb float_one x then float_one else x in
  if SFltb zero y then y else zero.

Definition with_distance (r : SearchResult) (d : float64) : SearchResult :=
  mkSearchResult (sr_document_id r) (sr_chunk_id r) (sr_chunk_index r) (sr_content r) d.
Definition _with_reranked_distance (r : SearchResult) (score : option float64) : SearchResult :=
  match score with None => r | Some x => with_distance r (float_sub float_one (clamp x)) end.

(** What [JinaReranker.rerank] makes of the JSON of a successful answer. [None]:
    an exception.  Scores that overflow a double or are no numbers (NaN) are
    outside the model. *)
Definition rerank_scores (payload : json) : option (list (Z * float64)) :=
  match payload with
  | JObj d =>
      match field (u "data") d with
      | JArr data => match omap item_score data with [] => None | scores => Some scores end
      | _ => None
      end
  | _ => None
  end.

Definition by_relevance (scores : list (Z * float64)) (a b : Z * SearchResult) : bool :=
  negb (SFltb (default zero (score_at scores a.1)) (default zero (score_at scores b.1))).

Definition reordered (scores : list (Z * float64)) (results : list SearchResult) : list SearchResult :=
  (fun p => _with_reranked_distance p.2 (score_at scores p.1))
  <$> sort_by (by_relevance scores) (imap (fun i r => (Z.of_nat i, r)) results).

(** [answer]: the JSON of the API's answer, where it is one. *)
Definition rerank (answer : option json) (results : list SearchResult) : list SearchResult :=
  match results with
  | [] => []
  | _ => match answer ≫= rerank_scores with Some scores => reordered scores results | None => results end
  end.

(** ** [HybridRetriever] *)

Inductive mode := hybrid | keyword_only.

Section Retriever.
Context {E W : Type}.
(** The vector store, and the answers of the reranking API for a query; [None]:
    there is no reranker. *)
Context (store_search : list float64 -> Z -> option pystr -> W -> result E (list SearchResult) * W)
  (store_keyword_search : pystr -> Z -> option pystr -> W -> result E (list KeywordSearchResult) * W)
  (reranker : option (pystr -> list SearchResult -> W -> option json * W)).
Context (rrf_k candidate_k rerank_candidate_k : Z) (retrieval_mode : mode).

Definition query_given (query : option pystr) : option pystr := text_given query.

Definition search (query_embedding : list float64) (top_k : Z) (owner_key_hash query : option pystr) (w : W)
  : result E (list SearchResult) * W :=
  let '(semantic, w) :=
    match retrieval_mode with
    | hybrid => store_search query_embedding candidate_k owner_key_hash w
    | keyword_only => (Ok [], w)
    end in
  match semantic with
  | Err e => (Err e, w)
  | Ok semantic =>
      let '(keyword, w) :=
        match query_given query with
        | Some q => store_keyword_search q candidate_k owner_key_hash w
        | None => (Ok [], w)
        end in
      match keyword with
      | Err e => (Err e, w)
      | Ok keyword =>
          match reranker, query_given query with
          | Some ask, Some q =>
              let candidates := _fuse semantic keyword (Z.max top_k rerank_candidate_k) rrf_k in
              match candidates with
              | [] => (Ok [], w)
              | _ => let '(answer, w) := ask q candidates w in (Ok (first_k top_k (rerank answer candidates)), w)
              end
          | _, _ => (Ok (_fuse semantic keyword top_k rrf_k), w)
          end
      end
  end.
End Retriever.

(** ** Keywords *)

Section Tokenize.
(** [\d]: the decimal digits of Unicode; [cut] is jieba's, where it is there. *)
Context (is_decimal : N -> bool) (cut : option (pystr -> list pystr)).

Definition upper : re := Chr is_upper.
(** [[A-Z]{1,4}\d{2,}] *)
Definition _PROTECTED_FRAGMENT_RE : re :=
  Seq upper (Seq (Opt (Seq upper (Opt (Seq upper (Opt upper))))) (Regex.at_least 2 (Chr is_decimal))).
Definition _PLACEHOLDER_PREFIX : pystr := u "ptk".
Definition placeholder (n : nat) : pystr := _PLACEHOLDER_PREFIX ++ str_of_Z (Z.of_nat n).

(** [_PROTECTED_FRAGMENT_RE.sub(_protect, text)]: the masked text and the
    fragments by their placeholders. *)
Fixpoint mask_go (fuel : nat) (b s : pystr) (protected : list (pystr * pystr)) : pystr * list (pystr * pystr) :=
  match fuel with
  | O => (s, protected)
  | S f =>
      match match_at _PROTECTED_FRAGMENT_RE b s, s with
      | Some (b', s'), _ =>
          let fragment := take (length s - length s') s in
          let p := placeholder (length protected) in
          let '(masked, protected) := mask_go f b' s' (dict_set p fragment protected) in (p ++ masked, protected)
      | None, c :: s' => let '(masked, protected) := mask_go f (c :: b) s' protected in (c :: masked, protected)
      | None, [] => ([], protected)
      end
  end.
Definition mask (text : pystr) : pystr * list (pystr * pystr) := mask_go (length text) [] text [].

Definition word_char (c : N) : bool := is_letter c || Regex.is_digit c || (c =? 95)%N.
Definition ideograph (c : N) : bool := ((19968 <=? c) && (c <=? 40959))%N.

(** [_STDLIB_TOKEN_RE.findall]: maximal runs of word characters, and ideographs *)
Fixpoint stdlib_tokens (run : pystr) (s : pystr) : list pystr :=
  let ended := match run with [] => [] | _ => [rev run] end in
  match s with
  | [] => ended
  | c :: s =>
      if word_char c then stdlib_tokens (c :: run) s
      else ended ++ (if ideograph c then [[c]] else []) ++ stdlib_tokens [] s
  end.

Definition _tokenize_impl (text : pystr) : list pystr :=
  match cut with
  | Some cut => filter (fun t => t <> []) (strip <$> cut text)
  | None => stdlib_tokens [] text
  end.

Definition tokenize_keywords (text : pystr) : list pystr :=
  let '(masked, protected) := mask text in
  (fun t => default t (dict_get t protected)) <$> _tokenize_impl masked.
End Tokenize.
