(* ===== verification/RagRetrievalProps.v ===== *)
(** * Properties of retrieval

    What the fusion of the two rankings returns and in which order, what the
    reranker can change, whose documents a search shows, and how the keywords of
    a text can go wrong. *)

From Corelib Require Import SpecFloat.
From stdpp Require Import sorting.
From S2P Require Import Prelude Json Regex ChatService RagText RagRetrieval.
Local Open Scope Z_scope.

(** ** The order of doubles *)

Definition is_number (x : float64) : bool := match x with S754_nan => false | _ => true end.
Definition at_least (a b : float64) : bool := negb (SFltb a b).

(** A number as a triple whose lexicographic order is the order of the numbers *)
Definition float_key (x : float64) : Z * Z * Z :=
  match x with
  | S754_nan | S754_zero _ => (0, 0, 0)
  | S754_infinity s => ((if s then -2 else 2), 0, 0)
  | S754_finite false m e => (1, e, Zpos m)
  | S754_finite true m e => (-1, -e, Zneg m)
  end.
Definition key_lt (a b : Z * Z * Z) : Prop :=
  a.1.1 < b.1.1 \/ a.1.1 = b.1.1 /\ (a.1.2 < b.1.2 \/ a.1.2 = b.1.2 /\ a.2 < b.2).

Ltac by_cases := try (split; intros; (discriminate || lia || reflexivity)).
Lemma ltb_key a b : is_number a = true -> is_number b = true ->
  (SFltb a b = true <-> key_lt (float_key a) (float_key b)).
Proof.
  unfold key_lt, SFltb. destruct a as [sa|[]| |[] ma ea], b as [sb|[]| |[] mb eb]; try discriminate; intros _ _; cbn;
    by_cases.
  all: destruct (Z.compare_spec ea eb); subst; cbn; by_cases.
  all: fold (Pos.compare ma mb); destruct (Pos.compare_spec ma mb); cbn; by_cases.
Qed.

Lemma at_least_key a b : is_number a = true -> is_number b = true ->
  (at_least a b = true <-> ~ key_lt (float_key a) (float_key b)).
Proof. intros Ha Hb. unfold at_least. rewrite <- ltb_key by done. destruct (SFltb a b); naive_solver. Qed.

Lemma at_least_total a b : is_number a = true -> is_number b = true -> at_least a b = true \/ at_least b a = true.
Proof. intros Ha Hb. rewrite !at_least_key by done. unfold key_lt. lia. Qed.
Lemma at_least_trans a b c : is_number a = true -> is_number b = true -> is_number c = true ->
  at_least a b = true -> at_least b c = true -> at_least a c = true.
Proof. intros Ha Hb Hc. rewrite !at_least_key by done. unfold key_lt. lia. Qed.

(** A sort is sorted where the order is total and transitive on the elements. *)
Lemma sort_by_sorted_on {A} (P : A -> Prop) (leb : A -> A -> bool) l :
  (forall x y, P x -> P y -> leb x y = true \/ leb y x = true) ->
  (forall x y z, P x -> P y -> P z -> leb x y = true -> leb y z = true -> leb x z = true) ->
  Forall P l -> StronglySorted (fun x y => leb x y = true) (sort_by leb l).
Proof.
  intros Htot Htr. induction 1 as [|x l Hx Hl IH]; simpl; [constructor|].
  rewrite <- (sort_by_perm leb) in Hl. revert IH Hl. generalize (sort_by leb l).
  clear l. intros l. induction 1 as [|y l Hs IHl Hy]; intros Hl; simpl; [by repeat constructor|].
  apply Forall_cons in Hl as [Py Hl]. destruct (leb x y) eqn:E.
  - constructor; [by constructor|]. constructor; [done|]. rewrite Forall_forall in Hy, Hl |- *.
    intros z Hz. eapply (Htr x y z); eauto.
  - constructor; [by apply IHl|]. rewrite insert_sorted_perm. constructor; [|done].
    destruct (Htot x y); [done|done|congruence|done].
Qed.

(** ** Positions *)

(** The first position of a text *)
Definition position (c : pystr) (ids : list pystr) : option nat := fst <$> list_find (fun x => x = c) ids.

Lemma position_some ids i c : NoDup ids -> ids !! i = Some c -> position c ids = Some i.
Proof.
  intros Hnd Hi. unfold position. destruct (list_find (fun x => x = c) ids) as [[j x]|] eqn:E.
  - apply list_find_Some in E as (Hj & -> & _). cbn. f_equal. by eapply NoDup_lookup.
  - apply list_find_None in E. rewrite Forall_forall in E. exfalso. eapply E; [|done]. by eapply list_elem_of_lookup_2.
Qed.
Lemma position_none ids c : c ∉ ids -> position c ids = None.
Proof.
  intros Hc. unfold position. destruct (list_find (fun x => x = c) ids) as [[j x]|] eqn:E; [|done].
  apply list_find_Some in E as (Hj & -> & _). exfalso. apply Hc. by eapply list_elem_of_lookup_2.
Qed.
Lemma position_lookup ids c i : position c ids = Some i -> ids !! i = Some c.
Proof.
  unfold position. destruct (list_find (fun x => x = c) ids) as [[j x]|] eqn:E; [|discriminate].
  intros [= <-]. by apply list_find_Some in E as (Hj & -> & _).
Qed.

(** ** Scores *)

Section Fusion.
Context (k : Z).

Definition share (i : option nat) : float64 :=
  match i with Some i => quotient 1 (k + (1 + Z.of_nat i)) | None => zero end.
(** The score of a chunk by its positions in the two rankings *)
Definition rrf (i j : option nat) : float64 :=
  match j with None => share i | Some _ => float_add (share i) (share j) end.

Lemma semantic_get l : forall rank scores c, NoDup (sr_chunk_id <$> l) ->
  dict_get c (add_semantic k rank l scores) =
  match position c (sr_chunk_id <$> l) with
  | Some i => (fun r => mkFusedEntry (quotient 1 (k + (rank + Z.of_nat i))) (ranked_semantic r)) <$> l !! i
  | None => dict_get c scores
  end.
Proof.
  induction l as [|r l IH]; intros rank scores c Hnd; [done|]. cbn [fmap list_fmap] in Hnd.
  apply NoDup_cons in Hnd as [Hr Hnd]. cbn [add_semantic]. rewrite IH by done. cbn [fmap list_fmap].
  destruct (decide (c = sr_chunk_id r)) as [->|Hc].
  - rewrite (position_none _ _ Hr), dict_get_set, decide_True by done.
    rewrite (position_some (sr_chunk_id r :: (sr_chunk_id <$> l)) 0 (sr_chunk_id r)); [|by constructor|done].
    cbn. do 3 f_equal. lia.
  - destruct (position c (sr_chunk_id <$> l)) as [i|] eqn:Ep.
    + rewrite (position_some (sr_chunk_id r :: (sr_chunk_id <$> l)) (S i) c);
        [|by constructor|by apply position_lookup in Ep].
      cbn. replace (k + (rank + 1 + Z.of_nat i)) with (k + (rank + Z.of_nat (S i))) by lia. done.
    + rewrite dict_get_set, decide_False by done. rewrite position_none; [done|].
      intros [->|Hin]%elem_of_cons; [done|]. apply list_elem_of_lookup in Hin as [i Hi].
      by rewrite (position_some _ _ _ Hnd Hi) in Ep.
Qed.

Lemma keyword_get l : forall rank scores c, NoDup (kr_chunk_id <$> l) ->
  dict_get c (add_keyword k rank l scores) =
  match position c (kr_chunk_id <$> l) with
  | Some i => (fun r => let e := default (mkFusedEntry zero (ranked_keyword r)) (dict_get c scores) in
                        mkFusedEntry (float_add (fe_score e) (quotient 1 (k + (rank + Z.of_nat i)))) (fe_chunk e)) <$> l !! i
  | None => dict_get c scores
  end.
Proof.
  induction l as [|r l IH]; intros rank scores c Hnd; [done|]. cbn [fmap list_fmap] in Hnd.
  apply NoDup_cons in Hnd as [Hr Hnd]. cbn [add_keyword]. rewrite IH by done. cbn [fmap list_fmap].
  destruct (decide (c = kr_chunk_id r)) as [->|Hc].
  - rewrite (position_none _ _ Hr), dict_get_set, decide_True by done.
    rewrite (position_some (kr_chunk_id r :: (kr_chunk_id <$> l)) 0 (kr_chunk_id r)); [|by constructor|done].
    cbn. do 4 f_equal. lia.
  - rewrite !dict_get_set, !(decide_False (P := c = kr_chunk_id r)) by done.
    destruct (position c (kr_chunk_id <$> l)) as [i|] eqn:Ep.
    + rewrite (position_some (kr_chunk_id r :: (kr_chunk_id <$> l)) (S i) c);
        [|by constructor|by apply position_lookup in Ep].
      cbn. replace (k + (rank + 1 + Z.of_nat i)) with (k + (rank + Z.of_nat (S i))) by lia. done.
    + rewrite position_none; [done|].
      intros [->|Hin]%elem_of_cons; [done|]. apply list_elem_of_lookup in Hin as [i Hi].
      by rewrite (position_some _ _ _ Hnd Hi) in Ep.
Qed.

Lemma semantic_NoDup l : forall rank scores, NoDup scores.*1 -> NoDup (add_semantic k rank l scores).*1.
Proof. induction l as [|r l IH]; intros rank scores Hs; [done|]. apply IH. by apply dict_set_NoDup. Qed.
Lemma keyword_NoDup l : forall rank scores, NoDup scores.*1 -> NoDup (add_keyword k rank l scores).*1.
Proof. induction l as [|r l IH]; intros rank scores Hs; [done|]. apply IH. by apply dict_set_NoDup. Qed.

(** *** The entries of the fusion *)

Context (sem : list SearchResult) (kw : list KeywordSearchResult).
Context (Hsem : NoDup (sr_chunk_id <$> sem)) (Hkw : NoDup (kr_chunk_id <$> kw)).

Definition semantic_at (c : pystr) : option nat := position c (sr_chunk_id <$> sem).
Definition keyword_at (c : pystr) : option nat := position c (kr_chunk_id <$> kw).
Definition score_of (c : pystr) : float64 := rrf (semantic_at c) (keyword_at c).
(** The chunk as the semantic ranking has it, else as the keyword ranking does *)
Definition chunk_of (c : pystr) : option _RankedChunk :=
  match semantic_at c with
  | Some i => ranked_semantic <$> sem !! i
  | None => j ← keyword_at c; ranked_keyword <$> kw !! j
  end.
Definition found_ids : list pystr := remove_dups ((sr_chunk_id <$> sem) ++ (kr_chunk_id <$> kw)).
Definition fused : entries := fused_scores k sem kw.

Lemma fused_get c : dict_get c fused = mkFusedEntry (score_of c) <$> chunk_of c.
Proof using Hsem Hkw.
  unfold fused, fused_scores. rewrite keyword_get, semantic_get by done. unfold score_of, chunk_of.
  fold (semantic_at c) (keyword_at c). assert (Hi := position_lookup (sr_chunk_id <$> sem) c). fold (semantic_at c) in Hi.
  assert (Hj := position_lookup (kr_chunk_id <$> kw) c). fold (keyword_at c) in Hj.
  destruct (keyword_at c) as [j|], (semantic_at c) as [i|]; cbn; try done.
  - specialize (Hi i eq_refl). specialize (Hj j eq_refl). rewrite list_lookup_fmap in Hi. rewrite list_lookup_fmap in Hj.
    destruct (sem !! i); [|discriminate]. destruct (kw !! j); [|discriminate]. done.
  - destruct (kw !! j); done.
  - destruct (sem !! i); done.
Qed.

Lemma chunk_of_id c x : chunk_of c = Some x -> rc_chunk_id x = c.
Proof.
  unfold chunk_of, semantic_at, keyword_at. intros H. destruct (position c (sr_chunk_id <$> sem)) as [i|] eqn:E.
  - apply position_lookup in E. rewrite list_lookup_fmap in E. destruct (sem !! i); [|discriminate]. by simplify_eq/=.
  - destruct (position c (kr_chunk_id <$> kw)) as [j|] eqn:E'; [|discriminate]. cbn in H.
    apply position_lookup in E'. rewrite list_lookup_fmap in E'. destruct (kw !! j); [|discriminate]. by simplify_eq/=.
Qed.

Lemma position_is_some ids c : is_Some (position c ids) <-> c ∈ ids.
Proof.
  unfold position. rewrite fmap_is_Some. split.
  - intros [[i x] (Hi & -> & _)%list_find_Some]. by eapply list_elem_of_lookup_2.
  - intros Hc. by eapply list_find_elem_of.
Qed.

Lemma found_ids_mem c : c ∈ found_ids <-> is_Some (semantic_at c) \/ is_Some (keyword_at c).
Proof. unfold found_ids, semantic_at, keyword_at. by rewrite elem_of_remove_dups, elem_of_app, !position_is_some. Qed.

Lemma fused_keys c : c ∈ fused.*1 <-> c ∈ found_ids.
Proof using Hsem Hkw.
  rewrite <- dict_get_mem, fused_get, fmap_is_Some, found_ids_mem. unfold chunk_of.
  assert (Hi := position_lookup (sr_chunk_id <$> sem) c). fold (semantic_at c) in Hi.
  assert (Hj := position_lookup (kr_chunk_id <$> kw) c). fold (keyword_at c) in Hj.
  destruct (semantic_at c) as [i|].
  - specialize (Hi i eq_refl). rewrite list_lookup_fmap in Hi. apply fmap_Some in Hi as (r & -> & _). naive_solver.
  - destruct (keyword_at c) as [j|]; cbn; [|by split; [intros [? ?]|intros [[? ?]|[? ?]]]].
    specialize (Hj j eq_refl). rewrite list_lookup_fmap in Hj. apply fmap_Some in Hj as (r & -> & _). naive_solver.
Qed.

Lemma fused_NoDup : NoDup fused.*1.
Proof. apply keyword_NoDup, semantic_NoDup. constructor. Qed.

Definition entry_id (e : _FusedEntry) : pystr := rc_chunk_id (fe_chunk e).

Lemma fused_entry e : e ∈ fused.*2 ->
  entry_id e ∈ found_ids /\ fe_score e = score_of (entry_id e) /\ chunk_of (entry_id e) = Some (fe_chunk e).
Proof using Hsem Hkw.
  intros ([c e'] & -> & He)%list_elem_of_fmap. cbn.
  assert (Hc : c ∈ fused.*1) by (apply list_elem_of_fmap; by exists (c, e')).
  apply (dict_get_elem _ _ _ fused_NoDup) in He. rewrite fused_get in He.
  destruct (chunk_of c) as [x|] eqn:E; [|discriminate]. injection He as <-. unfold entry_id. cbn.
  rewrite (chunk_of_id _ _ E). rewrite fused_keys in Hc. done.
Qed.

Lemma fused_ids : entry_id <$> fused.*2 = fused.*1.
Proof using Hsem Hkw.
  rewrite <- list_fmap_compose. apply list_fmap_ext. intros n [c e] He. cbn.
  apply list_elem_of_lookup_2 in He. apply (dict_get_elem _ _ _ fused_NoDup) in He. rewrite fused_get in He.
  destruct (chunk_of c) as [x|] eqn:E; [|discriminate]. injection He as <-. by apply (chunk_of_id _ _ E).
Qed.

Lemma fused_ids_perm : fused.*1 ≡ₚ found_ids.
Proof using Hsem Hkw. apply NoDup_Permutation; [apply fused_NoDup|apply NoDup_remove_dups|]. apply fused_keys. Qed.
End Fusion.

(** ** The default fusion: [rrf_k] = 60 and at most 25 candidates of each path *)

Definition best_of_one : float64 := rrf 60 (Some 0%nat) None.
Definition in_unit (d : float64) : bool := is_number d && at_least d zero && at_least float_one d.
Definition distance_of (best score : float64) : float64 := float_sub float_one (float_div score best).

(** What is checked of the score at positions [i] and [j] *)
Definition entry_ok (i j : option nat) : bool :=
  let s := rrf 60 i j in
  is_number s && in_unit (distance_of (quotient 2 61) s) &&
  match i, j with
  | Some _, Some _ => SFltb best_of_one s
  | _, _ => at_least best_of_one s && in_unit (distance_of (quotient 1 61) s)
  end.
Definition ranks : list nat := seq 0 25.

Lemma pair_table : forallb (fun i => forallb (fun j => entry_ok (Some i) (Some j)) ranks) ranks = true.
Proof. vm_compute. reflexivity. Qed.
Lemma semantic_table : forallb (fun i => entry_ok (Some i) None) ranks = true.
Proof. vm_compute. reflexivity. Qed.
Lemma keyword_table : forallb (fun j => entry_ok None (Some j)) ranks = true.
Proof. vm_compute. reflexivity. Qed.

Lemma entry_table i j : (forall n, i = Some n -> (n < 25)%nat) -> (forall n, j = Some n -> (n < 25)%nat) ->
  is_Some i \/ is_Some j -> entry_ok i j = true.
Proof.
  assert (Hr : forall n, (n < 25)%nat -> n ∈ ranks) by (intros n Hn; apply elem_of_seq; lia).
  assert (Hf : forall (f : nat -> bool) n, forallb f ranks = true -> (n < 25)%nat -> f n = true).
  { intros f n Hf Hn. rewrite List.forallb_forall in Hf. by apply Hf, list_elem_of_In, Hr. }
  intros Hi Hj Hor. destruct i as [i|], j as [j|]; [| | |by destruct Hor as [[? ?]|[? ?]]].
  - apply (Hf (fun j => entry_ok (Some i) (Some j))); [|by apply Hj].
    apply (Hf (fun i => forallb (fun j => entry_ok (Some i) (Some j)) ranks)); [apply pair_table|by apply Hi].
  - apply (Hf (fun i => entry_ok (Some i) None)); [apply semantic_table|by apply Hi].
  - apply (Hf (fun j => entry_ok None (Some j))); [apply keyword_table|by apply Hj].
Qed.

(** A chunk that both paths found *)
Definition in_both (sem : list SearchResult) (kw : list KeywordSearchResult) (c : pystr) : bool :=
  bool_decide (is_Some (semantic_at sem c)) && bool_decide (is_Some (keyword_at kw c)).

(** [a] may stand before [b]: its score is not less, and a chunk found by one path
    only does not stand before one that both found. *)
Definition ranked_before (sem : list SearchResult) (kw : list KeywordSearchResult) (a b : pystr) : Prop :=
  at_least (score_of 60 sem kw a) (score_of 60 sem kw b) = true /\ (in_both sem kw b = true -> in_both sem kw a = true).

Section Defaults.
Context (sem : list SearchResult) (kw : list KeywordSearchResult).
Context (Hsem : NoDup (sr_chunk_id <$> sem)) (Hkw : NoDup (kr_chunk_id <$> kw)).
Context (Lsem : (length sem <= 25)%nat) (Lkw : (length kw <= 25)%nat).

Lemma found_ok c : c ∈ found_ids sem kw -> entry_ok (semantic_at sem c) (keyword_at kw c) = true.
Proof using Lsem Lkw.
  intros Hc%found_ids_mem. apply entry_table; [| |done].
  - intros n Hn. apply position_lookup, lookup_lt_Some in Hn. rewrite length_fmap in Hn. lia.
  - intros n Hn. apply position_lookup, lookup_lt_Some in Hn. rewrite length_fmap in Hn. lia.
Qed.

Lemma found_number c : c ∈ found_ids sem kw -> is_number (score_of 60 sem kw c) = true.
Proof using Lsem Lkw. intros H%found_ok. unfold entry_ok in H. by apply andb_prop in H as [[H _]%andb_prop _]. Qed.

Lemma found_before a b : a ∈ found_ids sem kw -> b ∈ found_ids sem kw ->
  at_least (score_of 60 sem kw a) (score_of 60 sem kw b) = true -> ranked_before sem kw a b.
Proof using Lsem Lkw.
  intros Ha Hb Hab. split; [done|]. intros Hboth. destruct (in_both sem kw a) eqn:E; [done|]. exfalso.
  assert (Na := found_number _ Ha). assert (Nb := found_number _ Hb).
  apply found_ok in Ha. apply found_ok in Hb. unfold in_both in *. unfold score_of in *.
  assert (H1 : at_least best_of_one (rrf 60 (semantic_at sem a) (keyword_at kw a)) = true).
  { unfold entry_ok in Ha. apply andb_prop in Ha as [_ Ha].
    destruct (semantic_at sem a), (keyword_at kw a); [discriminate E|..]; by apply andb_prop in Ha as [Ha _]. }
  assert (H2 : SFltb best_of_one (rrf 60 (semantic_at sem b) (keyword_at kw b)) = true).
  { unfold entry_ok in Hb. apply andb_prop in Hb as [_ Hb]. apply andb_prop in Hboth as [H1' H2'].
    apply bool_decide_eq_true in H1' as [i Hi]. apply bool_decide_eq_true in H2' as [j Hj]. by rewrite Hi, Hj in Hb |- *. }
  assert (H3 := at_least_trans best_of_one _ _ eq_refl Na Nb H1 Hab). unfold at_least in H3. by rewrite H2 in H3.
Qed.

(** Where one ranking is empty no chunk is found by both paths. *)
Lemma best_in_unit c : c ∈ found_ids sem kw ->
  in_unit (distance_of (best_score 60 sem kw) (score_of 60 sem kw c)) = true.
Proof using All.
  intros Hc%found_ok. unfold score_of, entry_ok in *. apply andb_prop in Hc as [[_ H2]%andb_prop Hc].
  unfold semantic_at, keyword_at in *. destruct sem as [|x l].
  - cbn in Hc |- *. destruct (position c (kr_chunk_id <$> kw)); by apply andb_prop in Hc as [_ Hc].
  - destruct kw as [|y l']; [|exact H2]. cbn [best_score].
    change (position c (kr_chunk_id <$> [])) with (@None nat) in *.
    destruct (position c (sr_chunk_id <$> x :: l)); by apply andb_prop in Hc as [_ Hc].
Qed.
End Defaults.

Section Ranking.
Context (sem : list SearchResult) (kw : list KeywordSearchResult).
Context (Hsem : NoDup (sr_chunk_id <$> sem)) (Hkw : NoDup (kr_chunk_id <$> kw)).
Context (Lsem : (length sem <= 25)%nat) (Lkw : (length kw <= 25)%nat).

Definition ranking : list _FusedEntry := sort_by by_score (fused 60 sem kw).*2.

Lemma ranking_mem e : e ∈ ranking <-> e ∈ (fused 60 sem kw).*2.
Proof. unfold ranking. by rewrite sort_by_perm. Qed.

Lemma ranking_found e : e ∈ ranking -> entry_id e ∈ found_ids sem kw.
Proof using Hsem Hkw. rewrite ranking_mem. intros H. by apply (fused_entry 60 sem kw Hsem Hkw) in H as (? & _). Qed.

Lemma ranking_ids : entry_id <$> ranking ≡ₚ found_ids sem kw.
Proof using Hsem Hkw.
  unfold ranking. rewrite sort_by_perm, (fused_ids 60 sem kw Hsem Hkw). by apply fused_ids_perm.
Qed.

Lemma ranking_sorted : StronglySorted (fun a b => ranked_before sem kw (entry_id a) (entry_id b)) ranking.
Proof using All.
  assert (Hin : forall e, e ∈ ranking -> fe_score e = score_of 60 sem kw (entry_id e)).
  { intros e He%ranking_mem. by apply (fused_entry 60 sem kw Hsem Hkw) in He as (_ & ? & _). }
  assert (Hs : StronglySorted (fun a b => by_score a b = true) ranking).
  { apply (sort_by_sorted_on (fun e => is_number (fe_score e) = true)).
    - intros x y. apply at_least_total.
    - intros x y z Hx Hy Hz. by apply at_least_trans.
    - apply Forall_forall. intros e He. rewrite <- ranking_mem in He. rewrite (Hin _ He).
      by apply found_number, ranking_found. }
  assert (Hf := ranking_found). induction Hs as [|x l Hl IH Hx]; [constructor|].
  constructor; [apply IH; intros; [apply Hin|apply Hf]; by right|].
  rewrite Forall_forall in Hx |- *. intros y Hy. specialize (Hx y Hy). unfold by_score in Hx.
  rewrite (Hin x), (Hin y) in Hx by (by left || by right). apply found_before; try done; apply Hf; [by left|by right].
Qed.
End Ranking.

Lemma to_result_id best e : sr_chunk_id (to_result best e) = entry_id e.
Proof. done. Qed.
Lemma to_result_chunk best e : ranked_semantic (to_result best e) = fe_chunk e.
Proof. by destruct e as [s []]. Qed.

(** The fused ranking of at most 25 semantic and 25 keyword candidates, as the
    defaults ask for, holds every chunk at most once, the [top_k] best of all that
    either path found.  A chunk that both paths found stands before every chunk
    that only one of them found; otherwise the sum of the reciprocal ranks decides,
    and no chunk that was left out has a better one.  Each result repeats the chunk
    of its path and its distance, one minus the share of the best possible score, is
    a number between 0 and 1. *)
Theorem fusion_ranks (sem : list SearchResult) (kw : list KeywordSearchResult) (top_k : Z) :
  NoDup (sr_chunk_id <$> sem) -> NoDup (kr_chunk_id <$> kw) ->
  (length sem <= 25)%nat -> (length kw <= 25)%nat -> 0 <= top_k ->
  let out := _fuse sem kw top_k 60 in
  let ids := sr_chunk_id <$> out in
  NoDup ids /\ ids ⊆ found_ids sem kw /\
  Z.of_nat (length out) = Z.min top_k (Z.of_nat (length (found_ids sem kw))) /\
  StronglySorted (ranked_before sem kw) ids /\
  (forall a b, a ∈ ids -> b ∈ found_ids sem kw -> b ∉ ids -> ranked_before sem kw a b) /\
  (forall r, r ∈ out ->
     chunk_of sem kw (sr_chunk_id r) = Some (ranked_semantic r) /\
     sr_distance r = distance_of (best_score 60 sem kw) (score_of 60 sem kw (sr_chunk_id r)) /\
     in_unit (sr_distance r) = true).
Proof.
  intros Hsem Hkw Lsem Lkw Hk. cbv zeta. unfold _fuse, first_k. rewrite (proj2 (Z.leb_le _ _) Hk).
  fold (fused 60 sem kw). fold (ranking sem kw). set (n := Z.to_nat top_k).
  assert (Hids := ranking_ids sem kw Hsem Hkw).
  rewrite <- list_fmap_compose. change (sr_chunk_id ∘ to_result _) with entry_id.
  assert (Hsplit : ranking sem kw = take n (ranking sem kw) ++ drop n (ranking sem kw)) by (by rewrite take_drop).
  assert (Hsorted := ranking_sorted sem kw Hsem Hkw Lsem Lkw). rewrite Hsplit in Hsorted.
  assert (Hnd : NoDup (entry_id <$> ranking sem kw)) by (rewrite Hids; apply NoDup_remove_dups).
  split_and!.
  - rewrite Hsplit, fmap_app in Hnd. by apply NoDup_app in Hnd as [? _].
  - intros c (e & -> & He)%list_elem_of_fmap. rewrite <- Hids. apply list_elem_of_fmap. exists e. split; [done|].
    rewrite Hsplit. apply elem_of_app. by left.
  - rewrite length_fmap, length_take, <- Hids, length_fmap. lia.
  - eapply StronglySorted_fmap; [|by apply StronglySorted_app_1_l in Hsorted]. done.
  - intros a b (ea & -> & Ha)%list_elem_of_fmap Hb Hnot. rewrite <- Hids in Hb.
    apply list_elem_of_fmap in Hb as (eb & -> & Hb). rewrite Hsplit in Hb.
    apply elem_of_app in Hb as [Hb|Hb]; [|by apply (StronglySorted_app_1_elem_of _ _ _ ea eb Hsorted)]. exfalso. apply Hnot, list_elem_of_fmap. eauto.
  - intros r (e & -> & He)%list_elem_of_fmap.
    assert (Hin : e ∈ (fused 60 sem kw).*2).
    { rewrite <- ranking_mem. rewrite Hsplit. apply elem_of_app. by left. }
    apply (fused_entry 60 sem kw Hsem Hkw) in Hin as (Hf & Hs & Hc). rewrite to_result_id, to_result_chunk.
    split; [done|]. cbn [to_result sr_distance]. rewrite <- Hs. split; [done|]. rewrite Hs.
    by apply (best_in_unit sem kw Hsem Hkw Lsem Lkw).
Qed.

Definition sample_semantic (i : Z) : SearchResult := mkSearchResult (u "doc") (u "s" ++ str_of_Z i) i (u "text") zero.
Definition sample_keyword (i : Z) : KeywordSearchResult := mkKeywordResult (u "doc") (u "s" ++ str_of_Z i) i (u "text") zero.

(** Two rankings that share a chunk each of them has last *)
Lemma fusion_ranks_witness :
  let sem := [sample_semantic 1; sample_semantic 2] in let kw := [sample_keyword 3; sample_keyword 2] in
  sr_chunk_id <$> _fuse sem kw 2 60 = [u "s2"; u "s1"] /\
  StronglySorted (ranked_before sem kw) (sr_chunk_id <$> _fuse sem kw 2 60).
Proof.
  cbv zeta. split; [vm_compute; reflexivity|].
  apply (fusion_ranks [sample_semantic 1; sample_semantic 2] [sample_keyword 3; sample_keyword 2] 2);
    try (vm_compute; lia); apply (bool_decide_unpack _); vm_compute; exact I.
Defined.

(** ** Reranking *)

Lemma reranked_chunk r x : ranked_semantic (_with_reranked_distance r x) = ranked_semantic r.
Proof. by destruct x. Qed.

Lemma imap_snd {A} (l : list A) : (imap (fun i r => (Z.of_nat i, r)) l).*2 = l.
Proof. rewrite fmap_imap. change (imap (const id) l = l). by rewrite imap_const, list_fmap_id. Qed.

Lemma reordered_chunks scores results :
  ranked_semantic <$> reordered scores results ≡ₚ ranked_semantic <$> results.
Proof.
  unfold reordered. rewrite <- list_fmap_compose.
  transitivity ((ranked_semantic ∘ snd) <$> sort_by (by_relevance scores) (imap (fun i r => (Z.of_nat i, r)) results)).
  { apply Permutation_refl', list_fmap_ext. intros i p _. apply reranked_chunk. }
  rewrite sort_by_perm, list_fmap_compose. by rewrite imap_snd.
Qed.

(** The reranker neither adds nor loses a chunk. *)
Lemma rerank_chunks answer results : ranked_semantic <$> rerank answer results ≡ₚ ranked_semantic <$> results.
Proof.
  unfold rerank. destruct results as [|r results]; [done|].
  destruct (answer ≫= rerank_scores); [apply reordered_chunks|done].
Qed.

Lemma first_k_length {A} n (l : list A) : 0 <= n -> Z.of_nat (length (first_k n l)) <= n.
Proof. intros Hn. unfold first_k. rewrite (proj2 (Z.leb_le _ _) Hn), length_take. lia. Qed.
Lemma first_k_mem {A} n (l : list A) x : x ∈ first_k n l -> x ∈ l.
Proof. unfold first_k. intros Hx. destruct (0 <=? n); by apply elem_of_take in Hx as (i & Hi%list_elem_of_lookup_2 & _). Qed.
Lemma first_k_fmap {A B} (f : A -> B) n l : first_k n (f <$> l) = f <$> first_k n l.
Proof. unfold first_k. rewrite length_fmap. by destruct (0 <=? n); rewrite fmap_take. Qed.
Lemma first_k_first_k {A} n m (l : list A) : 0 <= n <= m -> first_k n (first_k m l) = first_k n l.
Proof.
  intros H. unfold first_k. rewrite !(proj2 (Z.leb_le _ _)) by lia. rewrite take_take. f_equal. lia.
Qed.

(** ** Searching *)

Lemma dict_set_all {V} (P : pystr * V -> Prop) k v d : P (k, v) -> Forall P d -> Forall P (dict_set k v d).
Proof.
  intros Hv. induction 1 as [|[k' v'] d Hd Hds IH]; simpl; [by repeat constructor|].
  case_decide; subst; constructor; auto.
Qed.

(** The chunks of the two rankings *)
Definition chunks_of (sem : list SearchResult) (kw : list KeywordSearchResult) : list _RankedChunk :=
  (ranked_semantic <$> sem) ++ (ranked_keyword <$> kw).

Lemma fused_chunks k sem kw : Forall (fun p => fe_chunk p.2 ∈ chunks_of sem kw) (fused_scores k sem kw).
Proof.
  unfold fused_scores.
  assert (Hs : forall l rank d, l ⊆ sem -> Forall (fun p => fe_chunk p.2 ∈ chunks_of sem kw) d ->
    Forall (fun p => fe_chunk p.2 ∈ chunks_of sem kw) (add_semantic k rank l d)).
  { induction l as [|r l IH]; intros rank d Hl Hd; [done|]. apply IH; [set_solver|]. apply dict_set_all; [|done].
    cbn. apply elem_of_app. left. apply list_elem_of_fmap. exists r. split; [done|]. apply Hl. by left. }
  assert (Hk : forall l rank d, l ⊆ kw -> Forall (fun p => fe_chunk p.2 ∈ chunks_of sem kw) d ->
    Forall (fun p => fe_chunk p.2 ∈ chunks_of sem kw) (add_keyword k rank l d)).
  { induction l as [|r l IH]; intros rank d Hl Hd; [done|]. apply IH; [set_solver|]. apply dict_set_all; [|done].
    cbn. destruct (dict_get (kr_chunk_id r) d) as [e|] eqn:E; cbn.
    - apply dict_get_Some in E. rewrite Forall_forall in Hd. by apply (Hd _ E).
    - apply elem_of_app. right. apply list_elem_of_fmap. exists r. split; [done|]. apply Hl. by left. }
  apply Hk; [done|]. apply Hs; [done|]. constructor.
Qed.

Lemma fuse_chunks sem kw top_k k r : r ∈ _fuse sem kw top_k k -> ranked_semantic r ∈ chunks_of sem kw.
Proof.
  unfold _fuse. intros (e & -> & He%first_k_mem)%list_elem_of_fmap. rewrite sort_by_perm in He.
  apply list_elem_of_fmap in He as ([c e'] & -> & He). rewrite to_result_chunk.
  assert (H := fused_chunks k sem kw). rewrite Forall_forall in H. by apply (H _ He).
Qed.

Section Search.
Context {E W : Type}.
Context (store_search : list float64 -> Z -> option pystr -> W -> result E (list SearchResult) * W)
  (store_keyword_search : pystr -> Z -> option pystr -> W -> result E (list KeywordSearchResult) * W)
  (ask : pystr -> list SearchResult -> W -> option json * W).
Context (rrf_k candidate_k rerank_candidate_k : Z) (retrieval_mode : mode).

Abbreviation searching r := (search store_search store_keyword_search r rrf_k candidate_k rerank_candidate_k retrieval_mode).

(** What a search shows comes from what the store answered for its owner. *)
Definition from_store (owner : option pystr) (c : _RankedChunk) : Prop :=
  (exists e w rs, (store_search e candidate_k owner w).1 = Ok rs /\ c ∈ (ranked_semantic <$> rs)) \/
  (exists q w rs, (store_keyword_search q candidate_k owner w).1 = Ok rs /\ c ∈ (ranked_keyword <$> rs)).

Lemma search_shape r e top_k owner query w rs w' :
  searching r e top_k owner query w = (Ok rs, w') ->
  exists sem kw, (forall c, c ∈ chunks_of sem kw -> from_store owner c) /\
    (rs = _fuse sem kw top_k rrf_k \/
     exists answer, rs = first_k top_k (rerank answer (_fuse sem kw (Z.max top_k rerank_candidate_k) rrf_k))).
Proof.
  unfold search.
  destruct (match retrieval_mode with hybrid => _ | keyword_only => _ end) as [semantic w1] eqn:Es.
  destruct semantic as [sem|]; [|discriminate].
  destruct (match query_given query with Some q => _ | None => _ end) as [keyword w2] eqn:Ek.
  destruct keyword as [kw|]; [|discriminate]. intros H. exists sem, kw. split.
  - intros c [Hc|Hc]%elem_of_app; [left|right].
    + destruct retrieval_mode; [|simplify_eq/=; by apply elem_of_nil in Hc]. exists e, w, sem. by rewrite Es.
    + destruct (query_given query) as [q|]; [|simplify_eq/=; by apply elem_of_nil in Hc]. exists q, w1, kw. by rewrite Ek.
  - destruct r as [ask'|]; [|simplify_eq; by left].
    destruct (query_given query) as [q|]; [|simplify_eq; by left].
    destruct (_fuse sem kw _ rrf_k) as [|x l]; [simplify_eq; right; exists None; unfold first_k; cbn; by destruct (0 <=? top_k), (Z.to_nat _)|].
    destruct (ask' q (x :: l) w2) as [answer w3]. simplify_eq. right. by exists answer.
Qed.

Lemma fuse_first_k sem kw top_k n k : 0 <= top_k ->
  first_k top_k (_fuse sem kw (Z.max top_k n) k) = _fuse sem kw top_k k.
Proof. intros Hk. unfold _fuse. rewrite first_k_fmap, first_k_first_k by lia. done. Qed.

Lemma rerank_failed answer results : answer ≫= rerank_scores = None -> rerank answer results = results.
Proof. intros H. unfold rerank. rewrite H. by destruct results. Qed.

(** A search shows at most [top_k] chunks, each of which the vector store
    returned to one of the two searches made for that owner, with or without a
    reranker; and where the reranking API fails, or answers without usable scores,
    the caller gets what it would have got without a reranker. *)
Theorem search_from_store (reranker : option (pystr -> list SearchResult -> W -> option json * W))
  (e : list float64) (top_k : Z) (owner query : option pystr) (w : W) :
  0 <= top_k ->
  (forall rs, (searching reranker e top_k owner query w).1 = Ok rs ->
     Z.of_nat (length rs) <= top_k /\ forall r, r ∈ rs -> from_store owner (ranked_semantic r)) /\
  ((forall q l w, (ask q l w).1 ≫= rerank_scores = None) ->
     (searching (Some ask) e top_k owner query w).1 = (searching None e top_k owner query w).1).
Proof.
  intros Hk. split.
  - intros rs H. destruct (searching reranker e top_k owner query w) as [res w'] eqn:Ew. cbn in H. subst res.
    apply search_shape in Ew as (sem & kw & Hfrom & Hrs). destruct Hrs as [->|[answer ->]].
    + split; [|intros r Hr; eapply Hfrom, fuse_chunks, Hr].
      unfold _fuse. rewrite length_fmap. by apply first_k_length.
    + split; [by apply first_k_length|]. intros r Hr%first_k_mem. apply Hfrom.
      assert (Hp : ranked_semantic r ∈ (ranked_semantic <$> _fuse sem kw (Z.max top_k rerank_candidate_k) rrf_k)).
      { rewrite <- (rerank_chunks answer). apply list_elem_of_fmap. by exists r. }
      apply list_elem_of_fmap in Hp as (r' & -> & Hr'). eapply fuse_chunks, Hr'.
  - intros Hask. unfold search.
    destruct (match retrieval_mode with hybrid => _ | keyword_only => _ end) as [[semantic|] w1]; [|done].
    destruct (match query_given query with Some q => _ | None => _ end) as [[keyword|] w2]; [|done].
    destruct (query_given query) as [q|]; [|done].
    assert (Hf := fuse_first_k semantic keyword top_k rerank_candidate_k rrf_k Hk).
    destruct (_fuse semantic keyword (Z.max top_k rerank_candidate_k) rrf_k) as [|x l] eqn:El.
    + rewrite <- Hf. unfold first_k. cbn. by destruct (0 <=? top_k), (Z.to_nat _).
    + specialize (Hask q (x :: l) w2). destruct (ask q (x :: l) w2) as [answer w3]. cbn [fst] in Hask |- *.
      by rewrite rerank_failed, Hf.
Qed.
End Search.

(** A store that knows three chunks and an API that answers without scores *)
Definition sample_store_search (_ : list float64) (_ : Z) (owner : option pystr) (w : nat)
  : result unit (list SearchResult) * nat :=
  (Ok (if decide (owner = Some (u "me")) then [sample_semantic 1; sample_semantic 2] else []), S w).
Definition sample_store_keyword (_ : pystr) (_ : Z) (owner : option pystr) (w : nat)
  : result unit (list KeywordSearchResult) * nat :=
  (Ok (if decide (owner = Some (u "me")) then [sample_keyword 2; sample_keyword 3] else []), S w).
Definition sample_ask (_ : pystr) (_ : list SearchResult) (w : nat) : option json * nat :=
  (Some (JObj [(u "data", JArr [])]), S w).

Lemma search_from_store_witness :
  let go r := search sample_store_search sample_store_keyword r 60 25 15 hybrid [] 2 (Some (u "me")) (Some (u "q")) 0%nat in
  match (go None).1 with Ok rs => sr_chunk_id <$> rs | Err _ => [] end = [u "s2"; u "s1"] /\
  (go (Some sample_ask)).1 = (go None).1.
Proof.
  cbv zeta. split; [vm_compute; reflexivity|].
  apply (search_from_store sample_store_search sample_store_keyword sample_ask 60 25 15 hybrid None [] 2
    (Some (u "me")) (Some (u "q")) 0%nat); [lia|]. intros q l w. reflexivity.
Defined.

(** ** Keywords *)

(** A code is kept whole where it stands by itself, *)
Example code_kept :
  tokenize_keywords Regex.is_digit None (u "error E10023 again") = [u "error"; u "E10023"; u "again"].
Proof. vm_compute. reflexivity. Qed.
(** but where a letter follows, the placeholder is left in its place, and two
    different codes become the same keyword; *)
Example code_lost :
  tokenize_keywords Regex.is_digit None (u "E10023x") = [u "ptk0x"] /\
  tokenize_keywords Regex.is_digit None (u "E10024x") = [u "ptk0x"].
Proof. split; vm_compute; reflexivity. Qed.
(** and a text that says ptk0 is given the keyword of a code. *)
Example code_invented :
  tokenize_keywords Regex.is_digit None (u "ptk0 E10023") = [u "E10023"; u "E10023"].
Proof. vm_compute. reflexivity. Qed.
