(* ===== verification/Evals.v ===== *)
(** * Golden evaluations: [app/evals/models.py], [jsonl.py], [matching.py], [stats.py] and [runner.py]

    The golden cases with their validation, their JSONL text and its reading, the
    statistics in double precision, and the runner with its report.  The run of a
    case and the clock act on a world; the text of a decoding error is an
    argument. *)

From Corelib Require Import SpecFloat.
From S2P Require Import Prelude Json JsonLoads AgentRuntime RagRetrieval.
Local Open Scope Z_scope.

(** ** Helpers of the library *)

(** An exception with its text; [GoldenDatasetError] is a [ValueError]. *)
Inductive eval_error := ValueError (text : pystr) | TypeError (text : pystr) | GoldenDatasetError (text : pystr).
Definition eval_text (e : eval_error) : pystr :=
  match e with ValueError t => t | TypeError t => t | GoldenDatasetError t => t end.
Definition eval_name (e : eval_error) : pystr :=
  match e with ValueError _ => u "ValueError" | TypeError _ => u "TypeError" | GoldenDatasetError _ => u "GoldenDatasetError" end.

Definition blank (s : pystr) : bool := bool_decide (strip s = []).

(** [part in text] *)
Fixpoint is_in (part text : pystr) : bool :=
  starts_with part text || match text with [] => false | _ :: text => is_in part text end.

(** [str.splitlines] *)
Definition line_break (c : N) : bool := bool_decide (c ∈ [10; 11; 12; 13; 28; 29; 30; 133; 8232; 8233]%N).
Fixpoint splitlines_go (line s : pystr) : list pystr :=
  match s with
  | [] => match line with [] => [] | _ => [rev line] end
  | c :: s =>
      if line_break c then
        rev line :: match s with
                    | d :: s' => if ((c =? 13) && (d =? 10))%N then splitlines_go [] s' else splitlines_go [] s
                    | [] => []
                    end
      else splitlines_go (c :: line) s
  end.
Definition splitlines (s : pystr) : list pystr := splitlines_go [] s.

(** [json.loads] with a [parse_constant] that raises: the letters I and N stand
    outside the strings of a JSON text only in [NaN], [Infinity] and [-Infinity]. *)
Fixpoint outside_strings (inside : bool) (s : pystr) : pystr :=
  match s with
  | [] => []
  | c :: s =>
      if inside then
        if (c =? 92)%N then match s with _ :: s' => outside_strings true s' | [] => [] end
        else outside_strings (negb (c =? 34)%N) s
      else if (c =? 34)%N then outside_strings true s
      else c :: outside_strings false s
  end.
Definition constant_letter (c : N) : bool := ((c =? 73) || (c =? 78))%N.
Definition strict_loads (s : pystr) : option json :=
  if existsb constant_letter (outside_strings false s) then None else loads s.

(** ** Statistics *)

(** An integer as a double, and the quotient of two integers, [0 <= n], [0 < d] *)
Definition float_of (n : Z) : float64 :=
  match n with Z0 => zero | Zpos p => round_ratio false p 1 | Zneg p => round_ratio true p 1 end.
Definition ratio (n d : Z) : float64 := match n with Zpos p => round_ratio false p (Z.to_pos d) | _ => zero end.
Definition float_mul : float64 -> float64 -> float64 := SFmul 53 1024.
Definition is_finite (x : float64) : bool := match x with S754_zero _ | S754_finite _ _ _ => true | _ => false end.

(** [sum] of floats in CPython 3.12 and later (Neumaier's compensated sum) *)
Fixpoint sum_go (f c : float64) (values : list float64) : float64 :=
  match values with
  | [] => if is_finite c && negb (bool_decide (c = S754_zero false) || bool_decide (c = S754_zero true))
          then float_add f c else f
  | x :: values =>
      let t := float_add f x in
      let rest := if SFltb (SFabs f) (SFabs x) then float_add (float_sub x t) f else float_add (float_sub f t) x in
      sum_go t (float_add c rest) values
  end.
Definition float_sum (values : list float64) : float64 :=
  match values with [] => zero | x :: values => sum_go (float_add zero x) zero values end.

Definition average (values : list float64) : option float64 :=
  match values with [] => None | _ => Some (float_div (float_sum values) (float_of (Z.of_nat (length values)))) end.

(** [math.floor] and [math.ceil] of a double that is not negative *)
Definition float_floor (x : float64) : Z := match x with S754_finite _ m e => float_num m e / float_den e | _ => 0 end.
Definition float_ceil (x : float64) : Z :=
  match x with S754_finite _ m e => - (- float_num m e / float_den e) | _ => 0 end.

Definition percentile (values : list float64) (p : float64) : result eval_error float64 :=
  match values with
  | [] => Ok zero
  | _ =>
      if SFleb zero p && SFleb p float_one then
        let ordered := sort_by (fun a b => negb (SFltb b a)) values in
        let position := float_mul (float_of (Z.of_nat (length ordered) - 1)) p in
        let lower := float_floor position in
        let upper := float_ceil position in
        let at_ i := default zero (ordered !! Z.to_nat i) in
        if lower =? upper then Ok (at_ lower)
        else Ok (float_add (at_ lower) (float_mul (float_sub (at_ upper) (at_ lower)) (float_sub position (float_of lower))))
      else Err (ValueError (u "percentile must be between zero and one"))
  end.

(** ** Matching *)

Definition answer_matches_expected (expected_fragments : option (list pystr)) (answer : option pystr) : bool :=
  match expected_fragments, answer with
  | None, _ => true
  | Some _, None => false
  | Some fragments, Some answer => forallb (fun f => is_in f answer) fragments
  end.

(** ** Golden cases *)

(** [_is_json_value] of a value that was read from JSON *)
Fixpoint _is_json_value (v : json) : bool :=
  match v with
  | JFloat x => is_finite x
  | JArr l => forallb _is_json_value l
  | JObj d => forallb (fun kv => _is_json_value kv.2) d
  | _ => true
  end.

Definition normalize_items (field_name : pystr) : list json -> result eval_error (list pystr) :=
  fix go (l : list json) := match l with
  | [] => Ok []
  | JStr s :: l => if blank s then Err (ValueError (field_name ++ u " values must be non-empty strings"))
                   else s' ← go l; Ok (s :: s')
  | _ => Err (ValueError (field_name ++ u " values must be non-empty strings"))
  end.
Definition _normalize_optional_strings (field_name : pystr) (value : option (list json))
  : result eval_error (option (list pystr)) :=
  match value with None => Ok None | Some l => Some <$> normalize_items field_name l end.
Definition _parse_string_sequence (field_name : pystr) (value : json) : result eval_error (option (list pystr)) :=
  match value with
  | JNull => Ok None
  | JStr s => _normalize_optional_strings field_name (Some [JStr s])
  | JArr l => _normalize_optional_strings field_name (Some l)
  | _ => Err (TypeError (field_name ++ u " must be a string, array, or null"))
  end.
(** The normalisation of what is already a tuple of strings *)
Definition normalized (field_name : pystr) (value : option (list pystr)) : result eval_error (option (list pystr)) :=
  _normalize_optional_strings field_name ((fun l : list pystr => JStr <$> l) <$> value).

Record EvalCase := mkEvalCase {
  gc_case_id : pystr;
  gc_input : pystr;
  gc_expected_answer_contains : option (list pystr);
  gc_expected_tools : option (list pystr);
  gc_metadata : list (pystr * json);
  gc_max_steps : Z
}.

Definition strict_values (metadata : list (pystr * json)) : bool := forallb _is_json_value metadata.*2.

(** [EvalCase(...)] with [__post_init__] *)
Definition new_case (case_id input : pystr) (answer_contains tools : option (list pystr))
    (metadata : list (pystr * json)) (max_steps : Z) : result eval_error EvalCase :=
  _ ← raise_if (blank case_id) (ValueError (u "case_id must not be empty"));
  _ ← raise_if (blank input) (ValueError (u "input must not be empty"));
  _ ← raise_if (max_steps <=? 0) (ValueError (u "max_steps must be greater than zero"));
  _ ← raise_if (negb (strict_values metadata)) (TypeError (u "metadata values must be strict JSON values"));
  answer_contains ← normalized (u "expected_answer_contains") answer_contains;
  tools ← normalized (u "expected_tools") tools;
  Ok (mkEvalCase case_id input answer_contains tools metadata max_steps).

Definition of_opt {A} (f : A -> json) (o : option A) : json := match o with Some a => f a | None => JNull end.
Definition strings (l : list pystr) : json := JArr (JStr <$> l).
Definition case_to_dict (c : EvalCase) : json :=
  JObj [(u "case_id", JStr (gc_case_id c)); (u "input", JStr (gc_input c));
        (u "expected_answer_contains", of_opt strings (gc_expected_answer_contains c));
        (u "expected_tools", of_opt strings (gc_expected_tools c));
        (u "metadata", JObj (gc_metadata c)); (u "max_steps", JInt (gc_max_steps c))].

(** [payload.get(key)] *)
Definition get (key : pystr) (payload : list (pystr * json)) : json := default JNull (dict_get key payload).

(** The fields that are not allowed or missing, sorted *)
Definition extra_fields (allowed : list pystr) (payload : list (pystr * json)) : list pystr :=
  sort_by str_leb (filter (fun k => k ∉ allowed) payload.*1).
Definition missing_fields (required : list pystr) (payload : list (pystr * json)) : list pystr :=
  sort_by str_leb (filter (fun k => k ∉ payload.*1) required).
Definition check_fields (what : pystr) (allowed required : list pystr) (payload : list (pystr * json)) : result eval_error unit :=
  match extra_fields allowed payload, missing_fields required payload with
  | (_ :: _) as names, _ => Err (ValueError (u "unknown " ++ what ++ u " fields: " ++ sjoin (u ", ") names))
  | [], (_ :: _) as names => Err (ValueError (u "missing " ++ what ++ u " fields: " ++ sjoin (u ", ") names))
  | [], [] => Ok tt
  end.

Definition text_field (key : pystr) (payload : list (pystr * json)) : result eval_error pystr :=
  match get key payload with JStr s => Ok s | _ => Err (TypeError (key ++ u " must be a string")) end.
Definition metadata_field (payload : list (pystr * json)) : result eval_error (list (pystr * json)) :=
  match default (JObj []) (dict_get (u "metadata") payload) with
  | JObj d => if strict_values d then Ok d else Err (TypeError (u "metadata must contain only strict JSON values"))
  | _ => Err (TypeError (u "metadata must be a JSON object"))
  end.

Definition case_from_dict (payload : list (pystr * json)) : result eval_error EvalCase :=
  _ ← check_fields (u "golden case")
        [u "case_id"; u "input"; u "expected_answer_contains"; u "expected_tools"; u "metadata"; u "max_steps"]
        [u "case_id"; u "input"] payload;
  case_id ← text_field (u "case_id") payload;
  input ← text_field (u "input") payload;
  metadata ← metadata_field payload;
  max_steps ← match default (JInt 8) (dict_get (u "max_steps") payload) with
              | JInt n => Ok n
              | _ => Err (TypeError (u "max_steps must be an integer"))
              end;
  answer_contains ← _parse_string_sequence (u "expected_answer_contains") (get (u "expected_answer_contains") payload);
  tools ← _parse_string_sequence (u "expected_tools") (get (u "expected_tools") payload);
  new_case case_id input answer_contains tools metadata max_steps.

(** ** JSONL *)

(** [validate_golden_dataset] and [validate_rag_dataset] *)
Definition unique_ids {A} (case_id : A -> pystr) (cases : list A) : result eval_error (list A) :=
  _ ← foldE (fun seen c => if bool_decide (case_id c ∈ seen) then Err (GoldenDatasetError (u "duplicate case_id: " ++ case_id c))
                           else Ok (case_id c :: seen)) [] cases;
  Ok cases.
Definition validate_golden_dataset : list EvalCase -> result eval_error (list EvalCase) := unique_ids gc_case_id.

Definition golden_case_to_json (c : EvalCase) : pystr := dump_json (case_to_dict c).
Definition newline : pystr := [10]%N.
Definition golden_dataset_to_jsonl (cases : list EvalCase) : result eval_error pystr :=
  (fun cases => concat ((fun c => golden_case_to_json c ++ newline) <$> cases)) <$> validate_golden_dataset cases.

Section Decode.
(** The message for a text that is no strict JSON *)
Context (decode_error : pystr -> pystr).

Fixpoint decode_lines (line_number : Z) (lines : list pystr) : result eval_error (list (Z * list (pystr * json))) :=
  match lines with
  | [] => Ok []
  | line :: lines =>
      if blank line then decode_lines (line_number + 1) lines
      else match strict_loads line with
           | None => Err (GoldenDatasetError (u "invalid JSON on line " ++ str_of_Z line_number ++ u ": " ++ decode_error line))
           | Some (JObj d) => records ← decode_lines (line_number + 1) lines; Ok ((line_number, d) :: records)
           | Some _ => Err (GoldenDatasetError (u "line " ++ str_of_Z line_number ++ u " must contain a JSON object"))
           end
  end.
Definition decode_jsonl_objects (payload : pystr) : result eval_error (list (Z * list (pystr * json))) :=
  decode_lines 1 (splitlines payload).

(** The cases of the records; the first that is refused ends the reading. *)
Fixpoint read_records {A} (what : pystr) (from_dict : list (pystr * json) -> result eval_error A)
    (records : list (Z * list (pystr * json))) : result eval_error (list A) :=
  match records with
  | [] => Ok []
  | (line_number, d) :: records =>
      match from_dict d with
      | Ok c => cases ← read_records what from_dict records; Ok (c :: cases)
      | Err e => Err (GoldenDatasetError (u "invalid " ++ what ++ u " on line " ++ str_of_Z line_number ++ u ": " ++ eval_text e))
      end
  end.

Definition read_golden_dataset (payload : pystr) : result eval_error (list EvalCase) :=
  records ← decode_jsonl_objects payload;
  cases ← read_records (u "case") case_from_dict records;
  validate_golden_dataset cases.
End Decode.

(** ** Executions and results *)

Record EvalExecution := mkEvalExecution {
  ex_answer : option pystr;
  ex_tool_sequence : list pystr;
  ex_steps : Z;
  ex_token_usage : Z;
  ex_status : pystr;
  ex_error : option pystr;
  ex_latency_ms : option float64
}.

Definition valid_latency (latency_ms : option float64) : bool :=
  match latency_ms with Some x => is_finite x && negb (SFltb x zero) | None => true end.

(** [EvalExecution(...)] with [__post_init__] *)
Definition new_execution (answer : option pystr) (tool_sequence : list pystr) (steps token_usage : Z) (status : pystr)
    (error : option pystr) (latency_ms : option float64) : result eval_error EvalExecution :=
  _ ← raise_if (existsb blank tool_sequence) (ValueError (u "tool_sequence values must be non-empty strings"));
  _ ← raise_if (steps <? 0) (ValueError (u "steps must not be negative"));
  _ ← raise_if (token_usage <? 0) (ValueError (u "token_usage must not be negative"));
  _ ← raise_if (blank status) (ValueError (u "status must not be empty"));
  _ ← raise_if (negb (valid_latency latency_ms)) (ValueError (u "latency_ms must be a finite non-negative number"));
  Ok (mkEvalExecution answer tool_sequence steps token_usage status error latency_ms).

Definition run_tools (st : AgentState) : list pystr :=
  s ← st_steps st; call_name <$> tool_calls (step_decision s).
Definition from_agent_run_result (r : AgentRunResult) : result eval_error EvalExecution :=
  new_execution (rr_answer r) (run_tools (rr_state r)) (Z.of_nat (length (st_steps (rr_state r)))) (rr_token_usage r)
    (run_status_value (rr_status r)) (rr_error r) None.

Record EvalCaseResult := mkCaseResult {
  cr_case_id : pystr;
  cr_status : pystr;
  cr_success : bool;
  cr_answer : option pystr;
  cr_answer_correct : bool;
  cr_actual_tools : list pystr;
  cr_tool_selection_correct : option bool;
  cr_steps : Z;
  cr_latency_ms : float64;
  cr_token_usage : Z;
  cr_error : option pystr
}.

Record EvaluationSummary := mkSummary {
  sm_case_count : Z;
  sm_successful_cases : Z;
  sm_task_success_rate : float64;
  sm_tool_selection_accuracy : option float64;
  sm_tool_selection_case_count : Z;
  sm_average_steps : float64;
  sm_p95_latency_ms : float64;
  sm_total_tokens : Z;
  sm_average_tokens : float64
}.
Record EvaluationReport := mkReport { rp_results : list EvalCaseResult; rp_summary : EvaluationSummary }.

(** ** The runner *)

Definition _tools_match (c : EvalCase) (actual_tools : list pystr) : option bool :=
  (fun expected => bool_decide (actual_tools = expected)) <$> gc_expected_tools c.

Definition _evaluate_case (c : EvalCase) (x : EvalExecution) (latency_ms : float64) : EvalCaseResult :=
  let answer_correct := answer_matches_expected (gc_expected_answer_contains c) (ex_answer x) in
  let tool_correct := _tools_match c (ex_tool_sequence x) in
  let runtime_succeeded := bool_decide (ex_status x = u "completed") && bool_decide (ex_error x = None) in
  let success := runtime_succeeded && answer_correct && negb (bool_decide (tool_correct = Some false)) in
  mkCaseResult (gc_case_id c) (ex_status x) success (ex_answer x) answer_correct (ex_tool_sequence x) tool_correct
    (ex_steps x) latency_ms (ex_token_usage x) (ex_error x).

(** [error]: the name of the exception's type, a colon and its text *)
Definition _failed_case_result (c : EvalCase) (latency_ms : float64) (error : pystr) : EvalCaseResult :=
  mkCaseResult (gc_case_id c) (u "failed") false None false []
    (match gc_expected_tools c with None => None | Some _ => Some false end) 0 latency_ms 0 (Some error).

Definition count_if {A} (p : A -> bool) (l : list A) : Z := Z.of_nat (length (filter (fun x => p x = true) l)).
Definition p95 : float64 := round_ratio false 95 100.

Definition _build_report (results : list EvalCaseResult) : EvaluationReport :=
  let count := Z.of_nat (length results) in
  let successful := count_if cr_success results in
  let declared := omap cr_tool_selection_correct results in
  let total_tokens := sumZ (cr_token_usage <$> results) in
  let over n := match results with [] => zero | _ => ratio n count end in
  mkReport results
    (mkSummary count successful (over successful)
       (match declared with [] => None | _ => Some (ratio (count_if id declared) (Z.of_nat (length declared))) end)
       (Z.of_nat (length declared)) (over (sumZ (cr_steps <$> results)))
       (match percentile (cr_latency_ms <$> results) p95 with Ok x => x | Err _ => zero end)
       total_tokens (over total_tokens)).

(** What the injected callable returns *)
Inductive observed := RunResult (r : AgentRunResult) | Execution (x : EvalExecution).
Definition _normalize_execution (o : observed) : result eval_error EvalExecution :=
  match o with Execution x => Ok x | RunResult r => from_agent_run_result r end.
Definition error_line (e : eval_error) : pystr := eval_name e ++ u ": " ++ eval_text e.

Section Runner.
Context {W : Type}.
(** The callable (an exception is the name of its type, a colon and its text), and
    the clock in seconds *)
Context (run_case : EvalCase -> W -> result pystr observed * W) (perf_counter : W -> float64 * W) (fail_fast : bool).

Definition _elapsed_ms (started : float64) (w : W) : float64 * W :=
  let '(now, w) := perf_counter w in (float_mul (float_sub now started) (float_of 1000), w).

(** One turn of the loop *)
Definition run_one (c : EvalCase) (w : W) : EvalCaseResult * W :=
  let '(started, w) := perf_counter w in
  let '(outcome, w) := run_case c w in
  match (match outcome with
         | Err e => Err e
         | Ok o => match _normalize_execution o with Ok x => Ok x | Err e => Err (error_line e) end
         end) with
  | Ok x =>
      match ex_latency_ms x with
      | Some latency_ms => (_evaluate_case c x latency_ms, w)
      | None => let '(elapsed, w) := _elapsed_ms started w in (_evaluate_case c x elapsed, w)
      end
  | Err text => let '(elapsed, w) := _elapsed_ms started w in (_failed_case_result c elapsed text, w)
  end.

Fixpoint run_cases (cases : list EvalCase) (w : W) : list EvalCaseResult * W :=
  match cases with
  | [] => ([], w)
  | c :: cases =>
      let '(result, w) := run_one c w in
      if fail_fast && negb (cr_success result) then ([result], w)
      else let '(results, w) := run_cases cases w in (result :: results, w)
  end.

(** [EvaluationRunner.run] *)
Definition evaluate (cases : list EvalCase) (w : W) : result eval_error EvaluationReport * W :=
  match validate_golden_dataset cases with
  | Err e => (Err e, w)
  | Ok dataset => let '(results, w) := run_cases dataset w in (Ok (_build_report results), w)
  end.
End Runner.
