(* ===== verification/EvalsProps.v ===== *)
(** * Properties of the golden evaluations

    A dataset is read back from the text that was written; the report of a run
    counts what happened to the cases, one by one and in their order. *)

From Corelib Require Import SpecFloat.
From S2P Require Import Prelude Json JsonLoads AgentRuntime RagRetrieval Evals.
Local Open Scope Z_scope.
#[local] Opaque u.

(** ** The text of a case *)

(** NEXT LINE, LINE SEPARATOR and PARAGRAPH SEPARATOR end a line for
    [str.splitlines] and are not escaped by [json.dumps]. *)
Definition separator (c : N) : bool := bool_decide (c ∈ [133; 8232; 8233]%N).
Definition free_text (s : pystr) : bool := forallb (fun c => negb (separator c)) s.

Fixpoint free_texts (v : json) : bool :=
  match v with
  | JStr s => free_text s
  | JArr l => forallb free_texts l
  | JObj d => forallb (fun kv => free_text kv.1 && free_texts kv.2) d
  | _ => true
  end.

(** A text on one line whose constants, outside its strings, are none *)
Definition single_line (s : pystr) : Prop := Forall (fun c => line_break c = false) s.
Definition strict (s : pystr) : Prop :=
  exists o, Forall (fun c => constant_letter c = false) o /\
    forall t, outside_strings false (s ++ t) = o ++ outside_strings false t.
Definition tidy (s : pystr) : Prop := single_line s /\ strict s.

Lemma tidy_nil : tidy [].
Proof. split; [constructor|]. exists []. split; [constructor|done]. Qed.
Lemma tidy_app a b : tidy a -> tidy b -> tidy (a ++ b).
Proof.
  intros [La (oa & Ha & Ea)] [Lb (ob & Hb & Eb)]. split; [by apply Forall_app|].
  exists (oa ++ ob). split; [by apply Forall_app|]. intros t. by rewrite <- !app_assoc, Ea, Eb.
Qed.
Definition plain (c : N) : bool := negb (line_break c) && negb (constant_letter c) && negb (c =? 34)%N.
Lemma tidy_plain s : forallb plain s = true -> tidy s.
Proof.
  induction s as [|c s IH]; [intros; apply tidy_nil|]. intros H. cbn in H. apply andb_prop in H as [Hc Hs].
  apply (tidy_app [c] s); [|by apply IH]. unfold plain in Hc. bools. split; [by repeat constructor|].
  exists [c]. split; [by repeat constructor|]. intros t. cbn. destruct (c =? 34)%N eqn:E; [bools; lia|done].
Qed.
Lemma tidy_join sep l : tidy sep -> Forall tidy l -> tidy (sjoin sep l).
Proof.
  intros Hsep. induction 1 as [|p ps Hp Hps IH]; [apply tidy_nil|]. destruct ps as [|q ps]; [exact Hp|].
  change (sjoin sep (p :: q :: ps)) with (p ++ sep ++ sjoin sep (q :: ps)). by repeat apply tidy_app.
Qed.

Lemma escape_inside c t : outside_strings true (escape_char c ++ t) = outside_strings true t.
Proof.
  unfold escape_char.
  destruct (c =? 34)%N eqn:E1; [done|]. destruct (c =? 92)%N eqn:E2; [done|].
  repeat (case_match; [reflexivity|]). case_match; [|cbn; by rewrite E1, E2].
  change (u "\u00") with [92; 117; 48; 48]%N. cbn [app]. 
  assert (Hh : forall n, (n < 16)%N -> (hex_digit n =? 92)%N = false /\ (hex_digit n =? 34)%N = false).
  { intros n Hn. unfold hex_digit. destruct (N.ltb_spec n 10); rewrite !N.eqb_neq; lia. }
  assert (Hc : (c < 32)%N) by (by apply N.ltb_lt).
  destruct (Hh (c / 16)%N) as [Hd1 Hd2]; [apply N.Div0.div_lt_upper_bound; lia|].
  destruct (Hh (c mod 16)%N) as [Hd3 Hd4]; [by apply N.mod_lt|].
  cbn. by rewrite Hd1, Hd2, Hd3, Hd4.
Qed.

Lemma single_line_check s : forallb (fun c => negb (line_break c)) s = true -> single_line s.
Proof. intros H%forallb_Forall. eapply Forall_impl; [exact H|]. intros c Hc. by apply negb_true_iff. Qed.

Lemma escape_single_line c : separator c = false -> single_line (escape_char c).
Proof.
  intros Hs. unfold escape_char.
  repeat match goal with |- single_line (if (c =? ?k)%N then _ else _) =>
    destruct (N.eqb_spec c k) as [?|?]; [apply single_line_check; vm_compute; reflexivity|] end.
  destruct (N.ltb_spec c 32).
  - change (u "\u00") with [92; 117; 48; 48]%N. unfold single_line. cbn [app].
    assert (Hh : forall n, (n < 16)%N -> line_break (hex_digit n) = false).
    { intros m Hm. unfold hex_digit, line_break. apply bool_decide_eq_false. destruct (N.ltb_spec m 10); set_unfold; lia. }
    do 4 (apply Forall_cons; split; [reflexivity|]).
    repeat constructor; apply Hh; [apply N.Div0.div_lt_upper_bound; lia|by apply N.mod_lt].
  - repeat constructor. unfold separator, line_break in *. apply bool_decide_eq_false in Hs. apply bool_decide_eq_false.
    set_unfold. lia.
Qed.

Lemma tidy_str s : free_text s = true -> tidy (dump_str s).
Proof.
  intros Hs. unfold dump_str. split.
  - repeat constructor. apply Forall_app. split; [|by repeat constructor].
    induction s as [|c s IH]; [constructor|]. cbn in Hs. apply andb_prop in Hs as [Hc Hs].
    cbn. apply Forall_app. split; [apply escape_single_line; by apply negb_true_iff|by apply IH].
  - exists []. split; [constructor|]. intros t. cbn [app]. change (outside_strings false (34%N :: ?s)) with (outside_strings true s).
    rewrite <- app_assoc. clear Hs. induction s as [|c s IH]; [done|]. cbn [fmap list_fmap mjoin list_join concat].
    rewrite <- app_assoc, escape_inside. exact IH.
Qed.

Lemma tidy_Z z : tidy (str_of_Z z).
Proof.
  assert (Hn : forall n, tidy (str_of_N n)).
  { intros n. apply tidy_plain. destruct (str_of_N_numeral n) as (Hd & _). apply List.forallb_forall.
    intros c Hc%list_elem_of_In. rewrite Forall_forall in Hd. specialize (Hd _ Hc). unfold is_digit in Hd. apply andb_prop in Hd as [?%N.leb_le ?%N.leb_le].
    unfold plain, line_break, constant_letter. rewrite bool_decide_eq_false_2 by (set_unfold; lia). cbn.
    rewrite !(proj2 (N.eqb_neq _ _)) by lia. done. }
  unfold str_of_Z. case_match; [|apply Hn]. apply (tidy_app [45%N]); [|apply Hn]. by apply tidy_plain.
Qed.

Lemma dump_tidy v : float_free v = true -> free_texts v = true -> tidy (dump_ws [] [] v).
Proof.
  induction v as [|[] |z|f|s|l IH|d IH] using json_ind'; intros Hf Ht; cbn [dump_ws]; try (by apply tidy_plain).
  - apply tidy_Z.
  - by apply tidy_str.
  - apply (tidy_app [91%N]); [by apply tidy_plain|]. apply tidy_app; [|by apply tidy_plain].
    apply tidy_join; [by apply tidy_plain|]. cbn in Hf, Ht. rewrite List.forallb_forall in Hf, Ht.
    apply Forall_fmap, Forall_forall. intros v Hv. rewrite Forall_forall in IH.
    assert (Hin := Hv). apply list_elem_of_In in Hin. by apply IH; auto.
  - apply (tidy_app [123%N]); [by apply tidy_plain|]. apply tidy_app; [|by apply tidy_plain].
    apply tidy_join; [by apply tidy_plain|]. cbn in Hf, Ht. rewrite List.forallb_forall in Hf, Ht.
    apply Forall_fmap, Forall_forall. intros [k v] Hv. rewrite Forall_forall in IH.
    assert (Hin := Hv). apply list_elem_of_In in Hin. specialize (Ht _ Hin). cbn in Ht. cbn [fst snd app]. apply andb_prop in Ht as [Hk Ht].
    apply tidy_app; [by apply tidy_str|]. apply (tidy_app [58%N]); [by apply tidy_plain|].
    apply (IH _ Hv); [by apply (Hf _ Hin)|done].
Qed.

(** ** Lines *)

Lemma splitlines_line line rest acc : single_line line ->
  splitlines_go acc (line ++ newline ++ rest) = (rev acc ++ line) :: splitlines rest.
Proof.
  intros H. revert acc. induction H as [|c line Hc Hl IH]; intros acc.
  - rewrite app_nil_r. by destruct rest.
  - cbn [app splitlines_go]. rewrite Hc, IH. cbn [rev]. by rewrite <- app_assoc.
Qed.

Lemma splitlines_lines lines : Forall single_line lines ->
  splitlines (concat ((fun line => line ++ newline) <$> lines)) = lines.
Proof.
  induction 1 as [|line lines Hl Hls IH]; [done|]. cbn [fmap list_fmap concat]. rewrite <- app_assoc.
  unfold splitlines. rewrite splitlines_line by done. cbn [rev app]. by f_equal.
Qed.

(** ** Reading a case back *)

Definition sorted_dict (d : list (pystr * json)) : list (pystr * json) :=
  sort_by key_leb ((fun kv : pystr * json => (kv.1, sort_keys_rec kv.2)) <$> d).
(** A case with the keys of its metadata sorted: the same case, for dicts that
    differ in the order of their keys are equal. *)
Definition sorted_metadata (c : EvalCase) : EvalCase :=
  mkEvalCase (gc_case_id c) (gc_input c) (gc_expected_answer_contains c) (gc_expected_tools c)
    (sorted_dict (gc_metadata c)) (gc_max_steps c).
(** [c] is what its constructor returns for its fields. *)
Definition well_formed (c : EvalCase) : Prop :=
  new_case (gc_case_id c) (gc_input c) (gc_expected_answer_contains c) (gc_expected_tools c) (gc_metadata c)
    (gc_max_steps c) = Ok c.

Lemma sort_strings o : sort_keys_rec (of_opt strings o) = of_opt strings o.
Proof.
  destruct o as [l|]; [|done]. cbn. unfold strings. f_equal. rewrite <- list_fmap_compose. by apply list_fmap_ext.
Qed.

Lemma sort_case c : sort_keys_rec (case_to_dict c) =
  JObj [(u "case_id", JStr (gc_case_id c));
        (u "expected_answer_contains", of_opt strings (gc_expected_answer_contains c));
        (u "expected_tools", of_opt strings (gc_expected_tools c)); (u "input", JStr (gc_input c));
        (u "max_steps", JInt (gc_max_steps c)); (u "metadata", JObj (sorted_dict (gc_metadata c)))].
Proof.
  unfold case_to_dict. cbn [sort_keys_rec fmap list_fmap fst snd]. rewrite !sort_strings. reflexivity.
Qed.

Lemma float_free_json v : float_free v = true -> _is_json_value v = true.
Proof.
  induction v as [| | | | |l IH|d IH] using json_ind'; try done; cbn.
  - intros H. induction IH as [|v l Hv _ IHl]; [done|]. cbn in *. apply andb_prop in H as [H1 H2]. by rewrite Hv, IHl.
  - intros H. induction IH as [|v l Hv _ IHl]; [done|]. cbn in *. apply andb_prop in H as [H1 H2]. by rewrite Hv, IHl.
Qed.

Lemma sorted_strict d : float_free (JObj d) = true -> strict_values (sorted_dict d) = true.
Proof.
  intros H. rewrite <- sort_keys_float_free in H. cbn [sort_keys_rec float_free] in H. fold (sorted_dict d) in H.
  unfold strict_values. induction (sorted_dict d) as [|[k v] l IH]; [done|]. cbn in *. apply andb_prop in H as [H1 H2].
  by rewrite float_free_json, IH.
Qed.

Lemma case_back c : well_formed c -> float_free (JObj (gc_metadata c)) = true ->
  exists d, sort_keys_rec (case_to_dict c) = JObj d /\ case_from_dict d = Ok (sorted_metadata c).
Proof.
  intros Hc Hf. eexists. split; [apply sort_case|]. apply sorted_strict in Hf. destruct c as [i t a tools m n].
  unfold well_formed in Hc. cbn [gc_case_id gc_input gc_expected_answer_contains gc_expected_tools gc_metadata gc_max_steps] in *.
  unfold new_case in Hc.
  apply bind_ok in Hc as ([] & H1%raise_if_ok & Hc). apply bind_ok in Hc as ([] & H2%raise_if_ok & Hc).
  apply bind_ok in Hc as ([] & H3%raise_if_ok & Hc). apply bind_ok in Hc as ([] & _ & Hc).
  apply bind_ok in Hc as (a' & H4 & Hc). apply bind_ok in Hc as (tools' & H5 & Hc). injection Hc as -> ->.
  assert (Hp : forall name o, _parse_string_sequence name (of_opt strings o) = normalized name o) by (by intros name [l|]).
  unfold case_from_dict.
  change (check_fields _ _ _ _) with (@Ok eval_error _ tt).
  change (text_field (u "case_id") _) with (@Ok eval_error _ i).
  change (text_field (u "input") _) with (@Ok eval_error _ t).
  change (metadata_field _) with (if strict_values (sorted_dict m) then Ok (sorted_dict m)
    else Err (TypeError (u "metadata must contain only strict JSON values"))).
  rewrite Hf. cbn [mbind result_bind].
  change (default (JInt 8) _) with (JInt n). cbn [mbind result_bind].
  change (get (u "expected_answer_contains") _) with (of_opt strings a).
  change (get (u "expected_tools") _) with (of_opt strings tools).
  rewrite !Hp, H4, H5. cbn [mbind result_bind]. unfold new_case. rewrite H1, H2, H3, Hf, H4, H5. reflexivity.
Qed.

(** ** Reading a dataset back *)

Lemma not_blank c s : is_space c = false -> blank (c :: s) = false.
Proof.
  intros Hc. unfold blank. apply bool_decide_eq_false. unfold strip. cbn [lstrip]. rewrite Hc. cbn [rev].
  assert (H : forall l, lstrip (l ++ [c]) <> []).
  { induction l as [|x l IH]; cbn; [by rewrite Hc|]. by destruct (is_space x). }
  specialize (H (rev s)). intros E. apply (f_equal (@rev N)) in E. rewrite rev_involutive in E. done.
Qed.

Lemma tidy_strict_loads s : tidy s -> strict_loads s = loads s.
Proof.
  intros [_ (o & Ho & E)]. unfold strict_loads. specialize (E []). rewrite app_nil_r in E. rewrite E, app_nil_r.
  replace (existsb constant_letter o) with false; [done|]. symmetry. clear -Ho. induction Ho as [|c o Hc _ IH]; [done|]. cbn. by rewrite Hc.
Qed.

(** What a dataset is written from: cases that their constructor accepts, without
    line separators and without fractions in their metadata *)
Definition writable (c : EvalCase) : Prop :=
  well_formed c /\ json_wf (JObj (gc_metadata c)) /\ float_free (JObj (gc_metadata c)) = true /\
  free_texts (case_to_dict c) = true.

Lemma strings_wf o : json_wf (of_opt strings o) /\ float_free (of_opt strings o) = true.
Proof.
  destruct o as [l|]; [|by split; [constructor|]]. split.
  - constructor. apply Forall_fmap, Forall_forall. intros; constructor.
  - cbn. induction l as [|s l IH]; [done|exact IH].
Qed.

Lemma case_wf c : json_wf (JObj (gc_metadata c)) -> float_free (JObj (gc_metadata c)) = true ->
  json_wf (case_to_dict c) /\ float_free (case_to_dict c) = true.
Proof.
  intros Hw Hf. destruct (strings_wf (gc_expected_answer_contains c)) as [W1 F1].
  destruct (strings_wf (gc_expected_tools c)) as [W2 F2]. split.
  - constructor; [apply (bool_decide_unpack _); vm_compute; exact I|].
    repeat (apply Forall_cons_2); cbn [snd]; try assumption; constructor.
  - unfold case_to_dict. cbn [float_free forallb snd] in *. by rewrite F1, F2, Hf.
Qed.

Lemma free_texts_perm v : free_texts (sort_keys_rec v) = free_texts v.
Proof.
  induction v as [| | | | |l IH|d IH] using json_ind'; try done; cbn [sort_keys_rec free_texts].
  - induction IH as [|x l Hx _ IHl]; [done|]. cbn [fmap list_fmap forallb]. rewrite Hx. by f_equal.
  - rewrite (forallb_perm _ _ _ (sort_by_perm key_leb _)). induction IH as [|x d Hx _ IHd]; [done|].
    cbn [fmap list_fmap forallb fst snd]. rewrite Hx. by f_equal.
Qed.

Lemma case_line c : writable c ->
  tidy (golden_case_to_json c) /\ blank (golden_case_to_json c) = false /\
  exists d, strict_loads (golden_case_to_json c) = Some (JObj d) /\ case_from_dict d = Ok (sorted_metadata c).
Proof.
  intros (Hc & Hw & Hf & Ht). destruct (case_wf c Hw Hf) as [Hw' Hf'].
  assert (Htidy : tidy (golden_case_to_json c)).
  { unfold golden_case_to_json. rewrite dump_json_ws. apply dump_tidy; [by rewrite sort_keys_float_free|by rewrite free_texts_perm]. }
  split_and!; [done| |].
  - unfold golden_case_to_json. rewrite dump_json_ws, sort_case. by apply not_blank.
  - destruct (case_back c Hc Hf) as (d & Hd & Hback). exists d. split; [|done].
    rewrite tidy_strict_loads by done. unfold golden_case_to_json. by rewrite loads_dump_json, Hd.
Qed.

Lemma unique_ids_map {A} (f : A -> pystr) (g : A -> A) l l' : (forall x, f (g x) = f x) ->
  unique_ids f l = Ok l' -> l' = l /\ unique_ids f (g <$> l) = Ok (g <$> l).
Proof.
  intros Hg. unfold unique_ids. intros (seen & H & [= <-])%bind_ok. split; [done|].
  assert (E : forall s, foldE (fun seen c => if bool_decide (f c ∈ seen) then Err (GoldenDatasetError (u "duplicate case_id: " ++ f c))
     else Ok (f c :: seen)) s (g <$> l) = foldE (fun seen c => if bool_decide (f c ∈ seen) then Err (GoldenDatasetError (u "duplicate case_id: " ++ f c))
     else Ok (f c :: seen)) s l).
  { clear H. induction l as [|x l IH]; intros s; [done|]. cbn [fmap list_fmap foldE]. rewrite !Hg. by case_match. }
  by rewrite E, H.
Qed.

Lemma read_lines decode_error cases : Forall writable cases -> forall n,
  exists records, decode_lines decode_error n (golden_case_to_json <$> cases) = Ok records /\
    read_records (u "case") case_from_dict records = Ok (sorted_metadata <$> cases).
Proof.
  induction 1 as [|c cases Hc _ IH]; intros n; [by exists []|].
  destruct (case_line c Hc) as (_ & Hb & d & Hl & Hd). destruct (IH (n + 1)) as (records & Hr & Hread).
  exists ((n, d) :: records). cbn [fmap list_fmap decode_lines read_records]. rewrite Hb, Hl, Hr, Hd, Hread. done.
Qed.

(** What [write_golden_dataset] writes, [read_golden_dataset] reads back: the
    same cases in the same order, for cases that their constructor accepts, whose
    metadata holds no fraction and whose texts hold no NEXT LINE, LINE SEPARATOR or
    PARAGRAPH SEPARATOR. *)
Theorem golden_dataset_roundtrip decode_error cases text :
  Forall writable cases -> golden_dataset_to_jsonl cases = Ok text ->
  read_golden_dataset decode_error text = Ok (sorted_metadata <$> cases).
Proof.
  intros Hc Ht. unfold golden_dataset_to_jsonl in Ht.
  destruct (validate_golden_dataset cases) as [cases'|] eqn:Ev; [|discriminate]. injection Ht as <-.
  apply (unique_ids_map _ sorted_metadata) in Ev as [-> Ev]; [|done].
  unfold read_golden_dataset, decode_jsonl_objects.
  replace ((fun c => golden_case_to_json c ++ newline) <$> cases)
    with ((fun line => line ++ newline) <$> (golden_case_to_json <$> cases)) by (by rewrite <- list_fmap_compose).
  rewrite splitlines_lines.
  - destruct (read_lines decode_error cases Hc 1) as (records & -> & Hread). cbn [mbind result_bind]. rewrite Hread. exact Ev.
  - apply Forall_fmap. eapply Forall_impl; [exact Hc|]. intros c H. by apply case_line in H as ([H _] & _).
Qed.

Definition sample_case : EvalCase :=
  mkEvalCase (u "calc") (u "Calculate 2+2") (Some [u "4"]) (Some [u "calculator"])
    [(u "level", JInt 1); (u "area", JStr (u "math"))] 4.
Lemma golden_dataset_roundtrip_witness :
  exists text, golden_dataset_to_jsonl [sample_case] = Ok text /\
    read_golden_dataset (fun _ => []) text = Ok [sorted_metadata sample_case].
Proof.
  eexists. split; [vm_compute; reflexivity|].
  apply (golden_dataset_roundtrip (fun _ => []) [sample_case]).
  - apply Forall_singleton. split_and!; [vm_compute; reflexivity| |vm_compute; reflexivity|vm_compute; reflexivity].
    unfold sample_case. cbn [gc_metadata]. constructor; [apply (bool_decide_unpack _); vm_compute; exact I|].
    apply Forall_cons_2; [constructor|]. apply Forall_singleton. constructor.
  - vm_compute. reflexivity.
Defined.

(** A case with a LINE SEPARATOR is written and cannot be read. *)
Definition separator_case : EvalCase := mkEvalCase (u "a") [65; 8232; 66]%N None None [] 8.
Example line_separator_lost :
  well_formed separator_case /\
  match golden_dataset_to_jsonl [separator_case] with
  | Ok text => match read_golden_dataset (fun _ => []) text with Err (GoldenDatasetError _) => True | _ => False end
  | Err _ => False
  end.
Proof. split; [vm_compute; reflexivity|]. vm_compute. exact I. Qed.

(** ** Reports *)

Lemma unique_ids_NoDup {A} (f : A -> pystr) l :
  (NoDup (f <$> l) /\ unique_ids f l = Ok l) \/ (~ NoDup (f <$> l) /\ exists e, unique_ids f l = Err e).
Proof.
  unfold unique_ids. set (step := fun seen c => _).
  assert (H : forall l seen, (exists s, foldE step seen l = Ok s /\ NoDup (f <$> l) /\ Forall (fun c => f c ∉ seen) l) \/
    ((exists e, foldE step seen l = Err e) /\ ~ (NoDup (f <$> l) /\ Forall (fun c => f c ∉ seen) l))).
  { clear l. induction l as [|c l IH]; intros seen; [left; exists seen; split_and!; [done|constructor|constructor]|].
    cbn [foldE].
    change (step seen c) with (if bool_decide (f c ∈ seen) then Err (GoldenDatasetError (u "duplicate case_id: " ++ f c))
      else Ok (f c :: seen)). case_bool_decide as Hc.
    - right. split; [by eexists|]. intros [_ H%Forall_cons]. tauto.
    - destruct (IH (f c :: seen)) as [(s & E & Hn & Hf)|[E Hn]]; [left|right].
      + exists s. split; [done|]. rewrite Forall_forall in Hf. split.
        * cbn. apply NoDup_cons. split; [|done]. intros (x & Hx' & Hx)%list_elem_of_fmap. apply (Hf _ Hx). rewrite Hx'. by left.
        * apply Forall_cons. split; [done|]. apply Forall_forall. intros x Hx Hin. apply (Hf _ Hx). by right.
      + split; [done|]. intros [[Hni Hnd]%NoDup_cons [_ Hf]%Forall_cons]. apply Hn. split; [done|].
        rewrite Forall_forall in Hf |- *. intros x Hx [Hx'|Hin]%elem_of_cons; [|by apply (Hf _ Hx)].
        rewrite <- Hx' in Hni. apply Hni, list_elem_of_fmap. by exists x. }
  destruct (H l []) as [(s & -> & Hn & _)|[[e ->] Hn]]; [by left|right]. split; [|by exists e].
  intros Hnd. apply Hn. split; [done|]. apply Forall_forall. intros x _. apply not_elem_of_nil.
Qed.

Lemma count_if_bounds {A} (p : A -> bool) l : 0 <= count_if p l <= Z.of_nat (length l).
Proof. unfold count_if. pose proof (length_filter (fun x => p x = true) l). lia. Qed.

Section RunnerProps.
Context {W : Type}.
Context (run_case : EvalCase -> W -> result pystr observed * W) (perf_counter : W -> float64 * W) (fail_fast : bool).

Abbreviation one := (run_one run_case perf_counter).

(** What makes a case a success *)
Definition succeeds (c : EvalCase) (x : EvalExecution) : Prop :=
  ex_status x = u "completed" /\ ex_error x = None /\
  (forall fragments, gc_expected_answer_contains c = Some fragments ->
     exists a, ex_answer x = Some a /\ forall f, f ∈ fragments -> is_in f a = true) /\
  (forall tools, gc_expected_tools c = Some tools -> ex_tool_sequence x = tools).

Lemma evaluate_success c x l : cr_success (_evaluate_case c x l) = true <-> succeeds c x.
Proof.
  unfold _evaluate_case, succeeds, _tools_match, answer_matches_expected. cbn [cr_success].
  rewrite !andb_true_iff, !bool_decide_eq_true, negb_true_iff, bool_decide_eq_false. split.
  - intros [[[H1 H2] H3] H4]. split_and!; [done|done| |].
    + intros fragments E. rewrite E in H3. destruct (ex_answer x) as [a|]; [|done]. exists a. split; [done|].
      rewrite List.forallb_forall in H3. intros f Hf. by apply H3, list_elem_of_In.
    + intros tools E. rewrite E in H4. cbn in H4. case_bool_decide; [done|]. by destruct H4.
  - intros (H1 & H2 & H3 & H4). split_and!; [done|done| |].
    + destruct (gc_expected_answer_contains c) as [fragments|]; [|done].
      destruct (H3 _ eq_refl) as (a & -> & Ha). apply List.forallb_forall. intros f Hf. by apply Ha, list_elem_of_In.
    + destruct (gc_expected_tools c) as [tools|]; [|done]. cbn. rewrite bool_decide_eq_true_2 by (by apply H4). done.
Qed.

(** The result of one turn: the case's, and a success exactly when the callable
    returned an execution that meets the expectations. *)
Lemma one_success c w : cr_case_id (one c w).1 = gc_case_id c /\
  (cr_success (one c w).1 = true <->
   exists o x, (run_case c (perf_counter w).2).1 = Ok o /\ _normalize_execution o = Ok x /\ succeeds c x).
Proof.
  unfold run_one, _elapsed_ms. destruct (perf_counter w) as [started w1]. cbn [snd].
  destruct (run_case c w1) as [[o|text] w2]; cbn [fst].
  - destruct (_normalize_execution o) as [x|e] eqn:E.
    + destruct (ex_latency_ms x) as [l|]; [|destruct (perf_counter w2)]; (split; [done|]); cbn [fst];
        (rewrite evaluate_success; split;
          [intros H; by exists o, x|intros (o' & x' & [= <-] & E' & H); rewrite E in E'; by injection E' as <-]).
    + destruct (perf_counter w2). split; [done|]. split; [done|]. intros (o' & x' & [= <-] & E' & _). congruence.
  - destruct (perf_counter w2). split; [done|]. split; [done|]. by intros (o' & x' & [=] & _).
Qed.

(** The results of the loop, one turn after the other *)
Inductive turns : list EvalCase -> W -> list EvalCaseResult -> W -> Prop :=
| turns_end w : turns [] w [] w
| turns_stopped c cases w r w' : one c w = (r, w') -> fail_fast = true -> cr_success r = false ->
    turns (c :: cases) w [r] w'
| turns_next c cases w r w1 rs w' : one c w = (r, w1) -> (fail_fast = false \/ cr_success r = true) ->
    turns cases w1 rs w' -> turns (c :: cases) w (r :: rs) w'.

Lemma run_turns cases : forall w, turns cases w (run_cases run_case perf_counter fail_fast cases w).1
  (run_cases run_case perf_counter fail_fast cases w).2.
Proof.
  induction cases as [|c cases IH]; intros w; cbn [run_cases]; [constructor|].
  destruct (one c w) as [r w1] eqn:E. destruct (fail_fast && negb (cr_success r)) eqn:Ef.
  - apply andb_prop in Ef as [H1 H2%negb_true_iff]. by constructor.
  - specialize (IH w1). destruct (run_cases _ _ _ cases w1) as [rs w2]. cbn in *. econstructor; [done| |done].
    destruct fail_fast; [right|by left]. by apply negb_false_iff.
Qed.

Lemma turns_ids cases w rs w' : turns cases w rs w' -> (cr_case_id <$> rs) `prefix_of` (gc_case_id <$> cases) /\
  (fail_fast = false -> length rs = length cases) /\
  ((length rs < length cases)%nat -> exists r, last rs = Some r /\ cr_success r = false).
Proof.
  induction 1 as [w|c cases w r w' E Hf Hs|c cases w r w1 rs w' E Hor Ht (Hp & Hl & Hlast)].
  - split_and!; [done|done|cbn; lia].
  - pose proof (one_success c w) as [Hid _]. rewrite E in Hid. cbn in Hid. split_and!; [|congruence|eauto].
    cbn. rewrite Hid. apply prefix_cons, prefix_nil.
  - pose proof (one_success c w) as [Hid _]. rewrite E in Hid. cbn in Hid. split_and!.
    + cbn. rewrite Hid. by apply prefix_cons.
    + intros H. cbn. f_equal. auto.
    + cbn. intros H. destruct Hlast as (x & Hx & Hs); [lia|]. exists x. split; [|done].
      destruct rs; [done|exact Hx].
Qed.

(** A run refuses a dataset in which two cases share an id, before any case is
    run.  Otherwise it reports: one result for each case, in the order of the
    dataset, up to the first failure when it stops there, each a success exactly
    when the callable returned an execution that completed without an error, with
    every expected fragment in its answer and exactly the expected tools; an
    exception of the callable is that case's failure only.  The summary counts
    these results. *)
Theorem evaluation_report cases w :
  match evaluate run_case perf_counter fail_fast cases w with
  | (Err _, w') => ~ NoDup (gc_case_id <$> cases) /\ w' = w
  | (Ok report, w') =>
      let rs := rp_results report in let s := rp_summary report in
      NoDup (gc_case_id <$> cases) /\ turns cases w rs w' /\
      (cr_case_id <$> rs) `prefix_of` (gc_case_id <$> cases) /\
      (fail_fast = false -> length rs = length cases) /\
      ((length rs < length cases)%nat -> exists r, last rs = Some r /\ cr_success r = false) /\
      sm_case_count s = Z.of_nat (length rs) /\
      sm_successful_cases s = count_if cr_success rs /\ 0 <= sm_successful_cases s <= sm_case_count s /\
      (rs <> [] -> sm_task_success_rate s = ratio (sm_successful_cases s) (sm_case_count s)) /\
      sm_total_tokens s = sumZ (cr_token_usage <$> rs)
  end.
Proof.
  unfold evaluate, validate_golden_dataset. destruct (unique_ids_NoDup gc_case_id cases) as [[Hn ->]|[Hn [e ->]]]; [|done].
  pose proof (run_turns cases w) as Ht. destruct (run_cases _ _ _ cases w) as [rs w']. cbn [fst snd] in Ht.
  destruct (turns_ids _ _ _ _ Ht) as (Hp & Hl & Hlast).
  cbn [rp_results rp_summary _build_report sm_case_count sm_successful_cases sm_task_success_rate sm_total_tokens].
  split_and!; try done; try apply count_if_bounds. by destruct rs.
Qed.
End RunnerProps.
