(* ===== verification/RagEvals.v ===== *)
(** * Retrieval evaluations: [app/evals/rag_models.py], [rag_jsonl.py], [rag_runner.py] and [retrievers.py]

    The golden cases of retrieval, their text, the metrics of one case, the runner
    with its report, and the two retrievers that it is run with.  The run of a case,
    the clock and the services act on a world. *)

From Corelib Require Import SpecFloat.
From S2P Require Import Prelude Json JsonLoads ChatService RagText RagRetrieval Evals.
Local Open Scope Z_scope.

(** ** Metrics *)

(** [list(dict.fromkeys(l))]: the first of equal texts *)
Definition fromkeys (l : list pystr) : list pystr :=
  foldl (fun seen x => if bool_decide (x ∈ seen) then seen else seen ++ [x]) [] l.

Definition check_ids (k : option Z) (expected_ids retrieved_ids : list pystr) : result eval_error unit :=
  _ ← raise_if (match k with Some k => k <=? 0 | None => false end)
        (ValueError (u "k must be a positive integer when provided"));
  _ ← raise_if (existsb blank expected_ids) (ValueError (u "expected_ids must contain non-empty strings"));
  _ ← raise_if (existsb blank retrieved_ids) (ValueError (u "retrieved_ids must contain non-empty strings"));
  raise_if (bool_decide (expected_ids = [])) (ValueError (u "expected_ids must not be empty")).

Definition top (k : option Z) {A} (l : list A) : list A :=
  match k with Some k => take (Z.to_nat k) l | None => l end.

(** [len(expected & set(selected))] *)
Definition recall_hits (expected selected : list pystr) : Z :=
  Z.of_nat (length (filter (fun x => x ∈ selected) (remove_dups expected))).

Definition context_recall_at_k (k : option Z) (expected_ids retrieved_ids : list pystr) : result eval_error float64 :=
  _ ← check_ids k expected_ids retrieved_ids;
  Ok (ratio (recall_hits expected_ids (top k retrieved_ids)) (Z.of_nat (length (remove_dups expected_ids)))).

Fixpoint first_hit (expected : list pystr) (rank : Z) (selected : list pystr) : float64 :=
  match selected with
  | [] => zero
  | x :: selected => if bool_decide (x ∈ expected) then ratio 1 rank else first_hit expected (rank + 1) selected
  end.
Definition reciprocal_rank_at_k (k : option Z) (expected_ids retrieved_ids : list pystr) : result eval_error float64 :=
  _ ← check_ids k expected_ids retrieved_ids;
  Ok (first_hit expected_ids 1 (fromkeys (top k retrieved_ids))).

(** ** Cases *)

Record RAGEvalCase := mkRAGCase {
  rg_case_id : pystr;
  rg_query : pystr;
  document_ids : list pystr;
  chunk_ids : list pystr;
  answer_fragments : option (list pystr);
  rg_expected_content_contains : option pystr;
  rg_metadata : list (pystr * json);
  rg_top_k : option Z
}.

Definition _validate_unique_ids (field_name : pystr) (ids : list pystr) : result eval_error unit :=
  raise_if (bool_decide (~ NoDup ids)) (ValueError (field_name ++ u " must not contain duplicates")).
(** [_normalize_id_sequence] *)
Definition _normalize_id_sequence (field_name : pystr) (value : option (list pystr)) : result eval_error (list pystr) :=
  default [] <$> normalized field_name value.

(** [RAGEvalCase(...)] with [__post_init__] *)
Definition new_rag_case (case_id query : pystr) (documents chunks answer_contains : option (list pystr))
    (content_contains : option pystr) (metadata : list (pystr * json)) (top_k : option Z) : result eval_error RAGEvalCase :=
  _ ← raise_if (blank case_id) (ValueError (u "case_id must not be empty"));
  _ ← raise_if (blank query) (ValueError (u "query must not be empty"));
  _ ← raise_if (match top_k with Some k => k <=? 0 | None => false end) (ValueError (u "top_k must be greater than zero"));
  _ ← raise_if (negb (strict_values metadata)) (TypeError (u "metadata values must be strict JSON values"));
  documents ← _normalize_id_sequence (u "expected_document_ids") documents;
  chunks ← _normalize_id_sequence (u "expected_chunk_ids") chunks;
  _ ← _validate_unique_ids (u "expected_document_ids") documents;
  _ ← _validate_unique_ids (u "expected_chunk_ids") chunks;
  _ ← raise_if (bool_decide (documents = []) && bool_decide (chunks = []) && bool_decide (default [] content_contains = []))
        (ValueError (u "at least one of expected_document_ids, expected_chunk_ids, or expected_content_contains must be non-empty"));
  answer_contains ← normalized (u "expected_answer_contains") answer_contains;
  Ok (mkRAGCase case_id query documents chunks answer_contains (strip <$> content_contains) metadata top_k).

Definition rag_to_dict (c : RAGEvalCase) : json :=
  JObj [(u "case_id", JStr (rg_case_id c)); (u "query", JStr (rg_query c));
        (u "expected_document_ids", strings (document_ids c)); (u "expected_chunk_ids", strings (chunk_ids c));
        (u "expected_answer_contains", of_opt strings (answer_fragments c));
        (u "expected_content_contains", of_opt JStr (rg_expected_content_contains c));
        (u "metadata", JObj (rg_metadata c)); (u "top_k", of_opt JInt (rg_top_k c))].

Definition rag_from_dict (payload : list (pystr * json)) : result eval_error RAGEvalCase :=
  _ ← check_fields (u "RAG case")
        [u "case_id"; u "query"; u "expected_document_ids"; u "expected_chunk_ids"; u "expected_answer_contains";
         u "expected_content_contains"; u "metadata"; u "top_k"]
        [u "case_id"; u "query"] payload;
  case_id ← text_field (u "case_id") payload;
  query ← text_field (u "query") payload;
  metadata ← metadata_field payload;
  top_k ← match get (u "top_k") payload with
          | JNull => Ok None
          | JInt k => Ok (Some k)
          | _ => Err (TypeError (u "top_k must be an integer or null"))
          end;
  documents ← _parse_string_sequence (u "expected_document_ids") (get (u "expected_document_ids") payload);
  chunks ← _parse_string_sequence (u "expected_chunk_ids") (get (u "expected_chunk_ids") payload);
  answer_contains ← _parse_string_sequence (u "expected_answer_contains") (get (u "expected_answer_contains") payload);
  new_rag_case case_id query documents chunks answer_contains
    (match get (u "expected_content_contains") payload with JStr s => Some s | _ => None end) metadata top_k.

Definition validate_rag_dataset : list RAGEvalCase -> result eval_error (list RAGEvalCase) := unique_ids rg_case_id.
Definition rag_case_to_json (c : RAGEvalCase) : pystr := dump_json (rag_to_dict c).
Definition rag_dataset_to_jsonl (cases : list RAGEvalCase) : result eval_error pystr :=
  (fun cases => concat ((fun c => rag_case_to_json c ++ newline) <$> cases)) <$> validate_rag_dataset cases.
Definition read_rag_golden_dataset (decode_error : pystr -> pystr) (payload : pystr) : result eval_error (list RAGEvalCase) :=
  records ← decode_jsonl_objects decode_error payload;
  cases ← read_records (u "RAG case") rag_from_dict records;
  validate_rag_dataset cases.

(** ** Observations *)

Record RetrievalReference := mkReference {
  rf_document_id : pystr;
  rf_chunk_id : pystr;
  rf_chunk_index : Z;
  rf_distance : float64;
  rf_content : option pystr
}.
(** [RetrievalReference(...)] with [__post_init__] *)
Definition new_reference (document_id chunk_id : pystr) (chunk_index : Z) (distance : float64) (content : option pystr)
  : result eval_error RetrievalReference :=
  _ ← raise_if (blank document_id) (ValueError (u "document_id must not be empty"));
  _ ← raise_if (blank chunk_id) (ValueError (u "chunk_id must not be empty"));
  _ ← raise_if (chunk_index <? 0) (ValueError (u "chunk_index must be a non-negative integer"));
  _ ← raise_if (negb (is_finite distance) || SFltb distance zero) (ValueError (u "distance must be a finite non-negative number"));
  Ok (mkReference document_id chunk_id chunk_index distance content).

Record RetrievalOutcome := mkOutcome {
  oc_references : list RetrievalReference;
  oc_status : pystr;
  oc_error : option pystr;
  oc_latency_ms : option float64
}.
(** [RetrievalOutcome(...)] with [__post_init__] *)
Definition new_outcome (references : list RetrievalReference) (status : pystr) (error : option pystr)
    (latency_ms : option float64) : result eval_error RetrievalOutcome :=
  _ ← raise_if (blank status) (ValueError (u "status must not be empty"));
  _ ← raise_if (match error with Some e => blank e | None => false end) (ValueError (u "error must be a non-empty string when provided"));
  _ ← raise_if (negb (valid_latency latency_ms)) (ValueError (u "latency_ms must be a finite non-negative number"));
  Ok (mkOutcome references status error latency_ms).

Inductive rag_observed := Retrieved (o : RetrievalOutcome) | Answered (o : RetrievalOutcome) (answer : option pystr).
Definition normalize_rag_execution (x : rag_observed) : RetrievalOutcome * option pystr :=
  match x with Retrieved o => (o, None) | Answered o answer => (o, answer) end.

Record RAGEvalCaseResult := mkRAGResult {
  rr_case_id : pystr;
  rr_status : pystr;
  rr_success : bool;
  rr_expected_document_ids : list pystr;
  rr_expected_chunk_ids : list pystr;
  rr_retrieved_document_ids : list pystr;
  rr_retrieved_chunk_ids : list pystr;
  rr_retrieved_count : Z;
  rr_document_recall_at_k : option float64;
  rr_chunk_recall_at_k : option float64;
  rr_context_recall_at_k : option float64;
  rr_document_mrr_at_k : option float64;
  rr_chunk_mrr_at_k : option float64;
  rr_context_mrr_at_k : option float64;
  rr_content_mrr_at_k : option float64;
  rr_answer_correct : option bool;
  rr_top_k : option Z;
  rr_latency_ms : float64;
  rr_error : option pystr;
  rr_expected_content_contains : option pystr;
  rr_content_hit : option bool
}.

(** ** One case *)

Definition _select_references (references : list RetrievalReference) (top_k : option Z) : list RetrievalReference := top top_k references.
Definition _unique_document_ids (references : list RetrievalReference) : list pystr := fromkeys (rf_document_id <$> references).

Definition holds_content (content : pystr) (r : RetrievalReference) : bool := is_in content (default [] (rf_content r)).
Fixpoint content_rank (content : pystr) (rank : Z) (selected : list RetrievalReference) : float64 :=
  match selected with
  | [] => zero
  | r :: selected => if holds_content content r then ratio 1 rank else content_rank content (rank + 1) selected
  end.

(** [metric(expected, retrieved) if expected else None] *)
Definition when_expected (metric : option Z -> list pystr -> list pystr -> result eval_error float64)
    (expected retrieved : list pystr) : result eval_error (option float64) :=
  match expected with [] => Ok None | _ => Some <$> metric None expected retrieved end.
(** [case.expected_content_contains], where it is not empty *)
Definition content_expected (c : RAGEvalCase) : option pystr := text_given (rg_expected_content_contains c).

Definition _failed_rag_case_result (c : RAGEvalCase) (latency_ms : float64) (error : option pystr) : RAGEvalCaseResult :=
  mkRAGResult (rg_case_id c) (u "failed") false (document_ids c) (chunk_ids c) [] [] 0 None None None None None None None
    (match answer_fragments c with Some _ => Some false | None => None end) (rg_top_k c) latency_ms error
    (rg_expected_content_contains c) None.

Definition _evaluate_rag_case (c : RAGEvalCase) (outcome : RetrievalOutcome) (answer : option pystr) (latency_ms : float64)
  : result eval_error RAGEvalCaseResult :=
  let latency_ms := default latency_ms (oc_latency_ms outcome) in
  if bool_decide (oc_status outcome = u "failed") then Ok (_failed_rag_case_result c latency_ms (oc_error outcome)) else
  let selected := _select_references (oc_references outcome) (rg_top_k c) in
  let retrieved_documents := _unique_document_ids selected in
  let retrieved_chunks := rf_chunk_id <$> selected in
  document_recall ← when_expected context_recall_at_k (document_ids c) retrieved_documents;
  chunk_recall ← when_expected context_recall_at_k (chunk_ids c) retrieved_chunks;
  document_mrr ← when_expected reciprocal_rank_at_k (document_ids c) retrieved_documents;
  chunk_mrr ← when_expected reciprocal_rank_at_k (chunk_ids c) retrieved_chunks;
  let by_chunk {A} (a b : A) := match chunk_ids c with [] => b | _ => a end in
  Ok (mkRAGResult (rg_case_id c) (oc_status outcome)
        (bool_decide (oc_status outcome = u "success") && negb (bool_decide (oc_references outcome = [])))
        (document_ids c) (chunk_ids c) retrieved_documents retrieved_chunks (Z.of_nat (length retrieved_chunks))
        document_recall chunk_recall (by_chunk chunk_recall document_recall)
        document_mrr chunk_mrr (by_chunk chunk_mrr document_mrr)
        ((fun content => content_rank content 1 selected) <$> content_expected c)
        (match answer_fragments c with Some _ => Some (answer_matches_expected (answer_fragments c) answer) | None => None end)
        (rg_top_k c) latency_ms (oc_error outcome) None
        ((fun content => existsb (holds_content content) selected) <$> content_expected c)).

(** ** Reports *)

Record RAGSummary := mkRAGSummary {
  rs_case_count : Z;
  rs_retrieval_success_count : Z;
  rs_retrieval_success_rate : float64;
  rs_context_recall_at_k : option float64;
  rs_document_recall_at_k : option float64;
  rs_chunk_recall_at_k : option float64;
  rs_answer_correctness_accuracy : option float64;
  rs_answer_correctness_case_count : Z;
  rs_average_retrieved_chunks : float64;
  rs_p95_latency_ms : float64;
  rs_document_mrr_at_k : option float64;
  rs_context_mrr_at_k : option float64;
  rs_content_mrr_at_k : option float64;
  rs_content_hit_rate : option float64;
  rs_content_expected_count : Z
}.
Record RAGReport := mkRAGReport { rag_results : list RAGEvalCaseResult; rag_summary : RAGSummary }.

Definition _average_metric (values : list (option float64)) : option float64 := average (omap id values).
Definition _average_bool (values : list bool) : option float64 :=
  average ((fun b : bool => if b then float_one else zero) <$> values).

Definition _build_rag_report (results : list RAGEvalCaseResult) : RAGReport :=
  let count := Z.of_nat (length results) in
  let successful := count_if rr_success results in
  let over n := match results with [] => zero | _ => ratio n count end in
  let answers := omap rr_answer_correct results in
  let content_hits := omap rr_content_hit results in
  mkRAGReport results
    (mkRAGSummary count successful (over successful)
       (_average_metric (rr_context_recall_at_k <$> results)) (_average_metric (rr_document_recall_at_k <$> results))
       (_average_metric (rr_chunk_recall_at_k <$> results)) (_average_bool answers) (Z.of_nat (length answers))
       (over (sumZ (rr_retrieved_count <$> results)))
       (match percentile (rr_latency_ms <$> results) p95 with Ok x => x | Err _ => zero end)
       (_average_metric (rr_document_mrr_at_k <$> results)) (_average_metric (rr_context_mrr_at_k <$> results))
       (_average_metric (rr_content_mrr_at_k <$> results)) (_average_bool content_hits) (Z.of_nat (length content_hits))).

(** *** The JSON of a report *)

Definition json_float (x : option float64) : json := of_opt JFloat x.
Definition rag_result_to_dict (r : RAGEvalCaseResult) : json :=
  JObj [(u "case_id", JStr (rr_case_id r)); (u "status", JStr (rr_status r)); (u "success", JBool (rr_success r));
        (u "expected_document_ids", strings (rr_expected_document_ids r));
        (u "expected_chunk_ids", strings (rr_expected_chunk_ids r));
        (u "expected_content_contains", of_opt JStr (rr_expected_content_contains r));
        (u "content_hit", of_opt JBool (rr_content_hit r));
        (u "retrieved_document_ids", strings (rr_retrieved_document_ids r));
        (u "retrieved_chunk_ids", strings (rr_retrieved_chunk_ids r)); (u "retrieved_count", JInt (rr_retrieved_count r));
        (u "document_recall_at_k", json_float (rr_document_recall_at_k r));
        (u "chunk_recall_at_k", json_float (rr_chunk_recall_at_k r));
        (u "context_recall_at_k", json_float (rr_context_recall_at_k r));
        (u "document_mrr_at_k", json_float (rr_document_mrr_at_k r));
        (u "chunk_mrr_at_k", json_float (rr_chunk_mrr_at_k r));
        (u "context_mrr_at_k", json_float (rr_context_mrr_at_k r));
        (u "content_mrr_at_k", json_float (rr_content_mrr_at_k r));
        (u "answer_correct", of_opt JBool (rr_answer_correct r)); (u "top_k", of_opt JInt (rr_top_k r));
        (u "latency_ms", JFloat (rr_latency_ms r)); (u "error", of_opt JStr (rr_error r))].
Definition rag_summary_to_dict (s : RAGSummary) : json :=
  JObj [(u "case_count", JInt (rs_case_count s)); (u "retrieval_success_count", JInt (rs_retrieval_success_count s));
        (u "retrieval_success_rate", JFloat (rs_retrieval_success_rate s));
        (u "context_recall_at_k", json_float (rs_context_recall_at_k s));
        (u "document_recall_at_k", json_float (rs_document_recall_at_k s));
        (u "chunk_recall_at_k", json_float (rs_chunk_recall_at_k s));
        (u "answer_correctness_accuracy", json_float (rs_answer_correctness_accuracy s));
        (u "answer_correctness_case_count", JInt (rs_answer_correctness_case_count s));
        (u "average_retrieved_chunks", JFloat (rs_average_retrieved_chunks s));
        (u "p95_latency_ms", JFloat (rs_p95_latency_ms s)); (u "document_mrr_at_k", json_float (rs_document_mrr_at_k s));
        (u "context_mrr_at_k", json_float (rs_context_mrr_at_k s));
        (u "content_mrr_at_k", json_float (rs_content_mrr_at_k s));
        (u "content_hit_rate", json_float (rs_content_hit_rate s));
        (u "content_expected_count", JInt (rs_content_expected_count s))].
Definition rag_report_to_dict (r : RAGReport) : json :=
  JObj [(u "results", JArr (rag_result_to_dict <$> rag_results r)); (u "summary", rag_summary_to_dict (rag_summary r))].

(** ** The runner *)

Section Runner.
Context {W : Type}.
(** The callable (an exception is the name of its type), and the clock *)
Context (run_case : RAGEvalCase -> W -> result pystr rag_observed * W) (perf_counter : W -> float64 * W) (fail_fast : bool).

Definition run_rag_one (c : RAGEvalCase) (w : W) : RAGEvalCaseResult * W :=
  let '(started, w) := perf_counter w in
  let '(outcome, w) := run_case c w in
  match outcome with
  | Err name => let '(elapsed, w) := _elapsed_ms perf_counter started w in (_failed_rag_case_result c elapsed (Some name), w)
  | Ok x =>
      let '(retrieval, answer) := normalize_rag_execution x in
      let '(elapsed, w) := _elapsed_ms perf_counter started w in
      match _evaluate_rag_case c retrieval answer elapsed with
      | Ok r => (r, w)
      | Err e => let '(elapsed, w) := _elapsed_ms perf_counter started w in
                 (_failed_rag_case_result c elapsed (Some (eval_name e)), w)
      end
  end.

Fixpoint run_rag_cases (cases : list RAGEvalCase) (w : W) : list RAGEvalCaseResult * W :=
  match cases with
  | [] => ([], w)
  | c :: cases =>
      let '(result, w) := run_rag_one c w in
      if fail_fast && negb (rr_success result) then ([result], w)
      else let '(results, w) := run_rag_cases cases w in (result :: results, w)
  end.

(** [RAGEvaluationRunner.run] *)
Definition evaluate_rag (cases : list RAGEvalCase) (w : W) : result eval_error RAGReport * W :=
  match validate_rag_dataset cases with
  | Err e => (Err e, w)
  | Ok dataset => let '(results, w) := run_rag_cases dataset w in (Ok (_build_rag_report results), w)
  end.
End Runner.

(** ** Retrievers *)

Definition no_sources (error : pystr) : RetrievalOutcome := mkOutcome [] (u "no_sources") (Some error) None.
Definition retrieval_failed (name : pystr) : RetrievalOutcome := mkOutcome [] (u "failed") (Some name) None.

(** An exception of the RAG service; [RetrievalFailure] are the
    [_RETRIEVAL_FAILURES], with the name of their type. *)
Inductive prepare_error := KnowledgeBaseEmpty | NoRelevantContext | RetrievalFailure (name : pystr) | OtherFailure (name : pystr).

Fixpoint mapE {A B} (f : A -> result eval_error B) (l : list A) : result eval_error (list B) :=
  match l with [] => Ok [] | x :: l => y ← f x; ys ← mapE f l; Ok (y :: ys) end.

Definition reference_of (r : SearchResult) : result eval_error RetrievalReference :=
  new_reference (sr_document_id r) (sr_chunk_id r) (sr_chunk_index r) (sr_distance r) (Some (sr_content r)).
(** What is raised past the retriever is the name of the type. *)
Definition named {A} (r : result eval_error A) : result pystr A := match r with Ok a => Ok a | Err e => Err (eval_name e) end.

Section Retrievers.
Context {W : Type}.

(** [RAGServiceRetriever.retrieve]: [prepare] returns the references of the
    prepared request, as results. *)
Definition service_retrieve (prepare : pystr -> pystr -> W -> result prepare_error (list SearchResult) * W)
    (owner_key_hash query : pystr) (w : W) : result pystr RetrievalOutcome * W :=
  if blank query then (Ok (no_sources (u "invalid_query")), w) else
  match prepare query owner_key_hash w with
  | (Ok references, w) =>
      (named (references ← mapE reference_of references; Ok (mkOutcome references (u "success") None None)), w)
  | (Err KnowledgeBaseEmpty, w) => (Ok (no_sources (u "knowledge_base_empty")), w)
  | (Err NoRelevantContext, w) => (Ok (no_sources (u "no_relevant_context")), w)
  | (Err (RetrievalFailure name), w) => (Ok (retrieval_failed name), w)
  | (Err (OtherFailure name), w) => (Err name, w)
  end.

(** [EmbeddingVectorStoreRetriever.retrieve] *)
Definition store_retrieve (embed_query : pystr -> W -> result prepare_error (list float64) * W)
    (store_search : list float64 -> Z -> pystr -> W -> result prepare_error (list SearchResult) * W)
    (top_k : Z) (max_distance : float64) (owner_key_hash query : pystr) (w : W) : result pystr RetrievalOutcome * W :=
  if blank query then (Ok (no_sources (u "invalid_query")), w) else
  let '(results, w) :=
    match embed_query query w with
    | (Err e, w) => (Err e, w)
    | (Ok embedding, w) => store_search embedding top_k owner_key_hash w
    end in
  match results with
  | Err (RetrievalFailure name) => (Ok (retrieval_failed name), w)
  | Err (OtherFailure name) => (Err name, w)
  | Err KnowledgeBaseEmpty => (Err (u "KnowledgeBaseEmptyError"), w)
  | Err NoRelevantContext => (Err (u "NoRelevantContextError"), w)
  | Ok results =>
      (named
         match results with
         | [] => Ok (no_sources (u "knowledge_base_empty"))
         | _ =>
             match filter (fun r => SFleb (sr_distance r) max_distance = true) results with
             | [] => Ok (no_sources (u "no_relevant_context"))
             | filtered => references ← mapE reference_of filtered; Ok (mkOutcome references (u "success") None None)
             end
         end, w)
  end.
End Retrievers.

(** * Theorems

    What the metrics of a case mean, and that a case which its constructor
    accepted is always evaluated. *)

#[local] Opaque u.

(** ** Identifiers *)

Lemma fromkeys_spec l : NoDup (fromkeys l) /\ forall x, x ∈ fromkeys l <-> x ∈ l.
Proof.
  unfold fromkeys. set (step := fun (seen : list pystr) x => _).
  assert (H : forall l seen, NoDup seen -> NoDup (foldl step seen l) /\ forall x, x ∈ foldl step seen l <-> x ∈ seen \/ x ∈ l).
  { clear l. induction l as [|y l IH]; intros seen Hs; [split; [done|set_solver]|]. cbn [foldl].
    change (step seen y) with (if bool_decide (y ∈ seen) then seen else seen ++ [y]). case_bool_decide as Hy.
    - destruct (IH seen Hs) as [H1 H2]. split; [done|]. intros x. rewrite H2, elem_of_cons. split; [tauto|]. intros [?|[->|?]]; auto.
    - destruct (IH (seen ++ [y])) as [H1 H2].
      + apply NoDup_app. split_and!; [done|set_solver|apply NoDup_singleton].
      + split; [done|]. intros x. rewrite H2. set_solver. }
  destruct (H l []) as [H1 H2]; [constructor|]. split; [done|]. intros x. rewrite H2. set_solver.
Qed.

Lemma first_hit_spec expected l : forall rank, first_hit expected rank l =
  match list_find (fun x => x ∈ expected) l with Some (i, _) => ratio 1 (rank + Z.of_nat i) | None => zero end.
Proof.
  induction l as [|x l IH]; intros rank; [done|]. cbn [first_hit list_find]. case_bool_decide as Hx.
  - rewrite decide_True by done. cbn. by rewrite Z.add_0_r.
  - rewrite decide_False, IH by done. destruct (list_find _ l) as [[i y]|]; [|done]. cbn. f_equal. lia.
Qed.

Lemma content_rank_spec content l : forall rank, content_rank content rank l =
  match list_find (fun r => holds_content content r = true) l with Some (i, _) => ratio 1 (rank + Z.of_nat i) | None => zero end.
Proof.
  induction l as [|x l IH]; intros rank; [done|]. cbn [content_rank list_find]. destruct (holds_content content x) eqn:E.
  - rewrite decide_True by done. cbn. by rewrite Z.add_0_r.
  - rewrite decide_False, IH by congruence. destruct (list_find _ l) as [[i y]|]; [|done]. cbn. f_equal. lia.
Qed.

Lemma recall_hits_spec expected selected :
  0 <= recall_hits expected selected <= Z.of_nat (length (remove_dups expected)) /\
  (recall_hits expected selected = Z.of_nat (length (remove_dups expected)) <-> expected ⊆ selected).
Proof.
  unfold recall_hits. set (e := remove_dups expected).
  assert (He : expected ⊆ selected <-> Forall (fun x => x ∈ selected) e).
  { rewrite Forall_forall. unfold e. setoid_rewrite elem_of_remove_dups. done. }
  rewrite He. clear He. generalize e. clear e. intros e. pose proof (length_filter (fun x => x ∈ selected) e). split; [lia|].
  clear H. induction e as [|x e IH]; [split; [constructor|done]|]. rewrite Forall_cons, <- IH.
  pose proof (length_filter (fun x => x ∈ selected) e). destruct (decide (x ∈ selected)) as [Hx|Hx].
  - rewrite filter_cons_True by done. cbn [length]. split; [intros; split; [done|lia]|intros [_ ?]; lia].
  - rewrite filter_cons_False by done. cbn [length]. split; [lia|tauto].
Qed.

(** ** Cases *)

Lemma normalize_items_ok name l l' : normalize_items name l = Ok l' -> existsb blank l' = false.
Proof.
  revert l'. induction l as [|v l IH]; intros l' H; [by injection H as <-|]. cbn in H. destruct v as [| | | |s| |]; try discriminate.
  destruct (blank s) eqn:E; [discriminate|]. apply bind_ok in H as (s' & Hs & [= <-]). cbn. by rewrite E, (IH s').
Qed.
Lemma id_sequence_ok name v l : _normalize_id_sequence name v = Ok l -> existsb blank l = false.
Proof.
  unfold _normalize_id_sequence, normalized, _normalize_optional_strings. destruct v as [l0|]; cbn; [|by intros [= <-]].
  destruct (normalize_items name (JStr <$> l0)) as [l1|] eqn:E; [|discriminate]. intros [= <-]. by eapply normalize_items_ok.
Qed.

(** What a constructor guarantees *)
Definition rag_case_ok (c : RAGEvalCase) : Prop :=
  existsb blank (document_ids c) = false /\ existsb blank (chunk_ids c) = false /\
  NoDup (document_ids c) /\ NoDup (chunk_ids c) /\ (forall k, rg_top_k c = Some k -> 0 < k).
Definition reference_ok (r : RetrievalReference) : Prop := blank (rf_document_id r) = false /\ blank (rf_chunk_id r) = false.

Lemma new_rag_case_ok i q d ch a t m k c : new_rag_case i q d ch a t m k = Ok c -> rag_case_ok c.
Proof.
  unfold new_rag_case. intros H. apply bind_ok in H as ([] & _ & H). apply bind_ok in H as ([] & _ & H).
  apply bind_ok in H as ([] & Hk%raise_if_ok & H). apply bind_ok in H as ([] & _ & H).
  apply bind_ok in H as (d' & Hd%id_sequence_ok & H). apply bind_ok in H as (ch' & Hc%id_sequence_ok & H).
  apply bind_ok in H as ([] & Hd2%raise_if_ok & H). apply bind_ok in H as ([] & Hc2%raise_if_ok & H).
  apply bind_ok in H as ([] & _ & H). apply bind_ok in H as (a' & _ & [= <-]). unfold rag_case_ok. cbn.
  apply bool_decide_eq_false in Hd2. apply bool_decide_eq_false in Hc2.
  split_and!; [done|done|by apply dec_stable|by apply dec_stable|]. intros k' ->. bools. lia.
Qed.
Lemma new_reference_ok d c i x t r : new_reference d c i x t = Ok r -> reference_ok r.
Proof.
  unfold new_reference. intros H. apply bind_ok in H as ([] & Hd%raise_if_ok & H). apply bind_ok in H as ([] & Hc%raise_if_ok & H).
  apply bind_ok in H as ([] & _ & H). apply bind_ok in H as ([] & _ & [= <-]). done.
Qed.

(** ** Metrics *)

(** The recall of [expected] among [retrieved]: the share of the expected ids that
    were retrieved *)
Definition recall_is (expected retrieved : list pystr) (m : option float64) : Prop :=
  match expected with
  | [] => m = None
  | _ => exists h n, m = Some (ratio h n) /\ 0 <= h <= n /\ n = Z.of_nat (length expected) /\ (h = n <-> expected ⊆ retrieved)
  end.
(** The reciprocal of the rank at which the first expected id was retrieved, an id
    that was retrieved twice counting once *)
Definition reciprocal_is (expected retrieved : list pystr) (m : option float64) : Prop :=
  match expected with
  | [] => m = None
  | _ => match list_find (fun x => x ∈ expected) (fromkeys retrieved) with
         | Some (i, _) => m = Some (ratio 1 (1 + Z.of_nat i))
         | None => m = Some zero
         end
  end.

Lemma remove_dups_id (l : list pystr) : NoDup l -> remove_dups l = l.
Proof. induction 1 as [|x l Hx _ IH]; [done|]. cbn. case_match; [done|by rewrite IH]. Qed.

Lemma checked expected retrieved : expected <> [] -> existsb blank expected = false -> existsb blank retrieved = false ->
  check_ids None expected retrieved = Ok tt.
Proof. intros He H1 H2. unfold check_ids. rewrite H1, H2. cbn. by rewrite bool_decide_eq_false_2. Qed.

Lemma recall_ok expected retrieved : NoDup expected -> existsb blank expected = false -> existsb blank retrieved = false ->
  exists m, when_expected context_recall_at_k expected retrieved = Ok m /\ recall_is expected retrieved m.
Proof.
  intros Hn H1 H2. unfold when_expected, recall_is. destruct expected as [|x l]; [by eexists|].
  unfold context_recall_at_k. rewrite checked by done. cbn [mbind result_bind fmap result_fmap top].
  eexists. split; [reflexivity|]. rewrite (remove_dups_id _ Hn).
  destruct (recall_hits_spec (x :: l) retrieved) as [Hb Hi]. rewrite (remove_dups_id _ Hn) in Hb, Hi. exists (recall_hits (x :: l) retrieved), (Z.of_nat (length (x :: l))).
  split_and!; [reflexivity|exact (proj1 Hb)|exact (proj2 Hb)|reflexivity|exact Hi].
Qed.
Lemma reciprocal_ok expected retrieved : existsb blank expected = false -> existsb blank retrieved = false ->
  exists m, when_expected reciprocal_rank_at_k expected retrieved = Ok m /\ reciprocal_is expected retrieved m.
Proof.
  intros H1 H2. unfold when_expected, reciprocal_is. destruct expected as [|x l]; [by eexists|].
  unfold reciprocal_rank_at_k. rewrite checked by done. cbn [mbind result_bind fmap result_fmap top].
  eexists. split; [reflexivity|]. rewrite first_hit_spec. by destruct (list_find _ _) as [[i y]|].
Qed.

Lemma fromkeys_not_blank l : existsb blank l = false -> existsb blank (fromkeys l) = false.
Proof.
  rewrite <- !not_true_iff_false, !existsb_exists. intros H (x & Hx & Hb). apply H. exists x. split; [|done].
  apply list_elem_of_In. apply (proj2 (fromkeys_spec l)). by apply list_elem_of_In.
Qed.

Lemma references_ids refs : Forall reference_ok refs ->
  existsb blank (rf_document_id <$> refs) = false /\ existsb blank (rf_chunk_id <$> refs) = false.
Proof. induction 1 as [|r refs [Hd Hc] _ [IH1 IH2]]; [done|]. cbn. by rewrite Hd, Hc, IH1, IH2. Qed.

(** The ids without their repetitions give the same metrics. *)
Lemma recall_unique expected l m : recall_is expected (fromkeys l) m -> recall_is expected l m.
Proof.
  unfold recall_is. destruct expected as [|x e]; [done|]. intros (h & n & -> & Hb & Hn & Hi). exists h, n. split_and!; try done; try lia.
  rewrite Hi. split; intros H y Hy; apply (fromkeys_spec l); by apply H.
Qed.
Lemma fromkeys_id l : NoDup l -> fromkeys l = l.
Proof.
  unfold fromkeys. intros Hl. enough (H : forall l seen, NoDup (seen ++ l) ->
    foldl (fun seen x => if bool_decide (x ∈ seen) then seen else seen ++ [x]) seen l = seen ++ l) by (by apply (H l [])).
  clear l Hl. induction l as [|x l IH]; intros seen Hn; [by rewrite app_nil_r|]. cbn [foldl].
  rewrite bool_decide_eq_false_2; [rewrite IH; by rewrite <- app_assoc|].
  apply NoDup_app in Hn as (_ & Hn & _). intros Hx. apply (Hn _ Hx). by left.
Qed.
Lemma reciprocal_unique expected l m : reciprocal_is expected (fromkeys l) m -> reciprocal_is expected l m.
Proof. unfold reciprocal_is. by rewrite (fromkeys_id (fromkeys l)) by apply fromkeys_spec. Qed.

Lemma content_hit_rank content l :
  match Some (existsb (holds_content content) l),
    Some match list_find (fun r => holds_content content r = true) l with
         | Some (i, _) => ratio 1 (1 + Z.of_nat i)
         | None => zero
         end with
  | Some true, Some x => exists rank, x = ratio 1 (1 + Z.of_nat rank) /\ (rank < length l)%nat
  | Some false, Some x => x = zero
  | _, _ => False
  end.
Proof.
  destruct (list_find _ l) as [[i r]|] eqn:E.
  - apply list_find_Some in E as (Hi & Hr & _).
    replace (existsb (holds_content content) l) with true; [exists i; split; [done|by eapply lookup_lt_Some]|].
    symmetry. apply existsb_exists. exists r. split; [|done]. apply list_elem_of_In. by eapply list_elem_of_lookup_2.
  - apply list_find_None in E. replace (existsb (holds_content content) l) with false; [done|].
    symmetry. apply not_true_iff_false. rewrite existsb_exists. intros (r & Hr & Hb). rewrite Forall_forall in E.
    apply (E r); [by apply list_elem_of_In|done].
Qed.

(** A case that its constructor accepted is evaluated for every outcome whose
    references theirs accepted: no exception can arise.  A failed outcome has no
    metric and no success.  Otherwise the references are cut to the depth of the
    case, the recalls and the reciprocal ranks of documents and chunks are those of
    the expected ids among the retrieved ones, those of the context are the chunks'
    where chunks are expected and the documents' otherwise, and the expected content
    was hit exactly when it has a rank. *)
Theorem rag_case_metrics c outcome answer latency_ms :
  rag_case_ok c -> Forall reference_ok (oc_references outcome) ->
  exists r, _evaluate_rag_case c outcome answer latency_ms = Ok r /\ rr_case_id r = rg_case_id c /\
    let selected := top (rg_top_k c) (oc_references outcome) in
    if bool_decide (oc_status outcome = u "failed") then
      rr_success r = false /\ rr_retrieved_count r = 0 /\ rr_context_recall_at_k r = None /\
      rr_context_mrr_at_k r = None /\ rr_content_hit r = None
    else
      (rr_success r = true <-> oc_status outcome = u "success" /\ oc_references outcome <> []) /\
      rr_retrieved_count r = Z.of_nat (length selected) /\
      recall_is (document_ids c) (rf_document_id <$> selected) (rr_document_recall_at_k r) /\
      recall_is (chunk_ids c) (rf_chunk_id <$> selected) (rr_chunk_recall_at_k r) /\
      reciprocal_is (document_ids c) (rf_document_id <$> selected) (rr_document_mrr_at_k r) /\
      reciprocal_is (chunk_ids c) (rf_chunk_id <$> selected) (rr_chunk_mrr_at_k r) /\
      rr_context_recall_at_k r = match chunk_ids c with [] => rr_document_recall_at_k r | _ => rr_chunk_recall_at_k r end /\
      match rr_content_hit r, rr_content_mrr_at_k r with
      | None, None => default [] (rg_expected_content_contains c) = []
      | Some true, Some x => exists rank, x = ratio 1 (1 + Z.of_nat rank) /\ (rank < length selected)%nat
      | Some false, Some x => x = zero
      | _, _ => False
      end.
Proof.
  intros (Hd & Hc & Nd & Nc & _) Hrefs. unfold _evaluate_rag_case.
  case_bool_decide as Hf; [eexists; split; [reflexivity|]; done|].
  unfold _select_references. set (selected := top (rg_top_k c) (oc_references outcome)).
  assert (Hsel : Forall reference_ok selected) by (unfold selected, top; destruct (rg_top_k c); [by apply Forall_take|done]).
  destruct (references_ids _ Hsel) as [Bd Bc]. unfold _unique_document_ids.
  assert (Bd' := fromkeys_not_blank _ Bd). destruct (fromkeys_spec (rf_document_id <$> selected)) as [Nk Mk].
  destruct (recall_ok (document_ids c) _ Nd Hd Bd') as (dr & -> & Rd).
  destruct (recall_ok (chunk_ids c) _ Nc Hc Bc) as (cr & -> & Rc).
  destruct (reciprocal_ok (document_ids c) _ Hd Bd') as (dm & -> & Md).
  destruct (reciprocal_ok (chunk_ids c) _ Hc Bc) as (cm & -> & Mc).
  cbn [mbind result_bind]. eexists. split; [reflexivity|]. split; [reflexivity|].
  cbn [rr_success rr_retrieved_count rr_document_recall_at_k rr_chunk_recall_at_k rr_document_mrr_at_k rr_chunk_mrr_at_k
       rr_context_recall_at_k rr_content_hit rr_content_mrr_at_k]. split_and!.
  - rewrite andb_true_iff, negb_true_iff, bool_decide_eq_true, bool_decide_eq_false. done.
  - by rewrite length_fmap.
  - by apply recall_unique.
  - done.
  - by apply reciprocal_unique.
  - done.
  - done.
  - unfold content_expected, text_given. destruct (rg_expected_content_contains c) as [[|x t]|]; [done| |done].
    cbn [fmap option_fmap option_map]. rewrite content_rank_spec. by apply content_hit_rank.
Qed.

Definition sample_rag_case : RAGEvalCase :=
  mkRAGCase (u "r1") (u "q") [u "d1"; u "d2"] [u "c2"] None (Some (u "error")) [] (Some 2).
Definition sample_refs : list RetrievalReference :=
  [mkReference (u "d1") (u "c1") 0 zero (Some (u "text")); mkReference (u "d1") (u "c2") 1 zero (Some (u "an error"));
   mkReference (u "d2") (u "c3") 0 zero None].
Definition sample_outcome : RetrievalOutcome := mkOutcome sample_refs (u "success") None None.

Lemma rag_case_metrics_witness :
  rag_case_ok sample_rag_case /\
  exists r, _evaluate_rag_case sample_rag_case sample_outcome None zero = Ok r /\ rr_case_id r = u "r1" /\
    rr_context_recall_at_k r = Some (ratio 1 1) /\ rr_context_mrr_at_k r = Some (ratio 1 2) /\ rr_content_hit r = Some true.
Proof.
  assert (Hc : rag_case_ok sample_rag_case).
  { split_and!; [reflexivity|reflexivity| | |intros k [= <-]; lia];
      apply (bool_decide_unpack _); vm_compute; exact I. }
  assert (Hr : Forall reference_ok (oc_references sample_outcome)) by (repeat constructor).
  split; [exact Hc|]. destruct (rag_case_metrics sample_rag_case sample_outcome None zero Hc Hr) as (r & E & Hid & _).
  exists r. split; [exact E|]. split; [exact Hid|]. vm_compute in E. injection E as <-. split_and!; vm_compute; reflexivity.
Defined.

(** Content that is only white space is accepted as the one expectation, is then
    stripped to nothing, and such a case cannot be read back. *)
Definition blank_content_case : result eval_error RAGEvalCase :=
  new_rag_case (u "r1") (u "q") None None None (Some [32]%N) [] None.
Example blank_content_lost :
  match blank_content_case with
  | Ok c => content_expected c = None /\ document_ids c = [] /\ chunk_ids c = [] /\
            match rag_dataset_to_jsonl [c] with
            | Ok text => match read_rag_golden_dataset (fun _ => []) text with Err _ => True | Ok _ => False end
            | Err _ => False
            end
  | Err _ => False
  end.
Proof. vm_compute. repeat split. Qed.
