(* ===== verification/Benchmarks.v ===== *)
(** * Agent benchmarks: [app/evals/agent_benchmark.py], [multi_agent_compare.py], the in-memory repositories and [app/api/benchmarks.py]

    The golden tasks are run one after the other through the agent service and, in
    the comparison, the multi-agent service; the metrics are derived from the
    outcomes and saved for the workspace.  The services and the clock act on a
    world [W]; an exception of theirs is the name of its type and its text. *)

From Corelib Require Import SpecFloat.
From S2P Require Import Prelude Json AgentRuntime AuditLog AgentModel AgentConfig MultiAgent MultiAgentEvents.
From S2P Require Import MultiAgentService RunRecords RagRetrieval Evals.
Local Open Scope Z_scope.

(** ** The repositories *)

Record BenchmarkRunRecord := mkBenchmarkRun {
  br_agent_id : pystr;
  br_workspace_id : pystr;
  br_task_set : pystr;
  br_tool_call_accuracy : option float64;
  br_task_completion_rate : option float64;
  br_average_steps : option float64;
  br_average_latency_ms : option float64;
  br_task_count : Z;
  br_completed_count : Z;
  br_metric_payload : list (pystr * json);
  br_id : Z;
  br_created_at : option Z
}.

Record InMemoryBenchmarkRunRepository := mkBenchmarkRepo { bm_runs : list BenchmarkRunRecord; bm_id_seq : Z }.
Definition benchmark_repo_init : InMemoryBenchmarkRunRepository := mkBenchmarkRepo [] 0.

Definition saved_run (i now : Z) (r : BenchmarkRunRecord) : BenchmarkRunRecord :=
  mkBenchmarkRun (br_agent_id r) (br_workspace_id r) (br_task_set r) (br_tool_call_accuracy r) (br_task_completion_rate r)
    (br_average_steps r) (br_average_latency_ms r) (br_task_count r) (br_completed_count r) (br_metric_payload r) i (Some now).
Definition save_run (now : Z) (record : BenchmarkRunRecord) (r : InMemoryBenchmarkRunRepository)
  : BenchmarkRunRecord * InMemoryBenchmarkRunRepository :=
  let i := bm_id_seq r + 1 in
  let saved := saved_run i now record in
  (saved, mkBenchmarkRepo (bm_runs r ++ [saved]) i).

(** [datetime.min], in microseconds from the epoch *)
Definition run_time (r : BenchmarkRunRecord) : Z := default (-62135596800 * 1000000) (br_created_at r).
Definition list_benchmark_runs (workspace_id : pystr) (agent_id : option pystr) (limit : Z) (r : InMemoryBenchmarkRunRepository)
  : list BenchmarkRunRecord :=
  let keep x := bool_decide (br_workspace_id x = workspace_id)
                && match agent_id with Some a => bool_decide (br_agent_id x = a) | None => true end in
  pyslice limit (sort_by (fun a b => run_time b <=? run_time a) (filter (fun x => keep x = true) (bm_runs r))).

(** [InMemoryRAGEvaluationRepository] over any record with a time of creation *)
Definition save_evaluation {Run} (created : Z -> Run -> Run) (now : Z) (run : Run) (runs : list Run) : Run * list Run :=
  (created now run, runs ++ [created now run]).
(** [l[-limit:]] *)
Definition last_slice {A} (limit : Z) (l : list A) : list A :=
  drop (Z.to_nat (if limit <=? 0 then - limit else Z.of_nat (length l) - limit)) l.
Definition list_recent {Run} (limit : Z) (runs : list Run) : list Run := rev (last_slice limit runs).

(** ** Tasks and outcomes *)

Record BenchmarkTask := mkBenchmarkTask { bt_message : pystr; bt_expected_tool_calls : list pystr }.

Definition GOLDEN_TASKS : list (pystr * list BenchmarkTask) :=
  [(u "default",
    [mkBenchmarkTask (u "Calculate 2+2") [u "calculator"];
     mkBenchmarkTask (u "What is the square root of 144?") [u "calculator"];
     mkBenchmarkTask (u "Search the knowledge base for the latest report") [u "knowledge_search"]])].

Record TaskOutcome := mkTaskOutcome {
  to_message : pystr;
  to_status : pystr;
  to_tool_calls : list pystr;
  to_steps : Z;
  to_duration_ms : float64;
  to_error : option pystr
}.
Definition outcome_json (o : TaskOutcome) : json :=
  JObj [(u "message", JStr (to_message o)); (u "status", JStr (to_status o)); (u "tool_calls", strings (to_tool_calls o));
        (u "steps", JInt (to_steps o)); (u "duration_ms", JFloat (to_duration_ms o)); (u "error", of_opt JStr (to_error o))].

Definition _MAX_ERROR_MESSAGE_CHARS : Z := 200.
(** [_bounded_error] of the name of a type and a text *)
Definition _bounded_error (e : pystr * pystr) : pystr :=
  let message := if _MAX_ERROR_MESSAGE_CHARS <? slen e.2 then sprefix _MAX_ERROR_MESSAGE_CHARS e.2 ++ u "..." else e.2 in
  e.1 ++ u ": " ++ message.

Definition COMPLETED : pystr := run_status_value RunStatus.COMPLETED.
(** [set(expected).issubset(set(actual))] *)
Definition all_called (expected actual : list pystr) : bool := forallb (fun t => bool_decide (t ∈ actual)) expected.

Definition _aggregate (agent_id workspace_id task_set : pystr) (tasks : list BenchmarkTask) (outcomes : list TaskOutcome)
  : BenchmarkRunRecord :=
  let task_count := Z.of_nat (length tasks) in
  let completed := filter (fun o => to_status o = COMPLETED) outcomes in
  let completed_count := Z.of_nat (length completed) in
  let matched := count_if (fun p => all_called (bt_expected_tool_calls p.1) (to_tool_calls p.2)) (zip tasks outcomes) in
  let share n := if task_count =? 0 then None else Some (ratio n task_count) in
  mkBenchmarkRun agent_id workspace_id task_set (share matched) (share completed_count)
    (match completed with [] => None | _ => Some (ratio (sumZ (to_steps <$> completed)) completed_count) end)
    (match completed with [] => None | _ => Some (float_div (float_sum (to_duration_ms <$> completed)) (float_of completed_count)) end)
    task_count completed_count [(u "task_outcomes", JArr (outcome_json <$> outcomes))] 0 None.

(** ** The runner *)

Section Benchmark.
Context {W : Type}.
(** The stored agents, the agent service, the clock; 60 seconds and the greatest
    timeout in ticks, and pydantic's refusal *)
Context (agents : W -> InMemoryAgentDefinitionRepository)
  (agent_run : AgentModel.AgentRunRequest -> W -> result (pystr * pystr) AgentRunResult * W)
  (monotonic : W -> float64 * W) (sixty_seconds max_timeout : Z) (validation : pystr * pystr).

(** The request of a task; [model_copy] does not validate. *)
Definition task_request (message agent_id : pystr) (max_steps : option Z) : result (pystr * pystr) AgentModel.AgentRunRequest :=
  let request n set := mkAgentRequest message (Some agent_id) None None [] n sixty_seconds
                         AgentModel.DEFAULT_AGENT_TOKEN_BUDGET false false set in
  if valid_agent_request max_timeout (request AgentModel.DEFAULT_AGENT_MAX_STEPS false)
  then Ok match max_steps with Some n => request n true | None => request AgentModel.DEFAULT_AGENT_MAX_STEPS false end
  else Err validation.

(** [AgentBenchmarkRunner.run]: one task *)
Definition run_task (agent_id : pystr) (max_steps : option Z) (task : BenchmarkTask) (w : W) : TaskOutcome * W :=
  let '(start, w) := monotonic w in
  let '(outcome, w) := match task_request (bt_message task) agent_id max_steps with
                       | Err e => (Err e, w)
                       | Ok request => agent_run request w
                       end in
  let '(duration, w) := _elapsed_ms monotonic start w in
  (match outcome with
   | Ok r => mkTaskOutcome (bt_message task) (run_status_value (rr_status r)) (run_tools (rr_state r))
               (Z.of_nat (length (st_steps (rr_state r)))) duration None
   | Err e => mkTaskOutcome (bt_message task) (u "error") [] 0 duration (Some (_bounded_error e))
   end, w).

Fixpoint run_tasks (agent_id : pystr) (max_steps : option Z) (tasks : list BenchmarkTask) (w : W) : list TaskOutcome * W :=
  match tasks with
  | [] => ([], w)
  | task :: tasks =>
      let '(o, w) := run_task agent_id max_steps task w in
      let '(os, w) := run_tasks agent_id max_steps tasks w in (o :: os, w)
  end.

Definition no_agent (agent_id : pystr) : pystr :=
  u "Agent " ++ agent_id ++ u " not found or not accessible in this workspace.".

Definition benchmark_audit (saved : BenchmarkRunRecord) : list (pystr * json) :=
  [(u "task_set", JStr (br_task_set saved)); (u "task_count", JInt (br_task_count saved));
   (u "completed_count", JInt (br_completed_count saved)); (u "tool_call_accuracy", of_opt JFloat (br_tool_call_accuracy saved))].

(** [AgentBenchmarkRunner.run]; [now] is the time of the save and of the audit. *)
Definition run_benchmark (now : Z) (agent_id task_set workspace_id : pystr) (max_steps : option Z) (actor : option AuditActor)
    (repo : InMemoryBenchmarkRunRepository) (audit : option InMemoryAuditRepository) (w : W)
  : result pystr BenchmarkRunRecord * InMemoryBenchmarkRunRepository * option InMemoryAuditRepository * W :=
  match dict_get task_set GOLDEN_TASKS with
  | None => (Err (u "Unknown task set: " ++ task_set), repo, audit, w)
  | Some tasks =>
      match get_agent agent_id (Some workspace_id) (agents w) with
      | None => (Err (no_agent agent_id), repo, audit, w)
      | Some _ =>
          let '(outcomes, w) := run_tasks agent_id max_steps tasks w in
          let '(saved, repo) := save_run now (_aggregate agent_id workspace_id task_set tasks outcomes) repo in
          (Ok saved, repo,
           if_audited actor (fun a => AuditLog.record now (u "benchmark.execute") (u "benchmark") agent_id (Some a) None
                                        (Some (benchmark_audit saved))) audit, w)
      end
  end.

(** ** The comparison *)

Record CompareTask := mkCompareTask { ct_message : pystr; ct_expected_tool_calls : list pystr }.
Definition GOLDEN_COMPARE_TASKS : list CompareTask :=
  [mkCompareTask (u "Calculate 2+2 and 10*4, then summarize the results.") [u "calculator"];
   mkCompareTask (u "Search the knowledge base for the project overview and produce a short report.") [u "knowledge_search"];
   mkCompareTask (u "The knowledge base is empty; produce a report that honestly reports no sources.") []].

Record CaseOutcome := mkCaseOutcome {
  co_message : pystr;
  co_status : pystr;
  co_tool_calls : list pystr;
  co_steps : Z;
  co_token_usage : Z;
  co_duration_ms : float64;
  co_error : option pystr;
  co_subtask_count : Z
}.
Definition case_json (o : CaseOutcome) : json :=
  JObj [(u "message", JStr (co_message o)); (u "status", JStr (co_status o)); (u "tool_calls", strings (co_tool_calls o));
        (u "steps", JInt (co_steps o)); (u "token_usage", JInt (co_token_usage o)); (u "duration_ms", JFloat (co_duration_ms o));
        (u "error", of_opt JStr (co_error o)); (u "subtask_count", JInt (co_subtask_count o))].

(** The multi-agent service, with 120 seconds in ticks *)
Context (multi_run : pystr -> OrchestrationConfig -> W -> result (pystr * pystr) OrchestrationResult * W) (two_minutes : Z).
Definition compare_config : OrchestrationConfig := mkOrchestrationConfig 3 FailurePolicy.SKIP 1 (Some two_minutes) None [].

Definition failed_case (message : pystr) (duration : float64) (e : pystr * pystr) : CaseOutcome :=
  mkCaseOutcome message (u "error") [] 0 0 duration (Some (_bounded_error e)) 0.

Definition _run_single (agent_id : pystr) (max_steps : option Z) (task : CompareTask) (w : W) : CaseOutcome * W :=
  let '(start, w) := monotonic w in
  let '(outcome, w) := match task_request (ct_message task) agent_id max_steps with
                       | Err e => (Err e, w)
                       | Ok request => agent_run request w
                       end in
  let '(duration, w) := _elapsed_ms monotonic start w in
  (match outcome with
   | Ok r => mkCaseOutcome (ct_message task) (run_status_value (rr_status r)) (run_tools (rr_state r))
               (Z.of_nat (length (st_steps (rr_state r)))) (rr_token_usage r) duration None 0
   | Err e => failed_case (ct_message task) duration e
   end, w).

Definition _run_multi (task : CompareTask) (w : W) : CaseOutcome * W :=
  let '(start, w) := monotonic w in
  let '(outcome, w) := multi_run (ct_message task) compare_config w in
  let '(duration, w) := _elapsed_ms monotonic start w in
  (match outcome with
   | Ok r => let n := Z.of_nat (length (or_subtask_results r)) in
             mkCaseOutcome (ct_message task) (MultiRecords.status_value (or_status r))
               (s ← or_subtask_results r; sr_tool_calls s) n (or_total_token_usage r) duration None n
   | Err e => failed_case (ct_message task) duration e
   end, w).

Fixpoint run_lanes (agent_id : pystr) (max_steps : option Z) (tasks : list CompareTask) (w : W)
  : list (CaseOutcome * CaseOutcome) * W :=
  match tasks with
  | [] => ([], w)
  | task :: tasks =>
      let '(single, w) := _run_single agent_id max_steps task w in
      let '(multi, w) := _run_multi task w in
      let '(rest, w) := run_lanes agent_id max_steps tasks w in ((single, multi) :: rest, w)
  end.

Definition expects_tools (t : CompareTask) : bool := negb (bool_decide (ct_expected_tool_calls t = [])).
Definition _tool_accuracy (outcomes : list CaseOutcome) : option float64 :=
  match outcomes with
  | [] => None
  | _ =>
      let matched := count_if (fun p => expects_tools p.1 && all_called (ct_expected_tool_calls p.1) (co_tool_calls p.2))
                       (zip GOLDEN_COMPARE_TASKS outcomes) in
      Some (ratio matched (count_if expects_tools GOLDEN_COMPARE_TASKS))
  end.

(** [(multi_total - single_total) / single_total <= 0.4] *)
Definition signed_ratio (n d : Z) : float64 :=
  match n with Z0 => zero | Zpos p => round_ratio false p (Z.to_pos d) | Zneg p => round_ratio true p (Z.to_pos d) end.
Definition _is_within_token_budget (single multi : list CaseOutcome) : bool :=
  let single_total := sumZ (co_token_usage <$> single) in
  let multi_total := sumZ (co_token_usage <$> multi) in
  if single_total =? 0 then true else SFleb (signed_ratio (multi_total - single_total) single_total) (round_ratio false 4 10).

Definition compare_record (agent_id workspace_id : pystr) (single multi : list CaseOutcome) : BenchmarkRunRecord :=
  let completed := count_if (fun o => bool_decide (co_status o = COMPLETED)) in
  let single_accuracy := _tool_accuracy single in
  let n := Z.of_nat (length multi) in
  mkBenchmarkRun agent_id workspace_id (u "multi_agent_compare") single_accuracy
    (match multi with [] => None | _ => Some (ratio (completed multi) n) end) None None n (completed multi)
    [(u "mode", JStr (u "single_vs_multi")); (u "single", JArr (case_json <$> single)); (u "multi", JArr (case_json <$> multi));
     (u "judgement",
      JObj [(u "single_completed", JInt (completed single)); (u "multi_completed", JInt (completed multi));
            (u "single_task_count", JInt (Z.of_nat (length single))); (u "multi_task_count", JInt n);
            (u "single_tool_call_accuracy", of_opt JFloat single_accuracy);
            (u "multi_tool_call_accuracy", of_opt JFloat (_tool_accuracy multi));
            (u "multi_tokens_below_plus_40_percent", JBool (_is_within_token_budget single multi))])] 0 None.

(** [MultiAgentCompareRunner.run] *)
Definition run_compare (now : Z) (agent_id workspace_id : pystr) (max_steps : option Z) (repo : InMemoryBenchmarkRunRepository)
    (w : W) : result pystr BenchmarkRunRecord * InMemoryBenchmarkRunRepository * W :=
  match get_agent agent_id (Some workspace_id) (agents w) with
  | None => (Err (no_agent agent_id), repo, w)
  | Some _ =>
      let '(lanes, w) := run_lanes agent_id max_steps GOLDEN_COMPARE_TASKS w in
      let '(saved, repo) := save_run now (compare_record agent_id workspace_id lanes.*1 lanes.*2) repo in
      (Ok saved, repo, w)
  end.

(** ** The routes of [api/benchmarks.py] *)

Inductive http_answer (A : Type) := Answered (status : Z) (body : A) | HTTPException (status : Z) (detail : pystr).
#[global] Arguments Answered {A}.
#[global] Arguments HTTPException {A}.

Definition run_benchmark_route (now : Z) (workspace_id : option pystr) (agent_id task_set : pystr) (max_steps : option Z)
    (repo : InMemoryBenchmarkRunRepository) (w : W) : http_answer BenchmarkRunRecord * InMemoryBenchmarkRunRepository * W :=
  match workspace_id with
  | None => (HTTPException 404 (u "Agent not found or not accessible."), repo, w)
  | Some ws =>
      let '(r, repo, _, w) := run_benchmark now agent_id task_set ws max_steps None repo None w in
      (match r with Ok record => Answered 201 record | Err detail => HTTPException 404 detail end, repo, w)
  end.
Definition list_benchmark_runs_route (workspace_id agent_id : option pystr) (repo : InMemoryBenchmarkRunRepository)
  : list BenchmarkRunRecord :=
  match workspace_id with None => [] | Some ws => list_benchmark_runs ws agent_id 50 repo end.
End Benchmark.

(** * Theorems

    A benchmark is refused without a trace or recorded for its workspace, with
    metrics that are shares of its tasks. *)

#[local] Opaque u.

Section Props.
Context {W : Type}.
Context (agents : W -> InMemoryAgentDefinitionRepository)
  (agent_run : AgentModel.AgentRunRequest -> W -> result (pystr * pystr) AgentRunResult * W)
  (monotonic : W -> float64 * W) (sixty_seconds max_timeout : Z) (validation : pystr * pystr).

Abbreviation tasks_run := (run_tasks agent_run monotonic sixty_seconds max_timeout validation).
Abbreviation benchmark := (run_benchmark agents agent_run monotonic sixty_seconds max_timeout validation).

(** One outcome for each task, in order *)
Lemma run_tasks_messages agent_id max_steps tasks : forall w,
  to_message <$> (tasks_run agent_id max_steps tasks w).1 = bt_message <$> tasks.
Proof.
  induction tasks as [|t tasks IH]; intros w; [done|]. cbn [run_tasks].
  destruct (run_task _ _ _ _ _ _ _ t w) as [o w1] eqn:E. specialize (IH w1).
  destruct (run_tasks _ _ _ _ _ agent_id max_steps tasks w1) as [os w2]. cbn [fst fmap list_fmap] in *. rewrite IH. f_equal.
  revert E. unfold run_task. destruct (monotonic w) as [start w3].
  destruct (match task_request _ _ _ _ _ _ with Ok _ => _ | Err _ => _ end) as [[r|e] w4];
    destruct (_elapsed_ms monotonic start w4) as [d w5]; by intros [= <- _].
Qed.

(** The share of the tasks that meet a test *)
Definition share_of (n count : Z) (x : option float64) : Prop := 0 <= n <= count /\ x = Some (ratio n count).

Lemma aggregate_metrics agent_id ws task_set tasks outcomes : tasks <> [] -> length outcomes = length tasks ->
  let r := _aggregate agent_id ws task_set tasks outcomes in
  let completed := Z.of_nat (length (filter (fun o => to_status o = COMPLETED) outcomes)) in
  br_agent_id r = agent_id /\ br_workspace_id r = ws /\ br_task_count r = Z.of_nat (length tasks) /\
  br_completed_count r = completed /\ share_of completed (br_task_count r) (br_task_completion_rate r) /\
  (exists n, share_of n (br_task_count r) (br_tool_call_accuracy r)) /\
  (br_average_steps r = None <-> completed = 0).
Proof.
  intros Hne Hlen. cbv zeta. unfold _aggregate. cbn [br_agent_id br_workspace_id br_task_count br_completed_count
    br_task_completion_rate br_tool_call_accuracy br_average_steps].
  assert (Hz : (Z.of_nat (length tasks) =? 0) = false) by (apply Z.eqb_neq; destruct tasks; [done|cbn; lia]).
  rewrite Hz. assert (Hf := length_filter (fun o => to_status o = COMPLETED) outcomes).
  split_and!; try done.
  - split; [lia|done].
  - eexists. split; [|reflexivity]. unfold count_if.
    pose proof (length_filter (fun p => all_called (bt_expected_tool_calls p.1) (to_tool_calls p.2) = true) (zip tasks outcomes)) as Hm.
    rewrite length_zip_with in Hm. lia.
  - destruct (filter _ outcomes); cbn; split; (done || lia).
Qed.

Lemma listed_after_save now ws record repo agent_id limit :
  let '(saved, repo') := save_run now record repo in
  Z.of_nat (length (bm_runs repo')) <= limit ->
  (br_workspace_id record = ws -> (forall a, agent_id = Some a -> br_agent_id record = a) ->
     saved ∈ list_benchmark_runs ws agent_id limit repo') /\
  (br_workspace_id record <> ws ->
     list_benchmark_runs ws agent_id limit repo' = list_benchmark_runs ws agent_id limit repo).
Proof.
  cbn. intros Hl. unfold list_benchmark_runs. cbn [bm_runs].
  split.
  - intros Hw Ha. unfold pyslice. destruct (limit <? 0) eqn:E; bools; [lia|]. rewrite take_ge.
    + rewrite sort_by_perm. apply list_elem_of_filter. split; [|apply elem_of_app; right; by left].
      cbn. rewrite bool_decide_eq_true_2 by done. destruct agent_id as [a|]; [|done]. by apply bool_decide_eq_true, Ha.
    + rewrite (Permutation_length (sort_by_perm _ _)). etrans; [apply length_filter|]. lia.
  - intros Hw. rewrite filter_app. cbn [filter list_filter]. rewrite decide_False; [by rewrite app_nil_r|].
    cbn. by rewrite bool_decide_eq_false_2.
Qed.

(** A benchmark is refused, and then nothing is run, saved or audited, when its
    task set is unknown or its agent is not one of the workspace.  Otherwise every
    task has one outcome, in order; the run that is saved counts the tasks that
    completed, its completion rate and its tool accuracy are shares of its tasks,
    the average of the steps is missing exactly when no task completed; and it is
    listed for its workspace and for no other. *)
Theorem benchmark_recorded now agent_id task_set ws max_steps actor repo audit w :
  match benchmark now agent_id task_set ws max_steps actor repo audit w with
  | (Err _, repo', audit', w') =>
      repo' = repo /\ audit' = audit /\ w' = w /\
      (dict_get task_set GOLDEN_TASKS = None \/ get_agent agent_id (Some ws) (agents w) = None)
  | (Ok saved, repo', _, _) =>
      exists tasks outcomes, dict_get task_set GOLDEN_TASKS = Some tasks /\
        is_Some (get_agent agent_id (Some ws) (agents w)) /\
        to_message <$> outcomes = bt_message <$> tasks /\
        bm_runs repo' = bm_runs repo ++ [saved] /\
        br_agent_id saved = agent_id /\ br_workspace_id saved = ws /\ br_task_count saved = Z.of_nat (length tasks) /\
        br_completed_count saved = Z.of_nat (length (filter (fun o => to_status o = COMPLETED) outcomes)) /\
        share_of (br_completed_count saved) (br_task_count saved) (br_task_completion_rate saved) /\
        (exists n, share_of n (br_task_count saved) (br_tool_call_accuracy saved)) /\
        (br_average_steps saved = None <-> br_completed_count saved = 0) /\
        (Z.of_nat (length (bm_runs repo')) <= 50 -> saved ∈ list_benchmark_runs ws None 50 repo') /\
        (forall ws', ws' <> ws -> Z.of_nat (length (bm_runs repo')) <= 50 ->
           list_benchmark_runs ws' None 50 repo' = list_benchmark_runs ws' None 50 repo)
  end.
Proof.
  unfold run_benchmark. destruct (dict_get task_set GOLDEN_TASKS) as [tasks|] eqn:Et; [|auto 8].
  destruct (get_agent agent_id (Some ws) (agents w)) as [a|] eqn:Ea; [|auto 8].
  pose proof (run_tasks_messages agent_id max_steps tasks w) as Hm.
  destruct (run_tasks _ _ _ _ _ agent_id max_steps tasks w) as [outcomes w1]. cbn [fst] in Hm.
  assert (Hlen : length outcomes = length tasks) by (apply (f_equal length) in Hm; by rewrite !length_fmap in Hm).
  assert (Hne : tasks <> []).
  { intros ->. unfold GOLDEN_TASKS in Et. cbn [dict_get] in Et. by case_match. }
  destruct (aggregate_metrics agent_id ws task_set tasks outcomes Hne Hlen) as (H1 & H2 & H3 & H4 & H5 & H6 & H7).
  set (record := _aggregate agent_id ws task_set tasks outcomes) in *.
  pose proof (fun ws' => listed_after_save now ws' record repo None 50) as Hlist. cbn [save_run] in Hlist |- *.
  unfold save_run. cbn in Hlist. exists tasks, outcomes.
  cbn [saved_run br_agent_id br_workspace_id br_task_count br_completed_count br_task_completion_rate br_tool_call_accuracy
       br_average_steps bm_runs].
  split_and!; try done; try (by rewrite ?H4).
  - intros Hl. by apply (Hlist ws Hl).
  - intros ws' Hws Hl. apply (Hlist ws' Hl). congruence.
Qed.
End Props.

(** With a limit of 0 every stored evaluation is returned: [-0] is 0. *)
Example list_recent_zero : list_recent 0 [1; 2; 3] = [3; 2; 1] /\ list_recent 2 [1; 2; 3] = [3; 2].
Proof. split; reflexivity. Qed.
