(* ===== verification/Mcp.v ===== *)
(** * The MCP client: [app/mcp/] and the server list of [app/core/settings.py]

    Servers are configured by a JSON text, started as processes, asked for their
    tools over JSON-RPC lines and exposed to the tool registry through adapters.
    A process is what it writes: each line it is sent makes it write some lines,
    which wait in the pipe until they are read. *)

From Corelib Require Import SpecFloat.
From S2P Require Import Prelude Json JsonLoads ToolModels ToolExecutor Workflow Runs.
Local Open Scope Z_scope.

Abbreviation dict := (list (pystr * json)).

(** What leaves a call; every one but [CancelledError] is an [Exception]. *)
Inductive mcp_error :=
| MCPClientError (message : pystr)
| ValueError (message : pystr)
| OSError
| OverflowError
| TimeoutError
| CancelledError.

(** ** [models.py] *)

Module MCPServerState.
Inductive t := NOT_STARTED | STARTING | READY | FAILED | CLOSED.
#[global] Instance eq_dec : EqDecision t.
Proof. solve_decision. Defined.
Definition value (s : t) : pystr :=
  match s with
  | NOT_STARTED => u "not_started" | STARTING => u "starting" | READY => u "ready"
  | FAILED => u "failed" | CLOSED => u "closed"
  end.
End MCPServerState.

Module MCPReadinessState.
Inductive t := DISABLED | STARTING | READY | DEGRADED | NOT_READY | CLOSED.
#[global] Instance eq_dec : EqDecision t.
Proof. solve_decision. Defined.
Definition value (s : t) : pystr :=
  match s with
  | DISABLED => u "disabled" | STARTING => u "starting" | READY => u "ready"
  | DEGRADED => u "degraded" | NOT_READY => u "not_ready" | CLOSED => u "closed"
  end.
End MCPReadinessState.

Record MCPServerStatus := mkServerStatus {
  ss_name : pystr;
  ss_state : MCPServerState.t;
  ss_tool_count : Z;
  ss_error_code : option pystr
}.

Definition optional_str (s : option pystr) : json := match s with Some t => JStr t | None => JNull end.

Definition status_to_dict (s : MCPServerStatus) : dict :=
  [(u "name", JStr (ss_name s)); (u "status", JStr (MCPServerState.value (ss_state s)));
   (u "tool_count", JInt (ss_tool_count s)); (u "error_code", optional_str (ss_error_code s))].

Record MCPReadiness := mkReadiness { rd_state : MCPReadinessState.t; rd_servers : list MCPServerStatus }.

Definition is_ready (r : MCPReadiness) : bool :=
  match rd_state r with
  | MCPReadinessState.DISABLED | MCPReadinessState.READY | MCPReadinessState.DEGRADED => true
  | _ => false
  end.

Definition readiness_to_dict (r : MCPReadiness) : dict :=
  [(u "status", JStr (MCPReadinessState.value (rd_state r))); (u "ready", JBool (is_ready r));
   (u "servers", JArr ((fun s => JObj (status_to_dict s)) <$> rd_servers r))].

Record MCPServerConfig := mkServerConfig {
  mc_name : pystr;
  mc_command : list pystr;
  mc_allowed_tools : list pystr;
  mc_max_risk_level : RiskLevel.t;
  mc_startup_timeout_seconds : float64;
  mc_request_timeout_seconds : float64;
  mc_environment : list (pystr * pystr)
}.

(** [MCPServerConfig.__post_init__] *)
Definition MCPServerConfig_make name command allowed risk startup request environment
  : result mcp_error MCPServerConfig :=
  _ ← raise_if (bool_decide (strip name = [])) (ValueError (u "MCP server name must not be empty"));
  _ ← raise_if (match command with [] => true | c :: _ => bool_decide (strip c = []) end)
        (ValueError (u "MCP server command must not be empty"));
  _ ← raise_if (not_positive startup) (ValueError (u "startup_timeout_seconds must be greater than zero"));
  _ ← raise_if (not_positive request) (ValueError (u "request_timeout_seconds must be greater than zero"));
  Ok (mkServerConfig name command allowed risk startup request environment).

Record MCPToolDefinition := mkMcpTool {
  mt_name : pystr;
  mt_description : pystr;
  mt_input_schema : dict;
  mt_output_schema : dict;
  mt_risk_level : RiskLevel.t;
  mt_risk_metadata_known : bool
}.

Definition of_type (t : string) : json := JObj [(u "type", JStr (u t))].

(** The default of [output_schema] *)
Definition default_output_schema : dict :=
  [(u "type", JStr (u "object"));
   (u "properties", JObj [(u "ok", of_type "boolean"); (u "content", of_type "array");
      (u "error", JObj [(u "anyOf", JArr [of_type "string"; of_type "null"])])]);
   (u "required", JArr [JStr (u "ok"); JStr (u "content"); JStr (u "error")]);
   (u "additionalProperties", JBool false)].

(** [MCPToolDefinition.__post_init__] *)
Definition MCPToolDefinition_make name description input risk known : result mcp_error MCPToolDefinition :=
  _ ← raise_if (bool_decide (strip name = [])) (ValueError (u "MCP tool name must not be empty"));
  _ ← raise_if (bool_decide (strip description = [])) (ValueError (u "MCP tool description must not be empty"));
  Ok (mkMcpTool name description input default_output_schema risk known).

Record MCPToolCallResult := mkCallResult { cr_content : list json; cr_is_error : bool }.

(** [MCPToolCallResult.from_payload] *)
Definition from_payload (payload : json) : result mcp_error MCPToolCallResult :=
  match payload with
  | JObj d =>
      match default (JArr []) (dict_get (u "content") d) with
      | JArr content =>
          Ok (mkCallResult content (truthy (default (JBool false) (dict_get (u "isError") d))))
      | _ => Err (ValueError (u "MCP tools/call content must be a list"))
      end
  | _ => Err (ValueError (u "MCP tools/call result must be an object"))
  end.

(** ** [client.py] *)

(** What waiting for one line of the server comes to: a line, bytes that are no
    text, the end of the output, a timeout (of the read, of the start-up or of the
    tool call around it), a cancellation. *)
Inductive received := Line (text : pystr) | Undecodable | EndOfFile | Late | Interrupted.

Module Client.
Section Client.
Context (str_of : json -> pystr).

(** [_process], with the lines that wait in its output, and [_request_id].  Nothing
    more to read means that the read times out. *)
Record MCPProcessClient := mkProcessClient { process : option (list received); _request_id : Z }.

(** The outside: [spawn command environment] starts a process ([None] is [OSError],
    [Some false] a process without pipes); [deliver line] writes one line and gives
    what the process writes then ([None]: the pipe is broken). *)
Record server_process (W : Type) := mkServer {
  spawn : list pystr -> list (pystr * pystr) -> W -> option bool * W;
  deliver : pystr -> W -> option (list received) * W;
  terminate : W -> W
}.
Arguments spawn {W}. Arguments deliver {W}. Arguments terminate {W}.

Definition _parse_risk_metadata (raw_annotations : json) : RiskLevel.t * bool :=
  match raw_annotations with
  | JObj annotations =>
      match dict_get (u "destructiveHint") annotations, dict_get (u "readOnlyHint") annotations with
      | Some (JBool true), _ => (RiskLevel.HIGH, true)
      | Some (JBool false), Some (JBool true) => (RiskLevel.LOW, true)
      | _, _ => (RiskLevel.LOW, false)
      end
  | _ => (RiskLevel.LOW, false)
  end.

(** One message of the server while the answer to [request_id] is awaited: [None]
    when the loop goes on *)
Definition read_message (request_id : Z) (line : pystr) : option (result mcp_error json) :=
  match loads line with
  | None => Some (Err (MCPClientError (u "MCP server returned invalid JSON")))
  | Some (JObj message) =>
      if negb (py_eq (default JNull (dict_get (u "id") message)) (JInt request_id)) then None
      else
        match dict_get (u "error") message with
        | Some (JObj error) =>
            Some (Err (MCPClientError (str_of (default (JStr (u "MCP request failed")) (dict_get (u "message") error)))))
        | _ => Some (Ok (default JNull (dict_get (u "result") message)))
        end
  | Some _ => None
  end.

(** The loop of [_request], and what is left in the pipe *)
Fixpoint read_reply (request_id : Z) (pending : list received) : result mcp_error json * list received :=
  match pending with
  | [] => (Err TimeoutError, [])
  | Late :: rest => (Err TimeoutError, rest)
  | Interrupted :: rest => (Err CancelledError, rest)
  | Undecodable :: rest => (Err (ValueError (u "UnicodeDecodeError")), rest)
  | EndOfFile :: _ => (Err (MCPClientError (u "MCP server closed stdout")), pending)
  | Line text :: rest =>
      match read_message request_id text with
      | Some r => (r, rest)
      | None => read_reply request_id rest
      end
  end.

(** [json.dumps(message) + "\n"] *)
Definition rpc_line (message : dict) : pystr := concat (ascii_char <$> dump_json_plain (JObj message)) ++ [10%N].

Definition request_line (request_id : Z) (method : pystr) (params : dict) : pystr :=
  rpc_line [(u "jsonrpc", JStr (u "2.0")); (u "id", JInt request_id); (u "method", JStr method); (u "params", JObj params)].
Definition notification_line (method : pystr) (params : dict) : pystr :=
  rpc_line [(u "jsonrpc", JStr (u "2.0")); (u "method", JStr method); (u "params", JObj params)].

Section Ops.
Context {W : Type} (server : server_process W).

Definition not_started : mcp_error := MCPClientError (u "MCP client is not started").

Definition _request (method : pystr) (params : dict) (c : MCPProcessClient) (w : W)
  : result mcp_error json * MCPProcessClient * W :=
  match process c with
  | None => (Err not_started, c, w)
  | Some pending =>
      let request_id := _request_id c + 1 in
      match deliver server (request_line request_id method params) w with
      | (None, w) => (Err (OSError), mkProcessClient (Some pending) request_id, w)
      | (Some written, w) =>
          let '(r, rest) := read_reply request_id (pending ++ written) in
          (r, mkProcessClient (Some rest) request_id, w)
      end
  end.

Definition _send_notification (method : pystr) (params : dict) (c : MCPProcessClient) (w : W)
  : result mcp_error unit * MCPProcessClient * W :=
  match process c with
  | None => (Err not_started, c, w)
  | Some pending =>
      match deliver server (notification_line method params) w with
      | (None, w) => (Err (OSError), c, w)
      | (Some written, w) => (Ok tt, mkProcessClient (Some (pending ++ written)) (_request_id c), w)
      end
  end.

Definition initialize_params : dict :=
  [(u "protocolVersion", JStr (u "2024-11-05")); (u "capabilities", JObj []);
   (u "clientInfo", JObj [(u "name", JStr (u "ai-platform-mini")); (u "version", JStr (u "0.1.0"))])].

Definition _initialize (c : MCPProcessClient) (w : W) : result mcp_error unit * MCPProcessClient * W :=
  match _request (u "initialize") initialize_params c w with
  | (Err e, c, w) => (Err e, c, w)
  | (Ok _, c, w) => _send_notification (u "notifications/initialized") [] c w
  end.

Definition close (c : MCPProcessClient) (w : W) : MCPProcessClient * W :=
  match process c with
  | None => (c, w)
  | Some _ => (mkProcessClient None (_request_id c), terminate server w)
  end.

Definition start (command : list pystr) (environment : list (pystr * pystr)) (c : MCPProcessClient) (w : W)
  : result mcp_error unit * MCPProcessClient * W :=
  match process c with
  | Some _ => (Ok tt, c, w)
  | None =>
      match spawn server command environment w with
      | (None, w) => (Err (MCPClientError (u "failed to start MCP server process")), c, w)
      | (Some false, w) =>
          let '(c, w) := close (mkProcessClient (Some []) (_request_id c)) w in
          (Err (MCPClientError (u "MCP server process pipes are unavailable")), c, w)
      | (Some true, w) =>
          match _initialize (mkProcessClient (Some []) (_request_id c)) w with
          | (Ok _, c, w) => (Ok tt, c, w)
          | (Err e, c, w) => let '(c, w) := close c w in (Err e, c, w)
          end
      end
  end.

(** One entry of [tools/list] *)
Definition tool_definition (raw_tool : json) : result mcp_error MCPToolDefinition :=
  match raw_tool with
  | JObj tool =>
      let name := default JNull (dict_get (u "name") tool) in
      match name, default name (dict_get (u "description") tool) with
      | JStr name, JStr description =>
          match default (of_type "object") (dict_get (u "inputSchema") tool) with
          | JObj input_schema =>
              let '(risk, known) := _parse_risk_metadata (default JNull (dict_get (u "annotations") tool)) in
              MCPToolDefinition_make name description input_schema risk known
          | _ => Err (MCPClientError (u "MCP tool inputSchema must be an object"))
          end
      | _, _ => Err (MCPClientError (u "MCP tool metadata is invalid"))
      end
  | _ => Err (MCPClientError (u "MCP tool definition must be an object"))
  end.

Definition tool_definitions (result : json) : Prelude.result mcp_error (list MCPToolDefinition) :=
  match result with
  | JObj d =>
      match default (JArr []) (dict_get (u "tools") d) with
      | JArr raw_tools => foldE (fun acc raw => (fun t => acc ++ [t]) <$> tool_definition raw) [] raw_tools
      | _ => Err (MCPClientError (u "MCP tools/list tools must be a list"))
      end
  | _ => Err (MCPClientError (u "MCP tools/list result must be an object"))
  end.

Definition list_tools (c : MCPProcessClient) (w : W)
  : result mcp_error (list MCPToolDefinition) * MCPProcessClient * W :=
  let '(r, c, w) := _request (u "tools/list") [] c w in (result ← r; tool_definitions result, c, w).

Definition call_tool (name : pystr) (arguments : dict) (c : MCPProcessClient) (w : W)
  : result mcp_error MCPToolCallResult * MCPProcessClient * W :=
  let '(r, c, w) := _request (u "tools/call") [(u "name", JStr name); (u "arguments", JObj arguments)] c w in
  (match r with
   | Err e => Err e
   | Ok payload => match from_payload payload with Err (ValueError m) => Err (MCPClientError m) | x => x end
   end, c, w).
End Ops.
End Client.
Arguments mkServer {W}. Arguments spawn {W}. Arguments deliver {W}. Arguments terminate {W}.
End Client.

(** ** [protocols.py]: what the manager and the adapters need of a client, an object
    of type [C] whose state is part of the world.  [op_close] also tells how the
    waiting in [_close_client_safely] went. *)

(** A cancellation of the waiting task, or the end of [client.close()]: [true] when
    the closing task itself was cancelled *)
Inductive wakeup := Cancellation | Closed (cancelled : bool).

Record MCPClient (W C : Type) := mkMcpClient {
  op_create : MCPServerConfig -> W -> C * W;
  op_start : C -> W -> result mcp_error unit * W;
  op_list_tools : C -> W -> result mcp_error (list MCPToolDefinition) * W;
  op_call_tool : C -> pystr -> dict -> float64 -> W -> result mcp_error MCPToolCallResult * W;
  op_close : C -> W -> list wakeup * W
}.
Arguments op_create {W C}. Arguments op_start {W C}. Arguments op_list_tools {W C}.
Arguments op_call_tool {W C}. Arguments op_close {W C}. Arguments mkMcpClient {W C}.

(** ** [adapter.py] *)

Section Adapter.
Context {W C : Type} (ops : MCPClient W C).

Definition server_permission (server_name : pystr) : pystr := u "mcp:server:" ++ server_name.

Definition adapter_name (server_name tool : pystr) : pystr := u "mcp__" ++ server_name ++ u "__" ++ tool.

Definition adapter_output (r : MCPToolCallResult) : dict :=
  [(u "ok", JBool (negb (cr_is_error r))); (u "content", JArr (cr_content r));
   (u "error", if cr_is_error r then JStr (u "MCP tool reported an error") else JNull)].

(** [MCPToolAdapter.execute], as the tool executor sees it *)
Definition adapter_execute (client : C) (definition : MCPToolDefinition) (arguments : dict) (context : ToolContext)
    (timeout : float64) (w : W) : tool_outcome * W :=
  match op_call_tool ops client (mt_name definition) arguments timeout w with
  | (Ok r, w) => (ToolReturned (JObj (adapter_output r)), w)
  | (Err TimeoutError, w) => (ToolTimeoutError, w)
  | (Err CancelledError, w) => (ToolCancelledError, w)
  | (Err _, w) => (ToolException, w)
  end.

Definition risk_value (r : RiskLevel.t) : pystr :=
  match r with RiskLevel.LOW => u "low" | RiskLevel.MEDIUM => u "medium" | RiskLevel.HIGH => u "high" end.

(** [MCPToolAdapter.__init__] *)
Definition MCPToolAdapter_make (server_name : pystr) (client : C) (definition : MCPToolDefinition)
  : result mcp_error (Tool W) :=
  _ ← raise_if (bool_decide (strip server_name = [])) (ValueError (u "server_name must not be empty"));
  Ok (mkTool (adapter_name server_name (mt_name definition))
        (u "[" ++ server_name ++ u "] " ++ mt_description definition)
        (mt_input_schema definition) (Some (mt_output_schema definition))
        (Some (risk_value (mt_risk_level definition))) [server_permission server_name]
        (adapter_execute client definition)).
End Adapter.

(** ** [manager.py] *)

Section Manager.
Context {W C : Type} (ops : MCPClient W C).

Record MCPToolManager := mkManager {
  mg_configs : list MCPServerConfig;
  mg_clients : list (pystr * C);
  mg_discovered_tools : list (Tool W);
  mg_discovered : bool;
  mg_server_statuses : list (pystr * MCPServerStatus)
}.

(** [{config.name: MCPServerStatus(...) for config in self._configs}] *)
Definition initial_statuses (state : MCPServerState.t) (configs : list MCPServerConfig) : list (pystr * MCPServerStatus) :=
  foldl (fun d c => dict_set (mc_name c) (mkServerStatus (mc_name c) state 0 None) d) [] configs.

Definition MCPToolManager_init (configs : list MCPServerConfig) : MCPToolManager :=
  mkManager configs [] [] false (initial_statuses MCPServerState.NOT_STARTED configs).

Definition with_status (name : pystr) (state : MCPServerState.t) (count : Z) (code : option pystr) (m : MCPToolManager) :=
  mkManager (mg_configs m) (mg_clients m) (mg_discovered_tools m) (mg_discovered m)
    (dict_set name (mkServerStatus name state count code) (mg_server_statuses m)).
Definition with_clients (clients : list (pystr * C)) (m : MCPToolManager) :=
  mkManager (mg_configs m) clients (mg_discovered_tools m) (mg_discovered m) (mg_server_statuses m).

(** The loop of [_close_client_safely]: whether a cancellation was requested *)
Fixpoint await_close (requested : bool) (events : list wakeup) : bool :=
  match events with
  | [] | Closed _ :: _ => requested
  | Cancellation :: rest => await_close true rest
  end.

Definition _close_client_safely (client : C) (w : W) : bool * W :=
  let '(events, w) := op_close ops client w in (await_close false events, w).

(** [definition.name in config.allowed_tools] where there is a list, and the risk *)
Definition admitted (config : MCPServerConfig) (d : MCPToolDefinition) : bool :=
  mt_risk_metadata_known d &&
  (bool_decide (mc_allowed_tools config = []) || bool_decide (mt_name d ∈ mc_allowed_tools config)) &&
  (_RISK_RANK (mt_risk_level d) <=? _RISK_RANK (mc_max_risk_level config)).

(** The tools of one server, from the [definitions] it answered with *)
Definition server_tools (config : MCPServerConfig) (client : C) (definitions : list MCPToolDefinition)
  : result mcp_error (list (Tool W)) :=
  snd <$> foldE (fun '(seen_names, tools) d =>
    if bool_decide (mt_name d ∈ seen_names)
    then Err (ValueError (u "MCP server returned duplicate tool: " ++ mt_name d))
    else if admitted config d then
      tool ← MCPToolAdapter_make ops (mc_name config) client d;
      Ok (seen_names ++ [mt_name d], tools ++ [tool])
    else Ok (seen_names ++ [mt_name d], tools)) ([], []) definitions.

(** The [try] block: starting a server and reading its tools; the manager has the
    client from its start on *)
Definition connect (config : MCPServerConfig) (client : C) (m : MCPToolManager) (w : W)
  : result mcp_error (list (Tool W)) * MCPToolManager * W :=
  match op_start ops client w with
  | (Err e, w) => (Err e, m, w)
  | (Ok _, w) =>
      let m := with_clients (dict_set (mc_name config) client (mg_clients m)) m in
      match op_list_tools ops client w with
      | (Err e, w) => (Err e, m, w)
      | (Ok definitions, w) =>
          match server_tools config client definitions with
          | Err e => (Err e, m, w)
          | Ok tools =>
              (Ok tools, with_status (mc_name config) MCPServerState.READY (Z.of_nat (length tools)) None m, w)
          end
      end
  end.

(** One server of the loop, handlers included: its tools ([[]] when it failed) *)
Definition discover_server (config : MCPServerConfig) (m : MCPToolManager) (w : W)
  : result mcp_error (list (Tool W)) * MCPToolManager * W :=
  let name := mc_name config in
  if dict_has name (mg_clients m) then (Err (ValueError (u "MCP server already started: " ++ name)), m, w)
  else
    let m := with_status name MCPServerState.STARTING 0 None m in
    let '(client, w) := op_create ops config w in
    match connect config client m w with
    | (Ok tools, m, w) => (Ok tools, m, w)
    | (Err CancelledError, m, w) =>
        let m := with_clients (dict_del name (mg_clients m)) m in
        let m := with_status name MCPServerState.CLOSED 0 (Some (u "discovery_cancelled")) m in
        let '(_, w) := _close_client_safely client w in
        (Err CancelledError, m, w)
    | (Err _, m, w) =>
        let m := with_clients (dict_del name (mg_clients m)) m in
        let m := with_status name MCPServerState.FAILED 0 (Some (u "discovery_failed")) m in
        let '(cleanup_cancelled, w) := _close_client_safely client w in
        (if cleanup_cancelled then Err CancelledError else Ok [], m, w)
    end.

Fixpoint discover_servers (configs : list MCPServerConfig) (tools : list (Tool W)) (m : MCPToolManager) (w : W)
  : result mcp_error (list (Tool W)) * MCPToolManager * W :=
  match configs with
  | [] => (Ok tools, m, w)
  | config :: configs =>
      match discover_server config m w with
      | (Err e, m, w) => (Err e, m, w)
      | (Ok found, m, w) => discover_servers configs (tools ++ found) m w
      end
  end.

Definition discover_tools (m : MCPToolManager) (w : W) : result mcp_error (list (Tool W)) * MCPToolManager * W :=
  if mg_discovered m then (Ok (mg_discovered_tools m), m, w)
  else
    match discover_servers (mg_configs m) [] m w with
    | (Err e, m, w) => (Err e, m, w)
    | (Ok tools, m, w) =>
        (Ok tools, mkManager (mg_configs m) (mg_clients m) tools true (mg_server_statuses m), w)
    end.

Definition granted_permissions (m : MCPToolManager) : list pystr := server_permission <$> (mg_clients m).*1.

Definition server_statuses (m : MCPToolManager) : list MCPServerStatus := (mg_server_statuses m).*2.

Definition count_state (s : MCPServerState.t) (statuses : list MCPServerStatus) : nat :=
  length (filter (fun x => ss_state x = s) statuses).

Definition readiness_status (m : MCPToolManager) : MCPReadiness :=
  let statuses := server_statuses m in
  if bool_decide (statuses = []) then mkReadiness MCPReadinessState.DISABLED []
  else if forallb (fun x => bool_decide (ss_state x = MCPServerState.CLOSED)) statuses
  then mkReadiness MCPReadinessState.CLOSED statuses
  else if negb (mg_discovered m) then mkReadiness MCPReadinessState.STARTING statuses
  else
    let ready_count := count_state MCPServerState.READY statuses in
    let failed_count := count_state MCPServerState.FAILED statuses in
    if negb (ready_count =? 0)%nat && negb (failed_count =? 0)%nat then mkReadiness MCPReadinessState.DEGRADED statuses
    else if (ready_count =? length statuses)%nat then mkReadiness MCPReadinessState.READY statuses
    else mkReadiness MCPReadinessState.NOT_READY statuses.

Fixpoint close_all (clients : list (pystr * C)) (requested : bool) (w : W) : bool * W :=
  match clients with
  | [] => (requested, w)
  | (_, client) :: rest =>
      let '(r, w) := _close_client_safely client w in close_all rest (r || requested) w
  end.

(** [close] *)
Definition manager_close (m : MCPToolManager) (w : W) : result mcp_error unit * MCPToolManager * W :=
  let '(cancellation_requested, w) := close_all (mg_clients m) false w in
  (if cancellation_requested then Err CancelledError else Ok tt,
   mkManager (mg_configs m) [] [] false (initial_statuses MCPServerState.CLOSED (mg_configs m)), w).
End Manager.
Arguments MCPToolManager : clear implicits.

(** ** The default client factory: a client is its number in the world and the
    configuration that [_default_client_factory] made it from *)

Section ProcessClients.
Context {W : Type} (str_of : json -> pystr) (servers : MCPServerConfig -> Client.server_process W)
  (closing : W -> list wakeup * W).

Definition handle : Type := nat * MCPServerConfig.
Definition process_world : Type := list Client.MCPProcessClient * W.
Definition fresh_client : Client.MCPProcessClient := Client.mkProcessClient None 0.

(** A method of the client [h] *)
Definition on_client {A} (f : Client.server_process W -> Client.MCPProcessClient -> W -> A * Client.MCPProcessClient * W)
    (h : handle) (w : process_world) : A * process_world :=
  let '(r, c, outside) := f (servers h.2) (default fresh_client (w.1 !! h.1)) w.2 in
  (r, (<[h.1 := c]> w.1, outside)).

Definition MCPProcessClients : MCPClient process_world handle := {|
  op_create config w := ((length w.1, config), (w.1 ++ [fresh_client], w.2));
  op_start h := on_client (fun s => Client.start str_of s (mc_command h.2) (mc_environment h.2)) h;
  op_list_tools h := on_client (Client.list_tools str_of) h;
  op_call_tool h name arguments _ := on_client (fun s => Client.call_tool str_of s name arguments) h;
  op_close h w :=
    let '(_, w) := on_client (fun s c o => let '(c, o) := Client.close s c o in (tt, c, o)) h w in
    let '(events, outside) := closing w.2 in (events, (w.1, outside))
|}.
End ProcessClients.

(** ** [Settings.get_mcp_server_configs] *)

Module Settings.
Definition at_index (index : nat) (rest : string) : pystr := u "MCP server at index " ++ str_of_Z (Z.of_nat index) ++ u rest.
Definition at_key (index : nat) (key : pystr) (rest : string) : pystr :=
  u "MCP server at index " ++ str_of_Z (Z.of_nat index) ++ u " " ++ key ++ u rest.

Definition blank (s : pystr) : bool := bool_decide (strip s = []).

Definition _required_string (raw : dict) (key : pystr) (index : nat) : result mcp_error pystr :=
  match dict_get key raw with
  | Some (JStr s) => if blank s then Err (ValueError (at_key index key " must be a non-empty string")) else Ok s
  | _ => Err (ValueError (at_key index key " must be a non-empty string"))
  end.

Definition _string_tuple (value : list json) (key : pystr) (index : nat) : result mcp_error (list pystr) :=
  foldE (fun acc v => match v with
    | JStr s => if blank s then Err (ValueError (at_key index key " must contain strings")) else Ok (acc ++ [s])
    | _ => Err (ValueError (at_key index key " must contain strings"))
    end) [] value.

Definition _required_string_tuple (raw : dict) (key : pystr) (index : nat) : result mcp_error (list pystr) :=
  match dict_get key raw with
  | Some (JArr ((_ :: _) as value)) =>
      result ← _string_tuple value key index;
      if bool_decide (result = []) then Err (ValueError (at_key index key " must not be empty")) else Ok result
  | _ => Err (ValueError (at_key index key " must be a non-empty array"))
  end.

Definition _optional_string_tuple (raw : dict) (key : pystr) (index : nat) : result mcp_error (list pystr) :=
  match default (JArr []) (dict_get key raw) with
  | JArr value => _string_tuple value key index
  | _ => Err (ValueError (at_key index key " must be an array"))
  end.

Definition _optional_string_mapping (raw : dict) (key : pystr) (index : nat)
  : result mcp_error (list (pystr * pystr)) :=
  match default (JObj []) (dict_get key raw) with
  | JObj value =>
      foldE (fun acc '(name, v) => match v with
        | JStr s => if blank name then Err (ValueError (at_key index key " must map non-empty names to strings")) else Ok (acc ++ [(name, s)])
        | _ => Err (ValueError (at_key index key " must map non-empty names to strings"))
        end) [] value
  | _ => Err (ValueError (at_key index key " must be an object"))
  end.

Definition _positive_float (value : json) (key : pystr) (index : nat) : result mcp_error float64 :=
  let refused := ValueError (at_key index key " must be positive") in
  match value with
  | JInt (Zpos p) =>
      match round_ratio false p 1 with S754_infinity _ => Err OverflowError | x => Ok x end
  | JFloat x => if not_positive x then Err refused else Ok x
  | _ => Err refused
  end.

Definition ten : json := JFloat (round_ratio false 10 1).

Definition _parse_mcp_server_config (index : nat) (raw : dict) : result mcp_error MCPServerConfig :=
  name ← _required_string raw (u "name") index;
  command ← _required_string_tuple raw (u "command") index;
  allowed_tools ← _optional_string_tuple raw (u "allowed_tools") index;
  environment ← _optional_string_mapping raw (u "environment") index;
  match default (JStr (u "low")) (dict_get (u "max_risk_level") raw) with
  | JStr raw_risk_level =>
      match RiskLevel.of_str raw_risk_level with
      | None => Err (ValueError (at_index index " max_risk_level is invalid"))
      | Some risk_level =>
          startup ← _positive_float (default ten (dict_get (u "startup_timeout_seconds") raw)) (u "startup_timeout_seconds") index;
          request ← _positive_float (default ten (dict_get (u "request_timeout_seconds") raw)) (u "request_timeout_seconds") index;
          MCPServerConfig_make name command allowed_tools risk_level startup request environment
      end
  | _ => Err (ValueError (at_index index " max_risk_level must be a string"))
  end.

(** The loop over the decoded array; [index] is the position of the next entry *)
Fixpoint parse_servers (index : nat) (configs : list MCPServerConfig) (decoded : list json)
  : result mcp_error (list MCPServerConfig) :=
  match decoded with
  | [] => Ok configs
  | JObj raw :: rest =>
      config ← _parse_mcp_server_config index raw;
      if bool_decide (mc_name config ∈ mc_name <$> configs)
      then Err (ValueError (u "duplicate MCP server name: " ++ mc_name config))
      else parse_servers (S index) (configs ++ [config]) rest
  | _ => Err (ValueError (at_index index " must be an object"))
  end.

Definition get_mcp_server_configs (mcp_enabled : bool) (mcp_servers_json : pystr)
  : result mcp_error (list MCPServerConfig) :=
  if negb mcp_enabled || blank mcp_servers_json then Ok []
  else
    match loads mcp_servers_json with
    | None => Err (ValueError (u "mcp_servers_json must be valid JSON"))
    | Some (JArr decoded) => parse_servers 0 [] decoded
    | Some _ => Err (ValueError (u "mcp_servers_json must be a JSON array"))
    end.
End Settings.

(** [provide_mcp_manager] *)
Definition provide_mcp_manager {W C} (mcp_enabled : bool) (mcp_servers_json : pystr) : result mcp_error (MCPToolManager W C) :=
  (fun configs => MCPToolManager_init configs) <$> Settings.get_mcp_server_configs mcp_enabled mcp_servers_json.

(** The tools and the permissions of [provide_agent_service] and the tools of
    [provide_tool_registry]: the local tools, then those of the servers *)
Definition registry_tools {W C} (local_tools : list (Tool W)) (m : MCPToolManager W C) : result ToolRegistryError (list (pystr * Tool W)) :=
  ToolRegistry_init (local_tools ++ mg_discovered_tools m).
