(* ===== verification/McpProps.v ===== *)
(** * Properties of the MCP client

    A request is answered by the message that carries its number, only the tools
    that a configuration admits are exposed, no started server is forgotten, and
    what a tool returns always has the shape that is announced. *)

From Corelib Require Import SpecFloat.
From S2P Require Import Prelude Json JsonLoads ToolModels ToolExecutor ToolExecutorProps Mcp.
Local Open Scope Z_scope.
#[local] Opaque u.

(** ** Requests and their answers *)

(** The line is a message of the server with the number [n]. *)
Definition carries (n : Z) (text : pystr) : Prop :=
  exists message, loads text = Some (JObj message) /\ py_eq (default JNull (dict_get (u "id") message)) (JInt n) = true.

(** No line among [pending] answers a request after the [n]-th. *)
Definition answered_up_to (n : Z) (pending : list received) : Prop :=
  forall text i, Line text ∈ pending -> carries i text -> i <= n.

Section Client.
Context (str_of : json -> pystr) {W : Type} (server : Client.server_process W).

(** What the answer [text] to the [n]-th request gives *)
Definition answer_of (n : Z) (text : pystr) (v : json) : Prop :=
  exists message, loads text = Some (JObj message) /\ py_eq (default JNull (dict_get (u "id") message)) (JInt n) = true /\
    (forall e, dict_get (u "error") message <> Some (JObj e)) /\ v = default JNull (dict_get (u "result") message).

Lemma read_message_ok n text v : Client.read_message str_of n text = Some (Ok v) -> answer_of n text v.
Proof.
  unfold Client.read_message, answer_of. destruct (loads text) as [[| | | | | |message]|]; try done.
  destruct (py_eq _ _) eqn:E; [|done]. cbn [negb]. intros H. exists message.
  destruct (dict_get (u "error") message) as [[]|]; try done; injection H as <-; split_and!; done.
Qed.

(** A line that the loop passes over does not carry the number. *)
Lemma read_message_none n text : Client.read_message str_of n text = None -> ~ carries n text.
Proof.
  unfold Client.read_message. intros H (message & Hl & Hid). rewrite Hl, Hid in H. cbn [negb] in H.
  by destruct (dict_get (u "error") message) as [[]|].
Qed.

Lemma read_reply_spec n pending :
  exists before after, pending = before ++ after /\ Forall (fun x => exists t, x = Line t /\ ~ carries n t) before /\
    match Client.read_reply str_of n pending with
    | (Ok v, rest) => exists text, after = Line text :: rest /\ answer_of n text v
    | (Err _, rest) => rest = after \/ exists x, after = x :: rest
    end.
Proof.
  induction pending as [|x pending IH]; [exists [], []; split_and!; [done|constructor|by left]|].
  destruct x as [text| | | |]; cbn [Client.read_reply].
  2-5: eexists [], _; split_and!; [reflexivity|constructor|eauto].
  destruct (Client.read_message str_of n text) as [[v|e]|] eqn:E.
  - exists [], (Line text :: pending). split_and!; [done|constructor|]. exists text. split; [done|by apply read_message_ok].
  - exists [], (Line text :: pending). split_and!; [done|constructor|eauto].
  - destruct IH as (before & after & -> & Hb & H). exists (Line text :: before), after. split_and!; [done| |exact H].
    constructor; [|done]. exists text. split; [done|by eapply read_message_none].
Qed.

Lemma carries_answer n text v : answer_of n text v -> carries n text.
Proof. intros (m & Hl & Hid & _). by exists m. Qed.

(** C26. For a server that answers only what it has been asked: the answers that
    are left in the pipe when a request times out are never taken for the answer
    to a later one.  A request that succeeds gives the result of a message that
    the server wrote after it was sent, with its own number and without an error;
    and after any outcome the pipe again holds no answer to a request to come. *)
Theorem request_reads_own_answer method params c pending w r c' w' :
  Client.process c = Some pending -> answered_up_to (Client._request_id c) pending ->
  (forall written w1, Client.deliver server (Client.request_line (Client._request_id c + 1) method params) w = (Some written, w1) ->
     answered_up_to (Client._request_id c + 1) written) ->
  Client._request str_of server method params c w = (r, c', w') ->
  Client._request_id c' = Client._request_id c + 1 /\
  (exists rest, Client.process c' = Some rest /\ answered_up_to (Client._request_id c') rest) /\
  (forall v, r = Ok v -> exists written before text rest,
     Client.deliver server (Client.request_line (Client._request_id c + 1) method params) w = (Some written, w') /\
     written = before ++ Line text :: rest /\ Client.process c' = Some rest /\ answer_of (Client._request_id c') text v).
Proof.
  intros Hc Hold Hnew. unfold Client._request. rewrite Hc.
  destruct (Client.deliver server _ w) as [[written|] w1] eqn:Ed.
  2: { intros [= <- <- <-]. cbn [Client.process Client._request_id]. split_and!; [done| |done].
       eexists; split; [done|]. intros t i Ht Hi. specialize (Hold t i Ht Hi). lia. }
  specialize (Hnew written w1 eq_refl). set (n := Client._request_id c + 1) in *.
  pose proof (read_reply_spec n (pending ++ written)) as (before & after & Heq & Hb & H).
  assert (Hall : answered_up_to n (pending ++ written)).
  { intros t i [Ht|Ht]%elem_of_app Hi; [|eauto]. specialize (Hold t i Ht Hi). lia. }
  destruct (Client.read_reply str_of n (pending ++ written)) as [r0 rest]. intros [= <- <- <-]. cbn [Client.process Client._request_id].
  split_and!; [done| |].
  - exists rest. split; [done|]. intros t i Ht. apply Hall. rewrite Heq. apply elem_of_app. right.
    destruct r0 as [v|e]; [destruct H as (text & -> & _)|destruct H as [<-|(x & ->)]]; [by right|done|by right].
  - intros v ->. destruct H as (text & -> & Ha).
    assert (Hlen : (length pending <= length before)%nat).
    { destruct (decide (length pending <= length before)%nat) as [|Hlt]; [done|]. exfalso.
      assert (Hin : Line text ∈ pending).
      { apply list_elem_of_lookup. exists (length before).
        rewrite <- (lookup_app_l pending written) by lia. rewrite Heq. by rewrite list_lookup_middle. }
      specialize (Hold text n Hin (carries_answer _ _ _ Ha)). lia. }
    exists written, (drop (length pending) before), text, rest. split_and!; [done| |done|done].
    rewrite <- (drop_app_length pending written) at 1. rewrite Heq. by rewrite drop_app_le.
Qed.
End Client.

(** A server whose late answer to the first request is still in the pipe when it
    answers the second *)
Definition reply (n : Z) (text : string) : pystr :=
  dump_json_plain (JObj [(u "jsonrpc", JStr (u "2.0")); (u "id", JInt n); (u "result", JStr (u text))]).
Definition demo_server : Client.server_process nat :=
  Client.mkServer (fun _ _ w => (Some true, w)) (fun _ w => (Some [Line (u "[]"); Line (reply 2 "new")], S w)) (fun w => w).
Definition late_client : Client.MCPProcessClient := Client.mkProcessClient (Some [Line (reply 1 "old")]) 1.

Lemma num_eq_int a b : py_eq (JInt a) (JInt b) = true -> a = b.
Proof. cbn [py_eq is_number andb]. unfold num_eq. cbn [num_frac]. intros H. apply Z.eqb_eq in H. lia. Qed.

Lemma carries_reply n text i : loads (reply n text) = Some (JObj [(u "jsonrpc", JStr (u "2.0")); (u "id", JInt n); (u "result", JStr (u text))]) ->
  carries i (reply n text) -> i = n.
Proof.
  intros Hl (m & Hm & Hid). rewrite Hl in Hm. injection Hm as <-.
  change (default JNull _) with (JInt n) in Hid. symmetry. by apply num_eq_int.
Qed.

Lemma request_reads_own_answer_witness :
  exists v, (Client._request (fun _ => []) demo_server (u "tools/list") [] late_client 0%nat).1.1 = Ok v /\
    v = JStr (u "new") /\ answer_of 2 (reply 2 "new") v.
Proof.
  destruct (Client._request (fun _ => []) demo_server (u "tools/list") [] late_client 0%nat) as [[r c'] w'] eqn:E.
  destruct (request_reads_own_answer (fun _ => []) demo_server (u "tools/list") [] late_client _ 0%nat r c' w' eq_refl) as (Hid & _ & H); [| |exact E|].
  - intros t i [= ->]%list_elem_of_singleton Hi. apply carries_reply in Hi; [cbn; lia|vm_compute; reflexivity].
  - intros written w1 [= <- <-] t i Ht Hi. apply elem_of_cons in Ht as [[= ->]|[= ->]%list_elem_of_singleton].
    + destruct Hi as (m & Hm & _). vm_compute in Hm. discriminate.
    + apply carries_reply in Hi; [cbn; lia|vm_compute; reflexivity].
  - assert (Hr : r = Ok (JStr (u "new"))) by (etransitivity; [symmetry; exact (f_equal (fun x => x.1.1) E)|vm_compute; reflexivity]).
    exists (JStr (u "new")). subst r. split_and!; [done|done|].
    destruct (H _ eq_refl) as (written & before & text & rest & [= <- _] & Hw & _ & Ha).
    cbn [Client._request_id late_client] in Hid. rewrite Hid in Ha.
    destruct before as [|x [|y before]]; cbn [app] in Hw.
    + injection Hw as <- <-. exfalso. destruct Ha as (m & Hm & _). vm_compute in Hm. discriminate.
    + injection Hw as <- <- <-. exact Ha.
    + destruct before; discriminate.
Defined.

(** ** Tools *)

(** Risk metadata are only known when the server states them. *)
Lemma parse_risk_metadata_spec annotations risk known :
  Client._parse_risk_metadata annotations = (risk, known) -> known = true ->
  exists d, annotations = JObj d /\
    ((risk = RiskLevel.HIGH /\ dict_get (u "destructiveHint") d = Some (JBool true)) \/
     (risk = RiskLevel.LOW /\ dict_get (u "destructiveHint") d = Some (JBool false) /\
      dict_get (u "readOnlyHint") d = Some (JBool true))).
Proof.
  unfold Client._parse_risk_metadata. destruct annotations as [| | | | | |d]; try (intros [= <- <-] [=]).
  intros H Hk. exists d. split; [done|]. subst known.
  destruct (dict_get (u "destructiveHint") d) as [[|[]| | | | |]|], (dict_get (u "readOnlyHint") d) as [[|[]| | | | |]|];
    simplify_eq; auto.
Qed.

(** Whatever a server answers, the output of an adapter satisfies the output
    schema of its tool. *)
Lemma adapter_output_valid r : _validate_schema (JObj (adapter_output r)) default_output_schema = true.
Proof. destruct r as [content []]; vm_compute; reflexivity. Qed.

Lemma server_permission_inj s t : server_permission s = server_permission t -> s = t.
Proof. unfold server_permission. apply app_inv_head. Qed.
Lemma single_permission_inj s t : [server_permission s] = [server_permission t] -> s = t.
Proof. intros H. apply server_permission_inj. apply (f_equal (default [] ∘ head)) in H. exact H. Qed.

Section Manager.
Context {W C : Type} (ops : MCPClient W C).
Implicit Types (m : MCPToolManager W C) (config : MCPServerConfig) (client : C).

(** The tool [t] is one that the server of [config] listed when it was asked, and
    that the configuration admits. *)
Definition tool_of config client (t : Tool W) : Prop :=
  exists d definitions w, (op_list_tools ops client w).1 = Ok definitions /\ d ∈ definitions /\
    admitted config d = true /\ MCPToolAdapter_make ops (mc_name config) client d = Ok t.

Lemma tool_of_facts config client t : tool_of config client t ->
  exists d, tool_name t = adapter_name (mc_name config) (mt_name d) /\
    tool_required_permissions t = [server_permission (mc_name config)] /\
    tool_execute t = adapter_execute ops client d /\
    tool_risk_level t = Some (risk_value (mt_risk_level d)) /\
    mt_risk_metadata_known d = true /\ _RISK_RANK (mt_risk_level d) <= _RISK_RANK (mc_max_risk_level config) /\
    (mc_allowed_tools config = [] \/ mt_name d ∈ mc_allowed_tools config).
Proof.
  intros (d & ds & w & _ & _ & Ha & Ht). exists d. unfold MCPToolAdapter_make, raise_if in Ht.
  destruct (bool_decide _); [done|]. injection Ht as <-. unfold admitted in Ha. bools. cbn [tool_name tool_required_permissions
    tool_execute tool_risk_level]. split_and!; try done.
  match goal with H : _ \/ _ |- _ => destruct H as [H|H]; apply bool_decide_eq_true in H; auto end.
Qed.

Lemma server_tools_spec config client definitions tools w :
  (op_list_tools ops client w).1 = Ok definitions -> server_tools ops config client definitions = Ok tools ->
  NoDup (mt_name <$> definitions) /\ Forall (tool_of config client) tools.
Proof.
  intros Hl. unfold server_tools.
  assert (H : forall ds seen acc s', foldE (fun '(seen_names, tools) d =>
    if bool_decide (mt_name d ∈ seen_names) then Err (ValueError (u "MCP server returned duplicate tool: " ++ mt_name d))
    else if admitted config d then tool ← MCPToolAdapter_make ops (mc_name config) client d;
      Ok (seen_names ++ [mt_name d], tools ++ [tool]) else Ok (seen_names ++ [mt_name d], tools)) (seen, acc) ds = Ok s' ->
    (forall d, d ∈ ds -> d ∈ definitions) -> NoDup seen -> Forall (tool_of config client) acc ->
    s'.1 = seen ++ (mt_name <$> ds) /\ NoDup s'.1 /\ Forall (tool_of config client) s'.2).
  { induction ds as [|d ds IH]; intros seen acc s' H Hin Hn Hf.
    - injection H as <-. by rewrite app_nil_r.
    - cbn [foldE] in H. case_bool_decide as Hs; [done|].
      assert (Hn' : NoDup (seen ++ [mt_name d])) by (apply NoDup_app; split_and!; [done|set_solver|apply NoDup_singleton]).
      destruct (admitted config d) eqn:Ea.
      + destruct (MCPToolAdapter_make ops (mc_name config) client d) as [t|] eqn:Et; [|done]. cbn [mbind result_bind] in H.
        apply IH in H as (-> & ? & ?); [|set_solver|done|].
        * split_and!; try done. cbn [fmap list_fmap]. by rewrite <- app_assoc.
        * apply Forall_app; split; [done|]. apply Forall_singleton. exists d, definitions, w. split_and!; [done|set_solver|done|done].
      + apply IH in H as (-> & ? & ?); [|set_solver|done|done]. split_and!; try done. cbn [fmap list_fmap]. by rewrite <- app_assoc. }
  destruct (foldE _ _ _) as [s|] eqn:E; [|done]. intros [= <-].
  destruct (H definitions [] [] s E) as (Hs & Hn & Hf); [done|constructor|constructor|].
  rewrite Hs in Hn. done.
Qed.

(** ** Discovery *)

Definition permission_of config : pystr := server_permission (mc_name config).
Definition needs (p : pystr) (t : Tool W) : bool := bool_decide (tool_required_permissions t = [p]).

(** A tool that is exposed is a tool of a server that the manager holds. *)
Definition exposed (configs : list MCPServerConfig) m (t : Tool W) : Prop :=
  exists config client, config ∈ configs /\ dict_get (mc_name config) (mg_clients m) = Some client /\ tool_of config client t.

(** After discovery a server is ready and held, with the number of its tools, or
    it has failed, has none and is not held. *)
Definition settled (tools : list (Tool W)) m config : Prop :=
  exists s, dict_get (mc_name config) (mg_server_statuses m) = Some s /\ ss_name s = mc_name config /\
    ss_tool_count s = Z.of_nat (length (List.filter (needs (permission_of config)) tools)) /\
    ((ss_state s = MCPServerState.READY /\ ss_error_code s = None /\ mc_name config ∈ (mg_clients m).*1) \/
     (ss_state s = MCPServerState.FAILED /\ ss_error_code s = Some (u "discovery_failed") /\ ss_tool_count s = 0 /\
      mc_name config ∉ (mg_clients m).*1)).

Lemma dict_set_twice {V} k (x y : V) d : dict_set k x (dict_set k y d) = dict_set k x d.
Proof.
  induction d as [|[k' z] d IH]; cbn [dict_set]; [by rewrite decide_True|].
  destruct (decide (k = k')) eqn:E; cbn [dict_set]; rewrite E; by f_equal.
Qed.

Lemma dict_del_last {V} k (x : V) d : dict_get k d = None -> dict_del k (d ++ [(k, x)]) = d.
Proof.
  induction d as [|[k' z] d IH]; cbn [dict_get dict_del app]; [by rewrite decide_True|].
  destruct (decide (k = k')); [done|]. intros H. by rewrite IH.
Qed.
Lemma dict_del_fresh {V} k (d : list (pystr * V)) : dict_get k d = None -> dict_del k d = d.
Proof.
  induction d as [|[k' z] d IH]; cbn [dict_get dict_del]; [done|].
  destruct (decide (k = k')); [done|]. intros H. by rewrite IH.
Qed.

Lemma connect_spec config client m w r m' w' :
  connect ops config client m w = (r, m', w') -> dict_get (mc_name config) (mg_clients m) = None ->
  dict_del (mc_name config) (mg_clients m') = mg_clients m /\
  match r with
  | Ok tools => m' = with_status (mc_name config) MCPServerState.READY (Z.of_nat (length tools)) None
                       (with_clients (mg_clients m ++ [(mc_name config, client)]) m) /\
                Forall (tool_of config client) tools
  | Err _ => mg_configs m' = mg_configs m /\ mg_discovered_tools m' = mg_discovered_tools m /\
             mg_discovered m' = mg_discovered m /\ mg_server_statuses m' = mg_server_statuses m
  end.
Proof.
  intros H Hf. unfold connect in H. destruct (op_start ops client w) as [[[]|e] w1].
  2: { injection H as <- <- <-. split_and!; try done. by apply dict_del_fresh. }
  rewrite (dict_set_fresh _ _ _ Hf) in H. destruct (op_list_tools ops client w1) as [[ds|e] w2] eqn:El.
  2: { injection H as <- <- <-. cbn. split_and!; try done. by apply dict_del_last. }
  destruct (server_tools ops config client ds) as [tools|e] eqn:Et; injection H as <- <- <-; cbn [with_status with_clients mg_clients].
  - split; [by apply dict_del_last|]. split; [done|]. eapply server_tools_spec; [|exact Et]. by rewrite El.
  - split_and!; try done. by apply dict_del_last.
Qed.

Lemma discover_server_spec config m w r m' w' :
  discover_server ops config m w = (r, m', w') -> dict_get (mc_name config) (mg_clients m) = None ->
  mg_configs m' = mg_configs m /\ mg_discovered_tools m' = mg_discovered_tools m /\ mg_discovered m' = mg_discovered m /\
  exists s, mg_server_statuses m' = dict_set (mc_name config) s (mg_server_statuses m) /\ ss_name s = mc_name config /\
  match r with
  | Ok tools => ss_tool_count s = Z.of_nat (length tools) /\
      ((exists client, ss_state s = MCPServerState.READY /\ ss_error_code s = None /\
          mg_clients m' = mg_clients m ++ [(mc_name config, client)] /\ Forall (tool_of config client) tools) \/
       (ss_state s = MCPServerState.FAILED /\ ss_error_code s = Some (u "discovery_failed") /\ tools = [] /\
          mg_clients m' = mg_clients m))
  | Err e => e = CancelledError /\ mg_clients m' = mg_clients m
  end.
Proof.
  intros H Hf. unfold discover_server, dict_has in H. rewrite Hf in H.
  destruct (op_create ops config w) as [client w1].
  destruct (connect ops config client _ w1) as [[r1 m1] w2] eqn:Ec. apply connect_spec in Ec as [Hd Hr]; [|done].
  destruct r1 as [tools|e].
  - injection H as <- <- <-. destruct Hr as [-> Ht]. cbn. rewrite dict_set_twice. split_and!; try done.
    eexists. split; [done|]. split; [done|]. split; [done|]. left. exists client. done.
  - assert (He : exists code state, m' = with_status (mc_name config) state 0 (Some code)
        (with_clients (dict_del (mc_name config) (mg_clients m1)) m1) /\
      (r = Err CancelledError \/ (r = Ok [] /\ state = MCPServerState.FAILED /\ code = u "discovery_failed"))).
    { destruct e; destruct (_close_client_safely ops client w2) as [b w3]; injection H as <- <- <-;
        eexists _, _; (split; [reflexivity|]); try (by left); destruct b; auto. }
    destruct He as (code & state & -> & Hcase). cbn. destruct Hr as (-> & -> & -> & Hs). rewrite Hs. cbn in Hd |- *.
    rewrite dict_set_twice. split_and!; try done. eexists. split; [done|]. split; [done|].
    destruct Hcase as [->|(-> & -> & ->)]; [done|]. cbn. split; [done|]. right. done.
Qed.

Lemma dict_set_keys {V} k (x : V) d : k ∈ d.*1 -> (dict_set k x d).*1 = d.*1.
Proof.
  induction d as [|[k' z] d IH]; cbn [fmap list_fmap dict_set fst]; intros Hk; [set_solver|].
  destruct (base.decide (k = k')); cbn [fmap list_fmap fst]; [done|]. f_equal. apply IH. set_solver.
Qed.

Lemma count_permission p q tools :
  (forall t, t ∈ tools -> tool_required_permissions t = [server_permission q]) ->
  length (List.filter (needs (server_permission p)) tools) = if base.decide (p = q) then length tools else 0%nat.
Proof.
  induction tools as [|t tools IH]; intros H; [by case_match|]. cbn [List.filter length]. unfold needs at 1.
  rewrite (H t) by set_solver. specialize (IH (fun t Ht => H t (list_elem_of_further _ _ _ Ht))).
  destruct (base.decide (p = q)) as [->|Hne].
  - rewrite bool_decide_eq_true_2 by done. cbn [length]. by rewrite IH.
  - rewrite bool_decide_eq_false_2; [done|]. intros E. by apply single_permission_inj in E.
Qed.

Lemma exposed_permission configs m tools : Forall (exposed configs m) tools ->
  forall p, (forall c, c ∈ configs -> mc_name c <> p) -> length (List.filter (needs (server_permission p)) tools) = 0%nat.
Proof.
  intros Hf p Hp. induction Hf as [|t tools (c & client & Hc & _ & Ht) _ IH]; [done|]. cbn [List.filter]. unfold needs at 1.
  destruct (tool_of_facts _ _ _ Ht) as (d & _ & -> & _). rewrite bool_decide_eq_false_2; [done|].
  intros E. apply single_permission_inj in E. by apply (Hp c).
Qed.

(** The state of the loop of [discover_tools], after the servers [done]. *)
Definition discovering (all done : list MCPServerConfig) (tools : list (Tool W)) m : Prop :=
  mg_configs m = all /\ mg_discovered m = false /\ mg_discovered_tools m = [] /\
  (mg_server_statuses m).*1 = mc_name <$> all /\ Forall (settled tools m) done /\
  (forall k, k ∈ (mg_clients m).*1 -> k ∈ mc_name <$> done) /\ Forall (exposed done m) tools.

Lemma dict_get_snoc {V} k k' (x : V) d : dict_get k' d = None ->
  dict_get k (d ++ [(k', x)]) = if base.decide (k = k') then Some x else dict_get k d.
Proof. intros H. by rewrite <- (dict_set_fresh _ _ _ H), dict_get_set. Qed.

Lemma discover_step all done config tools m w found m' w' :
  discovering all done tools m -> NoDup (mc_name <$> done ++ [config]) -> config ∈ all ->
  discover_server ops config m w = (Ok found, m', w') -> discovering all (done ++ [config]) (tools ++ found) m'.
Proof.
  intros (Ha & Hd & Ht & Hk & Hs & Hc & He) Hn Hin H. rewrite fmap_app in Hn. apply NoDup_app in Hn as (_ & Hn & _).
  assert (Hne : forall c, c ∈ done -> mc_name c <> mc_name config).
  { intros c Hc' E. apply (Hn (mc_name c)); [by apply list_elem_of_fmap_2|rewrite E; by left]. }
  assert (Hf : dict_get (mc_name config) (mg_clients m) = None).
  { destruct (dict_get _ _) eqn:E; [|done]. exfalso.
    assert (Hm : mc_name config ∈ (mg_clients m).*1) by (apply dict_get_mem; eauto).
    apply (Hn (mc_name config)); [by apply Hc|by left]. }
  destruct (discover_server_spec _ _ _ _ _ _ H Hf) as (Ec & Et & Ed & s & Es & Hsn & Hcount & Hcase).
  assert (Hreq : forall t, t ∈ found -> tool_required_permissions t = [server_permission (mc_name config)]).
  { intros t Hin'. destruct Hcase as [(cl & _ & _ & _ & Hall)|(_ & _ & -> & _)]; [|set_solver].
    rewrite Forall_forall in Hall. by destruct (tool_of_facts _ _ _ (Hall t Hin')) as (? & _ & ? & _). }
  assert (Hclients : forall k, k <> mc_name config -> (k ∈ (mg_clients m').*1 <-> k ∈ (mg_clients m).*1) /\
            (forall x, dict_get k (mg_clients m) = Some x -> dict_get k (mg_clients m') = Some x)).
  { intros k Hk'. destruct Hcase as [(cl & _ & _ & -> & _)|(_ & _ & _ & ->)]; [|done].
    rewrite fmap_app, dict_get_snoc, decide_False by done. cbn. set_solver. }
  split_and!; [congruence|congruence|congruence| | | |].
  - rewrite Es, dict_set_keys, Hk; [done|]. rewrite Hk. by apply list_elem_of_fmap_2.
  - apply Forall_app; split; [|apply Forall_singleton].
    + rewrite Forall_forall in Hs |- *. intros c Hcd. destruct (Hs c Hcd) as (s0 & Hg & Hname & Hcnt & Hst).
      exists s0. rewrite Es, dict_get_set, decide_False by auto. destruct (Hclients (mc_name c)) as [Hiff _]; [auto|].
      split_and!; [done|done| |rewrite Hiff; done]. rewrite List.filter_app, length_app. unfold permission_of in *.
      rewrite (count_permission _ _ _ Hreq), decide_False by (by apply Hne). lia.
    + exists s. rewrite Es, dict_get_set, decide_True by done. split_and!; [done|done| |].
      * rewrite List.filter_app, length_app. unfold permission_of.
        rewrite (exposed_permission _ _ _ He) by done. rewrite (count_permission _ _ _ Hreq), decide_True by done. lia.
      * destruct Hcase as [(cl & -> & -> & -> & _)|(-> & -> & -> & ->)]; [left|right].
        -- split_and!; [done|done|]. rewrite fmap_app. apply elem_of_app. right. by left.
        -- split_and!; [done|done|done|]. intros Hm. apply dict_get_mem in Hm as [? Hm]. congruence.
  - intros k Hkin. rewrite fmap_app. apply elem_of_app. destruct (base.decide (k = mc_name config)) as [->|Hne']; [right; by left|].
    left. apply Hc. by apply Hclients.
  - apply Forall_app; split.
    + eapply Forall_impl; [exact He|]. intros t (c & cl & Hcd & Hg & Hto). exists c, cl. split_and!; [set_solver| |done].
      apply Hclients; [auto|done].
    + destruct Hcase as [(cl & _ & _ & Hcl & Hall)|(_ & _ & -> & _)]; [|constructor].
      eapply Forall_impl; [exact Hall|]. intros t Hto. exists config, cl. split_and!; [set_solver| |done].
      rewrite Hcl, dict_get_snoc by done. by rewrite decide_True.
Qed.

Lemma discover_servers_spec all rest : forall done tools m w r m' w',
  done ++ rest = all -> NoDup (mc_name <$> all) -> discovering all done tools m ->
  discover_servers ops rest tools m w = (r, m', w') ->
  match r with
  | Ok tools' => discovering all all tools' m'
  | Err e => e = CancelledError /\ mg_discovered m' = false /\ mg_discovered_tools m' = []
  end.
Proof.
  induction rest as [|config rest IH]; intros done tools m w r m' w' Hall Hn Hinv H; cbn [discover_servers] in H.
  - injection H as <- <- <-. rewrite app_nil_r in Hall. by subst.
  - destruct (discover_server ops config m w) as [[r1 m1] w1] eqn:E.
    assert (Hnc : NoDup (mc_name <$> done ++ [config])).
    { subst all. rewrite cons_middle, app_assoc, fmap_app in Hn. by apply NoDup_app in Hn as (? & _). }
    destruct r1 as [found|e].
    + eapply (IH (done ++ [config])); [|exact Hn| |exact H]; [by rewrite <- app_assoc|].
      eapply discover_step; [exact Hinv|done| |exact E]. subst all. set_solver.
    + injection H as <- <- <-. destruct Hinv as (_ & Hd & Ht & _ & _ & Hc & _).
      destruct (discover_server_spec _ _ _ _ _ _ E) as (_ & Et & Ed & s & _ & _ & -> & _).
      * destruct (dict_get _ _) eqn:Eg; [|done]. exfalso.
        assert (Hm : mc_name config ∈ mc_name <$> done) by (apply Hc, dict_get_mem; eauto).
        rewrite fmap_app in Hnc. apply NoDup_app in Hnc as (_ & Hx & _). apply (Hx _ Hm). by left.
      * split_and!; [done|congruence|congruence].
Qed.

Lemma initial_statuses_keys state configs : NoDup (mc_name <$> configs) ->
  (initial_statuses state configs).*1 = mc_name <$> configs.
Proof.
  unfold initial_statuses. change (mc_name <$> configs) with ((@nil (pystr * MCPServerStatus)).*1 ++ (mc_name <$> configs)).
  generalize (@nil (pystr * MCPServerStatus)). induction configs as [|c configs IH]; intros d Hn; cbn [foldl fmap list_fmap]; [by rewrite app_nil_r|].
  rewrite IH.
  - rewrite dict_set_fresh.
    + rewrite fmap_app. cbn. by rewrite <- app_assoc.
    + destruct (dict_get _ _) eqn:E; [|done]. exfalso. apply NoDup_app in Hn as (_ & Hx & _).
      apply (Hx (mc_name c)); [apply dict_get_mem; eauto|by left].
  - cbn [fmap list_fmap] in Hn. rewrite dict_set_fresh.
    + rewrite fmap_app. cbn. by rewrite <- app_assoc.
    + destruct (dict_get _ _) eqn:E; [|done]. exfalso. apply NoDup_app in Hn as (_ & Hx & _).
      apply (Hx (mc_name c)); [apply dict_get_mem; eauto|by left].
Qed.

Lemma count_state_zero s statuses : count_state s statuses = 0%nat <-> Forall (fun x => ss_state x <> s) statuses.
Proof.
  unfold count_state. induction statuses as [|x l IH]; [split; [constructor|done]|]. rewrite filter_cons.
  case_decide; [split; [done|by inversion 1]|]. rewrite IH. split; [by constructor|by inversion 1].
Qed.

(** The readiness after discovery, when every server is ready or has failed *)
Lemma readiness_discovered m : mg_discovered m = true ->
  Forall (fun s => ss_state s = MCPServerState.READY \/ ss_state s = MCPServerState.FAILED) (server_statuses m) ->
  is_ready (readiness_status m) = bool_decide (server_statuses m = []) || negb (count_state MCPServerState.READY (server_statuses m) =? 0)%nat.
Proof.
  intros Hd Hs. unfold readiness_status. rewrite Hd. case_bool_decide as Hnil; [done|]. cbn [orb negb].
  assert (Hc : forallb (fun x => bool_decide (ss_state x = MCPServerState.CLOSED)) (server_statuses m) = false).
  { destruct (server_statuses m) as [|x l]; [done|]. inversion Hs as [|? ? [Hx|Hx] _]; subst; cbn; by rewrite Hx. }
  rewrite Hc. destruct (count_state MCPServerState.READY (server_statuses m) =? 0)%nat eqn:Er; cbn [negb andb].
  - apply Nat.eqb_eq in Er. rewrite Er. destruct (length (server_statuses m)) eqn:El; [|done].
    by apply nil_length_inv in El.
  - destruct (count_state MCPServerState.FAILED (server_statuses m) =? 0)%nat eqn:Ef; cbn [negb]; [|done].
    apply Nat.eqb_eq, count_state_zero in Ef.
    assert (Hall : count_state MCPServerState.READY (server_statuses m) = length (server_statuses m)).
    { unfold count_state. clear -Hs Ef. induction (server_statuses m) as [|x l IH]; [done|].
      inversion Hs as [|? ? [Hx|Hx] Hs']; inversion Ef; subst; [|done]. rewrite filter_cons, decide_True by done. cbn. f_equal. by apply IH. }
    by rewrite Hall, Nat.eqb_refl.
Qed.
End Manager.

(** ** The configured servers *)

Definition nonblank (s : pystr) : Prop := strip s <> [].
Definition valid_server (c : MCPServerConfig) : Prop :=
  nonblank (mc_name c) /\ mc_command c <> [] /\ Forall nonblank (mc_command c) /\ Forall nonblank (mc_allowed_tools c) /\
  not_positive (mc_startup_timeout_seconds c) = false /\ not_positive (mc_request_timeout_seconds c) = false.

Lemma string_tuple_nonblank value key index l : Settings._string_tuple value key index = Ok l ->
  Forall nonblank l.
Proof.
  intros H. unfold Settings._string_tuple in H.
  assert (Hg : forall v acc l, foldE (fun acc v => match v with
    | JStr s => if Settings.blank s then Err (ValueError (Settings.at_key index key " must contain strings")) else Ok (acc ++ [s])
    | _ => Err (ValueError (Settings.at_key index key " must contain strings")) end) acc v = Ok l ->
    Forall nonblank acc -> Forall nonblank l).
  { induction v as [|x v IH]; intros acc l0 Hl Ha; cbn [foldE] in Hl.
    - by injection Hl as <-.
    - destruct x as [| | | |s| |]; try done. unfold Settings.blank in Hl. case_bool_decide as Hs; [done|].
      apply IH in Hl; [done|]. apply Forall_app; split; [done|by apply Forall_singleton]. }
  by apply Hg in H; [|constructor].
Qed.

Lemma parse_server_valid index raw c : Settings._parse_mcp_server_config index raw = Ok c -> valid_server c.
Proof.
  unfold Settings._parse_mcp_server_config. intros H. apply bind_ok in H as (name & Hname & H).
  apply bind_ok in H as (command & Hcommand & H). apply bind_ok in H as (allowed & Hallowed & H).
  apply bind_ok in H as (env & _ & H). destruct (default _ _) as [| | | |risk| |]; try done.
  destruct (RiskLevel.of_str risk) as [level|]; [|done]. apply bind_ok in H as (startup & _ & H).
  apply bind_ok in H as (request & _ & H). unfold MCPServerConfig_make, raise_if in H.
  case_bool_decide as Hn; [done|]. cbn [mbind result_bind] in H.
  destruct command as [|c0 command]; [done|]. case_bool_decide as Hc0; [done|]. cbn [mbind result_bind] in H.
  destruct (not_positive startup) eqn:Es; [done|]. destruct (not_positive request) eqn:Er; [done|].
  injection H as <-. unfold valid_server. cbn [mc_name mc_command mc_allowed_tools mc_startup_timeout_seconds mc_request_timeout_seconds].
  split_and!; try done.
  - unfold Settings._required_string_tuple in Hcommand. destruct (dict_get _ raw) as [[| | | | |[|v vs]|]|]; try done.
    apply bind_ok in Hcommand as (l & Hl & Hcommand). case_bool_decide; [done|]. injection Hcommand as ->.
    by eapply string_tuple_nonblank.
  - unfold Settings._optional_string_tuple in Hallowed. destruct (default _ _) as [| | | | |value|]; try done.
    by eapply string_tuple_nonblank.
Qed.

Lemma parse_servers_spec : forall decoded index configs result,
  Settings.parse_servers index configs decoded = Ok result ->
  NoDup (mc_name <$> configs) -> Forall valid_server configs -> NoDup (mc_name <$> result) /\ Forall valid_server result.
Proof.
  induction decoded as [|v decoded IH]; intros index configs result H Hn Hv; cbn [Settings.parse_servers] in H; [by injection H as <-|].
  destruct v as [| | | | | |raw]; try done. apply bind_ok in H as (c & Hc & H). case_bool_decide as Hin; [done|].
  apply IH in H; [done| |].
  - rewrite fmap_app. apply NoDup_app. split_and!; [done| |apply NoDup_singleton]. intros x Hx [= ->]%list_elem_of_singleton. done.
  - apply Forall_app; split; [done|]. apply Forall_singleton. by eapply parse_server_valid.
Qed.

(** The configured servers have distinct names, a command, and positive timeouts. *)
Lemma configured_servers enabled text configs :
  Settings.get_mcp_server_configs enabled text = Ok configs -> NoDup (mc_name <$> configs) /\ Forall valid_server configs.
Proof.
  unfold Settings.get_mcp_server_configs. destruct (_ || _); [intros [= <-]; split; constructor|].
  destruct (loads text) as [[| | | | |decoded|]|]; try done.
  intros H. by eapply parse_servers_spec; [exact H|constructor|constructor].
Qed.

Section Discovery.
Context {W C : Type} (ops : MCPClient W C).

Lemma ready_iff_held configs tools (m : MCPToolManager W C) : NoDup (mc_name <$> configs) -> mg_discovered m = true ->
  (mg_server_statuses m).*1 = mc_name <$> configs -> Forall (settled tools m) configs ->
  (forall k, k ∈ (mg_clients m).*1 -> k ∈ mc_name <$> configs) ->
  is_ready (readiness_status m) = true <-> configs = [] \/ mg_clients m <> [].
Proof.
  intros Hn Hd Hk Hs Hc. rewrite Forall_forall in Hs.
  assert (Hstatus : forall s, s ∈ server_statuses m -> exists c, c ∈ configs /\ dict_get (mc_name c) (mg_server_statuses m) = Some s).
  { intros s ([k s0] & Hs0 & Hin)%list_elem_of_fmap. cbn in Hs0. subst s0.
    assert (Hkn : k ∈ mc_name <$> configs) by (rewrite <- Hk; by apply (list_elem_of_fmap_2 fst _ (k, s))).
    apply list_elem_of_fmap in Hkn as (c & -> & Hcin). exists c. split; [done|]. apply dict_get_elem; [by rewrite Hk|done]. }
  rewrite readiness_discovered; [|done|].
  - rewrite orb_true_iff, bool_decide_eq_true, negb_true_iff, Nat.eqb_neq, count_state_zero.
    assert (Hnil : server_statuses m = [] <-> configs = []).
    { unfold server_statuses. destruct (mg_server_statuses m), configs; cbn in Hk |- *; done. }
    rewrite Hnil. split; (intros [H|H]; [by left|right]).
    + intros Hcl. apply H. apply Forall_forall. intros s Hin Hr. destruct (Hstatus s Hin) as (c & Hcin & Hg).
      destruct (Hs c Hcin) as (s' & Hg' & _ & _ & [(_ & _ & Hm)|(Hf & _)]); [|congruence]. rewrite Hcl in Hm. by apply elem_of_nil in Hm.
    + rewrite Forall_forall. intros Hall. destruct (mg_clients m) as [|[k cl] l] eqn:Ecl; [done|].
      specialize (Hc k (list_elem_of_here _ _)). apply list_elem_of_fmap in Hc as (c & -> & Hcin).
      destruct (Hs c Hcin) as (s & Hg & _ & _ & [(Hr & _)|(_ & _ & _ & Hm)]).
      * apply (Hall s); [|done]. apply dict_get_Some in Hg. by apply (list_elem_of_fmap_2 snd _ (mc_name c, s)).
      * apply Hm. rewrite Ecl. by left.
  - apply Forall_forall. intros s Hin. destruct (Hstatus s Hin) as (c & Hcin & Hg).
    destruct (Hs c Hcin) as (s' & Hg' & _ & _ & [(Hr & _)|(Hf & _)]); [left|right]; congruence.
Qed.

End Discovery.

(** ** What is started is closed *)

Inductive action (C : Type) := Created (c : C) | Closing (c : C).
Arguments Created {C}. Arguments Closing {C}.

(** The same clients, with the starts and the closings on record *)
Definition traced {W C} (ops : MCPClient W C) : MCPClient (W * list (action C)) C := {|
  op_create config w := let '(c, w1) := op_create ops config w.1 in (c, (w1, w.2 ++ [Created c]));
  op_start c w := let '(r, w1) := op_start ops c w.1 in (r, (w1, w.2));
  op_list_tools c w := let '(r, w1) := op_list_tools ops c w.1 in (r, (w1, w.2));
  op_call_tool c name arguments t w := let '(r, w1) := op_call_tool ops c name arguments t w.1 in (r, (w1, w.2));
  op_close c w := let '(events, w1) := op_close ops c w.1 in (events, (w1, w.2 ++ [Closing c]))
|}.

Section Closing.
Context {W C : Type} (ops : MCPClient W C).

(** Every client that was made was closed or is held. *)
Definition accounted {T} (m : MCPToolManager T C) (log : list (action C)) : Prop :=
  forall c, Created c ∈ log -> Closing c ∈ log \/ c ∈ (mg_clients m).*2.

Lemma traced_connect config client m w log r m' w' :
  connect (traced ops) config client m (w, log) = (r, m', w') -> w'.2 = log.
Proof.
  unfold connect, traced. cbn [op_start op_list_tools fst snd]. destruct (op_start ops client w) as [[?|?] w1]; [|by intros [= _ _ <-]].
  cbn [fst snd]. destruct (op_list_tools ops client w1) as [[ds|?] w2]; [|by intros [= _ _ <-]].
  destruct (server_tools _ _ _ _); by intros [= _ _ <-].
Qed.

Lemma traced_close c w log : (_close_client_safely (traced ops) c (w, log)).2.2 = log ++ [Closing c].
Proof. unfold _close_client_safely, traced. cbn. by destruct (op_close ops c w). Qed.

Lemma accounted_closed {T} (m m' : MCPToolManager T C) c log : accounted m log -> mg_clients m' = mg_clients m ->
  accounted m' ((log ++ [Created c]) ++ [Closing c]).
Proof.
  intros Ha Hm c' [Hc'|[= ]%list_elem_of_singleton]%elem_of_app. rewrite Hm.
  apply elem_of_app in Hc' as [Hc'|[= ->]%list_elem_of_singleton].
  - destruct (Ha _ Hc') as [?|?]; [left; set_solver|by right].
  - left. apply elem_of_app. right. by left.
Qed.

Lemma accounted_server config m w log r m' w' : accounted m log ->
  discover_server (traced ops) config m (w, log) = (r, m', w') -> accounted m' w'.2.
Proof.
  intros Ha. unfold discover_server, dict_has. destruct (dict_get (mc_name config) (mg_clients m)) eqn:Ef; [by intros [= _ <- <-]|].
  unfold traced at 1. cbn [op_create fst snd]. destruct (op_create ops config w) as [client w1].
  destruct (connect _ _ _ _ _) as [[r1 m1] w2] eqn:Ec. pose proof (traced_connect _ _ _ _ _ _ _ _ Ec) as Hlog.
  apply connect_spec in Ec as [Hd Hr]; [|done]. destruct w2 as [w2 log2]. cbn [snd] in Hlog. subst log2.
  destruct r1 as [tools|e].
  - intros [= _ <- <-]. destruct Hr as [-> _]. cbn [snd]. intros c Hc.
    cbn [with_status with_clients mg_clients]. rewrite fmap_app. apply elem_of_app in Hc as [Hc|[= ->]%list_elem_of_singleton].
    + destruct (Ha _ Hc) as [?|?]; [left; set_solver|right; set_solver].
    + right. apply elem_of_app. right. by left.
  - pose proof (traced_close client w2 (log ++ [Created client])) as Hcl.
    destruct (_close_client_safely (traced ops) client _) as [b w3]. cbn [snd] in Hcl.
    destruct e; intros [= _ <- <-]; rewrite Hcl; apply (accounted_closed m); done.
Qed.

Lemma accounted_servers configs : forall tools m w r m' w', accounted m w.2 ->
  discover_servers (traced ops) configs tools m w = (r, m', w') -> accounted m' w'.2.
Proof.
  induction configs as [|config configs IH]; intros tools m [w log] r m' w' Ha; cbn [discover_servers]; [by intros [= _ <- <-]|].
  destruct (discover_server _ config m (w, log)) as [[[found|e] m1] w1] eqn:E; apply accounted_server in E; try done.
  - intros H. by eapply IH.
  - by intros [= _ <- <-].
Qed.

Lemma close_all_log : forall clients requested w,
  (close_all (traced ops) clients requested w).2.2 = w.2 ++ (Closing <$> clients.*2).
Proof.
  induction clients as [|[k c] clients IH]; intros requested [w log]; cbn [close_all fmap list_fmap]; [by rewrite app_nil_r|].
  pose proof (traced_close c w log) as Hc. destruct (_close_client_safely _ c _) as [b w1]. cbn [snd] in Hc |- *. rewrite IH, Hc. by rewrite <- app_assoc.
Qed.

(** C27. No server process is forgotten: however discovery ends, every client that
    was made has been closed or is held by the manager; [close] closes all that
    are held, whatever their closing raises, and then no tool is listed, no
    permission is granted and every client ever made is closed. *)
Theorem started_clients_are_closed configs w :
  let '(_, m, (w1, log)) := discover_tools (traced ops) (MCPToolManager_init configs) (w, []) in
  accounted m log /\
  let '(_, m', (_, log')) := manager_close (traced ops) m (w1, log) in
  mg_discovered_tools m' = [] /\ granted_permissions m' = [] /\ forall c, Created c ∈ log' -> Closing c ∈ log'.
Proof.
  destruct (discover_tools _ _ _) as [[r m] [w1 log]] eqn:E.
  assert (Ha : accounted m log).
  { unfold discover_tools in E. cbn [mg_discovered MCPToolManager_init mg_configs] in E.
    destruct (discover_servers _ _ _ _ _) as [[r0 m0] w0] eqn:Ed.
    apply accounted_servers in Ed; [|intros c Hc; by apply elem_of_nil in Hc].
    by destruct r0; injection E as <- <- ->. }
  split; [done|]. unfold manager_close. pose proof (close_all_log (mg_clients m) false (w1, log)) as Hl.
  destruct (close_all _ _ _ _) as [b [w2 log2]]. cbn [snd] in Hl. subst log2. split_and!; [done|done|].
  intros c [Hc|Hc]%elem_of_app.
  - apply elem_of_app. destruct (Ha c Hc) as [?|?]; [by left|right]. by apply list_elem_of_fmap_2.
  - apply list_elem_of_fmap in Hc as (? & [=] & _).
Qed.
End Closing.

(** ** Calls through the tool executor *)

Section Calls.
Context {W C : Type} (ops : MCPClient W C).

(** A call of an exposed tool through an executor that has the permissions of
    the manager is refused without an effect, or the manager holds the server,
    and then the server is called once, with the tool's own name: a timeout and a
    cancellation of the client are told as such, every other failure as a failed
    execution, and an answer becomes an output that satisfies the tool's schema. *)
Theorem mcp_call_outcome (m : MCPToolManager W C) (ex : ToolExecutor W) config client t name args ctx timeout w r ms w' :
  registry_get (te_registry ex) name = Some t -> tool_of ops config client t ->
  te_granted_permissions ex = granted_permissions m ->
  execute ex name args ctx timeout w = (r, ms, w') ->
  (refused r /\ w' = w) \/
  (mc_name config ∈ (mg_clients m).*1 /\
   exists d arguments seconds, tool_name t = adapter_name (mc_name config) (mt_name d) /\ args = JObj arguments /\
     w' = (op_call_tool ops client (mt_name d) arguments seconds w).2 /\
     match (op_call_tool ops client (mt_name d) arguments seconds w).1, r with
     | Ok answer, Ok result => exists desc, _describe t = Ok desc /\
         result = output_result ex name desc (JObj (adapter_output answer)) /\
         (tool_output_schema t = Some default_output_schema ->
            _validate_schema (JObj (adapter_output answer)) (td_output_schema desc) = true)
     | Err CancelledError, Err ToolExecutor.CancelledError => True
     | Err TimeoutError, Ok result => tr_status result = ToolExecutionStatus.TIMED_OUT
     | Err e, Ok result => e <> CancelledError /\ tr_status result = ToolExecutionStatus.FAILED
     | _, _ => False
     end).
Proof.
  intros Hreg Ht Hgr. destruct (tool_of_facts ops _ _ _ Ht) as (d & Hname & Hperm & Hexec & _).
  unfold execute. destruct (get_descriptor _ _) as [d0|e]; [|intros [= <- <- <-]; by left].
  pose proof (_execute_cases ex name args ctx timeout w) as H.
  destruct (_execute ex name args ctx timeout w) as [r0 w0]. intros [= <- <- <-]. cbn [fst snd] in H.
  destruct H as [[? ?]|(tool & seconds & a & -> & (Hg & _ & (desc & Hdesc & Hp) & _) & Hw & Hr)]; [by left|right].
  rewrite Hreg in Hg. injection Hg as <-. rewrite Hexec in Hw, Hr. split.
  - unfold _is_permitted in Hp. bools.
    assert (Hreq : td_required_permissions desc = tool_required_permissions t).
    { unfold _describe, ToolDescriptor_make in Hdesc. destruct (RiskLevel.of_str _); [|done]. repeat case_bool_decide; simplify_eq/=; done. }
    match goal with H : forallb _ _ = true |- _ => rewrite Hreq, Hperm in H; cbn [forallb] in H; rewrite andb_true_r in H; apply bool_decide_eq_true in H;
      rewrite Hgr in H; apply list_elem_of_fmap in H as (k & E & Hk) end.
    apply server_permission_inj in E. by rewrite E.
  - exists d, a, seconds. split_and!; [done|done| |].
    + rewrite Hw. unfold adapter_execute. by destruct (op_call_tool _ _ _ _ _ _) as [[?|[]] ?].
    + unfold adapter_execute in Hr. destruct (op_call_tool _ _ _ _ _ _) as [[answer|e] w1]; cbn [fst] in Hr |- *.
      * destruct r0 as [result|]; [|done]. destruct Hr as (desc' & Hd' & ->). exists desc'. split_and!; [done|done|].
        intros Hs. unfold _describe, ToolDescriptor_make in Hd'. rewrite Hs in Hd'. destruct (RiskLevel.of_str _); [|done].
        repeat case_bool_decide; simplify_eq/=. apply adapter_output_valid.
      * destruct e, r0 as [result|[]]; cbn in Hr |- *; try done.
Qed.
End Calls.

(** ** A run of the whole client *)

(** A server that answers the three methods; [tools] is what it lists. *)
Definition scripted (tools : list json) : Client.server_process nat := Client.mkServer
  (fun command _ w => (Some true, w))
  (fun line w =>
     match loads line with
     | Some (JObj d) =>
         match dict_get (u "id") d, dict_get (u "method") d with
         | Some n, Some (JStr method) =>
             let result :=
               if base.decide (method = u "tools/list") then JObj [(u "tools", JArr tools)]
               else if base.decide (method = u "tools/call") then JObj [(u "content", JArr [JStr (u "text")])]
               else JObj [] in
             (Some [Line (dump_json_plain (JObj [(u "jsonrpc", JStr (u "2.0")); (u "id", n); (u "result", result)]))], S w)
         | _, _ => (Some [], w)
         end
     | _ => (None, w)
     end)
  (fun w => w).

Definition listed (name : string) (annotations : list (pystr * json)) : json :=
  JObj [(u "name", JStr (u name)); (u "annotations", JObj annotations)].
Definition read_only : list (pystr * json) := [(u "readOnlyHint", JBool true); (u "destructiveHint", JBool false)].
Definition file_tools : list json :=
  [listed "read" read_only; listed "wipe" [(u "destructiveHint", JBool true)]; listed "guess" []].

(** [broken] ends its output when it is asked for anything. *)
Definition broken_server : Client.server_process nat :=
  Client.mkServer (fun _ _ w => (Some true, w)) (fun _ w => (Some [EndOfFile], w)) (fun w => w).
Definition demo_servers (c : MCPServerConfig) : Client.server_process nat :=
  if base.decide (mc_name c = u "files") then scripted file_tools else broken_server.
Definition demo_ops : MCPClient (process_world (W := nat)) handle :=
  MCPProcessClients (fun _ => []) demo_servers (fun w => ([Closed false], w)).

Definition server_json (name : string) : json := JObj [(u "name", JStr (u name)); (u "command", JArr [JStr (u "run")])].
Definition demo_text : pystr := dump_json_plain (JArr [server_json "files"; server_json "broken"]).
Definition demo_config (name : string) : MCPServerConfig :=
  mkServerConfig (u name) [u "run"] [] RiskLevel.LOW (round_ratio false 10 1) (round_ratio false 10 1) [].

Lemma demo_configs : Settings.get_mcp_server_configs true demo_text = Ok [demo_config "files"; demo_config "broken"].
Proof. vm_compute. reflexivity. Qed.

(** The tool without stated risk and the destructive one are left out, and the
    server that fails leaves the other one ready. *)
Example demo_discovery :
  let '(r, m, _) := discover_tools demo_ops (MCPToolManager_init [demo_config "files"; demo_config "broken"]) ([], 0%nat) in
  match r with Ok tools => tool_name <$> tools | Err _ => [] end = [u "mcp__files__read"] /\
  granted_permissions m = [u "mcp:server:files"] /\ rd_state (readiness_status m) = MCPReadinessState.DEGRADED.
Proof. vm_compute. split_and!; reflexivity. Qed.


(** Servers [a] and [a__b] can expose tools of one name: the registry then refuses
    to be built. *)
Example names_collide : adapter_name (u "a") (u "b__c") = adapter_name (u "a__b") (u "c").
Proof. reflexivity. Qed.

(** After a discovery that was cancelled at the second server, asking again raises
    because the first one is still held. *)
Definition cancelled_ops : MCPClient nat pystr := {|
  op_create config w := (mc_name config, w);
  op_start c w := if bool_decide (c = u "slow") then (Err CancelledError, w) else (Ok tt, w);
  op_list_tools _ w := (Ok [], w);
  op_call_tool _ _ _ _ w := (Err TimeoutError, w);
  op_close _ w := ([Closed false], w)
|}.
Example cancelled_discovery_stuck :
  let '(r, m, w) := discover_tools cancelled_ops (MCPToolManager_init [demo_config "fast"; demo_config "slow"]) 0%nat in
  r = Err CancelledError /\
  (discover_tools cancelled_ops m w).1.1 = Err (ValueError (u "MCP server already started: fast")).
Proof. vm_compute. split; reflexivity. Qed.

(** A call of the one tool of a server *)
Definition echo_definition : MCPToolDefinition :=
  mkMcpTool (u "echo") (u "Echo") [(u "type", JStr (u "object"))] default_output_schema RiskLevel.LOW true.
Definition echo_ops : MCPClient nat pystr := {|
  op_create config w := (mc_name config, w);
  op_start _ w := (Ok tt, w);
  op_list_tools _ w := (Ok [echo_definition], w);
  op_call_tool _ _ _ _ w := (Ok (mkCallResult [JStr (u "hello")] false), S w);
  op_close _ w := ([Closed false], w)
|}.
Definition echo_tool : Tool nat :=
  mkTool (adapter_name (u "fast") (u "echo")) (u "[fast] Echo") [(u "type", JStr (u "object"))] (Some default_output_schema)
    (Some (u "low")) [server_permission (u "fast")] (adapter_execute echo_ops (u "fast") echo_definition).
Definition echo_manager : MCPToolManager nat pystr :=
  mkManager [demo_config "fast"] [(u "fast", u "fast")] [echo_tool] true [].
Definition echo_executor (granted : list pystr) : ToolExecutor nat :=
  mkToolExecutor [(tool_name echo_tool, echo_tool)] one_second 1000 RiskLevel.LOW granted.

Lemma echo_call :
  execute (echo_executor (granted_permissions echo_manager)) (tool_name echo_tool) (JObj []) demo_context None 0%nat =
  (Ok (mkToolExecutionResult (tool_name echo_tool) ToolExecutionStatus.SUCCEEDED
         (dump_json (JObj (adapter_output (mkCallResult [JStr (u "hello")] false)))) None None false),
   [(tool_name echo_tool, u "succeeded")], 1%nat).
Proof. vm_compute. reflexivity. Qed.

Lemma mcp_call_outcome_witness :
  u "fast" ∈ (mg_clients echo_manager).*1 /\ exists d, tool_name echo_tool = adapter_name (u "fast") (mt_name d).
Proof.
  assert (Hreg : registry_get (te_registry (echo_executor (granted_permissions echo_manager))) (tool_name echo_tool) = Some echo_tool)
    by (unfold registry_get, echo_executor; cbn [te_registry dict_get]; by rewrite decide_True).
  assert (Htool : tool_of echo_ops (demo_config "fast") (u "fast") echo_tool).
  { exists echo_definition, [echo_definition], 0%nat. split_and!; [reflexivity|by left|vm_compute; reflexivity|vm_compute; reflexivity]. }
  destruct (mcp_call_outcome echo_ops echo_manager _ _ _ _ _ _ _ _ _ _ _ _ Hreg Htool eq_refl echo_call)
    as [[_ Hw]|(Hm & d & _ & _ & Hn & _)]; [discriminate|].
  split; [exact Hm|]. exists d. exact Hn.
Defined.

(** Without the permission of its server the tool is not called. *)
Example echo_not_granted :
  (execute (echo_executor []) (tool_name echo_tool) (JObj []) demo_context None 0%nat).2 = 0%nat.
Proof. vm_compute. reflexivity. Qed.
