(* ===== verification/PdfReportService.v ===== *)
(** * The service of the PDF report workflow: [app/services/workflow_service.py], [app/workflows/models.py] and [memory_repository.py]

    A run is started with a PDF, waits for a person's decision and is resumed with
    it.  [approve] and [reject] first claim the run by a conditional update, then
    the graph runs, then the outcome is recorded; the three parts are definitions
    of their own because other calls can come between them.  LangGraph with its
    checkpointer is the record [langgraph]. *)

From Corelib Require Import SpecFloat.
From S2P Require Import Prelude Json RagText PdfReport.
Local Open Scope Z_scope.

(** ** Runs *)

Module WorkflowRunStatus.
Inductive t := RUNNING | PENDING_APPROVAL | COMPLETED | REJECTED | FAILED.
#[global] Instance eq_dec : EqDecision t.
Proof. solve_decision. Defined.
End WorkflowRunStatus.

Module WorkflowRunStage.
Inductive t := STARTING | AWAITING_APPROVAL | COMPLETED | REJECTED | FAILED.
#[global] Instance eq_dec : EqDecision t.
Proof. solve_decision. Defined.
End WorkflowRunStage.

Record WorkflowRun := mkRun {
  run_thread_id : pystr;
  run_owner_key_hash : pystr;
  run_status : WorkflowRunStatus.t;
  run_stage : WorkflowRunStage.t;
  run_filename : option pystr;
  run_report_topic : option pystr;
  run_error_code : option pystr;
  run_error_message : option pystr;
  run_created_at : option Z;
  run_updated_at : option Z
}.

Definition with_status (status : WorkflowRunStatus.t) (stage : WorkflowRunStage.t) (updated_at : option Z) (r : WorkflowRun) :=
  mkRun (run_thread_id r) (run_owner_key_hash r) status stage (run_filename r) (run_report_topic r)
    (run_error_code r) (run_error_message r) (run_created_at r) updated_at.
Definition with_error (code message : option pystr) (r : WorkflowRun) :=
  mkRun (run_thread_id r) (run_owner_key_hash r) (run_status r) (run_stage r) (run_filename r) (run_report_topic r)
    code message (run_created_at r) (run_updated_at r).
Definition with_source (filename topic : option pystr) (r : WorkflowRun) :=
  mkRun (run_thread_id r) (run_owner_key_hash r) (run_status r) (run_stage r) filename topic
    (run_error_code r) (run_error_message r) (run_created_at r) (run_updated_at r).
Definition with_times (created updated : option Z) (r : WorkflowRun) :=
  mkRun (run_thread_id r) (run_owner_key_hash r) (run_status r) (run_stage r) (run_filename r) (run_report_topic r)
    (run_error_code r) (run_error_message r) created updated.

(** ** [InMemoryWorkflowRunRepository]: the dictionary from a thread and its owner to
    the run, which holds both *)

Definition run_key (r : WorkflowRun) : pystr * pystr := (run_thread_id r, run_owner_key_hash r).
Abbreviation run_repository := (list WorkflowRun).

Fixpoint put (run : WorkflowRun) (repo : run_repository) : run_repository :=
  match repo with
  | [] => [run]
  | r :: repo => if base.decide (run_key r = run_key run) then run :: repo else r :: put run repo
  end.

Definition repo_get (thread_id owner_key_hash : pystr) (repo : run_repository) : option WorkflowRun :=
  list_find (fun r => run_key r = (thread_id, owner_key_hash)) repo ≫= fun p => Some p.2.

Definition repo_create (now : Z) (run : WorkflowRun) (repo : run_repository) : WorkflowRun * run_repository :=
  let saved := with_times (Some now) (Some now) run in (saved, put saved repo).

Definition repo_update (now : Z) (run : WorkflowRun) (repo : run_repository) : option WorkflowRun * run_repository :=
  match repo_get (run_thread_id run) (run_owner_key_hash run) repo with
  | None => (None, repo)
  | Some _ => let saved := with_times (run_created_at run) (Some now) run in (Some saved, put saved repo)
  end.

(** Newest first; the sort is stable, and every stored run has a creation time.
    A negative limit leaves out runs at the end. *)
Definition list_by_owner (owner_key_hash : pystr) (limit : Z) (repo : run_repository) : list WorkflowRun :=
  let runs := filter (fun r => run_owner_key_hash r = owner_key_hash) repo in
  take (Z.to_nat (if limit <? 0 then Z.of_nat (length runs) + limit else limit))
    (sort_by (fun a b => default 0 (run_created_at b) <=? default 0 (run_created_at a)) runs).

Definition update_status_if (now : Z) (thread_id owner_key_hash : pystr) (expected new_status : WorkflowRunStatus.t)
    (new_stage : WorkflowRunStage.t) (repo : run_repository) : option WorkflowRun * run_repository :=
  match repo_get thread_id owner_key_hash repo with
  | None => (None, repo)
  | Some existing =>
      if bool_decide (run_status existing = expected) then
        let updated := with_status new_status new_stage (Some now) existing in (Some updated, put updated repo)
      else (None, repo)
  end.

(** ** Views and errors *)

Record WorkflowStatusView := mkView {
  vw_run : WorkflowRun;
  vw_page_count : option Z;
  vw_retrieval_query : option pystr;
  vw_references : option Z;
  vw_retrieval_warning : option pystr;
  vw_draft_summary : option pystr;
  vw_report : option pystr;
  vw_model : option pystr;
  vw_prompt_tokens : option Z;
  vw_completion_tokens : option Z;
  vw_revision_count : option Z
}.

Definition _optional_str (v : option value) : option pystr := match v with Some (VStr s) => Some s | _ => None end.
Definition _optional_int (v : option value) : option Z := match v with Some (VInt n) => Some n | _ => None end.
Definition _bounded_text (s : option pystr) (max_characters : Z) : option pystr :=
  match s with
  | None => None
  | Some t => Some (if slen t <=? max_characters then t else sprefix max_characters t)
  end.

Definition _safe_error (e : report_error) : pystr * pystr :=
  match e with
  | RAGDocumentValidationError m => (u "RAG_DOCUMENT_INVALID", m)
  | RAGDocumentTooLargeError m => (u "RAG_DOCUMENT_TOO_LARGE", m)
  | RAGUnavailableError m => (u "RAG_UNAVAILABLE", m)
  | ProviderUnavailableError m => (u "PROVIDER_UNAVAILABLE", m)
  | ProviderError m => (u "PROVIDER_ERROR", m)
  | _ => (u "WORKFLOW_EXECUTION_FAILED", u "Workflow execution failed.")
  end.

Definition is_exception (e : report_error) : bool := match e with CancelledError => false | _ => true end.

(** ** The service *)

(** What the graph is run with: the initial state, or [Command(resume=...)]. *)
Inductive graph_input := Initial (state : PDFReportState) | Resume (decision : json).

(** The compiled graph over its checkpointer, whose content is [S] *)
Record langgraph (W S : Type) := mkLangGraph {
  ainvoke : graph_input -> pystr -> S -> W -> result report_error PDFReportState * S * W;
  aget_state : pystr -> S -> PDFReportState
}.
Arguments ainvoke {W S}. Arguments aget_state {W S}. Arguments mkLangGraph {W S}.

Section Service.
Context {W S : Type} (lib : langgraph W S).
(** The files: a directory is made, a file written, removed (which succeeds) and
    read; the report is read as [None] when it is no file or [OSError] is raised. *)
Context (mkdir : pystr -> W -> result report_error unit * W) (write_bytes : pystr -> list N -> W -> result report_error unit * W)
  (unlink : pystr -> W -> W) (read_report : pystr -> W -> option pystr).
(** [uuid.UUID]: the text of the identifier that a text stands for *)
Context (UUID : pystr -> option pystr).

Record service_config := mkService { sv_work_dir : pystr; sv_max_upload_bytes : Z; sv_max_status_characters : Z }.
Definition service_init (work_dir : pystr) (max_upload max_status : Z) : result report_error service_config :=
  _ ← raise_if (max_upload <? 1) (ValueError (u "max_upload_bytes must be greater than zero"));
  _ ← raise_if (max_status <? 1) (ValueError (u "max_status_characters must be greater than zero"));
  Ok (mkService work_dir max_upload max_status).

Context (self : service_config).

Record service_state := mkState { st_repo : run_repository; st_store : S; st_world : W }.

Definition _normalize_thread_id (thread_id : pystr) : option pystr := UUID thread_id.

Definition _read_report (report_path : pystr) (w : W) : option pystr :=
  _bounded_text (read_report report_path w) (sv_max_status_characters self).

Definition _build_view (run : WorkflowRun) (values : PDFReportState) (w : W) : WorkflowStatusView :=
  mkView run
    (_optional_int (dict_get (u "page_count") values))
    (_optional_str (dict_get (u "retrieval_query") values))
    (match dict_get (u "references") values with Some (VRefs l) => Some (Z.of_nat (length l)) | _ => None end)
    (_optional_str (dict_get (u "retrieval_warning") values))
    (_bounded_text (_optional_str (dict_get (u "analysis") values)) (sv_max_status_characters self))
    (match dict_get (u "report_path") values with Some (VStr p) => _read_report p w | _ => None end)
    (_optional_str (dict_get (u "model_name") values))
    (_optional_int (dict_get (u "prompt_tokens") values))
    (_optional_int (dict_get (u "completion_tokens") values))
    (_optional_int (dict_get (u "revision_count") values)).

Definition _record_failure (now : Z) (run : WorkflowRun) (e : report_error) (repo : run_repository) : run_repository :=
  let '(code, message) := _safe_error e in
  let run := with_error (Some code) (Some message) (with_status WorkflowRunStatus.FAILED WorkflowRunStage.FAILED (Some now) run) in
  (repo_update now run repo).2.

(** [result.get(key) or previous] *)
Definition or_previous (key : string) (result : PDFReportState) (previous : option pystr) : option pystr :=
  match text_of key result with [] => previous | s => Some s end.

(** The status and the stage that [_finalize_run] gives for a result *)
Definition final_status (result : PDFReportState) : WorkflowRunStatus.t * WorkflowRunStage.t :=
  match text_of "report_path" result, dict_get (u "__interrupt__") result with
  | _ :: _, _ => (WorkflowRunStatus.COMPLETED, WorkflowRunStage.COMPLETED)
  | [], Some (VInterrupt _) => (WorkflowRunStatus.PENDING_APPROVAL, WorkflowRunStage.AWAITING_APPROVAL)
  | [], _ =>
      if bool_decide (opt_text "approval" result = Some (u "rejected"))
      then (WorkflowRunStatus.REJECTED, WorkflowRunStage.REJECTED)
      else (WorkflowRunStatus.RUNNING, WorkflowRunStage.STARTING)
  end.

Definition _finalize_run (now : Z) (run : WorkflowRun) (result : PDFReportState) (repo : run_repository)
  : WorkflowRun * run_repository :=
  let '(status, stage) := final_status result in
  let run := with_status status stage (Some now) run in
  let run := with_source (or_previous "filename" result (run_filename run)) (or_previous "report_topic" result (run_report_topic run)) run in
  let run := with_error None None run in
  let '(updated, repo) := repo_update now run repo in
  (default run updated, repo).

Definition _view_from_result (now : Z) (run : WorkflowRun) (result : PDFReportState) (repo : run_repository) (w : W)
  : WorkflowStatusView * run_repository :=
  let '(updated, repo) := _finalize_run now run result repo in
  (_build_view updated result w, repo).

(** What follows the run of the graph: [except Exception] records the failure and
    raises again, a cancellation passes *)
Definition conclude (now : Z) (run : WorkflowRun) (s : service_state) (r : result report_error PDFReportState)
  : result report_error WorkflowStatusView * service_state :=
  match r with
  | Ok result =>
      let '(view, repo) := _view_from_result now run result (st_repo s) (st_world s) in
      (Ok view, mkState repo (st_store s) (st_world s))
  | Err e =>
      let repo := if is_exception e then _record_failure now run e (st_repo s) else st_repo s in
      (Err e, mkState repo (st_store s) (st_world s))
  end.

Definition _invoke (input : graph_input) (thread_id : pystr) (s : service_state)
  : result report_error PDFReportState * service_state :=
  let '(r, store, w) := ainvoke lib input thread_id (st_store s) (st_world s) in (r, mkState (st_repo s) store w).

Definition initial_state (pdf_path : pystr) (topic : option pystr) (owner_key_hash : pystr) (model : option pystr)
    (output_path : pystr) (require_approval : bool) (max_revisions : Z) : PDFReportState :=
  [(u "pdf_path", VStr pdf_path); (u "report_topic", opt_value topic); (u "owner_key_hash", VStr owner_key_hash);
   (u "model", opt_value model); (u "output_path", VStr output_path); (u "require_approval", VBool require_approval);
   (u "max_revisions", VInt max_revisions)].

Definition in_dir (dir name : pystr) : pystr := path_str (dir ++ u "/" ++ name).

(** [start]; [uuid4] is the fresh identifier *)
Definition start (now : Z) (uuid4 : pystr) (pdf_bytes : list N) (filename : option pystr) (owner_key_hash : pystr)
    (topic model : option pystr) (require_approval : bool) (max_revisions : Z) (thread_id : option pystr) (s : service_state)
  : result report_error WorkflowStatusView * service_state :=
  if sv_max_upload_bytes self <? Z.of_nat (length pdf_bytes) then
    (Err (RAGDocumentTooLargeError (u "PDF 文件超过限制（最多 " ++ str_of_Z (sv_max_upload_bytes self) ++ u " 字节）。")), s)
  else
    let thread_id := match thread_id with Some ((_ :: _) as t) => t | _ => uuid4 end in
    let safe_filename := normalize_pdf_filename filename in
    let safe_topic := _bounded_text topic 1000 in
    let run_dir := in_dir (sv_work_dir self) thread_id in
    let pdf_path := in_dir run_dir safe_filename in
    let initial := initial_state pdf_path safe_topic owner_key_hash model (in_dir run_dir (u "report.md")) require_approval max_revisions in
    let run := mkRun thread_id owner_key_hash WorkflowRunStatus.RUNNING WorkflowRunStage.STARTING (Some safe_filename) safe_topic
                 None None None None in
    match mkdir run_dir (st_world s) with
    | (Err e, w) => (Err e, mkState (st_repo s) (st_store s) w)
    | (Ok _, w) =>
        match write_bytes pdf_path pdf_bytes w with
        | (Err e, w) => (Err e, mkState (st_repo s) (st_store s) (unlink pdf_path w))
        | (Ok _, w) =>
            let '(created, repo) := repo_create now run (st_repo s) in
            let '(r, s) := _invoke (Initial initial) thread_id (mkState repo (st_store s) w) in
            conclude now created (mkState (st_repo s) (st_store s) (unlink pdf_path (st_world s))) r
        end
    end.

(** The first part of [approve] and [reject] *)
Definition claim (now : Z) (thread_id owner_key_hash : pystr) (repo : run_repository)
  : result report_error WorkflowRun * run_repository :=
  match update_status_if now thread_id owner_key_hash WorkflowRunStatus.PENDING_APPROVAL WorkflowRunStatus.RUNNING
          WorkflowRunStage.STARTING repo with
  | (Some updated, repo) => (Ok updated, repo)
  | (None, repo) =>
      match repo_get thread_id owner_key_hash repo with
      | None => (Err (WorkflowNotFoundError (u "Workflow not found.")), repo)
      | Some _ => (Err (ConflictError (u "Workflow is not awaiting approval.")), repo)
      end
  end.

Definition decision_json (d : decision) (feedback : pystr) : json :=
  JObj [(u "decision", JStr (decision_text d)); (u "feedback", JStr feedback)].

(** The second part: the graph is resumed and the outcome recorded *)
Definition resume_claimed (now : Z) (d : decision) (feedback : pystr) (updated : WorkflowRun) (s : service_state)
  : result report_error WorkflowStatusView * service_state :=
  let '(r, s) := _invoke (Resume (decision_json d feedback)) (run_thread_id updated) s in
  conclude now updated s r.

Definition decide (now : Z) (d : decision) (feedback thread_id owner_key_hash : pystr) (s : service_state)
  : result report_error WorkflowStatusView * service_state :=
  match claim now thread_id owner_key_hash (st_repo s) with
  | (Err e, repo) => (Err e, mkState repo (st_store s) (st_world s))
  | (Ok updated, repo) => resume_claimed now d feedback updated (mkState repo (st_store s) (st_world s))
  end.

Definition approve (now : Z) (thread_id owner_key_hash : pystr) : service_state -> result report_error WorkflowStatusView * service_state :=
  decide now Approved [] thread_id owner_key_hash.

Definition reject (now : Z) (thread_id owner_key_hash feedback : pystr) (s : service_state)
  : result report_error WorkflowStatusView * service_state :=
  if bool_decide (strip feedback = []) then (Err (ValidationError (u "feedback must not be empty.")), s)
  else decide now Rejected feedback thread_id owner_key_hash s.

Definition list_runs (owner_key_hash : pystr) (limit : Z) (s : service_state) : list WorkflowRun :=
  list_by_owner owner_key_hash limit (st_repo s).

Definition _require_run (thread_id owner_key_hash : pystr) (s : service_state) : result report_error WorkflowRun :=
  match _normalize_thread_id thread_id with
  | None => Err (WorkflowNotFoundError (u "Workflow not found."))
  | Some normalized =>
      match repo_get normalized owner_key_hash (st_repo s) with
      | None => Err (WorkflowNotFoundError (u "Workflow not found."))
      | Some run => Ok run
      end
  end.

(** [_get_state_snapshot]: its values, [{}] for [None] *)
Definition snapshot_values (thread_id owner_key_hash : pystr) (s : service_state) : PDFReportState :=
  let values := aget_state lib thread_id (st_store s) in
  if bool_decide (_optional_str (dict_get (u "owner_key_hash") values) = Some owner_key_hash) then values else [].

Definition get_status (thread_id owner_key_hash : pystr) (s : service_state) : result report_error WorkflowStatusView :=
  run ← _require_run thread_id owner_key_hash s;
  Ok (_build_view run (snapshot_values (run_thread_id run) owner_key_hash s) (st_world s)).
End Service.
Arguments service_state : clear implicits.
