(* ===== verification/PdfReportProps.v ===== *)
(** * Properties of the PDF report workflow

    A stored file name cannot leave its directory; a report that needs an approval
    is only written after one of its owner; a decision is taken once; the
    revisions are bounded. *)

From Corelib Require Import SpecFloat.
From S2P Require Import Prelude Json RagText PdfReport PdfReportService.
Local Open Scope Z_scope.

(** ** File names *)

Definition plain (c : N) : Prop := c <> 47%N /\ c <> 92%N.

Lemma split_slash_chars (P : N -> Prop) s : forall acc, Forall (fun c => P c \/ c = 47%N) s -> Forall P acc ->
  Forall (Forall P) (split_slash acc s).
Proof.
  induction s as [|c s IH]; intros acc Hs Ha; cbn [split_slash]; [by apply Forall_singleton|].
  apply Forall_cons_1 in Hs as [Hc Hs]. destruct (c =? 47)%N eqn:E.
  - constructor; [done|]. by apply IH.
  - apply IH; [done|]. apply Forall_app; split; [done|]. apply Forall_singleton. destruct Hc as [?|E2]; [done|]. by apply N.eqb_neq in E.
Qed.

Lemma path_name_chars (P : N -> Prop) s : Forall (fun c => P c \/ c = 47%N) s -> Forall P (path_name s).
Proof.
  intros Hs. unfold path_name, path_parts. destruct (last _) as [p|] eqn:E; [|constructor].
  apply last_Some_elem_of, list_elem_of_filter in E as [_ E].
  pose proof (split_slash_chars P s [] Hs (Forall_nil_2 _)) as H. rewrite Forall_forall in H. by apply H.
Qed.

Lemma lstrip_chars (P : N -> Prop) s : Forall P s -> Forall P (lstrip s).
Proof. induction 1 as [|c s Hc Hs IH]; cbn [lstrip]; [done|]. destruct (is_space c); [done|by constructor]. Qed.
Lemma strip_chars (P : N -> Prop) s : Forall P s -> Forall P (strip s).
Proof. intros H. unfold strip. apply Forall_rev, lstrip_chars, Forall_rev, lstrip_chars, H. Qed.

Lemma replace_controls_chars (P : N -> Prop) s : P 32%N -> Forall P s -> forall inside,
  Forall (fun c => P c /\ is_control c = false) (replace_controls inside s).
Proof.
  intros Hp. induction 1 as [|c s Hc Hs IH]; intros inside; cbn [replace_controls]; [done|].
  destruct (is_control c) eqn:E; [|by constructor]. apply Forall_app; split; [|apply IH].
  destruct inside; [done|]. by apply Forall_singleton.
Qed.

(** The name under which an uploaded PDF is stored names a file in the
    directory of its run, whatever name the client gave: it has no slash, no
    backslash and no control character, is neither empty nor a dot name, and has
    at most 255 characters. *)
Theorem stored_name_is_safe filename :
  let name := normalize_pdf_filename filename in
  Forall (fun c => plain c /\ is_control c = false) name /\ 4 <= slen name <= 255 /\
  path_name name = name /\ name <> u "." /\ name <> u "..".
Proof.
  cbv zeta. unfold normalize_pdf_filename. set (given := match filename with Some _ => _ | None => _ end).
  set (slashed := (fun c => if (c =? 92)%N then 47%N else c) <$> given).
  assert (Hs : Forall (fun c => plain c \/ c = 47%N) slashed).
  { apply Forall_fmap, Forall_true. intros c. unfold plain. cbn. destruct (c =? 92)%N eqn:E; [by right|].
    apply N.eqb_neq in E. destruct (base.decide (c = 47%N)); auto. }
  set (raw := strip (replace_controls false (strip (path_name slashed)))).
  assert (Hraw : Forall (fun c => plain c /\ is_control c = false) raw).
  { apply strip_chars, replace_controls_chars; [done|]. by apply strip_chars, path_name_chars. }
  set (raw' := match raw with [] => u "document.pdf" | n => n end).
  assert (Hraw' : Forall (fun c => plain c /\ is_control c = false) raw').
  { subst raw'. destruct raw; [|done]. apply (bool_decide_unpack _). vm_compute. exact I. }
  set (full := if ends_with_pdf raw' then raw' else raw' ++ u ".pdf").
  assert (Hfull : Forall (fun c => plain c /\ is_control c = false) full /\ 4 <= slen full).
  { subst full. destruct (ends_with_pdf raw') eqn:E.
    - split; [done|]. unfold ends_with_pdf in E. apply bool_decide_eq_true in E. apply (f_equal length) in E.
      rewrite length_fmap, length_drop in E. change (length (u ".pdf")) with 4%nat in E. unfold slen. lia.
    - split; [apply Forall_app; split; [done|]; apply (bool_decide_unpack _); vm_compute; exact I|].
      unfold slen. rewrite length_app. change (length (u ".pdf")) with 4%nat. lia. }
  destruct Hfull as [Hc Hlen]. set (name := sprefix 255 full).
  assert (Hname : Forall (fun c => plain c /\ is_control c = false) name) by (by apply Forall_take).
  assert (Hl : 4 <= slen name <= 255).
  { unfold name, sprefix, slen in *. rewrite length_take. lia. }
  assert (Hdots : name <> u "." /\ name <> u "..").
  { split; intros E; rewrite E in Hl; by destruct Hl as [Hl _]. }
  split_and!; [done|lia|lia| |apply Hdots|apply Hdots].
  assert (Hp : path_parts name = [name]).
  { unfold path_parts. assert (Hone : forall s acc, Forall (fun c => plain c /\ is_control c = false) s -> split_slash acc s = [acc ++ s]).
    { induction s as [|c s IH]; intros acc Hf; cbn [split_slash]; [by rewrite app_nil_r|].
      apply Forall_cons_1 in Hf as [[[H47 _] _] Hf]. rewrite (proj2 (N.eqb_neq _ _) H47), IH by done. by rewrite <- app_assoc. }
    rewrite Hone by done. cbn [app]. rewrite filter_cons_True; [done|]. split; [|apply Hdots].
    intros E. rewrite E in Hl. by destruct Hl as [Hl _]. }
  unfold path_name. by rewrite Hp.
Qed.

Lemma path_str_nonempty s : path_str s <> [].
Proof.
  unfold path_str. set (p := _ ++ _). destruct p; [|done]. intros E. vm_compute in E. discriminate.
Qed.

(** A name of 252 letters loses its ending to the bound. *)
Example long_name_loses_ending :
  ends_with_pdf (normalize_pdf_filename (Some (replicate 252 97%N))) = false.
Proof. vm_compute. reflexivity. Qed.

(** ** The state *)

Lemma merge_get k update : forall state, NoDup update.*1 ->
  dict_get k (merge update state) = match dict_get k update with Some v => Some v | None => dict_get k state end.
Proof.
  unfold merge. induction update as [|[k' v] update IH]; intros state Hn; cbn [foldl fmap list_fmap dict_get fst snd] in *; [done|].
  apply NoDup_cons in Hn as [Hk Hn]. rewrite IH, dict_get_set by done.
  destruct (base.decide (k = k')) as [->|]; [|done].
  destruct (dict_get k' update) eqn:E; [|done]. exfalso. apply Hk, dict_get_mem. eauto.
Qed.

(** The keys that no node but the two last ones sets *)
Definition inputs : list pystr :=
  [u "owner_key_hash"; u "require_approval"; u "max_revisions"; u "report_path"; u "revision_count"; u "__interrupt__"].

(** Two states agree on the keys that decide how a run goes on. *)
Definition same_inputs (st st' : PDFReportState) : Prop := forall k, k ∈ inputs -> dict_get k st' = dict_get k st.

Lemma same_inputs_trans a b c : same_inputs a b -> same_inputs b c -> same_inputs a c.
Proof. intros H1 H2 k Hk. by rewrite H2, H1. Qed.

Lemma merge_same update state : bool_decide (NoDup update.*1) = true ->
  forallb (fun k => bool_decide (k ∉ update.*1)) inputs = true -> same_inputs state (merge update state).
Proof.
  intros Hn Hk k Hin. apply bool_decide_eq_true in Hn. rewrite merge_get by done.
  destruct (dict_get k update) eqn:E; [|done]. exfalso.
  rewrite forallb_forall in Hk. specialize (Hk k (proj1 (list_elem_of_In _ _) Hin)). apply bool_decide_eq_true in Hk.
  apply Hk, dict_get_mem. eauto.
Qed.

Lemma input_in k : bool_decide (k ∈ inputs) = true -> k ∈ inputs.
Proof. apply bool_decide_eq_true. Qed.

Section SameInputs.
Context (st st' : PDFReportState) (H : same_inputs st st').
Lemma same_requires : requires_approval st' = requires_approval st.
Proof. unfold requires_approval. rewrite H; [done|]. apply input_in. vm_compute. reflexivity. Qed.
Lemma same_report : text_of "report_path" st' = text_of "report_path" st.
Proof. unfold text_of. rewrite H; [done|]. apply input_in. vm_compute. reflexivity. Qed.
Lemma same_count : int_of "revision_count" 0 st' = int_of "revision_count" 0 st.
Proof. unfold int_of. rewrite H; [done|]. apply input_in. vm_compute. reflexivity. Qed.
Lemma same_max : int_of "max_revisions" 2 st' = int_of "max_revisions" 2 st.
Proof. unfold int_of. rewrite H; [done|]. apply input_in. vm_compute. reflexivity. Qed.
Lemma same_interrupt : dict_get (u "__interrupt__") st' = dict_get (u "__interrupt__") st.
Proof. rewrite H; [done|]. apply input_in. vm_compute. reflexivity. Qed.
End SameInputs.

(** ** Runs of the graph *)

Section Graph.
Context {W : Type} (extract : pystr -> W -> result report_error ExtractedPdf * W)
  (retrieve : pystr -> pystr -> W -> result report_error RetrievedContext * W)
  (model_complete : list (pystr * pystr) -> option pystr -> W -> result report_error ReportCompletion * W)
  (write_text : pystr -> pystr -> W -> result report_error unit * W) (self : PDFReportWorkflow).
Abbreviation report_graph := (build extract retrieve model_complete write_text self).

(** A run that waits for a decision *)
Definition waiting (st : PDFReportState) : Prop :=
  requires_approval st = true /\ text_of "report_path" st = [] /\ dict_get (u "__interrupt__") st = None.

Lemma waiting_same st st' : same_inputs st st' -> waiting st -> waiting st'.
Proof.
  intros Hs (H1 & H2 & H3). unfold waiting.
  by rewrite (same_requires _ _ Hs), (same_report _ _ Hs), (same_interrupt _ _ Hs).
Qed.

(** The nodes before the approval leave those keys as they are. *)
Lemma early_node n resume st w update w' : n ∈ [parse_pdf; retrieve_context; analyze] ->
  g_run report_graph n resume st w = (Updates update, w') -> same_inputs st (merge update st).
Proof.
  intros Hn H. cbn [g_run build] in H.
  assert (Hu : exists a b c d, update = [(u "filename", a); (u "page_count", b); (u "extracted_text", c)] \/
    update = [(u "retrieval_query", a); (u "references", b); (u "retrieval_warning", c)] \/
    update = [(u "analysis", a); (u "model_name", b); (u "prompt_tokens", c); (u "completion_tokens", d)]).
  { apply elem_of_cons in Hn as [->|[->|[->|Hn]%elem_of_cons]%elem_of_cons]; [| | |by apply elem_of_nil in Hn].
    - unfold _parse_pdf in H. destruct (text_of "pdf_path" st); [done|]. destruct (extract _ w) as [[x|e] w1]; [|done].
      injection H as <- <-. eexists _, _, _, VNone. by left.
    - unfold _retrieve_context in H. destruct (strip _); [done|]. destruct (text_of "owner_key_hash" st); [done|].
      destruct (retrieve _ _ w) as [[x|e] w1]; [|done]. injection H as <- <-. eexists _, _, _, VNone. right. by left.
    - unfold _analyze in H. destruct (model_complete _ _ w) as [[x|e] w1]; [|done]. injection H as <- <-.
      eexists _, _, _, _. right. right. reflexivity. }
  destruct Hu as (a & b & c & d & [->|[->| ->]]); apply merge_same; vm_compute; reflexivity.
Qed.

Definition awaiting (n : node) (st : PDFReportState) (r : graph_end * checkpoint * W) : Prop :=
  let '(e, cp, _) := r in same_inputs st (cp_values cp) /\
  match e with
  | Finished => False
  | Interrupted _ => cp_next cp = Some request_approval
  | Raised e => cp_next cp <> None
  end.

Lemma run_approval limit st w : waiting st -> awaiting request_approval st (run_graph (S limit) report_graph None request_approval st w).
Proof.
  intros (Hr & _). cbn [run_graph g_run build]. unfold _request_approval. rewrite Hr. by split.
Qed.

(** One more node before the approval *)
Lemma run_step limit n next st w : n ∈ [parse_pdf; retrieve_context; analyze] -> g_next report_graph n = (fun _ => Some next) ->
  waiting st -> (forall st' w', waiting st' -> awaiting next st' (run_graph limit report_graph None next st' w')) ->
  awaiting n st (run_graph (S limit) report_graph None n st w).
Proof.
  intros Hn Hnext Hw IH. cbn [run_graph]. destruct (g_run report_graph n None st w) as [[update|p|e] w'] eqn:E.
  - rewrite Hnext. pose proof (early_node _ _ _ _ _ _ Hn E) as Hs. specialize (IH (merge update st) w' (waiting_same _ _ Hs Hw)).
    destruct (run_graph limit _ None next _ w') as [[e cp] w2]. cbn in IH |- *. destruct IH as [Hi He]. split; [|done].
    by eapply same_inputs_trans.
  - exfalso. cbn [g_run build] in E. apply elem_of_cons in Hn as [->|[->|[->|Hn]%elem_of_cons]%elem_of_cons]; [| | |by apply elem_of_nil in Hn].
    + unfold _parse_pdf in E. destruct (text_of _ st); [done|]. by destruct (extract _ w) as [[]].
    + unfold _retrieve_context in E. destruct (strip _); [done|]. destruct (text_of _ st); [done|]. by destruct (retrieve _ _ w) as [[]].
    + unfold _analyze in E. by destruct (model_complete _ _ w) as [[]].
  - by split.
Qed.

Lemma run_analyze limit st w : waiting st -> awaiting analyze st (run_graph (S (S limit)) report_graph None analyze st w).
Proof. intros H. apply (run_step _ _ request_approval); [set_solver|done|done|]. intros. by apply run_approval. Qed.

Lemma run_graph_updates limit resume n st w update w' : g_run report_graph n resume st w = (Updates update, w') ->
  run_graph (S limit) report_graph resume n st w =
  match g_next report_graph n (merge update st) with
  | None => (Finished, mkCheckpoint (merge update st) None, w')
  | Some n => run_graph limit report_graph None n (merge update st) w'
  end.
Proof. intros H. cbn [run_graph]. by rewrite H. Qed.

(** A new run stops before the approval. *)
Lemma run_from_start limit st w : waiting st -> awaiting parse_pdf st (run_graph (S (S (S (S limit)))) report_graph None parse_pdf st w).
Proof.
  intros H. apply (run_step _ _ retrieve_context); [set_solver|done|done|]. intros st1 w1 H1.
  apply (run_step _ _ analyze); [set_solver|done|done|]. intros. by apply run_analyze.
Qed.

(** Resumed with an approval, the run writes the report or raises. *)
Lemma run_approved limit feedback st w : waiting st ->
  let '(e, cp, _) := run_graph (S (S limit)) report_graph (Some (decision_json Approved feedback)) request_approval st w in
  match e with
  | Finished => text_of "report_path" (cp_values cp) <> [] /\ cp_next cp = None
  | Interrupted _ => False
  | Raised _ => cp_next cp = Some generate_report /\ text_of "report_path" (cp_values cp) = []
  end.
Proof.
  intros (Hr & Hp & _). cbn [run_graph g_run build]. unfold _request_approval. rewrite Hr.
  change (_parse_approval (decision_json Approved feedback)) with (@Ok report_error _ (Approved, feedback)). cbn [negb].
  set (upd := _ ++ _). assert (Hn : NoDup upd.*1) by (apply (bool_decide_unpack _); vm_compute; exact I).
  set (st1 := merge upd st). cbv beta iota.
  assert (Happ : opt_text "approval" st1 = Some (u "approved")).
  { unfold opt_text, st1. rewrite merge_get by done. reflexivity. }
  assert (Hg : g_next report_graph request_approval st1 = Some generate_report).
  { cbn [g_next build]. unfold _route_after_approval. by rewrite (bool_decide_eq_true_2 _ Happ). }
  rewrite Hg. cbn [g_next build].
  assert (Hp1 : text_of "report_path" st1 = []).
  { unfold text_of, st1 in *. rewrite merge_get by done. exact Hp. }
  unfold _generate_report. destruct (strip _) as [|c0 l0]; [by split|].
  destruct (write_text _ _ w) as [[[]|e] w1]; [|by split]. split; [|done]. cbn [cp_values].
  unfold text_of. rewrite merge_get by (apply NoDup_singleton). cbn [dict_get fst snd]. rewrite decide_True by done.
  unfold _resolve_output_path. destruct (text_of "output_path" st1) as [|c l].
  - intros [E _]%app_eq_nil. vm_compute in E. discriminate.
  - apply path_str_nonempty.
Qed.

(** Resumed with a rejection, the run is analysed again with the feedback while
    revisions are left, and ends without a report otherwise. *)
Lemma run_rejected limit feedback st w : waiting st ->
  let '(e, cp, _) := run_graph (S (S (S limit))) report_graph (Some (decision_json Rejected feedback)) request_approval st w in
  waiting (cp_values cp) /\ int_of "revision_count" 0 (cp_values cp) = int_of "revision_count" 0 st + 1 /\
  int_of "max_revisions" 2 (cp_values cp) = int_of "max_revisions" 2 st /\
  dict_get (u "owner_key_hash") (cp_values cp) = dict_get (u "owner_key_hash") st /\
  match e with
  | Finished => int_of "max_revisions" 2 st <= int_of "revision_count" 0 st + 1 /\ cp_next cp = None /\
      opt_text "approval" (cp_values cp) = Some (u "rejected")
  | Interrupted _ => int_of "revision_count" 0 st + 1 < int_of "max_revisions" 2 st /\ cp_next cp = Some request_approval
  | Raised _ => int_of "revision_count" 0 st + 1 < int_of "max_revisions" 2 st /\ cp_next cp <> None
  end.
Proof.
  intros (Hr & Hp & Hi).
  set (upd := [(u "approval", VStr (decision_text Rejected)); (u "feedback", VStr feedback)] ++
    [(u "revision_count", VInt (int_of "revision_count" 0 st + 1))]).
  assert (Hn : NoDup upd.*1) by (apply (bool_decide_unpack _); vm_compute; exact I).
  rewrite (run_graph_updates _ _ _ _ _ upd w).
  2: { cbn [g_run build]. unfold _request_approval. by rewrite Hr. }
  set (st1 := merge upd st).
  assert (Hget : forall k, dict_get k st1 = match dict_get k upd with Some v => Some v | None => dict_get k st end)
    by (intros k; unfold st1; by rewrite merge_get).
  assert (Hcount : int_of "revision_count" 0 st1 = int_of "revision_count" 0 st + 1) by (unfold int_of; by rewrite Hget).
  assert (Hmax : int_of "max_revisions" 2 st1 = int_of "max_revisions" 2 st) by (unfold int_of; by rewrite Hget).
  assert (Hown : dict_get (u "owner_key_hash") st1 = dict_get (u "owner_key_hash") st) by (by rewrite Hget).
  assert (Happ : opt_text "approval" st1 = Some (u "rejected")) by (unfold opt_text; by rewrite Hget).
  assert (Hw1 : waiting st1).
  { unfold waiting, requires_approval, text_of in *. rewrite !Hget. done. }
  assert (Hg : g_next report_graph request_approval st1 =
    if int_of "revision_count" 0 st + 1 <? int_of "max_revisions" 2 st then Some analyze else None).
  { cbn [g_next build]. unfold _route_after_approval. rewrite Happ, bool_decide_eq_false_2, Hcount, Hmax; [done|].
    intros E. by vm_compute in E. }
  rewrite Hg. destruct (_ <? _) eqn:Elt; bools.
  - pose proof (run_analyze limit st1 w Hw1) as Ha.
    destruct (run_graph (S (S limit)) report_graph None analyze st1 w) as [[e cp] w2].
    destruct Ha as [Hs He]. split_and!.
    + by eapply waiting_same.
    + by rewrite (same_count _ _ Hs).
    + by rewrite (same_max _ _ Hs).
    + rewrite (Hs (u "owner_key_hash")); [done|]. apply input_in. vm_compute. reflexivity.
    + by destruct e.
  - cbn [cp_values cp_next]. split_and!; done.
Qed.
End Graph.

(** ** The repository *)

Lemma repo_get_cons t o r repo :
  repo_get t o (r :: repo) = if base.decide (run_key r = (t, o)) then Some r else repo_get t o repo.
Proof.
  unfold repo_get. cbn [list_find]. destruct (base.decide (run_key r = (t, o))); [done|].
  by destruct (list_find _ repo) as [[? ?]|].
Qed.

Lemma repo_get_put t o run repo :
  repo_get t o (put run repo) = if base.decide (run_key run = (t, o)) then Some run else repo_get t o repo.
Proof.
  induction repo as [|r repo IH]; cbn [put]; [apply repo_get_cons|].
  destruct (base.decide (run_key r = run_key run)) as [E|E].
  - rewrite !repo_get_cons, E. by destruct (base.decide _).
  - rewrite !repo_get_cons, IH. destruct (base.decide (run_key r = (t, o))), (base.decide (run_key run = (t, o))); congruence.
Qed.

Lemma repo_get_key t o repo run : repo_get t o repo = Some run -> run_key run = (t, o).
Proof.
  induction repo as [|r repo IH]; [done|]. rewrite repo_get_cons. destruct (base.decide _) as [E|E]; [|done]. by intros [= <-].
Qed.

(** [update] of a run that is stored *)
Lemma run_update_stored now run old repo : repo_get (run_thread_id run) (run_owner_key_hash run) repo = Some old ->
  repo_update now run repo =
    (Some (with_times (run_created_at run) (Some now) run), put (with_times (run_created_at run) (Some now) run) repo).
Proof. intros H. unfold repo_update. by rewrite H. Qed.

(** [claim] on every branch *)
Lemma claim_spec now t o repo :
  match claim now t o repo with
  | (Ok run, repo') => exists old, repo_get t o repo = Some old /\ run_status old = WorkflowRunStatus.PENDING_APPROVAL /\
      run = with_status WorkflowRunStatus.RUNNING WorkflowRunStage.STARTING (Some now) old /\ repo' = put run repo
  | (Err e, repo') => repo' = repo /\
      ((repo_get t o repo = None /\ e = WorkflowNotFoundError (u "Workflow not found.")) \/
       (exists old, repo_get t o repo = Some old /\ run_status old <> WorkflowRunStatus.PENDING_APPROVAL /\
          e = ConflictError (u "Workflow is not awaiting approval.")))
  end.
Proof.
  unfold claim, update_status_if. destruct (repo_get t o repo) as [old|] eqn:E.
  - case_bool_decide as Hs; [by exists old|]. rewrite E. split; [done|]. right. by exists old.
  - rewrite E. split; [done|]. by left.
Qed.

(** ** The service over the graph *)

Section Service.
Context {W S : Type} (extract : pystr -> W -> result report_error ExtractedPdf * W)
  (retrieve : pystr -> pystr -> W -> result report_error RetrievedContext * W)
  (model_complete : list (pystr * pystr) -> option pystr -> W -> result report_error ReportCompletion * W)
  (write_text : pystr -> pystr -> W -> result report_error unit * W) (workflow : PDFReportWorkflow).
Context (lib : langgraph W S) (mkdir : pystr -> W -> result report_error unit * W)
  (write_bytes : pystr -> list N -> W -> result report_error unit * W)
  (unlink : pystr -> W -> W) (read_report : pystr -> W -> option pystr) (self : service_config).
Abbreviation report_graph := (build extract retrieve model_complete write_text workflow).

(** LangGraph's documented behaviour: a call of the compiled graph goes as
    [run_graph] says with the recursion limit of 25, a run of a thread continues from
    the checkpoint of that thread, and leaves its last one. *)
Definition goes (saved : pystr -> S -> option checkpoint) (t : pystr) (s : S)
    (call : result report_error PDFReportState * S * W) (run : graph_end * checkpoint * W) : Prop :=
  let '(r, s', w) := call in
  let '(e, cp, w') := run in
  r = answer e cp /\ w = w' /\ saved t s' = Some cp /\ forall t', t' <> t -> saved t' s' = saved t' s.

Class LangGraphLaws := {
  saved : pystr -> S -> option checkpoint;
  saved_state : forall t s, aget_state lib t s = default [] (cp_values <$> saved t s);
  initial_run : forall st t s w, goes saved t s (ainvoke lib (Initial st) t s w)
    (run_graph 25 report_graph None (g_start report_graph) (merge st (default [] (cp_values <$> saved t s))) w);
  resumed_run : forall v t s w st n, saved t s = Some (mkCheckpoint st (Some n)) ->
    goes saved t s (ainvoke lib (Resume v) t s w) (run_graph 25 report_graph (Some v) n st w)
}.
Context `{LangGraphLaws}.

(** The thread waits for a decision; [rev] rejections came before. *)
Definition waits (t : pystr) (rev : Z) (s : S) : Prop :=
  exists st, saved t s = Some (mkCheckpoint st (Some request_approval)) /\ waiting st /\
    int_of "revision_count" 0 st = rev /\ (rev = 0 \/ 0 < rev < int_of "max_revisions" 2 st).

Definition report_exists (t : pystr) (s : S) : Prop :=
  exists cp, saved t s = Some cp /\ text_of "report_path" (cp_values cp) <> [].

(** What the repository holds for the run after its graph has run *)
Definition recorded (now : Z) (run : WorkflowRun) (repo repo' : run_repository) (r : result report_error WorkflowStatusView)
    (status : WorkflowRunStatus.t) : Prop :=
  (forall t o, (t, o) <> run_key run -> repo_get t o repo' = repo_get t o repo) /\
  match r with
  | Ok view => repo_get (run_thread_id run) (run_owner_key_hash run) repo' = Some (vw_run view) /\ run_status (vw_run view) = status /\
      run_error_code (vw_run view) = None
  | Err CancelledError => repo' = repo
  | Err e => exists run', repo_get (run_thread_id run) (run_owner_key_hash run) repo' = Some run' /\
      run_status run' = WorkflowRunStatus.FAILED /\ run_error_code run' = Some (_safe_error e).1 /\
      run_error_message run' = Some (_safe_error e).2
  end.

Lemma conclude_spec now run old (s : service_state W S) (r : result report_error PDFReportState) : repo_get (run_thread_id run) (run_owner_key_hash run) (st_repo s) = Some old ->
  let '(r', s') := conclude read_report self now run s r in
  recorded now run (st_repo s) (st_repo s') r' (match r with Ok result => (final_status result).1 | Err _ => run_status run end) /\
  st_store s' = st_store s /\ match r, r' with Ok _, Ok _ => True | Err e, Err e' => e = e' | _, _ => False end.
Proof.
  intros Hold. unfold conclude. destruct r as [result|e].
  - unfold _view_from_result, _finalize_run. destruct (final_status result) as [status stage].
    rewrite (run_update_stored _ _ old) by exact Hold. cbn [default st_repo st_store]. unfold recorded. split_and!; try done.
    + intros t o Hne. rewrite repo_get_put, decide_False; [done|]. intros E. apply Hne. symmetry. exact E.
    + rewrite repo_get_put, decide_True by done. done.
  - cbn [st_repo st_store]. unfold recorded. split_and!; try done.
    + destruct (is_exception e); [|done]. intros t o Hne. unfold _record_failure. destruct (_safe_error e) as [code message].
      rewrite (run_update_stored _ _ old) by exact Hold. cbn [snd].
      rewrite repo_get_put, decide_False; [done|]. intros E. apply Hne. symmetry. exact E.
    + unfold _record_failure. destruct (_safe_error e) as [code message] eqn:Ee.
      rewrite (run_update_stored _ _ old) by exact Hold. cbn [snd].
      destruct e; try done; cbn [is_exception]; eexists; rewrite repo_get_put, decide_True by done; split_and!; done.
Qed.

Lemma text_of_snoc key k x (st : PDFReportState) : bool_decide (u key = k) = false -> text_of key (st ++ [(k, x)]) = text_of key st.
Proof.
  intros Hk. apply bool_decide_eq_false in Hk. assert (Hd : dict_get (u key) (st ++ [(k, x)]) = dict_get (u key) st).
  { induction st as [|[k' y] st IH]; cbn [app dict_get]; [by rewrite decide_False|]. by rewrite IH. }
  unfold text_of. by rewrite Hd.
Qed.
Lemma interrupt_snoc x (st : PDFReportState) : dict_get (u "__interrupt__") st = None ->
  dict_get (u "__interrupt__") (st ++ [(u "__interrupt__", x)]) = Some x.
Proof.
  induction st as [|[k' y] st IH]; cbn [app dict_get]; [by rewrite decide_True|]. destruct (base.decide _); [done|exact IH].
Qed.

Lemma final_status_interrupted payload cp : waiting (cp_values cp) ->
  (final_status (cp_values cp ++ [(u "__interrupt__", VInterrupt payload)])).1 = WorkflowRunStatus.PENDING_APPROVAL.
Proof.
  intros (_ & Hp & Hi). unfold final_status. rewrite text_of_snoc, Hp by (vm_compute; reflexivity). by rewrite interrupt_snoc.
Qed.

(** What [resume_claimed] does to a waiting thread *)
Lemma resume_spec now d feedback run old s rev :
  repo_get (run_thread_id run) (run_owner_key_hash run) (st_repo s) = Some old -> waits (run_thread_id run) rev (st_store s) ->
  let '(r, s') := resume_claimed lib read_report self now d feedback run s in
  (forall t, t <> run_thread_id run -> saved t (st_store s') = saved t (st_store s)) /\
  exists status, recorded now run (st_repo s) (st_repo s') r status /\
  match d, r with
  | Approved, Ok _ => status = WorkflowRunStatus.COMPLETED /\ report_exists (run_thread_id run) (st_store s')
  | Approved, Err _ => ~ report_exists (run_thread_id run) (st_store s')
  | Rejected, Ok _ => ~ report_exists (run_thread_id run) (st_store s') /\
      ((status = WorkflowRunStatus.PENDING_APPROVAL /\ waits (run_thread_id run) (rev + 1) (st_store s')) \/
       status = WorkflowRunStatus.REJECTED)
  | Rejected, Err _ => ~ report_exists (run_thread_id run) (st_store s')
  end.
Proof.
  intros Hold (st & Hsaved & Hw & Hrev & Hbound). unfold resume_claimed, _invoke.
  pose proof (resumed_run (decision_json d feedback) (run_thread_id run) (st_store s) (st_world s) st request_approval Hsaved) as Hgo.
  destruct (ainvoke lib _ _ _ _) as [[r0 store] w]. unfold goes in Hgo.
  destruct (run_graph 25 _ _ _ st (st_world s)) as [[e cp] w'] eqn:Erun. destruct Hgo as (-> & <- & Hcp & Hothers).
  pose proof (conclude_spec now run old (mkState (st_repo s) store w) (answer e cp) Hold) as Hc.
  destruct (conclude read_report self now run _ (answer e cp)) as [r s'] eqn:Econ. destruct Hc as (Hrec & Hstore & Hmatch).
  cbn [st_repo st_store] in Hrec, Hstore. rewrite Hstore. split; [exact Hothers|].
  assert (Hno : text_of "report_path" (cp_values cp) = [] -> ~ report_exists (run_thread_id run) store).
  { intros Hp (cp' & Hcp' & Hne). rewrite Hcp in Hcp'. injection Hcp' as <-. done. }
  eexists. split; [exact Hrec|]. destruct d.
  - pose proof (run_approved extract retrieve model_complete write_text workflow 23 feedback st (st_world s) Hw) as Ha.
    rewrite Erun in Ha. destruct e as [|payload|e]; cbn [answer] in Hmatch |- *; [|done|].
    + destruct r; [|done]. destruct Ha as [Hp _]. unfold final_status. destruct (text_of "report_path" (cp_values cp)) eqn:E; [done|].
      split; [done|]. exists cp. split; [done|]. by rewrite E.
    + destruct r; [done|]. apply Hno, Ha.
  - pose proof (run_rejected extract retrieve model_complete write_text workflow 22 feedback st (st_world s) Hw) as Hr.
    rewrite Erun in Hr. destruct Hr as (Hwcp & Hcount & Hmax & _ & He).
    assert (Hp : text_of "report_path" (cp_values cp) = []) by apply Hwcp.
    destruct e as [|payload|e]; cbn [answer] in Hmatch |- *; (destruct r; [|done]) || (destruct r; [done|]); [| |by apply Hno].
    + split; [by apply Hno|]. right. destruct He as (_ & _ & Happ). destruct Hwcp as (_ & _ & Hi).
      unfold final_status. rewrite Hp, Hi, Happ. by rewrite bool_decide_eq_true_2.
    + split; [by apply Hno|]. left. split; [by apply final_status_interrupted|]. destruct He as [Hlt Hnext].
      exists (cp_values cp). split_and!; [rewrite Hcp; f_equal; destruct cp; cbn in Hnext |- *; by rewrite Hnext|done|lia|].
      right. rewrite Hmax. destruct Hbound; lia.
Qed.

Lemma initial_run_fresh st t s w : saved t s = None ->
  goes saved t s (ainvoke lib (Initial st) t s w) (run_graph 25 report_graph None parse_pdf (merge st []) w).
Proof. intros Hs. pose proof (initial_run st t s w) as Hgo. rewrite Hs in Hgo. exact Hgo. Qed.

Lemma initial_waiting pdf_path topic owner model output max_revisions :
  let st := merge (initial_state pdf_path topic owner model output true max_revisions) [] in
  waiting st /\ int_of "revision_count" 0 st = 0.
Proof.
  cbv zeta. set (init := initial_state _ _ _ _ _ _ _).
  assert (Hn : NoDup init.*1) by (apply (bool_decide_unpack _); vm_compute; exact I).
  assert (Hget : forall k, dict_get k (merge init []) = dict_get k init).
  { intros k. rewrite merge_get by done. by destruct (dict_get k init). }
  unfold waiting, requires_approval, text_of, int_of. rewrite !Hget. done.
Qed.

(** What a call does to a thread [t] that was not there, for [owner] *)
Definition launched (t owner : pystr) (s s' : service_state W S) : Prop :=
  (forall t' o, t' <> t -> repo_get t' o (st_repo s') = repo_get t' o (st_repo s)) /\
  (forall t', t' <> t -> saved t' (st_store s') = saved t' (st_store s)) /\
  ~ report_exists t (st_store s') /\
  (forall o run, repo_get t o (st_repo s') = Some run -> o = owner /\
     (run_status run = WorkflowRunStatus.PENDING_APPROVAL -> waits t 0 (st_store s'))).

Lemma nothing_launched t owner s s' : (forall o, repo_get t o (st_repo s) = None) -> saved t (st_store s) = None ->
  st_repo s' = st_repo s -> st_store s' = st_store s -> launched t owner s s'.
Proof.
  intros Hrepo Hfresh Hr Hs. unfold launched. rewrite Hr, Hs. split_and!; [done|done| |].
  - intros (cp & Hcp & _). congruence.
  - intros o run Hg. by rewrite Hrepo in Hg.
Qed.

(** The part of [start] after the run was created: the graph runs and the outcome
    is recorded; [w'] is the world after the upload was removed. *)
Lemma launch_spec now created init s w (clean : W -> W) :
  run_status created = WorkflowRunStatus.RUNNING ->
  (forall o, repo_get (run_thread_id created) o (st_repo s) = None) -> saved (run_thread_id created) (st_store s) = None ->
  waiting (merge init []) -> int_of "revision_count" 0 (merge init []) = 0 ->
  let '(r, store, w') := ainvoke lib (Initial init) (run_thread_id created) (st_store s) w in
  launched (run_thread_id created) (run_owner_key_hash created) s
    (conclude read_report self now created (mkState (put created (st_repo s)) store (clean w')) r).2.
Proof.
  intros Hrunning Hrepo Hfresh Hw Hc0. set (t := run_thread_id created) in *.
  pose proof (initial_run_fresh init t (st_store s) w Hfresh) as Hgo.
  destruct (ainvoke lib _ t _ _) as [[r0 store] w3]. unfold goes in Hgo.
  pose proof (run_from_start extract retrieve model_complete write_text workflow 21 _ w Hw) as Hrun.
  destruct (run_graph 25 _ _ _ _ w) as [[e cp] w']. destruct Hgo as (-> & _ & Hcp & Hothers). destruct Hrun as [Hsame He].
  set (s1 := mkState (put created (st_repo s)) store _).
  assert (Hstored : repo_get t (run_owner_key_hash created) (st_repo s1) = Some created).
  { cbn [s1 st_repo]. by rewrite repo_get_put, decide_True. }
  pose proof (conclude_spec now created created s1 (answer e cp) Hstored) as Hcon.
  destruct (conclude read_report self now created s1 (answer e cp)) as [r s']. destruct Hcon as ((Hrother & Hrec) & Hstore & Hmatch).
  change (st_store s1) with store in Hstore. cbn [snd]. unfold launched. rewrite Hstore.
  assert (Hcreated : forall t' o, (t', o) <> run_key created -> repo_get t' o (st_repo s') = repo_get t' o (st_repo s)).
  { intros t' o Hk. rewrite Hrother by done. cbn [s1 st_repo]. rewrite repo_get_put, decide_False; [done|]. congruence. }
  assert (Hwcp : waiting (cp_values cp)) by (by eapply waiting_same).
  split_and!.
  - intros t' o Ht. apply Hcreated. intros [= E _]. done.
  - exact Hothers.
  - intros (cp' & Hcp' & Hp). rewrite Hcp in Hcp'. injection Hcp' as <-. apply Hp, Hwcp.
  - intros o run Hg. destruct (base.decide ((t, o) = run_key created)) as [E|E]; [|by rewrite Hcreated, Hrepo in Hg].
    injection E as ->. split; [done|]. intros Hpend. destruct e as [|payload|e]; cbn [answer] in Hmatch, Hrec; [done| |].
    + exists (cp_values cp). split_and!; [rewrite Hcp; f_equal; destruct cp; cbn in He |- *; by rewrite He|done| |by left].
      by rewrite (same_count _ _ Hsame).
    + exfalso. destruct r as [|e']; [done|]. subst e'. subst t.
      assert (Hx : run = created \/ run_status run = WorkflowRunStatus.FAILED).
      { destruct e; try (destruct Hrec as (run' & Hg' & Hs & _); right; congruence). left. rewrite Hrec in Hg. congruence. }
      destruct Hx as [->|Hx]; congruence.
Qed.

(** A run that needs an approval, started in a fresh thread, waits for the decision
    or has failed. *)
Lemma start_launches now uuid4 pdf_bytes filename owner topic model max_revisions (s : service_state W S) :
  (forall o, repo_get uuid4 o (st_repo s) = None) -> saved uuid4 (st_store s) = None ->
  launched uuid4 owner s
    (start lib mkdir write_bytes unlink read_report self now uuid4 pdf_bytes filename owner topic model true max_revisions None s).2.
Proof.
  intros Hrepo Hfresh. unfold start. destruct (_ <? _); [by apply nothing_launched|].
  destruct (mkdir _ (st_world s)) as [[[]|e] w1]; [|by apply nothing_launched].
  destruct (write_bytes _ _ w1) as [[[]|e] w2]; [|by apply nothing_launched].
  unfold repo_create, _invoke. set (init := initial_state _ _ _ _ _ _ _). cbn [st_store st_world st_repo].
  pose proof (initial_waiting _ _ _ _ _ _ : let st := merge init [] in waiting st /\ _) as [Hw Hc0]. clearbody init.
  set (created := with_times _ _ _).
  pose proof (launch_spec now created init s w2 (unlink (in_dir (in_dir (sv_work_dir self) uuid4) (normalize_pdf_filename filename)))
    eq_refl Hrepo Hfresh Hw Hc0) as Hl.
  change (run_thread_id created) with uuid4 in Hl. change (run_owner_key_hash created) with owner in Hl.
  destruct (ainvoke lib _ uuid4 _ w2) as [[r store] w3]. exact Hl.
Qed.

(** ** Interleaved calls *)

(** The service, the decisions that were claimed and whose graph has not ended, and
    every approval that was claimed, by thread and owner. *)
Record system := mkSystem {
  sys_state : service_state W S;
  sys_deciding : list (WorkflowRun * decision * pystr);
  sys_approved : list (pystr * pystr)
}.

Definition deciding_key (x : WorkflowRun * decision * pystr) : pystr * pystr := run_key x.1.1.

Inductive step : system -> system -> Prop :=
| step_start now uuid4 pdf_bytes filename owner topic model max_revisions sys :
    (forall o, repo_get uuid4 o (st_repo (sys_state sys)) = None) -> saved uuid4 (st_store (sys_state sys)) = None ->
    step sys (mkSystem
      (start lib mkdir write_bytes unlink read_report self now uuid4 pdf_bytes filename owner topic model true max_revisions None (sys_state sys)).2
      (sys_deciding sys) (sys_approved sys))
| step_claim now d feedback thread_id owner sys run repo :
    claim now thread_id owner (st_repo (sys_state sys)) = (Ok run, repo) ->
    step sys (mkSystem (mkState repo (st_store (sys_state sys)) (st_world (sys_state sys)))
      ((run, d, feedback) :: sys_deciding sys)
      (match d with Approved => (thread_id, owner) :: sys_approved sys | Rejected => sys_approved sys end))
| step_refused now thread_id owner sys e repo :
    claim now thread_id owner (st_repo (sys_state sys)) = (Err e, repo) ->
    step sys (mkSystem (mkState repo (st_store (sys_state sys)) (st_world (sys_state sys))) (sys_deciding sys) (sys_approved sys))
| step_finish now run d feedback before after sys :
    sys_deciding sys = before ++ (run, d, feedback) :: after ->
    step sys (mkSystem (resume_claimed lib read_report self now d feedback run (sys_state sys)).2 (before ++ after) (sys_approved sys)).

Definition empty_system (store : S) (w : W) : system := mkSystem (mkState [] store w) [] [].

Inductive reachable (store : S) (w : W) : system -> Prop :=
| reachable_empty : reachable store w (empty_system store w)
| reachable_step sys sys' : reachable store w sys -> step sys sys' -> reachable store w sys'.

(** A run that somebody decides is RUNNING and its thread still waits. *)
Definition being_decided (s : service_state W S) (x : WorkflowRun * decision * pystr) : Prop :=
  repo_get (run_thread_id x.1.1) (run_owner_key_hash x.1.1) (st_repo s) = Some x.1.1 /\
  run_status x.1.1 = WorkflowRunStatus.RUNNING /\ exists rev, waits (run_thread_id x.1.1) rev (st_store s).

Record good (sys : system) : Prop := mkGood {
  good_owner : forall t o o' r r', repo_get t o (st_repo (sys_state sys)) = Some r -> repo_get t o' (st_repo (sys_state sys)) = Some r' -> o = o';
  good_pending : forall t o r, repo_get t o (st_repo (sys_state sys)) = Some r ->
    run_status r = WorkflowRunStatus.PENDING_APPROVAL -> exists rev, waits t rev (st_store (sys_state sys));
  good_deciding : Forall (being_decided (sys_state sys)) (sys_deciding sys);
  good_exclusive : NoDup (deciding_key <$> sys_deciding sys);
  good_approvals : forall run feedback, (run, Approved, feedback) ∈ sys_deciding sys -> run_key run ∈ sys_approved sys;
  good_report : forall t, report_exists t (st_store (sys_state sys)) ->
    exists o r, (t, o) ∈ sys_approved sys /\ repo_get t o (st_repo (sys_state sys)) = Some r
}.

Lemma waits_same t rev s s' : saved t s' = saved t s -> waits t rev s -> waits t rev s'.
Proof. intros E. unfold waits. by rewrite E. Qed.
Lemma report_same t s s' : saved t s' = saved t s -> report_exists t s' -> report_exists t s.
Proof. intros E. unfold report_exists. by rewrite E. Qed.

Lemma good_start uuid4 owner sys s' :
  (forall o, repo_get uuid4 o (st_repo (sys_state sys)) = None) -> launched uuid4 owner (sys_state sys) s' ->
  good sys -> good (mkSystem s' (sys_deciding sys) (sys_approved sys)).
Proof.
  intros Hfree (Hr & Hs & Hno & Hnew) [Gown Gpend Gdec Gex Gapp Grep].
  split; cbn [sys_state sys_deciding sys_approved].
  - intros t o o' r r'. destruct (base.decide (t = uuid4)) as [->|Ht]; [|rewrite !Hr by done; apply Gown].
    intros [-> _]%Hnew [-> _]%Hnew. done.
  - intros t o r. destruct (base.decide (t = uuid4)) as [->|Ht]; [intros [_ H1]%Hnew H2; eauto|].
    rewrite Hr by done. intros H1 H2. destruct (Gpend _ _ _ H1 H2) as [rev Hw]. exists rev. by eapply waits_same; [apply Hs|].
  - eapply Forall_impl; [exact Gdec|]. intros x (H1 & H2 & rev & H3).
    assert (Ht : run_thread_id x.1.1 <> uuid4) by (intros E; rewrite E, Hfree in H1; done).
    split_and!; [by rewrite Hr|done|]. exists rev. by eapply waits_same; [apply Hs|].
  - done.
  - done.
  - intros t Ht. destruct (base.decide (t = uuid4)) as [->|Hne]; [done|]. apply (report_same _ (st_store (sys_state sys))) in Ht; [|by apply Hs].
    destruct (Grep t Ht) as (o & r & ? & ?). exists o, r. by rewrite Hr.
Qed.

Lemma good_claim now d feedback thread_id owner sys run repo :
  claim now thread_id owner (st_repo (sys_state sys)) = (Ok run, repo) -> good sys ->
  good (mkSystem (mkState repo (st_store (sys_state sys)) (st_world (sys_state sys))) ((run, d, feedback) :: sys_deciding sys)
    (match d with Approved => (thread_id, owner) :: sys_approved sys | Rejected => sys_approved sys end)).
Proof.
  intros Hc [Gown Gpend Gdec Gex Gapp Grep]. pose proof (claim_spec now thread_id owner (st_repo (sys_state sys))) as Hspec.
  rewrite Hc in Hspec. destruct Hspec as (old & Hold & Hpending & Hrun & ->).
  assert (Hkey : run_key run = (thread_id, owner)) by (rewrite Hrun; exact (repo_get_key _ _ _ _ Hold)).
  assert (Hget : forall t o, repo_get t o (put run (st_repo (sys_state sys))) =
    if base.decide ((thread_id, owner) = (t, o)) then Some run else repo_get t o (st_repo (sys_state sys))) by (intros; by rewrite repo_get_put, Hkey).
  assert (Hstored : forall t o r, repo_get t o (put run (st_repo (sys_state sys))) = Some r -> exists r', repo_get t o (st_repo (sys_state sys)) = Some r').
  { intros t o r. rewrite Hget. destruct (base.decide _) as [[= <- <-]|]; eauto. }
  assert (Hfree : forall x, x ∈ sys_deciding sys -> deciding_key x <> (thread_id, owner)).
  { intros x Hx E. rewrite Forall_forall in Gdec. destruct (Gdec x Hx) as (H1 & H2 & _).
    unfold deciding_key, run_key in E. injection E as E1 E2. rewrite E1, E2, Hold in H1. injection H1 as H1. congruence. }
  split; cbn [sys_state sys_deciding sys_approved st_repo st_store].
  - intros t o o' r r' (r1 & H1)%Hstored (r2 & H2)%Hstored. by eapply Gown.
  - intros t o r. rewrite Hget. destruct (base.decide _); [|apply Gpend]. intros [= <-]. by rewrite Hrun.
  - constructor.
    + unfold run_key in Hkey. injection Hkey as E1 E2. unfold being_decided. cbn [fst]. rewrite E1, E2. split_and!.
      * cbn [st_repo]. rewrite Hget. by rewrite decide_True.
      * by rewrite Hrun.
      * by eapply Gpend.
    + rewrite Forall_forall in Gdec |- *. intros x Hx. destruct (Gdec x Hx) as (H1 & H2 & H3). split_and!; [|done|done].
      cbn [st_repo]. rewrite Hget, decide_False; [done|]. intros E. apply (Hfree x Hx). symmetry. exact E.
  - cbn [fmap list_fmap]. constructor; [|done]. intros (x & Hx & Hin)%list_elem_of_fmap. apply (Hfree x Hin).
    rewrite <- Hx. exact Hkey.
  - intros run' fb [[= -> <- ->]|Hin]%elem_of_cons; [rewrite Hkey; by left|]. destruct d; [right|]; by eapply Gapp.
  - intros t Ht. destruct (Grep t Ht) as (o & r & H1 & H2).
    assert (Hx : exists r', repo_get t o (put run (st_repo (sys_state sys))) = Some r') by (rewrite Hget; destruct (base.decide _); eauto).
    destruct Hx as [r' Hr']. exists o, r'. split; [|done]. destruct d; [by right|done].
Qed.

Lemma good_finish now run d feedback before after sys :
  sys_deciding sys = before ++ (run, d, feedback) :: after -> good sys ->
  good (mkSystem (resume_claimed lib read_report self now d feedback run (sys_state sys)).2 (before ++ after) (sys_approved sys)).
Proof.
  intros Hlist [Gown Gpend Gdec Gex Gapp Grep].
  assert (Hmem : forall x, x ∈ before ++ after -> x ∈ sys_deciding sys) by (intros x; rewrite Hlist; set_solver).
  assert (Hin : (run, d, feedback) ∈ sys_deciding sys) by (rewrite Hlist; set_solver).
  rewrite Forall_forall in Gdec. destruct (Gdec _ Hin) as (Hstored & Hrunning & rev & Hwait). cbn [fst] in Hstored, Hrunning, Hwait.
  pose proof (resume_spec now d feedback run run (sys_state sys) rev Hstored Hwait) as Hres.
  destruct (resume_claimed lib read_report self now d feedback run (sys_state sys)) as [r s'].
  destruct Hres as (Hsaved & status & (Hother & Hrec) & Hout). cbn [snd].
  assert (Hkeys : forall x, x ∈ before ++ after -> deciding_key x <> run_key run).
  { intros x Hx E. rewrite Hlist, fmap_app, fmap_cons in Gex. apply NoDup_app in Gex as (_ & Hd & Hn). apply NoDup_cons in Hn as [Hn _].
    change (deciding_key (run, d, feedback)) with (run_key run) in *. apply elem_of_app in Hx as [Hx|Hx].
    - apply (Hd (run_key run)); [|by left]. rewrite <- E. by apply list_elem_of_fmap_2.
    - apply Hn. rewrite <- E. by apply list_elem_of_fmap_2. }
  assert (Hold : forall t o r', repo_get t o (st_repo s') = Some r' -> exists r0, repo_get t o (st_repo (sys_state sys)) = Some r0).
  { intros t o r' Hg. destruct (base.decide ((t, o) = run_key run)) as [[= -> ->]|E]; [eauto|]. rewrite Hother in Hg by done. eauto. }
  assert (Hown : forall t o r', (t, o) <> run_key run -> repo_get t o (st_repo s') = Some r' -> t <> run_thread_id run).
  { intros t o r' E Hg ->. rewrite Hother in Hg by done. apply E. unfold run_key. f_equal. by eapply Gown. }
  assert (Hself : exists r', repo_get (run_thread_id run) (run_owner_key_hash run) (st_repo s') = Some r').
  { destruct r as [view|e]; [destruct Hrec as [? _]; eauto|].
    destruct e; try (destruct Hrec as (? & ? & _); by eauto). rewrite Hrec. eauto. }
  split; cbn [sys_state sys_deciding sys_approved].
  - intros t o o' r1 r2 [x1 H1]%Hold [x2 H2]%Hold. by eapply Gown.
  - intros t o r' Hg Hpending. destruct (base.decide ((t, o) = run_key run)) as [[= -> ->]|E].
    + destruct r as [view|e].
      * destruct Hrec as (Hg' & Hst & _). rewrite Hg in Hg'. injection Hg' as ->. rewrite Hst in Hpending.
        destruct d; [destruct Hout as [-> _]; done|]. destruct Hout as [_ [[_ Hw]| ->]]; [eauto|done].
      * exfalso. destruct e; try (destruct Hrec as (r1 & Hg' & Hst & _); congruence). rewrite Hrec in Hg. congruence.
    + assert (Hthread := Hown _ _ _ E Hg). rewrite Hother in Hg by done. destruct (Gpend _ _ _ Hg Hpending) as [rev' Hw].
      exists rev'. by eapply waits_same; [apply Hsaved|].
  - apply Forall_forall. intros x Hx. destruct (Gdec x (Hmem x Hx)) as (H1 & H2 & rev' & H3).
    assert (E : (run_thread_id x.1.1, run_owner_key_hash x.1.1) <> run_key run) by exact (Hkeys x Hx).
    assert (Hg : repo_get (run_thread_id x.1.1) (run_owner_key_hash x.1.1) (st_repo s') = Some x.1.1) by (by rewrite Hother).
    split_and!; [done|done|]. exists rev'. eapply waits_same; [apply Hsaved; by eapply Hown|done].
  - rewrite Hlist, fmap_app, fmap_cons in Gex. rewrite fmap_app. apply NoDup_app in Gex as (G1 & G2 & G3). apply NoDup_cons in G3 as [_ G3].
    apply NoDup_app. split_and!; [done| |done]. intros k Hk1 Hk2. apply (G2 k Hk1). by right.
  - intros run' fb Hx. eapply Gapp, Hmem, Hx.
  - intros t Ht. destruct (base.decide (t = run_thread_id run)) as [->|Hne].
    + destruct d; [|destruct r; destruct Hout as [? _] || idtac; done].
      destruct Hself as [r' Hr']. exists (run_owner_key_hash run), r'. split; [|done]. exact (Gapp _ _ Hin).
    + apply (report_same _ (st_store (sys_state sys))) in Ht; [|by apply Hsaved]. destruct (Grep t Ht) as (o & r0 & H1 & H2).
      exists o, r0. rewrite Hother; [done|]. unfold run_key. congruence.
Qed.

Lemma reachable_good store w sys : (forall t, ~ report_exists t store) -> reachable store w sys -> good sys.
Proof.
  intros Hstore. induction 1 as [|sys sys' _ IH Hstep].
  - split; cbn; [done|done|constructor|constructor|by intros ? ? Hin%elem_of_nil|by intros t Ht%Hstore].
  - destruct Hstep as [now uuid4 b f owner tp m mr sys H1 H2|now d fb t o sys run repo Hc|now t o sys e repo Hc|now run d fb before after sys Hl].
    + eapply good_start; [exact H1| |done]. by apply start_launches.
    + by eapply good_claim.
    + pose proof (claim_spec now t o (st_repo (sys_state sys))) as Hs. rewrite Hc in Hs. destruct Hs as [-> _].
      destruct sys as [[repo0 store0 w0] dec appr]. exact IH.
    + by apply good_finish.
Qed.

(** C24. Whatever calls are made and however they interleave: at most one decision
    is being taken for a run, and as long as it is, every other approval or
    rejection of that run is refused as a conflict without any effect.  A run that
    is shown as pending waits at the approval, without a report, and the rejections
    so far are none or fewer than the revisions it allows. *)
Theorem decisions_are_exclusive store w sys : (forall t, ~ report_exists t store) -> reachable store w sys ->
  let repo := st_repo (sys_state sys) in
  NoDup (deciding_key <$> sys_deciding sys) /\
  (forall run d feedback now, (run, d, feedback) ∈ sys_deciding sys ->
     claim now (run_thread_id run) (run_owner_key_hash run) repo =
       (Err (ConflictError (u "Workflow is not awaiting approval.")), repo)) /\
  (forall t o r, repo_get t o repo = Some r -> run_status r = WorkflowRunStatus.PENDING_APPROVAL ->
     ~ report_exists t (st_store (sys_state sys)) /\ exists rev, waits t rev (st_store (sys_state sys))).
Proof.
  intros Hs Hr. cbv zeta. destruct (reachable_good _ _ _ Hs Hr) as [_ Gpend Gdec Gex _ _]. split_and!; [done| |].
  - intros run d feedback now Hx. rewrite Forall_forall in Gdec. destruct (Gdec _ Hx) as (H1 & H2 & _). cbn [fst] in H1, H2.
    pose proof (claim_spec now (run_thread_id run) (run_owner_key_hash run) (st_repo (sys_state sys))) as Hc.
    destruct (claim _ _ _ _) as [[run'|e] repo'].
    + destruct Hc as (old & Hold & Hp & _). congruence.
    + destruct Hc as (-> & [[Hn _]|(old & Hold & _ & ->)]); [congruence|done].
  - intros t o r Hg Hp. destruct (Gpend _ _ _ Hg Hp) as [rev Hw]. split; [|by exists rev].
    intros (cp & Hcp & Hne). destruct Hw as (st & Hst & (_ & Hempty & _) & _). rewrite Hst in Hcp. injection Hcp as <-. done.
Qed.


(** An approval or a rejection of a thread: for anybody who has no run there it
    is not found, for a run that is not pending it is a conflict, and both change
    nothing.  A pending run that is approved has its report and is completed; one
    that is rejected has no report and waits again after another revision, or is
    rejected for good when none is left; a run that fails is recorded as failed,
    with the public code and text of its error, and has no report. *)
Theorem decision_outcome now d feedback t owner (s : service_state W S) :
  (forall r, repo_get t owner (st_repo s) = Some r -> run_status r = WorkflowRunStatus.PENDING_APPROVAL -> exists rev, waits t rev (st_store s)) ->
  match repo_get t owner (st_repo s), decide lib read_report self now d feedback t owner s with
  | None, (r, s') => r = Err (WorkflowNotFoundError (u "Workflow not found.")) /\ s' = s
  | Some run, (r, s') =>
      if base.decide (run_status run = WorkflowRunStatus.PENDING_APPROVAL) then
        match r with
        | Ok view =>
            repo_get t owner (st_repo s') = Some (vw_run view) /\
            match d with
            | Approved => run_status (vw_run view) = WorkflowRunStatus.COMPLETED /\ report_exists t (st_store s')
            | Rejected => ~ report_exists t (st_store s') /\
                ((run_status (vw_run view) = WorkflowRunStatus.PENDING_APPROVAL /\ exists rev, waits t (rev + 1) (st_store s')) \/
                 run_status (vw_run view) = WorkflowRunStatus.REJECTED)
            end
        | Err e => ~ report_exists t (st_store s') /\ exists failed, repo_get t owner (st_repo s') = Some failed /\
            (e = CancelledError \/ (run_status failed = WorkflowRunStatus.FAILED /\
              run_error_code failed = Some (_safe_error e).1 /\ run_error_message failed = Some (_safe_error e).2))
        end
      else r = Err (ConflictError (u "Workflow is not awaiting approval.")) /\ s' = s
  end.
Proof.
  intros Hwaits. unfold decide. pose proof (claim_spec now t owner (st_repo s)) as Hc.
  assert (Heta : mkState (st_repo s) (st_store s) (st_world s) = s) by (by destruct s).
  destruct (claim now t owner (st_repo s)) as [[run|e] repo].
  - destruct Hc as (old & Hold & Hp & Hrun & ->). rewrite Hold. destruct (base.decide (run_status old = _)) as [_|Hbad]; [|done].
    destruct (Hwaits old Hold Hp) as [rev Hw]. pose proof (repo_get_key _ _ _ _ Hold) as Hk. unfold run_key in Hk. injection Hk as Ht Ho.
    assert (Hrt : run_thread_id run = t) by (by rewrite Hrun). assert (Hro : run_owner_key_hash run = owner) by (by rewrite Hrun).
    assert (Hnew : repo_get (run_thread_id run) (run_owner_key_hash run) (put run (st_repo s)) = Some run) by (by rewrite repo_get_put, decide_True).
    pose proof (resume_spec now d feedback run run (mkState (put run (st_repo s)) (st_store s) (st_world s)) rev Hnew) as Hres.
    cbn [st_store] in Hres. rewrite Hrt in Hres. specialize (Hres Hw).
    destruct (resume_claimed _ _ _ _ _ _ _ _) as [r s']. destruct Hres as (_ & status & (_ & Hrec) & Hout). rewrite Hrt, Hro in Hrec.
    destruct r as [view|e].
    + destruct Hrec as (Hg & Hst & _). split; [done|]. rewrite Hst. destruct d; [done|]. destruct Hout as [Hno [[H1 H2]|H1]]; eauto 6.
    + split; [by destruct d|]. destruct e; try (destruct Hrec as (failed & H1 & H2); exists failed; split; [done|by right]).
      exists run. rewrite Hrec. cbn [st_repo]. rewrite Hrt, Hro in Hnew. auto.
  - destruct Hc as [-> Hcase]. rewrite Heta. destruct Hcase as [[-> ->]|(old & -> & Hp & ->)]; [done|]. by rewrite decide_False.
Qed.
End Service.

(** ** LangGraph by its documentation *)

Section Reference.
Context {W : Type} (extract : pystr -> W -> result report_error ExtractedPdf * W)
  (retrieve : pystr -> pystr -> W -> result report_error RetrievedContext * W)
  (model_complete : list (pystr * pystr) -> option pystr -> W -> result report_error ReportCompletion * W)
  (write_text : pystr -> pystr -> W -> result report_error unit * W) (workflow : PDFReportWorkflow).
Abbreviation report_graph := (build extract retrieve model_complete write_text workflow).

(** A checkpointer that keeps the last checkpoint of each thread *)
Definition reference_invoke (input : graph_input) (t : pystr) (s : list (pystr * checkpoint)) (w : W)
  : result report_error PDFReportState * list (pystr * checkpoint) * W :=
  let values := default [] (cp_values <$> dict_get t s) in
  let '(e, cp, w) :=
    match input, dict_get t s with
    | Initial st, _ => run_graph 25 report_graph None (g_start report_graph) (merge st values) w
    | Resume v, Some (mkCheckpoint st (Some n)) => run_graph 25 report_graph (Some v) n st w
    | Resume _, _ => (Raised GraphRecursionError, mkCheckpoint values None, w)
    end in
  (answer e cp, dict_set t cp s, w).
Definition reference_langgraph : langgraph W (list (pystr * checkpoint)) :=
  mkLangGraph reference_invoke (fun t s => default [] (cp_values <$> dict_get t s)).

#[export] Instance reference_laws : LangGraphLaws extract retrieve model_complete write_text workflow reference_langgraph.
Proof.
  refine {| saved := dict_get |}; [done| |].
  - intros st t s w. unfold goes, reference_langgraph, ainvoke, reference_invoke.
    destruct (run_graph 25 _ _ _ _ w) as [[e cp] w']. split_and!; [done|done| |].
    + by rewrite dict_get_set, decide_True.
    + intros t' Hne. by rewrite dict_get_set, decide_False.
  - intros v t s w st n Hs. unfold goes, reference_langgraph, ainvoke, reference_invoke. rewrite Hs.
    destruct (run_graph 25 _ _ _ st w) as [[e cp] w']. split_and!; [done|done| |].
    + by rewrite dict_get_set, decide_True.
    + intros t' Hne. by rewrite dict_get_set, decide_False.
Defined.
End Reference.

(** ** A run with a rejection and an approval *)

Definition demo_extract (path : pystr) (w : nat) : result report_error ExtractedPdf * nat := (Ok (mkExtracted (u "a.pdf") (u "text") 1), w).
Definition demo_retrieve (query owner : pystr) (w : nat) : result report_error RetrievedContext * nat :=
  (Ok (mkContext query [] (Some (u "nothing found"))), w).
Definition demo_model (messages : list (pystr * pystr)) (model : option pystr) (w : nat) : result report_error ReportCompletion * nat :=
  (Ok (mkCompletion (u "draft") (u "m") None None), Datatypes.S w).
Definition demo_write (path text : pystr) (w : nat) : result report_error unit * nat := (Ok tt, w).
Definition demo_workflow : PDFReportWorkflow := mkWorkflow 30000 4000 12000.
Definition demo_lib : langgraph nat (list (pystr * checkpoint)) :=
  reference_langgraph demo_extract demo_retrieve demo_model demo_write demo_workflow.
Definition demo_mkdir (path : pystr) (w : nat) : result report_error unit * nat := (Ok tt, w).
Definition demo_write_bytes (path : pystr) (content : list N) (w : nat) : result report_error unit * nat := (Ok tt, w).
Definition demo_unlink (path : pystr) (w : nat) : nat := w.
Definition demo_read (path : pystr) (w : nat) : option pystr := Some (u "# report").
Definition demo_service : service_config := mkService (u "work") 100 50.
Definition demo_owner : pystr := u "owner".

Definition demo_state : Type := service_state nat (list (pystr * checkpoint)).
Definition demo_sys0 : system (W := nat) (S := list (pystr * checkpoint)) := empty_system [] 0%nat.
Definition demo_sys1 : system :=
  mkSystem (start demo_lib demo_mkdir demo_write_bytes demo_unlink demo_read demo_service 1 (u "t") [] (Some (u "x/../a.pdf")) demo_owner
     None None true 2 None (sys_state demo_sys0)).2 (sys_deciding demo_sys0) (sys_approved demo_sys0).
Definition demo_started : demo_state := sys_state demo_sys1.
Definition demo_rejected : demo_state :=
  (reject demo_lib demo_read demo_service 2 (u "t") demo_owner (u "shorter") demo_started).2.
Definition demo_approved : demo_state :=
  (approve demo_lib demo_read demo_service 3 (u "t") demo_owner demo_rejected).2.

(** A rejection with [max_revisions] 2 is analysed again; a second one would end
    the run. *)
Example demo_run :
  (run_status <$> st_repo demo_started, st_world demo_started) = ([WorkflowRunStatus.PENDING_APPROVAL], 1%nat) /\
  (run_status <$> st_repo demo_rejected, st_world demo_rejected) = ([WorkflowRunStatus.PENDING_APPROVAL], 2%nat) /\
  run_status <$> st_repo demo_approved = [WorkflowRunStatus.COMPLETED] /\
  run_status <$> st_repo (reject demo_lib demo_read demo_service 3 (u "t") demo_owner (u "again") demo_rejected).2 = [WorkflowRunStatus.REJECTED].
Proof. vm_compute. split_and!; reflexivity. Qed.

Abbreviation demo_step := (step demo_extract demo_retrieve demo_model demo_write demo_workflow demo_lib demo_mkdir demo_write_bytes
  demo_unlink demo_read demo_service).
Abbreviation demo_reachable := (reachable demo_extract demo_retrieve demo_model demo_write demo_workflow demo_lib demo_mkdir demo_write_bytes
  demo_unlink demo_read demo_service [] 0%nat).

Definition demo_claim : result report_error WorkflowRun * run_repository :=
  claim 2 (u "t") demo_owner (st_repo (sys_state demo_sys1)).
Definition demo_claimed_run : WorkflowRun :=
  match demo_claim.1 with
  | Ok r => r
  | Err _ => mkRun [] [] WorkflowRunStatus.RUNNING WorkflowRunStage.STARTING None None None None None None
  end.
Definition demo_sys2 : system :=
  mkSystem (mkState demo_claim.2 (st_store (sys_state demo_sys1)) (st_world (sys_state demo_sys1)))
    ((demo_claimed_run, Approved, []) :: sys_deciding demo_sys1) ((u "t", demo_owner) :: sys_approved demo_sys1).
Definition demo_sys3 : system :=
  mkSystem (resume_claimed demo_lib demo_read demo_service 3 Approved [] demo_claimed_run (sys_state demo_sys2)).2 ([] ++ [])
    (sys_approved demo_sys2).

Lemma demo_claim_ok :
  claim 2 (u "t") demo_owner (st_repo (sys_state demo_sys1)) = (Ok demo_claimed_run, demo_claim.2).
Proof. vm_compute. reflexivity. Qed.

Lemma demo_fresh_run o : repo_get (u "t") o (st_repo (sys_state demo_sys0)) = None.
Proof. reflexivity. Qed.
Lemma demo_fresh_thread : dict_get (u "t") (st_store (sys_state demo_sys0)) = None.
Proof. reflexivity. Qed.
Lemma demo_step1 : demo_step demo_sys0 demo_sys1.
Proof.
  exact (step_start _ _ _ _ _ _ _ _ _ _ _ 1 (u "t") [] (Some (u "x/../a.pdf")) demo_owner None None 2 demo_sys0
    demo_fresh_run demo_fresh_thread).
Qed.

Lemma demo_reachable0 : demo_reachable demo_sys0.
Proof. exact (reachable_empty _ _ _ _ _ _ _ _ _ _ _ _ _). Qed.
Lemma demo_reachable1 : demo_reachable demo_sys1.
Proof. exact (reachable_step _ _ _ _ _ _ _ _ _ _ _ _ _ demo_sys0 demo_sys1 demo_reachable0 demo_step1). Qed.

Lemma demo_step2 : demo_step demo_sys1 demo_sys2.
Proof. exact (step_claim _ _ _ _ _ _ _ _ _ _ _ 2 Approved [] (u "t") demo_owner demo_sys1 demo_claimed_run demo_claim.2 demo_claim_ok). Qed.
Lemma demo_reachable2 : demo_reachable demo_sys2.
Proof. exact (reachable_step _ _ _ _ _ _ _ _ _ _ _ _ _ demo_sys1 demo_sys2 demo_reachable1 demo_step2). Qed.

Lemma demo_step3 : demo_step demo_sys2 demo_sys3.
Proof. exact (step_finish _ _ _ _ _ _ _ _ _ _ _ 3 demo_claimed_run Approved [] [] [] demo_sys2 eq_refl). Qed.
Lemma demo_reachable3 : demo_reachable demo_sys3.
Proof. exact (reachable_step _ _ _ _ _ _ _ _ _ _ _ _ _ demo_sys2 demo_sys3 demo_reachable2 demo_step3). Qed.

Abbreviation demo_report := (report_exists demo_extract demo_retrieve demo_model demo_write demo_workflow demo_lib).
Lemma demo_no_report t : ~ demo_report t [].
Proof. intros (cp & Hcp & _). discriminate. Qed.

Lemma decisions_are_exclusive_witness :
  claim 5 (run_thread_id demo_claimed_run) (run_owner_key_hash demo_claimed_run) (st_repo (sys_state demo_sys2)) =
    (Err (ConflictError (u "Workflow is not awaiting approval.")), st_repo (sys_state demo_sys2)).
Proof.
  refine (proj1 (proj2 (decisions_are_exclusive _ _ _ _ _ _ _ _ _ _ _ [] 0%nat demo_sys2 demo_no_report demo_reachable2))
    demo_claimed_run Approved [] 5 _).
  unfold demo_sys2. left.
Defined.

Lemma demo_has_report : demo_report (u "t") (st_store (sys_state demo_sys3)).
Proof.
  assert (E : match dict_get (u "t") (st_store (sys_state demo_sys3)) with
              | Some cp => match text_of "report_path" (cp_values cp) with [] => false | _ => true end | None => false end = true)
    by (vm_compute; reflexivity).
  unfold report_exists. change (saved _ _ _ _ _ _ (u "t") (st_store (sys_state demo_sys3))) with (dict_get (u "t") (st_store (sys_state demo_sys3))).
  destruct (dict_get (u "t") (st_store (sys_state demo_sys3))) as [cp|]; [|discriminate]. exists cp. split; [reflexivity|].
  by destruct (text_of "report_path" (cp_values cp)).
Qed.


Lemma demo_waiting : forall r, repo_get (u "t") demo_owner (st_repo demo_started) = Some r ->
  run_status r = WorkflowRunStatus.PENDING_APPROVAL ->
  exists rev, waits demo_extract demo_retrieve demo_model demo_write demo_workflow demo_lib (u "t") rev (st_store demo_started).
Proof.
  intros r. exact (good_pending _ _ _ _ _ _ _ (reachable_good _ _ _ _ _ _ _ _ _ _ _ [] 0%nat demo_sys1 demo_no_report demo_reachable1) (u "t") demo_owner r).
Qed.

Lemma decision_outcome_witness :
  match repo_get (u "t") demo_owner (st_repo demo_started), decide demo_lib demo_read demo_service 3 Approved [] (u "t") demo_owner demo_started with
  | Some run, (Ok view, s') => repo_get (u "t") demo_owner (st_repo s') = Some (vw_run view)
  | _, _ => True
  end.
Proof.
  pose proof (decision_outcome _ _ _ _ _ demo_lib demo_read demo_service 3 Approved [] (u "t") demo_owner demo_started demo_waiting) as H.
  destruct (repo_get (u "t") demo_owner (st_repo demo_started)) as [run|]; [|exact I].
  destruct (decide demo_lib demo_read demo_service 3 Approved [] (u "t") demo_owner demo_started) as [[view|e] s']; [|exact I].
  destruct (base.decide _) in H; [apply H|destruct H; discriminate].
Defined.
