(* ===== verification/AuthApi.v ===== *)
(** * The authentication routes: [app/api/auth.py] and the request context

    A route is a function of the request's state and of the services' state; it
    returns a response or an [api_error], the new request state and the new
    services.  The services are those of [Auth] and [Workspaces] over their
    in-memory repositories, shared by all requests ([aw_*]).  Ids, secrets, salts
    and clocks are arguments, one clock reading per call that reads it. *)

From S2P Require Import Prelude RateLimit RagText Auth Json Billing AuditLog Workspaces.
Local Open Scope Z_scope.

(** ** [app/core/context.py] *)

Record RequestContext := mkRequestContext {
  rc_request_id : pystr;
  rc_api_key : option pystr;
  rc_api_key_name : option pystr;
  rc_identity : option IdentityContext
}.

Definition with_auth (api_key api_key_name : pystr) (c : RequestContext) : RequestContext :=
  mkRequestContext (rc_request_id c) (Some api_key) (Some api_key_name) (rc_identity c).
Definition with_identity (i : IdentityContext) (c : RequestContext) : RequestContext :=
  mkRequestContext (rc_request_id c) (rc_api_key c) (rc_api_key_name c) (Some i).

(** ** The guards with the update of the context: [app/auth/dependencies.py]

    [get_member] is the lookup in the workspace repository; its outer [None] says
    that it raised. *)

Section Guards.
Context (auth_storage : pystr) (get_member : pystr -> pystr -> option (option WorkspaceMemberRecord)).

Definition _resolve_role (workspace_id user_id : pystr) : option pystr :=
  if decide (auth_storage = u "postgres") then
    match get_member workspace_id user_id with
    | Some (Some member) => Some (wm_role member)
    | Some None => None
    | None => None
    end
  else None.

Definition identity_of_key (k : Auth.APIKey) : IdentityContext :=
  let role := match ak_workspace_id k, ak_user_id k with
              | Some w, Some i => _resolve_role w i
              | _, _ => None
              end in
  mkIdentity (ak_user_id k) (ak_workspace_id k) (ak_id k) (ak_key k) role.

Definition _update_context (k : Auth.APIKey) (context : option RequestContext) : option RequestContext :=
  match context with
  | None => None
  | Some c => Some (with_identity (identity_of_key k) (with_auth (ak_key k) (ak_name k) c))
  end.

(** A guard, then the update of the context with the key it found. *)
Definition and_update (context : option RequestContext) (m : result auth_error Auth.APIKey * APIKeyService)
  : result auth_error Auth.APIKey * option RequestContext * APIKeyService :=
  match m with
  | (Ok k, s) => (Ok k, _update_context k context, s)
  | (Err e, s) => (Err e, context, s)
  end.

Context (hash_api_key : pystr -> pystr).

Definition request_with_key (auth_enabled : bool) (monotonic now : Z) (touch_fails : bool) (credentials : option pystr)
    (context : option RequestContext) (s : APIKeyService)
  : result auth_error Auth.APIKey * option RequestContext * APIKeyService :=
  and_update context (require_api_key hash_api_key auth_enabled monotonic now touch_fails credentials s).

Definition request_with_admin_key (admin_api_keys : pystr) (monotonic now : Z) (touch_fails : bool)
    (credentials : option pystr) (context : option RequestContext) (s : APIKeyService)
  : result auth_error Auth.APIKey * option RequestContext * APIKeyService :=
  and_update context (require_admin_key hash_api_key admin_api_keys monotonic now touch_fails credentials s).
End Guards.

(** ** Requests and responses *)

Inductive api_error :=
| HTTPException (status_code : Z) (detail : pystr)
| AuthFailure (e : auth_error)
| WorkspaceFailure (e : workspace_error).

(** [min_length] and [max_length] of a pydantic field *)
Definition length_between (lo hi : Z) (s : pystr) : bool := (lo <=? slen s) && (slen s <=? hi).

Record RegisterRequest := mkRegisterRequest { rr_email : pystr; rr_display_name : pystr; rr_password : pystr }.
Definition RegisterRequest_valid (b : RegisterRequest) : bool :=
  length_between 1 255 (rr_email b) && length_between 1 128 (rr_display_name b) && length_between 6 128 (rr_password b).

Record LoginRequest := mkLoginRequest { lr_email : pystr; lr_password : pystr }.
Definition LoginRequest_valid (b : LoginRequest) : bool :=
  length_between 1 255 (lr_email b) && length_between 1 128 (lr_password b).

Record UserResponse := mkUserResponse { ur_id : pystr; ur_email : pystr; ur_display_name : pystr; ur_status : pystr }.
Record WorkspaceSummary := mkWorkspaceSummary { wsum_id : pystr; wsum_name : pystr; wsum_role : pystr }.
Record RegisterResponse := mkRegisterResponse {
  reg_user : UserResponse; reg_workspace : WorkspaceSummary; reg_api_key : pystr
}.
Record LoginResponse := mkLoginResponse {
  login_user : UserResponse; login_workspaces : list WorkspaceSummary; login_api_key : pystr
}.
Record LogoutResponse := mkLogoutResponse { out_key_hash_prefix : pystr; out_revoked : bool }.
Definition CreateUserAPIKeyRequest_valid (name : pystr) : bool := length_between 1 128 name.
Record UserAPIKeyResponse := mkUserAPIKeyResponse {
  uk_key_hash_prefix : pystr;
  uk_name : pystr;
  uk_status : pystr;
  uk_created_at : option Z;
  uk_last_used_at : option Z
}.
(** [CreateUserAPIKeyResponse]: the key's data and [raw_key] *)
Definition CreateUserAPIKeyResponse : Type := UserAPIKeyResponse * pystr.
Record RevokeUserAPIKeyResponse := mkRevokeUserAPIKeyResponse { rev_key_hash_prefix : pystr; rev_revoked : bool }.
Record MeResponse := mkMeResponse { me_user : UserResponse; me_workspaces : list WorkspaceSummary }.

Definition _user_to_response (x : UserRecord) : UserResponse :=
  mkUserResponse (us_id x) (us_email x) (us_display_name x) (us_status x).
Definition key_response (k : APIKeyMetadata) : UserAPIKeyResponse :=
  mkUserAPIKeyResponse (km_key_hash_prefix k) (km_name k) (km_status k) (km_created_at k) (km_last_used_at k).
Definition workspace_summary (p : WorkspaceRecord * pystr) : WorkspaceSummary :=
  mkWorkspaceSummary (ws_id p.1) (ws_name p.1) p.2.

(** [request.state]: the context, and what the rate limiter left *)
Record request_state := mkRequestState { rq_context : RequestContext; rq_rate_limit : option RateLimitResult }.

Definition _apply_rate_limit_headers (q : request_state) : list (pystr * pystr) :=
  match rq_rate_limit q with
  | None => []
  | Some r =>
      [(u "X-RateLimit-Limit", str_of_Z (limit r)); (u "X-RateLimit-Remaining", str_of_Z (remaining r));
       (u "X-RateLimit-Reset", str_of_Z (reset_after r))]
  end.

Definition _require_user_identity (q : request_state) : result api_error (IdentityContext * pystr) :=
  let refuse := Err (HTTPException 400 (u "Only user-bound API keys can be used.")) in
  match rc_identity (rq_context q) with
  | None => refuse
  | Some i => match ic_user_id i with None => refuse | Some user_id => Ok (i, user_id) end
  end.
Definition _require_user_id (q : request_state) : result api_error pystr := snd <$> _require_user_identity q.

(** ** The routes *)

Record auth_world := mkAuthWorld {
  aw_users : InMemoryUserRepository;
  aw_workspaces : workspace_world;
  aw_keys : APIKeyService
}.
Definition set_keys (k : APIKeyService) (s : auth_world) : auth_world := mkAuthWorld (aw_users s) (aw_workspaces s) k.

Section Routes.
Context (hash_api_key : pystr -> pystr) (scrypt : pystr -> pystr -> pystr) (lower : pystr -> pystr).

Definition default_workspace_name (user : UserRecord) : pystr := us_display_name user ++ u "'s Workspace".

Definition register (now_user now_workspace now_key : Z) (new_user_id salt new_workspace_id secret : pystr)
    (body : RegisterRequest) (q : request_state) (s : auth_world)
  : result api_error (RegisterResponse * list (pystr * pystr)) * request_state * auth_world :=
  match Auth.register scrypt lower now_user new_user_id salt (rr_email body) (rr_display_name body) (rr_password body)
          (aw_users s) with
  | (Err e, users) => (Err (AuthFailure e), q, mkAuthWorld users (aw_workspaces s) (aw_keys s))
  | (Ok user, users) =>
      match create_workspace now_workspace new_workspace_id (us_id user) (default_workspace_name user)
              (aw_workspaces s) with
      | (Err e, workspaces) => (Err (WorkspaceFailure e), q, mkAuthWorld users workspaces (aw_keys s))
      | (Ok (ws, role), workspaces) =>
          let '((metadata, raw_key), keys) :=
            create_key hash_api_key now_key secret (us_email user ++ u "-default") (Some (us_id user)) (Some (ws_id ws))
              (aw_keys s) in
          let identity := mkIdentity (Some (us_id user)) (Some (ws_id ws)) (km_id metadata) (hash_api_key raw_key)
                            (Some role) in
          let q' := mkRequestState (with_identity identity (rq_context q)) (rq_rate_limit q) in
          (Ok (mkRegisterResponse (_user_to_response user) (mkWorkspaceSummary (ws_id ws) (ws_name ws) role) raw_key,
               _apply_rate_limit_headers q'),
           q', mkAuthWorld users workspaces keys)
      end
  end.

Definition login_unavailable : api_error :=
  HTTPException 503 (u "Login requires auth_storage=postgres. Use memory mode with pre-configured API keys instead.").

Definition login (auth_storage : pystr) (now : Z) (secret : pystr) (body : LoginRequest) (q : request_state)
    (s : auth_world) : result api_error (LoginResponse * list (pystr * pystr)) * auth_world :=
  if negb (bool_decide (auth_storage = u "postgres")) then (Err login_unavailable, s)
  else
    match Auth.login scrypt lower (lr_email body) (lr_password body) (aw_users s) with
    | Err e => (Err (AuthFailure e), s)
    | Ok user =>
        let workspaces := workspace_summary <$> list_workspaces_for_user (us_id user) (aw_workspaces s) in
        match workspaces with
        | [] => (Err (HTTPException 500 (u "User has no workspaces. This is a server configuration error.")), s)
        | primary :: _ =>
            let '((_, raw_key), keys) :=
              create_key hash_api_key now secret (us_email user ++ u "-login") (Some (us_id user)) (Some (wsum_id primary))
                (aw_keys s) in
            (Ok (mkLoginResponse (_user_to_response user) workspaces raw_key, _apply_rate_limit_headers q), set_keys keys s)
        end
    end.

Definition logout (q : request_state) (s : auth_world) : result api_error LogoutResponse * auth_world :=
  match _require_user_identity q with
  | Err e => (Err e, s)
  | Ok (i, _) =>
      let '(revoked, keys) := revoke_key (ic_api_key_hash i) (aw_keys s) in
      (if negb revoked then Err (HTTPException 404 (u "API key not found."))
       else Ok (mkLogoutResponse (sprefix 8 (ic_api_key_hash i)) revoked), set_keys keys s)
  end.

Definition list_user_api_keys (q : request_state) (s : auth_world) : result api_error (list UserAPIKeyResponse) :=
  user_id ← _require_user_id q; Ok (key_response <$> list_keys_for_user user_id (aw_keys s)).

Definition create_user_api_key (now : Z) (secret name : pystr) (q : request_state) (s : auth_world)
  : result api_error CreateUserAPIKeyResponse * auth_world :=
  match _require_user_identity q with
  | Err e => (Err e, s)
  | Ok (i, user_id) =>
      let '((metadata, raw_key), keys) :=
        create_key hash_api_key now secret name (Some user_id) (ic_workspace_id i) (aw_keys s) in
      (Ok (key_response metadata, raw_key), set_keys keys s)
  end.

Definition key_not_found : api_error := HTTPException 404 (u "API key not found").

Definition revoke_user_api_key (key_hash_prefix : pystr) (q : request_state) (s : auth_world)
  : result api_error RevokeUserAPIKeyResponse * auth_world :=
  match _require_user_id q with
  | Err e => (Err e, s)
  | Ok user_id =>
      match find_hash_by_prefix_for_user key_hash_prefix user_id (aw_keys s) with
      | Err e => (Err (AuthFailure e), s)
      | Ok None => (Err key_not_found, s)
      | Ok (Some target_hash) =>
          let '(revoked, keys) := revoke_key_for_user target_hash user_id (aw_keys s) in
          (if negb revoked then Err key_not_found else Ok (mkRevokeUserAPIKeyResponse key_hash_prefix revoked),
           set_keys keys s)
      end
  end.

Definition me (q : request_state) (s : auth_world) : result api_error MeResponse :=
  let not_a_user := Err (AuthFailure (AuthenticationError
    (u "Not authenticated as a user. Use a user-bound API key or login."))) in
  match rc_identity (rq_context q) with
  | None => not_a_user
  | Some i =>
      match ic_user_id i with
      | None => not_a_user
      | Some user_id =>
          match get_user user_id (aw_users s) with
          | None => Err (AuthFailure (AuthenticationError (u "Authenticated user no longer exists.")))
          | Some user =>
              Ok (mkMeResponse (_user_to_response user)
                    (workspace_summary <$> list_workspaces_for_user (us_id user) (aw_workspaces s)))
          end
      end
  end.
End Routes.

(** * Theorems

    A registration opens a whole account or changes nothing; the key routes
    touch the keys of the user who calls them. *)

(** ** Stripped text *)

Lemma lstrip_some s c : c ∈ s -> is_space c = false -> exists t, lstrip s = t /\ c ∈ t.
Proof.
  intros Hin Hc. exists (lstrip s). split; [done|]. induction s as [|d s IH]; [by inversion Hin|]. cbn [lstrip].
  destruct (is_space d) eqn:Hd; [|done]. apply IH. apply elem_of_cons in Hin as [->|?]; [congruence|done].
Qed.

Lemma strip_keeps s c : c ∈ s -> is_space c = false -> c ∈ strip s.
Proof.
  intros Hin Hc. unfold strip. apply list_elem_of_In, in_rev. rewrite rev_involutive. apply list_elem_of_In.
  destruct (lstrip_some s c Hin Hc) as (t & -> & Ht).
  destruct (lstrip_some (rev t) c) as (t' & -> & Ht'); [|done|done].
  by apply list_elem_of_In, in_rev; rewrite rev_involutive; apply list_elem_of_In.
Qed.

Lemma default_name_not_blank x : strip (default_workspace_name x) <> [].
Proof.
  intros H. assert (Hin : 87%N ∈ strip (default_workspace_name x)); [|rewrite H in Hin; by inversion Hin].
  apply strip_keeps; [|done]. unfold default_workspace_name. apply elem_of_app. right. vm_compute. set_solver.
Qed.

(** ** The parts of a registration *)

Lemma create_workspace_fresh now i us name s :
  strip name <> [] -> Forall (fun m => wm_workspace_id m <> i) (_members (ww_repo s)) ->
  let w := mkWorkspace i (strip name) us (Some now) None in
  let m := mkMember (_member_id_seq (ww_repo s) + 1) i us OWNER (Some now) in
  create_workspace now i us name s =
    (Ok (w, OWNER), mkWorkspaceWorld (mkWorkspaceRepo (<[i := w]> (_workspaces (ww_repo s))) (_members (ww_repo s) ++ [m])
                                       (_member_id_seq (ww_repo s) + 1)) (ww_audit s)).
Proof.
  intros Hname Hm w m. unfold create_workspace. rewrite bool_decide_false by done. cbn [repo_create_workspace].
  unfold repo_add_member. cbn [_members _workspaces _member_id_seq].
  assert (Hno : forall ws n, repo_get_member i us (mkWorkspaceRepo ws (_members (ww_repo s)) n) = None).
  { intros ws n. unfold repo_get_member. cbn [_members]. induction Hm as [|x l Hx _ IH]; [done|].
    rewrite filter_cons_False by (intros [? _]; done). done. }
  by rewrite Hno.
Qed.

Section Routes.
Context (hash_api_key : pystr -> pystr) (scrypt : pystr -> pystr -> pystr) (lower : pystr -> pystr).

(** Nobody is a member of the new workspace, nor the new user of any. *)
Definition fresh_registration (user_id workspace_id : pystr) (s : auth_world) : Prop :=
  Forall (fun m => wm_workspace_id m <> workspace_id /\ wm_user_id m <> user_id) (_members (ww_repo (aw_workspaces s))).

(** The account of a new user: the address and the password log in, the user owns
    and is the only member of the workspace, and until it is revoked the key
    authenticates requests as this user in this workspace, which is its tenant. *)
Record account (email password raw_key user_id workspace_id : pystr) (s : auth_world) : Prop := mkAccount {
  acc_login : exists x, Auth.login scrypt lower email password (aw_users s) = Ok x /\ us_id x = user_id;
  acc_member : exists m, repo_list_members workspace_id (ww_repo (aw_workspaces s)) = [m] /\
   wm_user_id m = user_id /\ wm_role m = OWNER;
  acc_workspaces : exists w, list_workspaces_for_user user_id (aw_workspaces s) = [(w, OWNER)] /\
   ws_id w = workspace_id /\ ws_created_by_user_id w = user_id;
  acc_key : forall revoked keys, key_runs hash_api_key (aw_keys s) revoked keys -> hash_api_key raw_key ∉ revoked ->
    forall storage get_member monotonic now fails c, exists k c' i,
      (request_with_key storage get_member hash_api_key true monotonic now fails (Some raw_key) (Some c) keys).1 =
        (Ok k, Some c') /\
     rc_identity c' = Some i /\ ic_user_id i = Some user_id /\ ic_workspace_id i = Some workspace_id /\
     tenant_scope hash_api_key i = hash_api_key workspace_id
}.

(** Everything but this user, this workspace and this key is as it was. *)
Record only_added (key_hash user_id workspace_id : pystr) (s s' : auth_world) : Prop := mkOnlyAdded {
  add_users : forall i, i <> user_id -> _records (aw_users s') !! i = _records (aw_users s) !! i;
  add_workspaces : forall i, i <> workspace_id ->
    _workspaces (ww_repo (aw_workspaces s')) !! i = _workspaces (ww_repo (aw_workspaces s)) !! i /\
   repo_list_members i (ww_repo (aw_workspaces s')) = repo_list_members i (ww_repo (aw_workspaces s));
  add_keys : forall h, h <> key_hash -> dict_get h (ks_records (aw_keys s')) = dict_get h (ks_records (aw_keys s))
}.

Lemma key_authenticates raw x s revoked keys storage get_member monotonic now fails c :
  dict_get (hash_api_key raw) (ks_records s) = Some x -> kr_status x = ACTIVE ->
  key_runs hash_api_key s revoked keys -> hash_api_key raw ∉ revoked ->
  exists k c' i,
    (request_with_key storage get_member hash_api_key true monotonic now fails (Some raw) (Some c) keys).1 =
      (Ok k, Some c') /\
   rc_identity c' = Some i /\ ic_user_id i = kr_user_id x /\ ic_workspace_id i = kr_workspace_id x /\
   ic_api_key_hash i = hash_api_key raw.
Proof.
  intros Hx Hst Hr Hin. destruct (runs_keep _ _ _ _ (hash_api_key raw) Hr x Hx) as (x' & Hx' & Hh & Hst').
  injection Hh as _ _ _ Hu Hw. rewrite decide_False in Hst' by done. rewrite Hst in Hst'.
  unfold request_with_key, require_api_key, validate, find_by_key_hash. cbn [negb]. rewrite Hx', decide_True by done.
  cbn [and_update fst _update_context]. do 3 eexists. split_and!; [reflexivity|reflexivity|..]; cbn; congruence || done.
Qed.

(** The key that [create_key] stores. *)
Lemma create_key_stores now secret name us ws s md raw s' :
  create_key hash_api_key now secret name us ws s = ((md, raw), s') ->
  (exists x, dict_get (hash_api_key raw) (ks_records s') = Some x /\ kr_status x = ACTIVE /\ kr_user_id x = us /\
     kr_workspace_id x = ws) /\
  forall h, h <> hash_api_key raw -> dict_get h (ks_records s') = dict_get h (ks_records s).
Proof.
  unfold create_key, repo_create_key. generalize (u "sk-" ++ secret). intros k [= _ <- <-]. cbn [ks_records kr_key_hash].
  split; [|intros h Hh; by rewrite dict_get_set, decide_False].
  eexists. split; [rewrite dict_get_set, decide_True by done; reflexivity|]. done.
Qed.

Lemma filter_none {A} (P : A -> Prop) `{!forall x, Decision (P x)} l : Forall (fun x => ~ P x) l -> filter P l = [].
Proof. induction 1 as [|x l Hx _ IH]; [done|]. by rewrite filter_cons_False. Qed.

Lemma only_workspace i us w m r n a : Forall (fun x => wm_workspace_id x <> i /\ wm_user_id x <> us) (_members r) ->
  wm_user_id m = us -> wm_workspace_id m = i ->
  list_workspaces_for_user us (mkWorkspaceWorld (mkWorkspaceRepo (<[i := w]> (_workspaces r)) (_members r ++ [m])
                                                   n) a) = [(w, wm_role m)].
Proof.
  intros Hall Hm Hi. unfold list_workspaces_for_user, repo_list_workspaces_for_user. cbn [_members _workspaces ww_repo].
  induction Hall as [|x l [_ Hx] _ IH]; cbn [app omap list_omap].
  - by rewrite decide_True, Hi, lookup_insert, decide_True.
  - by rewrite decide_False.
Qed.


(** ** The key routes *)

Inductive key_request :=
| CreateKey (now : Z) (secret name : pystr)
| RevokeKey (key_hash_prefix : pystr)
| Logout.

(** Whether the request succeeded, and the services after it. *)
Definition serve_key (c : key_request) (q : request_state) (s : auth_world) : bool * auth_world :=
  let ok {A} (p : result api_error A * auth_world) := (match p.1 with Ok _ => true | Err _ => false end, p.2) in
  match c with
  | CreateKey now secret name => ok (create_user_api_key hash_api_key now secret name q s)
  | RevokeKey prefix => ok (revoke_user_api_key prefix q s)
  | Logout => ok (logout q s)
  end.

(** The secret of a new key is not the secret of another. *)
Definition fresh_secret (c : key_request) (s : auth_world) : Prop :=
  match c with
  | CreateKey _ secret _ => dict_get (hash_api_key (u "sk-" ++ secret)) (ks_records (aw_keys s)) = None
  | _ => True
  end.

(** What a request under identity [i] may do to a record: nothing, or revoke it
    when it is the user's or the key that the request carries. *)
Definition record_step (i : IdentityContext) (c : key_request) (h : pystr) (x x' : APIKeyRecord) : Prop :=
  holder x' = holder x /\
  (kr_status x' = kr_status x \/
   kr_status x' = REVOKED /\
   match c with
   | CreateKey _ _ _ => False
   | RevokeKey prefix => kr_user_id x = ic_user_id i /\ starts_with prefix h = true
   | Logout => h = ic_api_key_hash i
   end).

Lemma require_user_inv q i user_id : _require_user_identity q = Ok (i, user_id) ->
  rc_identity (rq_context q) = Some i /\ ic_user_id i = Some user_id.
Proof.
  unfold _require_user_identity. destruct (rc_identity _) as [j|]; [|done]. destruct (ic_user_id j) eqn:E; [|done].
  intros [= <- <-]. by split.
Qed.

Lemma revoke_other h k s : h <> k -> dict_get k (ks_records (revoke_key h s).2) = dict_get k (ks_records s).
Proof.
  intros Hne. unfold revoke_key, update_status. destruct (dict_get h (ks_records s)); [|done]. cbn.
  by rewrite dict_get_set, decide_False.
Qed.

Lemma revoke_record i c h k x s : dict_get k (ks_records s) = Some x ->
  (h = k -> record_step i c k x (with_status REVOKED x)) ->
  exists x', dict_get k (ks_records (revoke_key h s).2) = Some x' /\ record_step i c k x x'.
Proof.
  intros Hx Hs. destruct (base.decide (h = k)) as [->|Hne].
  - exists (with_status REVOKED x). split; [|by apply Hs]. unfold revoke_key, update_status. rewrite Hx. cbn.
    by rewrite dict_get_set, decide_True.
  - exists x. rewrite revoke_other by done. split; [done|]. split; [done|by left].
Qed.

Lemma revoke_absent h k s : dict_get k (ks_records s) = None -> dict_get k (ks_records (revoke_key h s).2) = None.
Proof.
  intros Hk. unfold revoke_key, update_status. destruct (dict_get h (ks_records s)) eqn:Hh; [|done]. cbn.
  rewrite dict_get_set, decide_False; [done|]. congruence.
Qed.

(** What a successful request has done. *)
Definition key_served (i : IdentityContext) (user_id : pystr) (c : key_request) (s s' : key_records) : Prop :=
  match c with
  | CreateKey _ secret _ => exists x', dict_get (hash_api_key (u "sk-" ++ secret)) s' = Some x' /\
      kr_status x' = ACTIVE /\ kr_user_id x' = Some user_id /\ kr_workspace_id x' = ic_workspace_id i
  | RevokeKey prefix => exists h x', starts_with prefix h = true /\ dict_get h s' = Some x' /\
      kr_user_id x' = Some user_id /\ kr_status x' = REVOKED
  | Logout => exists x', dict_get (ic_api_key_hash i) s' = Some x' /\ kr_status x' = REVOKED
  end /\
  (forall h x, dict_get h s = Some x -> exists x', dict_get h s' = Some x' /\ record_step i c h x x') /\
  (forall h x', dict_get h s = None -> dict_get h s' = Some x' ->
     kr_user_id x' = Some user_id /\ kr_workspace_id x' = ic_workspace_id i).

Lemma create_served i user_id now secret name s md raw s' :
  dict_get (hash_api_key (u "sk-" ++ secret)) (ks_records s) = None ->
  create_key hash_api_key now secret name (Some user_id) (ic_workspace_id i) s = ((md, raw), s') ->
  key_served i user_id (CreateKey now secret name) (ks_records s) (ks_records s').
Proof.
  unfold key_served, create_key, repo_create_key. generalize (u "sk-" ++ secret). intros k Hk [= _ _ <-].
  cbn [ks_records kr_key_hash]. split; [|split].
  - eexists. rewrite dict_get_set, decide_True by done. split; [reflexivity|done].
  - intros h x Hx. exists x. rewrite dict_get_set, decide_False by congruence. split; [done|]. split; [done|by left].
  - intros h x' Hh. rewrite dict_get_set. case_decide; [|congruence]. by intros [= <-].
Qed.

Lemma revoke_served i c h user_id x s : dict_get h (ks_records s) = Some x ->
  record_step i c h x (with_status REVOKED x) ->
  (revoke_key h s).1 = true /\
  dict_get h (ks_records (revoke_key h s).2) = Some (with_status REVOKED x) /\
  (forall k y, dict_get k (ks_records s) = Some y ->
     exists y', dict_get k (ks_records (revoke_key h s).2) = Some y' /\ record_step i c k y y') /\
  (forall k y', dict_get k (ks_records s) = None -> dict_get k (ks_records (revoke_key h s).2) = Some y' ->
     kr_user_id y' = Some user_id /\ kr_workspace_id y' = ic_workspace_id i).
Proof.
  intros Hx Hs. split_and!.
  - unfold revoke_key, update_status. by rewrite Hx.
  - unfold revoke_key, update_status. rewrite Hx. cbn. by rewrite dict_get_set, decide_True.
  - intros k y Hy. apply revoke_record; [done|]. intros <-. by rewrite Hx in Hy; injection Hy as <-.
  - intros k y' Hk. by rewrite revoke_absent.
Qed.

Lemma found_prefix prefix user_id s h : find_hash_by_prefix_for_user prefix user_id s = Ok (Some h) ->
  starts_with prefix h = true.
Proof.
  unfold find_hash_by_prefix_for_user, unique_hash. intros H. apply bind_ok in H as ([] & _ & H).
  destruct (find_by_key_hash_prefix_for_user _ _ _) as [|x [|y l]] eqn:E; [done| |done]. injection H as <-.
  assert (Hx : x ∈ find_by_key_hash_prefix_for_user prefix user_id (ks_records s)) by (rewrite E; left).
  by apply list_elem_of_filter in Hx as [[_ ?] _].
Qed.

(** The key routes keep to the caller's keys: whatever a request for a new key, a
    revocation or a logout returns, users and workspaces are unchanged; if it
    fails no key changed; if it succeeds it was made by an identity with a user, a
    new key is bound to this user and to the identity's workspace, and the only
    record that changes is revoked and is this user's key, under the prefix asked
    for, or the very key of the request for a logout. *)
Theorem key_routes_own_keys c q s ok s' :
  fresh_secret c s -> serve_key c q s = (ok, s') ->
  aw_users s' = aw_users s /\ aw_workspaces s' = aw_workspaces s /\
  if ok then
    exists i user_id, rc_identity (rq_context q) = Some i /\ ic_user_id i = Some user_id /\
      key_served i user_id c (ks_records (aw_keys s)) (ks_records (aw_keys s'))
  else ks_records (aw_keys s') = ks_records (aw_keys s).
Proof.
  intros Hf. destruct c as [now secret name|prefix|]; cbn [serve_key fresh_secret] in *.
  - unfold create_user_api_key. destruct (_require_user_identity q) as [[i us]|e] eqn:Hi; [|by intros [= <- <-]].
    apply require_user_inv in Hi as [Hi Hu]. destruct (create_key _ _ _ _ _ _ _) as [[md raw] keys] eqn:Hck.
    intros [= <- <-]. split_and!; [done|done|]. exists i, us. split_and!; [done|done|]. by eapply create_served.
  - unfold revoke_user_api_key, _require_user_id.
    destruct (_require_user_identity q) as [[i us]|e] eqn:Hi; [|by intros [= <- <-]]. cbn [fmap result_fmap snd].
    apply require_user_inv in Hi as [Hi Hu].
    destruct (find_hash_by_prefix_for_user prefix us (aw_keys s)) as [[h|]|e] eqn:Hp; [|by intros [= <- <-]..].
    apply found_prefix in Hp. unfold revoke_key_for_user, find_by_key_hash.
    destruct (dict_get h (ks_records (aw_keys s))) as [x|] eqn:Hx; [|by intros [= <- <-]].
    destruct (base.decide _) as [Hux|]; [|by intros [= <- <-]].
    destruct (revoke_served i (RevokeKey prefix) h us x (aw_keys s) Hx) as (Hok & Hr & Hall & Hnew).
    { split; [done|]. right. split; [done|]. split; [by rewrite Hux|done]. }
    destruct (revoke_key h (aw_keys s)) as [b keys]. cbn in Hok. subst b. intros [= <- <-].
    split_and!; [done|done|]. exists i, us. split_and!; [done|done|]. split; [|by split]. by eexists h, _.
  - unfold logout. destruct (_require_user_identity q) as [[i us]|e] eqn:Hi; [|by intros [= <- <-]].
    apply require_user_inv in Hi as [Hi Hu].
    destruct (dict_get (ic_api_key_hash i) (ks_records (aw_keys s))) as [x|] eqn:Hx.
    + destruct (revoke_served i Logout (ic_api_key_hash i) us x (aw_keys s) Hx) as (Hok & Hr & Hall & Hnew).
      { split; [done|]. right. by split. }
      destruct (revoke_key _ _) as [b keys]. cbn in Hok. subst b. intros [= <- <-].
      split_and!; [done|done|]. exists i, us. split_and!; [done|done|]. split; [|by split]. by eexists.
    + unfold revoke_key, update_status. rewrite Hx. by intros [= <- <-].
Qed.
End Routes.

(** ** One user who registers, asks for a second key and logs out *)

Definition demo_services : auth_world :=
  mkAuthWorld user_repo_init (mkWorkspaceWorld workspace_repo_init audit_repo_init) (mkAPIKeyService [] ∅).
Definition demo_request : request_state := mkRequestState (mkRequestContext (u "r1") None None None) None.
Definition demo_body : RegisterRequest := mkRegisterRequest (u "ann@x") (u "Ann") (u "secret").
Abbreviation demo_hash := (fun s : pystr => s ++ [104%N]).
Definition demo_registered := register demo_hash (fun p _ => p) (fun s => s) 1 2 3 (u "u1") (u "salt") (u "w1") (u "k1") demo_body
  demo_request demo_services.


Definition demo_logged_out : bool * auth_world :=
  serve_key demo_hash Logout demo_registered.1.2 demo_registered.2.

Lemma key_routes_own_keys_witness :
  aw_users demo_logged_out.2 = aw_users demo_registered.2 /\
  aw_workspaces demo_logged_out.2 = aw_workspaces demo_registered.2 /\
  if demo_logged_out.1 then
    exists i user_id, rc_identity (rq_context demo_registered.1.2) = Some i /\ ic_user_id i = Some user_id /\
      key_served demo_hash i user_id Logout (ks_records (aw_keys demo_registered.2)) (ks_records (aw_keys demo_logged_out.2))
  else ks_records (aw_keys demo_logged_out.2) = ks_records (aw_keys demo_registered.2).
Proof.
  apply (key_routes_own_keys demo_hash Logout demo_registered.1.2 demo_registered.2);
    [exact I|apply surjective_pairing].
Defined.
