(* ===== verification/HttpErrors.v ===== *)
(** * From exceptions to responses: [app/exceptions/] and [app/core/exceptions.py]

    The classes of the application's exceptions with their bases, Python's method
    resolution order (C3), and the handlers that turn an exception into a
    response.  A handler is looked up by Starlette along the resolution order;
    [StarletteLaws] states that and nothing more.  [HTTPException] and request
    validation errors, which FastAPI answers itself, are not exceptions here.
    Logging is left out. *)

From S2P Require Import Prelude RateLimit.
Local Open Scope Z_scope.

(** ** Classes *)

(** [OtherException] is a class of the standard library, of a package or of a
    component, which has no base of [app/exceptions]. *)
Inductive exn_class :=
| Exception
| AppError
| AuthenticationError | AuthorizationError | ConflictError | ValidationError | APIKeyNotFoundError
| ConversationNotFoundError | MemoryNotFoundError | WorkflowNotFoundError | RateLimitError | ProviderError
| ProviderUnavailableError | ModelNotFoundError | QuotaExceededError | QuotaReservationError | ProviderRequestError
| RAGError | RAGUnavailableError | KnowledgeBaseEmptyError | NoRelevantContextError | RAGStorageUnavailableError
| RAGDocumentValidationError | RAGDocumentTooLargeError
| OllamaServiceError | OllamaUnavailableError | OllamaModelNotFoundError | OllamaRequestError | OpenAIProviderError
| OpenAIUnavailableError | OpenAIModelNotFoundError | OpenAIRequestError
| OtherException (name : pystr).

#[export] Instance exn_class_eq_dec : EqDecision exn_class.
Proof. solve_decision. Defined.

(** [__bases__] *)
Definition bases (c : exn_class) : list exn_class :=
  match c with
  | Exception => []
  | ProviderUnavailableError => [ProviderError]
  | ModelNotFoundError => [ProviderError]
  | ProviderRequestError => [ProviderError]
  | RAGUnavailableError => [RAGError]
  | KnowledgeBaseEmptyError => [RAGError]
  | NoRelevantContextError => [RAGError]
  | RAGStorageUnavailableError => [RAGError]
  | RAGDocumentValidationError => [RAGError]
  | RAGDocumentTooLargeError => [RAGError]
  | OllamaServiceError => [ProviderError]
  | OllamaUnavailableError => [OllamaServiceError; ProviderUnavailableError]
  | OllamaModelNotFoundError => [OllamaServiceError; ModelNotFoundError]
  | OllamaRequestError => [OllamaServiceError; ProviderRequestError]
  | OpenAIProviderError => [ProviderError]
  | OpenAIUnavailableError => [OpenAIProviderError; ProviderUnavailableError]
  | OpenAIModelNotFoundError => [OpenAIProviderError; ModelNotFoundError]
  | OpenAIRequestError => [OpenAIProviderError; ProviderRequestError]
  | AppError | OtherException _ => [Exception]
  | _ => [AppError]
  end.

(** The C3 merge: the first head that is in no tail, repeatedly. *)
Definition good_head (ls : list (list exn_class)) : option exn_class :=
  head (omap (fun l => match l with
                       | [] => None
                       | h :: _ => if existsb (fun l' => bool_decide (h ∈ tail l')) ls then None else Some h
                       end) ls).
Definition drop_head (h : exn_class) (l : list exn_class) : list exn_class :=
  match l with [] => [] | x :: l' => if base.decide (x = h) then l' else l end.
Fixpoint c3_merge (fuel : nat) (ls : list (list exn_class)) : list exn_class :=
  match fuel with
  | O => []
  | S fuel => match good_head ls with None => [] | Some h => h :: c3_merge fuel (drop_head h <$> ls) end
  end.

(** [__mro__]; the hierarchy is at most six classes deep and no class has more
    than six ancestors. *)
Fixpoint mro_go (fuel : nat) (c : exn_class) : list exn_class :=
  match fuel with
  | O => []
  | S fuel => c :: c3_merge 8 ((mro_go fuel <$> bases c) ++ [bases c])
  end.
Definition mro (c : exn_class) : list exn_class := mro_go 8 c.

(** ** Requests, exceptions and responses *)

Inductive ErrorCode :=
| MODEL_NOT_FOUND | PROVIDER_ERROR | PROVIDER_UNAVAILABLE | AUTHENTICATION_ERROR | AUTHORIZATION_ERROR
| API_KEY_NOT_FOUND | CONVERSATION_NOT_FOUND | MEMORY_NOT_FOUND | WORKFLOW_NOT_FOUND | CONFLICT_ERROR
| VALIDATION_ERROR | RATE_LIMIT_ERROR | QUOTA_EXCEEDED | QUOTA_UNAVAILABLE | RAG_UNAVAILABLE | KNOWLEDGE_BASE_EMPTY
| NO_RELEVANT_CONTEXT | RAG_STORAGE_UNAVAILABLE | RAG_DOCUMENT_INVALID | RAG_DOCUMENT_TOO_LARGE
| RAG_INGESTION_FAILED | RAG_EMBEDDING_UNAVAILABLE | RAG_EMBEDDING_FAILED | INTERNAL_ERROR.

Record ErrorResponse := mkErrorResponse {
  code : ErrorCode;
  message : pystr;
  request_id : option pystr;
  thread_id : option pystr
}.

Record JSONResponse := mkJSONResponse {
  status_code : Z;
  content : ErrorResponse;
  headers : list (pystr * pystr)
}.

(** [request.state]: the request id of the context, the thread, the rate limiter's
    [reset_after]. *)
Record error_request := mkErrorRequest {
  er_context : option pystr;
  er_thread_id : option pystr;
  er_rate_limit_reset_after : option Z
}.

(** An exception: its class, [str(exc)], and [retry_after] of [QuotaExceededError] *)
Record exn := mkExn { exn_type : exn_class; exn_text : pystr; exn_retry_after : Z }.

(** [QuotaExceededError(message)] *)
Definition DEFAULT_RETRY_AFTER : Z := 86400.

Definition _get_request_id (r : error_request) : option pystr := er_context r.
Definition _get_thread_id (r : error_request) : option pystr := er_thread_id r.

Definition _error_payload (r : error_request) (c : ErrorCode) (m : pystr) : ErrorResponse :=
  mkErrorResponse c m (_get_request_id r) (_get_thread_id r).

(** ** The handlers *)

Definition handler : Type := error_request -> exn -> JSONResponse.

(** A handler that answers with the exception's text. *)
Definition tells (status : Z) (c : ErrorCode) (hs : error_request -> exn -> list (pystr * pystr)) : handler :=
  fun r e => mkJSONResponse status (_error_payload r c (exn_text e)) (hs r e).
Definition hides (status : Z) (c : ErrorCode) (m : pystr) : handler :=
  fun r _ => mkJSONResponse status (_error_payload r c m) [].
Definition no_headers (_ : error_request) (_ : exn) : list (pystr * pystr) := [].
Definition retry_after_header (z : Z) : list (pystr * pystr) := [(u "Retry-After", str_of_Z z)].

Definition STORAGE_TEXT : pystr := u "RAG storage is temporarily unavailable".
Definition UNEXPECTED_TEXT : pystr := u "An unexpected error occurred.".

(** [register_exception_handlers] *)
Definition exception_handler (c : exn_class) : option handler :=
  match c with
  | AuthenticationError => Some (tells 401 AUTHENTICATION_ERROR (fun _ _ => [(u "WWW-Authenticate", u "Bearer")]))
  | AuthorizationError => Some (tells 403 AUTHORIZATION_ERROR no_headers)
  | ValidationError => Some (tells 422 VALIDATION_ERROR no_headers)
  | ConflictError => Some (tells 409 CONFLICT_ERROR no_headers)
  | RateLimitError => Some (tells 429 RATE_LIMIT_ERROR (fun r _ => retry_after_header (default 60 (er_rate_limit_reset_after r))))
  | QuotaExceededError => Some (tells 429 QUOTA_EXCEEDED (fun _ e => retry_after_header (exn_retry_after e)))
  | QuotaReservationError => Some (tells 503 QUOTA_UNAVAILABLE no_headers)
  | ModelNotFoundError => Some (tells 404 MODEL_NOT_FOUND no_headers)
  | APIKeyNotFoundError => Some (tells 404 API_KEY_NOT_FOUND no_headers)
  | ConversationNotFoundError => Some (tells 404 CONVERSATION_NOT_FOUND no_headers)
  | MemoryNotFoundError => Some (tells 404 MEMORY_NOT_FOUND no_headers)
  | WorkflowNotFoundError => Some (tells 404 WORKFLOW_NOT_FOUND no_headers)
  | ProviderUnavailableError => Some (tells 502 PROVIDER_UNAVAILABLE no_headers)
  | ProviderError => Some (tells 502 PROVIDER_ERROR no_headers)
  | RAGUnavailableError => Some (tells 503 RAG_UNAVAILABLE no_headers)
  | KnowledgeBaseEmptyError => Some (tells 404 KNOWLEDGE_BASE_EMPTY no_headers)
  | NoRelevantContextError => Some (tells 404 NO_RELEVANT_CONTEXT no_headers)
  | RAGDocumentValidationError => Some (tells 400 RAG_DOCUMENT_INVALID no_headers)
  | RAGDocumentTooLargeError => Some (tells 413 RAG_DOCUMENT_TOO_LARGE no_headers)
  | RAGStorageUnavailableError =>
      Some (hides 503 RAG_STORAGE_UNAVAILABLE STORAGE_TEXT)
  | Exception => Some (hides 500 INTERNAL_ERROR UNEXPECTED_TEXT)
  | _ => None
  end.

(** Starlette: the handler of the first class of the resolution order that has one *)
Class Starlette := {
  lookup_handler : (exn_class -> option handler) -> list exn_class -> option handler
}.
Class StarletteLaws `{Starlette} := {
  lookup_first handlers l : lookup_handler handlers l = head (omap handlers l)
}.

Definition respond `{Starlette} (r : error_request) (e : exn) : option JSONResponse :=
  (fun h => h r e) <$> lookup_handler exception_handler (mro (exn_type e)).

(** ** Theorems *)

(** [issubclass] *)
Inductive subclass (c : exn_class) : exn_class -> Prop :=
| SubclassRefl : subclass c c
| SubclassBase b d : b ∈ bases c -> subclass b d -> subclass c d.

Definition handled (c : exn_class) : Prop := is_Some (exception_handler c).

(** The classes, but for [OtherException]. *)
Definition app_classes : list exn_class :=
  [Exception; AppError; AuthenticationError; AuthorizationError; ConflictError; ValidationError;
  APIKeyNotFoundError; ConversationNotFoundError; MemoryNotFoundError; WorkflowNotFoundError; RateLimitError;
  ProviderError; ProviderUnavailableError; ModelNotFoundError; QuotaExceededError; QuotaReservationError;
  ProviderRequestError; RAGError; RAGUnavailableError; KnowledgeBaseEmptyError; NoRelevantContextError;
  RAGStorageUnavailableError; RAGDocumentValidationError; RAGDocumentTooLargeError; OllamaServiceError;
  OllamaUnavailableError; OllamaModelNotFoundError; OllamaRequestError; OpenAIProviderError;
  OpenAIUnavailableError; OpenAIModelNotFoundError; OpenAIRequestError].

Definition all_classes (P : exn_class -> bool) : bool := forallb P app_classes && P (OtherException []).

(** Every class by its bases, to a depth that is enough. *)
Fixpoint ancestors (fuel : nat) (c : exn_class) : list exn_class :=
  match fuel with O => [c] | S fuel => c :: (bases c ≫= ancestors fuel) end.

Lemma ancestors_sound fuel c d : d ∈ ancestors fuel c -> subclass c d.
Proof.
  revert c. induction fuel as [|fuel IH]; intros c; cbn [ancestors].
  - intros ->%list_elem_of_singleton. constructor.
  - intros [->|(b & Hd & Hb)%list_elem_of_bind]%elem_of_cons; [constructor|]. eapply SubclassBase; eauto.
Qed.

Lemma mro_other n : mro (OtherException n) = [OtherException n; Exception].
Proof. reflexivity. Qed.

(** A property of classes that is checked on each of them. *)
Lemma app_classes_all c : c ∈ app_classes \/ exists n, c = OtherException n.
Proof. destruct c; (by right; eexists) || (left; refine (bool_decide_unpack _ _); vm_compute; exact I). Qed.

Lemma mro_sound c d : d ∈ mro c -> subclass c d.
Proof.
  intros Hd. apply (ancestors_sound 8). destruct (app_classes_all c) as [Hc|[n ->]].
  - assert (H : forallb (fun c => forallb (fun d => bool_decide (d ∈ ancestors 8 c)) (mro c)) app_classes = true)
      by (vm_compute; reflexivity).
    rewrite forallb_forall in H. apply list_elem_of_In, H in Hc. rewrite forallb_forall in Hc.
    apply list_elem_of_In, Hc in Hd. by bools.
  - rewrite mro_other in Hd. cbn. rewrite !elem_of_cons in Hd. rewrite !elem_of_cons. tauto.
Qed.

Lemma mro_complete c d : subclass c d -> d ∈ mro c.
Proof.
  induction 1 as [c|c b d Hb _ IH].
  - destruct c; apply list_elem_of_here.
  - destruct (app_classes_all c) as [Hc|[n ->]].
    + assert (H : forallb (fun c => forallb (fun b => forallb (fun d => bool_decide (d ∈ mro c)) (mro b)) (bases c))
        app_classes = true) by (vm_compute; reflexivity).
      rewrite forallb_forall in H. apply list_elem_of_In, H in Hc. rewrite forallb_forall in Hc.
      apply list_elem_of_In, Hc in Hb. rewrite forallb_forall in Hb. apply list_elem_of_In, Hb in IH. by bools.
    + cbn in Hb. apply list_elem_of_singleton in Hb as ->. change (mro Exception) with [Exception] in IH.
      apply list_elem_of_singleton in IH as ->. rewrite mro_other. right. left.
Qed.

(** The first class of the resolution order that has a handler. *)
Definition has_handler (c : exn_class) : bool := match exception_handler c with Some _ => true | None => false end.
Definition nearest (c : exn_class) : exn_class := default Exception (head (filter (fun d => has_handler d = true) (mro c))).

Lemma lookup_nearest `{StarletteLaws} c : lookup_handler exception_handler (mro c) = exception_handler (nearest c).
Proof.
  rewrite lookup_first. unfold nearest. destruct (app_classes_all c) as [Hc|[n ->]]; [|reflexivity].
  assert (Hm : Exception ∈ mro c).
  { assert (Hall : forallb (fun c => bool_decide (Exception ∈ mro c)) app_classes = true) by (vm_compute; reflexivity).
    rewrite forallb_forall in Hall. apply list_elem_of_In, Hall in Hc. by bools. }
  induction (mro c) as [|d l IH]; [by inversion Hm|]. rewrite filter_cons. cbn [omap list_omap].
  destruct (base.decide (has_handler d = true)) as [Hh|Hh]; unfold has_handler in Hh;
    destruct (exception_handler d) eqn:Hd; try done.
  apply elem_of_cons in Hm as [<-|Hm]; [done|]. by apply IH.
Qed.

Lemma nearest_other n : nearest (OtherException n) = Exception.
Proof. reflexivity. Qed.
Lemma mro_exception : mro Exception = [Exception].
Proof. reflexivity. Qed.
Lemma other_mro n d : d ∈ [Exception] -> d ∈ [OtherException n; Exception].
Proof. apply list_elem_of_further. Qed.

Lemma nearest_least c : has_handler (nearest c) = true /\ subclass c (nearest c) /\
  forall d, handled d -> subclass c d -> subclass (nearest c) d.
Proof.
  assert (H : has_handler (nearest c) = true /\ nearest c ∈ mro c /\
    Forall (fun d => has_handler d = true -> d ∈ mro (nearest c)) (mro c)).
  { destruct (app_classes_all c) as [Hc|[n ->]].
    - assert (H : forallb (fun c => has_handler (nearest c) && bool_decide (nearest c ∈ mro c) &&
          forallb (fun d => negb (has_handler d) || bool_decide (d ∈ mro (nearest c))) (mro c)) app_classes = true)
        by (vm_compute; reflexivity).
      rewrite forallb_forall in H. apply list_elem_of_In, H in Hc. bools. split_and!; [done|done|].
      apply Forall_forall. intros d Hd Hh. rewrite forallb_forall in H1. apply list_elem_of_In, H1 in Hd.
      rewrite Hh in Hd. cbn [negb orb] in Hd. by bools.
    - rewrite nearest_other, mro_other, mro_exception. split; [reflexivity|]. split; [apply other_mro, list_elem_of_here|].
      apply Forall_forall. intros d Hd Hh. apply list_elem_of_singleton.
      apply elem_of_cons in Hd as [->|Hd%list_elem_of_singleton]; [discriminate Hh|exact Hd]. }
  destruct H as (Hh & Hm & Hall). split_and!; [done|by apply mro_sound|]. intros d [h Hd] Hs. apply mro_sound.
  rewrite Forall_forall in Hall. apply Hall; [by apply mro_complete|]. unfold has_handler. by rewrite Hd.
Qed.

(** What a text that is not the exception's says. *)
Definition fixed_texts : list pystr := [STORAGE_TEXT; UNEXPECTED_TEXT].

(** How a class's handler answers. *)
Definition answers_of (d : exn_class) (r : error_request) (e : exn) (p : JSONResponse) : Prop :=
  request_id (content p) = er_context r /\ thread_id (content p) = er_thread_id r /\
  (message (content p) = exn_text e /\ d <> Exception /\ d <> RAGStorageUnavailableError \/
   message (content p) ∈ fixed_texts /\ (d = Exception \/ d = RAGStorageUnavailableError)) /\
  (status_code p = 500 <-> d = Exception) /\
  (status_code p = 401 <-> d = AuthenticationError) /\
  (status_code p = 502 <-> d = ProviderError \/ d = ProviderUnavailableError) /\
  400 <= status_code p < 600.

Lemma handler_answers d h r e : exception_handler d = Some h -> answers_of d r e (h r e).
Proof.
  assert (Hf : STORAGE_TEXT ∈ fixed_texts) by (unfold fixed_texts; left).
  assert (Hg : UNEXPECTED_TEXT ∈ fixed_texts) by (unfold fixed_texts; right; left).
  destruct d; cbn [exception_handler]; try done; intros Hh; apply (inj Some) in Hh; subst h;
    unfold answers_of, tells, hides; cbn [content status_code request_id thread_id message _error_payload];
    (split; [reflexivity|]); (split; [reflexivity|]);
    (split; [(left; split; [reflexivity|split; discriminate]) || (right; split; [assumption|auto])|]);
    (split; [split; [discriminate || done|discriminate || done]|]);
    (split; [split; [discriminate || done|discriminate || done]|]);
    (split; [split; [discriminate || auto|intros [?|?]; discriminate || done]|lia]).
Qed.


(** A class without a handler of its own among its ancestors, [Exception] apart,
    never reveals its text: two exceptions of it get the same response. *)
Lemma unexpected_text_is_hidden `{StarletteLaws} r e1 e2 :
  exn_type e1 = exn_type e2 -> (forall d, handled d -> subclass (exn_type e1) d -> d = Exception) ->
  respond r e1 = respond r e2.
Proof.
  intros He Hn. unfold respond. rewrite <- He, lookup_nearest.
  destruct (nearest_least (exn_type e1)) as (Hh & Hs & _).
  rewrite (Hn (nearest (exn_type e1))); [reflexivity| |done]. unfold has_handler in Hh. unfold handled.
  by destruct (exception_handler _).
Qed.

(** ** A refused request

    The guard stores [reset_after] after the call that raises, so a refusal leaves
    [request.state] as it was. *)
Definition rate_limited (enabled : bool) (k : RateLimit.APIKey) (now : Z) (request_id thread : option pystr)
    (st : MemorySlidingWindowLimiter) : option (error_request * exn) :=
  match (require_rate_limit enabled k st now).2 with
  | Ok _ => None
  | Err (mkRateLimitError m) => Some (mkErrorRequest request_id thread None, mkExn RateLimitError m DEFAULT_RETRY_AFTER)
  end.

(** A refusal tells the client to come back in 60 seconds, whatever the window and
    the text of the error say. *)
Theorem refusal_says_sixty_seconds `{StarletteLaws} enabled k now i t st r e :
  rate_limited enabled k now i t st = Some (r, e) ->
  exists p, respond r e = Some p /\ status_code p = 429 /\ headers p = [(u "Retry-After", str_of_Z 60)] /\
    message (content p) = key_limit_message (acquire st (key_hash k) now).2.
Proof.
  unfold rate_limited, require_rate_limit, check_and_record. destruct enabled; [|done]. cbn [negb].
  destruct (acquire st (key_hash k) now) as [st' x]. destruct (negb (allowed x)); [|done]. cbn [snd fmap result_fmap].
  intros [= <- <-]. unfold respond. cbn [exn_type]. rewrite lookup_nearest.
  change (nearest RateLimitError) with RateLimitError. cbn [exception_handler fmap option_fmap option_map].
  eexists. split; [reflexivity|]. done.
Qed.

(** ** A reference for the laws, and one refusal *)

#[local] Instance reference_starlette : Starlette := {| lookup_handler handlers l := head (omap handlers l) |}.
#[local] Instance reference_starlette_laws : StarletteLaws := {| lookup_first _ _ := eq_refl |}.

Definition demo_error : exn := mkExn OllamaModelNotFoundError (u "no llama") DEFAULT_RETRY_AFTER.
Definition demo_error_request : error_request := mkErrorRequest (Some (u "r1")) None None.

Example demo_model_not_found :
  respond demo_error_request demo_error =
    Some (mkJSONResponse 404 (mkErrorResponse MODEL_NOT_FOUND (u "no llama") (Some (u "r1")) None) []).
Proof. vm_compute. reflexivity. Qed.


Definition full_limiter : MemorySlidingWindowLimiter :=
  mkLimiter 1 300 {[ u "k" := [1000000000] ]}.

Lemma refusal_says_sixty_seconds_witness :
  exists r e, rate_limited true (RateLimit.mkAPIKey (u "k") (u "n")) 2000000000 None None full_limiter = Some (r, e) /\
  exists p, respond r e = Some p /\ status_code p = 429 /\ headers p = [(u "Retry-After", str_of_Z 60)] /\
    message (content p) = key_limit_message (acquire full_limiter (u "k") 2000000000).2.
Proof.
  eexists (mkErrorRequest None None None), (mkExn RateLimitError (key_limit_message (mkRateLimitResult false 0 1 299)) _).
  assert (H : rate_limited true (RateLimit.mkAPIKey (u "k") (u "n")) 2000000000 None None full_limiter =
    Some (mkErrorRequest None None None,
          mkExn RateLimitError (key_limit_message (mkRateLimitResult false 0 1 299)) DEFAULT_RETRY_AFTER))
    by (vm_compute; reflexivity).
  split; [exact H|].
  exact (refusal_says_sixty_seconds true (RateLimit.mkAPIKey (u "k") (u "n")) 2000000000 None None full_limiter _ _ H).
Defined.
