(* ===== verification/AgentsApi.v ===== *)
(** * Routes of agents, tools and prompts: [app/api/agents.py], [tools.py], [prompts.py]

    The routes over the services of [AgentConfig] and [Prompts].  The identity is
    that of the request's context, or [None]; no route passes an actor, so that
    the services write no audit event.  The bounds of the request schemas are
    boolean functions.  Ids and clocks are arguments. *)

From Corelib Require Import SpecFloat.
From S2P Require Import Prelude RagText Auth Json ToolModels ToolExecutor Billing AuditLog Prompts AgentConfig AgentConfigProps.
Local Open Scope Z_scope.

(** What a route raises: [HTTPException], or an exception of the service. *)
Inductive route_error (E : Type) := HttpError (status : Z) (detail : pystr) | ServiceError (e : E).
Arguments HttpError {E} status detail.
Arguments ServiceError {E} e.

(** [identity.workspace_id if identity else None] *)
Definition workspace_of (i : option IdentityContext) : option pystr := i ≫= ic_workspace_id.

(** ** Agents *)

Record CreateAgentRequest := mkCreateAgentRequest {
  ca_name : pystr;
  ca_model : pystr;
  ca_prompt_ref : pystr;
  ca_tool_names : list pystr;
  ca_temperature : float64;
  ca_max_steps : Z
}.
Definition CreateAgentRequest_valid (b : CreateAgentRequest) : bool :=
  (1 <=? slen (ca_name b)) && (slen (ca_name b) <=? 128) && (1 <=? slen (ca_model b)) && (slen (ca_model b) <=? 128) &&
  (slen (ca_prompt_ref b) <=? 256) &&
  SFleb (float_of_decimal false 0 0) (ca_temperature b) && SFleb (ca_temperature b) (float_of_decimal false 2 0) &&
  (1 <=? ca_max_steps b) && (ca_max_steps b <=? 100).

(** [UpdateAgentRequest] is [agent_update]: its fields have no bounds. *)

Record AgentResponse := mkAgentResponse {
  ar_id : pystr;
  ar_workspace_id : pystr;
  ar_name : pystr;
  ar_model : pystr;
  ar_prompt_ref : pystr;
  ar_temperature : float64;
  ar_max_steps : Z;
  ar_enabled : bool;
  ar_tool_names : list pystr
}.
Definition agent_response (a : AgentRecord) (tools : list pystr) : AgentResponse :=
  mkAgentResponse (ag_id a) (ag_workspace_id a) (ag_name a) (ag_model a) (ag_prompt_ref a) (ag_temperature a)
    (ag_max_steps a) (ag_enabled a) tools.

Definition agent_not_found {E} : route_error E := HttpError 404 (u "Agent not found.").

Section AgentRoutes.
Context {R : Type} {B : BillingRepository R} {W : Type}.
Context (tool_registry : list (pystr * @Tool W)) (prompt_registry : option PromptRegistry).
Context (entitlement : option R).

Definition create_agent (now : Z) (new_id : pystr) (body : CreateAgentRequest) (identity : option IdentityContext)
    (s : agent_world) : result (route_error agent_error) AgentResponse * agent_world :=
  match workspace_of identity with
  | None => (Err (HttpError 400 (u "Workspace is required to create agents.")), s)
  | Some ws_id =>
      match AgentConfig.create_agent tool_registry prompt_registry entitlement now new_id ws_id (ca_name body)
              (ca_model body) (ca_prompt_ref body) (ca_tool_names body) (ca_temperature body) (ca_max_steps body)
              (identity ≫= ic_user_id) None s with
      | (Err e, s) => (Err (ServiceError e), s)
      | (Ok (a, tools), s) => (Ok (agent_response a tools), s)
      end
  end.

Definition list_agents (identity : option IdentityContext) (s : agent_world) : list AgentResponse :=
  match workspace_of identity with
  | None => []
  | Some ws_id => (fun a => agent_response a (get_agent_tools (ag_id a) s)) <$> AgentConfig.list_agents ws_id s
  end.

Definition get_agent (agent_id : pystr) (identity : option IdentityContext) (s : agent_world)
  : result (route_error agent_error) AgentResponse :=
  match workspace_of identity with
  | None => Err agent_not_found
  | Some ws_id =>
      match AgentConfig.get_agent agent_id (Some ws_id) (aw_repo s) with
      | None => Err agent_not_found
      | Some a => Ok (agent_response a (get_agent_tools agent_id s))
      end
  end.

Definition update_agent (now : Z) (agent_id : pystr) (body : agent_update) (identity : option IdentityContext)
    (s : agent_world) : result (route_error agent_error) AgentResponse * agent_world :=
  match workspace_of identity with
  | None => (Err agent_not_found, s)
  | Some ws_id =>
      match AgentConfig.update_agent tool_registry prompt_registry now agent_id (Some ws_id) body None s with
      | (Err e, s) => (Err (ServiceError e), s)
      | (Ok None, s) => (Err agent_not_found, s)
      | (Ok (Some a), s) => (Ok (agent_response a (get_agent_tools agent_id s)), s)
      end
  end.

Definition delete_agent (now : Z) (agent_id : pystr) (identity : option IdentityContext) (s : agent_world)
  : result (route_error agent_error) unit * agent_world :=
  match workspace_of identity with
  | None => (Err agent_not_found, s)
  | Some ws_id =>
      let '(deleted, s) := AgentConfig.delete_agent now agent_id (Some ws_id) None s in
      (if deleted then Ok tt else Err agent_not_found, s)
  end.

(** ** Tools: a row of the service's list, and whether the caller may toggle it *)

Record ToolResponse := mkToolResponse { tr_row : list (pystr * json); tr_can_manage : bool }.

Definition list_tools (identity : option IdentityContext) (s : agent_world) : list ToolResponse :=
  let ws_id := workspace_of identity in
  (fun row => mkToolResponse row (bool_decide (is_Some ws_id))) <$> list_tools_with_state tool_registry ws_id s.

Definition row_name (row : list (pystr * json)) : option json := dict_get (u "name") row.

Definition set_tool_enabled (now : Z) (tool_name : pystr) (enabled : bool) (identity : option IdentityContext)
    (s : agent_world) : result (route_error agent_error) ToolResponse * agent_world :=
  match workspace_of identity with
  | None => (Err (HttpError 400 (u "需要 workspace 才能修改工具启用状态。")), s)
  | Some ws_id =>
      match AgentConfig.set_tool_enabled tool_registry now ws_id tool_name enabled None s with
      | (Err (AgentValidation m), s) => (Err (HttpError 404 m), s)
      | (Err e, s) => (Err (ServiceError e), s)
      | (Ok override, s) =>
          (match filter (fun row => row_name row = Some (JStr (wt_tool_name override)))
                   (list_tools_with_state tool_registry (Some ws_id) s) with
           | [] => Err (HttpError 404 (u "Tool not found."))
           | row :: _ => Ok (mkToolResponse row true)
           end, s)
      end
  end.
End AgentRoutes.

(** ** Prompts *)

Record PromptSummaryResponse := mkPromptSummaryResponse {
  psr_name : pystr; psr_active_version : option Z; psr_versions : list PromptVersionSummary
}.
Record PromptVersionResponse := mkPromptVersionResponse {
  pvr_name : pystr;
  pvr_version : Z;
  pvr_content : pystr;
  pvr_variables : option (list (list (pystr * json)));
  pvr_is_active : bool
}.
Definition CreateVersionRequest_valid (content : pystr) : bool := 1 <=? slen content.
Definition ActivateRequest_valid (version : Z) : bool := 1 <=? version.

Definition list_prompts (identity : option IdentityContext) (g : PromptRegistry) : list PromptSummaryResponse :=
  let ws_id := workspace_of identity in
  let active := list_active_templates ws_id g in
  let seen := pr_name <$> active in
  ((fun r => mkPromptSummaryResponse (pr_name r) (Some (pr_version r)) (Prompts.list_versions (pr_name r) ws_id g)) <$> active) ++
  omap (fun name =>
    if base.decide (name ∈ seen) then None
    else match Prompts.list_versions name ws_id g with
         | [] => None
         | versions => Some (mkPromptSummaryResponse name None versions)
         end) (list_names ws_id g).

(** The content is left out. *)
Definition version_response (v : PromptVersionSummary) : PromptVersionResponse :=
  mkPromptVersionResponse (ps_name v) (ps_version v) [] None (ps_is_active v).

Definition list_versions (name : pystr) (identity : option IdentityContext) (g : PromptRegistry)
  : list PromptVersionResponse :=
  version_response <$> Prompts.list_versions name (workspace_of identity) g.

Definition create_version (now : Z) (name content : pystr) (variables : option (list (list (pystr * json))))
    (identity : option IdentityContext) (g : PromptRegistry) : PromptVersionResponse * PromptRegistry :=
  let '(p, g) := Prompts.create_version now name content (default [] variables) (workspace_of identity)
                   (identity ≫= ic_user_id) None g in
  (mkPromptVersionResponse (pr_name p) (pr_version p) (pr_content p) (Some (pr_variables p)) (pr_is_active p), g).

Definition activate_version (now : Z) (name : pystr) (version : Z) (identity : option IdentityContext)
    (g : PromptRegistry) : result (route_error unit) PromptVersionResponse * PromptRegistry :=
  let ws_id := workspace_of identity in
  let '(ok, g) := activate now name version ws_id None g in
  if negb ok then (Err (HttpError 404 (u "Version " ++ str_of_Z version ++ u " of '" ++ name ++ u "' not found.")), g)
  else
    let active := Prompts.list_versions name ws_id g in
    (match filter (fun v => ps_is_active v = true) active ++ option_list (head active) with
     | [] => Err (HttpError 500 (u "Activation failed."))
     | v :: _ => Ok (mkPromptVersionResponse (ps_name v) (ps_version v) [] None true)
     end, g).

(** * Theorems

    A caller reaches the agents of its own workspace only, a caller bound to a
    workspace writes the prompts of that workspace only; a caller without one
    writes the prompts that every workspace falls back to. *)

Section AgentTheorems.
Context {R : Type} {B : BillingRepository R} {W : Type}.
Context (tool_registry : list (pystr * @Tool W)) (prompt_registry : option PromptRegistry).
Context (entitlement : option R).

Inductive agent_request :=
| CreateAgent (now : Z) (new_id : pystr) (body : CreateAgentRequest)
| UpdateAgent (now : Z) (agent_id : pystr) (body : agent_update)
| DeleteAgent (now : Z) (agent_id : pystr)
| SetTool (now : Z) (tool_name : pystr) (enabled : bool).

(** The agent in the response, if any, and the services after the request. *)
Definition serve_agent (c : agent_request) (identity : option IdentityContext) (s : agent_world)
  : option AgentResponse * agent_world :=
  let body (p : result (route_error agent_error) AgentResponse * agent_world) :=
    (match p.1 with Ok r => Some r | Err _ => None end, p.2) in
  match c with
  | CreateAgent now new_id b => body (create_agent tool_registry prompt_registry entitlement now new_id b identity s)
  | UpdateAgent now i b => body (update_agent tool_registry prompt_registry now i b identity s)
  | DeleteAgent now i => (None, (delete_agent now i identity s).2)
  | SetTool now name b => (None, (set_tool_enabled tool_registry now name b identity s).2)
  end.

Definition fresh_agent (c : agent_request) (s : agent_world) : Prop :=
  match c with CreateAgent _ i _ => dict_get i (_agents (aw_repo s)) = None | _ => True end.

(** The agent of a write: the tools of others stay. *)
Lemma tools_other i names r k : k <> i ->
  repo_get_agent_tools k (set_agent_tools i names r) = repo_get_agent_tools k r.
Proof.
  intros Hk. unfold repo_get_agent_tools, set_agent_tools. cbn [_agent_tools]. rewrite filter_app.
  assert (Hn : forall l n, filter (fun t => at_agent_id t = k) (number_tools i n l) = []).
  { induction l as [|x l IH]; intros n; [done|]. cbn [number_tools]. by rewrite filter_cons_False. }
  rewrite Hn, app_nil_r. induction (_agent_tools r) as [|t l IH]; [done|].
  rewrite filter_cons. destruct (base.decide (at_agent_id t <> i)) as [Hi|Hi].
  - rewrite !filter_cons, IH. done.
  - rewrite IH. rewrite filter_cons_False; [done|]. intros E. apply Hi. congruence.
Qed.

Definition keeps_others (ws : pystr) (i : pystr) (s s' : agent_world) : Prop :=
  aw_audit s' = aw_audit s /\
  forall k, k <> i -> repo_get_agent_tools k (aw_repo s') = repo_get_agent_tools k (aw_repo s).

Lemma create_keeps now i ws name model pref tools t m by_ s :
  keeps_others ws i s
    (AgentConfig.create_agent tool_registry prompt_registry entitlement now i ws name model pref tools t m by_ None s).2.
Proof.
  unfold AgentConfig.create_agent. destruct (_ ≫= _) as [[]|e]; [|by split]. destruct tools as [|x l]; [by split|].
  destruct (_validate_tool_names _ _ _ _) as [bound|e]; [|by split]. split; [done|]. intros k Hk. cbn [snd aw_repo]. by rewrite tools_other.
Qed.

Lemma update_keeps now i ws f s :
  keeps_others ws i s (AgentConfig.update_agent tool_registry prompt_registry now i (Some ws) f None s).2.
Proof.
  unfold AgentConfig.update_agent. destruct (AgentConfig.get_agent _ _ _) as [a|]; [|by split].
  destruct (match au_prompt_ref f with Some _ => _ | None => _ end) as [[]|e]; [|by split].
  unfold repo_update_agent. destruct (dict_has _ _).
  all: destruct (au_tool_names f) as [names|]; [|by split].
  all: destruct (_validate_tool_names _ _ _ _) as [bound|e]; cbn; [|by split].
  all: split; [done|]; intros k Hk; cbn [snd aw_repo]; by rewrite tools_other.
Qed.

Lemma delete_keeps now i ws s : keeps_others ws i s (AgentConfig.delete_agent now i (Some ws) None s).2.
Proof.
  unfold AgentConfig.delete_agent. destruct (AgentConfig.get_agent _ _ _) as [a|]; [|by split].
  unfold repo_delete_agent. by destruct (dict_has _ _).
Qed.

Lemma set_tool_keeps now ws name b s i :
  keeps_others ws i s (AgentConfig.set_tool_enabled tool_registry now ws name b None s).2.
Proof. unfold AgentConfig.set_tool_enabled. by destruct (registry_get _ _). Qed.

(** A request that gets past the workspace check is a call of the service for the
    caller's workspace, which leaves the audit log and the tools of the agents of
    others as they are. *)
Lemma serve_call c identity ws s : workspace_of identity = Some ws -> fresh_agent c s ->
  let s' := (serve_agent c identity s).2 in
  agent_call tool_registry prompt_registry entitlement ws s s' /\ aw_audit s' = aw_audit s /\
  forall k a, dict_get k (_agents (aw_repo s)) = Some a -> ag_workspace_id a <> ws ->
    repo_get_agent_tools k (aw_repo s') = repo_get_agent_tools k (aw_repo s).
Proof.
  intros Hw Hf. unfold serve_agent. destruct c as [now i b|now i b|now i|now name b]; cbn [fresh_agent] in Hf.
  - pose proof (create_keeps now i ws (ca_name b) (ca_model b) (ca_prompt_ref b) (ca_tool_names b) (ca_temperature b)
      (ca_max_steps b) (identity ≫= ic_user_id) s) as [Ha Ht]. pose proof (CallCreateAgent tool_registry prompt_registry
      entitlement ws s now i (ca_name b) (ca_model b) (ca_prompt_ref b) (ca_tool_names b) (ca_temperature b)
      (ca_max_steps b) (identity ≫= ic_user_id) None Hf) as Hc.
    unfold create_agent. rewrite Hw. destruct (AgentConfig.create_agent _ _ _ _ _ _ _ _ _ _ _ _ _ _ _) as [[[a l]|e] s'];
      (split; [exact Hc|]; split; [exact Ha|]; intros k x Hk _; apply Ht; cbn [snd] in *; congruence).
  - pose proof (update_keeps now i ws b s) as [Ha Ht].
    pose proof (CallUpdateAgent tool_registry prompt_registry entitlement ws s now i b None) as Hc.
    assert (Hsame : forall k x, dict_get k (_agents (aw_repo s)) = Some x -> ag_workspace_id x <> ws -> k = i ->
      (AgentConfig.update_agent tool_registry prompt_registry now i (Some ws) b None s).2 = s).
    { intros k x Hk Hx ->. unfold AgentConfig.update_agent, AgentConfig.get_agent, find_agent_by_id. rewrite Hk.
      cbn [mbind option_bind]. by rewrite decide_False. }
    unfold update_agent. rewrite Hw. destruct (AgentConfig.update_agent _ _ _ _ _ _ _ _) as [[[a|]|e] s'];
      (split; [exact Hc|]; split; [exact Ha|]; intros k x Hk Hx; cbn [snd] in *;
       destruct (base.decide (k = i)) as [Hki|Hki]; [by rewrite (Hsame k x Hk Hx Hki)|by apply Ht]).
  - pose proof (delete_keeps now i ws s) as [Ha Ht].
    pose proof (CallDeleteAgent tool_registry prompt_registry entitlement ws s now i None) as Hc.
    assert (Hsame : forall k x, dict_get k (_agents (aw_repo s)) = Some x -> ag_workspace_id x <> ws -> k = i ->
      (AgentConfig.delete_agent now i (Some ws) None s).2 = s).
    { intros k x Hk Hx ->. unfold AgentConfig.delete_agent, AgentConfig.get_agent, find_agent_by_id. rewrite Hk.
      cbn [mbind option_bind]. by rewrite decide_False. }
    unfold delete_agent. rewrite Hw. destruct (AgentConfig.delete_agent _ _ _ _ _) as [b s'].
    split; [exact Hc|]; split; [exact Ha|]; intros k x Hk Hx; cbn [snd] in *.
    destruct (base.decide (k = i)) as [Hki|Hki]; [by rewrite (Hsame k x Hk Hx Hki)|by apply Ht].
  - pose proof (set_tool_keeps now ws name b s) as Hkeep.
    pose proof (CallSetTool tool_registry prompt_registry entitlement ws s now name b None) as Hc.
    unfold set_tool_enabled. rewrite Hw. destruct (AgentConfig.set_tool_enabled _ _ _ _ _ _ _) as [[t|[m|e]] s'];
      (split; [exact Hc|]; split; [apply (Hkeep [])|]; intros k x Hk _; destruct (Hkeep (k ++ [0%N])) as [_ Ht];
       apply Ht; intros E; apply (f_equal length) in E; rewrite length_app in E; simpl in E; lia).
Qed.

Lemma response_of_caller c identity s a s' : serve_agent c identity s = (Some a, s') -> agents_ok (aw_repo s) ->
  workspace_of identity = Some (ar_workspace_id a).
Proof.
  unfold serve_agent. intros H Hok. destruct c as [now i b|now i b|now i|now name b]; [| |discriminate..].
  - unfold create_agent in H. destruct (workspace_of identity) as [ws|]; [|discriminate].
    unfold AgentConfig.create_agent in H. destruct (_ ≫= _) as [[]|e]; [|discriminate].
    destruct (ca_tool_names b) as [|n l]; [by injection H as <- _|].
    destruct (_validate_tool_names _ _ _ _); [by injection H as <- _|discriminate].
  - unfold update_agent in H. destruct (workspace_of identity) as [ws|]; [|discriminate].
    unfold AgentConfig.update_agent in H. destruct (AgentConfig.get_agent _ _ _) as [x|] eqn:Hg; [|discriminate].
    apply get_agent_ws in Hg as [_ Hx].
    destruct (match au_prompt_ref b with Some _ => _ | None => _ end) as [[]|e]; [|discriminate].
    unfold repo_update_agent in H. destruct (dict_has _ _).
    all: destruct (au_tool_names b) as [names|]; [destruct (_validate_tool_names _ _ _ _) as [bound|e]; cbn in H|];
      try discriminate; injection H as <- _; cbn; congruence.
Qed.

End AgentTheorems.

(** An agent is created with a number of steps between 1 and 100; an update takes
    any number, and a blank name. *)
Theorem update_has_no_bounds {W : Type} (tool_registry : list (pystr * @Tool W)) prompt_registry now i identity ws a steps s :
  workspace_of identity = Some ws -> AgentConfig.get_agent i (Some ws) (aw_repo s) = Some a -> ag_id a = i ->
  exists r, (update_agent tool_registry prompt_registry now i
      (mkAgentUpdate (Some (u " ")) None None None None (Some steps) None) identity s).1 = Ok r /\
    ar_max_steps r = steps /\ ar_name r = [].
Proof.
  intros Hw Hg Hi. unfold update_agent. rewrite Hw. unfold AgentConfig.update_agent. rewrite Hg.
  cbn [au_prompt_ref au_tool_names]. unfold repo_update_agent, dict_has. cbn [_agents with_agents].
  change (ag_id (set_numbers _ (set_texts _ a))) with (ag_id a). rewrite Hi, dict_get_set, decide_True by done.
  eexists. split; [reflexivity|]. split; reflexivity.
Qed.

(** ** Prompts *)

Inductive prompt_request :=
| CreateVersion (now : Z) (name content : pystr) (variables : option (list (list (pystr * json))))
| ActivateVersion (now : Z) (name : pystr) (version : Z).
Definition serve_prompt (c : prompt_request) (identity : option IdentityContext) (g : PromptRegistry) : PromptRegistry :=
  match c with
  | CreateVersion now name content variables => (create_version now name content variables identity g).2
  | ActivateVersion now name version => (activate_version now name version identity g).2
  end.

Lemma activate_version_repo now name v identity g :
  prg_repo (activate_version now name v identity g).2 = (set_active (workspace_of identity) name v (prg_repo g)).2 /\
  prg_audit (activate_version now name v identity g).2 = prg_audit g.
Proof.
  unfold activate_version, activate. destruct (set_active _ _ _ _) as [b r]. by destruct b.
Qed.

Lemma activate_first_other ws name v ws' name' l : ws' <> ws ->
  filter (of_template ws' name') (activate_first ws name v (deactivate ws name <$> l)) = filter (of_template ws' name') l.
Proof.
  intros Hne.
  assert (H1 : forall l, filter (of_template ws' name') (activate_first ws name v l) = filter (of_template ws' name') l).
  { clear l. induction l as [|p l IH]; [done|]. cbn [activate_first]. destruct (base.decide _) as [[[Hp _] _]|_].
    - rewrite !filter_cons_False; [done|intros [? _]; congruence|intros [E _]; cbn in E; congruence].
    - rewrite !filter_cons, IH. done. }
  rewrite H1. induction l as [|p l IH]; [done|]. rewrite fmap_cons, !filter_cons, IH. unfold deactivate.
  destruct (base.decide (of_template ws name p)) as [[Hp Hn]|_]; [|done].
  rewrite (decide_False (P := of_template ws' name' p)) by (intros [? _]; congruence).
  rewrite decide_False; [done|]. intros [E _]. cbn in E. congruence.
Qed.

Lemma prompts_elsewhere c identity g ws name : ws <> workspace_of identity ->
  repo_list_versions ws name (prg_repo (serve_prompt c identity g)) = repo_list_versions ws name (prg_repo g) /\
  prg_audit (serve_prompt c identity g) = prg_audit g.
Proof.
  intros Hne. destruct c as [now n content vars|now n v]; cbn [serve_prompt].
  - split; [|done]. unfold repo_list_versions. cbn. rewrite filter_snoc_template, decide_False, app_nil_r; [done|].
    intros [E _]. cbn in E. congruence.
  - destruct (activate_version_repo now n v identity g) as [-> ->]. split; [|done]. unfold set_active.
    destruct (find_by_name_and_version _ _ _ _); [|done]. unfold repo_list_versions. cbn [snd pr_records].
    by apply activate_first_other.
Qed.

(** The routes of prompts write the scope of the caller: the workspace of its key,
    or the global templates for a key without one.  Every template of another
    workspace has the same versions with the same contents and flags as before, and
    no route writes to the audit log. *)
Theorem prompt_routes_isolated c identity g ws name : ws <> workspace_of identity ->
  repo_list_versions ws name (prg_repo (serve_prompt c identity g)) = repo_list_versions ws name (prg_repo g) /\
  prg_audit (serve_prompt c identity g) = prg_audit g.
Proof. apply prompts_elsewhere. Qed.

(** The version just created is found, with its content. *)
Lemma created_version_found now name content vars identity g : registry_ok g ->
  let '(v, g1) := create_version now name content vars identity g in
  exists p, find_by_name_and_version (workspace_of identity) name (pvr_version v) (prg_repo g1) = Some p /\
    pr_content p = content.
Proof.
  intros Hok. unfold create_version, Prompts.create_version, repo_create_version. cbn [prg_repo pr_version pvr_version].
  unfold find_by_name_and_version. cbn [pr_records]. rewrite filter_app.
  destruct (Hok (workspace_of identity) name) as [Hv _].
  rewrite (none_left _ (pr_records (prg_repo g))).
  - cbn [app]. rewrite filter_cons_True; [eexists; split; [reflexivity|done]|]. by split.
  - intros x Hx [Ht Hxv]. unfold repo_list_versions in Hxv. rewrite next_version_ok in Hxv by apply Hok.
    assert (Hin : pr_version x ∈ versions_of (workspace_of identity) name (pr_records (prg_repo g))).
    { unfold versions_of. apply list_elem_of_fmap. exists x. split; [done|]. by apply list_elem_of_filter. }
    rewrite Hv in Hin. apply list_elem_of_fmap in Hin as (n & Hn & Hs). apply elem_of_seq in Hs. lia.
Qed.

Lemma find_active_listed ws name r :
  find_active ws name r = head (filter (fun p => pr_is_active p = true) (repo_list_versions ws name r)).
Proof. rewrite find_active_actives. reflexivity. Qed.

Lemma active_listed l a : head (filter (fun p => pr_is_active p = true) l) = Some a ->
  exists l', filter (fun v => ps_is_active v = true) (summary_of <$> l) = summary_of a :: l'.
Proof.
  induction l as [|x l IH]; [done|]. rewrite fmap_cons, !filter_cons. cbn [summary_of ps_is_active].
  destruct (base.decide (pr_is_active x = true)); [|exact IH]. intros [= ->]. by eexists.
Qed.

Lemma activated_response audit g now name v identity p : prompt_reachable audit g -> workspace_of identity = None ->
  find_by_name_and_version None name v (prg_repo g) = Some p ->
  let res := activate_version now name v identity g in
  (exists x, res.1 = Ok x /\ pvr_version x = v) /\
  forall filling fallback, render name filling fallback None res.2 = fill (pr_content p) filling.
Proof.
  intros Hr Hw Hp. destruct (activation_selects audit g now None name v None Hr) as (Hact & Hsel & _).
  pose proof (proj2 Hact (ex_intro _ p Hp)) as Hok. unfold activate_version. rewrite Hw.
  pose proof (fun fl fb => Hsel p fl fb _ Hp (or_introl eq_refl)) as Hren.
  destruct (activate now name v None None g) as [b g2]. cbn [fst snd] in *. subst b. cbn [negb].
  split; [|intros fl fb; apply (Hren fl fb)]. destruct (Hren [] []) as [Hres _].
  unfold resolve_version, resolved in Hres.
  destruct (find_active None name (prg_repo g2)) as [a|] eqn:Ha; [|discriminate]. cbn in Hres.
  rewrite find_active_listed in Ha. apply active_listed in Ha as [l Hl].
  assert (Hlist : Prompts.list_versions name None g2 = summary_of <$> repo_list_versions None name (prg_repo g2))
    by (unfold Prompts.list_versions; by destruct (repo_list_versions _ _ _)).
  cbn [fst]. rewrite Hlist, Hl. cbn [app]. eexists. split; [reflexivity|]. cbn. congruence.
Qed.

(** A key that is bound to no workspace, whosever it is, rewrites the prompts of
    all of them: a version that it creates and activates is what every workspace
    without an active template of its own renders from then on. *)
Theorem unbound_key_rewrites_prompts audit g now now' name content variables identity :
  prompt_reachable audit g -> workspace_of identity = None ->
  let '(v, g1) := create_version now name content variables identity g in
  let '(res, g2) := activate_version now' name (pvr_version v) identity g1 in
  (exists p, res = Ok p /\ pvr_version p = pvr_version v) /\
  forall w filling fallback, find_active (Some w) name (prg_repo g) = None ->
    render name filling fallback (Some w) g2 = fill content filling.
Proof.
  intros Hr Hw. pose proof (prompt_reachable_ok _ _ Hr) as Hok.
  pose proof (created_version_found now name content variables identity g Hok) as Hf. rewrite Hw in Hf.
  assert (Hs1 : prompt_step g (create_version now name content variables identity g).2)
    by (unfold create_version; apply StepCreate).
  assert (Hkeep : forall c w g, find_active (Some w) name (prg_repo (serve_prompt c identity g)) = find_active (Some w) name (prg_repo g)).
  { intros c w h. rewrite !find_active_listed, (proj1 (prompts_elsewhere c identity h (Some w) name ltac:(congruence))). done. }
  pose proof (fun w => Hkeep (CreateVersion now name content variables) w g) as Hk1. cbn [serve_prompt] in Hk1.
  destruct (create_version now name content variables identity g) as [v g1]. cbn [snd] in *. destruct Hf as (p & Hp & Hpc).
  destruct (activated_response audit g1 now' name (pvr_version v) identity p (PromptCall _ _ _ Hr Hs1) Hw Hp) as [Hres Hren].
  pose proof (fun w => Hkeep (ActivateVersion now' name (pvr_version v)) w g1) as Hk2. cbn [serve_prompt] in Hk2.
  destruct (activate_version now' name (pvr_version v) identity g1) as [res g2]. cbn [fst snd] in *.
  split; [exact Hres|]. intros w filling fallback Hno. rewrite <- Hpc, <- (Hren filling fallback).
  unfold render, resolved. rewrite Hk2, Hk1, Hno. by destruct (find_active None name (prg_repo g2)).
Qed.

(** ** Two workspaces and a key without one *)

Definition demo_identity (ws : option pystr) : option IdentityContext :=
  Some (mkIdentity (Some (u "ann")) ws None (u "hash") None).
Definition demo_create : agent_request :=
  CreateAgent 1 (u "a1") (mkCreateAgentRequest (u "Helper") (u "m") [] [] (float_of_decimal false 7 (-1)) 10).
Definition demo_agents0 : agent_world := mkAgentWorld agent_repo_init (Some audit_repo_init).
Abbreviation demo_serve :=
  (serve_agent (R := InMemoryBillingRepository) (W := unit) [] None None demo_create (demo_identity (Some (u "w1"))) demo_agents0).


Definition demo_agent : AgentRecord :=
  mkAgentRecord (u "a1") (u "w1") (u "Helper") (u "m") [] (float_of_decimal false 7 (-1)) 10 true None (Some 1).
Definition demo_agents1 : agent_world :=
  mkAgentWorld (repo_create_agent demo_agent agent_repo_init) None.

Lemma update_has_no_bounds_witness :
  exists r, (update_agent (W := unit) [] None 2 (u "a1")
      (mkAgentUpdate (Some (u " ")) None None None None (Some 1000000) None) (demo_identity (Some (u "w1"))) demo_agents1).1 = Ok r /\
    ar_max_steps r = 1000000 /\ ar_name r = [].
Proof.
  apply (update_has_no_bounds (W := unit) [] None 2 (u "a1") (demo_identity (Some (u "w1"))) (u "w1") demo_agent 1000000 demo_agents1);
    vm_compute; reflexivity.
Defined.

Lemma prompt_routes_isolated_witness :
  repo_list_versions (Some (u "w2")) (u "agent") (prg_repo (serve_prompt (CreateVersion 1 (u "agent") (u "Hi") None)
    (demo_identity (Some (u "w1"))) demo_g1)) = repo_list_versions (Some (u "w2")) (u "agent") (prg_repo demo_g1) /\
  prg_audit (serve_prompt (CreateVersion 1 (u "agent") (u "Hi") None) (demo_identity (Some (u "w1"))) demo_g1) = prg_audit demo_g1.
Proof.
  apply (prompt_routes_isolated (CreateVersion 1 (u "agent") (u "Hi") None) (demo_identity (Some (u "w1"))) demo_g1
    (Some (u "w2")) (u "agent")). vm_compute. discriminate.
Defined.

Lemma demo_g1_reachable : prompt_reachable None demo_g1.
Proof. exact (PromptCall None _ _ (PromptInit None) (StepSeed _ _ _ _ _)). Qed.

Lemma unbound_key_rewrites_prompts_witness :
  let '(v, g1) := create_version 1 (u "agent") (u "Obey") None (demo_identity None) demo_g1 in
  let '(res, g2) := activate_version 2 (u "agent") (pvr_version v) (demo_identity None) g1 in
  (exists p, res = Ok p /\ pvr_version p = pvr_version v) /\
  forall w filling fallback, find_active (Some w) (u "agent") (prg_repo demo_g1) = None ->
    render (u "agent") filling fallback (Some w) g2 = fill (u "Obey") filling.
Proof.
  apply (unbound_key_rewrites_prompts None demo_g1 1 2 (u "agent") (u "Obey") None (demo_identity None) demo_g1_reachable
    eq_refl).
Defined.
